(* ===== verification/_CoqProject ===== *)
-Q . S2P
Prelude.v
F64.v
Text.v
Ethers.v
Config.v
AmmV2.v
AmmV3.v
Selector.v
Simulator.v
PoolCache.v
Encoder.v
Rpc.v
RpcFacts.v
Pnl.v
Payload.v
PayloadFacts.v
PayloadProps.v
Opportunity.v
Budget.v
Guard.v
Adaptive.v
AdaptiveFacts.v
Learners.v
Executor.v
ExecutorFacts.v
ExecutorProps.v
Calldata.v
Decode.v
AbiRef.v
DecodeFacts.v
DecodeProps.v
EnvVars.v
ConfigEnv.v
ConfigFacts.v
ConfigProps.v
Gates.v
Intake.v
Batch.v
BatchFacts.v
IntakeFacts.v
PayloadErrors.v
Routes.v
Samples.v
Diagnosis.v
Evaluate.v
Lookup.v
RouteFacts.v
EvaluateFacts.v
EvaluateProps.v
LookupProps.v
DiagnosisProps.v
AmountFacts.v
MainLoop.v
LoopBooks.v
MainLoopFacts.v
LoopTurns.v
MainLoopProps.v
Replay.v
ReplayFacts.v
TextFacts.v
ReplayProps.v
Storage.v
Telemetry.v
TelemetryFacts.v
Dashboard.v
DashboardHandle.v
DashboardFacts.v
DashboardShown.v
DashboardSample.v
DashboardProps.v
DashboardFigures.v
DashboardControl.v
UnsupportedCalls.v
Wallets.v
Pinning.v
LoadTest.v
LoadTestProps.v
Probes.v
Background.v
BackgroundProps.v
