(* ===== verification/Prelude.v ===== *)
(** * Verification of the arbitrage-runtime engine

    The program watches pending transactions, decodes the swaps in them, builds
    a flash swap that profits from each, and submits it. This library models its
    decision logic, under [src/], and proves what the parts promise each other.
    This first file is also the prelude: notation, tactics and lemmas that the
    components share.

    ** The program and the files

    A hash or a transaction arrives from a feed and goes through these parts.

    - Intake ([mev/runtime.rs]: [mark_seen_tx], the scan arm of [run], the gate
      before decoding, the back-pressure): [Intake], theorems in [IntakeFacts].
      State: the 8192 hashes seen last, the window of the lookups admitted, the
      fleet of endpoints.
    - Lookup and decoding ([process_lookup_decode_task], [decode_relevant_swap]
      and the decoders): [Lookup], [Calldata], [Decode]; theorems in [LookupProps],
      [DecodeFacts], [DecodeProps]. [AbiRef] has the law of the ABI decoder and a
      decoder that satisfies it. [Selector] is [mev/decoder/simd.rs].
    - What was not decoded is diagnosed: [Diagnosis] ([diagnose_decode_reject] and the
      route intelligence of aggregators), theorems in [DiagnosisProps]; what a
      payload shows at each gate is [Samples].
    - Evaluation ([process_evaluation_task], the gates, the routes, the errors of
      payload building): [Evaluate], [Gates], [Routes], [PayloadErrors],
      [EnvVars]; lemmas in [RouteFacts] and [EvaluateFacts], theorems in
      [EvaluateProps]. State: the endpoints and the pool cache, the policy, the
      replay counters, the trace of what is shown.
    - Pools and payloads: [AmmV2] and [AmmV3] ([mev/amm]), [Simulator]
      ([mev/simulation]), [PoolCache] ([mev/cache]), [Encoder]
      ([mev/execution/contract_encoder.rs] and [flashloan_builder.rs]), [Payload]
      ([payload_builder.rs]); theorems in [PayloadFacts] and [PayloadProps] and at
      the end of the other files.
    - The micro-batch that picks one of the candidates that are ready: [Batch],
      [BatchFacts].
    - The executor ([mev/execution/executor.rs]): [Budget] ([CapitalBudget]),
      [Guard] ([ExecutionGuard]), [Executor] ([handle] and what it calls); lemmas in
      [ExecutorFacts], theorems in [ExecutorProps]. State: the fleet, the profit and
      loss, the policy, the budget, the guards, the trace of what is sent.
    - Beside the main loop: [Background] has the worker of the replay queue, the
      refresh of the policy, the monitor of the wallets ([main.rs]), the warnings of
      the start and what the trace of a candidate's stages reports ([LatencyTrace]);
      theorems in [BackgroundProps]. [UnsupportedCalls] is the way of a
      diagnosis through its text into the dashboard's table.
    - Starting: [Config::load] and what reads the environment for it
      ([config.rs]) are [ConfigEnv]; lemmas in [ConfigFacts], theorems in
      [ConfigProps]. The wallet files ([wallets.rs]) are [Wallets], the cores asked for
      ([mev/execution/pinning.rs]) [Pinning].
    - The benchmarks ([benchmark.rs]): [LoadTest] drives synthetic swaps through the
      hot gate and reports what it counted and how long it took, theorems in
      [LoadTestProps]; [Probes] measures and ranks the endpoints. State: the clock of a
      worker, its policy, its report.
    - The replay harness ([replay.rs]) runs recorded transactions through the
      stages above on a fork: [Replay], lemmas in [ReplayFacts], theorems in
      [ReplayProps] ([TextFacts] has lemmas on strings and printed numbers). State:
      the clock and the pools, what was sent to the fork, the policy, the books.
    - What is reported goes to the dashboard ([dashboard.rs]) and from there to the
      storage ([storage.rs]) and a file. [Storage] has the tables, every statement
      that writes or prunes them, the queries and the text of the exports;
      [Telemetry] the rotating file; [Dashboard] the state that is shown and the
      figures computed from it; [DashboardHandle] the handle with the writes it
      gathers, the reports, the flush, the snapshot and the requests. State: the
      tables; the files; the state shown, the gathered writes, the observer's
      window, the fleet, the mode and the thresholds. [DashboardFacts] makes the
      operations the steps of a system and has the lemmas on its ledgers,
      [DashboardShown] the invariant of the state and that every call returns,
      [DashboardSample] a concrete database, clock and directory; the theorems are
      in [TelemetryFacts], [DashboardProps], [DashboardFigures] and
      [DashboardControl].
    - What all of them use: [Rpc] and [RpcFacts] ([rpc.rs]), [Adaptive],
      [AdaptiveFacts] and [Learners] ([mev/adaptive.rs]; the last one its estimators,
      which nothing calls), [Pnl], [Opportunity], [Config]
      (the records of [config.rs]), [Ethers] (the data of the library), [Text] and [F64] (what
      Rust's library does with strings and floats).

    [Lookup.process_task] composes lookup and evaluation, [Batch] takes its result,
    and [Executor.handle] what the batch hands over. [MainLoop] is [run] itself: its
    queues, its workers and the arms of its [select!], with what the rest of the
    program changes between them, as a step relation over the state of all the parts;
    a worker whose task panics is gone. [LoopBooks] has the lemmas on its queues,
    [MainLoopFacts] and [AmountFacts] those on what its workers hand over,
    [LoopTurns] a scheduler that runs it, and the theorems are in [MainLoopProps].

    ** What the theorems show

    - Money: a payload pays its flash loan and its gas, on V2 and V3; the quote of
      a route is the pools' own swaps in sequence; repayments restore the pair's
      invariant, exactly; no sequence of swaps takes value out of a pool.
    - Submission: what [handle] submits was authorised by every guard, is settled
      once, within budgets that refine a ledger of all reservations, at fees within
      the caps; endpoints out of service are not used, and no relay whose context is
      frozen (a direct endpoint is used though its context is frozen).
    - Candidates: what a decoder calls relevant is well formed; nested decoding
      terminates; a hash is looked up once; the candidate for evaluation is the
      transaction an endpoint has; what leaves the gates satisfies each of them.
    - The whole loop: no run of it calls the executor, unless the mode is changed while
      a candidate is evaluated, and then one does
      ([MainLoopProps.a_torn_evaluation_submits]); what was passed on is looked up,
      queued or dropped, each once and in order; when as many lookups have panicked as
      there are workers, no lookup is ever finished again.
    - Configuration: what [load] returns is within the bounds the code clamps to,
      its endpoints have names of their own, and an environment without a variable
      the network needs is refused.
    - Replay: the report of a run counts exactly its verdicts and balances; what is
      executed passed every stage; the tuning selected is the best of the grid, and
      its file, read by [ConfigEnv], pins the next search to it.
    - Reports: what is counted is in the tables or waiting for the flush, never
      twice, and exactly so while the database answers; what the dashboard holds
      stays within its limits; a request takes effect as a whole or changes
      nothing; the telemetry file keeps the end of what is written while its file
      operations succeed; the breakdown of the rejections accounts for all of them.
    - Diagnosis: the reason shown of a router's swap is the stage at which the decoder
      rejects; what is shown of an unsupported call is read back from its text; the
      stage panics for a gas limit that does not fit, and for nothing else of its own.
    - Benchmarks: a load test counts each of its cases once, every scenario tests what
      its name says, its budget tolerates among n cases as many slow ones as (n - 1) / 100
      rounded up; a probe that never succeeds does not count in an endpoint's score.
    - Files and tasks: both formats of the wallet file load the same from the same
      keys; no replay is ever scored but as watch.
    - What the figures do not say: the average of a latency sticks below the mean,
      a ninth reason of rejection is never shown, and the current report of the
      observer is always warming up.
    - What the code does not do: while the mode is not changed under it,
      [process_evaluation_task] never hands over an opportunity
      ([EvaluateProps.no_opportunity_is_ever_ready]), because outside
      the scavenger mode the route goes back through the borrowed pair, because V3
      states have no ticks, and because the scavenger mode asks for a signed
      transaction no builder makes; some inputs panic a worker.

    ** Conventions

    - An integer of a width is a [Z]; where the code saturates, wraps or converts,
      so does the definition ([u64_sadd], [u256_smul], [wrap_i32], [as_u64]). The
      build is the release one, where [+] wraps. [f64] is the binary64 of the
      Standard Library, with a single NaN.
    - A panic is [Panicked] of [outcome]; a [Result] is [string + A] with [inl] the
      error; an [Option] is [option].
    - Stateful code is a function on a record that is threaded: [RpcM], [ExecM],
      [RouteM], [EvalM], [StorageM], [DashM], [LoadM] are the monads. Locks are not
      modelled as such: tasks run one after another, in any order a
      [completion_order] or a list of events gives, but for the mode and the
      thresholds, which a task of the loop finds changed at any of its readings
      ([LookupRead], [EvalRead]); a poisoned lock is [None] where the code distinguishes it.
    - Time: [clk i] is the [i]-th reading of the clock, in nanoseconds, non-decreasing
      where a theorem needs it. The environment is a function from names to values.
    - Code outside [src/] is a parameter: the ABI codec, the hash, signatures, the
      EVM, [ln], [exp], [powf], rendering and parsing of floats and ether amounts, JSON, and
      what endpoints and the chain answer (the classes [Host], [Chain], [Endpoints],
      [Surroundings], [Outside], [ReplayNode], for the benchmarks [Machine] and [Probed],
      and for the reports [Database], [Chrono], [Files], [Panel]). Laws assumed of
      them are named: [AbiShrinks] (a decoding yields no more bytes than it reads),
      [AbiUnsigned] (a decoded [uint] is not negative), [AbiCodec] (decoding what was
      encoded), [PlainDebug] (addresses and hashes are printed without blanks, commas
      and brackets), [chain_ok] (112-bit reserves, two distinct tokens).
    - Strings are ASCII. A sort by a comparison that is not a total order may panic
      in Rust; the models sort by the comparison as it is.

    ** Bounds

    Recursion is structural but for the decoding of calls inside calls, which has
    a level per byte of calldata and is shown to need no more
    ([DecodeProps.nested_decoding_terminates]); the code's own bounds are kept: 10
    rounds of the receipt probe, 4 levels of sub-plans, 8192 hashes, 4 candidates.

    ** Not modelled

    Network and file I/O (WebSocket subscriptions, HTTP with the pages, streams and
    downloads of the dashboard's server, the connection to the database with its
    schemas and migrations, writing the exports), tokio's scheduling, the order in
    which [main] builds the parts and what it logs, the machine's description in the
    load test, the contracts; of what the evaluation reports to the dashboard,
    the times of its stages (what is made of them is in [Background]) and the detail
    text of a gate that rejects. *)

From stdpp Require Export base gmap strings list sorting.
From Stdlib Require Export ZArith Lia.

#[global] Open Scope Z_scope.

(** ** Machine integers

    Every fixed-width integer of the program is a [Z] together with the range
    of its Rust type; wrap-around and saturation are written out. *)

Definition U256 : Type := Z.
Definition Address : Type := Z.
Definition H256 : Type := Z.
Definition u64 : Type := Z.
Definition u32 : Type := Z.
Definition u8 : Type := Z.
Abbreviation usize := nat (only parsing).
(** Byte strings ([Bytes], [Vec<u8>], [&[u8]]): lists of [u8]. *)
Definition Bytes : Type := list Z.

Definition U256_MAX : Z := Eval cbv in 2 ^ 256 - 1.
Definition U64_MAX : Z := Eval cbv in 2 ^ 64 - 1.
Definition U32_MAX : Z := Eval cbv in 2 ^ 32 - 1.

Definition is_u256 (x : Z) : Prop := 0 <= x <= U256_MAX.
Definition is_u64 (x : Z) : Prop := 0 <= x <= U64_MAX.
Definition is_u32 (x : Z) : Prop := 0 <= x <= U32_MAX.
Definition is_u8 (x : Z) : Prop := 0 <= x < 256.
Definition is_u112 (x : Z) : Prop := 0 <= x < 2 ^ 112.

(** [saturating_add], [saturating_sub], [saturating_mul] at a given maximum. *)
Definition sat_add (mx a b : Z) : Z := Z.min (a + b) mx.
Definition sat_sub (a b : Z) : Z := Z.max (a - b) 0.
Definition sat_mul (mx a b : Z) : Z := Z.min (a * b) mx.

Abbreviation u256_sadd := (sat_add U256_MAX).
Abbreviation u256_smul := (sat_mul U256_MAX).
Abbreviation u64_sadd := (sat_add U64_MAX).
Abbreviation u64_smul := (sat_mul U64_MAX).
Abbreviation u32_sadd := (sat_add U32_MAX).
Abbreviation u32_smul := (sat_mul U32_MAX).

Create HintDb sat.
#[export] Hint Extern 5 (_ <= _) => lia : sat.
#[export] Hint Extern 5 (_ < _) => lia : sat.

Lemma sat_mul_nonneg mx a b : 0 <= mx -> 0 <= a -> 0 <= b -> 0 <= sat_mul mx a b.
Proof. unfold sat_mul; nia. Qed.
Lemma sat_add_nonneg mx a b : 0 <= mx -> 0 <= a -> 0 <= b -> 0 <= sat_add mx a b.
Proof. unfold sat_add; lia. Qed.
Lemma sat_sub_nonneg a b : 0 <= sat_sub a b.
Proof. unfold sat_sub; lia. Qed.
Lemma sat_mul_le mx a b : sat_mul mx a b <= mx.
Proof. unfold sat_mul; lia. Qed.
Lemma sat_add_le mx a b : sat_add mx a b <= mx.
Proof. unfold sat_add; lia. Qed.
Lemma sat_mul_small mx a b : a * b <= mx -> sat_mul mx a b = a * b.
Proof. unfold sat_mul; lia. Qed.
Lemma sat_add_small mx a b : a + b <= mx -> sat_add mx a b = a + b.
Proof. unfold sat_add; lia. Qed.
Lemma sat_sub_small a b : b <= a -> sat_sub a b = a - b.
Proof. unfold sat_sub; lia. Qed.
Lemma U256_MAX_nonneg : 0 <= U256_MAX.
Proof. done. Qed.
Lemma U64_MAX_nonneg : 0 <= U64_MAX.
Proof. done. Qed.
Lemma U32_MAX_nonneg : 0 <= U32_MAX.
Proof. done. Qed.
#[export] Hint Resolve sat_mul_nonneg sat_add_nonneg sat_sub_nonneg sat_mul_le sat_add_le
  U256_MAX_nonneg U64_MAX_nonneg U32_MAX_nonneg Z.div_pos : sat.

(** Unchecked arithmetic of the release profile. *)
Definition wrap64 (x : Z) : Z := x mod 2 ^ 64.
Definition wrap32 (x : Z) : Z := x mod 2 ^ 32.

(** [Ord::clamp] on integers. *)
Definition clampZ (lo hi x : Z) : Z := Z.min (Z.max x lo) hi.

(** ** Time

    An [Instant] is a number of nanoseconds since a fixed origin; a function
    that reads the clock takes the value it reads as an argument. *)
Definition Instant : Type := Z.
Definition millis : Z := 1000000.
Definition secs : Z := 1000000000.
(** [t.elapsed()] at [now]: never negative. *)
Definition elapsed (now t : Instant) : Z := Z.max (now - t) 0.
Definition elapsed_ms (now t : Instant) : Z := elapsed now t / millis.
Definition elapsed_secs (now t : Instant) : Z := elapsed now t / secs.

(** ** Computations that may panic *)

Inductive outcome (A : Type) : Type :=
| Done (a : A)
| Panicked.
Arguments Done {A} _.
Arguments Panicked {A}.

#[export] Instance outcome_ret : MRet outcome := @Done.
#[export] Instance outcome_bind : MBind outcome := fun A B f m =>
  match m with Done a => f a | Panicked => Panicked end.

(** The [?] operator on an [Option] inside code that may panic. *)
Definition obind {A B} (m : outcome (option A)) (f : A -> outcome (option B)) :
  outcome (option B) :=
  match m with
  | Done (Some a) => f a
  | Done None => Done None
  | Panicked => Panicked
  end.

(** [Option::or_else] inside code that may panic. *)
Definition oor_else {A} (m k : outcome (option A)) : outcome (option A) :=
  match m with Done None => k | r => r end.

(** Computations that fail with a message: [Result<A, String>]. *)
Definition res (A : Type) : Type := outcome (string + A).
Definition ok {A} (a : A) : res A := Done (inr a).
Definition fail {A} (e : string) : res A := Done (inl e).
Definition rbind {A B} (m : res A) (f : A -> res B) : res B :=
  match m with
  | Done (inr a) => f a
  | Done (inl e) => Done (inl e)
  | Panicked => Panicked
  end.
Definition ok_or {A} (o : option A) (e : string) : res A :=
  match o with Some a => ok a | None => fail e end.
Definition of_result {A} (r : string + A) : res A := Done r.
Definition of_outcome {A} (m : outcome A) : res A :=
  match m with Done a => ok a | Panicked => Panicked end.

Declare Scope rt_scope.
Delimit Scope rt_scope with rt.
Notation "x <-? m ;; k" := (obind m (fun x => k))
  (at level 100, m at next level, right associativity) : rt_scope.
Notation "x <-! m ;; k" := (mbind (M:=outcome) (fun x => k) m)
  (at level 100, m at next level, right associativity) : rt_scope.
Notation "x <-r m ;; k" := (rbind m (fun x => k))
  (at level 100, m at next level, right associativity) : rt_scope.
#[global] Open Scope rt_scope.

(** A fallible, panicking computation that starts from an [Option]. *)
Definition opt {A} (m : option A) : outcome (option A) := Done m.

(** [/] on [U256]: a zero divisor panics. *)
Definition u256_div (a b : Z) : outcome Z :=
  if b =? 0 then Panicked else Done (a / b).

(** [U256::as_u32]: a value that does not fit panics. *)
Definition as_u32 (x : Z) : outcome Z :=
  if x <=? U32_MAX then Done x else Panicked.

(** ** Record update

    [r <[ f ::= v ]>] is the record [r] with field [f] set to [v]: the
    assignments [state.f = v] of the program. *)

Definition spread {R A B} (f : R -> A -> B) (x : R -> A) (r : R) : B := f r (x r).
Class RecordEta (R : Type) := record_eta : R -> R.
Class Assign {R A} (p : R -> A) := assign : (A -> A) -> R -> R.
#[global] Arguments assign {R A} p {_} _ _ /.

Ltac solve_assign :=
  match goal with
  | |- @Assign ?R ?A ?p =>
      let inst := constr:(_ : RecordEta R) in
      let body := eval red in inst in
      let abs := eval pattern p in body in
      match abs with
      | ?g _ =>
          let t := constr:(fun (h : A -> A) => g (fun r : R => h (p r))) in
          let t := eval cbv beta delta [spread] in t in
          exact t
      end
  end.
#[global] Hint Extern 1 (Assign _) => solve_assign : typeclass_instances.

Notation "r <[ f ::= v ]>" := (assign f (fun _ => v) r)
  (at level 1, f at next level, left associativity) : rt_scope.
Notation "'fields' c" := (fun _ => c) (at level 10, only parsing) : rt_scope.
Notation "c <&> p" := (spread c p) (at level 50, left associativity, only parsing) : rt_scope.

(** ** Loops and iterator adaptors *)

(** A [for] loop that pushes at most one element per iteration. *)
Definition push_loop {A B} (body : A -> option B) (l : list A) : list B :=
  foldl (fun acc x => match body x with Some y => acc ++ [y] | None => acc end) [] l.

(** The same loop when its body may panic. *)
Fixpoint push_loop_o {A B} (body : A -> outcome (option B)) (l : list A) : outcome (list B) :=
  match l with
  | [] => Done []
  | x :: l =>
      y <-! body x;; ys <-! push_loop_o body l;;
      Done match y with Some y => y :: ys | None => ys end
  end.

Lemma push_loop_acc {A B} (body : A -> option B) l acc :
  foldl (fun acc x => match body x with Some y => acc ++ [y] | None => acc end) acc l
  = acc ++ omap body l.
Proof.
  revert acc; induction l as [|x l IH]; intros acc; simpl.
  - by rewrite app_nil_r.
  - destruct (body x) eqn:E; rewrite IH; simpl; rewrite ?E; [by rewrite <- app_assoc|done].
Qed.

Lemma push_loop_omap {A B} (body : A -> option B) l : push_loop body l = omap body l.
Proof. exact (push_loop_acc body l []). Qed.

(** [Iterator::max_by]: the last of several maxima. *)
Definition max_by {A} (cmp : A -> A -> comparison) (l : list A) : option A :=
  match l with
  | [] => None
  | x :: l => Some (foldl (fun best y => match cmp best y with Gt => best | _ => y end) x l)
  end.
(** [Iterator::min_by]: the first of several minima. *)
Definition min_by {A} (cmp : A -> A -> comparison) (l : list A) : option A :=
  match l with
  | [] => None
  | x :: l => Some (foldl (fun best y => match cmp best y with Gt => y | _ => best end) x l)
  end.

Section MaxBy.
Context {A : Type} (key : A -> Z).
Let cmp (a b : A) := Z.compare (key a) (key b).

Lemma max_by_fold l x :
  let m := foldl (fun best y => match cmp best y with Gt => best | _ => y end) x l in
  exists l1 l2, x :: l = l1 ++ m :: l2 /\
    (forall y, y ∈ l1 -> key y <= key m) /\ (forall y, y ∈ l2 -> key y < key m).
Proof.
  simpl; revert x; induction l as [|y l IH]; intros x; simpl.
  - exists [], []; repeat split; intros ? H; inversion H.
  - destruct (IH (match cmp x y with Gt => x | _ => y end)) as (l1 & l2 & E & H1 & H2).
    set (m := foldl _ _ _) in *.
    unfold cmp in *; destruct (Z.compare_spec (key x) (key y)) as [K|K|K].
    1,2: exists (x :: l1), l2; rewrite E; repeat split; auto; intros z Hz;
      apply elem_of_cons in Hz as [->|Hz]; [|auto];
      transitivity (key y); [lia|]; destruct l1 as [|z l1]; simpl in E; injection E as <- ?;
      [lia | apply H1; set_solver].
    destruct l1 as [|z l1]; simpl in E; injection E as E1 E2; rewrite ?E1 in *.
    + exists [], (y :: l2); rewrite E2; repeat split; auto.
      intros w Hw; apply elem_of_cons in Hw as [->|Hw]; auto; lia.
    + subst z. assert (key x <= key m) by (apply H1; set_solver).
      exists (x :: y :: l1), l2; rewrite E2; repeat split; auto.
      intros w Hw. apply elem_of_cons in Hw as [->|Hw]; auto.
      apply elem_of_cons in Hw as [->|Hw]; [lia|]. apply H1; set_solver.
Qed.

Lemma max_by_spec l m :
  max_by cmp l = Some m ->
  exists l1 l2, l = l1 ++ m :: l2 /\
    (forall y, y ∈ l1 -> key y <= key m) /\ (forall y, y ∈ l2 -> key y < key m).
Proof.
  destruct l as [|x l]; simpl; [done|]. intros [= <-]. apply max_by_fold.
Qed.
End MaxBy.

Lemma max_by_elem {A} (cmp : A -> A -> comparison) l m : max_by cmp l = Some m -> m ∈ l.
Proof.
  destruct l as [|x l]; simpl; [done|]. intros [= <-]. revert x.
  induction l as [|y l IH]; intros x; simpl; [apply list_elem_of_here|].
  set (b := match cmp x y with Gt => x | _ => y end).
  specialize (IH b). apply elem_of_cons in IH as [->|IH].
  - unfold b. destruct (cmp x y); [apply list_elem_of_further, list_elem_of_here| |apply list_elem_of_here].
    apply list_elem_of_further, list_elem_of_here.
  - by do 2 apply list_elem_of_further.
Qed.

(** For a total preorder the result of [max_by] is not below any element. *)
Lemma max_by_top {A} (cmp : A -> A -> comparison) l m :
  (forall x, cmp x x <> Lt) ->
  (forall x y z, cmp x y <> Lt -> cmp y z <> Lt -> cmp x z <> Lt) ->
  (forall x y, cmp x y <> Gt -> cmp y x <> Lt) ->
  max_by cmp l = Some m -> forall x, x ∈ l -> cmp m x <> Lt.
Proof.
  intros R T S. destruct l as [|x0 l]; [done|]. simpl. intros [= <-]. revert x0.
  induction l as [|y l IH]; intros x0; simpl.
  { intros x [->|[]%elem_of_nil]%elem_of_cons. apply R. }
  set (b := match cmp x0 y with Gt => x0 | _ => y end).
  assert (Bx : cmp b x0 <> Lt) by (unfold b; destruct (cmp x0 y) eqn:E; [apply S|apply S|apply R]; congruence).
  assert (By : cmp b y <> Lt) by (unfold b; destruct (cmp x0 y) eqn:E; [apply R|apply R|congruence]).
  specialize (IH b). intros x [->|[->|X]%elem_of_cons]%elem_of_cons.
  - eapply T; [apply IH; left|exact Bx].
  - eapply T; [apply IH; left|exact By].
  - apply IH. by right.
Qed.

(** [Iterator::position]. *)
Fixpoint position {A} (p : A -> bool) (l : list A) : option nat :=
  match l with
  | [] => None
  | x :: l => if p x then Some 0%nat else S <$> position p l
  end.

Lemma position_Some {A} (p : A -> bool) l i :
  position p l = Some i -> exists x, l !! i = Some x /\ p x = true.
Proof.
  revert i; induction l as [|x l IH]; intros i; simpl; [done|].
  destruct (p x) eqn:E; [intros [= <-]; by exists x|].
  destruct (position p l) as [j|]; simpl; [|done]. intros [= <-]. by apply IH.
Qed.

Lemma position_None {A} (p : A -> bool) l :
  position p l = None <-> forall x, x ∈ l -> p x = false.
Proof.
  induction l as [|x l IH]; simpl; [split; [set_solver|done]|].
  destruct (p x) eqn:E; [split; [done|intros H; rewrite H in E; [done|apply list_elem_of_here]]|].
  destruct (position p l) as [j|]; simpl.
  - split; [done|]. intros H. assert (Some j = None) as [=]. apply IH.
    intros y Hy; by apply H, list_elem_of_further.
  - split; [|done]. intros _ y [->|Hy]%elem_of_cons; [done|]. by apply IH.
Qed.

(** A stable sort by a comparison: what [sort_by] returns whenever the
    comparison is a total preorder. *)
Fixpoint insert_by {A} (cmp : A -> A -> comparison) (x : A) (l : list A) : list A :=
  match l with
  | [] => [x]
  | y :: l' => match cmp x y with Gt => y :: insert_by cmp x l' | _ => x :: l end
  end.
Definition sort_by {A} (cmp : A -> A -> comparison) (l : list A) : list A :=
  foldr (insert_by cmp) [] l.

Lemma insert_by_perm {A} (cmp : A -> A -> comparison) x l : insert_by cmp x l ≡ₚ x :: l.
Proof.
  induction l as [|y l IH]; simpl; [done|].
  destruct (cmp x y); try done. rewrite IH. constructor.
Qed.
Lemma sort_by_perm {A} (cmp : A -> A -> comparison) l : sort_by cmp l ≡ₚ l.
Proof. induction l as [|x l IH]; simpl; [done|]. by rewrite insert_by_perm, IH. Qed.

(** [slice[..n].rotate_left(k)]. *)
Definition rotate_front {A} (n k : nat) (l : list A) : list A :=
  drop k (take n l) ++ take k (take n l) ++ drop n l.
Lemma rotate_front_perm {A} n k (l : list A) : rotate_front n k l ≡ₚ l.
Proof.
  unfold rotate_front. rewrite (assoc (++)), (Permutation_app_comm (drop k (take n l))).
  by rewrite take_drop, take_drop.
Qed.

(** The key of a sorted list never falls. *)
Section SortBy.
Context {A : Type} (key : A -> Z).
Let cmp (a b : A) := Z.compare (key a) (key b).

Definition sorted_keys (l : list A) : Prop :=
  forall i j x y, (i <= j)%nat -> l !! i = Some x -> l !! j = Some y -> key x <= key y.

Lemma sorted_keys_cons x l :
  sorted_keys (x :: l) <-> (forall y, y ∈ l -> key x <= key y) /\ sorted_keys l.
Proof.
  split.
  - intros S. split.
    + intros y [j Hj]%list_elem_of_lookup. by apply (S 0%nat (Datatypes.S j) x y); [lia| |].
    + intros i j y z L Hi Hj. by apply (S (Datatypes.S i) (Datatypes.S j)); [lia| |].
  - intros [F S] [|i] [|j] y z L Hi Hj; simpl in *; simplify_eq; try lia.
    + apply F, list_elem_of_lookup. eauto.
    + by apply (S i j); [lia| |].
Qed.

Lemma insert_by_sorted x l : sorted_keys l -> sorted_keys (insert_by cmp x l).
Proof.
  induction l as [|y l IH]; intros S; simpl.
  { apply sorted_keys_cons. split; [|done]. intros z H. inversion H. }
  pose proof S as [F Sl]%sorted_keys_cons. unfold cmp in *.
  destruct (Z.compare_spec (key x) (key y)) as [E|E|E].
  1,2: apply sorted_keys_cons; split; [|done]; intros z [->|Hz]%elem_of_cons; [lia|];
    specialize (F z Hz); lia.
  apply sorted_keys_cons. split; [|by apply IH]. intros z Hz. rewrite insert_by_perm in Hz.
  apply elem_of_cons in Hz as [->|Hz]; [lia|by apply F].
Qed.

Lemma sort_by_sorted l : sorted_keys (sort_by cmp l).
Proof.
  induction l as [|x l IH]; simpl; [|by apply insert_by_sorted].
  intros i j y z _ H. by rewrite lookup_nil in H.
Qed.
End SortBy.

(** ** Queues of timed items

    [drop_while] pops the front as long as a test holds; on a queue in the order
    of its times, when the test only spares later items, that is a filter. *)

Fixpoint drop_while {A} (p : A -> bool) (q : list A) : list A :=
  match q with
  | x :: q' => if p x then drop_while p q' else q
  | [] => []
  end.

Lemma filter_all {A} (P : A -> Prop) `{!forall x, Decision (P x)} l : Forall P l -> filter P l = l.
Proof. induction 1 as [|x l Hx _ IH]; [done|]. by rewrite filter_cons_True, IH. Qed.

Lemma Forall_filter_keep {A} (Q P : A -> Prop) `{!forall x, Decision (P x)} l :
  Forall Q l -> Forall Q (filter P l).
Proof. rewrite !Forall_forall. intros F x [_ E]%list_elem_of_filter. by apply F. Qed.

Section Queue.
Context {A : Type} (time : A -> Z).

Fixpoint ordered (q : list A) : Prop :=
  match q with
  | [] => True
  | x :: q => Forall (fun y => time x <= time y) q /\ ordered q
  end.

Lemma ordered_filter (P : A -> Prop) `{!forall x, Decision (P x)} q : ordered q -> ordered (filter P q).
Proof.
  induction q as [|x q IH]; [done|]. intros [F S]. rewrite filter_cons.
  case_decide; [|by apply IH]. split; [|by apply IH]. by apply Forall_filter_keep.
Qed.

Lemma ordered_app q x : ordered q -> Forall (fun y => time y <= time x) q -> ordered (q ++ [x]).
Proof.
  induction q as [|y q IH]; intros O F; simpl; [done|].
  destruct O as [Fy O]. apply Forall_cons in F as [L F]. split; [|by apply IH].
  apply Forall_app. split; [done|]. by apply Forall_singleton.
Qed.

Lemma ordered_tail q : ordered q -> ordered (tail q).
Proof. destruct q; [done|]. by intros [_ O]. Qed.

Lemma drop_while_filter (p : A -> bool) q :
  (forall x y, time x <= time y -> p x = false -> p y = false) ->
  ordered q -> drop_while p q = filter (fun x => p x = false) q.
Proof.
  intros Later. induction q as [|x q IH]; intros O; [done|]. destruct O as [F O]. simpl.
  destruct (p x) eqn:E.
  - rewrite filter_cons_False by congruence. by apply IH.
  - rewrite filter_cons_True by done. f_equal. symmetry. apply filter_all.
    eapply Forall_impl; [exact F|]. intros y L. exact (Later x y L E).
Qed.
End Queue.

(** ** Case analysis on guards and early returns

    [split_if] splits on the first test of the goal, [split_step] on the
    first test, match or bound computation; both discard the branches that
    [done] closes. *)
Ltac split_if :=
  match goal with |- context [if ?b then _ else _] => destruct b eqn:?; try done end.
Ltac split_step :=
  match goal with
  | |- context [mbind _ ?m] => destruct m eqn:?; simpl; try done
  | |- context [obind ?m _] => destruct m as [[?|]|] eqn:?; simpl; try done
  | |- context [if ?b then _ else _] => destruct b eqn:?; simpl; try done
  | |- context [match ?m with _ => _ end] => destruct m eqn:?; simpl; try done
  end.

(** Boolean tests of the context as propositions. *)
Ltac simplify_tests :=
  repeat match goal with
  | H : _ || _ = false |- _ => apply orb_false_iff in H as [? ?]
  | H : _ && _ = true |- _ => apply andb_true_iff in H as [? ?]
  | H : negb _ = true |- _ => apply negb_true_iff in H
  | H : negb _ = false |- _ => apply negb_false_iff in H
  | H : (_ =? _)%Z = true |- _ => apply Z.eqb_eq in H
  | H : (_ =? _)%Z = false |- _ => apply Z.eqb_neq in H
  | H : (_ <=? _)%Z = true |- _ => apply Z.leb_le in H
  | H : (_ <=? _)%Z = false |- _ => apply Z.leb_gt in H
  | H : (_ <? _)%Z = true |- _ => apply Z.ltb_lt in H
  | H : (_ <? _)%Z = false |- _ => apply Z.ltb_ge in H
  | H : (_ =? _)%nat = true |- _ => apply Nat.eqb_eq in H
  | H : (_ =? _)%nat = false |- _ => apply Nat.eqb_neq in H
  | H : (_ <=? _)%nat = true |- _ => apply Nat.leb_le in H
  | H : (_ <=? _)%nat = false |- _ => apply Nat.leb_gt in H
  | H : (_ <? _)%nat = true |- _ => apply Nat.ltb_lt in H
  | H : (_ <? _)%nat = false |- _ => apply Nat.ltb_ge in H
  | H : bool_decide _ = true |- _ => apply bool_decide_eq_true in H
  | H : bool_decide _ = false |- _ => apply bool_decide_eq_false in H
  end.
