(* ===== verification/F64.v ===== *)
(** * IEEE 754 binary64

    The program's [f64].  Values are the Standard Library's [spec_float] at
    precision 53 and maximal exponent 1024; the four operations and [sqrt]
    round to nearest, ties to even, as Rust's do.  The file adds what Rust's
    [core] defines on top of them: [max], [min], [clamp], [total_cmp], the
    saturating [as] casts, [floor], [ceil], [round], [powi] and the rendering
    by [{:.0}].

    There is one NaN: its sign and payload, which only [total_cmp] and
    [to_bits] can observe, are those of the canonical positive quiet NaN. *)
From S2P Require Import Prelude.
From Stdlib Require Export SpecFloat.
From Stdlib Require Import Decimal DecimalZ.

Definition f64 : Type := spec_float.

Declare Scope f64_scope.
Delimit Scope f64_scope with f64.
Bind Scope f64_scope with spec_float.
Bind Scope f64_scope with f64.

(** ** Constants *)

Definition f64_nan : f64 := S754_nan.
Definition f64_inf : f64 := S754_infinity false.
Definition f64_zero : f64 := S754_zero false.

(** The binary64 number nearest to [(-1)^neg * n / d]. *)
Definition f64_of_ratio (neg : bool) (n d : positive) : f64 :=
  let '(q, e, l) := SFdiv_core_binary 53 1024 (Zpos n) 0 (Zpos d) 0 in
  binary_round_aux 53 1024 neg q e l.

(** Decimal literals, rounded correctly. *)
Definition f64_of_dec (i : Decimal.signed_int) (f : Decimal.uint) (ex : Z) : f64 :=
  let '(neg, u) :=
    match i with Decimal.Pos u => (false, u) | Decimal.Neg u => (true, u) end in
  let n := Z.of_uint (Decimal.app u f) in
  let k := ex - Z.of_nat (Decimal.nb_digits f) in
  match n with
  | Zpos p =>
      if 0 <=? k then f64_of_ratio neg (Z.to_pos (n * 10 ^ k)) 1
      else f64_of_ratio neg p (Z.to_pos (10 ^ (- k)))
  | _ => S754_zero neg
  end.

Definition f64_of_number (n : Number.number) : option f64 :=
  match n with
  | Number.Decimal (Decimal.Decimal i f) => Some (f64_of_dec i f 0)
  | Number.Decimal (Decimal.DecimalExp i f e) => Some (f64_of_dec i f (Z.of_int e))
  | _ => None
  end.
Definition f64_to_number (x : f64) : option Number.number := None.
Number Notation spec_float f64_of_number f64_to_number : f64_scope.

(** ** Arithmetic and comparison *)

Definition fadd : f64 -> f64 -> f64 := SFadd 53 1024.
Definition fsub : f64 -> f64 -> f64 := SFsub 53 1024.
Definition fmul : f64 -> f64 -> f64 := SFmul 53 1024.
Definition fdiv : f64 -> f64 -> f64 := SFdiv 53 1024.
Definition fsqrt : f64 -> f64 := SFsqrt 53 1024.
Definition fneg : f64 -> f64 := SFopp.
Definition fabs : f64 -> f64 := SFabs.
Definition flt : f64 -> f64 -> bool := SFltb.
Definition fle : f64 -> f64 -> bool := SFleb.
Definition feq : f64 -> f64 -> bool := SFeqb.

Notation "a + b" := (fadd a b) : f64_scope.
Notation "a - b" := (fsub a b) : f64_scope.
Notation "a * b" := (fmul a b) : f64_scope.
Notation "a / b" := (fdiv a b) : f64_scope.
Notation "a <? b" := (flt a b) : f64_scope.
Notation "a <=? b" := (fle a b) : f64_scope.
Notation "a =? b" := (feq a b) : f64_scope.
Notation "a >? b" := (flt b a) : f64_scope.
Notation "a >=? b" := (fle b a) : f64_scope.

Definition is_nan (x : f64) : bool := match x with S754_nan => true | _ => false end.
Definition is_finite (x : f64) : bool :=
  match x with S754_zero _ | S754_finite _ _ _ => true | _ => false end.

(** [f64::max] and [f64::min] drop a NaN operand. *)
Definition fmax (a b : f64) : f64 :=
  if is_nan a then b else if is_nan b then a else if flt a b then b else a.
Definition fmin (a b : f64) : f64 :=
  if is_nan a then b else if is_nan b then a else if flt b a then b else a.

(** [f64::clamp]: the assertion [min <= max], then two tests that a NaN
    [self] passes through. *)
Definition fclamp_in (x lo hi : f64) : f64 :=
  let x := if flt x lo then lo else x in
  if flt hi x then hi else x.
Definition fclamp (x lo hi : f64) : outcome f64 :=
  if fle lo hi then Done (fclamp_in x lo hi) else Panicked.
Definition fclamp01 (x : f64) : f64 := fclamp_in x 0 1.

(** [Iterator::sum] starts at minus zero. *)
Definition fsum (l : list f64) : f64 := foldl fadd (S754_zero true) l.

(** [f64::total_cmp]: the order of the bit patterns read as sign and magnitude. *)
Definition f64_key (x : f64) : Z :=
  let signed (s : bool) (mag : Z) := if s then - 1 - mag else mag in
  match x with
  | S754_zero s => signed s 0
  | S754_finite s m e => signed s ((e + 1074) * 2 ^ 52 + Zpos m)
  | S754_infinity s => signed s (2047 * 2 ^ 52)
  | S754_nan => 2047 * 2 ^ 52 + 2 ^ 51
  end.
Definition total_cmp (a b : f64) : comparison := Z.compare (f64_key a) (f64_key b).

(** ** Conversions *)

(** [n as f64] for an integer, and the parse of its decimal digits. *)
Definition f64_of_Z (n : Z) : f64 := binary_normalize 53 1024 n 0 false.
Definition f64_of_bool (b : bool) : f64 := if b then 1%f64 else 0%f64.
Definition f64_of_nat (n : nat) : f64 := f64_of_Z (Z.of_nat n).

(** Rounding of [m * 2^e] to an integer: towards zero, and the remaining half. *)
Definition mag_trunc (m : positive) (e : Z) : Z :=
  if 0 <=? e then Zpos m * 2 ^ e else Zpos m / 2 ^ (- e).
Definition mag_half (m : positive) (e : Z) : comparison :=
  if 0 <=? e then Lt else Z.compare (2 * (Zpos m mod 2 ^ (- e))) (2 ^ (- e)).
Definition mag_exact (m : positive) (e : Z) : bool :=
  if 0 <=? e then true else (Zpos m mod 2 ^ (- e) =? 0).

(** [x as uN]/[x as iN]: truncation, saturation, NaN to zero. *)
Definition f64_trunc (x : f64) : Z :=
  match x with
  | S754_finite s m e => if s then - mag_trunc m e else mag_trunc m e
  | _ => 0
  end.
Definition f64_as_int (lo hi : Z) (x : f64) : Z :=
  match x with
  | S754_infinity s => if s then lo else hi
  | S754_nan => 0
  | _ => clampZ lo hi (f64_trunc x)
  end.
Definition f64_as_u64 : f64 -> Z := f64_as_int 0 U64_MAX.
Definition f64_as_u32 : f64 -> Z := f64_as_int 0 U32_MAX.
Definition f64_as_u16 : f64 -> Z := f64_as_int 0 65535.
Definition f64_as_u8 : f64 -> Z := f64_as_int 0 255.
Definition f64_as_i32 : f64 -> Z := f64_as_int (- 2 ^ 31) (2 ^ 31 - 1).
Definition f64_as_i64 : f64 -> Z := f64_as_int (- 2 ^ 63) (2 ^ 63 - 1).
Definition f64_as_usize (x : f64) : nat := Z.to_nat (f64_as_u64 x).

(** An integer with the sign of a zero kept, as [floor] and [round] return it. *)
Definition f64_of_signed (s : bool) (n : Z) : f64 :=
  if n =? 0 then S754_zero s else f64_of_Z (if s then - n else n).
Definition ffloor (x : f64) : f64 :=
  match x with
  | S754_finite s m e =>
      f64_of_signed s (mag_trunc m e + (if s && negb (mag_exact m e) then 1 else 0))
  | _ => x
  end.
Definition fceil (x : f64) : f64 :=
  match x with
  | S754_finite s m e =>
      f64_of_signed s (mag_trunc m e + (if negb s && negb (mag_exact m e) then 1 else 0))
  | _ => x
  end.
(** [f64::round]: half away from zero. *)
Definition fround (x : f64) : f64 :=
  match x with
  | S754_finite s m e =>
      f64_of_signed s (mag_trunc m e + match mag_half m e with Lt => 0 | _ => 1 end)
  | _ => x
  end.
(** The integer [{:.0}] prints: half to even. *)
Definition mag_half_even (m : positive) (e : Z) : Z :=
  let t := mag_trunc m e in
  match mag_half m e with
  | Lt => t
  | Gt => t + 1
  | Eq => if Z.even t then t else t + 1
  end.

(** [Duration::as_secs_f64], and [Duration::from_secs_f64]: the nearest
    nanosecond, ties to even; a negative, non-finite or too large number panics. *)
Definition duration_as_secs_f64 (d : Z) : f64 :=
  fadd (f64_of_Z (d / secs)) (fdiv (f64_of_Z (d mod secs)) 1e9).
Definition round_ratio_half_even (n d : Z) : Z :=
  let q := n / d in
  match Z.compare (2 * (n mod d)) d with
  | Lt => q
  | Gt => q + 1
  | Eq => if Z.even q then q else q + 1
  end.
Definition duration_from_secs_f64 (x : f64) : outcome Z :=
  match x with
  | S754_zero _ => Done 0
  | S754_finite false m e =>
      let ns := if 0 <=? e then Zpos m * 2 ^ e * secs
                else round_ratio_half_even (Zpos m * secs) (2 ^ (- e)) in
      if ns <? 2 ^ 64 * secs then Done ns else Panicked
  | _ => Panicked
  end.

(** [f64::powi]: repeated squaring, a reciprocal at the end when [n < 0]. *)
Fixpoint powi_pos (a r : f64) (p : positive) : f64 :=
  match p with
  | xH => fmul r a
  | xO p => powi_pos (fmul a a) r p
  | xI p => powi_pos (fmul a a) (fmul r a) p
  end.
Definition fpowi (a : f64) (n : Z) : f64 :=
  match n with
  | Z0 => 1%f64
  | Zpos p => powi_pos a 1%f64 p
  | Zneg p => fdiv 1%f64 (powi_pos a 1%f64 p)
  end.

#[global] Arguments fadd _ _ : simpl never.
#[global] Arguments fsub _ _ : simpl never.
#[global] Arguments fmul _ _ : simpl never.
#[global] Arguments fdiv _ _ : simpl never.
#[global] Arguments fsqrt _ : simpl never.
#[global] Arguments flt _ _ : simpl never.
#[global] Arguments fle _ _ : simpl never.
#[global] Arguments feq _ _ : simpl never.
#[global] Arguments fmax _ _ : simpl never.
#[global] Arguments fmin _ _ : simpl never.
#[global] Arguments fclamp_in _ _ _ : simpl never.
#[global] Arguments fclamp _ _ _ : simpl never.
#[global] Arguments f64_of_Z _ : simpl never.
#[global] Arguments f64_as_int _ _ _ : simpl never.
#[global] Arguments total_cmp _ _ : simpl never.
#[global] Arguments fpowi _ _ : simpl never.

(** ** Mantissa bounds

    [short x]: a finite [x] has a mantissa of at most 53 bits.  Every operation
    returns a short number, which is what bounds the integer casts. *)

Definition short (x : f64) : Prop :=
  match x with S754_finite _ m _ => Zpos m < 2 ^ 53 | _ => True end.

Lemma digits2_pos_size m : digits2_pos m = Pos.size m.
Proof. induction m; simpl; congruence. Qed.

Lemma Zdigits2_gt m : 0 <= m -> m < 2 ^ Zdigits2 m.
Proof.
  destruct m as [|m|m]; simpl; [done| |lia]. intros _.
  rewrite digits2_pos_size, <- (Pos2Z.inj_pow 2). apply Pos2Z.pos_lt_pos, Pos.size_gt.
Qed.

Lemma shr_1_m r : 0 <= shr_m r -> shr_m (shr_1 r) = shr_m r / 2.
Proof.
  destruct r as [m r s]; simpl.
  destruct m as [|[p|p|]|p]; simpl; intros H; try done; try lia.
  - rewrite Pos2Z.inj_xI, Z.mul_comm, Z.div_add_l; [by rewrite Z.add_0_r|done].
  - rewrite Pos2Z.inj_xO, Z.mul_comm, Z.div_mul; done.
Qed.

Lemma iter_shr_m p : forall r, 0 <= shr_m r -> shr_m (iter_pos shr_1 p r) = shr_m r / 2 ^ Zpos p.
Proof.
  induction p as [p IH|p IH|]; intros r H; simpl.
  - assert (0 <= shr_m (shr_1 r)) by (rewrite shr_1_m by done; auto with sat).
    assert (0 <= shr_m (iter_pos shr_1 p (shr_1 r))) by (rewrite IH by done; auto with sat).
    rewrite IH, IH, shr_1_m, !Z.div_div by (done || lia).
    f_equal. replace (Z.pos p~1) with (1 + (Z.pos p + Z.pos p)) by lia. rewrite !Z.pow_add_r by lia. lia.
  - assert (0 <= shr_m (iter_pos shr_1 p r)) by (rewrite IH by done; auto with sat).
    rewrite IH, IH, !Z.div_div by (done || lia).
    f_equal. replace (Z.pos p~0) with (Z.pos p + Z.pos p) by lia. rewrite !Z.pow_add_r by lia. lia.
  - by rewrite shr_1_m.
Qed.

Lemma shr_fexp_m m e l r e' :
  0 <= m -> shr_fexp 53 1024 m e l = (r, e') -> 0 <= shr_m r < 2 ^ 53.
Proof.
  intros H E; unfold shr_fexp in E.
  assert (S : shr_m (shr_record_of_loc m l) = m) by (destruct l as [|[]]; done).
  pose proof (Zdigits2_gt m H) as D.
  unfold fexp, emin in E. set (d := Zdigits2 m) in *.
  assert (0 <= d) by (destruct m; simpl in *; lia).
  destruct (Z.max (d + e - 53) (3 - 1024 - 53) - e) as [|p|p] eqn:N; simpl in E; injection E as <- <-.
  1,3: rewrite S; split; [done|]; eapply Z.lt_le_trans; [exact D|]; apply Z.pow_le_mono_r; lia.
  rewrite iter_shr_m by lia; rewrite S. split; [auto with sat|].
  apply Z.div_lt_upper_bound; [auto with sat|]. rewrite <- Z.pow_add_r by lia.
  eapply Z.lt_le_trans; [exact D|]. apply Z.pow_le_mono_r; lia.
Qed.

Lemma round_nearest_even_nonneg m l : 0 <= m -> 0 <= round_nearest_even m l.
Proof. destruct l as [|[]]; simpl; [lia|destruct (Z.even m)|..]; lia. Qed.

Lemma binary_round_aux_short s m e l : 0 <= m -> short (binary_round_aux 53 1024 s m e l).
Proof.
  intros H; unfold binary_round_aux.
  destruct (shr_fexp 53 1024 m e l) as [r e1] eqn:E1.
  pose proof (shr_fexp_m _ _ _ _ _ H E1) as [H1 _].
  destruct (shr_fexp 53 1024 _ e1 loc_Exact) as [r2 e2] eqn:E2.
  pose proof (shr_fexp_m _ _ _ _ _ (round_nearest_even_nonneg _ _ H1) E2) as [_ B].
  destruct (shr_m r2) as [|p|p]; simpl; try done. case_match; done.
Qed.

Lemma binary_normalize_short m e s : short (binary_normalize 53 1024 m e s).
Proof.
  destruct m as [|m|m]; simpl; [done|..]; unfold binary_round;
    destruct (shl_align _ _ _); by apply binary_round_aux_short.
Qed.

Lemma fadd_short a b : short a -> short b -> short (a + b)%f64.
Proof.
  unfold fadd; intros Ha Hb; destruct a as [[]|[]| |s m e], b as [[]|[]| |t n f]; try done;
    apply binary_normalize_short.
Qed.
Lemma fsub_short a b : short a -> short b -> short (a - b)%f64.
Proof.
  unfold fsub; intros Ha Hb; destruct a as [[]|[]| |s m e], b as [[]|[]| |t n f]; try done;
    apply binary_normalize_short.
Qed.
Lemma fmul_short a b : short (a * b)%f64.
Proof.
  unfold fmul; destruct a as [[]|[]| |s m e], b as [[]|[]| |t n f]; try done;
    by apply binary_round_aux_short.
Qed.
Lemma fdiv_short a b : short (a / b)%f64.
Proof.
  unfold fdiv; destruct a as [[]|[]| |s m e], b as [[]|[]| |t n f]; try done.
  unfold SFdiv. destruct (SFdiv_core_binary _ _ _ _ _ _) as [[q f'] l] eqn:E.
  apply binary_round_aux_short. unfold SFdiv_core_binary in E.
  match type of E with (let '(_, _) := Z.div_eucl ?x ?y in _) = _ =>
    assert (0 <= x) as P by (destruct (e - f - _) eqn:D; auto with sat; apply Z.shiftl_nonneg; lia);
    pose proof (Z.div_pos x (Zpos n) P (Pos2Z.is_pos n)) as Q; unfold Z.div in Q;
    destruct (Z.div_eucl x y) end.
  injection E as <- <- <-. exact Q.
Qed.
Lemma f64_of_Z_short n : short (f64_of_Z n).
Proof. apply binary_normalize_short. Qed.
Lemma f64_of_signed_short s n : short (f64_of_signed s n).
Proof. unfold f64_of_signed; case_match; [done|apply f64_of_Z_short]. Qed.
Lemma ffloor_short x : short x -> short (ffloor x).
Proof. destruct x; simpl; auto using f64_of_signed_short. Qed.
Lemma fround_short x : short x -> short (fround x).
Proof. destruct x; simpl; auto using f64_of_signed_short. Qed.
Lemma fmax_short a b : short a -> short b -> short (fmax a b).
Proof. unfold fmax; repeat case_match; auto. Qed.
Lemma fmin_short a b : short a -> short b -> short (fmin a b).
Proof. unfold fmin; repeat case_match; auto. Qed.
Lemma fabs_short a : short a -> short (fabs a).
Proof. by destruct a. Qed.
Lemma fclamp_in_short x lo hi : short x -> short lo -> short hi -> short (fclamp_in x lo hi).
Proof. unfold fclamp_in; repeat case_match; auto. Qed.

Create HintDb f64.
#[export] Hint Resolve fadd_short fsub_short fmul_short fdiv_short f64_of_Z_short ffloor_short
  fround_short fmax_short fmin_short fabs_short fclamp_in_short : f64.
#[export] Hint Extern 4 (short (S754_finite _ _ _)) => reflexivity : f64.
#[export] Hint Extern 4 (short (S754_zero _)) => exact I : f64.

(** ** Order *)

Lemma flt_fle_total a b : is_nan a = false -> is_nan b = false -> flt a b = false -> fle b a = true.
Proof.
  unfold flt, fle, SFltb, SFleb; destruct a as [[]|[]| |[] m e], b as [[]|[]| |[] n f]; try done; simpl.
  all: intros _ _; rewrite (Z.compare_antisym e f); destruct (Z.compare e f); simpl; try done.
  all: change (Pos.compare_cont Eq) with Pos.compare; rewrite (Pos.compare_antisym m n);
    destruct (Pos.compare m n); done.
Qed.

Lemma fle_flt a b : is_nan a = false -> is_nan b = false -> fle a b = negb (flt b a).
Proof.
  unfold flt, fle, SFltb, SFleb; destruct a as [[]|[]| |[] m e], b as [[]|[]| |[] n f]; try done; simpl.
  all: intros _ _; rewrite (Z.compare_antisym e f); destruct (Z.compare e f); simpl; try done.
  all: change (Pos.compare_cont Eq) with Pos.compare; rewrite (Pos.compare_antisym m n);
    destruct (Pos.compare m n); done.
Qed.

Lemma flt_fle a b : flt a b = true -> fle a b = true.
Proof. unfold flt, fle, SFltb, SFleb; destruct (SFcompare a b) as [[]|]; done. Qed.

Lemma fle_trans a b c : fle a b = true -> fle b c = true -> fle a c = true.
Proof.
  unfold fle, SFleb.
  destruct a as [[]|[]| |[] m1 e1], b as [[]|[]| |[] m2 e2], c as [[]|[]| |[] m3 e3]; try done; simpl;
    change (Pos.compare_cont Eq) with Pos.compare;
    destruct (Z.compare_spec e1 e2), (Z.compare_spec e2 e3), (Z.compare_spec e1 e3); subst; try lia; try done;
    destruct (Pos.compare_spec m1 m2), (Pos.compare_spec m2 m3), (Pos.compare_spec m1 m3); simpl;
    subst; try done; lia.
Qed.

Lemma flt_trans a b c : flt a b = true -> flt b c = true -> flt a c = true.
Proof.
  unfold flt, SFltb.
  destruct a as [[]|[]| |[] m1 e1], b as [[]|[]| |[] m2 e2], c as [[]|[]| |[] m3 e3]; try done; simpl;
    change (Pos.compare_cont Eq) with Pos.compare;
    destruct (Z.compare_spec e1 e2), (Z.compare_spec e2 e3), (Z.compare_spec e1 e3); subst; try lia; try done;
    destruct (Pos.compare_spec m1 m2), (Pos.compare_spec m2 m3), (Pos.compare_spec m1 m3); simpl;
    subst; try done; lia.
Qed.

Lemma flt_irrefl a : flt a a = false.
Proof.
  unfold flt, SFltb; destruct a as [[]|[]| |[] m e]; simpl; rewrite ?Z.compare_refl; try done;
    change (Pos.compare_cont Eq) with Pos.compare; by rewrite Pos.compare_refl.
Qed.

Lemma fle_refl a : is_nan a = false -> fle a a = true.
Proof.
  unfold fle, SFleb; destruct a as [[]|[]| |[] m e]; try done; simpl; rewrite Z.compare_refl;
    change (Pos.compare_cont Eq) with Pos.compare; by rewrite Pos.compare_refl.
Qed.

Lemma fle_not_nan a b : fle a b = true -> is_nan a = false /\ is_nan b = false.
Proof. unfold fle, SFleb; destruct a as [[]|[]| |[] m e], b as [[]|[]| |[] n f]; done. Qed.

(** [clamp] of a number lies between its bounds; of a NaN it is NaN. *)
Lemma fclamp_in_range x lo hi :
  fle lo hi = true -> is_nan x = false ->
  fle lo (fclamp_in x lo hi) = true /\ fle (fclamp_in x lo hi) hi = true.
Proof.
  intros H N; destruct (fle_not_nan _ _ H) as [Nl Nh]; unfold fclamp_in.
  destruct (flt x lo) eqn:E1.
  - destruct (flt hi lo) eqn:E2; [by rewrite fle_refl|]. by rewrite fle_refl.
  - destruct (flt hi x) eqn:E2.
    + split; [done|]. by apply fle_refl.
    + split; by apply flt_fle_total.
Qed.

Lemma fclamp_in_nan lo hi : fclamp_in S754_nan lo hi = S754_nan.
Proof. unfold fclamp_in; destruct lo as [[]|[]| |[] m e], hi as [[]|[]| |[] n f]; done. Qed.

Lemma fmin_le a b : is_nan b = false -> fle (fmin a b) b = true.
Proof.
  intros N; unfold fmin; destruct (is_nan a) eqn:Na; [by apply fle_refl|]. rewrite N.
  destruct (flt b a) eqn:E; [by apply fle_refl|by apply flt_fle_total].
Qed.

Lemma fmax_ge a b : is_nan b = false -> fle b (fmax a b) = true.
Proof.
  intros N; unfold fmax; destruct (is_nan a) eqn:Na; [by apply fle_refl|]. rewrite N.
  destruct (flt a b) eqn:E; [by apply fle_refl|by apply flt_fle_total].
Qed.

Lemma fmax_le a b c : fle a c = true -> fle b c = true -> fle (fmax a b) c = true.
Proof. intros; unfold fmax; repeat case_match; done. Qed.

(** ** Ranges of the integer casts *)

Lemma f64_trunc_nonneg x : fle 0 x = true -> 0 <= f64_trunc x.
Proof.
  destruct x as [[]|[]| |[] m e]; try done. intros _; simpl; unfold mag_trunc.
  case_match; auto with sat.
Qed.

Lemma mag_trunc_mono m e n f :
  Zpos m < 2 ^ 53 -> 2 ^ 52 <= Zpos n -> e < f \/ (e = f /\ Zpos m <= Zpos n) ->
  mag_trunc m e <= mag_trunc n f.
Proof.
  intros Hm Hn [L|[-> L]]; unfold mag_trunc.
  2: { case_match; [apply Z.mul_le_mono_nonneg_r; auto with sat|apply Z.div_le_mono; auto with sat]. }
  assert (E : Zpos m <= Zpos n * 2) by (change (2^53) with (2^52 * 2) in Hm; lia).
  destruct (Z.leb_spec 0 e), (Z.leb_spec 0 f); try lia.
  - replace f with (e + 1 + (f - e - 1)) by lia. rewrite !Z.pow_add_r by lia.
    assert (1 <= 2 ^ (f - e - 1)) by (apply (Z.pow_le_mono_r 2 0); lia).
    assert (0 < 2 ^ e) by (apply Z.pow_pos_nonneg; lia).
    change (2 ^ 1) with 2. set (a := 2 ^ e) in *; set (b := 2 ^ (f - e - 1)) in *.
    assert (Zpos n * 2 * 1 <= Zpos n * 2 * b) by nia. nia.
  - assert (1 <= 2 ^ f) by (apply (Z.pow_le_mono_r 2 0); lia).
    apply Z.div_le_upper_bound; [apply Z.pow_pos_nonneg; lia|].
    replace (- e) with (1 + (- e - 1)) by lia. rewrite Z.pow_add_r by lia.
    assert (1 <= 2 ^ (- e - 1)) by (apply (Z.pow_le_mono_r 2 0); lia).
    change (2 ^ 1) with 2. set (a := 2 ^ (- e - 1)) in *; set (b := 2 ^ f) in *.
    assert (Zpos n * 1 <= Zpos n * b) by nia. nia.
  - replace (- e) with (1 + (- e - 1 - - f) + (- f)) by lia. rewrite !Z.pow_add_r by lia.
    assert (1 <= 2 ^ (- e - 1 - - f)) by (apply (Z.pow_le_mono_r 2 0); lia).
    assert (0 < 2 ^ (- f)) by (apply Z.pow_pos_nonneg; lia).
    apply Z.div_le_lower_bound; [lia|].
    rewrite Z.mul_comm. 
    set (a := 2 ^ (- f)) in *. set (b := 2 ^ (- e - 1 - - f)) in *. change (2 ^ 1) with 2.
    pose proof (Z.mul_div_le (Zpos m) (2 * b * a) ltac:(nia)) as K.
    set (q := Zpos m / (2 * b * a)) in *.
    assert (0 <= q) by (apply Z.div_pos; nia). nia.
Qed.

(** A short number below a normal constant casts to at most its integer part. *)
Lemma f64_as_int_le lo hi x n f :
  lo <= 0 -> short x -> 2 ^ 52 <= Zpos n -> fle x (S754_finite false n f) = true ->
  f64_as_int lo hi x <= mag_trunc n f.
Proof.
  intros Hlo Hs Hn H.
  assert (0 <= mag_trunc n f) by (unfold mag_trunc; case_match; auto with sat).
  unfold f64_as_int; destruct x as [s|s| |s m e]; simpl in *; unfold clampZ; try lia.
  - destruct s; [lia|discriminate].
  - destruct s.
    + assert (0 <= mag_trunc m e) by (unfold mag_trunc; case_match; auto with sat). lia.
    + assert (mag_trunc m e <= mag_trunc n f); [|lia]. apply mag_trunc_mono; auto.
      unfold fle, SFleb in H; simpl in H. destruct (Z.compare_spec e f); [right|left; lia|done].
      split; [done|]. change (Pos.compare_cont Eq) with Pos.compare in H.
      destruct (Pos.compare_spec m n); try done; lia.
Qed.

Lemma f64_as_int_ge0 hi x : 0 <= hi -> 0 <= f64_as_int 0 hi x.
Proof. intros H; unfold f64_as_int; destruct x as [s|s| |s m e]; simpl; unfold clampZ; try case_match; lia. Qed.
