(* ===== verification/Text.v ===== *)
(** * Text

    The string operations of Rust's standard library the program uses, on
    ASCII strings: trimming, case, splitting, searching, decimal rendering and
    the parsers of integers and floats. *)
From S2P Require Import Prelude F64.
From Stdlib Require Export Ascii String.
From stdpp Require Export strings pretty.
#[global] Open Scope Z_scope.
#[local] Open Scope string_scope.

Definition ascii_code (c : ascii) : N := N_of_ascii c.

(** [char::is_whitespace] on ASCII. *)
Definition is_whitespace (c : ascii) : bool :=
  let n := ascii_code c in ((9 <=? n)%N && (n <=? 13)%N) || (n =? 32)%N.

(** [to_ascii_lowercase]. *)
Definition lower_ascii (c : ascii) : ascii :=
  let n := ascii_code c in
  if (65 <=? n)%N && (n <=? 90)%N then ascii_of_N (n + 32) else c.
Fixpoint to_lower (s : string) : string :=
  match s with "" => "" | String c s => String (lower_ascii c) (to_lower s) end.

Definition string_eqb : string -> string -> bool := String.eqb.
Definition one_of (s : string) (l : list string) : bool := existsb (string_eqb s) l.
Definition eq_ignore_ascii_case (a b : string) : bool := String.eqb (to_lower a) (to_lower b).

Fixpoint trim_start_by (p : ascii -> bool) (s : string) : string :=
  match s with
  | "" => ""
  | String c t => if p c then trim_start_by p t else s
  end.
(** The last characters that satisfy [p] dropped. *)
Fixpoint trim_end_by (p : ascii -> bool) (s : string) : string :=
  match s with
  | "" => ""
  | String c t =>
      match trim_end_by p t with
      | "" => if p c then "" else String c ""
      | t => String c t
      end
  end.
Definition trim_by (p : ascii -> bool) (s : string) : string := trim_end_by p (trim_start_by p s).
Definition trim : string -> string := trim_by is_whitespace.
Definition trim_matches (c : ascii) : string -> string := trim_by (Ascii.eqb c).

(** [str::split] at a character: always at least one piece. *)
Fixpoint split (sep : ascii) (s : string) : list string :=
  match s with
  | "" => [""]
  | String c t =>
      if Ascii.eqb c sep then "" :: split sep t
      else match split sep t with
           | w :: ws => String c w :: ws
           | [] => [String c ""]
           end
  end.

(** [str::lines]: the empty piece after a last line feed is no line. *)
Definition LF : ascii := "010".
Definition lines (s : string) : list string :=
  match reverse (split LF s) with "" :: l => reverse l | l => reverse l end.

(** [str::split_once]. *)
Fixpoint split_once (sep : ascii) (s : string) : option (string * string) :=
  match s with
  | "" => None
  | String c t =>
      if Ascii.eqb c sep then Some ("", t)
      else match split_once sep t with
           | Some (a, b) => Some (String c a, b)
           | None => None
           end
  end.

Fixpoint starts_with (s p : string) : bool :=
  match p, s with
  | "", _ => true
  | String a p, String b s => Ascii.eqb a b && starts_with s p
  | String _ _, "" => false
  end.
Fixpoint contains (s p : string) : bool :=
  starts_with s p || match s with "" => false | String _ t => contains t p end.
Fixpoint ends_with (s p : string) : bool :=
  String.eqb s p || match s with "" => false | String _ t => ends_with t p end.

(** Decimal digits, as [to_string] prints them. *)
Definition show_nat (n : nat) : string := pretty n.
Definition show_Z (n : Z) : string := pretty n.

(** ** Parsers *)

Definition digit (c : ascii) : option Z :=
  let n := ascii_code c in
  if (48 <=? n)%N && (n <=? 57)%N then Some (Z.of_N (n - 48)) else None.
Fixpoint digits_acc (s : string) (acc : Z) : option Z :=
  match s with
  | "" => Some acc
  | String c t => d ← digit c; digits_acc t (acc * 10 + d)
  end.
Definition all_digits (s : string) : option Z :=
  match s with "" => None | _ => digits_acc s 0 end.

(** [str::parse::<uN>]: an optional plus sign and digits, in range. *)
Definition parse_uint (mx : Z) (s : string) : option Z :=
  n ← all_digits (match s with String "+" t => t | _ => s end);
  if (n <=? mx)%Z then Some n else None.
Definition parse_u64 : string -> option Z := parse_uint U64_MAX.
Definition parse_u32 : string -> option Z := parse_uint U32_MAX.
Definition parse_u8 : string -> option Z := parse_uint 255.
Definition parse_usize (s : string) : option nat := Z.to_nat <$> parse_u64 s.

(** The longest prefix of digits: its value, its length and the rest. *)
Fixpoint take_digits (s : string) (acc : Z) (len : nat) : Z * nat * string :=
  match s with
  | String c t => match digit c with
                  | Some d => take_digits t (acc * 10 + d) (S len)
                  | None => (acc, len, s)
                  end
  | "" => (acc, len, "")
  end.

(** [mant * 10^k]. *)
Definition f64_scaled (neg : bool) (mant k : Z) : f64 :=
  match mant with
  | Zpos p => if (0 <=? k)%Z then f64_of_ratio neg (Z.to_pos (mant * 10 ^ k)) 1
              else f64_of_ratio neg p (Z.to_pos (10 ^ (- k)))
  | _ => S754_zero neg
  end.

(** [str::parse::<f64>]. *)
Definition parse_f64_body (neg : bool) (s : string) : option f64 :=
  let l := to_lower s in
  if string_eqb l "inf" || string_eqb l "infinity" then Some (S754_infinity neg)
  else if string_eqb l "nan" then Some S754_nan
  else
    let '(i, ni, r) := take_digits s 0 0 in
    let '(m, nf, r) := match r with
                       | String "." t => take_digits t i 0
                       | _ => (i, 0%nat, r)
                       end in
    if ((ni + nf =? 0)%nat) then None
    else match r with
         | "" => Some (f64_scaled neg m (- Z.of_nat nf))
         | String c t =>
             if Ascii.eqb c "e" || Ascii.eqb c "E" then
               let '(eneg, t) := match t with
                                 | String "-" t => (true, t)
                                 | String "+" t => (false, t)
                                 | _ => (false, t)
                                 end in
               e ← all_digits t;
               Some (f64_scaled neg m ((if eneg then - e else e) - Z.of_nat nf))
             else None
         end.
Definition parse_f64 (s : string) : option f64 :=
  match s with
  | String "-" t => parse_f64_body true t
  | String "+" t => parse_f64_body false t
  | _ => parse_f64_body false s
  end.

(** ** Facts *)

Lemma string_eqb_eq a b : string_eqb a b = true <-> a = b.
Proof. apply String.eqb_eq. Qed.
Lemma string_eqb_neq a b : string_eqb a b = false <-> a <> b.
Proof. apply String.eqb_neq. Qed.
Lemma eq_ignore_ascii_case_refl a : eq_ignore_ascii_case a a = true.
Proof. apply String.eqb_refl. Qed.
Lemma starts_with_app p s : starts_with (p ++ s) p = true.
Proof. induction p as [|c p IH]; simpl; [by destruct s|]. by rewrite Ascii.eqb_refl. Qed.
Lemma starts_with_inv s p : starts_with s p = true -> exists t, s = p ++ t.
Proof.
  revert s; induction p as [|c p IH]; intros s; simpl; [by exists s|].
  destruct s as [|d s]; [done|]. intros [E H]%andb_true_iff.
  apply Ascii.eqb_eq in E as <-. destruct (IH _ H) as [t ->]. by exists t.
Qed.
