(* ===== verification/Ethers.v ===== *)
(** * Ethereum data

    The shapes of the [ethers] types the program reads and builds: transactions,
    event logs and ABI values.  The functions of [ethers] on them are not
    defined here: the files that use them take them as parameters. *)
From S2P Require Import Prelude Text.
#[local] Set Warnings "-register-all".

Definition TxHash : Type := H256.

(** [ethers::types::Transaction]. *)
Record Transaction := {
  tx_hash : TxHash;
  tx_nonce : U256;
  tx_from : Address;
  tx_to : option Address;
  tx_value : U256;
  tx_gas_price : option U256;
  tx_gas : U256;
  tx_input : Bytes;
  tx_max_priority_fee_per_gas : option U256;
  tx_max_fee_per_gas : option U256;
  tx_chain_id : option U256;
  tx_block_number : option u64 }.

(** [ethers::abi::Token]. *)
Inductive Token :=
| TAddress (a : Address)
| TFixedBytes (b : Bytes)
| TBytes (b : Bytes)
| TInt (n : U256)
| TUint (n : U256)
| TBool (b : bool)
| TString (s : string)
| TFixedArray (l : list Token)
| TArray (l : list Token)
| TTuple (l : list Token).

(** [ethers::abi::ParamType]. *)
Inductive ParamType :=
| PAddress
| PBytes
| PInt (n : nat)
| PUint (n : nat)
| PBool
| PString
| PArray (t : ParamType)
| PFixedBytes (n : nat)
| PFixedArray (t : ParamType) (n : nat)
| PTuple (l : list ParamType).

(** [U256::from_big_endian]. *)
Definition from_big_endian (bs : Bytes) : Z := foldl (fun acc b => acc * 256 + b) 0 bs.

(** [n] as [w] big-endian bytes. *)
Fixpoint to_big_endian (w : nat) (n : Z) : Bytes :=
  match w with
  | O => []
  | S w => to_big_endian w (n / 256) ++ [n mod 256]
  end.

(** The last 20 bytes of a 32-byte word, as an address. *)
Definition address_of_word (w : H256) : Address := w mod 2 ^ 160.

Lemma from_big_endian_app a b :
  from_big_endian (a ++ b) = from_big_endian a * 256 ^ Z.of_nat (length b) + from_big_endian b.
Proof.
  unfold from_big_endian; rewrite foldl_app. generalize (foldl (fun acc x => acc * 256 + x) 0 a) as n.
  intros n. induction b as [|x b IH] using rev_ind; simpl; [lia|].
  rewrite !foldl_app, length_app, IH; simpl.
  rewrite Nat2Z.inj_add, Z.pow_add_r by lia. simpl. lia.
Qed.

Lemma length_to_big_endian w : forall n, length (to_big_endian w n) = w.
Proof. induction w; intros n; simpl; [done|]. rewrite length_app, IHw. simpl. lia. Qed.

Lemma from_to_big_endian w : forall n, 0 <= n < 256 ^ Z.of_nat w ->
  from_big_endian (to_big_endian w n) = n.
Proof.
  induction w as [|w IH]; intros n H; [simpl in *; unfold from_big_endian; simpl; lia|].
  cbn [to_big_endian]. rewrite from_big_endian_app, IH.
  - change (256 ^ Z.of_nat (length [n mod 256])) with 256. unfold from_big_endian; simpl.
    pose proof (Z.div_mod n 256). lia.
  - rewrite Nat2Z.inj_succ, Z.pow_succ_r in H by lia.
    split; [auto with sat|]. apply Z.div_lt_upper_bound; lia.
Qed.

Lemma from_big_endian_range bs : Forall is_u8 bs -> 0 <= from_big_endian bs < 256 ^ Z.of_nat (length bs).
Proof.
  induction bs as [|x bs IH] using rev_ind; intros H; [done|].
  apply Forall_app in H as [H Hx]. apply Forall_cons in Hx as [Hx _]. unfold is_u8 in Hx.
  specialize (IH H). rewrite from_big_endian_app, length_app. cbn [length].
  rewrite Nat2Z.inj_add, Z.pow_add_r by lia.
  change (256 ^ Z.of_nat 1) with 256. change (from_big_endian [x]) with x. lia.
Qed.

(** [str::as_bytes]. *)
Fixpoint bytes_of_string (s : string) : Bytes :=
  match s with
  | EmptyString => []
  | String c s => Z.of_N (N_of_ascii c) :: bytes_of_string s
  end.

(** ** Well-formed ABI values *)

Definition is_byte (b : Z) : bool := (0 <=? b) && (b <? 256).

(** [t] is a value of ABI type [p], within the range the type has. *)
Fixpoint token_ok (p : ParamType) (t : Token) {struct t} : bool :=
  match p, t with
  | PAddress, TAddress a => (0 <=? a) && (a <? 2 ^ 160)
  | PBytes, TBytes b => forallb is_byte b
  | PFixedBytes n, TFixedBytes b => (length b =? n)%nat && forallb is_byte b
  | PInt _, TInt n => (0 <=? n) && (n <=? U256_MAX)
  | PUint w, TUint n => (0 <=? n) && (n <? 2 ^ Z.of_nat w)
  | PBool, TBool _ => true
  | PString, TString _ => true
  | PArray p, TArray l => forallb (token_ok p) l
  | PFixedArray p n, TFixedArray l => (length l =? n)%nat && forallb (token_ok p) l
  | PTuple ps, TTuple l =>
      (fix all2 (ps : list ParamType) (l : list Token) {struct l} : bool :=
         match ps, l with
         | [], [] => true
         | p :: ps, t :: l => token_ok p t && all2 ps l
         | _, _ => false
         end) ps l
  | _, _ => false
  end.
Definition tokens_ok (ps : list ParamType) (ts : list Token) : bool := token_ok (PTuple ps) (TTuple ts).

(** The ABI codec as the program relies on it: decoding what was encoded for
    the same types gives the values back. *)
Class AbiCodec (abi_encode : list Token -> Bytes)
    (abi_decode : list ParamType -> Bytes -> option (list Token)) : Prop :=
  abi_decode_encode ps ts : tokens_ok ps ts = true -> abi_decode ps (abi_encode ts) = Some ts.

(** A codec that satisfies the law: the values as a tree, its code one number. *)
Fixpoint token_tree (t : Token) : gen_tree (list Z + string) :=
  match t with
  | TAddress a => GenNode 0 [GenLeaf (inl [a])]
  | TFixedBytes b => GenNode 1 [GenLeaf (inl b)]
  | TBytes b => GenNode 2 [GenLeaf (inl b)]
  | TInt n => GenNode 3 [GenLeaf (inl [n])]
  | TUint n => GenNode 4 [GenLeaf (inl [n])]
  | TBool b => GenNode 5 [GenLeaf (inl [if b then 1 else 0])]
  | TString s => GenNode 6 [GenLeaf (inr s)]
  | TFixedArray l => GenNode 7 (map token_tree l)
  | TArray l => GenNode 8 (map token_tree l)
  | TTuple l => GenNode 9 (map token_tree l)
  end.

Fixpoint tree_token (t : gen_tree (list Z + string)) : Token :=
  match t with
  | GenNode 0 [GenLeaf (inl [a])] => TAddress a
  | GenNode 1 [GenLeaf (inl b)] => TFixedBytes b
  | GenNode 2 [GenLeaf (inl b)] => TBytes b
  | GenNode 3 [GenLeaf (inl [n])] => TInt n
  | GenNode 4 [GenLeaf (inl [n])] => TUint n
  | GenNode 5 [GenLeaf (inl [n])] => TBool (n =? 1)
  | GenNode 6 [GenLeaf (inr s)] => TString s
  | GenNode 7 l => TFixedArray (map tree_token l)
  | GenNode 8 l => TArray (map tree_token l)
  | GenNode _ l => TTuple (map tree_token l)
  | GenLeaf _ => TBool false
  end.

Lemma tree_token_tree : forall t, tree_token (token_tree t) = t.
Proof.
  fix IH 1; intros [a|b|b|n|n|[]|s|l|l|l]; simpl; try reflexivity; f_equal;
    (induction l as [|t l IHl]; simpl; [reflexivity|by rewrite IH, IHl]).
Qed.

#[export] Instance Token_eq_dec : EqDecision Token.
Proof.
  intros a b. destruct (decide (token_tree a = token_tree b)) as [E|N].
  - left. by rewrite <- (tree_token_tree a), E, tree_token_tree.
  - right. congruence.
Defined.
#[export] Instance Token_countable : Countable Token :=
  inj_countable' token_tree tree_token tree_token_tree.

Definition tree_encode (ts : list Token) : Bytes := [Zpos (encode ts)].
Definition tree_decode (ps : list ParamType) (bs : Bytes) : option (list Token) :=
  match bs with [Zpos p] => decode p | _ => None end.

#[export] Instance tree_codec : AbiCodec tree_encode tree_decode.
Proof. intros ps ts _. simpl. apply decode_encode. Qed.
