(* ===== verification/Config.v ===== *)
(** * Configuration ([config.rs])

    The configuration records and the thresholds derived from the opportunity
    mode.  A value behind an [RwLock] is an [option]: [None] when the lock is
    poisoned, which every read answers with its fallback. *)
From S2P Require Import Prelude F64 Text Ethers.
#[local] Open Scope string_scope.
#[local] Open Scope Z_scope.

Inductive RpcPreference := Auto | GetBlock | Alchemy | Infura.
Inductive OpportunityMode := Conservative | Aggressive | Scavenger.
#[export] Instance RpcPreference_eq_dec : EqDecision RpcPreference.
Proof. solve_decision. Defined.
#[export] Instance OpportunityMode_eq_dec : EqDecision OpportunityMode.
Proof. solve_decision. Defined.

Record OpportunityThresholds := {
  th_min_large_swap_eth : f64;
  th_min_net_profit_eth : f64;
  th_min_profit_usd : f64;
  th_min_liquidity_eth : f64 }.

Record MonitoredTokenConfig := {
  mt_address : Address;
  mt_decimals : u8;
  mt_price_eth : f64 }.

Record MevConfig := {
  enabled : bool;
  opportunity_mode_lock : option OpportunityMode;
  runtime_thresholds_lock : option OpportunityThresholds;
  capital_eth : f64;
  capital_window_secs : u64;
  max_window_exposure_eth : f64;
  max_cluster_window_exposure_eth : f64;
  max_pair_window_exposure_eth : f64;
  min_net_profit_eth : f64;
  min_roi_bps : u64;
  min_large_swap_eth : f64;
  gas_safety_margin_bps : u64;
  max_pending_age_ms : u64;
  max_gas_per_tx : u64;
  max_gas_price_gwei : option u64;
  max_price_impact_bps : u64;
  slippage_protection_bps : u64;
  min_profit_usd : f64;
  eth_usd_price : f64;
  min_liquidity_eth : f64;
  latency_trace : bool;
  latency_trace_warn_us : u64;
  pool_state_cache_ttl_ms : u64;
  executor_min_buffer_eth : f64;
  executor_target_buffer_eth : f64;
  executor_max_buffer_eth : f64;
  relay_fanout_count : usize;
  rpc_fanout_count : usize;
  gas_overpay_base_extra_bps : u64;
  gas_overpay_miss_extra_bps : u64;
  gas_overpay_revert_extra_bps : u64;
  gas_overpay_submit_failure_extra_bps : u64;
  gas_overpay_max_extra_bps : u64;
  finality_confirmations : u64;
  stop_loss_consecutive_losses : u32;
  stop_loss_freeze_secs : u64;
  context_stop_loss_consecutive_losses : u32;
  context_stop_loss_freeze_secs : u64;
  capital_multiplier_aggressive : f64;
  capital_multiplier_neutral : f64;
  capital_multiplier_defensive : f64;
  capital_multiplier_priority_threshold : f64;
  capital_multiplier_toxicity_threshold : f64;
  uniswap_v2_factory : option Address;
  uniswap_v3_factory : option Address;
  mev_executor : option Address;
  mev_executor_v3 : option Address }.
#[export] Instance MevConfig_eta : RecordEta MevConfig :=
  fields Build_MevConfig <&> enabled <&> opportunity_mode_lock <&> runtime_thresholds_lock <&> capital_eth
    <&> capital_window_secs <&> max_window_exposure_eth <&> max_cluster_window_exposure_eth
    <&> max_pair_window_exposure_eth <&> min_net_profit_eth <&> min_roi_bps <&> min_large_swap_eth
    <&> gas_safety_margin_bps <&> max_pending_age_ms <&> max_gas_per_tx <&> max_gas_price_gwei
    <&> max_price_impact_bps <&> slippage_protection_bps <&> min_profit_usd <&> eth_usd_price
    <&> min_liquidity_eth <&> latency_trace <&> latency_trace_warn_us <&> pool_state_cache_ttl_ms
    <&> executor_min_buffer_eth <&> executor_target_buffer_eth <&> executor_max_buffer_eth
    <&> relay_fanout_count <&> rpc_fanout_count <&> gas_overpay_base_extra_bps
    <&> gas_overpay_miss_extra_bps <&> gas_overpay_revert_extra_bps <&> gas_overpay_submit_failure_extra_bps
    <&> gas_overpay_max_extra_bps <&> finality_confirmations <&> stop_loss_consecutive_losses
    <&> stop_loss_freeze_secs <&> context_stop_loss_consecutive_losses <&> context_stop_loss_freeze_secs
    <&> capital_multiplier_aggressive <&> capital_multiplier_neutral <&> capital_multiplier_defensive
    <&> capital_multiplier_priority_threshold <&> capital_multiplier_toxicity_threshold
    <&> uniswap_v2_factory <&> uniswap_v3_factory <&> mev_executor <&> mev_executor_v3.

Record Config := {
  wallets : string;
  network : string;
  chain_id : u64;
  allow_send : bool;
  tenderly_rpc_only : bool;
  alchemy_keys : list (string * string);
  infura_ids : list string;
  flashbots_relay : string;
  builder_relays : list string;
  executor_private_key : string;
  executor_address : Address;
  vault_address : Address;
  profit_address : Address;
  control_address : Address;
  monitored_tokens : list MonitoredTokenConfig;
  estimated_exec_gas : u64;
  estimated_bundle_overhead_gas : u64;
  max_infura_endpoints : usize;
  rpc_read_preference : RpcPreference;
  rpc_send_preference : RpcPreference;
  storage_path : string;
  dashboard_addr : string;
  explicit_rpc_urls : list (string * string);
  mempool_ws_urls : list string;
  mev : MevConfig }.
#[export] Instance Config_eta : RecordEta Config :=
  fields Build_Config <&> wallets <&> network <&> chain_id <&> allow_send <&> tenderly_rpc_only
    <&> alchemy_keys <&> infura_ids <&> flashbots_relay <&> builder_relays <&> executor_private_key
    <&> executor_address <&> vault_address <&> profit_address <&> control_address
    <&> monitored_tokens <&> estimated_exec_gas <&> estimated_bundle_overhead_gas
    <&> max_infura_endpoints <&> rpc_read_preference <&> rpc_send_preference <&> storage_path
    <&> dashboard_addr <&> explicit_rpc_urls <&> mempool_ws_urls <&> mev.

Definition mode_as_str (self : OpportunityMode) : string :=
  match self with
  | Conservative => "conservative"
  | Aggressive => "sangrento"
  | Scavenger => "scavenger"
  end.

Definition preference_as_str (self : RpcPreference) : string :=
  match self with
  | Auto => "auto"
  | GetBlock => "getblock"
  | Alchemy => "alchemy"
  | Infura => "infura"
  end.

Definition uses_bundle_relays (self : Config) : bool :=
  string_eqb (network self) "ethereum" && negb (bool_decide (builder_relays self = [])).

Definition native_asset_symbol (self : Config) : string :=
  let n := network self in
  if string_eqb n "bsc" || string_eqb n "bnb" then "BNB"
  else if string_eqb n "polygon" then "POL"
  else if string_eqb n "ethereum" then "ETH"
  else if string_eqb n "arbitrum" || string_eqb n "optimism" || string_eqb n "base" then "ETH"
  else "NATIVE".

Definition runtime_thresholds (self : MevConfig) : OpportunityThresholds :=
  default {| th_min_large_swap_eth := min_large_swap_eth self;
             th_min_net_profit_eth := min_net_profit_eth self;
             th_min_profit_usd := min_profit_usd self;
             th_min_liquidity_eth := min_liquidity_eth self |}
    (runtime_thresholds_lock self).

Definition opportunity_mode (self : MevConfig) : OpportunityMode :=
  default Conservative (opportunity_mode_lock self).

(** What the two locks of a configuration hold, which the dashboard writes while the
    runtime reads them ([None] when poisoned). *)
Record Locks := { lk_mode : option OpportunityMode; lk_thresholds : option OpportunityThresholds }.
Definition locks_of (self : Config) : Locks :=
  {| lk_mode := opportunity_mode_lock (mev self); lk_thresholds := runtime_thresholds_lock (mev self) |}.
Definition with_locks (locks : Locks) (self : Config) : Config :=
  self <[ mev ::= (mev self) <[ opportunity_mode_lock ::= lk_mode locks ]>
                             <[ runtime_thresholds_lock ::= lk_thresholds locks ]> ]>.

(** A base value scaled by the mode. *)
Definition by_mode (mode : OpportunityMode) (base aggressive scavenger : f64) : f64 :=
  match mode with
  | Conservative => base
  | Aggressive => (base * aggressive)%f64
  | Scavenger => (base * scavenger)%f64
  end.

Definition effective_min_large_swap_eth (self : MevConfig) : f64 :=
  fmax (by_mode (opportunity_mode self) (th_min_large_swap_eth (runtime_thresholds self)) 0.12 0.02)
    0.000001.
Definition effective_min_net_profit_eth (self : MevConfig) : f64 :=
  fmax (by_mode (opportunity_mode self) (th_min_net_profit_eth (runtime_thresholds self)) 0.15 0.03)
    0.0000001.
Definition effective_min_profit_usd (self : MevConfig) : f64 :=
  fmax (by_mode (opportunity_mode self) (th_min_profit_usd (runtime_thresholds self)) 0.10 0.02)
    0.000001.
Definition effective_min_liquidity_eth (self : MevConfig) : f64 :=
  fmax (by_mode (opportunity_mode self) (th_min_liquidity_eth (runtime_thresholds self)) 0.25 0.08)
    0.000001.

(** [value.round().max(1.0) as u64]. *)
Definition at_least_one_u64 (value : f64) : u64 := f64_as_u64 (fmax (fround value) 1.0).

Definition effective_min_roi_bps (self : MevConfig) : u64 :=
  at_least_one_u64 (by_mode (opportunity_mode self) (f64_of_Z (min_roi_bps self)) 0.25 0.05).
Definition effective_max_price_impact_bps (self : MevConfig) : u64 :=
  at_least_one_u64 (by_mode (opportunity_mode self) (f64_of_Z (max_price_impact_bps self)) 2.20 4.00).
Definition effective_max_pending_age_ms (self : MevConfig) : u64 :=
  at_least_one_u64 (by_mode (opportunity_mode self) (f64_of_Z (max_pending_age_ms self)) 2.00 3.00).

Definition max_gas_price_wei (self : MevConfig) : option U256 :=
  (fun value => u256_smul value 1000000000) <$> max_gas_price_gwei self.

Definition contextual_capital_multiplier (self : MevConfig) (priority_score toxicity_score : f64) : f64 :=
  if (toxicity_score >=? capital_multiplier_toxicity_threshold self)%f64 then
    capital_multiplier_defensive self
  else if (priority_score >=? capital_multiplier_priority_threshold self)%f64
          && (toxicity_score <=? capital_multiplier_toxicity_threshold self * 0.5)%f64 then
    capital_multiplier_aggressive self
  else capital_multiplier_neutral self.

(** ** A configuration for concrete runs *)

Definition sample_mev (mode : OpportunityMode) : MevConfig :=
  {| enabled := true; opportunity_mode_lock := Some mode; runtime_thresholds_lock := None;
     capital_eth := 10.0; capital_window_secs := 60; max_window_exposure_eth := 5.0;
     max_cluster_window_exposure_eth := 3.0; max_pair_window_exposure_eth := 2.0;
     min_net_profit_eth := 0.001; min_roi_bps := 10; min_large_swap_eth := 1.0;
     gas_safety_margin_bps := 12000; max_pending_age_ms := 1500; max_gas_per_tx := 500000;
     max_gas_price_gwei := Some 100; max_price_impact_bps := 300; slippage_protection_bps := 50;
     min_profit_usd := 2.0; eth_usd_price := 2000.0; min_liquidity_eth := 5.0;
     latency_trace := false; latency_trace_warn_us := 1000; pool_state_cache_ttl_ms := 500;
     executor_min_buffer_eth := 0.1; executor_target_buffer_eth := 0.2; executor_max_buffer_eth := 0.5;
     relay_fanout_count := 3; rpc_fanout_count := 2; gas_overpay_base_extra_bps := 100;
     gas_overpay_miss_extra_bps := 100; gas_overpay_revert_extra_bps := 100;
     gas_overpay_submit_failure_extra_bps := 100; gas_overpay_max_extra_bps := 1000;
     finality_confirmations := 2; stop_loss_consecutive_losses := 3; stop_loss_freeze_secs := 300;
     context_stop_loss_consecutive_losses := 2; context_stop_loss_freeze_secs := 120;
     capital_multiplier_aggressive := 1.5; capital_multiplier_neutral := 1.0;
     capital_multiplier_defensive := 0.5; capital_multiplier_priority_threshold := 0.7;
     capital_multiplier_toxicity_threshold := 0.6; uniswap_v2_factory := Some 11;
     uniswap_v3_factory := Some 12; mev_executor := Some 13; mev_executor_v3 := None |}.

Definition sample_config (mode : OpportunityMode) (send : bool) (tokens : list MonitoredTokenConfig) : Config :=
  {| wallets := ""; network := "ethereum"; chain_id := 1; allow_send := send;
     tenderly_rpc_only := false; alchemy_keys := []; infura_ids := []; flashbots_relay := "";
     builder_relays := ["relay"]; executor_private_key := ""; executor_address := 21;
     vault_address := 22; profit_address := 23; control_address := 24; monitored_tokens := tokens;
     estimated_exec_gas := 180000; estimated_bundle_overhead_gas := 20000;
     max_infura_endpoints := 3%nat; rpc_read_preference := Auto; rpc_send_preference := Auto;
     storage_path := ""; dashboard_addr := ""; explicit_rpc_urls := []; mempool_ws_urls := [];
     mev := sample_mev mode |}.
