(* ===== verification/AmmV2.v ===== *)
(** * Constant-product pools ([mev/amm/uniswap_v2.rs])

    Quoting and swapping on a Uniswap V2 pool, the enumeration of candidate
    trade sizes and the choice among them.  The theorems bound the quote,
    show that no sequence of swaps takes value out of the pool, and
    characterise the candidates and the chosen one. *)
From S2P Require Import Prelude F64.

(** ** Data *)

Record V2PoolState := {
  pair : Address;
  token0 : Address;
  token1 : Address;
  reserve0 : U256;
  reserve1 : U256;
  fee_bps : u64 }.
#[export] Instance V2PoolState_eta : RecordEta V2PoolState :=
  fields Build_V2PoolState <&> pair <&> token0 <&> token1 <&> reserve0 <&> reserve1 <&> fee_bps.

Record V2SwapResult := {
  sr_amount_in : U256;
  sr_amount_out : U256;
  new_reserve_in : U256;
  new_reserve_out : U256;
  sr_price_impact_bps : u64 }.

Record SizeCandidate := {
  capital_fraction_bps : u64;
  amount_in : U256;
  amount_out : U256;
  gross_profit_wei : U256;
  net_profit_wei : U256;
  roi_bps : u64;
  self_slippage_bps : u64 }.

(** ** Operations *)

Definition reserves_for (self : V2PoolState) (token_in token_out : Address) : option (U256 * U256) :=
  if (token_in =? token0 self) && (token_out =? token1 self) then
    Some (reserve0 self, reserve1 self)
  else if (token_in =? token1 self) && (token_out =? token0 self) then
    Some (reserve1 self, reserve0 self)
  else None.

Definition amount_out_exact_in (amount_in reserve_in reserve_out : U256) (fee_bps : u64) : option U256 :=
  if (amount_in =? 0) || (reserve_in =? 0) || (reserve_out =? 0) || (10000 <=? fee_bps) then None
  else
    let amount_in_with_fee := u256_smul amount_in (10000 - fee_bps) in
    let numerator := u256_smul amount_in_with_fee reserve_out in
    let denominator := u256_sadd (u256_smul reserve_in 10000) amount_in_with_fee in
    if denominator =? 0 then None else Some (numerator / denominator).

Definition price_impact_bps (amount_in amount_out reserve_in reserve_out : U256) : u64 :=
  if (amount_in =? 0) || (amount_out =? 0) || (reserve_in =? 0) || (reserve_out =? 0) then 10000
  else
    let ideal_out := u256_smul amount_in reserve_out / reserve_in in
    if (ideal_out =? 0) || (ideal_out <=? amount_out) then 0
    else
      let impact := sat_sub ideal_out amount_out in
      Z.min (u256_smul impact 10000 / ideal_out) 10000.

Definition apply_swap_exact_in (self : V2PoolState) (token_in token_out : Address) (amount_in : U256)
  : option (V2PoolState * V2SwapResult) :=
  '(reserve_in, reserve_out) ← reserves_for self token_in token_out;
  if (amount_in =? 0) || (reserve_in =? 0) || (reserve_out =? 0) then None
  else
    amount_out ← amount_out_exact_in amount_in reserve_in reserve_out (fee_bps self);
    if (amount_out =? 0) || (reserve_out <=? amount_out) then None
    else
      let new_reserve_in := u256_sadd reserve_in amount_in in
      let new_reserve_out := sat_sub reserve_out amount_out in
      let price_impact_bps := price_impact_bps amount_in amount_out reserve_in reserve_out in
      let next :=
        if token_in =? token0 self then
          self <[ reserve0 ::= new_reserve_in ]> <[ reserve1 ::= new_reserve_out ]>
        else
          self <[ reserve1 ::= new_reserve_in ]> <[ reserve0 ::= new_reserve_out ]> in
      Some (next, {| sr_amount_in := amount_in; sr_amount_out := amount_out;
                     new_reserve_in := new_reserve_in; new_reserve_out := new_reserve_out;
                     sr_price_impact_bps := price_impact_bps |}).

(** The body of the loop of [size_candidates]: [None] is a [continue]. *)
Definition size_candidate (reserve_in reserve_out capital_cap gas_cost_wei : U256) (fee_bps bps : u64)
  : option SizeCandidate :=
  let amount_in := u256_smul capital_cap bps / 10000 in
  if amount_in =? 0 then None
  else
    amount_out ← amount_out_exact_in amount_in reserve_in reserve_out fee_bps;
    let gross := sat_sub amount_out amount_in in
    let net := sat_sub gross gas_cost_wei in
    if net =? 0 then None
    else
      let roi_bps :=
        if amount_in =? 0 then 0 else Z.min (u256_smul net 10000 / amount_in) U64_MAX in
      Some {| capital_fraction_bps := bps; amount_in := amount_in; amount_out := amount_out;
              gross_profit_wei := gross; net_profit_wei := net; roi_bps := roi_bps;
              self_slippage_bps := price_impact_bps amount_in amount_out reserve_in reserve_out |}.

Definition size_candidates (reserve_in reserve_out capital_cap gas_cost_wei : U256) (fee_bps : u64)
    (fractions_bps : list u64) : list SizeCandidate :=
  if (capital_cap =? 0) || (reserve_in =? 0) || (reserve_out =? 0) then []
  else push_loop (size_candidate reserve_in reserve_out capital_cap gas_cost_wei fee_bps) fractions_bps.

Definition sizing_score (candidate : SizeCandidate) (context_priority_score context_toxicity_score : f64)
  : f64 :=
  let net_profit := f64_of_Z (net_profit_wei candidate) in
  let roi_component := (f64_of_Z (roi_bps candidate) / 10000.0)%f64 in
  let size_component := (f64_of_Z (capital_fraction_bps candidate) / 10000.0)%f64 in
  let slippage_penalty := (f64_of_Z (self_slippage_bps candidate) / 10000.0)%f64 in
  (net_profit
   * (1.0 + context_priority_score * 0.20)
   * (1.0 + roi_component * 0.45)
   * (1.0 + size_component * 0.10)
   * (1.0 - context_toxicity_score * 0.42)
   * (1.0 - slippage_penalty * 0.55))%f64.

Definition select_best_size_candidate (candidates : list SizeCandidate)
    (context_priority_score context_toxicity_score : f64) : option SizeCandidate :=
  let priority := fclamp_in context_priority_score 0.0 1.5 in
  let toxicity := fclamp_in context_toxicity_score 0.0 1.0 in
  max_by (fun left right =>
            total_cmp (sizing_score left priority toxicity) (sizing_score right priority toxicity))
    candidates.

Definition find_roi_optimal_input (reserve_in reserve_out capital_cap gas_cost_wei : U256) (fee_bps : u64)
  : option (U256 * U256) :=
  best ← select_best_size_candidate
    (size_candidates reserve_in reserve_out capital_cap gas_cost_wei fee_bps
       [50; 100; 200; 350; 500; 750; 1000; 1500; 2000; 2500; 3000])
    1.0 0.0;
  Some (amount_in best, net_profit_wei best).

(** ** Quotes without saturation *)

(** The contract keeps reserves and amounts in 112 bits, so that the products
    of the quote stay below [2^256]. *)

Definition quote (a x y fee : Z) : Z := a * (10000 - fee) * y / (x * 10000 + a * (10000 - fee)).

Lemma amount_out_quote a x y fee :
  is_u112 a -> is_u112 x -> is_u112 y -> 0 <= fee ->
  amount_out_exact_in a x y fee =
  if (a =? 0) || (x =? 0) || (y =? 0) || (10000 <=? fee) then None else Some (quote a x y fee).
Proof.
  unfold is_u112, amount_out_exact_in, quote; intros Ha Hx Hy Hf.
  destruct ((a =? 0) || (x =? 0) || (y =? 0) || (10000 <=? fee)) eqn:E; [done|].
  rewrite !orb_false_iff, !Z.eqb_neq, Z.leb_gt in E.
  set (g := 10000 - fee); assert (0 < g <= 10000) by (unfold g; lia).
  assert (0 < a * g < 2 ^ 126) by (change (2^126) with (2^112 * 2^14); nia).
  assert (0 < a * g * y < 2 ^ 238) by (change (2^238) with (2^126 * 2^112); nia).
  assert (2 ^ 238 < U256_MAX) by reflexivity.
  assert (2 ^ 126 < 2 ^ 238) by reflexivity.
  assert (x * 10000 < 2 ^ 126) by (change (2^126) with (2^112 * 2^14); nia).
  rewrite (sat_mul_small _ a g), (sat_mul_small _ (a * g) y), (sat_mul_small _ x), sat_add_small by lia.
  destruct (Z.eqb_spec (x * 10000 + a * g) 0); [lia|done].
Qed.

Section Quote.
Context (a x y fee : Z) (Ha : 0 < a) (Hx : 0 < x) (Hy : 0 < y) (Hf : 0 <= fee < 10000).

Lemma quote_denominator_pos : 0 < x * 10000 + a * (10000 - fee).
Proof. nia. Qed.

Lemma quote_mul_le : quote a x y fee * (x * 10000 + a * (10000 - fee)) <= a * (10000 - fee) * y.
Proof.
  unfold quote; rewrite Z.mul_comm; apply Z.mul_div_le, quote_denominator_pos.
Qed.

Lemma quote_greatest q :
  q * (x * 10000 + a * (10000 - fee)) <= a * (10000 - fee) * y -> q <= quote a x y fee.
Proof.
  intros H; unfold quote; apply Z.div_le_lower_bound; [apply quote_denominator_pos|lia].
Qed.

Lemma quote_nonneg : 0 <= quote a x y fee.
Proof. apply quote_greatest; nia. Qed.

Lemma quote_lt_reserve : quote a x y fee < y.
Proof.
  pose proof quote_mul_le; pose proof quote_denominator_pos.
  destruct (Z_lt_le_dec (quote a x y fee) y) as [|G]; [done|exfalso].
  assert (y * (x * 10000 + a * (10000 - fee)) <= a * (10000 - fee) * y) by nia.
  nia.
Qed.

(** The fee-adjusted product never falls. *)
Lemma quote_product :
  x * y * 10000 <= (x * 10000 + a * (10000 - fee)) * (y - quote a x y fee).
Proof. pose proof quote_mul_le; nia. Qed.

Lemma quote_product_plain : x * y <= (x + a) * (y - quote a x y fee).
Proof. pose proof quote_product; pose proof quote_lt_reserve; nia. Qed.
End Quote.

Lemma quote_mono_in a a' x y fee :
  0 < a -> a <= a' -> 0 < x -> 0 < y -> 0 <= fee < 10000 -> quote a x y fee <= quote a' x y fee.
Proof.
  intros Ha Haa Hx Hy Hf; apply quote_greatest; [lia..|].
  pose proof (quote_mul_le a x y fee Ha Hx Hf).
  pose proof (quote_lt_reserve a x y fee Ha Hx Hy Hf).
  set (q := quote a x y fee) in *; set (g := 10000 - fee) in *.
  assert (0 <= (a' - a) * g * (y - q)) by (repeat apply Z.mul_nonneg_nonneg; lia).
  nia.
Qed.

(** Trading [a] and then [b] against the moved pool. *)
Lemma quote_split a b x y fee :
  0 < a -> 0 < b -> 0 < x -> 0 < y -> 0 <= fee < 10000 ->
  quote a x y fee + quote b (x + a) (y - quote a x y fee) fee <= quote (a + b) x y fee.
Proof.
  intros Ha Hb Hx Hy Hf.
  pose proof (quote_product a x y fee Ha Hx Hf) as P1.
  pose proof (quote_lt_reserve a x y fee Ha Hx Hy Hf) as L1.
  set (q1 := quote a x y fee) in *.
  pose proof (quote_product b (x + a) (y - q1) fee Hb ltac:(lia) Hf) as P2.
  pose proof (quote_lt_reserve b (x + a) (y - q1) fee Hb ltac:(lia) ltac:(lia) Hf) as L2.
  set (q2 := quote b (x + a) (y - q1) fee) in *.
  apply quote_greatest; [lia..|].
  set (g := 10000 - fee) in *.
  assert (Hg : 0 < g <= 10000) by (unfold g; lia).
  clearbody q1 q2 g.
  (* clear the two denominators at once *)
  set (d1 := x * 10000 + a * g) in *.
  set (d2 := (x + a) * 10000 + b * g) in *.
  assert (0 < d1) by nia. assert (0 < d2) by nia.
  assert (K : x * y * 10000 * ((x + a) * 10000) <= d1 * d2 * (y - q1 - q2)).
  { transitivity (d1 * (y - q1) * ((x + a) * 10000)); [nia|].
    assert ((x + a) * 10000 * (y - q1) <= d2 * (y - q1 - q2)) by nia. nia. }
  assert (D : d1 * d2 <= (x * 10000 + (a + b) * g) * ((x + a) * 10000)).
  { unfold d1, d2. assert (0 <= b * g * a * (10000 - g)) by (repeat apply Z.mul_nonneg_nonneg; lia). nia. }
  assert (x * y * 10000 <= (x * 10000 + (a + b) * g) * (y - q1 - q2)).
  { apply (Z.mul_le_mono_pos_r _ _ ((x + a) * 10000)); [lia|].
    etransitivity; [apply K|]. nia. }
  nia.
Qed.

(** ** Swaps on the pool state *)

Record wf_pool (p : V2PoolState) : Prop := {
  wf_reserve0 : is_u112 (reserve0 p);
  wf_reserve1 : is_u112 (reserve1 p);
  wf_fee : 0 <= fee_bps p;
  wf_tokens : token0 p <> token1 p }.

Lemma reserves_for_Some p tin tout x y :
  reserves_for p tin tout = Some (x, y) <->
  (tin = token0 p /\ tout = token1 p /\ x = reserve0 p /\ y = reserve1 p) \/
  (~ (tin = token0 p /\ tout = token1 p) /\
   tin = token1 p /\ tout = token0 p /\ x = reserve1 p /\ y = reserve0 p).
Proof.
  unfold reserves_for.
  destruct (Z.eqb_spec tin (token0 p)), (Z.eqb_spec tout (token1 p)),
    (Z.eqb_spec tin (token1 p)), (Z.eqb_spec tout (token0 p)); simpl;
    split; intros H; try discriminate; try (injection H as <- <-); intuition congruence.
Qed.

(** A successful swap: what it pays and what it does to the reserves. *)
Lemma apply_swap_inv p tin tout a q r :
  wf_pool p -> is_u112 a -> apply_swap_exact_in p tin tout a = Some (q, r) ->
  exists x y, reserves_for p tin tout = Some (x, y) /\
    0 < a /\ 0 < x /\ 0 < y /\ fee_bps p < 10000 /\
    sr_amount_out r = quote a x y (fee_bps p) /\ 0 < sr_amount_out r < y /\
    sr_amount_in r = a /\
    pair q = pair p /\ token0 q = token0 p /\ token1 q = token1 p /\ fee_bps q = fee_bps p /\
    reserves_for q tin tout = Some (x + a, y - sr_amount_out r).
Proof.
  intros [W0 W1 Wf Wt] Ha H; unfold apply_swap_exact_in in H.
  destruct (reserves_for p tin tout) as [[x y]|] eqn:R; simpl in H; [|done].
  assert (is_u112 x /\ is_u112 y) as [Hx Hy].
  { apply reserves_for_Some in R; intuition (subst; auto). }
  destruct ((a =? 0) || (x =? 0) || (y =? 0)) eqn:E; [done|].
  rewrite amount_out_quote, E in H by done. simpl in H.
  destruct (Z.leb_spec 10000 (fee_bps p)) as [|F]; [done|]; simpl in H.
  rewrite !orb_false_iff, !Z.eqb_neq in E. unfold is_u112 in *.
  set (o := quote a x y (fee_bps p)) in *.
  destruct ((o =? 0) || (y <=? o)) eqn:G; [done|].
  rewrite orb_false_iff, Z.eqb_neq, Z.leb_gt in G.
  assert (0 <= o) by (apply quote_nonneg; lia).
  injection H as <- <-; simpl. exists x, y.
  rewrite sat_add_small by (assert (2 ^ 113 < U256_MAX) by reflexivity; lia).
  assert (sat_sub y o = y - o) as -> by (unfold sat_sub; lia).
  assert (Fin : forall q, token0 q = token0 p -> token1 q = token1 p ->
     (tin = token0 p -> reserve0 q = x + a /\ reserve1 q = y - o) ->
     (tin <> token0 p -> reserve1 q = x + a /\ reserve0 q = y - o) ->
     reserves_for q tin tout = Some (x + a, y - o)).
  { intros q T0 T1 Q0 Q1. apply reserves_for_Some. rewrite T0, T1.
    apply reserves_for_Some in R.
    destruct (Z.eq_dec tin (token0 p)) as [D|D]; [destruct (Q0 D)|destruct (Q1 D)]; intuition congruence. }
  repeat split; try lia; try (destruct (tin =? token0 p); reflexivity).
  apply Fin; try (destruct (tin =? token0 p); reflexivity);
    intros D; [apply Z.eqb_eq in D|apply Z.eqb_neq in D]; rewrite D; done.
Qed.

(** One swap the pool contract accepts: its reserves still fit 112 bits. *)
Definition swap_step (p q : V2PoolState) : Prop :=
  exists tin tout a r, is_u112 a /\ apply_swap_exact_in p tin tout a = Some (q, r) /\
    is_u112 (reserve0 q) /\ is_u112 (reserve1 q).

Lemma swap_step_inv p q :
  wf_pool p -> swap_step p q ->
  wf_pool q /\ token0 q = token0 p /\ token1 q = token1 p /\ fee_bps q = fee_bps p /\
  0 < reserve0 p /\ 0 < reserve1 p /\ 0 < reserve0 q /\ 0 < reserve1 q /\
  reserve0 p * reserve1 p <= reserve0 q * reserve1 q.
Proof.
  intros W (tin & tout & a & r & Ha & H & Q0 & Q1).
  destruct (apply_swap_inv p tin tout a q r W Ha H)
    as (x & y & R & A & X & Y & F & O & OB & _ & _ & T0 & T1 & FE & R').
  pose proof (quote_product_plain a x y (fee_bps p) A X Y) as K.
  rewrite <- O in K. destruct W as [W0 W1 Wf Wt].
  split; [split; rewrite ?T0, ?T1, ?FE; auto|].
  rewrite reserves_for_Some in R, R'; rewrite T0, T1 in R'.
  assert (0 <= fee_bps p < 10000) as Hf by lia. specialize (K Hf).
  repeat split; auto; intuition (subst; nia).
Qed.

Lemma swaps_inv p q :
  rtc swap_step p q -> wf_pool p -> 0 < reserve0 p -> 0 < reserve1 p ->
  wf_pool q /\ token0 q = token0 p /\ token1 q = token1 p /\ fee_bps q = fee_bps p /\
  0 < reserve0 q /\ 0 < reserve1 q /\
  reserve0 p * reserve1 p <= reserve0 q * reserve1 q.
Proof.
  intros H; induction H as [p|p m q S _ IH]; intros W P0 P1; [split_and!; auto; lia|].
  destruct (swap_step_inv p m W S) as (Wm & T0 & T1 & F & _ & _ & M0 & M1 & K).
  destruct (IH Wm M0 M1) as (Wq & T0' & T1' & F' & Q0 & Q1 & K').
  split_and!; congruence || auto || lia.
Qed.

(** ** Candidate sizes *)

Lemma amount_out_Some_nonneg a x y fee o :
  0 <= a -> 0 <= x -> 0 <= y -> 0 <= fee -> amount_out_exact_in a x y fee = Some o -> 0 <= o.
Proof.
  unfold amount_out_exact_in; intros Ha Hx Hy Hf H.
  destruct (_ || _) eqn:E; [done|]. rewrite !orb_false_iff, Z.leb_gt in E.
  destruct (Z.eqb_spec (u256_sadd (u256_smul x 10000) (u256_smul a (10000 - fee))) 0); [done|].
  injection H as <-. assert (0 <= 10000 - fee) by lia.
  match goal with |- 0 <= _ / ?d => assert (0 <= d) by auto 6 with sat; apply Z.div_pos end;
    [auto with sat|lia].
Qed.

Lemma size_candidate_Some x y cap gas fee bps c :
  size_candidate x y cap gas fee bps = Some c <->
  let a := u256_smul cap bps / 10000 in
  exists o, a <> 0 /\ amount_out_exact_in a x y fee = Some o /\
    sat_sub (sat_sub o a) gas <> 0 /\
    c = {| capital_fraction_bps := bps; amount_in := a; amount_out := o;
           gross_profit_wei := sat_sub o a; net_profit_wei := sat_sub (sat_sub o a) gas;
           roi_bps := Z.min (u256_smul (sat_sub (sat_sub o a) gas) 10000 / a) U64_MAX;
           self_slippage_bps := price_impact_bps a o x y |}.
Proof.
  unfold size_candidate; simpl. set (a := u256_smul cap bps / 10000).
  destruct (Z.eqb_spec a 0) as [Ea|Ea]; [split; [done|intros (o & ? & _); done]|].
  destruct (amount_out_exact_in a x y fee) as [o|]; simpl;
    [|split; [done|intros (o & _ & ? & _); done]].
  destruct (Z.eqb_spec (sat_sub (sat_sub o a) gas) 0) as [En|En].
  - split; [done|]. intros (o' & _ & [= <-] & ? & _); done.
  - split; [intros [= <-]; eauto|]. intros (o' & _ & [= <-] & _ & ->). done.
Qed.

Lemma price_impact_bps_bounds a o x y : 0 <= x -> 0 <= y -> 0 <= a -> 0 <= price_impact_bps a o x y <= 10000.
Proof.
  intros; unfold price_impact_bps. destruct (_ || _) eqn:E; [lia|].
  rewrite !orb_false_iff, !Z.eqb_neq in E.
  destruct (_ || _) eqn:E2; [lia|].
  set (i := u256_smul a y / x) in *.
  assert (0 <= i) by (apply Z.div_pos; auto with sat).
  rewrite orb_false_iff, Z.eqb_neq in E2.
  assert (0 <= u256_smul (sat_sub i o) 10000 / i); [|lia].
  apply Z.div_pos; auto with sat.
Qed.

(** ** Properties *)

(** C16: a swap on a pool whose reserves and amounts fit the 112 bits of the
    contract pays exactly the constant-product quote with the fee taken off the
    input, never the whole output reserve; it adds the input to one reserve and
    takes the output from the other, keeps the tokens and the fee, and succeeds
    whenever the quote is positive. *)
Theorem apply_swap_exact_in_spec p tin tout a x y :
  wf_pool p -> is_u112 a -> reserves_for p tin tout = Some (x, y) ->
  let o := quote a x y (fee_bps p) in
  match apply_swap_exact_in p tin tout a with
  | Some (q, r) =>
      sr_amount_in r = a /\ sr_amount_out r = o /\ 0 < o < y /\
      reserves_for q tin tout = Some (x + a, y - o) /\
      token0 q = token0 p /\ token1 q = token1 p /\ fee_bps q = fee_bps p
  | None => a = 0 \/ x = 0 \/ y = 0 \/ 10000 <= fee_bps p \/ o = 0
  end.
Proof.
  intros W Ha R o. destruct (apply_swap_exact_in p tin tout a) as [[q r]|] eqn:E.
  - destruct (apply_swap_inv p tin tout a q r W Ha E)
      as (x' & y' & R' & _ & _ & _ & _ & O & B & I & _ & T0 & T1 & F & Q).
    rewrite R in R'; injection R' as <- <-. fold o in O. rewrite <- O. split_and!; auto; lia.
  - unfold apply_swap_exact_in in E; rewrite R in E; simpl in E.
    destruct ((a =? 0) || (x =? 0) || (y =? 0)) eqn:Z0.
    { rewrite !orb_true_iff, !Z.eqb_eq in Z0; tauto. }
    assert (is_u112 x /\ is_u112 y) as [Hx Hy].
    { apply reserves_for_Some in R; destruct W; intuition (subst; auto). }
    rewrite amount_out_quote, Z0 in E by (auto; apply W). simpl in E.
    destruct (Z.leb_spec 10000 (fee_bps p)); [tauto|]; simpl in E.
    fold o in E. destruct ((o =? 0) || (y <=? o)) eqn:G; [|done].
    rewrite orb_true_iff, Z.eqb_eq, Z.leb_le in G.
    rewrite !orb_false_iff, !Z.eqb_neq in Z0. unfold is_u112 in *.
    assert (o < y) by (apply quote_lt_reserve; destruct W; lia). lia.
Qed.

Definition example_pool : V2PoolState :=
  {| pair := 7; token0 := 1; token1 := 2; reserve0 := 10000; reserve1 := 10000; fee_bps := 30 |}.

Lemma example_pool_wf : wf_pool example_pool.
Proof. split; unfold is_u112; simpl; lia. Qed.

Definition moved_pool (x y : Z) : V2PoolState := example_pool <[ reserve0 ::= x ]> <[ reserve1 ::= y ]>.

Lemma example_swap_1000 :
  apply_swap_exact_in example_pool 1 2 1000 =
  Some (moved_pool 11000 9094,
        {| sr_amount_in := 1000; sr_amount_out := 906; new_reserve_in := 11000;
           new_reserve_out := 9094; sr_price_impact_bps := 940 |}).
Proof. vm_compute; reflexivity. Qed.

Lemma example_swap_500 :
  apply_swap_exact_in (moved_pool 11000 9094) 1 2 500 =
  Some (moved_pool 11500 8700,
        {| sr_amount_in := 500; sr_amount_out := 394; new_reserve_in := 11500;
           new_reserve_out := 8700; sr_price_impact_bps := 460 |}).
Proof. vm_compute; reflexivity. Qed.

Lemma example_swap_1500 :
  apply_swap_exact_in example_pool 1 2 1500 =
  Some (moved_pool 11500 8700,
        {| sr_amount_in := 1500; sr_amount_out := 1300; new_reserve_in := 11500;
           new_reserve_out := 8700; sr_price_impact_bps := 1333 |}).
Proof. vm_compute; reflexivity. Qed.

Lemma apply_swap_exact_in_spec_witness :
  match apply_swap_exact_in example_pool 1 2 1000 with
  | Some (q, r) => sr_amount_out r = 906 /\ reserves_for q 1 2 = Some (11000, 9094)
  | None => False
  end.
Proof.
  pose proof (apply_swap_exact_in_spec example_pool 1 2 1000 10000 10000 example_pool_wf
                ltac:(unfold is_u112; lia) eq_refl) as H.
  rewrite example_swap_1000 in *. destruct H as (_ & O & _ & R & _). split; [exact O|exact R].
Defined.

(** C17: no sequence of swaps takes value out of a pool: the product of the
    reserves never falls, the reserves stay positive, the tokens and the fee are
    kept, and a trader who ends with more of one token has paid in the other. *)
Theorem swaps_take_no_value p q :
  wf_pool p -> 0 < reserve0 p -> 0 < reserve1 p -> rtc swap_step p q ->
  wf_pool q /\ 0 < reserve0 q /\ 0 < reserve1 q /\
  token0 q = token0 p /\ token1 q = token1 p /\ fee_bps q = fee_bps p /\
  reserve0 p * reserve1 p <= reserve0 q * reserve1 q /\
  (reserve0 q < reserve0 p -> reserve1 p < reserve1 q) /\
  (reserve1 q < reserve1 p -> reserve0 p < reserve0 q).
Proof.
  intros W P0 P1 H.
  destruct (swaps_inv p q H W P0 P1) as (Wq & T0 & T1 & F & Q0 & Q1 & K).
  split_and!; auto; nia.
Qed.

Lemma example_swap_step : swap_step example_pool (moved_pool 11000 9094).
Proof.
  exists 1, 2, 1000; eexists; split_and!; [|apply example_swap_1000|..]; unfold is_u112; simpl; lia.
Qed.

Lemma swaps_take_no_value_witness :
  rtc swap_step example_pool (moved_pool 11000 9094) /\ 10000 * 10000 <= 11000 * 9094.
Proof.
  pose proof (swaps_take_no_value example_pool (moved_pool 11000 9094) example_pool_wf
                eq_refl eq_refl (rtc_once _ _ example_swap_step)) as H.
  split; [apply rtc_once, example_swap_step|]. destruct H as (_ & _ & _ & _ & _ & _ & H & _). exact H.
Defined.

(** Splitting a trade never pays more: what [a] and then [b] buy is at most
    what [a + b] buys at once, and a larger input buys at least as much. *)
Theorem split_trade_never_better p tin tout a b q1 r1 q2 r2 q r :
  wf_pool p -> is_u112 a -> is_u112 b -> is_u112 (a + b) ->
  apply_swap_exact_in p tin tout a = Some (q1, r1) ->
  is_u112 (reserve0 q1) -> is_u112 (reserve1 q1) ->
  apply_swap_exact_in q1 tin tout b = Some (q2, r2) ->
  apply_swap_exact_in p tin tout (a + b) = Some (q, r) ->
  sr_amount_out r1 + sr_amount_out r2 <= sr_amount_out r /\ sr_amount_out r1 <= sr_amount_out r.
Proof.
  intros W Ha Hb Hab E1 Q0 Q1 E2 E.
  destruct (apply_swap_inv _ _ _ _ _ _ W Ha E1)
    as (x & y & R & A & X & Y & F & O1 & _ & _ & _ & T0 & T1 & FE & R1).
  assert (W1 : wf_pool q1) by (destruct W; split; rewrite ?T0, ?T1, ?FE; auto).
  destruct (apply_swap_inv _ _ _ _ _ _ W1 Hb E2)
    as (x1 & y1 & R' & B & _ & _ & _ & O2 & _).
  rewrite R1 in R'; injection R' as <- <-.
  destruct (apply_swap_inv _ _ _ _ _ _ W Hab E) as (x2 & y2 & R' & _ & _ & _ & _ & O & _).
  rewrite R in R'; injection R' as <- <-.
  rewrite O, O2, FE, O1. destruct W.
  split; [apply quote_split|apply quote_mono_in]; lia.
Qed.

Lemma split_trade_never_better_witness : 906 + 394 <= 1300 /\ 906 <= 1300.
Proof.
  refine (split_trade_never_better example_pool 1 2 1000 500 _ _ _ _ _ _ example_pool_wf _ _ _
            example_swap_1000 _ _ example_swap_500 example_swap_1500);
    unfold is_u112; simpl; lia.
Defined.

(** The candidate sizes are the profitable fractions of the capital, in the
    order given: every candidate invests its fraction of the capital cap, is
    quoted by the pool formula, has a positive profit that is exactly output
    minus input minus gas, and a self-slippage of at most 10000 bps; and every
    fraction whose output exceeds input plus gas is a candidate. *)
Theorem size_candidates_spec x y cap gas fee fractions :
  is_u256 x -> is_u256 y -> is_u256 gas -> is_u256 cap -> 0 <= fee ->
  Forall is_u64 fractions ->
  let cs := size_candidates x y cap gas fee fractions in
  map capital_fraction_bps cs `sublist_of` fractions /\
  (forall c, c ∈ cs ->
     amount_in c = u256_smul cap (capital_fraction_bps c) / 10000 /\ amount_in c <> 0 /\
     amount_out_exact_in (amount_in c) x y fee = Some (amount_out c) /\
     gross_profit_wei c = sat_sub (amount_out c) (amount_in c) /\
     net_profit_wei c = sat_sub (gross_profit_wei c) gas /\
     net_profit_wei c = amount_out c - amount_in c - gas /\ 0 < net_profit_wei c /\
     0 <= roi_bps c <= U64_MAX /\ 0 <= self_slippage_bps c <= 10000) /\
  (forall bps o, bps ∈ fractions -> cap <> 0 ->
     let a := u256_smul cap bps / 10000 in
     a <> 0 -> amount_out_exact_in a x y fee = Some o -> a + gas < o ->
     bps ∈ map capital_fraction_bps cs).
Proof.
  intros Hx Hy Hg Hc Hf HF cs; unfold is_u256, cs, size_candidates in *.
  destruct ((cap =? 0) || (x =? 0) || (y =? 0)) eqn:E.
  { rewrite !orb_true_iff, !Z.eqb_eq in E. simpl.
    split_and!; [apply sublist_nil_l|set_solver|]. intros bps o _ C A O G.
    destruct E as [[]|]; [done| |]; subst; unfold amount_out_exact_in in O;
      rewrite ?orb_true_r in O; discriminate. }
  rewrite push_loop_omap. split_and!.
  - clear cs. induction fractions as [|b bs IH]; simpl; [constructor|].
    destruct (size_candidate x y cap gas fee b) as [c|] eqn:S; simpl;
      inversion HF; subst; [|by apply sublist_cons; auto].
    apply size_candidate_Some in S as (o & _ & _ & _ & ->). simpl. by apply sublist_skip; auto.
  - intros c Hin. apply list_elem_of_omap in Hin as (bps & B & S).
    rewrite Forall_forall in HF; specialize (HF bps B); unfold is_u64 in HF.
    apply size_candidate_Some in S as (o & A & O & N & ->); simpl in *.
    set (a := u256_smul cap bps / 10000) in *.
    assert (0 <= a) by (apply Z.div_pos; auto with sat).
    assert (Q : sat_sub (sat_sub o a) gas = o - a - gas) by (unfold sat_sub in *; lia).
    assert (0 <= sat_sub (sat_sub o a) gas) by auto with sat.
    split_and!; auto; try lia; try (apply price_impact_bps_bounds; lia).
    assert (0 <= u256_smul (sat_sub (sat_sub o a) gas) 10000 / a)
      by (apply Z.div_pos; auto with sat).
    pose proof U64_MAX_nonneg. lia.
  - intros bps o B C A O G. set (a := u256_smul cap bps / 10000) in *.
    assert (S : exists c, size_candidate x y cap gas fee bps = Some c /\ capital_fraction_bps c = bps).
    { eexists; split; [apply size_candidate_Some; exists o; split_and!; [exact A|exact O| |reflexivity]|reflexivity].
      unfold sat_sub, a in *; lia. }
    destruct S as (c & S & <-). apply list_elem_of_fmap_2.
    apply list_elem_of_omap; eauto.
Qed.

Lemma size_candidates_spec_witness :
  exists c, c ∈ size_candidates 10000 1000000 5000 7 30 [0; 100; 2000] /\ net_profit_wei c = 89654.
Proof.
  assert (U : forall z, 0 <= z <= 1000000 -> is_u256 z).
  { intros z. assert (1000000 <= U256_MAX) by done. unfold is_u256. lia. }
  assert (F : Forall is_u64 [0; 100; 2000]) by (repeat constructor; vm_compute; congruence).
  destruct (size_candidates_spec 10000 1000000 5000 7 30 [0; 100; 2000]
              (U 10000 ltac:(lia)) (U 1000000 ltac:(lia)) (U 7 ltac:(lia)) (U 5000 ltac:(lia))
              ltac:(lia) F)
    as (_ & S & K).
  assert (M : 2000 ∈ [0; 100; 2000]) by (do 2 apply list_elem_of_further; apply list_elem_of_here).
  assert (O : amount_out_exact_in (u256_smul 5000 2000 / 10000) 10000 1000000 30 = Some 90661)
    by (vm_compute; reflexivity).
  assert (G : u256_smul 5000 2000 / 10000 + 7 < 90661) by (vm_compute; reflexivity).
  specialize (K 2000 90661 M ltac:(discriminate) ltac:(vm_compute; discriminate) O G).
  apply list_elem_of_fmap in K as (c & B & C). exists c; split; [exact C|].
  destruct (S c C) as (A & _ & O' & _ & _ & N & _). rewrite <- B in A. rewrite A in N, O'.
  rewrite O' in O. injection O as O. rewrite N, O. vm_compute. reflexivity.
Defined.

(** The chosen size is one of the candidates, no candidate has a higher
    score in the total order of floats, of several best ones it is the last, and
    nothing is chosen exactly when there is no candidate. *)
Theorem select_best_size_candidate_spec cs priority toxicity :
  let score c := f64_key (sizing_score c (fclamp_in priority 0 1.5) (fclamp_in toxicity 0 1)) in
  match select_best_size_candidate cs priority toxicity with
  | Some c => exists before after, cs = before ++ c :: after /\
      (forall d, d ∈ before -> score d <= score c) /\ (forall d, d ∈ after -> score d < score c)
  | None => cs = []
  end.
Proof.
  simpl. destruct (select_best_size_candidate cs priority toxicity) as [c|] eqn:E.
  - apply (max_by_spec _ _ _ E).
  - destruct cs; [done|discriminate E].
Qed.
