(* ===== verification/AmmV3.v ===== *)
(** * Concentrated-liquidity pools ([mev/amm/uniswap_v3.rs])

    The floating-point estimate of an exact-input swap and the liquidity of
    the ticks it crosses.  [ln] is the natural logarithm of the platform, whose
    precision Rust does not specify: it is a parameter. *)
From S2P Require Import Prelude F64.

Definition Q96_F64 : f64 := 79228162514264337593543950336.0%f64.

Record V3Tick := {
  index : Z;           (* i32 *)
  liquidity_net : Z    (* I256 *) }.

Record V3PoolState := {
  pool : Address;
  token0 : Address;
  token1 : Address;
  sqrt_price_x96 : U256;
  liquidity : U256;
  current_tick : Z;
  fee_bps : u64;
  initialized_ticks : list V3Tick }.
#[export] Instance V3PoolState_eta : RecordEta V3PoolState :=
  fields Build_V3PoolState <&> pool <&> token0 <&> token1 <&> sqrt_price_x96 <&> liquidity
    <&> current_tick <&> fee_bps <&> initialized_ticks.

Record V3SwapResult := {
  amount_in : U256;
  amount_out : U256;
  sqrt_price_x96_after : U256;
  tick_after : Z;
  r_price_impact_bps : u64 }.

Record V3SizeCandidate := {
  v3_capital_fraction_bps : u64;
  v3_amount_in : U256;
  v3_amount_out : U256;
  v3_gross_profit_wei : U256;
  v3_net_profit_wei : U256;
  v3_roi_bps : u64;
  v3_self_slippage_bps : u64 }.

(** The decimal rendering of a [U256] always parses. *)
Definition u256_to_f64 (value : U256) : option f64 := Some (f64_of_Z value).

(** [U256::from_dec_str(&format!("{value:.0}"))]: a minus sign does not parse
    (not even that of ["-0"]), nor do ["inf"] and ["NaN"], nor a number above
    the range. *)
Definition u256_of_fmt0 (value : f64) : option U256 :=
  match value with
  | S754_zero false => Some 0
  | S754_finite false m e =>
      let n := mag_half_even m e in if n <=? U256_MAX then Some n else None
  | _ => None
  end.

Definition f64_to_u256 (value : f64) : option U256 :=
  if negb (is_finite value) || (value <? 0.0)%f64 then None else u256_of_fmt0 value.

(** [liquidity_net] in sign and magnitude: the magnitude of [I256::MIN] is its
    own wrapped negation. *)
Definition crossed (before after : Z) (tick : V3Tick) : bool :=
  if before <? after then (before <? index tick) && (index tick <=? after)
  else (index tick <=? before) && (after <? index tick).

Definition cross_tick (before after : Z) (liquidity : U256) (tick : V3Tick) : U256 :=
  if negb (crossed before after tick) then liquidity
  else if 0 <=? liquidity_net tick then u256_sadd liquidity (liquidity_net tick)
  else sat_sub liquidity (- liquidity_net tick).

Definition apply_crossed_tick_liquidity (liquidity : U256) (before after : Z) (ticks : list V3Tick) : U256 :=
  if before =? after then liquidity
  else foldl (cross_tick before after) liquidity ticks.

Definition price_impact_bps (sqrt_before sqrt_after : f64) : u64 :=
  let price_before := (sqrt_before * sqrt_before)%f64 in
  let price_after := (sqrt_after * sqrt_after)%f64 in
  if (price_before <=? 0.0)%f64 then 10000
  else
    f64_as_u64
      (fmax (fmin ((fabs (price_after - price_before) / price_before) * 10000.0) 10000.0) 0.0)%f64.

Section Swap.
Context (ln : f64 -> f64).

Definition sqrt_price_to_tick (sqrt_price : f64) : Z :=
  let price := (sqrt_price * sqrt_price)%f64 in
  f64_as_i32 (ffloor (ln price / ln 1.0001)%f64).

(** Price and output after a swap of [amount], both as floats. *)
Definition swap_curve (zero_for_one : bool) (liquidity sqrt_before amount : f64) : f64 * f64 :=
  (if zero_for_one then
     let sqrt_after := liquidity * sqrt_before / (liquidity + amount * sqrt_before) in
     let out := liquidity * (sqrt_before - sqrt_after) in
     (sqrt_after, out)
   else
     let sqrt_after := sqrt_before + amount / liquidity in
     let out := liquidity * (1.0 / sqrt_before - 1.0 / sqrt_after) in
     (sqrt_after, out))%f64.

Definition simulate_exact_in (self : V3PoolState) (token_in token_out : Address) (amount_in : U256)
  : option (V3PoolState * V3SwapResult) :=
  if (amount_in =? 0) || (liquidity self =? 0) then None
  else
    let zero_for_one := (token_in =? token0 self) && (token_out =? token1 self) in
    let one_for_zero := (token_in =? token1 self) && (token_out =? token0 self) in
    if negb zero_for_one && negb one_for_zero then None
    else
      let amount_less_fee := u256_smul amount_in (sat_sub 10000 (fee_bps self)) / 10000 in
      sqrt_before ← (fun x => (x / Q96_F64)%f64) <$> u256_to_f64 (sqrt_price_x96 self);
      liq ← u256_to_f64 (liquidity self);
      amount ← u256_to_f64 amount_less_fee;
      if (sqrt_before <=? 0.0)%f64 || (liq <=? 0.0)%f64 then None
      else
        let '(sqrt_after, amount_out_f64) := swap_curve zero_for_one liq sqrt_before amount in
        if negb (is_finite sqrt_after) || negb (is_finite amount_out_f64)
           || (amount_out_f64 <=? 0.0)%f64 then None
        else
          sqrt_price_x96_after ← f64_to_u256 (sqrt_after * Q96_F64)%f64;
          let tick_after := sqrt_price_to_tick sqrt_after in
          let impact := price_impact_bps sqrt_before sqrt_after in
          amount_out ← f64_to_u256 amount_out_f64;
          let next := self
            <[ sqrt_price_x96 ::= sqrt_price_x96_after ]>
            <[ current_tick ::= tick_after ]>
            <[ liquidity ::= apply_crossed_tick_liquidity (liquidity self) (current_tick self)
                               tick_after (initialized_ticks self) ]> in
          Some (next, {| amount_in := amount_in; amount_out := amount_out;
                         sqrt_price_x96_after := sqrt_price_x96_after;
                         tick_after := tick_after; r_price_impact_bps := impact |}).
End Swap.

(** ** Crossed ticks *)

Lemma crossed_symmetric before after t :
  before <> after -> crossed before after t = crossed after before t.
Proof.
  unfold crossed; intros H.
  destruct (Z.ltb_spec before after), (Z.ltb_spec after before); try lia; rewrite andb_comm; done.
Qed.

Lemma cross_tick_symmetric before after l t :
  before <> after -> cross_tick before after l t = cross_tick after before l t.
Proof. intros H; unfold cross_tick; by rewrite crossed_symmetric. Qed.

(** The nets of the crossed ticks. *)
Definition crossed_nets (before after : Z) (ticks : list V3Tick) : list Z :=
  liquidity_net <$> filter (fun t => crossed before after t = true) ticks.

Definition sumZ (l : list Z) : Z := foldr Z.add 0 l.

(** Every prefix sum of [ns] added to [l] stays in range. *)
Fixpoint prefix_in_range (l : Z) (ns : list Z) : Prop :=
  match ns with
  | [] => True
  | n :: ns => 0 <= l + n <= U256_MAX /\ prefix_in_range (l + n) ns
  end.

Lemma cross_fold_exact before after ticks : forall l,
  prefix_in_range l (crossed_nets before after ticks) ->
  foldl (cross_tick before after) l ticks = l + sumZ (crossed_nets before after ticks).
Proof.
  unfold crossed_nets, sumZ; induction ticks as [|t ts IH]; intros l H; simpl in *; [lia|].
  unfold cross_tick at 2. rewrite filter_cons in *.
  destruct (crossed before after t) eqn:C; csimpl in *; [|by apply IH].
  destruct H as [B H]. destruct (Z.leb_spec 0 (liquidity_net t)).
  - rewrite sat_add_small by lia. rewrite IH by done. lia.
  - rewrite sat_sub_small by lia. rewrite Z.sub_opp_r, IH by done. lia.
Qed.

(** ** Ranges *)

Lemma f64_to_u256_range x n : f64_to_u256 x = Some n -> is_u256 n.
Proof.
  unfold f64_to_u256, u256_of_fmt0, is_u256; destruct (_ || _); [done|].
  destruct x as [[]|s| |[] m e]; try done; [by intros [= <-]|].
  destruct (Z.leb_spec (mag_half_even m e) U256_MAX); [|done]. intros [= <-]; split; [|done].
  assert (0 <= mag_trunc m e) by (unfold mag_trunc; case_match; auto with sat).
  unfold mag_half_even; repeat case_match; lia.
Qed.

Lemma price_impact_bps_le a b : 0 <= price_impact_bps a b <= 10000.
Proof.
  unfold price_impact_bps; simpl. case_match; [lia|].
  split; [by apply f64_as_int_ge0|].
  change 10000 with (mag_trunc 5497558138880000 (-39)).
  apply f64_as_int_le; [lia|auto 10 with f64|done|].
  apply fmax_le; [by apply fmin_le|done].
Qed.

(** ** Properties *)

(** Crossing ticks ignores the direction of the move: going from [a] to
    [b] and from [b] to [a] change the liquidity alike, and without saturation
    both add the net liquidity of every initialised tick in between. *)
Theorem crossed_liquidity_direction_blind l a b ticks :
  prefix_in_range l (crossed_nets a b ticks) ->
  apply_crossed_tick_liquidity l a b ticks = apply_crossed_tick_liquidity l b a ticks /\
  (a <> b -> apply_crossed_tick_liquidity l a b ticks = l + sumZ (crossed_nets a b ticks)).
Proof.
  intros H; unfold apply_crossed_tick_liquidity.
  destruct (Z.eqb_spec a b) as [->|N]; [by rewrite Z.eqb_refl|].
  destruct (Z.eqb_spec b a); [congruence|]. split; [|intros _; by apply cross_fold_exact].
  clear H; revert l; induction ticks as [|t ts IH]; intros l; simpl; [done|].
  by rewrite cross_tick_symmetric.
Qed.

Lemma crossed_liquidity_direction_blind_witness :
  let ticks := [{| index := 60; liquidity_net := 500 |}; {| index := 120; liquidity_net := -200 |}] in
  apply_crossed_tick_liquidity 1000 0 100 ticks = 1500 /\
  apply_crossed_tick_liquidity 1500 100 0 ticks = 2000.
Proof.
  simpl. set (ticks := [_; _]).
  assert (P : prefix_in_range 1000 (crossed_nets 0 100 ticks)) by (vm_compute; intuition congruence).
  assert (P2 : prefix_in_range 1500 (crossed_nets 100 0 ticks)) by (vm_compute; intuition congruence).
  destruct (crossed_liquidity_direction_blind 1000 0 100 ticks P) as [_ E].
  destruct (crossed_liquidity_direction_blind 1500 100 0 ticks P2) as [_ E2].
  rewrite E, E2 by done. by vm_compute.
Defined.

(** A simulated swap changes nothing of the pool but its price, tick and
    liquidity; it needs a positive input, a positive liquidity and the pool's
    two tokens; the reported price and tick are those of the new state, output
    and price are 256-bit numbers and the impact is at most 10000 bps. *)
Theorem simulate_exact_in_frame ln p tin tout a q r :
  simulate_exact_in ln p tin tout a = Some (q, r) ->
  a <> 0 /\ liquidity p <> 0 /\
  ((tin = token0 p /\ tout = token1 p) \/ (tin = token1 p /\ tout = token0 p)) /\
  q = p <[ sqrt_price_x96 ::= sqrt_price_x96_after r ]> <[ current_tick ::= tick_after r ]>
        <[ liquidity ::= apply_crossed_tick_liquidity (liquidity p) (current_tick p)
                           (tick_after r) (initialized_ticks p) ]> /\
  amount_in r = a /\ is_u256 (amount_out r) /\ is_u256 (sqrt_price_x96_after r) /\
  0 <= r_price_impact_bps r <= 10000.
Proof.
  unfold simulate_exact_in.
  destruct ((a =? 0) || (liquidity p =? 0)) eqn:E0; [done|].
  rewrite orb_false_iff, !Z.eqb_neq in E0.
  destruct (negb _ && negb _) eqn:E1; [done|]. simpl.
  split_if.
  destruct (swap_curve _ _ _ _) as [sa out]; simpl.
  split_if.
  destruct (f64_to_u256 (sa * Q96_F64)%f64) as [sx|] eqn:Es; simpl; [|done].
  destruct (f64_to_u256 out) as [o|] eqn:Eo; simpl; [|done].
  intros [= <- <-]; simpl. split_and!; try done; try lia.
  - by eapply f64_to_u256_range.
  - by eapply f64_to_u256_range.
  - apply price_impact_bps_le.
  - apply price_impact_bps_le.
Qed.

Definition unit_pool : V3PoolState :=
  {| pool := 9; token0 := 1; token1 := 2; sqrt_price_x96 := 2 ^ 96; liquidity := 1000000;
     current_tick := 0; fee_bps := 30; initialized_ticks := [] |}.

Lemma simulate_exact_in_frame_witness :
  exists q r, simulate_exact_in (fun x => (x - 1)%f64) unit_pool 1 2 1000 = Some (q, r) /\
    amount_out r = 996 /\ 0 <= r_price_impact_bps r <= 10000.
Proof.
  destruct (simulate_exact_in (fun x => (x - 1)%f64) unit_pool 1 2 1000) as [[q r]|] eqn:E.
  - pose proof (simulate_exact_in_frame _ _ _ _ _ _ _ E) as H. exists q, r.
    split; [done|]. destruct H as (_ & _ & _ & _ & _ & _ & _ & H). split; [|exact H].
    vm_compute in E. injection E as <- <-. reflexivity.
  - exfalso. vm_compute in E. discriminate E.
Defined.
