(* ===== verification/Selector.v ===== *)
(** * Router selectors ([mev/decoder/simd.rs])

    The table of the swap selectors and its two searches, the scalar one and
    the AVX2 one with its vector instructions written out. *)
From S2P Require Import Prelude.

Definition SELECTORS : list Bytes :=
  [ [0x38; 0xed; 0x17; 0x39];
    [0x7f; 0xf3; 0x6a; 0xb5];
    [0x18; 0xcb; 0xaf; 0xe5];
    [0x5c; 0x11; 0xd7; 0x95];
    [0xb6; 0xf9; 0xde; 0x95];
    [0x79; 0x1a; 0xc9; 0x47];
    [0x41; 0x4b; 0xf3; 0x89];
    [0xc0; 0x4b; 0x8d; 0x59] ].

(** [data[0..4]]: an index past the end panics. *)
Definition find_selector_scalar (data : Bytes) : outcome (option usize) :=
  match data with
  | a :: b :: c :: d :: _ =>
      let selector := [a; b; c; d] in
      Done (position (fun candidate => bool_decide (candidate = selector)) SELECTORS)
  | _ => Panicked
  end.

(** The vector registers as their sixteen bytes, lowest first. *)
Definition i32_from_le_bytes (b : Bytes) : Z := foldr (fun x acc => x + 256 * acc) 0 b.
Definition mm_cvtsi32_si128 (n : Z) : Bytes :=
  [n mod 256; n / 256 mod 256; n / 256 ^ 2 mod 256; n / 256 ^ 3 mod 256] ++ replicate 12 0.
Definition mm_cmpeq_epi8 (a b : Bytes) : Bytes :=
  zip_with (fun x y => if x =? y then 0xff else 0) a b.
(** Bit [i] is the top bit of byte [i]. *)
Definition mm_movemask_epi8 (v : Bytes) : Z :=
  foldr (fun x acc => x / 128 + 2 * acc) 0 v.

Fixpoint simd_scan (target : Bytes) (idx : nat) (selectors : list Bytes) : option usize :=
  match selectors with
  | [] => None
  | selector :: rest =>
      let candidate := mm_cvtsi32_si128 (i32_from_le_bytes selector) in
      let cmp := mm_cmpeq_epi8 target candidate in
      if Z.land (mm_movemask_epi8 cmp) 0x0f =? 0x0f then Some idx
      else simd_scan target (S idx) rest
  end.

Definition find_selector_simd (data : Bytes) : option usize :=
  match data with
  | a :: b :: c :: d :: _ =>
      simd_scan (mm_cvtsi32_si128 (i32_from_le_bytes [a; b; c; d])) 0 SELECTORS
  | _ => None
  end.

(** Which search the build selects. *)
Definition find_selector (avx2 : bool) (data : Bytes) : outcome (option usize) :=
  if (length data <? 4)%nat then Done None
  else if avx2 then Done (find_selector_simd data) else find_selector_scalar data.

(** ** Lemmas *)

Lemma le_bytes_lanes a b c d :
  is_u8 a -> is_u8 b -> is_u8 c -> is_u8 d ->
  mm_cvtsi32_si128 (i32_from_le_bytes [a; b; c; d]) = [a; b; c; d] ++ replicate 12 0.
Proof.
  unfold is_u8, mm_cvtsi32_si128, i32_from_le_bytes; cbn [foldr]; intros Ha Hb Hc Hd.
  set (n := a + 256 * (b + 256 * (c + 256 * (d + 256 * 0)))).
  assert (n mod 256 = a) as -> by (symmetry; apply (Z.mod_unique_pos n 256 (b + 256 * (c + 256 * d))); lia).
  assert (n / 256 = b + 256 * (c + 256 * d)) as ->
    by (symmetry; apply (Z.div_unique_pos n 256 _ a); lia).
  assert (n / 256 ^ 2 = c + 256 * d) as ->
    by (symmetry; apply (Z.div_unique_pos n (256 ^ 2) _ (a + 256 * b)); lia).
  assert (n / 256 ^ 3 = d) as ->
    by (symmetry; apply (Z.div_unique_pos n (256 ^ 3) _ (a + 256 * (b + 256 * c))); lia).
  f_equal. repeat f_equal.
  - symmetry; apply (Z.mod_unique_pos _ 256 (c + 256 * d)); lia.
  - symmetry; apply (Z.mod_unique_pos _ 256 d); lia.
  - apply Z.mod_small; lia.
Qed.

(** The masked comparison of two registers holds four equal bytes. *)
Lemma movemask_four a b c d a' b' c' d' :
  let cmp := mm_cmpeq_epi8 ([a; b; c; d] ++ replicate 12 0) ([a'; b'; c'; d'] ++ replicate 12 0) in
  (Z.land (mm_movemask_epi8 cmp) 0x0f =? 0x0f) =
  bool_decide ([a'; b'; c'; d'] = [a; b; c; d]).
Proof.
  simpl. unfold mm_movemask_epi8, mm_cmpeq_epi8; simpl.
  destruct (Z.eqb_spec a a'), (Z.eqb_spec b b'), (Z.eqb_spec c c'), (Z.eqb_spec d d'); simpl;
    try (rewrite bool_decide_eq_false_2 by congruence; reflexivity).
  rewrite bool_decide_eq_true_2 by congruence. reflexivity.
Qed.

Lemma simd_scan_position a b c d idx sels :
  is_u8 a -> is_u8 b -> is_u8 c -> is_u8 d ->
  Forall (fun s => length s = 4%nat /\ Forall is_u8 s) sels ->
  simd_scan (mm_cvtsi32_si128 (i32_from_le_bytes [a; b; c; d])) idx sels =
  (Nat.add idx) <$> position (fun candidate => bool_decide (candidate = [a; b; c; d])) sels.
Proof.
  intros Ha Hb Hc Hd H; revert idx; induction H as [|s sels [L F] _ IH]; intros idx; [done|].
  destruct s as [|a' [|b' [|c' [|d' []]]]]; try discriminate L.
  repeat match goal with K : Forall is_u8 (_ :: _) |- _ => apply Forall_cons in K as [? K] end.
  cbn [simd_scan position]. rewrite IH, !le_bytes_lanes by done.
  rewrite (movemask_four a b c d a' b' c' d').
  case_bool_decide; simpl; [f_equal; lia|].
  match goal with |- context [position ?p sels] => destruct (position p sels) end; simpl; [f_equal; lia|done].
Qed.

(** ** Properties *)

(** C25: on any input the AVX2 search and the scalar search agree, neither
    panics, and the index they return is that of the table entry equal to the
    first four bytes; they return none exactly when no entry is equal to them. *)
Theorem find_selector_backends_agree data :
  Forall is_u8 data ->
  find_selector true data = find_selector false data /\
  exists r, find_selector false data = Done r /\
    match r with
    | Some i => SELECTORS !! i = Some (take 4 data)
    | None => (length data < 4)%nat \/ take 4 data ∉ SELECTORS
    end.
Proof.
  intros F; unfold find_selector. destruct (Nat.ltb_spec (length data) 4) as [L|L].
  { split; [done|]. exists None. split; [done|by left]. }
  destruct data as [|a [|b [|c [|d data]]]]; simpl in L; try lia.
  repeat match goal with K : Forall is_u8 (_ :: _) |- _ => apply Forall_cons in K as [? K] end.
  unfold find_selector_scalar. split.
  - f_equal. unfold find_selector_simd. rewrite simd_scan_position; [|done..|].
    + match goal with |- _ <$> ?p = _ => change (Nat.add 0 <$> p = p); by destruct p end.
    + unfold SELECTORS; repeat constructor; unfold is_u8; lia.
  - eexists; split; [reflexivity|]. cbv zeta.
    match goal with |- context [position ?p SELECTORS] =>
      destruct (position p SELECTORS) as [i|] eqn:E end.
    + apply position_Some in E as (x & E & D). apply bool_decide_eq_true in D as ->. done.
    + right. intros Hin. pose proof (proj1 (position_None _ _) E _ Hin) as D.
      simpl in D. by rewrite bool_decide_eq_true_2 in D.
Qed.

Lemma find_selector_backends_agree_witness :
  find_selector true [0x41; 0x4b; 0xf3; 0x89; 7] = find_selector false [0x41; 0x4b; 0xf3; 0x89; 7] /\
  find_selector true [0x41; 0x4b; 0xf3; 0x89; 7] = Done (Some 6%nat).
Proof.
  split; [|vm_compute; reflexivity].
  apply find_selector_backends_agree. repeat constructor; vm_compute; congruence.
Defined.
