(* ===== verification/Simulator.v ===== *)
(** * State simulation ([mev/simulation/state_simulator.rs])

    The victim's swap on a pool of either kind and the preflight of a
    transaction on an in-memory EVM.  The EVM itself is a parameter: it runs an
    environment on an account database. *)
From S2P Require Import Prelude F64 Text Ethers Config AmmV2 AmmV3.
#[local] Open Scope Z_scope.

Inductive AmmState :=
| UniswapV2 (pool : V2PoolState)
| UniswapV3 (pool : V3PoolState).

Record PostSwapSimulation := {
  state_after : AmmState;
  slippage_impact_bps : u64 }.

Record EvmLog := {
  log_address : Address;
  log_topics : list H256;
  log_data : Bytes }.

Record EvmPreflightResult := {
  pf_success : bool;
  pf_gas_used : u64;
  pf_profit_wei : U256;
  pf_revert_reason : option string;
  pf_logs : list EvmLog }.

Record AccountState := {
  balance : U256;
  nonce : u64;
  code : option Bytes;
  storage : gmap U256 U256 }.

Definition AccountState_empty : AccountState :=
  {| balance := 0; nonce := 0; code := None; storage := ∅ |}.
Definition with_balance (b : U256) : AccountState :=
  {| balance := b; nonce := 0; code := None; storage := ∅ |}.

Definition simulate_victim_exact_in (ln : f64 -> f64) (state : AmmState)
    (token_in token_out : Address) (amount_in : U256) : option PostSwapSimulation :=
  match state with
  | UniswapV2 pool =>
      '(next, result) ← AmmV2.apply_swap_exact_in pool token_in token_out amount_in;
      Some {| state_after := UniswapV2 next;
              slippage_impact_bps := AmmV2.sr_price_impact_bps result |}
  | UniswapV3 pool =>
      '(next, result) ← AmmV3.simulate_exact_in ln pool token_in token_out amount_in;
      Some {| state_after := UniswapV3 next;
              slippage_impact_bps := AmmV3.r_price_impact_bps result |}
  end.

(** ** Profit from transfer logs *)

Definition TRANSFER_TOPIC : H256 :=
  0xddf252ad1be2c89b69c2b068fc378daa952ba7f163c4a11628f55a4df523b3ef.

Definition log_profit (profit_recipient : Address) (profit : U256) (log : EvmLog) : U256 :=
  match log_topics log with
  | t0 :: _ :: t2 :: _ =>
      if t0 =? TRANSFER_TOPIC then
        if address_of_word t2 =? profit_recipient then
          if (32 <=? length (log_data log))%nat then
            u256_sadd profit (from_big_endian (take 32 (log_data log)))
          else profit
        else profit
      else profit
  | _ => profit
  end.

Definition extract_profit_from_logs (logs : list EvmLog) (profit_recipient : Address) : U256 :=
  foldl (log_profit profit_recipient) 0 logs.

(** ** EVM preflight *)

(** [revm]'s account as the database holds it, and the environment. *)
Record RAccount := {
  ra_balance : U256;
  ra_nonce : u64;
  ra_code : option Bytes;
  ra_storage : gmap U256 U256 }.

Record EvmEnv := {
  caller : Address;
  transact_to : option Address;   (* [None]: create *)
  env_data : Bytes;
  env_value : U256;
  env_gas_price : U256;
  env_gas_limit : u64;
  env_nonce : option u64;
  env_chain_id : option u64;
  block_number : U256;
  block_timestamp : U256;
  block_coinbase : Address;
  block_difficulty : U256;
  block_prevrandao : option H256;
  block_gas_limit : U256;
  block_basefee : U256 }.

(** [ExecutionResult] of [revm]. *)
Record ExecResult := {
  er_gas_used : u64;
  er_is_success : bool;
  er_logs : list EvmLog;
  er_output : option Bytes }.

Definition as_u64 (x : U256) : outcome u64 := if x <=? U64_MAX then Done x else Panicked.

Definition account_info (st : AccountState) : RAccount :=
  {| ra_balance := balance st; ra_nonce := nonce st; ra_code := code st; ra_storage := ∅ |}.

(** [insert_account_info], then one [insert_account_storage] per slot. *)
Definition apply_override (db : gmap Address RAccount) (a : Address) (st : AccountState)
  : gmap Address RAccount :=
  let db := <[a := account_info st]> db in
  map_fold (fun slot v (db : gmap Address RAccount) =>
      alter (fun acc => {| ra_balance := ra_balance acc; ra_nonce := ra_nonce acc;
                           ra_code := ra_code acc; ra_storage := <[slot := v]> (ra_storage acc) |}) a db)
    db (storage st).

Definition apply_overrides (overrides : gmap Address AccountState) : gmap Address RAccount :=
  map_fold (fun a st db => apply_override db a st) ∅ overrides.

Section Preflight.
Context (transact : EvmEnv -> gmap Address RAccount -> string + ExecResult).
Context (utf8_lossy : Bytes -> string).

Definition evm_env (tx : Transaction) (number : u64) (timestamp : u64) : outcome EvmEnv :=
  gas_limit <-! as_u64 (tx_gas tx);;
  nonce <-! as_u64 (tx_nonce tx);;
  chain_id <-! match tx_chain_id tx with
               | Some c => c <-! as_u64 c;; Done (Some c)
               | None => Done None
               end;;
  Done {| caller := tx_from tx; transact_to := tx_to tx; env_data := tx_input tx;
          env_value := tx_value tx; env_gas_price := default 0 (tx_gas_price tx);
          env_gas_limit := gas_limit; env_nonce := Some nonce; env_chain_id := chain_id;
          block_number := number; block_timestamp := timestamp; block_coinbase := 0;
          block_difficulty := 0; block_prevrandao := Some 0; block_gas_limit := 30000000;
          block_basefee := 0 |}.

Definition evm_preflight_execution (config : Config) (tx : Transaction) (number timestamp : u64)
    (state_overrides : gmap Address AccountState) : outcome (string + EvmPreflightResult) :=
  env <-! evm_env tx number timestamp;;
  let db := apply_overrides state_overrides in
  match transact env db with
  | inr result =>
      let logs := er_logs result in
      Done (inr {| pf_success := er_is_success result; pf_gas_used := er_gas_used result;
                   pf_profit_wei := extract_profit_from_logs logs (profit_address config);
                   pf_revert_reason :=
                     if negb (er_is_success result) then utf8_lossy <$> er_output result else None;
                   pf_logs := logs |})
  | inl err => Done (inl ("EVm execution error: " +:+ err)%string)
  end.
End Preflight.

(** ** Lemmas *)

(** What one log transfers to the recipient. *)
Definition transferred (profit_recipient : Address) (log : EvmLog) : Z :=
  match log_topics log with
  | t0 :: _ :: t2 :: _ =>
      if (t0 =? TRANSFER_TOPIC) && (address_of_word t2 =? profit_recipient)
         && (32 <=? length (log_data log))%nat
      then from_big_endian (take 32 (log_data log)) else 0
  | _ => 0
  end.

Definition wf_log (log : EvmLog) : Prop := Forall is_u8 (log_data log).

Lemma transferred_nonneg r log : wf_log log -> 0 <= transferred r log.
Proof.
  intros W; unfold transferred. repeat split_step; try lia.
  apply from_big_endian_range. by apply Forall_take.
Qed.

Lemma log_profit_transferred r p log :
  0 <= p <= U256_MAX -> wf_log log -> log_profit r p log = Z.min (p + transferred r log) U256_MAX.
Proof.
  intros H W; pose proof (transferred_nonneg r log W) as N. revert N.
  unfold log_profit, transferred, sat_add.
  destruct (log_topics log) as [|t0 [|t1 [|t2 ts]]]; try lia.
  destruct (t0 =? _), (address_of_word t2 =? r), (32 <=? length (log_data log))%nat; simpl; lia.
Qed.

Definition total_transferred (r : Address) (logs : list EvmLog) : Z :=
  foldr (fun log acc => transferred r log + acc) 0 logs.

Lemma total_transferred_nonneg r logs : Forall wf_log logs -> 0 <= total_transferred r logs.
Proof.
  induction 1 as [|log logs W _ IH]; simpl; [lia|]. pose proof (transferred_nonneg r log W). lia.
Qed.

Lemma total_transferred_perm r l1 l2 : l1 ≡ₚ l2 -> total_transferred r l1 = total_transferred r l2.
Proof. induction 1; simpl; lia. Qed.

Lemma extract_fold r logs : forall p, 0 <= p <= U256_MAX -> Forall wf_log logs ->
  foldl (log_profit r) p logs = Z.min (p + total_transferred r logs) U256_MAX.
Proof.
  induction logs as [|log logs IH]; intros p H W; simpl; [lia|].
  apply Forall_cons in W as [W Ws]. pose proof (transferred_nonneg r log W).
  pose proof (total_transferred_nonneg r logs Ws).
  rewrite log_profit_transferred by done. rewrite IH by (done || lia). lia.
Qed.

(** A storage insertion touches its own account only. *)
Lemma apply_override_lookup db a st b :
  apply_override db a st !! b =
  if decide (a = b) then
    Some {| ra_balance := balance st; ra_nonce := nonce st; ra_code := code st;
            ra_storage := storage st |}
  else db !! b.
Proof.
  unfold apply_override.
  pose (f := fun slot v (db : gmap Address RAccount) =>
      alter (fun acc => {| ra_balance := ra_balance acc; ra_nonce := ra_nonce acc;
                           ra_code := ra_code acc; ra_storage := <[slot := v]> (ra_storage acc) |}) a db).
  change (map_fold f (<[a := account_info st]> db) (storage st) !! b =
    if decide (a = b) then Some (Build_RAccount (balance st) (nonce st) (code st) (storage st))
    else db !! b).
  set (db0 := <[a := account_info st]> db).
  generalize (storage st) as m; intros m.
  apply (map_fold_weak_ind (fun (r : gmap Address RAccount) m =>
    r !! b = if decide (a = b) then Some (Build_RAccount (balance st) (nonce st) (code st) m) else db !! b)).
  - unfold db0. destruct (decide (a = b)) as [->|N]; [by rewrite lookup_insert_eq|by rewrite lookup_insert_ne].
  - intros slot v m' r _ IH; unfold f.
    destruct (decide (a = b)) as [->|N].
    + by rewrite lookup_alter_eq, IH.
    + by rewrite lookup_alter_ne.
Qed.

Lemma apply_overrides_lookup ov b :
  apply_overrides ov !! b =
  (fun st => {| ra_balance := balance st; ra_nonce := nonce st; ra_code := code st;
                ra_storage := storage st |}) <$> ov !! b.
Proof.
  unfold apply_overrides.
  apply (map_fold_weak_ind (fun (db : gmap Address RAccount) (ov : gmap Address AccountState) =>
    db !! b = (fun st => Build_RAccount (balance st) (nonce st) (code st) (storage st)) <$> ov !! b)).
  - by rewrite !lookup_empty.
  - intros a st ov' db _ IH. rewrite apply_override_lookup.
    destruct (decide (a = b)) as [->|N]; [by rewrite lookup_insert_eq|by rewrite lookup_insert_ne].
Qed.

(** ** Properties *)

(** The profit read from the logs is the sum of the first data words of the
    ERC-20 transfers to the recipient, capped at the 256-bit maximum, whatever
    the order of the logs; every other log counts for nothing. *)
Theorem extract_profit_from_logs_spec logs logs' r :
  Forall wf_log logs -> logs ≡ₚ logs' ->
  extract_profit_from_logs logs r = Z.min (total_transferred r logs) U256_MAX /\
  extract_profit_from_logs logs' r = extract_profit_from_logs logs r.
Proof.
  intros W P. assert (W' : Forall wf_log logs') by (by rewrite <- P).
  unfold extract_profit_from_logs. pose proof U256_MAX_nonneg.
  rewrite !extract_fold by (done || lia). rewrite (total_transferred_perm r _ _ P). done.
Qed.

Lemma extract_profit_from_logs_spec_witness :
  let l := {| log_address := 5; log_topics := [TRANSFER_TOPIC; 3; 9];
              log_data := to_big_endian 32 1000 |} in
  extract_profit_from_logs [l; l] 9 = 2000.
Proof.
  intros l.
  assert (W : Forall wf_log [l; l]).
  { unfold wf_log, l; repeat constructor; vm_compute; congruence. }
  destruct (extract_profit_from_logs_spec [l; l] [l; l] 9 W (Permutation_refl _)) as [E _].
  rewrite E. vm_compute. reflexivity.
Defined.

(** The preflight panics exactly when the gas, the nonce or the chain id of
    the transaction is above 64 bits; otherwise the EVM sees every overridden
    account with its balance, nonce, code and whole storage and no other
    account, an execution error becomes an [Err], and a result carries the
    engine's success and gas, the profit of the configured recipient, and a
    revert reason only on failure. *)
Theorem evm_preflight_execution_spec transact utf8 config tx number ts ov :
  match evm_preflight_execution transact utf8 config tx number ts ov with
  | Panicked => U64_MAX < tx_gas tx \/ U64_MAX < tx_nonce tx \/
                exists c, tx_chain_id tx = Some c /\ U64_MAX < c
  | Done r =>
      tx_gas tx <= U64_MAX /\ tx_nonce tx <= U64_MAX /\
      exists env db,
        (forall a, db !! a = (fun st => {| ra_balance := balance st; ra_nonce := nonce st;
                                 ra_code := code st; ra_storage := storage st |}) <$> ov !! a) /\
        caller env = tx_from tx /\ env_value env = tx_value tx /\ env_data env = tx_input tx /\
        transact_to env = tx_to tx /\ block_number env = number /\
        match r with
        | inl e => exists err, transact env db = inl err /\ e = ("EVm execution error: " +:+ err)%string
        | inr p => exists res, transact env db = inr res /\
            pf_success p = er_is_success res /\ pf_gas_used p = er_gas_used res /\
            pf_profit_wei p = extract_profit_from_logs (er_logs res) (profit_address config) /\
            (pf_success p = true -> pf_revert_reason p = None)
        end
  end.
Proof.
  unfold evm_preflight_execution, evm_env, as_u64.
  destruct (Z.leb_spec (tx_gas tx) U64_MAX) as [G|G]; simpl; [|tauto].
  destruct (Z.leb_spec (tx_nonce tx) U64_MAX) as [N|N]; simpl; [|tauto].
  destruct (tx_chain_id tx) as [c|]; simpl;
    [destruct (Z.leb_spec c U64_MAX) as [C|C]; simpl; [|eauto 10]|];
    (match goal with |- context [transact ?e ?d] =>
      destruct (transact e d) as [err|res] eqn:T; split_and!; auto; exists e, d end).
  all: split_and!; try apply apply_overrides_lookup; try reflexivity; eexists; split; try exact T; try done.
  all: simpl; split_and!; try done; by intros ->.
Qed.

(** Simulating the victim keeps the kind, the address, the tokens and the
    fee of the pool, and reports a slippage of at most 10000 bps. *)
Theorem simulate_victim_exact_in_frame ln state tin tout a s :
  (match state with
   | UniswapV2 p => wf_pool p
   | UniswapV3 _ => True
   end) -> is_u112 a ->
  simulate_victim_exact_in ln state tin tout a = Some s ->
  0 <= slippage_impact_bps s <= 10000 /\
  match state, state_after s with
  | UniswapV2 p, UniswapV2 q =>
      AmmV2.pair q = AmmV2.pair p /\ AmmV2.token0 q = AmmV2.token0 p /\
      AmmV2.token1 q = AmmV2.token1 p /\ AmmV2.fee_bps q = AmmV2.fee_bps p
  | UniswapV3 p, UniswapV3 q =>
      AmmV3.pool q = AmmV3.pool p /\ AmmV3.token0 q = AmmV3.token0 p /\
      AmmV3.token1 q = AmmV3.token1 p /\ AmmV3.fee_bps q = AmmV3.fee_bps p /\
      AmmV3.initialized_ticks q = AmmV3.initialized_ticks p
  | _, _ => False
  end.
Proof.
  intros W Ha H; destruct state as [p|p]; simpl in H.
  - destruct (apply_swap_exact_in p tin tout a) as [[q r]|] eqn:E; simpl in H; [|done].
    injection H as <-; simpl.
    destruct (apply_swap_inv p tin tout a q r W Ha E)
      as (x & y & R & A & X & Y & _ & _ & _ & _ & P & T0 & T1 & F & _).
    split; [|tauto].
    unfold apply_swap_exact_in in E; rewrite R in E; simpl in E.
    revert E; repeat split_step; intros [= <- <-]; apply price_impact_bps_bounds; lia.
  - destruct (simulate_exact_in ln p tin tout a) as [[q r]|] eqn:E; simpl in H; [|done].
    injection H as <-; simpl. revert E; unfold simulate_exact_in.
    repeat split_step; intros [= <- <-]; simpl; split_and!; try done; apply price_impact_bps_le.
Qed.

Lemma simulate_victim_exact_in_frame_witness :
  exists s, simulate_victim_exact_in (fun x => x) (UniswapV2 example_pool) 1 2 1000 = Some s /\
    slippage_impact_bps s = 940 /\ 0 <= slippage_impact_bps s <= 10000.
Proof.
  assert (E : simulate_victim_exact_in (fun x => x) (UniswapV2 example_pool) 1 2 1000 =
    Some {| state_after := UniswapV2 (moved_pool 11000 9094); slippage_impact_bps := 940 |})
    by (vm_compute; reflexivity).
  eexists; split; [exact E|]. split; [reflexivity|].
  assert (A : is_u112 1000) by (unfold is_u112; lia).
  exact (proj1 (simulate_victim_exact_in_frame (fun x => x) (UniswapV2 example_pool) 1 2 1000 _
                  example_pool_wf A E)).
Defined.
