(* ===== verification/PoolCache.v ===== *)
(** * Pool cache ([mev/cache/pool_cache.rs])

    Pools read from the chain, kept for a time to live.  A request first looks
    the pool up and, on a miss, awaits the chain and stores what it read: other
    requests run in between, so a request is two steps of a transition system
    over the shared maps and counters.  The provider is a parameter: the result
    of the joined calls. *)
From S2P Require Import Prelude.

Record CachedV2Pool := {
  c2_pair : Address;
  c2_token0 : Address;
  c2_token1 : Address;
  c2_reserve0 : U256;
  c2_reserve1 : U256;
  c2_block_number : u64;
  c2_cached_at : Instant }.

Record CachedV3Pool := {
  c3_pool : Address;
  c3_token0 : Address;
  c3_token1 : Address;
  c3_sqrt_price_x96 : U256;
  c3_liquidity : U256;
  c3_current_tick : Z;
  c3_block_number : u64;
  c3_cached_at : Instant }.

Record PoolCacheEntry (T : Type) := {
  data : T;
  cached_at : Instant;
  block_number : u64 }.
Arguments data {T} _.
Arguments cached_at {T} _.
Arguments block_number {T} _.

Record CacheStats := {
  v2_hits : u64;
  v2_misses : u64;
  v3_hits : u64;
  v3_misses : u64;
  stale_reads : u64;
  refresh_count : u64 }.
#[export] Instance CacheStats_eta : RecordEta CacheStats :=
  fields Build_CacheStats <&> v2_hits <&> v2_misses <&> v3_hits <&> v3_misses <&> stale_reads
    <&> refresh_count.

Record PoolCache := {
  v2_pools : gmap Address (PoolCacheEntry CachedV2Pool);
  v3_pools : gmap Address (PoolCacheEntry CachedV3Pool);
  ttl_ms : u64;
  stats : CacheStats }.
#[export] Instance PoolCache_eta : RecordEta PoolCache :=
  fields Build_PoolCache <&> v2_pools <&> v3_pools <&> ttl_ms <&> stats.

Definition new (ttl : u64) : PoolCache :=
  {| v2_pools := ∅; v3_pools := ∅; ttl_ms := ttl;
     stats := {| v2_hits := 0; v2_misses := 0; v3_hits := 0; v3_misses := 0; stale_reads := 0;
                 refresh_count := 0 |} |}.

(** [elapsed().as_millis() as u64] and the freshness test. *)
Definition age_ms {T} (now : Instant) (e : PoolCacheEntry T) : u64 := wrap64 (elapsed_ms now (cached_at e)).
Definition fresh {T} (ttl : u64) (now : Instant) (current_block : u64) (e : PoolCacheEntry T) : bool :=
  (age_ms now e <? ttl) && (sat_sub current_block 5 <=? block_number e).

(** A counter increment of the release build. *)
Definition bump (x : u64) : u64 := wrap64 (x + 1).

(** The first half of a request: a hit, or the counted miss. *)
Definition lookup_v2 (c : PoolCache) (pair : Address) (now : Instant) (current_block : u64)
  : PoolCache * option CachedV2Pool :=
  let miss (st : CacheStats) := c <[ stats ::= st <[ v2_misses ::= bump (v2_misses st) ]> ]> in
  match v2_pools c !! pair with
  | Some entry =>
      if fresh (ttl_ms c) now current_block entry then
        (c <[ stats ::= (stats c) <[ v2_hits ::= bump (v2_hits (stats c)) ]> ]>, Some (data entry))
      else if ttl_ms c <=? age_ms now entry then
        (miss ((stats c) <[ stale_reads ::= bump (stale_reads (stats c)) ]>), None)
      else (miss (stats c), None)
  | None => (miss (stats c), None)
  end.

(** The second half, once the three calls have returned: the clock is read for
    the pool and again for the entry. *)
Definition store_v2 (c : PoolCache) (pair : Address) (fetched : Address * Address * (U256 * U256))
    (current_block : u64) (now1 now2 : Instant) : PoolCache * CachedV2Pool :=
  let '(token0, token1, (r0, r1)) := fetched in
  let cached := {| c2_pair := pair; c2_token0 := token0; c2_token1 := token1; c2_reserve0 := r0;
                   c2_reserve1 := r1; c2_block_number := current_block; c2_cached_at := now1 |} in
  (c <[ v2_pools ::= <[pair := {| data := cached; cached_at := now2;
                                  block_number := current_block |}]> (v2_pools c) ]>
     <[ stats ::= (stats c) <[ refresh_count ::= bump (refresh_count (stats c)) ]> ]>,
   cached).

Definition lookup_v3 (c : PoolCache) (pool : Address) (now : Instant) (current_block : u64)
  : PoolCache * option CachedV3Pool :=
  let miss := c <[ stats ::= (stats c) <[ v3_misses ::= bump (v3_misses (stats c)) ]> ]> in
  match v3_pools c !! pool with
  | Some entry =>
      if fresh (ttl_ms c) now current_block entry then
        (c <[ stats ::= (stats c) <[ v3_hits ::= bump (v3_hits (stats c)) ]> ]>, Some (data entry))
      else (miss, None)
  | None => (miss, None)
  end.

Definition store_v3 (c : PoolCache) (pool : Address)
    (fetched : Address * Address * U256 * (U256 * Z)) (current_block : u64) (now1 now2 : Instant)
  : PoolCache * CachedV3Pool :=
  let '(token0, token1, liquidity, (sqrt_price, tick)) := fetched in
  let cached := {| c3_pool := pool; c3_token0 := token0; c3_token1 := token1;
                   c3_sqrt_price_x96 := sqrt_price; c3_liquidity := liquidity;
                   c3_current_tick := tick; c3_block_number := current_block;
                   c3_cached_at := now1 |} in
  (c <[ v3_pools ::= <[pool := {| data := cached; cached_at := now2;
                                  block_number := current_block |}]> (v3_pools c) ]>, cached).

(** A whole request that nothing interrupts. *)
Definition get_or_fetch_v2 (fetch : Address -> option (Address * Address * (U256 * U256)))
    (c : PoolCache) (pair : Address) (current_block : u64) (now now1 now2 : Instant)
  : PoolCache * option CachedV2Pool :=
  match lookup_v2 c pair now current_block with
  | (c, Some hit) => (c, Some hit)
  | (c, None) =>
      match fetch pair with
      | None => (c, None)
      | Some fetched =>
          let '(c, cached) := store_v2 c pair fetched current_block now1 now2 in (c, Some cached)
      end
  end.

Definition get_or_fetch_v3 (fetch : Address -> option (Address * Address * U256 * (U256 * Z)))
    (c : PoolCache) (pool : Address) (current_block : u64) (now now1 now2 : Instant)
  : PoolCache * option CachedV3Pool :=
  match lookup_v3 c pool now current_block with
  | (c, Some hit) => (c, Some hit)
  | (c, None) =>
      match fetch pool with
      | None => (c, None)
      | Some fetched =>
          let '(c, cached) := store_v3 c pool fetched current_block now1 now2 in (c, Some cached)
      end
  end.

Definition get_stats (c : PoolCache) : CacheStats := stats c.

(** ** The shared cache as a transition system *)

Inductive event :=
| Looked2 (pair : Address) (now : Instant) (block : u64) (hit : option CachedV2Pool)
| Stored2 (pair : Address) (block : u64)
| Looked3 (pool : Address) (now : Instant) (block : u64) (hit : option CachedV3Pool)
| Stored3 (pool : Address) (block : u64).

Inductive step : PoolCache -> event -> PoolCache -> Prop :=
| step_lookup2 c c' p now b r :
    lookup_v2 c p now b = (c', r) -> step c (Looked2 p now b r) c'
| step_store2 c c' p f b n1 n2 x :
    store_v2 c p f b n1 n2 = (c', x) -> step c (Stored2 p b) c'
| step_lookup3 c c' p now b r :
    lookup_v3 c p now b = (c', r) -> step c (Looked3 p now b r) c'
| step_store3 c c' p f b n1 n2 x :
    store_v3 c p f b n1 n2 = (c', x) -> step c (Stored3 p b) c'.

(** Traces from the empty cache, latest event first. *)
Inductive trace (ttl : u64) : list event -> PoolCache -> Prop :=
| trace_new : trace ttl [] (new ttl)
| trace_step es c e c' : trace ttl es c -> step c e c' -> trace ttl (e :: es) c'.

Definition count (p : event -> bool) (es : list event) : Z :=
  foldr (fun e n => if p e then n + 1 else n) 0 es.
Definition is_hit2 e := match e with Looked2 _ _ _ (Some _) => true | _ => false end.
Definition is_miss2 e := match e with Looked2 _ _ _ None => true | _ => false end.
Definition is_hit3 e := match e with Looked3 _ _ _ (Some _) => true | _ => false end.
Definition is_miss3 e := match e with Looked3 _ _ _ None => true | _ => false end.
Definition is_store2 e := match e with Stored2 _ _ => true | _ => false end.

(** What every reachable cache satisfies: entries sit under their own address,
    carry the block of a store of that address, and the counters count. *)
Record cache_inv (ttl : u64) (es : list event) (c : PoolCache) : Prop := {
  inv_ttl : ttl_ms c = ttl;
  inv_v2 : forall p e, v2_pools c !! p = Some e ->
    c2_pair (data e) = p /\ c2_block_number (data e) = block_number e /\ Stored2 p (block_number e) ∈ es;
  inv_v3 : forall p e, v3_pools c !! p = Some e ->
    c3_pool (data e) = p /\ c3_block_number (data e) = block_number e /\ Stored3 p (block_number e) ∈ es;
  inv_hits2 : v2_hits (stats c) = wrap64 (count is_hit2 es);
  inv_misses2 : v2_misses (stats c) = wrap64 (count is_miss2 es);
  inv_hits3 : v3_hits (stats c) = wrap64 (count is_hit3 es);
  inv_misses3 : v3_misses (stats c) = wrap64 (count is_miss3 es);
  inv_refresh : refresh_count (stats c) = wrap64 (count is_store2 es) }.

Lemma bump_wrap x : bump (wrap64 x) = wrap64 (x + 1).
Proof. unfold bump, wrap64. by rewrite Zplus_mod_idemp_l. Qed.

Lemma lookup_v2_cases c p now b c' r :
  lookup_v2 c p now b = (c', r) ->
  v2_pools c' = v2_pools c /\ v3_pools c' = v3_pools c /\ ttl_ms c' = ttl_ms c /\
  v3_hits (stats c') = v3_hits (stats c) /\ v3_misses (stats c') = v3_misses (stats c) /\
  refresh_count (stats c') = refresh_count (stats c) /\
  match r with
  | Some d => exists e, v2_pools c !! p = Some e /\ d = data e /\ fresh (ttl_ms c) now b e = true /\
      v2_hits (stats c') = bump (v2_hits (stats c)) /\ v2_misses (stats c') = v2_misses (stats c)
  | None => (forall e, v2_pools c !! p = Some e -> fresh (ttl_ms c) now b e = false) /\
      v2_hits (stats c') = v2_hits (stats c) /\ v2_misses (stats c') = bump (v2_misses (stats c))
  end.
Proof.
  unfold lookup_v2. destruct (v2_pools c !! p) as [e|] eqn:E.
  - destruct (fresh _ _ _ e) eqn:F; [|split_if]; intros [= <- <-]; simpl; split_and!; try done.
    + by exists e.
    + by intros ? [= <-].
    + by intros ? [= <-].
  - intros [= <- <-]; simpl; split_and!; done.
Qed.

Lemma lookup_v3_cases c p now b c' r :
  lookup_v3 c p now b = (c', r) ->
  v2_pools c' = v2_pools c /\ v3_pools c' = v3_pools c /\ ttl_ms c' = ttl_ms c /\
  v2_hits (stats c') = v2_hits (stats c) /\ v2_misses (stats c') = v2_misses (stats c) /\
  refresh_count (stats c') = refresh_count (stats c) /\
  match r with
  | Some d => exists e, v3_pools c !! p = Some e /\ d = data e /\ fresh (ttl_ms c) now b e = true /\
      v3_hits (stats c') = bump (v3_hits (stats c)) /\ v3_misses (stats c') = v3_misses (stats c)
  | None => (forall e, v3_pools c !! p = Some e -> fresh (ttl_ms c) now b e = false) /\
      v3_hits (stats c') = v3_hits (stats c) /\ v3_misses (stats c') = bump (v3_misses (stats c))
  end.
Proof.
  unfold lookup_v3. destruct (v3_pools c !! p) as [e|] eqn:E.
  - destruct (fresh _ _ _ e) eqn:F; intros [= <- <-]; simpl; split_and!; try done.
    + by exists e.
    + by intros ? [= <-].
  - intros [= <- <-]; simpl; split_and!; done.
Qed.

Ltac solve_counts :=
  simpl; repeat match goal with H : ?x = _ |- context [?x] => rewrite H end;
  rewrite ?bump_wrap; reflexivity || assumption.

Lemma cache_inv_step ttl es c e c' :
  cache_inv ttl es c -> step c e c' -> cache_inv ttl (e :: es) c'.
Proof.
  intros [T I2 I3 H2 M2 H3 M3 R] S; destruct S as [c c' p now b r S|c c' p f b n1 n2 x S|c c' p now b r S|c c' p f b n1 n2 x S].
  - destruct (lookup_v2_cases _ _ _ _ _ _ S) as (E2 & E3 & Et & Eh3 & Em3 & Er & K).
    split; rewrite ?E2, ?E3, ?Et; try done.
    + intros q e Q. destruct (I2 q e Q) as (? & ? & ?); split_and!; set_solver.
    + intros q e Q. destruct (I3 q e Q) as (? & ? & ?); split_and!; set_solver.
    + destruct r; destruct K as (? & K); simpl in *; [destruct K as (_ & _ & _ & K & _)|destruct K as [K _]]; solve_counts.
    + destruct r; destruct K as (? & K); simpl in *; [destruct K as (_ & _ & _ & _ & K)|destruct K as [_ K]]; solve_counts.
    + simpl; congruence.
    + simpl; congruence.
    + simpl; congruence.
  - destruct f as [[t0 t1] [r0 r1]]; injection S as <- <-.
    split; simpl; try done; [| |by rewrite R, bump_wrap].
    + intros q e [[-> <-]|[N Q]]%lookup_insert_Some; simpl; [set_solver|].
      destruct (I2 q e Q) as (? & ? & ?); split_and!; set_solver.
    + intros q e Q. destruct (I3 q e Q) as (? & ? & ?); split_and!; set_solver.
  - destruct (lookup_v3_cases _ _ _ _ _ _ S) as (E2 & E3 & Et & Eh2 & Em2 & Er & K).
    split; rewrite ?E2, ?E3, ?Et; try done.
    + intros q e Q. destruct (I2 q e Q) as (? & ? & ?); split_and!; set_solver.
    + intros q e Q. destruct (I3 q e Q) as (? & ? & ?); split_and!; set_solver.
    + simpl; congruence.
    + simpl; congruence.
    + destruct r; destruct K as (? & K); simpl in *; [destruct K as (_ & _ & _ & K & _)|destruct K as [K _]]; solve_counts.
    + destruct r; destruct K as (? & K); simpl in *; [destruct K as (_ & _ & _ & _ & K)|destruct K as [_ K]]; solve_counts.
    + simpl; congruence.
  - destruct f as [[[t0 t1] l] [sq t]]; injection S as <- <-.
    split; simpl; try done.
    + intros q e Q. destruct (I2 q e Q) as (? & ? & ?); split_and!; set_solver.
    + intros q e [[-> <-]|[N Q]]%lookup_insert_Some; simpl; [set_solver|].
      destruct (I3 q e Q) as (? & ? & ?); split_and!; set_solver.
Qed.

Lemma trace_inv ttl es c : trace ttl es c -> cache_inv ttl es c.
Proof.
  induction 1 as [|es c e c' _ IH S]; [|by eapply cache_inv_step].
  split; simpl; try done; intros p e; by rewrite lookup_empty.
Qed.

(** ** Properties *)

(** However requests interleave, a V2 or V3 pool served from the cache is the
    pool asked for, was stored for that address no more than five blocks before
    the caller's block, and is younger than the time to live; serving it
    leaves the cached pools alone. *)
Theorem cache_hits_are_fresh ttl es c p now b c' :
  trace ttl es c -> 
  (forall d, lookup_v2 c p now b = (c', Some d) ->
     c2_pair d = p /\ Stored2 p (c2_block_number d) ∈ es /\ b - 5 <= c2_block_number d /\
     v2_pools c' = v2_pools c /\ v3_pools c' = v3_pools c /\
     exists e, v2_pools c !! p = Some e /\ d = data e /\ age_ms now e < ttl) /\
  (forall d, lookup_v3 c p now b = (c', Some d) ->
     c3_pool d = p /\ Stored3 p (c3_block_number d) ∈ es /\ b - 5 <= c3_block_number d /\
     v2_pools c' = v2_pools c /\ v3_pools c' = v3_pools c /\
     exists e, v3_pools c !! p = Some e /\ d = data e /\ age_ms now e < ttl).
Proof.
  intros [T I2 I3 _ _ _ _ _]%trace_inv; split; intros d S.
  - destruct (lookup_v2_cases _ _ _ _ _ _ S) as (E2 & E3 & _ & _ & _ & _ & e & E & -> & F & _).
    destruct (I2 p e E) as (A & B & C). unfold fresh in F; simplify_tests.
    rewrite T in *. split_and!; auto; [by rewrite B|unfold sat_sub in *; lia|by exists e].
  - destruct (lookup_v3_cases _ _ _ _ _ _ S) as (E2 & E3 & _ & _ & _ & _ & e & E & -> & F & _).
    destruct (I3 p e E) as (A & B & C). unfold fresh in F; simplify_tests.
    rewrite T in *. split_and!; auto; [by rewrite B|unfold sat_sub in *; lia|by exists e].
Qed.

Definition warm_cache : PoolCache := (store_v2 (new 120) 7 (1, 2, (1000, 2000)) 50 10 20).1.

Lemma warm_trace : trace 120 [Stored2 7 50] warm_cache.
Proof. eapply trace_step; [apply trace_new|]. by eapply (step_store2 _ _ 7 (1, 2, (1000, 2000)) 50 10 20). Qed.

Lemma cache_hits_are_fresh_witness :
  exists c' d, lookup_v2 warm_cache 7 (20 + 119 * millis) 55 = (c', Some d) /\ c2_pair d = 7 /\
    55 - 5 <= c2_block_number d.
Proof.
  destruct (lookup_v2 warm_cache 7 (20 + 119 * millis) 55) as [c' [d|]] eqn:E;
    [|vm_compute in E; discriminate E].
  destruct (cache_hits_are_fresh 120 _ warm_cache 7 (20 + 119 * millis) 55 c' warm_trace) as [H _].
  destruct (H d E) as (A & _ & B & _). exists c', d. split; [reflexivity|]. split; [exact A|exact B].
Defined.

(** The statistics count: in every reachable cache the hit, miss and refresh
    counters are, as 64-bit counters, the numbers of lookups that hit, lookups that
    missed and V2 pools stored; so every lookup is counted exactly once. *)
Theorem cache_statistics ttl es c :
  trace ttl es c ->
  let s := get_stats c in
  v2_hits s = wrap64 (count is_hit2 es) /\ v2_misses s = wrap64 (count is_miss2 es) /\
  v3_hits s = wrap64 (count is_hit3 es) /\ v3_misses s = wrap64 (count is_miss3 es) /\
  refresh_count s = wrap64 (count is_store2 es) /\
  wrap64 (v2_hits s + v2_misses s) =
    wrap64 (count (fun e => match e with Looked2 _ _ _ _ => true | _ => false end) es).
Proof.
  intros [T I2 I3 H2 M2 H3 M3 R]%trace_inv s; unfold s, get_stats. split_and!; try done.
  rewrite H2, M2; unfold wrap64. rewrite <- Zplus_mod. f_equal.
  clear; induction es as [|e es IH]; simpl; [done|].
  destruct e as [p n b [d|]| | |]; simpl; lia.
Qed.

Lemma cache_statistics_witness : refresh_count (get_stats warm_cache) = 1.
Proof.
  destruct (cache_statistics 120 _ _ warm_trace) as (_ & _ & _ & _ & R & _). exact R.
Defined.

(** An uninterrupted V2 request fails only when the pool is not fresh in the
    cache and the chain does not answer; on a hit the chain is not asked, and a
    pool that had to be fetched carries the caller's block, the reserves just
    read, and is what a following request at the same block is served. *)
Theorem get_or_fetch_v2_spec fetch c p b now n1 n2 c' r :
  get_or_fetch_v2 fetch c p b now n1 n2 = (c', r) ->
  match r with
  | None => (forall e, v2_pools c !! p = Some e -> fresh (ttl_ms c) now b e = false) /\
      fetch p = None /\ v2_pools c' = v2_pools c
  | Some d =>
      (exists e, v2_pools c !! p = Some e /\ fresh (ttl_ms c) now b e = true /\ d = data e /\
         forall fetch', get_or_fetch_v2 fetch' c p b now n1 n2 = (c', Some d)) \/
      (exists t0 t1 r0 r1, fetch p = Some (t0, t1, (r0, r1)) /\
         d = {| c2_pair := p; c2_token0 := t0; c2_token1 := t1; c2_reserve0 := r0;
                c2_reserve1 := r1; c2_block_number := b; c2_cached_at := n1 |} /\
         (0 < ttl_ms c -> 0 <= b ->
          exists c'', lookup_v2 c' p n2 b = (c'', Some d)))
  end.
Proof.
  unfold get_or_fetch_v2. destruct (lookup_v2 c p now b) as [c1 [h|]] eqn:L;
    destruct (lookup_v2_cases _ _ _ _ _ _ L) as (E2 & E3 & Et & _ & _ & _ & K).
  - intros [= <- <-]. left. destruct K as (e & E & -> & F & _). by exists e.
  - destruct (fetch p) as [f|] eqn:Fp.
    + destruct f as [[t0 t1] [r0 r1]]; simpl. intros [= <- <-]. right.
      exists t0, t1, r0, r1. split_and!; [done..|]. intros P Pb.
      unfold lookup_v2; simpl. rewrite lookup_insert_eq; simpl. rewrite Et.
      assert (fresh (ttl_ms c) n2 b {| data := {| c2_pair := p; c2_token0 := t0; c2_token1 := t1;
        c2_reserve0 := r0; c2_reserve1 := r1; c2_block_number := b; c2_cached_at := n1 |};
        cached_at := n2; block_number := b |} = true) as ->; [|by eexists].
      unfold fresh, age_ms, elapsed_ms, elapsed; simpl. rewrite Z.sub_diag.
      apply andb_true_iff; split; [by apply Z.ltb_lt|apply Z.leb_le; unfold sat_sub; lia].
    + intros [= <- <-]. destruct K as (K & _). by split_and!.
Qed.

Lemma get_or_fetch_v2_spec_witness :
  (get_or_fetch_v2 (fun _ => None) warm_cache 7 55 20 30 40).2 <> None /\
  fresh 120 20 55 {| data := tt; cached_at := 20; block_number := 50 |} = true.
Proof.
  destruct (get_or_fetch_v2 (fun _ => None) warm_cache 7 55 20 30 40) as [c' r] eqn:E.
  pose proof (get_or_fetch_v2_spec _ _ _ _ _ _ _ _ _ E) as H.
  split; [|reflexivity]. destruct r; [discriminate|].
  destruct H as (H & _). simpl. intros _.
  specialize (H _ eq_refl). vm_compute in H. discriminate H.
Defined.
