(* ===== verification/Encoder.v ===== *)
(** * Calldata of the flash-swap executors ([mev/execution/contract_encoder.rs],
      [mev/execution/flashloan_builder.rs])

    The hash and the ABI codec of [ethers] are parameters; the theorems read
    the calldata back through the codec's law. *)
From S2P Require Import Prelude Text Ethers.
#[local] Open Scope Z_scope.

Record EncodedSwapStep := {
  router : Address;
  path : list Address;
  amount_in : U256;
  min_out : U256 }.

Record EncodedV3SwapStep := {
  router_v3 : Address;
  path_v3 : Bytes;
  amount_in_v3 : U256;
  min_out_v3 : U256 }.

Record V2FlashSwapCall := {
  target_contract : Address;
  calldata : Bytes }.
Record V3FlashSwapCall := {
  target_contract_v3 : Address;
  calldata_v3 : Bytes }.

Definition START_V2_FLASH_SWAP : Bytes := [0; 0; 0; 0].
Definition START_V3_FLASH_SWAP : Bytes := [0; 0; 0; 1].
Definition selector_placeholders : Bytes := zip_with Z.lxor START_V2_FLASH_SWAP START_V3_FLASH_SWAP.

Definition step_token (step : EncodedSwapStep) : Token :=
  TTuple [ TAddress (router step);
           TArray (TAddress <$> path step);
           TUint (amount_in step);
           TUint (min_out step) ].

Definition v3_step_token (step : EncodedV3SwapStep) : Token :=
  TTuple [ TAddress (router_v3 step);
           TBytes (path_v3 step);
           TUint (amount_in_v3 step);
           TUint (min_out_v3 step) ].

Section Encoder.
Context (keccak256 : Bytes -> Bytes).
Context (abi_encode : list Token -> Bytes).

Definition selector (signature : string) : Bytes := take 4 (keccak256 (bytes_of_string signature)).

Definition encode_with_selector (selector : Bytes) (tokens : list Token) : Bytes :=
  selector ++ abi_encode tokens.

Definition V2_SIGNATURE : string :=
  "startV2FlashSwap(address,address,uint256,uint256,address,address,(address,address[],uint256,uint256)[])".
Definition V3_SIGNATURE : string :=
  "startV3FlashSwap(address,address,uint256,uint24,uint256,address,address,(address,bytes,uint256,uint256)[])".

Definition encode_start_v2_flash_swap (pair borrow_token : Address) (borrow_amount min_profit : U256)
    (profit_token profit_recipient : Address) (steps : list EncodedSwapStep) : Bytes :=
  let selector := selector V2_SIGNATURE in
  encode_with_selector selector
    [ TAddress pair; TAddress borrow_token; TUint borrow_amount; TUint min_profit;
      TAddress profit_token; TAddress profit_recipient; TArray (step_token <$> steps) ].

Definition encode_start_v3_flash_swap (pool borrow_token : Address) (borrow_amount : U256) (fee_tier : u32)
    (min_profit : U256) (profit_token profit_recipient : Address) (steps : list EncodedV3SwapStep) : Bytes :=
  let selector := selector V3_SIGNATURE in
  encode_with_selector selector
    [ TAddress pool; TAddress borrow_token; TUint borrow_amount; TUint fee_tier; TUint min_profit;
      TAddress profit_token; TAddress profit_recipient; TArray (v3_step_token <$> steps) ].

Definition build_v2_flashswap_call (executor pair borrow_token : Address) (borrow_amount min_profit : U256)
    (profit_token profit_recipient : Address) (steps : list EncodedSwapStep) : V2FlashSwapCall :=
  {| target_contract := executor;
     calldata := encode_start_v2_flash_swap pair borrow_token borrow_amount min_profit profit_token
                   profit_recipient steps |}.

Definition build_v3_flashswap_call (executor pool borrow_token : Address) (borrow_amount : U256)
    (fee_tier : u32) (min_profit : U256) (profit_token profit_recipient : Address)
    (steps : list EncodedV3SwapStep) : V3FlashSwapCall :=
  {| target_contract_v3 := executor;
     calldata_v3 := encode_start_v3_flash_swap pool borrow_token borrow_amount fee_tier min_profit
                      profit_token profit_recipient steps |}.
End Encoder.

(** ** Reading the calldata back *)

(** The parameter types of the two signatures. *)
Definition V2_STEP : ParamType := PTuple [PAddress; PArray PAddress; PUint 256; PUint 256].
Definition V3_STEP : ParamType := PTuple [PAddress; PBytes; PUint 256; PUint 256].
Definition V2_PARAMS : list ParamType :=
  [PAddress; PAddress; PUint 256; PUint 256; PAddress; PAddress; PArray V2_STEP].
Definition V3_PARAMS : list ParamType :=
  [PAddress; PAddress; PUint 256; PUint 24; PUint 256; PAddress; PAddress; PArray V3_STEP].

Definition token_address (t : Token) : option Address := match t with TAddress a => Some a | _ => None end.
Definition token_uint (t : Token) : option U256 := match t with TUint n => Some n | _ => None end.

Definition read_step (t : Token) : option EncodedSwapStep :=
  match t with
  | TTuple [TAddress r; TArray p; TUint a; TUint m] =>
      p ← mapM token_address p;
      Some {| router := r; path := p; amount_in := a; min_out := m |}
  | _ => None
  end.
Definition read_v3_step (t : Token) : option EncodedV3SwapStep :=
  match t with
  | TTuple [TAddress r; TBytes p; TUint a; TUint m] =>
      Some {| router_v3 := r; path_v3 := p; amount_in_v3 := a; min_out_v3 := m |}
  | _ => None
  end.

Definition read_v2_call (ts : list Token) :
  option (Address * Address * U256 * U256 * Address * Address * list EncodedSwapStep) :=
  match ts with
  | [TAddress pr_; TAddress b; TUint ba; TUint mp; TAddress pt; TAddress pr; TArray ss] =>
      ss ← mapM read_step ss; Some (pr_, b, ba, mp, pt, pr, ss)
  | _ => None
  end.
Definition read_v3_call (ts : list Token) :
  option (Address * Address * U256 * u32 * U256 * Address * Address * list EncodedV3SwapStep) :=
  match ts with
  | [TAddress pool; TAddress b; TUint ba; TUint fee; TUint mp; TAddress pt; TAddress pr; TArray ss] =>
      ss ← mapM read_v3_step ss; Some (pool, b, ba, fee, mp, pt, pr, ss)
  | _ => None
  end.

Lemma read_step_token s : read_step (step_token s) = Some s.
Proof.
  destruct s as [r p a m]; unfold step_token, read_step; simpl.
  change (list_fmap Address Token TAddress p) with (TAddress <$> p).
  by rewrite (mapM_fmap_Some token_address TAddress) by done.
Qed.
Lemma read_v3_step_token s : read_v3_step (v3_step_token s) = Some s.
Proof. by destruct s. Qed.

Lemma read_v2_call_tokens pair b ba mp pt pr ss :
  read_v2_call [TAddress pair; TAddress b; TUint ba; TUint mp; TAddress pt; TAddress pr;
                TArray (step_token <$> ss)] = Some (pair, b, ba, mp, pt, pr, ss).
Proof. unfold read_v2_call. by rewrite (mapM_fmap_Some read_step step_token _ read_step_token). Qed.
Lemma read_v3_call_tokens pool b ba fee mp pt pr ss :
  read_v3_call [TAddress pool; TAddress b; TUint ba; TUint fee; TUint mp; TAddress pt; TAddress pr;
                TArray (v3_step_token <$> ss)] = Some (pool, b, ba, fee, mp, pt, pr, ss).
Proof. unfold read_v3_call. by rewrite (mapM_fmap_Some read_v3_step v3_step_token _ read_v3_step_token). Qed.

(** ** Arguments in range *)

Definition is_address (a : Z) : bool := (0 <=? a) && (a <? 2 ^ 160).
Definition is_uint (w : nat) (n : Z) : bool := (0 <=? n) && (n <? 2 ^ Z.of_nat w).
Definition step_ok (s : EncodedSwapStep) : bool :=
  is_address (router s) && forallb is_address (path s) && is_uint 256 (amount_in s)
  && is_uint 256 (min_out s).
Definition v3_step_ok (s : EncodedV3SwapStep) : bool :=
  is_address (router_v3 s) && forallb is_byte (path_v3 s) && is_uint 256 (amount_in_v3 s)
  && is_uint 256 (min_out_v3 s).

Lemma forallb_fmap {A B} (f : A -> B) (p : B -> bool) l :
  forallb p (f <$> l) = forallb (fun x => p (f x)) l.
Proof. induction l as [|x l IH]; [done|]. csimpl. by rewrite IH. Qed.

Lemma forallb_impl {A} (p q : A -> bool) l :
  (forall x, p x = true -> q x = true) -> forallb p l = true -> forallb q l = true.
Proof.
  intros H; induction l as [|x l IH]; simpl; [done|]. intros [E K]%andb_true_iff.
  by rewrite (H x E), IH.
Qed.

Ltac solve_ranges :=
  unfold is_address, is_uint in *; simplify_tests;
  rewrite ?andb_true_iff, ?Z.leb_le, ?Z.ltb_lt; split_and!; done || lia || idtac.

Lemma step_token_ok s : step_ok s = true -> token_ok V2_STEP (step_token s) = true.
Proof.
  unfold step_ok; intros H; simplify_tests; simpl.
  change (list_fmap Address Token TAddress (path s)) with (TAddress <$> path s).
  rewrite forallb_fmap. solve_ranges.
Qed.
Lemma v3_step_token_ok s : v3_step_ok s = true -> token_ok V3_STEP (v3_step_token s) = true.
Proof. unfold v3_step_ok; intros H; simplify_tests; simpl. solve_ranges. Qed.

(** ** Properties *)

(** The calldata of a V2 flash swap is the selector of its signature
    followed by the encoded arguments: the executor that decodes it by its
    parameter types reads back exactly the pair, the borrowing, the minimum
    profit, the profit token and recipient and every step, in order; so two
    different in-range calls never share calldata. *)
Theorem encode_start_v2_flash_swap_roundtrip keccak enc dec pair b ba mp pt pr ss :
  AbiCodec enc dec -> (forall bs, length (keccak bs) = 32%nat) ->
  is_address pair && is_address b && is_uint 256 ba && is_uint 256 mp && is_address pt && is_address pr
    && forallb step_ok ss = true ->
  let data := encode_start_v2_flash_swap keccak enc pair b ba mp pt pr ss in
  take 4 data = selector keccak V2_SIGNATURE /\
  (ts ← dec V2_PARAMS (drop 4 data); read_v2_call ts) = Some (pair, b, ba, mp, pt, pr, ss).
Proof.
  intros L K H data; simplify_tests. unfold data, encode_start_v2_flash_swap, encode_with_selector.
  assert (length (selector keccak V2_SIGNATURE) = 4%nat) as S4
    by (unfold selector; rewrite length_take, K; done).
  split; [by rewrite take_app_length'|]. rewrite drop_app_length' by done.
  rewrite abi_decode_encode; [apply read_v2_call_tokens|].
  unfold tokens_ok, V2_PARAMS. cbn [token_ok].
  rewrite forallb_fmap. solve_ranges. eapply forallb_impl; [apply step_token_ok|done].
Qed.

Lemma encode_start_v2_flash_swap_roundtrip_witness :
  let data := encode_start_v2_flash_swap (fun _ => replicate 32 7) tree_encode 1 2 300 4 5 6
    [{| router := 9; path := [1; 2]; amount_in := 300; min_out := 1 |}] in
  take 4 data = [7; 7; 7; 7] /\
  (ts ← tree_decode V2_PARAMS (drop 4 data); read_v2_call ts) <> None.
Proof.
  intros data.
  destruct (encode_start_v2_flash_swap_roundtrip (fun _ => replicate 32 7) tree_encode tree_decode
    1 2 300 4 5 6 [{| router := 9; path := [1; 2]; amount_in := 300; min_out := 1 |}]
    tree_codec (fun _ => eq_refl) ltac:(vm_compute; reflexivity)) as [A B].
  split; [exact A|]. unfold data. rewrite B. discriminate.
Defined.

(** The same for a V3 flash swap, whose fee tier must fit the 24 bits of
    its parameter. *)
Theorem encode_start_v3_flash_swap_roundtrip keccak enc dec pool b ba fee mp pt pr ss :
  AbiCodec enc dec -> (forall bs, length (keccak bs) = 32%nat) ->
  is_address pool && is_address b && is_uint 256 ba && is_uint 24 fee && is_uint 256 mp
    && is_address pt && is_address pr && forallb v3_step_ok ss = true ->
  let data := encode_start_v3_flash_swap keccak enc pool b ba fee mp pt pr ss in
  take 4 data = selector keccak V3_SIGNATURE /\
  (ts ← dec V3_PARAMS (drop 4 data); read_v3_call ts) = Some (pool, b, ba, fee, mp, pt, pr, ss).
Proof.
  intros L K H data; simplify_tests. unfold data, encode_start_v3_flash_swap, encode_with_selector.
  assert (length (selector keccak V3_SIGNATURE) = 4%nat) as S4
    by (unfold selector; rewrite length_take, K; done).
  split; [by rewrite take_app_length'|]. rewrite drop_app_length' by done.
  rewrite abi_decode_encode; [apply read_v3_call_tokens|].
  unfold tokens_ok, V3_PARAMS. cbn [token_ok].
  rewrite forallb_fmap. solve_ranges. eapply forallb_impl; [apply v3_step_token_ok|done].
Qed.

Lemma encode_start_v3_flash_swap_roundtrip_witness :
  let data := encode_start_v3_flash_swap (fun _ => replicate 32 7) tree_encode 1 2 300 3000 4 5 6
    [{| router_v3 := 9; path_v3 := [1; 2]; amount_in_v3 := 300; min_out_v3 := 1 |}] in
  take 4 data = [7; 7; 7; 7] /\
  (ts ← tree_decode V3_PARAMS (drop 4 data); read_v3_call ts) <> None.
Proof.
  intros data.
  destruct (encode_start_v3_flash_swap_roundtrip (fun _ => replicate 32 7) tree_encode tree_decode
    1 2 300 3000 4 5 6 [{| router_v3 := 9; path_v3 := [1; 2]; amount_in_v3 := 300; min_out_v3 := 1 |}]
    tree_codec (fun _ => eq_refl) ltac:(vm_compute; reflexivity)) as [A B].
  split; [exact A|]. unfold data. rewrite B. discriminate.
Defined.
