(* ===== verification/Rpc.v ===== *)
(** * The RPC fleet ([rpc.rs])

    Endpoints with their health counters, cool-downs and burst reservations,
    the cache of their scores, and the choice of endpoints to read from and to
    send through.  A method of [RpcFleet] is a computation on the fleet and
    the clock: [clk i] is the [i]-th reading of [Instant::now] since the start.
    The HTTP client, [powf] and the JSON accessors are parameters. *)
From S2P Require Import Prelude F64 Text Ethers Config.
#[local] Open Scope Z_scope.

Inductive RpcKind := Tenderly | KGetBlock | Generic | KAlchemy | KInfura.
#[export] Instance RpcKind_eq_dec : EqDecision RpcKind.
Proof. solve_decision. Defined.

Inductive RpcFailureKind :=
| Timeout_ | RateLimited | CapacityExhausted | Stale | Transport | Remote.

Definition kind_as_str (self : RpcKind) : string :=
  match self with
  | Tenderly => "tenderly"
  | KGetBlock => "getblock"
  | Generic => "generic"
  | KAlchemy => "alchemy"
  | KInfura => "infura"
  end.

Record BurstReservation := {
  reserved_at : Instant;
  units : u32 }.

Record RpcEndpointState := {
  failures : u32;
  timeout_failures : u32;
  rate_limit_failures : u32;
  stale_failures : u32;
  last_failure_decay_at : Instant;
  disabled : bool;
  disabled_reason : option string;
  cooldown_until : option Instant;
  avg_latency : option Z;             (* Duration, in nanoseconds *)
  last_block : option u64;
  last_block_at : option Instant;
  recent_burst_reservations : list BurstReservation;
  last_selected_at : option Instant }.
#[export] Instance RpcEndpointState_eta : RecordEta RpcEndpointState :=
  fields Build_RpcEndpointState <&> failures <&> timeout_failures <&> rate_limit_failures
    <&> stale_failures <&> last_failure_decay_at <&> disabled <&> disabled_reason <&> cooldown_until
    <&> avg_latency <&> last_block <&> last_block_at <&> recent_burst_reservations
    <&> last_selected_at.

Record ScoreCacheState := {
  updated_at : Instant;
  read_scores : list (option f64);
  send_scores : list (option f64) }.
#[export] Instance ScoreCacheState_eta : RecordEta ScoreCacheState :=
  fields Build_ScoreCacheState <&> updated_at <&> read_scores <&> send_scores.

Record RpcEndpoint := {
  id : usize;
  name : string;
  url : string;
  kind : RpcKind;
  state : RpcEndpointState }.
#[export] Instance RpcEndpoint_eta : RecordEta RpcEndpoint :=
  fields Build_RpcEndpoint <&> id <&> name <&> url <&> kind <&> state.

Record RpcHandle := {
  h_id : usize;
  h_name : string;
  h_url : string }.

Record RpcFleet := {
  endpoints : list RpcEndpoint;
  rotation : u64;
  read_preference : RpcPreference;
  send_preference : RpcPreference;
  score_cache : ScoreCacheState }.
#[export] Instance RpcFleet_eta : RecordEta RpcFleet :=
  fields Build_RpcFleet <&> endpoints <&> rotation <&> read_preference <&> send_preference
    <&> score_cache.

Record RpcEndpointSnapshot := {
  s_id : usize;
  s_name : string;
  s_url : string;
  s_kind : string;
  s_failures : u32;
  s_timeout_failures : u32;
  s_rate_limit_failures : u32;
  s_stale_failures : u32;
  s_disabled : bool;
  s_disabled_reason : option string;
  s_cooldown_remaining_secs : u64;
  s_avg_latency_ms : option Z;
  s_last_block : option u64;
  s_block_age_secs : option u64;
  s_recent_burst_units : u32;
  s_burst_capacity_units : u32;
  s_read_capacity_per_sec : u64 }.

(** ** State of one endpoint *)

Definition BURST_WINDOW_MS : Z := 1200.
Definition FAILURE_DECAY_SECS : Z := 20.

Definition in_window (now : Instant) (item : BurstReservation) : bool :=
  elapsed now (reserved_at item) <=? BURST_WINDOW_MS * millis.

(** The [while] loop pops the front as long as it is out of the window. *)
Fixpoint drop_expired (now : Instant) (q : list BurstReservation) : list BurstReservation :=
  match q with
  | item :: q' => if in_window now item then q else drop_expired now q'
  | [] => []
  end.
Definition prune_burst_reservations (st : RpcEndpointState) (now : Instant) : RpcEndpointState :=
  st <[ recent_burst_reservations ::= drop_expired now (recent_burst_reservations st) ]>.

Definition decay_failure_counters (st : RpcEndpointState) (now : Instant) : RpcEndpointState :=
  let steps := wrap32 (elapsed_secs now (last_failure_decay_at st) / FAILURE_DECAY_SECS) in
  if steps =? 0 then st
  else
    st <[ last_failure_decay_at ::= last_failure_decay_at st + FAILURE_DECAY_SECS * steps * secs ]>
       <[ failures ::= sat_sub (failures st) (u32_smul steps 2) ]>
       <[ timeout_failures ::= sat_sub (timeout_failures st) (u32_smul steps 2) ]>
       <[ stale_failures ::= sat_sub (stale_failures st) (u32_smul steps 2) ]>
       <[ rate_limit_failures ::= sat_sub (rate_limit_failures st) (u32_smul steps 4) ]>.

(** The two updates every access to an endpoint starts with. *)
Definition refresh (now : Instant) (st : RpcEndpointState) : RpcEndpointState :=
  decay_failure_counters (prune_burst_reservations st now) now.

Definition burst_load_units (st : RpcEndpointState) (now : Instant) : u32 :=
  wrap32 (foldr (fun item acc => (if in_window now item then units item else 0) + acc) 0
            (recent_burst_reservations st)).

Definition endpoint_burst_capacity_units (k : RpcKind) (send_mode : bool) : u32 :=
  match k, send_mode with
  | KAlchemy, false => 24 | KAlchemy, true => 18
  | KInfura, false => 30 | KInfura, true => 12
  | Tenderly, false => 10 | Tenderly, true => 8
  | KGetBlock, false => 10 | KGetBlock, true => 8
  | Generic, false => 12 | Generic, true => 10
  end.

Definition endpoint_burst_cost_units (k : RpcKind) (send_mode : bool) : u32 :=
  match k, send_mode with
  | KAlchemy, false => 1 | KAlchemy, true => 7
  | KInfura, false => 1 | KInfura, true => 6
  | Tenderly, false => 2 | Tenderly, true => 8
  | KGetBlock, false => 1 | KGetBlock, true => 5
  | Generic, false => 2 | Generic, true => 6
  end.

Definition endpoint_read_capacity_per_sec (k : RpcKind) : u64 :=
  let capacity := endpoint_burst_capacity_units k false in
  let cost := Z.max (endpoint_burst_cost_units k false) 1 in
  Z.max (u64_smul capacity 1000 / BURST_WINDOW_MS / cost) 1.

Definition classify_failure (error : string) : RpcFailureKind :=
  let lower := to_lower error in
  let has := contains lower in
  if has "monthly capacity limit exceeded" || has "capacity limit exceeded"
     || has "quota exceeded" || has "billing" then CapacityExhausted
  else if has "429" || has "rate limit" || has "too many requests" || has "throughput limit" then
    RateLimited
  else if has "timeout" || has "timed out" || has "deadline exceeded" then Timeout_
  else if has "stale" then Stale
  else if has "connection" || has "socket" || has "dns" || has "econnreset" || has "broken pipe"
          || has "eof while parsing" || has "empty response" || has "response:" then Transport
  else Remote.

Definition matches_preference (k : RpcKind) (preference : RpcPreference) : bool :=
  match preference, k with
  | Auto, _ => true
  | GetBlock, KGetBlock => true
  | Alchemy, KAlchemy => true
  | Infura, KInfura => true
  | _, _ => false
  end.

(** [cooldown_until] lies in the future. *)
Definition cooling (now : Instant) (st : RpcEndpointState) : bool :=
  match cooldown_until st with Some until => now <? until | None => false end.

(** The part of [record_failure] that depends on the failure: the endpoint
    state and the cool-down, in nanoseconds. *)
Definition failure_effect (k : RpcFailureKind) (st : RpcEndpointState) : RpcEndpointState * Z :=
  match k with
  | RateLimited =>
      let n := u32_sadd (rate_limit_failures st) 1 in
      (st <[ rate_limit_failures ::= n ]>, 2 ^ Z.min n 4 * 2 * secs)
  | CapacityExhausted =>
      (st <[ rate_limit_failures ::= u32_sadd (rate_limit_failures st) 10 ]>
          <[ disabled ::= true ]>
          <[ disabled_reason ::= Some "provider monthly capacity exhausted; rotate key or re-enable manually"%string ]>,
       24 * 60 * 60 * secs)
  | Timeout_ =>
      let n := u32_sadd (timeout_failures st) 1 in
      (st <[ timeout_failures ::= n ]>, 400 * 2 ^ Z.min n 5 * millis)
  | Stale => (st <[ stale_failures ::= u32_sadd (stale_failures st) 1 ]>, 900 * millis)
  | Transport => (st, 700 * millis)
  | Remote => (st, 500 * millis)
  end.

Definition fail_state (now : Instant) (k : RpcFailureKind) (st : RpcEndpointState) : RpcEndpointState :=
  let st := refresh now st in
  let st := st <[ failures ::= u32_sadd (failures st) 1 ]> in
  let '(st, cooldown) := failure_effect k st in
  let until := now + Z.min cooldown (45 * secs) in
  st <[ cooldown_until ::=
          Some match cooldown_until st with
               | Some existing => if until <? existing then existing else until
               | None => until
               end ]>.

Definition succeed_state (now : Instant) (latency : Z) (observed_block : option u64)
    (st : RpcEndpointState) : outcome RpcEndpointState :=
  let st := refresh now st in
  avg <-! match avg_latency st with
          | Some previous =>
              duration_from_secs_f64
                (duration_as_secs_f64 previous * 0.72 + duration_as_secs_f64 latency * 0.28)%f64
          | None => Done latency
          end;;
  let st := st <[ avg_latency ::= Some avg ]>
               <[ failures ::= sat_sub (failures st) 1 ]>
               <[ timeout_failures ::= sat_sub (timeout_failures st) 1 ]>
               <[ rate_limit_failures ::= sat_sub (rate_limit_failures st) 1 ]>
               <[ stale_failures ::= sat_sub (stale_failures st) 1 ]> in
  let st := match observed_block with
            | Some block => st <[ last_block ::= Some block ]> <[ last_block_at ::= Some now ]>
            | None => st
            end in
  Done match cooldown_until st with
       | Some until => if until <=? now then st <[ cooldown_until ::= None ]> else st
       | None => st
       end.

Definition reserve_state (now : Instant) (k : RpcKind) (n : u32) (st : RpcEndpointState) : RpcEndpointState :=
  let st := refresh now st in
  let st := st <[ recent_burst_reservations ::=
                    recent_burst_reservations st ++ [{| reserved_at := now; units := n |}] ]>
               <[ last_selected_at ::= Some now ]> in
  let send_capacity := endpoint_burst_capacity_units k true in
  let recent_send_units := burst_load_units st now in
  if u32_smul send_capacity 2 <=? recent_send_units then
    st <[ cooldown_until ::= Some (now + 900 * millis) ]>
  else st.

Definition enable_state (on : bool) (reason : option string) (st : RpcEndpointState) : RpcEndpointState :=
  st <[ disabled ::= negb on ]>
     <[ disabled_reason ::=
          if on then None else Some (default "disabled from dashboard"%string reason) ]>.

(** ** The fleet *)

Record World := {
  fleet : RpcFleet;
  tick : nat }.
#[export] Instance World_eta : RecordEta World := fields Build_World <&> fleet <&> tick.

Definition RpcM (A : Type) : Type := World -> outcome (World * A).
#[export] Instance RpcM_ret : MRet RpcM := fun A a w => Done (w, a).
#[export] Instance RpcM_bind : MBind RpcM := fun A B f m w =>
  match m w with Done (w', a) => f a w' | Panicked => Panicked end.

Definition get_fleet : RpcM RpcFleet := fun w => Done (w, fleet w).
Definition set_fleet (fl : RpcFleet) : RpcM unit := fun w => Done (w <[ fleet ::= fl ]>, tt).
Definition lift {A} (m : outcome A) : RpcM A :=
  fun w => match m with Done a => Done (w, a) | Panicked => Panicked end.

(** An [Arc<RpcEndpoint>] is the position of the endpoint in the fleet. *)
Abbreviation EndpointRef := nat (only parsing).
Definition get_endpoint (r : EndpointRef) : RpcM RpcEndpoint :=
  fl ← get_fleet;
  lift (match endpoints fl !! r with Some e => Done e | None => Panicked end).
Definition set_state (r : EndpointRef) (st : RpcEndpointState) : RpcM unit :=
  fl ← get_fleet;
  set_fleet (fl <[ endpoints ::= alter (fun e => e <[ state ::= st ]>) r (endpoints fl) ]>).
(** [endpoints.iter().find(|endpoint| endpoint.id == endpoint_id)]. *)
Definition find_endpoint (endpoint_id : usize) : RpcM (option EndpointRef) :=
  fl ← get_fleet;
  mret (position (fun e => (id e =? endpoint_id)%nat) (endpoints fl)).

Definition to_handle (e : RpcEndpoint) : RpcHandle :=
  {| h_id := id e; h_name := name e; h_url := url e |}.

(** [Iterator::filter_map] and a [for] loop with effects, element by element. *)
Fixpoint filter_mapM {A B} (f : A -> RpcM (option B)) (l : list A) : RpcM (list B) :=
  match l with
  | [] => mret []
  | x :: l => y ← f x; ys ← filter_mapM f l; mret (match y with Some y => y :: ys | None => ys end)
  end.
Fixpoint forM {A} (f : A -> RpcM unit) (l : list A) : RpcM unit :=
  match l with
  | [] => mret tt
  | x :: l => f x;; forM f l
  end.

Section Fleet.
Context (clk : nat -> Instant).
Context (powf : f64 -> f64 -> f64).

Definition now_ : RpcM Instant := fun w => Done (w <[ tick ::= S (tick w) ]>, clk (tick w)).

Definition invalidate_score_cache : RpcM unit :=
  now ← now_;
  fl ← get_fleet;
  set_fleet (fl <[ score_cache ::= (score_cache fl) <[ updated_at ::= now - 2 * secs ]> ]>).

Definition all_refs : RpcM (list EndpointRef) :=
  fl ← get_fleet; mret (seq 0 (length (endpoints fl))).

Definition set_endpoint_enabled (endpoint_id : usize) (on : bool) (reason : option string)
  : RpcM (string + unit) :=
  r ← find_endpoint endpoint_id;
  match r with
  | None => mret (inl ("unknown RPC endpoint id " +:+ show_nat endpoint_id)%string)
  | Some r =>
      e ← get_endpoint r;
      set_state r (enable_state on reason (state e));;
      invalidate_score_cache;;
      mret (inr tt)
  end.

Definition keep_only_getblock_enabled : RpcM usize :=
  refs ← all_refs;
  let body (r : EndpointRef) : RpcM (option unit) :=
    e ← get_endpoint r;
    if bool_decide (kind e = KGetBlock) then
      set_state r ((state e) <[ disabled ::= false ]> <[ disabled_reason ::= None ]>);; mret None
    else if negb (disabled (state e)) then
      set_state r ((state e) <[ disabled ::= true ]>
                     <[ disabled_reason ::= Some "disabled by getblock-only control"%string ]>);;
      mret (Some tt)
    else mret None in
  turned_off ← filter_mapM body refs;
  invalidate_score_cache;;
  mret (length turned_off).

Definition record_success (endpoint_id : usize) (latency : Z) (observed_block : option u64) : RpcM unit :=
  now ← now_;
  r ← find_endpoint endpoint_id;
  match r with
  | None => mret tt
  | Some r =>
      e ← get_endpoint r;
      st ← lift (succeed_state now latency observed_block (state e));
      set_state r st;;
      invalidate_score_cache
  end.

Definition record_failure (endpoint_id : usize) (k : RpcFailureKind) : RpcM unit :=
  now ← now_;
  r ← find_endpoint endpoint_id;
  match r with
  | None => mret tt
  | Some r =>
      e ← get_endpoint r;
      set_state r (fail_state now k (state e));;
      invalidate_score_cache
  end.

Definition reserve_burst_units (r : EndpointRef) (n : u32) (now : Instant) : RpcM unit :=
  e ← get_endpoint r;
  set_state r (reserve_state now (kind e) n (state e));;
  invalidate_score_cache.

Definition reserve_selection (endpoint_id : usize) (send_mode : bool) : RpcM unit :=
  now ← now_;
  r ← find_endpoint endpoint_id;
  match r with
  | None => mret tt
  | Some r =>
      e ← get_endpoint r;
      reserve_burst_units r (endpoint_burst_cost_units (kind e) send_mode) now
  end.
Definition reserve_read_selection (endpoint_id : usize) : RpcM unit := reserve_selection endpoint_id false.
Definition reserve_send_selection (endpoint_id : usize) : RpcM unit := reserve_selection endpoint_id true.

(** [last_block_at.map(|at| at.elapsed())]: reads the clock only when there is
    an instant. *)
Definition block_age (st : RpcEndpointState) : RpcM (option Z) :=
  match last_block_at st with
  | Some at_ => now ← now_; mret (Some (elapsed now at_))
  | None => mret None
  end.

Definition endpoint_is_read_healthy (r : EndpointRef) (now : Instant) : RpcM bool :=
  e ← get_endpoint r;
  let st := refresh now (state e) in
  set_state r st;;
  if disabled st || cooling now st then mret false
  else
    let burst_capacity_units := endpoint_burst_capacity_units (kind e) false in
    let recent_burst_units := burst_load_units st now in
    age ← block_age st;
    let block_fresh := match age with Some a => a <=? 20 * secs | None => true end in
    mret ((failures st =? 0) && (rate_limit_failures st =? 0) && (timeout_failures st =? 0)
          && (stale_failures st =? 0) && (recent_burst_units <? burst_capacity_units) && block_fresh).

Definition kind_bias (k : RpcKind) (send_mode : bool) : f64 :=
  match k, send_mode with
  | Tenderly, true => -80.0 | Tenderly, false => -120.0
  | KGetBlock, true => -140.0 | KGetBlock, false => -140.0
  | Generic, true => -20.0 | Generic, false => -20.0
  | KAlchemy, true => 0.0 | KAlchemy, false => -100.0
  | KInfura, true => -50.0 | KInfura, false => 0.0
  end%f64.

(** The score formula, once the state is refreshed; [stale]: the last block is
    older than 30 s. *)
Definition score_of (k : RpcKind) (st : RpcEndpointState) (now : Instant) (send_mode stale : bool) : f64 :=
  let burst_capacity_units := endpoint_burst_capacity_units k send_mode in
  let recent_burst_units := burst_load_units st now in
  let burst_ratio := (f64_of_Z recent_burst_units / f64_of_Z (Z.max burst_capacity_units 1))%f64 in
  let latency_ms := match avg_latency st with
                    | Some v => (duration_as_secs_f64 v * 1000.0)%f64
                    | None => 120.0%f64
                    end in
  let failure_penalty := (f64_of_Z (Z.min (failures st) 20) * 180.0)%f64 in
  let rate_limit_penalty := (f64_of_Z (Z.min (rate_limit_failures st) 12) * 900.0)%f64 in
  let stale_penalty : f64 := if stale then 500.0%f64 else 0.0%f64 in
  let infura_rate_limited_penalty : f64 :=
    if bool_decide (k = KInfura) && (0 <? rate_limit_failures st) then 2500.0%f64 else 0.0%f64 in
  let burst_penalty :=
    if (burst_ratio >=? 1.0)%f64 then (25000.0 + (burst_ratio - 1.0) * 8000.0)%f64
    else (powf burst_ratio 2.2 * 2200.0)%f64 in
  let recency_penalty :=
    match last_selected_at st with
    | Some last =>
        let elapsed_ms := f64_of_Z (elapsed_ms now last) in
        if (elapsed_ms <? 180.0)%f64 then ((180.0 - elapsed_ms) * 2.4)%f64 else 0.0%f64
    | None => 0.0%f64
    end in
  (latency_ms + failure_penalty + rate_limit_penalty + stale_penalty + infura_rate_limited_penalty
   + burst_penalty + recency_penalty + kind_bias k send_mode)%f64.

(** [endpoint_score] with [use_cache = false]. *)
Definition endpoint_score_fresh (r : EndpointRef) (now : Instant) (send_mode : bool) : RpcM (option f64) :=
  e ← get_endpoint r;
  let st := refresh now (state e) in
  set_state r st;;
  if disabled st then mret None
  else if cooling now st then mret None
  else
    age ← block_age st;
    let stale := match age with Some a => 30 * secs <? a | None => false end in
    mret (Some (score_of (kind e) st now send_mode stale)).

Definition recompute_scores (now : Instant) : RpcM unit :=
  refs ← all_refs;
  fl ← get_fleet;
  let n := length (endpoints fl) in
  let body (acc : list (option f64) * list (option f64)) (r : EndpointRef) :=
    e ← get_endpoint r;
    rd ← endpoint_score_fresh r now false;
    sd ← endpoint_score_fresh r now true;
    if (id e <? n)%nat then mret (<[id e := rd]> acc.1, <[id e := sd]> acc.2)
    else lift Panicked in
  scores ← foldl (fun m r => acc ← m; body acc r) (mret (replicate n None, replicate n None)) refs;
  at_ ← now_;
  fl ← get_fleet;
  set_fleet (fl <[ score_cache ::= {| updated_at := at_; read_scores := scores.1;
                                      send_scores := scores.2 |} ]>).

Definition cached_scores (c : ScoreCacheState) (send_mode : bool) : list (option f64) :=
  if send_mode then send_scores c else read_scores c.

Definition get_cached_score (endpoint_id : usize) (send_mode : bool) (now : Instant) : RpcM (option f64) :=
  t ← now_;
  fl ← get_fleet;
  let c := score_cache fl in
  if elapsed t (updated_at c) <=? 500 * millis then
    mret (mjoin (cached_scores c send_mode !! endpoint_id))
  else
    recompute_scores now;;
    fl ← get_fleet;
    mret (mjoin (cached_scores (score_cache fl) send_mode !! endpoint_id)).

(** [endpoint_score] with [use_cache = true]. *)
Definition endpoint_score (r : EndpointRef) (now : Instant) (send_mode : bool)
  : RpcM (option (EndpointRef * f64)) :=
  e ← get_endpoint r;
  s ← get_cached_score (id e) send_mode now;
  mret ((fun score => (r, score)) <$> s).

Definition by_score (left right : EndpointRef * f64) : comparison :=
  default Eq (SFcompare left.2 right.2).

Definition healthy_filter (now : Instant) (c : EndpointRef * f64) : RpcM (option (EndpointRef * f64)) :=
  h ← endpoint_is_read_healthy c.1 now;
  mret (if (h : bool) then Some c else None).

(** The read-mode refinement: the healthy candidates, or else any healthy
    endpoint, or else the candidates as they are. *)
Definition prefer_healthy (now : Instant) (candidates : list (EndpointRef * f64))
  : RpcM (list (EndpointRef * f64)) :=
  preferred ← filter_mapM (healthy_filter now) candidates;
  match preferred with
  | _ :: _ => mret preferred
  | [] =>
      refs ← all_refs;
      let body (r : EndpointRef) : RpcM (option (EndpointRef * f64)) :=
        s ← endpoint_score r now false;
        match s with
        | Some c => healthy_filter now c
        | None => mret None
        end in
      any_healthy ← filter_mapM body refs;
      let any_healthy := sort_by by_score any_healthy in
      mret (match any_healthy with [] => candidates | _ => any_healthy end)
  end.

(** How many of the best candidates rotate. *)
Definition rotate_top_n (send_mode : bool) (rotate_env : option string) (n : nat) : nat :=
  if send_mode then Nat.min n 2
  else
    let v := default 1%nat (s ← rotate_env; parse_usize (trim s)) in
    Nat.min (Nat.min (Nat.max v 1) 6) n.

Definition select_candidates (rotate_env : option string) (send_mode : bool) (limit : usize)
  : RpcM (list RpcHandle) :=
  now ← now_;
  fl ← get_fleet;
  let preference := if send_mode then send_preference fl else read_preference fl in
  refs ← all_refs;
  let preferred (r : EndpointRef) : RpcM (option (EndpointRef * f64)) :=
    e ← get_endpoint r;
    if matches_preference (kind e) preference then endpoint_score r now send_mode else mret None in
  candidates ← filter_mapM preferred refs;
  candidates ← match candidates with
               | [] => filter_mapM (fun r => endpoint_score r now send_mode) refs
               | _ => mret candidates
               end;
  let candidates := sort_by by_score candidates in
  candidates ← (if send_mode then mret candidates else prefer_healthy now candidates);
  let top_n := rotate_top_n send_mode rotate_env (length candidates) in
  candidates ← (if (1 <? top_n)%nat then
                  fl ← get_fleet;
                  set_fleet (fl <[ rotation ::= wrap64 (rotation fl + 1) ]>);;
                  mret (rotate_front top_n (Z.to_nat (rotation fl mod Z.of_nat top_n)) candidates)
                else mret candidates);
  fl ← get_fleet;
  mret (omap (fun c => to_handle <$> endpoints fl !! c.1) (take (Nat.max limit 1) candidates)).

Definition read_candidates (rotate_env : option string) (limit : usize) : RpcM (list RpcHandle) :=
  select_candidates rotate_env false limit.
Definition send_candidates (rotate_env : option string) (limit : usize) : RpcM (list RpcHandle) :=
  select_candidates rotate_env true limit.

Definition snapshot_endpoint (now : Instant) (r : EndpointRef) : RpcM (option RpcEndpointSnapshot) :=
  e ← get_endpoint r;
  let st := refresh now (state e) in
  set_state r st;;
  let remaining := match cooldown_until st with
                   | Some until => if now <=? until then (until - now) / secs else 0
                   | None => 0
                   end in
  age ← block_age st;
  mret (Some {| s_id := id e; s_name := name e; s_url := url e; s_kind := kind_as_str (kind e);
                s_failures := failures st; s_timeout_failures := timeout_failures st;
                s_rate_limit_failures := rate_limit_failures st;
                s_stale_failures := stale_failures st; s_disabled := disabled st;
                s_disabled_reason := disabled_reason st; s_cooldown_remaining_secs := remaining;
                s_avg_latency_ms := (fun v => v / millis) <$> avg_latency st;
                s_last_block := last_block st; s_block_age_secs := (fun a => a / secs) <$> age;
                s_recent_burst_units := burst_load_units st now;
                s_burst_capacity_units := endpoint_burst_capacity_units (kind e) false;
                s_read_capacity_per_sec := endpoint_read_capacity_per_sec (kind e) |}).
Definition snapshot : RpcM (list RpcEndpointSnapshot) :=
  now ← now_;
  refs ← all_refs;
  filter_mapM (snapshot_endpoint now) refs.
End Fleet.

Definition endpoint_count (fl : RpcFleet) : usize := length (endpoints fl).
Definition all_handles (fl : RpcFleet) : list RpcHandle := to_handle <$> endpoints fl.

(** ** Construction *)

Definition kind_of_name (name : string) : RpcKind :=
  if starts_with name "tenderly-" then Tenderly
  else if starts_with name "getblock-" then KGetBlock
  else if starts_with name "alchemy-" then KAlchemy
  else if starts_with name "infura-" then KInfura
  else Generic.

Definition initial_state (now : Instant) : RpcEndpointState :=
  {| failures := 0; timeout_failures := 0; rate_limit_failures := 0; stale_failures := 0;
     last_failure_decay_at := now; disabled := false; disabled_reason := None;
     cooldown_until := None; avg_latency := None; last_block := None; last_block_at := None;
     recent_burst_reservations := []; last_selected_at := None |}.

(** [valid_url]: the provider accepts the URL; [now i] is the clock of the
    [i]-th endpoint. *)
Definition from_config (valid_url : string -> option string) (config : Config)
    (rpc_urls : list (string * string)) (now : nat -> Instant) : string + RpcFleet :=
  let fix build (idx : nat) (urls : list (string * string)) : string + list RpcEndpoint :=
    match urls with
    | [] => inr []
    | (name, url) :: urls =>
        match valid_url url with
        | Some err => inl err
        | None =>
            match build (S idx) urls with
            | inl err => inl err
            | inr es => inr ({| id := idx; name := name; url := url; kind := kind_of_name name;
                                state := initial_state (now idx) |} :: es)
            end
        end
    end in
  match build 0%nat rpc_urls with
  | inl err => inl err
  | inr [] => inl "no RPC endpoints configured"%string
  | inr es =>
      let n := length es in
      inr {| endpoints := es; rotation := 0;
             read_preference := rpc_read_preference config;
             send_preference := rpc_send_preference config;
             score_cache := {| updated_at := now n - 1 * secs; read_scores := replicate n None;
                               send_scores := replicate n None |} |}
  end.

(** ** Batched balances *)

Section Balances.
Context (Value : Type) (as_array : Value -> option (list Value)) (get : Value -> string -> option Value)
  (as_u64 : Value -> option u64) (as_str : Value -> option string)
  (from_str_radix_16 : string -> string + U256).

Definition parse_hex_u256 (value : string) : string + U256 :=
  let trimmed := match value with
                 | String "0" (String "x" rest) => rest
                 | _ => value
                 end in
  if string_eqb trimmed "" then inr 0 else from_str_radix_16 trimmed.

Fixpoint collect_balances (items : list Value) (ordered : list U256) : string + list U256 :=
  match items with
  | [] => inr ordered
  | item :: items =>
      match get item "id" ≫= as_u64 with
      | None => inl "missing id in batch response"%string
      | Some id_ =>
          match get item "result" ≫= as_str with
          | None => inl "missing result in batch response"%string
          | Some result =>
              match parse_hex_u256 result with
              | inl err => inl err
              | inr value => collect_balances items (<[Z.to_nat id_ := value]> ordered)
              end
          end
      end
  end.

(** The reading of the response to the batch for [n] addresses. *)
Definition get_balances_batch (n : nat) (body : Value) : string + list U256 :=
  match as_array body with
  | None => inl "batch eth_getBalance did not return an array response"%string
  | Some items => collect_balances items (replicate n 0)
  end.
End Balances.
