(* ===== verification/RpcFacts.v ===== *)
(** * The RPC fleet: theorems

    A Hoare logic for the computations on the fleet, the invariant of the score
    cache, and the properties of failures, reservations and selection. *)
From S2P Require Import Prelude F64 Text Ethers Config Rpc.
#[local] Open Scope Z_scope.

(** ** Hoare triples: no panic, and a postcondition *)

Definition triple {A} (P : World -> Prop) (m : RpcM A) (Q : A -> World -> Prop) : Prop :=
  forall w, P w -> match m w with Done (w', a) => Q a w' | Panicked => False end.

Lemma triple_ret {A} (P : World -> Prop) (a : A) (Q : A -> World -> Prop) :
  (forall w, P w -> Q a w) -> triple P (mret a) Q.
Proof. intros H w Pw; simpl. by apply H. Qed.

Lemma triple_bind {A B} P (m : RpcM A) (f : A -> RpcM B) R Q :
  triple P m R -> (forall a, triple (R a) (f a) Q) -> triple P (m ≫= f) Q.
Proof.
  intros Hm Hf w Pw. unfold mbind, RpcM_bind. specialize (Hm w Pw).
  destruct (m w) as [[w' a]|]; [|done]. by apply Hf.
Qed.

Lemma triple_pre {A} (P P' : World -> Prop) (m : RpcM A) Q :
  triple P' m Q -> (forall w, P w -> P' w) -> triple P m Q.
Proof. intros H I w Pw. by apply H, I. Qed.

Lemma triple_post {A} P (m : RpcM A) (Q Q' : A -> World -> Prop) :
  triple P m Q' -> (forall a w, Q' a w -> Q a w) -> triple P m Q.
Proof.
  intros H I w Pw. specialize (H w Pw). destruct (m w) as [[w' a]|]; [|done]. by apply I.
Qed.

Lemma triple_get P (Q : RpcFleet -> World -> Prop) :
  (forall w, P w -> Q (fleet w) w) -> triple P get_fleet Q.
Proof. intros H w Pw. by apply H. Qed.

Lemma triple_prop {A} (X : Prop) P (m : RpcM A) Q :
  (X -> triple P m Q) -> triple (fun w => X /\ P w) m Q.
Proof. intros H w [x Pw]. by apply H. Qed.

(** ** What no read of the fleet changes *)

(** The parts of an endpoint that only the operator's controls and the capacity
    failure change. *)
Definition static (e : RpcEndpoint) : usize * string * string * RpcKind * bool :=
  (id e, name e, url e, kind e, disabled (state e)).
Definition statics (fl : RpcFleet) : list (usize * string * string * RpcKind * bool) :=
  static <$> endpoints fl.

Definition enabled_in (S : list (usize * string * string * RpcKind * bool)) (r : EndpointRef) : Prop :=
  exists x, S !! r = Some x /\ x.2 = false.

Lemma refresh_disabled now st : disabled (refresh now st) = disabled st.
Proof. unfold refresh, decay_failure_counters. by case_match. Qed.
Lemma refresh_cooldown now st : cooldown_until (refresh now st) = cooldown_until st.
Proof. unfold refresh, decay_failure_counters. by case_match. Qed.

Lemma alter_static (l : list RpcEndpoint) r st e :
  l !! r = Some e -> disabled st = disabled (state e) ->
  static <$> alter (fun e => e <[ state ::= st ]>) r l = static <$> l.
Proof.
  intros E D. apply list_eq; intros i. rewrite !list_lookup_fmap.
  destruct (decide (i = r)) as [->|N].
  - rewrite list_lookup_alter_eq, E; simpl. unfold static; simpl. by rewrite D.
  - by rewrite list_lookup_alter_ne.
Qed.

Section Clock.
Context (clk : nat -> Instant) (powf : f64 -> f64 -> f64).
Context (clk_mono : forall i, clk i <= clk (S i)).

(** Every score the cache holds belongs to an enabled endpoint, unless the
    cache is too old to be used at any later clock reading. *)
Definition expired (w : World) : Prop :=
  updated_at (score_cache (fleet w)) + 500 * millis < clk (tick w).

Record Inv (w : World) : Prop := {
  inv_ids : forall r e, endpoints (fleet w) !! r = Some e -> id e = r;
  inv_cache : forall m r s,
    cached_scores (score_cache (fleet w)) m !! r = Some (Some s) ->
    enabled_in (statics (fleet w)) r \/ expired w }.

Definition K S0 (w : World) : Prop := Inv w /\ statics (fleet w) = S0.

Lemma K_ids S0 w r e : K S0 w -> endpoints (fleet w) !! r = Some e -> id e = r /\ S0 !! r = Some (static e).
Proof.
  intros [[I _] <-] E; split; [by apply I|]. unfold statics. by rewrite list_lookup_fmap, E.
Qed.

Lemma expired_tick w w' :
  expired w -> score_cache (fleet w') = score_cache (fleet w) -> tick w' = S (tick w) -> expired w'.
Proof. unfold expired; intros H -> ->. pose proof (clk_mono (tick w)). lia. Qed.

Lemma triple_now S0 : triple (K S0) (now_ clk) (fun _ => K S0).
Proof.
  intros w [[I C] E]; simpl. split; [split; simpl|done]; [done|].
  intros m r s H. destruct (C m r s H) as [H'|H']; [by left|right]. by eapply expired_tick.
Qed.

Lemma triple_get_endpoint S0 r :
  (r < length S0)%nat ->
  triple (K S0) (get_endpoint r) (fun e w => (id e = r /\ S0 !! r = Some (static e)) /\ K S0 w).
Proof.
  intros L w Kw. unfold get_endpoint, mbind, RpcM_bind, get_fleet, lift; simpl.
  destruct (endpoints (fleet w) !! r) as [e|] eqn:E.
  - split; [|done]. by eapply K_ids.
  - exfalso. apply lookup_ge_None in E. destruct Kw as [_ <-].
    unfold statics in L. rewrite length_fmap in L. lia.
Qed.

Lemma triple_set_state S0 r st x :
  S0 !! r = Some x -> disabled st = x.2 -> triple (K S0) (set_state r st) (fun _ => K S0).
Proof.
  intros Sx D w [[I C] E]. unfold set_state, mbind, RpcM_bind, get_fleet, set_fleet; simpl.
  unfold statics in E.
  destruct (endpoints (fleet w) !! r) as [e|] eqn:R.
  2: { exfalso. rewrite <- E, list_lookup_fmap, R in Sx. done. }
  assert (Dx : disabled st = disabled (state e)).
  { rewrite <- E, list_lookup_fmap, R in Sx. injection Sx as <-. done. }
  pose proof (alter_static _ _ _ _ R Dx) as A.
  split; [split; simpl|exact (eq_trans A E)].
  - intros i e' H. destruct (decide (i = r)) as [->|N].
    + rewrite list_lookup_alter_eq, R in H. injection H as <-. simpl. by apply I.
    + rewrite list_lookup_alter_ne in H by done. by apply I.
  - intros m i s H. destruct (C m i s H) as [H'|H']; [left|by right].
    unfold statics in *; simpl in *. by rewrite A.
Qed.

Lemma triple_block_age S0 st : triple (K S0) (block_age clk st) (fun _ => K S0).
Proof.
  unfold block_age. destruct (last_block_at st).
  - eapply triple_bind; [apply triple_now|]. intros t. by apply triple_ret.
  - by apply triple_ret.
Qed.

(** The common start of every access: refresh the state of one endpoint. *)
Lemma triple_refresh S0 r now {A} (f : RpcEndpoint -> RpcM A) Q :
  (r < length S0)%nat ->
  (forall e, id e = r -> S0 !! r = Some (static e) -> triple (K S0) (f e) Q) ->
  triple (K S0) (e ← get_endpoint r; set_state r (refresh now (state e));; f e) Q.
Proof.
  intros L H. eapply triple_bind; [by apply triple_get_endpoint|]. intros e.
  apply triple_prop; intros [I E].
  eapply triple_bind; [eapply triple_set_state; [exact E|apply refresh_disabled]|].
  intros a. by apply H.
Qed.

Lemma triple_healthy S0 r now :
  (r < length S0)%nat -> triple (K S0) (endpoint_is_read_healthy clk r now) (fun _ => K S0).
Proof.
  intros L. apply triple_refresh; [done|]. intros e I E. case_match; [by apply triple_ret|].
  eapply triple_bind; [apply triple_block_age|]. intros a. by apply triple_ret.
Qed.

Lemma triple_score_fresh S0 r now mode :
  (r < length S0)%nat ->
  triple (K S0) (endpoint_score_fresh clk powf r now mode)
    (fun s w => (s <> None -> enabled_in S0 r) /\ K S0 w).
Proof.
  intros L. apply triple_refresh; [done|]. intros e I E.
  rewrite refresh_disabled. destruct (disabled (state e)) eqn:D; [by apply triple_ret|].
  case_match; [by apply triple_ret|].
  eapply triple_bind; [apply triple_block_age|]. intros a. apply triple_ret.
  intros w Kw. split; [|done]. intros _. eexists; split; [exact E|done].
Qed.

(** ** Loops *)

Lemma triple_filter_mapM {A B} S0 (f : A -> RpcM (option B)) (Q : A -> B -> Prop) l :
  (forall x, x ∈ l -> triple (K S0) (f x) (fun y w => (forall b, y = Some b -> Q x b) /\ K S0 w)) ->
  triple (K S0) (filter_mapM f l)
    (fun ys w => (exists xs, xs `sublist_of` l /\ Forall2 Q xs ys) /\ K S0 w).
Proof.
  induction l as [|x l IH]; intros H; simpl.
  - apply triple_ret. intros w Kw; split; [|done]. by exists [].
  - eapply triple_bind; [apply H, list_elem_of_here|]. intros y. apply triple_prop; intros Hy.
    eapply triple_bind; [apply IH; intros z Hz; by apply H, list_elem_of_further|].
    intros ys. apply triple_prop; intros (xs & S & F). apply triple_ret.
    intros w Kw; split; [|done]. destruct y as [b|].
    + exists (x :: xs). split; [by apply sublist_skip|]. constructor; auto.
    + exists xs. split; [by apply sublist_cons|done].
Qed.

Lemma triple_all_refs S0 : triple (K S0) all_refs (fun rs w => rs = seq 0 (length S0) /\ K S0 w).
Proof.
  eapply triple_bind; [apply triple_get; intros w Kw; exact (conj eq_refl Kw : (fun fl w => fl = fleet w /\ K S0 w) (fleet w) w)|].
  intros fl w [-> Kw]. simpl. split; [|done]. destruct Kw as [_ <-]. unfold statics. by rewrite length_fmap.
Qed.

(** All scores of a pair of score lists belong to enabled endpoints. *)
Definition scores_ok S0 (acc : list (option f64) * list (option f64)) : Prop :=
  forall r s, acc.1 !! r = Some (Some s) \/ acc.2 !! r = Some (Some s) -> enabled_in S0 r.

Lemma insert_score_ok S0 (l : list (option f64)) r i s v :
  (v <> None -> enabled_in S0 i) ->
  (forall s, l !! r = Some (Some s) -> enabled_in S0 r) ->
  <[i := v]> l !! r = Some (Some s) -> enabled_in S0 r.
Proof.
  intros Hv Hl H. destruct (decide (i = r)) as [->|N].
  - destruct (decide (r < length l)%nat) as [L|L].
    + rewrite list_lookup_insert_eq in H by done. injection H as ->. by apply Hv.
    + rewrite list_insert_ge in H by lia. by eapply Hl.
  - rewrite list_lookup_insert_ne in H by done. by eapply Hl.
Qed.

Lemma triple_recompute S0 now :
  triple (K S0) (recompute_scores clk powf now)
    (fun _ w => (forall m r s, cached_scores (score_cache (fleet w)) m !! r = Some (Some s) -> enabled_in S0 r)
                /\ K S0 w).
Proof.
  unfold recompute_scores. eapply triple_bind; [apply triple_all_refs|].
  intros refs. apply triple_prop; intros ->.
  eapply triple_bind; [apply (triple_get _ (fun fl w => length (endpoints fl) = length S0 /\ K S0 w))|].
  { intros w Kw; split; [|done]. destruct Kw as [_ <-]. unfold statics. by rewrite length_fmap. }
  intros fl. apply triple_prop; intros ->.
  match goal with |- triple _ (mbind _ (foldl ?g _ _)) _ => set (body := g) end.
  assert (Body : forall r m, (r < length S0)%nat ->
    triple (K S0) m (fun acc w => scores_ok S0 acc /\ K S0 w) ->
    triple (K S0) (body m r) (fun acc w => scores_ok S0 acc /\ K S0 w)).
  { intros r m L Hm. unfold body. eapply triple_bind; [exact Hm|].
    intros acc. apply triple_prop; intros Hacc.
    eapply triple_bind; [by apply triple_get_endpoint|]. intros e. apply triple_prop; intros [I E].
    eapply triple_bind; [by apply triple_score_fresh|]. intros rd. apply triple_prop; intros Hr.
    eapply triple_bind; [by apply triple_score_fresh|]. intros sd. apply triple_prop; intros Hs.
    rewrite I. destruct (Nat.ltb_spec r (length S0)); [|lia].
    apply triple_ret. intros w Kw; split; [|done]. intros i s [H'|H']; simpl in H'.
    - eapply insert_score_ok; [exact Hr| |exact H']. intros s' Hs'. eapply Hacc. by left.
    - eapply insert_score_ok; [exact Hs| |exact H']. intros s' Hs'. eapply Hacc. by right. }
  assert (Fold : forall rs m, Forall (fun r => (r < length S0)%nat) rs ->
    triple (K S0) m (fun acc w => scores_ok S0 acc /\ K S0 w) ->
    triple (K S0) (foldl body m rs) (fun acc w => scores_ok S0 acc /\ K S0 w)).
  { induction rs as [|r rs IH]; intros m F Hm; simpl; [done|].
    apply Forall_cons in F as [L F]. apply IH; [done|]. by apply Body. }
  eapply triple_bind; [apply Fold|].
  - apply Forall_forall. intros r Hr. apply elem_of_seq in Hr. lia.
  - apply triple_ret. intros w Kw; split; [|done]. intros r s [H|H]; simpl in H;
      apply lookup_replicate in H as [H _]; discriminate.
  - intros acc. apply triple_prop; intros Hacc.
    eapply triple_bind; [apply triple_now|]. intros t.
    eapply triple_bind; [apply (triple_get _ (fun fl w => fleet w = fl /\ K S0 w)); done|].
    intros fl2 w [<- Kw]. simpl. split.
    + intros m r s H. apply (Hacc r s). destruct m; simpl in H; auto.
    + destruct Kw as [[I C] E]. split; [split; simpl; [exact I|]|exact E].
      intros m r s H. left. change (enabled_in (statics (fleet w)) r). rewrite E.
      apply (Hacc r s). destruct m; simpl in H; auto.
Qed.

Lemma mjoin_Some_inv (o : option (option f64)) s : mjoin o = Some s -> o = Some (Some s).
Proof. by destruct o as [[]|]; simpl; intros [= ->]. Qed.

Lemma triple_cached_score S0 i mode now :
  triple (K S0) (get_cached_score clk powf i mode now)
    (fun s w => (s <> None -> enabled_in S0 i) /\ K S0 w).
Proof.
  unfold get_cached_score. intros w Kw. unfold mbind at 1, RpcM_bind, now_.
  pose proof (triple_now S0 w Kw) as K1; simpl in K1.
  set (w1 := w <[ tick ::= S (tick w) ]>) in *. simpl.
  unfold mbind at 1, RpcM_bind, get_fleet.
  destruct (Z.leb_spec (elapsed (clk (tick w)) (updated_at (score_cache (fleet w1)))) (500 * millis)) as [F|F].
  - simpl. split; [|exact K1]. intros Hs.
    destruct (mjoin _) as [s|] eqn:J; [|done]. apply mjoin_Some_inv in J.
    destruct Kw as [[I C] E]. destruct (C mode i s J) as [H|H]; [by rewrite <- E|exfalso].
    unfold expired, elapsed in *. unfold w1 in F; simpl in F. lia.
  - match goal with |- match ?m w1 with _ => _ end => change (match m w1 with Done (w', a) =>
      (a <> None -> enabled_in S0 i) /\ K S0 w' | Panicked => False end) end.
    refine (triple_bind (K S0) _ _ _ _ (triple_recompute S0 now) _ w1 K1).
    intros _ w2 [Hc K2]. simpl. split; [|exact K2].
    intros Hs. destruct (mjoin _) as [s|] eqn:J; [|done]. apply mjoin_Some_inv in J. by eapply Hc.
Qed.

(** What the candidates of a selection are: scored, in the fleet, enabled. *)
Definition chosen S0 (r : EndpointRef) (c : EndpointRef * f64) : Prop := c.1 = r /\ enabled_in S0 r.

Lemma triple_score S0 r now mode :
  (r < length S0)%nat ->
  triple (K S0) (endpoint_score clk powf r now mode)
    (fun o w => (forall c, o = Some c -> chosen S0 r c) /\ K S0 w).
Proof.
  intros L. unfold endpoint_score. eapply triple_bind; [by apply triple_get_endpoint|].
  intros e. apply triple_prop; intros [I E]. rewrite I.
  eapply triple_bind; [apply triple_cached_score|]. intros s. apply triple_prop; intros Hs.
  apply triple_ret. intros w Kw; split; [|done]. intros c H.
  destruct s as [v|]; simpl in H; [|done]. injection H as <-. split; [done|]. by apply Hs.
Qed.

Lemma enabled_lt S0 r : enabled_in S0 r -> (r < length S0)%nat.
Proof. intros (x & E & _). by apply lookup_lt_Some in E. Qed.

(** A list of candidates of the fleet. *)
Definition candidates_ok S0 (cs : list (EndpointRef * f64)) : Prop :=
  NoDup cs.*1 /\ Forall (enabled_in S0) cs.*1.

Lemma candidates_of_refs S0 (cs : list (EndpointRef * f64)) rs :
  NoDup rs -> (exists xs, xs `sublist_of` rs /\ Forall2 (chosen S0) xs cs) -> candidates_ok S0 cs.
Proof.
  intros N (xs & S & F). assert (E : cs.*1 = xs).
  { clear S. induction F as [|x c xs cs [<- _] _ IH]; [done|]. csimpl. by rewrite IH. }
  split.
  - rewrite E. by eapply sublist_NoDup.
  - rewrite E. clear -F. induction F as [|x c xs cs [<- H] _ IH]; constructor; done.
Qed.

Lemma candidates_ok_perm S0 cs cs' : cs ≡ₚ cs' -> candidates_ok S0 cs -> candidates_ok S0 cs'.
Proof. intros P [N F]. split; by rewrite <- P. Qed.

Lemma candidates_ok_sublist S0 cs cs' : cs' `sublist_of` cs -> candidates_ok S0 cs -> candidates_ok S0 cs'.
Proof.
  intros S [N F]. assert (S' : cs'.*1 `sublist_of` cs.*1) by by apply fmap_sublist.
  split; [by eapply sublist_NoDup|]. rewrite Forall_forall in *.
  intros r Hr. by eapply F, elem_of_sublist.
Qed.

Lemma triple_healthy_filter S0 now c :
  enabled_in S0 c.1 ->
  triple (K S0) (healthy_filter clk now c) (fun o w => (forall c', o = Some c' -> c = c') /\ K S0 w).
Proof.
  intros En. unfold healthy_filter.
  eapply triple_bind; [by apply triple_healthy, enabled_lt|]. intros h.
  apply triple_ret. intros w Kw; split; [|done]. intros c'. destruct h; [by intros [= ->]|done].
Qed.

Lemma Forall2_eq {A} (xs ys : list A) : Forall2 eq xs ys -> xs = ys.
Proof. induction 1; congruence. Qed.

Lemma triple_prefer_healthy S0 now cs :
  candidates_ok S0 cs ->
  triple (K S0) (prefer_healthy clk powf now cs) (fun cs' w => candidates_ok S0 cs' /\ K S0 w).
Proof.
  intros Hcs. unfold prefer_healthy.
  eapply triple_bind; [apply (triple_filter_mapM S0 _ eq)|].
  { intros c Hc. apply triple_healthy_filter. destruct Hcs as [_ F].
    rewrite Forall_forall in F. by apply F, list_elem_of_fmap_2. }
  intros pref. apply triple_prop; intros (xs & S & F).
  destruct pref as [|c cs'].
  - eapply triple_bind; [apply triple_all_refs|]. intros refs. apply triple_prop; intros ->.
    eapply triple_bind; [apply (triple_filter_mapM S0 _ (chosen S0))|].
    + intros r Hr. apply elem_of_seq in Hr.
      eapply triple_bind; [apply (triple_score S0); lia|]. intros o. apply triple_prop; intros Ho.
      destruct o as [c|]; [|apply triple_ret; intros w Kw; split; [by intros ? [=]|done]].
      destruct (Ho c eq_refl) as [E En]. subst r.
      eapply triple_post; [by apply triple_healthy_filter|].
      intros o w [H Kw]; split; [|done]. intros c' [= ->]. by rewrite <- (H c' eq_refl).
    + intros any. apply triple_prop; intros Ha.
      assert (candidates_ok S0 (sort_by by_score any)) as Hs.
      { eapply candidates_ok_perm; [symmetry; apply sort_by_perm|].
        eapply candidates_of_refs; [|exact Ha]. apply NoDup_seq. }
      apply triple_ret. intros w Kw; split; [|done]. by destruct (sort_by by_score any).
  - apply triple_ret. intros w Kw; split; [|done]. apply Forall2_eq in F as ->.
    by eapply candidates_ok_sublist.
Qed.

Lemma triple_rotation S0 (n : nat) (cs : list (EndpointRef * f64)) :
  triple (K S0)
    (if (1 <? n)%nat then
       fl ← get_fleet;
       set_fleet (fl <[ rotation ::= wrap64 (rotation fl + 1) ]>);;
       mret (rotate_front n (Z.to_nat (rotation fl mod Z.of_nat n)) cs)
     else mret cs)
    (fun cs' w => cs' ≡ₚ cs /\ K S0 w).
Proof.
  case_match; [|by apply triple_ret].
  intros w Kw; simpl. split; [apply rotate_front_perm|].
  destruct Kw as [[I C] E]. split; [split; simpl; [exact I|exact C]|exact E].
Qed.

(** The handles of distinct enabled endpoints of [S0]. *)
Definition handles_ok (S0 : list (usize * string * string * RpcKind * bool)) (hs : list RpcHandle) : Prop :=
  NoDup (h_id <$> hs) /\
  forall h, h ∈ hs -> exists k, S0 !! h_id h = Some (h_id h, h_name h, h_url h, k, false).

Lemma handles_of_candidates S0 w cs :
  K S0 w -> candidates_ok S0 cs ->
  let hs := omap (fun c => to_handle <$> endpoints (fleet w) !! c.1) cs in
  handles_ok S0 hs /\ h_id <$> hs = cs.*1.
Proof.
  intros Kw [N F] hs.
  assert (E : h_id <$> hs = cs.*1 /\
    forall h, h ∈ hs -> exists k, S0 !! h_id h = Some (h_id h, h_name h, h_url h, k, false)).
  { unfold hs; clear N hs. induction cs as [|c cs IH]; [by split; [|intros h Hh; inversion Hh]|].
    csimpl in *. apply Forall_cons in F as [(x & Ex & Dx) F]. destruct (IH F) as [IH1 IH2].
    destruct (endpoints (fleet w) !! c.1) as [e|] eqn:R; simpl.
    - destruct (K_ids S0 w _ _ Kw R) as [Ie Se]. rewrite Se in Ex; injection Ex as <-.
      split; [cbn; f_equal; [exact Ie|exact IH1]|].
      intros h [->|Hh]%elem_of_cons; [|by apply IH2]. simpl in *.
      rewrite Ie, Se. exists (kind e). unfold static; simpl in Dx. by rewrite Dx, Ie.
    - exfalso. destruct Kw as [_ <-]. unfold statics in Ex. by rewrite list_lookup_fmap, R in Ex. }
  destruct E as [E1 E2]. split; [|done]. split; [by rewrite E1|done].
Qed.

Lemma triple_select S0 env mode limit :
  triple (K S0) (select_candidates clk powf env mode limit)
    (fun hs w => (handles_ok S0 hs /\ (length hs <= Nat.max limit 1)%nat) /\ K S0 w).
Proof.
  unfold select_candidates. eapply triple_bind; [apply triple_now|]. intros now.
  eapply triple_bind; [apply (triple_get _ (fun _ => K S0)); done|]. intros fl. simpl.
  eapply triple_bind; [apply triple_all_refs|]. intros refs. apply triple_prop; intros ->.
  eapply triple_bind; [apply (triple_filter_mapM S0 _ (chosen S0))|].
  { intros r Hr. apply elem_of_seq in Hr.
    eapply triple_bind; [apply triple_get_endpoint; lia|]. intros e. apply triple_prop; intros _.
    case_match; [apply triple_score; lia|]. apply triple_ret. intros w Kw; by split. }
  intros cs0. apply triple_prop; intros H0.
  eapply (triple_bind _ _ _ (fun cs w => candidates_ok S0 cs /\ K S0 w)).
  { destruct cs0 as [|c cs0].
    - eapply triple_post; [apply (triple_filter_mapM S0 _ (chosen S0))|].
      + intros r Hr. apply elem_of_seq in Hr. apply triple_score; lia.
      + intros cs w [H Kw]; split; [|done]. eapply candidates_of_refs; [|exact H]. apply NoDup_seq.
    - apply triple_ret. intros w Kw; split; [|done]. eapply candidates_of_refs; [|exact H0]. apply NoDup_seq. }
  intros cs1. apply triple_prop; intros H1.
  assert (H2 : candidates_ok S0 (sort_by by_score cs1))
    by (eapply candidates_ok_perm; [symmetry; apply sort_by_perm|done]).
  eapply (triple_bind _ _ _ (fun cs w => candidates_ok S0 cs /\ K S0 w)).
  { destruct mode; [apply triple_ret; by split|by apply triple_prefer_healthy]. }
  intros cs2. apply triple_prop; intros H3.
  eapply triple_bind; [apply triple_rotation|]. intros cs3. apply triple_prop; intros P.
  eapply triple_bind; [apply (triple_get _ (fun fl w => fl = fleet w /\ K S0 w)); done|].
  intros fl2. apply triple_ret. intros w [-> Kw]. split; [|done].
  assert (H4 : candidates_ok S0 (take (Nat.max limit 1) cs3)).
  { eapply candidates_ok_sublist; [apply sublist_take|]. by eapply candidates_ok_perm; [symmetry|]. }
  destruct (handles_of_candidates S0 w _ Kw H4) as [A B]. split; [exact A|].
  apply (f_equal length) in B. rewrite !length_fmap in B. rewrite B, length_take. lia.
Qed.

(** ** The operations that write *)

Definition ptriple {A} (P : World -> Prop) (m : RpcM A) (Q : World -> Prop) : Prop :=
  forall w w' a, P w -> m w = Done (w', a) -> Q w'.

Lemma ptriple_bind {A B} P (m : RpcM A) (f : A -> RpcM B) R Q :
  ptriple P m R -> (forall a, ptriple R (f a) Q) -> ptriple P (m ≫= f) Q.
Proof.
  intros Hm Hf w w' b Pw. unfold mbind, RpcM_bind.
  destruct (m w) as [[w1 a]|] eqn:E; [|done]. intros E2. eapply Hf; [|exact E2]. by eapply Hm.
Qed.
Lemma ptriple_ret {A} P (a : A) : ptriple P (mret a) P.
Proof. intros w w' b Pw [= <- _]. done. Qed.
Lemma ptriple_of_triple {A} P (m : RpcM A) Q : triple P m (fun _ => Q) -> ptriple P m Q.
Proof. intros H w w' a Pw E. specialize (H w Pw). by rewrite E in H. Qed.
Lemma ptriple_weaken {A} P (m : RpcM A) Q Q' :
  ptriple P m Q -> (forall w, Q w -> Q' w) -> ptriple P m Q'.
Proof. intros H I w w' a Pw E. by eapply I, H. Qed.

(** Endpoint [i] is the one with identifier [i]. *)
Definition Ids (w : World) : Prop := forall r e, endpoints (fleet w) !! r = Some e -> id e = r.

Lemma ptriple_now_ids : ptriple Ids (now_ clk) Ids.
Proof. intros w w' a I [= <- _]. done. Qed.
Lemma ptriple_get_ids : ptriple Ids get_fleet Ids.
Proof. intros w w' a I [= <- _]. done. Qed.
Lemma ptriple_lift_ids {A} (m : outcome A) : ptriple Ids (lift m) Ids.
Proof. intros w w' a I H. unfold lift in H. destruct m; [|done]. injection H as <- _. done. Qed.

Lemma ptriple_set_state_ids r st : ptriple Ids (set_state r st) Ids.
Proof.
  intros w w' [] I H. injection H as <-. intros i e; simpl.
  destruct (decide (i = r)) as [->|N].
  - rewrite list_lookup_alter_eq. destruct (endpoints (fleet w) !! r) as [e0|] eqn:E; simpl; [|done].
    intros [= <-]. simpl. by apply I.
  - rewrite list_lookup_alter_ne by done. apply I.
Qed.

Lemma ptriple_invalidate : ptriple Ids (invalidate_score_cache clk) Inv.
Proof.
  intros w w' [] I H. injection H as <-. split; simpl; [exact I|].
  intros m r s _. right. unfold expired; simpl. pose proof (clk_mono (tick w)).
  unfold secs, millis. lia.
Qed.

Lemma Inv_Ids w : Inv w -> Ids w.
Proof. by intros [I _]. Qed.

Lemma ptriple_pre {A} (P P' : World -> Prop) (m : RpcM A) Q :
  ptriple P' m Q -> (forall w, P w -> P' w) -> ptriple P m Q.
Proof. intros H I w w' a Pw. eapply H. by apply I. Qed.

Lemma ptriple_find_ids i : ptriple Ids (find_endpoint i) Ids.
Proof. eapply ptriple_bind; [apply ptriple_get_ids|]. intros fl. apply ptriple_ret. Qed.
Lemma ptriple_endpoint_ids r : ptriple Ids (get_endpoint r) Ids.
Proof. eapply ptriple_bind; [apply ptriple_get_ids|]. intros fl. apply ptriple_lift_ids. Qed.

Lemma ptriple_filter_mapM_ids {A B} (f : A -> RpcM (option B)) l :
  (forall x, ptriple Ids (f x) Ids) -> ptriple Ids (filter_mapM f l) Ids.
Proof.
  intros H; induction l as [|x l IH]; simpl; [apply ptriple_ret|].
  eapply ptriple_bind; [apply H|]. intros y. eapply ptriple_bind; [apply IH|].
  intros ys. apply ptriple_ret.
Qed.

Create HintDb rpc.
Hint Resolve ptriple_now_ids ptriple_get_ids ptriple_lift_ids ptriple_set_state_ids ptriple_find_ids
  ptriple_endpoint_ids ptriple_invalidate ptriple_ret ptriple_filter_mapM_ids : rpc.

(** Walks a computation whose every step keeps the identifiers. *)
Ltac walk :=
  repeat (first [ progress intros
                | solve [eauto with rpc]
                | eapply ptriple_bind; [solve [eauto with rpc]|intros ?]
                | case_match ]).

Inductive op :=
| OpEnable (id : usize) (on : bool) (reason : option string)
| OpKeepGetblock
| OpSuccess (id : usize) (latency : Z) (block : option u64)
| OpFailure (id : usize) (k : RpcFailureKind)
| OpReserve (id : usize) (send_mode : bool)
| OpSelect (env : option string) (send_mode : bool) (limit : usize).

Definition run_op (o : op) : RpcM unit :=
  match o with
  | OpEnable i on reason => set_endpoint_enabled clk i on reason;; mret tt
  | OpKeepGetblock => keep_only_getblock_enabled clk;; mret tt
  | OpSuccess i l b => record_success clk i l b
  | OpFailure i k => record_failure clk i k
  | OpReserve i m => reserve_selection clk i m
  | OpSelect env m n => select_candidates clk powf env m n;; mret tt
  end.
Fixpoint run_ops (os : list op) : RpcM unit :=
  match os with
  | [] => mret tt
  | o :: os => run_op o;; run_ops os
  end.

Lemma ptriple_id {A} P (m : RpcM A) Q : ptriple P m Q -> ptriple P (m;; mret tt) Q.
Proof. intros H. eapply ptriple_bind; [exact H|]. intros a. apply ptriple_ret. Qed.

(** An unknown identifier leaves the fleet as it is. *)
Lemma inv_or_ids {A} (m : RpcM A) : ptriple Ids m Inv -> ptriple Inv m Inv.
Proof. intros H. eapply ptriple_pre; [exact H|apply Inv_Ids]. Qed.

Lemma ptriple_now_inv : ptriple Inv (now_ clk) Inv.
Proof.
  apply ptriple_of_triple. intros w Iw. simpl.
  exact (proj1 (triple_now (statics (fleet w)) w (conj Iw eq_refl))).
Qed.
Lemma ptriple_find_inv i : ptriple Inv (find_endpoint i) Inv.
Proof. intros w w' a I H. injection H as <- _. done. Qed.

Lemma run_op_inv o : ptriple Inv (run_op o) Inv.
Proof.
  destruct o as [i on reason| |i l b|i k|i m|env m n]; simpl.
  - apply ptriple_id. unfold set_endpoint_enabled.
    eapply ptriple_bind; [apply ptriple_find_inv|]. intros [r|]; [|apply ptriple_ret].
    apply inv_or_ids. eapply ptriple_bind; [eauto with rpc|]. intros e.
    eapply ptriple_bind; [eauto with rpc|]. intros _u.
    eapply ptriple_bind; [eauto with rpc|]. intros _v. apply ptriple_ret.
  - apply ptriple_id, inv_or_ids. unfold keep_only_getblock_enabled.
    eapply ptriple_bind; [unfold all_refs; walk|]. intros refs.
    eapply ptriple_bind; [apply ptriple_filter_mapM_ids; intros r; walk|]. intros t.
    eapply ptriple_bind; [eauto with rpc|]. intros _v. apply ptriple_ret.
  - unfold record_success. eapply ptriple_bind; [apply ptriple_now_inv|]. intros t.
    eapply ptriple_bind; [apply ptriple_find_inv|]. intros [r|]; [|apply ptriple_ret].
    apply inv_or_ids. walk.
  - unfold record_failure. eapply ptriple_bind; [apply ptriple_now_inv|]. intros t.
    eapply ptriple_bind; [apply ptriple_find_inv|]. intros [r|]; [|apply ptriple_ret].
    apply inv_or_ids. walk.
  - unfold reserve_selection, reserve_burst_units. eapply ptriple_bind; [apply ptriple_now_inv|]. intros t.
    eapply ptriple_bind; [apply ptriple_find_inv|]. intros [r|]; [|apply ptriple_ret].
    apply inv_or_ids. walk.
  - apply ptriple_id. intros w w' hs Iw E.
    pose proof (triple_select (statics (fleet w)) env m n w (conj Iw eq_refl)) as H.
    rewrite E in H. by destruct H as [_ [H _]].
Qed.

Lemma run_ops_inv os : ptriple Inv (run_ops os) Inv.
Proof.
  induction os as [|o os IH]; simpl; [apply ptriple_ret|].
  eapply ptriple_bind; [apply run_op_inv|]. intros _u. exact IH.
Qed.
End Clock.

(** ** The fleet a configuration builds *)

Lemma from_config_inv clk valid config urls now fl :
  from_config valid config urls now = inr fl -> Inv clk {| fleet := fl; tick := 0 |}.
Proof.
  unfold from_config.
  match goal with |- context [match ?b 0%nat urls with _ => _ end] => set (build := b) end.
  assert (B : forall us n es, build n us = inr es ->
    forall r e, es !! r = Some e -> id e = (n + r)%nat).
  { induction us as [|[nm u] us IH]; intros n es; simpl.
    - intros [= <-] r e. by rewrite lookup_nil.
    - destruct (valid u); [done|]. destruct (build (S n) us) as [|es'] eqn:E; [done|].
      intros [= <-] [|r] e; simpl; [intros [= <-]; simpl; lia|].
      intros H. rewrite (IH _ _ E r e H). lia. }
  destruct (build 0%nat urls) as [|[|e0 es]] eqn:E; try done. intros [= <-].
  split; simpl.
  - intros r e H. by rewrite (B _ _ _ E r e H).
  - intros [] r s H; unfold cached_scores in H; simpl in H;
      change (None :: replicate (length es) None) with (replicate (S (length es)) (@None f64)) in H;
      apply lookup_replicate in H as [H _]; discriminate.
Qed.

(** ** Properties *)

(** In a fleet built from a configuration, after any sequence of
    enablings, disablings, recorded successes and failures, reservations and
    selections, a selection succeeds and returns at most [max limit 1]
    handles, all different, each the handle of an endpoint that is enabled at
    that moment: the score cache never lets a disabled endpoint through. *)
Theorem selection_only_enabled clk powf valid config urls now fl ops w env mode limit :
  (forall i, clk i <= clk (S i)) ->
  from_config valid config urls now = inr fl ->
  run_ops clk powf ops {| fleet := fl; tick := 0 |} = Done (w, tt) ->
  exists w' hs, select_candidates clk powf env mode limit w = Done (w', hs) /\
    (length hs <= Nat.max limit 1)%nat /\ NoDup (h_id <$> hs) /\
    forall h, h ∈ hs -> exists e, endpoints (fleet w) !! h_id h = Some e /\
      h = to_handle e /\ disabled (state e) = false.
Proof.
  intros M F R.
  pose proof (run_ops_inv clk powf M ops _ _ _ (from_config_inv clk _ _ _ _ _ F) R) as Iw.
  pose proof (triple_select clk powf M (statics (fleet w)) env mode limit w (conj Iw eq_refl)) as H.
  destruct (select_candidates clk powf env mode limit w) as [[w' hs]|]; [|done].
  destruct H as [[[N H] L] _]. exists w', hs. split_and!; [done..|].
  intros h Hh. destruct (H h Hh) as [k E]. unfold statics in E. rewrite list_lookup_fmap in E.
  destruct (endpoints (fleet w) !! h_id h) as [e|]; [|done]. injection E as E1 E2 E3 E4 E5.
  exists e. split_and!; [done| |done]. destruct h; unfold to_handle; simpl in *; by subst.
Qed.

Definition sample_config : Config :=
  {| wallets := ""; network := "bsc"; chain_id := 56; allow_send := true; tenderly_rpc_only := false;
     alchemy_keys := []; infura_ids := []; flashbots_relay := ""; builder_relays := [];
     executor_private_key := ""; executor_address := 1; vault_address := 2; profit_address := 3;
     control_address := 4; monitored_tokens := []; estimated_exec_gas := 250000;
     estimated_bundle_overhead_gas := 25000; max_infura_endpoints := 2%nat;
     rpc_read_preference := Auto; rpc_send_preference := Auto; storage_path := "";
     dashboard_addr := ""; explicit_rpc_urls := []; mempool_ws_urls := [];
     mev := {| enabled := true; opportunity_mode_lock := Some Conservative;
       runtime_thresholds_lock := None; capital_eth := 0.05; capital_window_secs := 90;
       max_window_exposure_eth := 0.15; max_cluster_window_exposure_eth := 0.08;
       max_pair_window_exposure_eth := 0.10; min_net_profit_eth := 0.0025; min_roi_bps := 1500;
       min_large_swap_eth := 25.0; gas_safety_margin_bps := 12500; max_pending_age_ms := 1500;
       max_gas_per_tx := 260000; max_gas_price_gwei := None; max_price_impact_bps := 250;
       slippage_protection_bps := 50; min_profit_usd := 2.0; eth_usd_price := 3200.0;
       min_liquidity_eth := 25.0; latency_trace := false; latency_trace_warn_us := 5000;
       pool_state_cache_ttl_ms := 120; executor_min_buffer_eth := 0.20;
       executor_target_buffer_eth := 0.50; executor_max_buffer_eth := 1.00;
       relay_fanout_count := 3%nat; rpc_fanout_count := 2%nat; gas_overpay_base_extra_bps := 500;
       gas_overpay_miss_extra_bps := 2500; gas_overpay_revert_extra_bps := 1200;
       gas_overpay_submit_failure_extra_bps := 1500; gas_overpay_max_extra_bps := 5000;
       finality_confirmations := 1; stop_loss_consecutive_losses := 3; stop_loss_freeze_secs := 300;
       context_stop_loss_consecutive_losses := 2; context_stop_loss_freeze_secs := 180;
       capital_multiplier_aggressive := 2.0; capital_multiplier_neutral := 1.0;
       capital_multiplier_defensive := 0.3; capital_multiplier_priority_threshold := 0.60;
       capital_multiplier_toxicity_threshold := 0.65; uniswap_v2_factory := None;
       uniswap_v3_factory := None; mev_executor := None; mev_executor_v3 := None |} |}.

Definition sample_fleet : RpcFleet :=
  match from_config (fun _ => None) sample_config [("getblock-1", "a"); ("rpc-1", "b")]%string
          (fun i => Z.of_nat i) with
  | inr fl => fl
  | inl _ => {| endpoints := []; rotation := 0; read_preference := Auto; send_preference := Auto;
                score_cache := {| updated_at := 0; read_scores := []; send_scores := [] |} |}
  end.

(** Disabling the preferred endpoint right after it was selected. *)
Lemma selection_only_enabled_witness :
  exists w w' hs, run_ops (fun i => Z.of_nat i * 1000) (fun x _ => x)
      [OpSelect None false 1; OpEnable 0 false None] {| fleet := sample_fleet; tick := 0 |} = Done (w, tt) /\
    select_candidates (fun i => Z.of_nat i * 1000) (fun x _ => x) None false 2 w = Done (w', hs) /\
    h_id <$> hs = [1%nat] /\ NoDup (h_id <$> hs).
Proof.
  destruct (run_ops (fun i => Z.of_nat i * 1000) (fun x _ => x)
      [OpSelect None false 1; OpEnable 0 false None] {| fleet := sample_fleet; tick := 0 |})
    as [[w []]|] eqn:R; [|vm_compute in R; discriminate R].
  destruct (selection_only_enabled (fun i => Z.of_nat i * 1000) (fun x _ => x) (fun _ => None)
    sample_config [("getblock-1", "a"); ("rpc-1", "b")]%string (fun i => Z.of_nat i) sample_fleet
    _ w None false 2 ltac:(intros i; cbv beta; lia) ltac:(vm_compute; reflexivity) R) as (w' & hs & E & L & N & H).
  exists w, w', hs. split_and!; [done..| |exact N].
  vm_compute in R. injection R as <-. vm_compute in E. injection E as <- <-. reflexivity.
Defined.

(** A failure is recorded on its endpoint only: the failure count grows by
    one from its decayed value, the cool-down ends later than now, at the latest
    45 s from now unless a longer one was already running, and is never
    shortened; exhausted capacity disables the endpoint and nothing else does;
    the score cache is invalidated. *)
Theorem record_failure_spec clk w i k e :
  (forall r e, endpoints (fleet w) !! r = Some e -> id e = r) ->
  endpoints (fleet w) !! i = Some e -> failures (state e) <= U32_MAX ->
  0 <= rate_limit_failures (state e) -> 0 <= timeout_failures (state e) ->
  let now := clk (tick w) in
  exists w' st, record_failure clk i k w = Done (w', tt) /\
    endpoints (fleet w') = alter (fun e => e <[ state ::= st ]>) i (endpoints (fleet w)) /\
    failures st = u32_sadd (failures (refresh now (state e))) 1 /\
    (exists until, cooldown_until st = Some until /\ now < until /\
      (cooldown_until (state e) = None -> until <= now + 45 * secs) /\
      (forall old, cooldown_until (state e) = Some old ->
         old <= until <= Z.max old (now + 45 * secs))) /\
    disabled st = match k with CapacityExhausted => true | _ => disabled (state e) end /\
    updated_at (score_cache (fleet w')) = clk (S (tick w)) - 2 * secs.
Proof.
  intros Ids E Hf Hr Ht now.
  assert (P : position (fun e => (id e =? i)%nat) (endpoints (fleet w)) = Some i).
  { destruct (position _ _) as [j|] eqn:Pj.
    - apply position_Some in Pj as (e' & E' & D). apply Nat.eqb_eq in D. rewrite <- D. f_equal. symmetry; by apply Ids.
    - pose proof (proj1 (position_None _ _) Pj e (list_elem_of_lookup_2 _ _ _ E)) as D.
      simpl in D. rewrite (Ids _ _ E), Nat.eqb_refl in D. done. }
  exists (w <[ tick ::= S (S (tick w)) ]>
        <[ fleet ::= (fleet w) <[ endpoints ::= alter (fun e => e <[ state ::= fail_state now k (state e) ]>) i (endpoints (fleet w)) ]>
             <[ score_cache ::= (score_cache (fleet w)) <[ updated_at ::= clk (S (tick w)) - 2 * secs ]> ]> ]>),
    (fail_state now k (state e)).
  split.
  { unfold record_failure, now_, find_endpoint, mbind, RpcM_bind, get_fleet; simpl. rewrite P.
    unfold get_endpoint, mbind, RpcM_bind, get_fleet, lift; simpl. rewrite E. simpl.
    unfold set_state, invalidate_score_cache, now_, set_fleet, mbind, RpcM_bind, get_fleet; simpl.
    f_equal. f_equal. f_equal. f_equal. apply list_eq; intros j.
    destruct (decide (j = i)) as [->|N]; [by rewrite !list_lookup_alter_eq, E|by rewrite !list_lookup_alter_ne]. }
  simpl. split.
  { apply list_eq; intros j.
    destruct (decide (j = i)) as [->|N]; [by rewrite !list_lookup_alter_eq, E|by rewrite !list_lookup_alter_ne]. }
  unfold fail_state. set (st := refresh now (state e)).
  assert (C0 : cooldown_until st = cooldown_until (state e)) by apply refresh_cooldown.
  assert (D0 : disabled st = disabled (state e)) by apply refresh_disabled.
  assert (R0 : 0 <= rate_limit_failures st /\ 0 <= timeout_failures st).
  { unfold st, refresh, decay_failure_counters. case_match; [done|]. simpl. split; apply sat_sub_nonneg. }
  destruct (failure_effect k (st <[ failures ::= u32_sadd (failures st) 1 ]>)) as [st' cd] eqn:FE.
  assert (X : failures st' = u32_sadd (failures st) 1 /\ cooldown_until st' = cooldown_until st /\
     0 < cd /\ disabled st' = match k with CapacityExhausted => true | _ => disabled st end).
  { destruct k; simpl in FE; injection FE as <- <-; simpl; split_and!; try done.
    - apply Z.mul_pos_pos; [|done]. apply Z.mul_pos_pos; [lia|].
      apply Z.pow_pos_nonneg; [lia|]. unfold sat_add, U32_MAX; lia.
    - apply Z.mul_pos_pos; [|done]. apply Z.mul_pos_pos; [|done].
      apply Z.pow_pos_nonneg; [lia|]. unfold sat_add, U32_MAX; lia. }
  destruct X as (XF & XC & XP & XD). simpl. rewrite XF, XC, XD, C0, D0.
  split_and!; try done. eexists; split; [reflexivity|].
  assert (0 < Z.min cd (45 * secs)) by (unfold secs; lia).
  destruct (cooldown_until (state e)) as [old|].
  - destruct (Z.ltb_spec (now + Z.min cd (45 * secs)) old); split_and!; try done; try lia;
      intros o [= <-]; lia.
  - split_and!; [lia|lia|done].
Qed.

Lemma record_failure_spec_witness :
  exists w' st, record_failure (fun i => Z.of_nat i * 1000) 1 RateLimited {| fleet := sample_fleet; tick := 5 |}
      = Done (w', tt) /\ failures st = 1 /\ disabled st = false /\
    endpoints (fleet w') = alter (fun e => e <[ state ::= st ]>) 1%nat (endpoints sample_fleet).
Proof.
  assert (I : forall r e, endpoints sample_fleet !! r = Some e -> id e = r).
  { intros [|[|r]] e H; vm_compute in H; try discriminate H; injection H as <-; reflexivity. }
  destruct (endpoints sample_fleet !! 1%nat) as [e|] eqn:E; [|vm_compute in E; discriminate E].
  assert (X : failures (state e) = 0 /\ rate_limit_failures (state e) = 0 /\ timeout_failures (state e) = 0 /\
    disabled (state e) = false /\ refresh 5000 (state e) = state e).
  { vm_compute in E. injection E as <-. split_and!; reflexivity. }
  destruct X as (X1 & X2 & X3 & X4 & X5).
  destruct (record_failure_spec (fun i => Z.of_nat i * 1000) {| fleet := sample_fleet; tick := 5 |} 1 RateLimited e I E)
    as (w' & st & R & A & F & _ & D & _).
  1-3: rewrite ?X1, ?X2, ?X3; vm_compute; congruence.
  exists w', st. split_and!; [exact R| |by rewrite D|exact A].
  rewrite F. simpl in *.
  replace (refresh (Z.of_nat 5 * 1000) (state e)) with (state e) by (symmetry; exact X5).
  rewrite X1. reflexivity.
Defined.

Lemma drop_expired_later t1 t2 q : t1 <= t2 -> drop_expired t2 (drop_expired t1 q) = drop_expired t2 q.
Proof.
  intros L; induction q as [|b q IH]; simpl; [done|].
  destruct (in_window t1 b) eqn:W; [done|].
  destruct (in_window t2 b) eqn:W2; [|done].
  exfalso. unfold in_window, elapsed in *. simplify_tests. unfold BURST_WINDOW_MS, millis in *. lia.
Qed.

(** Two decays in a row take off what one takes. *)
Lemma decay_steps l t1 t2 :
  l <= t1 <= t2 -> (t2 - l) / secs < 2 ^ 32 ->
  let s1 := wrap32 (elapsed_secs t1 l / FAILURE_DECAY_SECS) in
  let s2 := wrap32 (elapsed_secs t2 (l + FAILURE_DECAY_SECS * s1 * secs) / FAILURE_DECAY_SECS) in
  0 <= s1 /\ 0 <= s2 /\ wrap32 (elapsed_secs t2 l / FAILURE_DECAY_SECS) = s1 + s2 /\ s1 + s2 < 2 ^ 32.
Proof.
  intros L B. unfold elapsed_secs, elapsed, wrap32, FAILURE_DECAY_SECS.
  set (N := 2 ^ 32) in *. set (G := secs) in *. assert (HG : 0 < G) by done.
  assert (HN : 0 < N) by done.
  rewrite (Z.max_l (t1 - l)), (Z.max_l (t2 - l)) by lia.
  assert (A : forall x, 0 <= x -> x / G / 20 = x / (G * 20)) by (intros; by rewrite Z.div_div by lia).
  assert (M : (t1 - l) / G / 20 <= (t2 - l) / G / 20).
  { apply Z.div_le_mono; [lia|]. apply Z.div_le_mono; lia. }
  assert (U : (t2 - l) / G / 20 < N).
  { apply Z.div_lt_upper_bound; lia. }
  assert (P1 : 0 <= (t1 - l) / G / 20) by (repeat apply Z.div_pos; lia).
  rewrite (Z.mod_small ((t1 - l) / G / 20)) by lia.
  rewrite (Z.mod_small ((t2 - l) / G / 20)) by lia.
  set (a := (t1 - l) / G / 20) in *.
  assert (Ha : a * (G * 20) <= t1 - l).
  { unfold a. rewrite A by lia. rewrite Z.mul_comm. apply Z.mul_div_le. lia. }
  assert (E : (t2 - (l + 20 * a * G)) / G / 20 = (t2 - l) / G / 20 - a).
  { rewrite !A by lia. replace (t2 - (l + 20 * a * G)) with (t2 - l + (- a) * (G * 20)) by lia.
    rewrite Z.div_add by lia. lia. }
  rewrite Z.max_l by lia. rewrite E, Z.mod_small by lia. lia.
Qed.

Lemma sat_sub_twice x a b k : 0 <= a -> 0 <= b -> 0 <= k -> 0 <= x <= U32_MAX ->
  sat_sub (sat_sub x (u32_smul a k)) (u32_smul b k) = sat_sub x (u32_smul (a + b) k).
Proof. unfold sat_sub, sat_mul. intros. assert (0 <= a * k) by nia. assert (0 <= b * k) by nia. lia. Qed.

(** Looking at an endpoint more often changes nothing: pruning and decaying
    at a time and again later is the same as once later, so reads, snapshots
    and score computations in between do not alter an endpoint's health. *)
Theorem refresh_refresh t1 t2 st :
  last_failure_decay_at st <= t1 <= t2 -> (t2 - last_failure_decay_at st) / secs < 2 ^ 32 ->
  is_u32 (failures st) -> is_u32 (timeout_failures st) -> is_u32 (stale_failures st) ->
  is_u32 (rate_limit_failures st) ->
  refresh t2 (refresh t1 st) = refresh t2 st.
Proof.
  unfold is_u32; intros L B F1 F2 F3 F4.
  pose proof (decay_steps _ _ _ L B) as (P1 & P2 & E & U).
  destruct st as [f tf rf sf l d dr cu av lb lba q ls]; simpl in *.
  unfold refresh, decay_failure_counters, prune_burst_reservations; simpl.
  set (s1 := wrap32 (elapsed_secs t1 l / FAILURE_DECAY_SECS)) in *.
  rewrite E. destruct (Z.eqb_spec s1 0) as [Z1|Z1]; simpl.
  - rewrite drop_expired_later by lia.
    rewrite Z1 in *. rewrite Z.mul_0_r, Z.mul_0_l, Z.add_0_r in *. rewrite E.
    rewrite Z.add_0_l. destruct (_ =? 0); [done|]. simpl. done.
  - set (s2 := wrap32 (elapsed_secs t2 (l + FAILURE_DECAY_SECS * s1 * secs) / FAILURE_DECAY_SECS)) in *.
    destruct (Z.eqb_spec (s1 + s2) 0); [lia|].
    rewrite drop_expired_later by lia.
    destruct (Z.eqb_spec s2 0) as [Z2|Z2]; simpl.
    + rewrite Z2, Z.add_0_r. done.
    + rewrite !sat_sub_twice by lia. f_equal; lia.
Qed.

Lemma refresh_refresh_witness :
  let st := (initial_state 0) <[ failures ::= 9 ]> in
  refresh (50 * secs) (refresh (25 * secs) st) = refresh (50 * secs) st /\
  failures (refresh (50 * secs) st) = 5.
Proof.
  intros st. split; [|vm_compute; reflexivity].
  apply refresh_refresh; vm_compute; try (split; congruence); congruence.
Defined.

(** A reservation adds its units to the burst of the endpoint; when the burst
    reaches twice the send capacity the endpoint is benched until 900 ms from
    now, and this replaces a cool-down that would have run longer. *)
Theorem reserve_state_cooldown now k n st :
  let st' := reserve_state now k n st in
  last_selected_at st' = Some now /\ disabled st' = disabled st /\
  recent_burst_reservations st' =
    drop_expired now (recent_burst_reservations st) ++ [{| reserved_at := now; units := n |}] /\
  cooldown_until st' =
    (if u32_smul (endpoint_burst_capacity_units k true) 2 <=? burst_load_units st' now
     then Some (now + 900 * millis) else cooldown_until st).
Proof.
  unfold reserve_state. set (r := refresh now st).
  assert (Q : recent_burst_reservations r = drop_expired now (recent_burst_reservations st))
    by (unfold r, refresh, decay_failure_counters; by case_match).
  assert (D : disabled r = disabled st) by apply refresh_disabled.
  assert (C : cooldown_until r = cooldown_until st) by apply refresh_cooldown.
  unfold burst_load_units; simpl.
  destruct (u32_smul (endpoint_burst_capacity_units k true) 2 <=? _) eqn:T; simpl;
    rewrite ?Q, ?D, ?C in *; rewrite ?T; split_and!; done.
Qed.
