(* ===== verification/Pnl.v ===== *)
(** * Profit and loss ([mev/pnl/tracker.rs], and the conversions of
      [mev/opportunity.rs]) *)
From S2P Require Import Prelude F64.

Record ExecutionResult := {
  realized_profit : f64;
  gas_used : u64;
  success : bool }.

Record PnlTracker := {
  daily_pnl_eth : f64;
  realized_profit_eth : f64;
  realized_loss_eth : f64;
  executions : u64;
  failures : u64 }.
#[export] Instance PnlTracker_eta : RecordEta PnlTracker :=
  fields Build_PnlTracker <&> daily_pnl_eth <&> realized_profit_eth <&> realized_loss_eth
    <&> executions <&> failures.

Definition PnlTracker_default : PnlTracker :=
  {| daily_pnl_eth := 0.0; realized_profit_eth := 0.0; realized_loss_eth := 0.0; executions := 0;
     failures := 0 |}.

Definition record (self : PnlTracker) (result : ExecutionResult) : PnlTracker :=
  let self := self <[ executions ::= u64_sadd (executions self) 1 ]>
                   <[ daily_pnl_eth ::= (daily_pnl_eth self + realized_profit result)%f64 ]> in
  if success result then
    self <[ realized_profit_eth ::= (realized_profit_eth self + fmax (realized_profit result) 0.0)%f64 ]>
  else
    self <[ failures ::= u64_sadd (failures self) 1 ]>
         <[ realized_loss_eth ::=
              (realized_loss_eth self + fabs (fmin (realized_profit result) 0.0))%f64 ]>.

(** ** [mev/opportunity.rs] *)

Definition wei_to_eth_f64 (wei : U256) : f64 := (f64_of_Z wei / 1e18)%f64.

Definition roi_bps (profit_wei cost_wei : U256) : u64 :=
  if cost_wei =? 0 then 0
  else
    let profit := f64_of_Z profit_wei in
    let cost := f64_of_Z cost_wei in
    if negb (is_finite profit) || negb (is_finite cost) || (cost <=? 0.0)%f64 then 0
    else f64_as_u64 (fmin ((profit / cost) * 10000.0) (f64_of_Z U64_MAX))%f64.
