(* ===== verification/Payload.v ===== *)
(** * Execution payloads ([mev/execution/payload_builder.rs])

    From an opportunity and the state of its pool to the calldata of a flash
    swap: the victim's swap, the capital cap in the borrowed token, the
    candidate sizes on a V2 route or a V3 pool, the choice of one, the minimum
    output and profit, and the diagnostics kept with the payload.

    Parameters: the rendering of addresses, floats and states in diagnostics,
    [serde_json], [parse_ether], the environment, and the hash and ABI codec of
    [Encoder]. *)
From S2P Require Import Prelude F64 Text Ethers Config AmmV2 AmmV3 Simulator Encoder Pnl.
#[local] Open Scope Z_scope.

Inductive AmmRouteKind :=
| RouteV2
| RouteV3 (fee_tier : u32) (path : Bytes).

Record EdgeMetadata := {
  em_victim_tx : string;
  em_selector : string;
  em_status : string;
  em_reason : string;
  em_route_kind : string;
  em_path : list string;
  em_hops : u64;
  em_impacted_pools : list string;
  em_slippage_window_score : f64;
  em_pool_imbalance_score : f64;
  em_cross_dex_deviation_bps : Z;
  em_gas_estimate : u64;
  em_simulated_extraction_native : f64;
  em_aggregator_type : string;
  em_route_complexity : u64;
  em_split_ratio_bps : u64;
  em_dex_sequence : list string;
  em_route_inefficiency_score : f64;
  em_liquidity_distortion_score : f64;
  em_hop_profitability_rank : list string;
  em_best_size_bps : u64;
  em_amount_in_wei : string;
  em_amount_out_wei : string;
  em_gross_edge_wei : string;
  em_gross_edge_native : f64;
  em_repayment_wei : string;
  em_repayment_native : f64;
  em_price_impact_bps : u64;
  em_self_slippage_bps : u64;
  em_pool : string;
  em_factory : string;
  em_router : string;
  em_token_in : string;
  em_token_out : string }.
#[export] Instance EdgeMetadata_eta : RecordEta EdgeMetadata :=
  fields Build_EdgeMetadata <&> em_victim_tx <&> em_selector <&> em_status <&> em_reason
    <&> em_route_kind <&> em_path <&> em_hops <&> em_impacted_pools <&> em_slippage_window_score
    <&> em_pool_imbalance_score <&> em_cross_dex_deviation_bps <&> em_gas_estimate
    <&> em_simulated_extraction_native <&> em_aggregator_type <&> em_route_complexity
    <&> em_split_ratio_bps <&> em_dex_sequence <&> em_route_inefficiency_score
    <&> em_liquidity_distortion_score <&> em_hop_profitability_rank <&> em_best_size_bps
    <&> em_amount_in_wei <&> em_amount_out_wei <&> em_gross_edge_wei <&> em_gross_edge_native
    <&> em_repayment_wei <&> em_repayment_native <&> em_price_impact_bps <&> em_self_slippage_bps
    <&> em_pool <&> em_factory <&> em_router <&> em_token_in <&> em_token_out.

Record ExecutionPayload := {
  ep_tx : Bytes;
  ep_calldata : Bytes;
  ep_target_contract : Address;
  ep_value : U256;
  ep_pair : Address;
  ep_amm_kind : AmmRouteKind;
  ep_capital_committed_wei : U256;
  ep_expected_profit_wei : U256;
  ep_gas_limit : u64;
  ep_price_impact_bps : u64;
  ep_profit_token : Address;
  ep_profit_recipient : Address;
  ep_context_priority_score : f64;
  ep_context_toxicity_score : f64;
  ep_edge_metadata : option EdgeMetadata;
  ep_pool_state_before : AmmState }.
#[export] Instance ExecutionPayload_eta : RecordEta ExecutionPayload :=
  fields Build_ExecutionPayload <&> ep_tx <&> ep_calldata <&> ep_target_contract <&> ep_value
    <&> ep_pair <&> ep_amm_kind <&> ep_capital_committed_wei <&> ep_expected_profit_wei
    <&> ep_gas_limit <&> ep_price_impact_bps <&> ep_profit_token <&> ep_profit_recipient
    <&> ep_context_priority_score <&> ep_context_toxicity_score <&> ep_edge_metadata
    <&> ep_pool_state_before.

Record FeeExtractionBuildInput := {
  bi_router : Address;
  bi_factory : option Address;
  bi_pair : Address;
  bi_recipient : Address;
  bi_token_in : Address;
  bi_token_out : Address;
  bi_victim_amount_in : U256;
  bi_state_before : AmmState;
  bi_capital_available_wei : U256;
  bi_gas_price_wei : U256;
  bi_context_priority_score : f64;
  bi_context_toxicity_score : f64;
  bi_route_kind : AmmRouteKind;
  bi_v2_swap_path : option (list Address);
  bi_v2_swap_pools : list V2PoolState }.

Definition pool_state_clone (self : ExecutionPayload) : AmmState := ep_pool_state_before self.

(** ** Modes and thresholds *)

Definition is_scavenger (config : Config) : bool :=
  bool_decide (opportunity_mode (mev config) = Scavenger).

Definition payload_shadow_research_mode (config : Config) : bool :=
  is_scavenger config
  || (bool_decide (opportunity_mode (mev config) = Aggressive) && negb (allow_send config)).

Definition effective_payload_slippage_bps (config : Config) : u64 :=
  if is_scavenger config then clampZ 100 1500 (u64_smul (slippage_protection_bps (mev config)) 8)
  else slippage_protection_bps (mev config).

Definition effective_payload_price_impact_cap_bps (config : Config) : u64 :=
  if is_scavenger config then
    clampZ 600 3000 (u64_smul (effective_max_price_impact_bps (mev config)) 12)
  else effective_max_price_impact_bps (mev config).

(** ** Token amounts and native amounts *)

Definition token_metadata (config : Config) (token : Address) : option MonitoredTokenConfig :=
  head (filter (fun candidate => mt_address candidate = token) (monitored_tokens config)).

Definition f64_to_u256_floor (value : f64) : option U256 :=
  if negb (is_finite value) || (value <? 0.0)%f64 then None else u256_of_fmt0 (ffloor value).

Definition token_amount_to_native_f64 (config : Config) (token : Address) (amount : U256) : option f64 :=
  metadata ← token_metadata config token;
  raw ← u256_to_f64 amount;
  let units := (raw / fpowi 10 (mt_decimals metadata))%f64 in
  Some (units * mt_price_eth metadata)%f64.

Definition token_amount_to_native_wei (config : Config) (token : Address) (amount : U256) : option U256 :=
  native ← token_amount_to_native_f64 config token amount;
  f64_to_u256_floor (native * 1e18)%f64.

Definition native_wei_to_token_amount (config : Config) (token : Address) (native_wei : U256) : option U256 :=
  metadata ← token_metadata config token;
  if (mt_price_eth metadata <=? 0.0)%f64 then None
  else
    let native := wei_to_eth_f64 native_wei in
    let token_units := (native / mt_price_eth metadata)%f64 in
    f64_to_u256_floor (token_units * fpowi 10 (mt_decimals metadata))%f64.

Definition v2_borrow_cap_from_native (config : Config) (borrow_token profit_token : Address)
    (native_wei borrow_reserve profit_reserve : U256) : option U256 :=
  match native_wei_to_token_amount config borrow_token native_wei with
  | Some amount => Some amount
  | None =>
      if (borrow_reserve =? 0) || (profit_reserve =? 0) then None
      else
        profit_amount ← native_wei_to_token_amount config profit_token native_wei;
        Some (u256_smul profit_amount borrow_reserve / profit_reserve)
  end.

(** ** Routes and repayments *)

(** The loop of [quote_v2_route_exact_in]: pool [k] swaps from the [k]-th token
    of the path to the next. *)
Fixpoint route_loop (amount : U256) (path : list Address) (pools : list V2PoolState) (fallback : u64)
  {struct pools} : option U256 :=
  match pools, path with
  | [], _ => Some amount
  | pool :: pools, token_in :: ((token_out :: _) as path) =>
      '(reserve_in, reserve_out) ← reserves_for pool token_in token_out;
      amount ← amount_out_exact_in amount reserve_in reserve_out
                 (if AmmV2.fee_bps pool =? 0 then fallback else AmmV2.fee_bps pool);
      route_loop amount path pools fallback
  | _ :: _, _ => None
  end.

Definition quote_v2_route_exact_in (amount_in : U256) (route_path : list Address)
    (route_pools : list V2PoolState) (fallback_fee_bps : u64) : option U256 :=
  if (length route_path <? 2)%nat || negb (length route_pools + 1 =? length route_path)%nat then None
  else route_loop amount_in route_path route_pools fallback_fee_bps.

Definition v2_repayment_amount_in_profit_token (borrow_reserve profit_reserve borrowed_amount : U256)
  : option U256 :=
  if (borrowed_amount =? 0) || (borrow_reserve =? 0) || (profit_reserve =? 0)
     || (borrow_reserve <=? borrowed_amount) then None
  else
    let numerator := u256_smul (u256_smul profit_reserve borrowed_amount) 1000 in
    let denominator := u256_smul (sat_sub borrow_reserve borrowed_amount) 997 in
    if denominator =? 0 then None else Some (u256_sadd (numerator / denominator) 1).

Definition v3_flash_repayment_wei (amount : U256) (fee_tier : u32) : U256 :=
  if amount =? 0 then 0
  else
    let fee := u256_sadd (u256_smul amount fee_tier) (1000000 - 1) / 1000000 in
    u256_sadd amount fee.

(** ** V2 candidates *)

(** The body of the loop: [None] is a [continue]; the division by the native
    value of the repayment panics when that value is zero. *)
Definition v2_candidate (config : Config) (borrow_reserve profit_reserve : U256)
    (route_path : list Address) (route_pools : list V2PoolState) (capital_cap : U256)
    (profit_token : Address) (gas_cost_wei : U256) (fee_bps : u64) (scavenger : bool) (bps : u64)
  : outcome (option SizeCandidate) :=
  let amount_in := u256_smul capital_cap bps / 10000 in
  if (amount_in =? 0) || (borrow_reserve <=? amount_in) then Done None
  else
    amount_out <-? opt (quote_v2_route_exact_in amount_in route_path route_pools fee_bps);;
    repayment <-? opt (v2_repayment_amount_in_profit_token borrow_reserve profit_reserve amount_in);;
    let gross_profit_token := sat_sub amount_out repayment in
    gross <-? opt (token_amount_to_native_wei config profit_token gross_profit_token);;
    let net := if scavenger then gross else sat_sub gross gas_cost_wei in
    if net =? 0 then Done None
    else
      repayment_native <-? opt (token_amount_to_native_wei config profit_token repayment);;
      roi <-! (if repayment =? 0 then Done 0
               else q <-! u256_div (u256_smul net 10000) repayment_native;; Done (Z.min q U64_MAX));;
      Done (Some {| AmmV2.capital_fraction_bps := bps; AmmV2.amount_in := amount_in;
                    AmmV2.amount_out := amount_out; AmmV2.gross_profit_wei := gross;
                    AmmV2.net_profit_wei := net; AmmV2.roi_bps := roi;
                    AmmV2.self_slippage_bps :=
                      AmmV2.price_impact_bps amount_in amount_out borrow_reserve profit_reserve |}).

Definition fee_extraction_v2_size_candidates (config : Config) (borrow_reserve profit_reserve : U256)
    (route_path : list Address) (route_pools : list V2PoolState) (capital_cap : U256)
    (profit_token : Address) (gas_cost_wei : U256) (fee_bps : u64) (fractions_bps : list u64)
    (scavenger : bool) : outcome (list SizeCandidate) :=
  if (capital_cap =? 0) || (borrow_reserve =? 0) || (profit_reserve =? 0) then Done []
  else
    push_loop_o (v2_candidate config borrow_reserve profit_reserve route_path route_pools capital_cap
                   profit_token gas_cost_wei fee_bps scavenger) fractions_bps.

Definition select_scavenger_v2_candidate (candidates : list SizeCandidate) : option SizeCandidate :=
  max_by (fun a b => Z.compare (AmmV2.gross_profit_wei a) (AmmV2.gross_profit_wei b))
    (filter (fun c => negb (AmmV2.amount_in c =? 0) && negb (AmmV2.gross_profit_wei c =? 0)
                      && (AmmV2.self_slippage_bps c <=? 2500) = true) candidates).

(** ** V3 candidates *)

Record NormalizedV3Candidate := {
  nc_candidate : V3SizeCandidate;
  nc_repayment_wei : U256;
  nc_amount_out_native_wei : U256;
  nc_repayment_native_wei : U256;
  nc_gross_profit_native_wei : U256;
  nc_net_profit_native_wei : U256;
  nc_edge_positive : bool;
  nc_edge_abs_native_wei : U256 }.

Definition normalized_v3_sizing_score (candidate : NormalizedV3Candidate)
    (context_priority_score context_toxicity_score : f64) : f64 :=
  let net_profit := default 0.0%f64 (u256_to_f64 (nc_net_profit_native_wei candidate)) in
  let roi_component := (f64_of_Z (v3_roi_bps (nc_candidate candidate)) / 10000.0)%f64 in
  let size_component := (f64_of_Z (v3_capital_fraction_bps (nc_candidate candidate)) / 10000.0)%f64 in
  let slippage_penalty := (f64_of_Z (v3_self_slippage_bps (nc_candidate candidate)) / 10000.0)%f64 in
  (net_profit
   * (1.0 + context_priority_score * 0.18)
   * (1.0 + roi_component * 0.42)
   * (1.0 + size_component * 0.10)
   * (1.0 - context_toxicity_score * 0.46)
   * (1.0 - slippage_penalty * 0.62))%f64.

Definition select_scavenger_v3_candidate (candidates : list NormalizedV3Candidate)
  : option NormalizedV3Candidate :=
  max_by (fun a b => Z.compare (nc_gross_profit_native_wei a) (nc_gross_profit_native_wei b))
    (filter (fun c => negb (v3_amount_in (nc_candidate c) =? 0) && nc_edge_positive c
                      && negb (nc_gross_profit_native_wei c =? 0)
                      && (v3_self_slippage_bps (nc_candidate c) <=? 2500) = true) candidates).

Definition select_best_v3_candidate (candidates : list NormalizedV3Candidate)
    (context_priority_score context_toxicity_score : f64) : option NormalizedV3Candidate :=
  let priority := fclamp_in context_priority_score 0.0 1.5 in
  let toxicity := fclamp_in context_toxicity_score 0.0 1.0 in
  max_by (fun left right => total_cmp (normalized_v3_sizing_score left priority toxicity)
                              (normalized_v3_sizing_score right priority toxicity))
    (filter (fun c => nc_edge_positive c && negb (nc_net_profit_native_wei c =? 0)
                      && (v3_self_slippage_bps (nc_candidate c) <=? 2500) = true) candidates).

Section Builder.
Context (ln : f64 -> f64).

Definition normalized_v3_candidate (config : Config) (pool : V3PoolState) (input : FeeExtractionBuildInput)
    (capital_cap : U256) (fee_tier : u32) (gas_cost_wei : U256) (bps : u64) : option NormalizedV3Candidate :=
  let amount_in := u256_smul capital_cap bps / 10000 in
  if amount_in =? 0 then None
  else
    '(_, result) ← simulate_exact_in ln pool (bi_token_out input) (bi_token_in input) amount_in;
    let repayment_wei := v3_flash_repayment_wei amount_in fee_tier in
    amount_out_native ← token_amount_to_native_wei config (bi_token_in input) (AmmV3.amount_out result);
    repayment_native ← token_amount_to_native_wei config (bi_token_out input) repayment_wei;
    let '(edge_positive, edge_abs, gross) :=
      if repayment_native <=? amount_out_native then
        let edge := sat_sub amount_out_native repayment_native in (true, edge, edge)
      else (false, sat_sub repayment_native amount_out_native, 0) in
    let net := sat_sub gross gas_cost_wei in
    let roi := if repayment_native =? 0 then 0
               else Z.min (u256_smul net 10000 / repayment_native) U64_MAX in
    Some {| nc_candidate := {| v3_capital_fraction_bps := bps; v3_amount_in := amount_in;
              v3_amount_out := AmmV3.amount_out result; v3_gross_profit_wei := gross;
              v3_net_profit_wei := net; v3_roi_bps := roi;
              v3_self_slippage_bps := r_price_impact_bps result |};
            nc_repayment_wei := repayment_wei; nc_amount_out_native_wei := amount_out_native;
            nc_repayment_native_wei := repayment_native; nc_gross_profit_native_wei := gross;
            nc_net_profit_native_wei := net; nc_edge_positive := edge_positive;
            nc_edge_abs_native_wei := edge_abs |}.

Definition normalized_v3_size_candidates (config : Config) (pool : V3PoolState)
    (input : FeeExtractionBuildInput) (capital_cap : U256) (fee_tier : u32) (gas_cost_wei : U256)
    (fractions_bps : list u64) : list NormalizedV3Candidate :=
  if capital_cap =? 0 then []
  else push_loop (normalized_v3_candidate config pool input capital_cap fee_tier gas_cost_wei) fractions_bps.

(** ** Diagnostics *)

Context (debug_address : Address -> string) (display_f64 : f64 -> string) (fmt_prec : nat -> f64 -> string)
  (debug_state : AmmState -> string) (to_json : EdgeMetadata -> option string)
  (parse_ether : string -> string + U256) (env : string -> option string).
Context (keccak256 : Bytes -> Bytes) (abi_encode : list Token -> Bytes).

Definition cat : list string -> string := String.concat "".
Definition show_bool (b : bool) : string := if b then "true" else "false".

Definition payload_error_with_edge_sample (reason : string) (sample : option EdgeMetadata) : string :=
  match sample with
  | None => reason
  | Some sample =>
      match to_json sample with
      | Some json => cat [reason; " | edge_sample="; json]
      | None => reason
      end
  end.

Definition scavenger_shadow_negative_tolerance_native (config : Config) : f64 :=
  let tolerance_usd :=
    fabs (default 15.0%f64
            (v ← env "MEV_SCAVENGER_SHADOW_NEGATIVE_TOLERANCE_USD"; parse_f64 (trim v))) in
  (tolerance_usd / fmax (eth_usd_price (mev config)) 1.0)%f64.

Definition scavenger_shadow_sample (config : Config) (sample : EdgeMetadata) (status reason : string)
  : EdgeMetadata :=
  if payload_shadow_research_mode config
     && (em_gross_edge_native sample >=? fneg (scavenger_shadow_negative_tolerance_native config))%f64
  then sample <[ em_status ::= status ]> <[ em_reason ::= reason ]>
  else sample.

Definition format_optional_address (address : option Address) : string :=
  match address with Some a => debug_address a | None => "unknown" end.

Definition effective_payload_min_profit_wei (config : Config) : string + U256 :=
  if is_scavenger config then inr 1
  else parse_ether (display_f64 (effective_min_net_profit_eth (mev config))).

(** The fields of a diagnostic that depend only on the request. *)
Definition base_metadata (input : FeeExtractionBuildInput) (status reason kind : string)
    (path pools : list string) (hops gas_estimate bps impact slippage : Z)
    (gross_native repayment_native : f64) (rank : list string)
    (amount_in amount_out gross repayment : string) : EdgeMetadata :=
  {| em_victim_tx := ""; em_selector := ""; em_status := status; em_reason := reason;
     em_route_kind := kind; em_path := path; em_hops := hops; em_impacted_pools := pools;
     em_slippage_window_score := 0.0; em_pool_imbalance_score := 0.0;
     em_cross_dex_deviation_bps := 0; em_gas_estimate := gas_estimate;
     em_simulated_extraction_native := gross_native; em_aggregator_type := "direct_router";
     em_route_complexity := hops; em_split_ratio_bps := 0; em_dex_sequence := [kind];
     em_route_inefficiency_score := 0.0; em_liquidity_distortion_score := 0.0;
     em_hop_profitability_rank := rank; em_best_size_bps := bps; em_amount_in_wei := amount_in;
     em_amount_out_wei := amount_out; em_gross_edge_wei := gross;
     em_gross_edge_native := gross_native; em_repayment_wei := repayment;
     em_repayment_native := repayment_native; em_price_impact_bps := impact;
     em_self_slippage_bps := slippage; em_pool := debug_address (bi_pair input);
     em_factory := format_optional_address (bi_factory input);
     em_router := debug_address (bi_router input); em_token_in := debug_address (bi_token_in input);
     em_token_out := debug_address (bi_token_out input) |}.

Definition path_hops (path : list Address) : u64 := Z.of_nat (length path - 1).

(** The body of the loop of [best_v2_edge_metadata]: sign and size of the edge,
    and its sample. *)
Definition v2_edge_sample (config : Config) (borrow_reserve profit_reserve : U256)
    (route_path : list Address) (route_pools : list V2PoolState) (capital_cap : U256) (fee_bps : u64)
    (input : FeeExtractionBuildInput) (price_impact_bps : u64) (status reason : string) (bps : u64)
  : option (bool * U256 * EdgeMetadata) :=
  let amount_in := u256_smul capital_cap bps / 10000 in
  if (amount_in =? 0) || (borrow_reserve <=? amount_in) then None
  else
    amount_out ← quote_v2_route_exact_in amount_in route_path route_pools fee_bps;
    repayment ← v2_repayment_amount_in_profit_token borrow_reserve profit_reserve amount_in;
    '(positive, edge_abs, gross_wei, gross_native) ←
      (if repayment <=? amount_out then
         let edge := sat_sub amount_out repayment in
         native ← token_amount_to_native_wei config (bi_token_in input) edge;
         Some (true, edge, show_Z native, wei_to_eth_f64 native)
       else
         let edge := sat_sub repayment amount_out in
         native ← token_amount_to_native_wei config (bi_token_in input) edge;
         Some (false, edge, cat ["-"; show_Z native], fneg (wei_to_eth_f64 native)));
    repayment_native ← token_amount_to_native_f64 config (bi_token_in input) repayment;
    let self_slippage := AmmV2.price_impact_bps amount_in amount_out borrow_reserve profit_reserve in
    Some (positive, edge_abs,
          base_metadata input status reason "v2" (debug_address <$> route_path)
            ((fun pool => debug_address (AmmV2.pair pool)) <$> route_pools)
            (path_hops route_path) 0 bps price_impact_bps self_slippage gross_native repayment_native
            [] (show_Z amount_in) (show_Z amount_out) gross_wei (show_Z repayment)).

(** Which of two edges is kept: a positive one over a negative one, the larger
    positive one, the smaller negative one. *)
Definition edge_replaces (best : option (bool * U256 * EdgeMetadata)) (positive : bool) (edge_abs : U256)
  : bool :=
  match best with
  | None => true
  | Some (best_positive, best_abs, _) =>
      (positive && negb best_positive)
      || (Bool.eqb positive best_positive
          && (if positive then best_abs <? edge_abs else edge_abs <? best_abs))
  end.

Definition best_v2_edge_metadata (config : Config) (borrow_reserve profit_reserve : U256)
    (route_path : list Address) (route_pools : list V2PoolState) (capital_cap : U256) (fee_bps : u64)
    (fractions_bps : list u64) (input : FeeExtractionBuildInput) (price_impact_bps : u64)
    (status reason : string) : option EdgeMetadata :=
  let best := foldl (fun best bps =>
      match v2_edge_sample config borrow_reserve profit_reserve route_path route_pools capital_cap
              fee_bps input price_impact_bps status reason bps with
      | None => best
      | Some (positive, edge_abs, sample) =>
          if edge_replaces best positive edge_abs then Some (positive, edge_abs, sample) else best
      end) None fractions_bps in
  snd <$> best.

Definition v3_edge_cmp (left right : NormalizedV3Candidate) : comparison :=
  match Z.compare (if nc_edge_positive left then 1 else 0) (if nc_edge_positive right then 1 else 0) with
  | Eq => if nc_edge_positive left
          then Z.compare (nc_edge_abs_native_wei left) (nc_edge_abs_native_wei right)
          else Z.compare (nc_edge_abs_native_wei right) (nc_edge_abs_native_wei left)
  | c => c
  end.

Definition route_fee_tier (input : FeeExtractionBuildInput) : u32 :=
  match bi_route_kind input with RouteV3 fee_tier _ => fee_tier | RouteV2 => 0 end.

Definition v3_rank (amount_in amount_out repayment : U256) (out_native repay_native : f64) (gross : U256)
    (positive : option bool) (fee_tier : u32) : list string :=
  [ cat ["amount_in="; show_Z amount_in]; cat ["amount_out="; show_Z amount_out];
    cat ["repayment="; show_Z repayment]; cat ["amount_out_native="; fmt_prec 12 out_native];
    cat ["repayment_native="; fmt_prec 12 repay_native]; cat ["gross_edge_native_wei="; show_Z gross] ]
  ++ match positive with Some b => [cat ["edge_positive="; show_bool b]] | None => [] end
  ++ [ cat ["route_kind=v3 fee_tier="; show_Z fee_tier] ].

Definition best_v3_edge_metadata (candidates : list NormalizedV3Candidate)
    (input : FeeExtractionBuildInput) (price_impact_bps : u64) (status reason : string)
  : option EdgeMetadata :=
  candidate ← max_by v3_edge_cmp candidates;
  let c := nc_candidate candidate in
  let gross_wei := if nc_edge_positive candidate then show_Z (nc_gross_profit_native_wei candidate)
                   else cat ["-"; show_Z (nc_edge_abs_native_wei candidate)] in
  let gross_native := if nc_edge_positive candidate
                      then wei_to_eth_f64 (nc_gross_profit_native_wei candidate)
                      else fneg (wei_to_eth_f64 (nc_edge_abs_native_wei candidate)) in
  let out_native := wei_to_eth_f64 (nc_amount_out_native_wei candidate) in
  let repay_native := wei_to_eth_f64 (nc_repayment_native_wei candidate) in
  Some (base_metadata input status reason "v3"
          [debug_address (bi_token_out input); debug_address (bi_token_in input)]
          [debug_address (bi_pair input)] 1 0 (v3_capital_fraction_bps c) price_impact_bps
          (v3_self_slippage_bps c) gross_native repay_native
          (v3_rank (v3_amount_in c) (v3_amount_out c) (nc_repayment_wei candidate) out_native
             repay_native (nc_gross_profit_native_wei candidate) (Some (nc_edge_positive candidate))
             (route_fee_tier input))
          (show_Z (v3_amount_in c)) (show_Z (v3_amount_out c)) gross_wei
          (show_Z (nc_repayment_wei candidate))).

(** ** Pieces shared by the two builders *)

Definition victim_failure (label : string) (input : FeeExtractionBuildInput) : string :=
  cat ["victim post-swap simulation failed token_in="; debug_address (bi_token_in input);
       " token_out="; debug_address (bi_token_out input);
       " amount_in="; show_Z (bi_victim_amount_in input); " "; label; "=";
       debug_address (bi_pair input); " state_before="; debug_state (bi_state_before input)].

Definition payload_gas_estimate (config : Config) (bundle_gas floor_ : u64) : u64 :=
  Z.min (max_gas_per_tx (mev config)) (Z.max (u64_sadd (estimated_exec_gas config) bundle_gas) floor_).

Definition payload_gas_cost (config : Config) (input : FeeExtractionBuildInput) (gas_estimate : u64) : U256 :=
  u256_smul (u256_smul (bi_gas_price_wei input) gas_estimate) (gas_safety_margin_bps (mev config)) / 10000.

Definition sizing_fractions (shadow_research : bool) : list u64 :=
  if shadow_research then [25; 50; 100; 200; 350; 500; 750; 1000; 1500]
  else [1000; 2000; 3500; 5000; 7500].

Definition min_amount_out_of (config : Config) (amount_out : U256) : U256 :=
  u256_smul amount_out (sat_sub 10000 (effective_payload_slippage_bps config)) / 10000.

Definition profit_below_minimum (config : Config) (label : string) (simulated min_profit : U256) : string :=
  cat ["simulated "; label; "profit "; fmt_prec 6 (wei_to_eth_f64 simulated); " ";
       native_asset_symbol config; " below minimum "; fmt_prec 6 (wei_to_eth_f64 min_profit); " ";
       native_asset_symbol config].

Definition missing_metadata (what : string) (token : Address) : string :=
  cat ["token normalization failed for "; what; " "; debug_address token;
       ": missing decimals/price metadata"].

(** ** [build_fee_extraction_v2] *)

Definition build_fee_extraction_v2 (config : Config) (input : FeeExtractionBuildInput)
  : res ExecutionPayload :=
  post_victim <-r ok_or (simulate_victim_exact_in ln (bi_state_before input) (bi_token_in input)
                           (bi_token_out input) (bi_victim_amount_in input))
                    (victim_failure "pair" input);;
  match state_after post_victim with
  | UniswapV3 _ => fail "v2 payload requires UniswapV2 simulated state"
  | UniswapV2 pool_after =>
      let scavenger := is_scavenger config in
      let shadow_research := payload_shadow_research_mode config in
      let impact := slippage_impact_bps post_victim in
      if effective_payload_price_impact_cap_bps config <? impact then
        fail (cat ["victim price impact too high: "; show_Z impact; "bps"])
      else
        reserves <-r ok_or (reserves_for pool_after (bi_token_out input) (bi_token_in input))
                       "pool after victim does not support reverse path";;
        let '(reserve_in, reserve_out) := reserves in
        let gas_estimate :=
          payload_gas_estimate config (estimated_bundle_overhead_gas config)
            (if shadow_research then 140000 else 180000) in
        let gas_cost := payload_gas_cost config input gas_estimate in
        let fractions := sizing_fractions shadow_research in
        let swap_path := default [bi_token_out input; bi_token_in input] (bi_v2_swap_path input) in
        let route_pools := match bi_v2_swap_pools input with [] => [pool_after] | ps => ps end in
        capital_cap <-r ok_or (v2_borrow_cap_from_native config (bi_token_out input) (bi_token_in input)
                                 (bi_capital_available_wei input) reserve_in reserve_out)
          (cat ["token normalization failed for borrow token "; debug_address (bi_token_out input);
                ": missing decimals/price metadata and pool-derived fallback unavailable profit_token=";
                debug_address (bi_token_in input); " reserve_in="; show_Z reserve_in;
                " reserve_out="; show_Z reserve_out]);;
        candidates <-r of_outcome (fee_extraction_v2_size_candidates config reserve_in reserve_out
                         swap_path route_pools capital_cap (bi_token_in input) gas_cost
                         (AmmV2.fee_bps pool_after) fractions scavenger);;
        let blocked_sample := best_v2_edge_metadata config reserve_in reserve_out swap_path route_pools
          capital_cap (AmmV2.fee_bps pool_after) fractions input impact "blocked" "no positive gross edge" in
        selected <-r (if shadow_research then
            ok_or (select_scavenger_v2_candidate candidates)
              (payload_error_with_edge_sample "no positive gross edge for scavenger payload"
                 ((fun sample => scavenger_shadow_sample config sample "shadow_candidate"
                                   "gross edge below live threshold") <$> blocked_sample))
          else
            ok_or (select_best_size_candidate candidates (bi_context_priority_score input)
                     (bi_context_toxicity_score input))
              "no ROI-positive trade size after gas");;
        let amount_in := AmmV2.amount_in selected in
        let amount_out := AmmV2.amount_out selected in
        let gross := AmmV2.gross_profit_wei selected in
        let repayment := default 0 (v2_repayment_amount_in_profit_token reserve_in reserve_out amount_in) in
        repayment_native <-r ok_or (token_amount_to_native_f64 config (bi_token_in input) repayment)
                               (missing_metadata "profit token" (bi_token_in input));;
        let gross_native := wei_to_eth_f64 gross in
        let simulated := if shadow_research then gross else AmmV2.net_profit_wei selected in
        let min_out := min_amount_out_of config amount_out in
        min_profit <-r of_result (effective_payload_min_profit_wei config);;
        if negb shadow_research && (simulated <? min_profit) then
          fail (profit_below_minimum config "" simulated min_profit)
        else
          let metadata := base_metadata input "payload_built" "selected positive gross edge" "v2"
            (debug_address <$> swap_path)
            ((fun pool => debug_address (AmmV2.pair pool)) <$> route_pools) (path_hops swap_path)
            gas_estimate (AmmV2.capital_fraction_bps selected) impact
            (AmmV2.self_slippage_bps selected) gross_native repayment_native
            [ cat ["amount_in="; show_Z amount_in]; cat ["amount_out="; show_Z amount_out];
              cat ["repayment="; show_Z repayment]; cat ["gross_edge_native_wei="; show_Z gross];
              cat ["route_kind=v2 fee_bps="; show_Z (AmmV2.fee_bps pool_after)] ]
            (show_Z amount_in) (show_Z amount_out) (show_Z gross) (show_Z repayment) in
          executor <-r ok_or (mev_executor (mev config))
            (payload_error_with_edge_sample "MEV_EXECUTOR_ADDRESS is required to build V2 atomic payload"
               (Some (scavenger_shadow_sample config metadata "shadow_candidate"
                        "executor contract not configured")));;
          let step := {| router := bi_router input; path := swap_path; Encoder.amount_in := amount_in;
                         min_out := min_out |} in
          let call := build_v2_flashswap_call keccak256 abi_encode executor (bi_pair input)
            (bi_token_out input) amount_in min_profit (bi_token_in input) (bi_recipient input) [step] in
          ok {| ep_tx := []; ep_calldata := calldata call; ep_target_contract := target_contract call;
                ep_value := 0; ep_pair := bi_pair input; ep_amm_kind := RouteV2;
                ep_capital_committed_wei := amount_in; ep_expected_profit_wei := simulated;
                ep_gas_limit := gas_estimate; ep_price_impact_bps := impact;
                ep_profit_token := bi_token_in input; ep_profit_recipient := bi_recipient input;
                ep_context_priority_score := bi_context_priority_score input;
                ep_context_toxicity_score := bi_context_toxicity_score input;
                ep_edge_metadata := Some metadata; ep_pool_state_before := bi_state_before input |}
  end.

(** ** [build_fee_extraction_v3] *)

(** The status and reason of the metadata in research mode: an error blocks a
    scavenger's live payload without net edge. *)
Definition v3_research_status (config : Config) (net : U256) (metadata : EdgeMetadata) : res EdgeMetadata :=
  if payload_shadow_research_mode config then
    if negb (allow_send config) then
      ok (metadata <[ em_status ::= "v3_shadow_ready"%string ]>
                   <[ em_reason ::= cat [em_reason metadata;
                        " unit_safe=true shadow_payload_built=true allow_send=false normalized_net_after_gas=";
                        display_f64 (wei_to_eth_f64 net)] ]>)
    else if is_scavenger config then
      if net =? 0 then
        fail (payload_error_with_edge_sample
                "v3 scavenger payload blocked for live send: normalized net edge is zero" (Some metadata))
      else
        ok (metadata <[ em_status ::= "v3_live_ready"%string ]>
                     <[ em_reason ::= cat [em_reason metadata;
                          " normalized_units=true live_send_allowed=true"] ]>)
    else ok metadata
  else ok metadata.

Definition build_fee_extraction_v3 (config : Config) (input : FeeExtractionBuildInput)
  : res ExecutionPayload :=
  match bi_route_kind input with
  | RouteV2 => fail "v3 payload requires UniswapV3 route kind"
  | RouteV3 fee_tier path =>
      post_victim <-r ok_or (simulate_victim_exact_in ln (bi_state_before input) (bi_token_in input)
                               (bi_token_out input) (bi_victim_amount_in input))
                        (victim_failure "pool" input);;
      match state_after post_victim with
      | UniswapV2 _ => fail "v3 payload requires UniswapV3 simulated state"
      | UniswapV3 pool_after =>
          let shadow_research := payload_shadow_research_mode config in
          let impact := slippage_impact_bps post_victim in
          match initialized_ticks pool_after with
          | [] => fail (cat ["v3_tick_data_missing_for_shadow_ev pool="; debug_address (pool pool_after);
                    " liquidity="; show_Z (liquidity pool_after); " sqrtPriceX96=";
                    show_Z (sqrt_price_x96 pool_after); " current_tick=";
                    show_Z (current_tick pool_after); " shadow_v3_ev_blocked=true"])
          | _ =>
              if effective_payload_price_impact_cap_bps config <? impact then
                fail (cat ["victim price impact too high: "; show_Z impact; "bps"])
              else
                let gas_estimate :=
                  if shadow_research then
                    payload_gas_estimate config (wrap64 (estimated_bundle_overhead_gas config + 20000)) 160000
                  else
                    payload_gas_estimate config (wrap64 (estimated_bundle_overhead_gas config + 35000)) 210000 in
                let gas_cost := payload_gas_cost config input gas_estimate in
                capital_cap <-r ok_or (native_wei_to_token_amount config (bi_token_out input)
                                         (bi_capital_available_wei input))
                                  (missing_metadata "borrow token" (bi_token_out input));;
                let candidates := normalized_v3_size_candidates config pool_after input capital_cap
                                    fee_tier gas_cost (sizing_fractions shadow_research) in
                selected <-r (if shadow_research then
                    ok_or (select_scavenger_v3_candidate candidates)
                      (payload_error_with_edge_sample "no positive gross v3 edge for scavenger payload"
                         ((fun sample => scavenger_shadow_sample config sample "shadow_candidate"
                                           "gross v3 edge below live threshold")
                          <$> best_v3_edge_metadata candidates input impact "blocked"
                                "no positive gross v3 edge"))
                  else
                    ok_or (select_best_v3_candidate candidates (bi_context_priority_score input)
                             (bi_context_toxicity_score input))
                      "no ROI-positive v3 trade size after gas");;
                let c := nc_candidate selected in
                let amount_in := v3_amount_in c in
                let amount_out := v3_amount_out c in
                let repayment := nc_repayment_wei selected in
                let gross := nc_gross_profit_native_wei selected in
                let net := nc_net_profit_native_wei selected in
                if gross =? 0 then fail "no positive normalized v3 gross edge"
                else
                  out_native <-r ok_or (token_amount_to_native_f64 config (bi_token_in input) amount_out)
                                   (missing_metadata "v3 output token" (bi_token_in input));;
                  repay_native <-r ok_or (token_amount_to_native_f64 config (bi_token_out input) repayment)
                                     (missing_metadata "v3 repayment token" (bi_token_out input));;
                  let gross_native := wei_to_eth_f64 gross in
                  let simulated := if shadow_research then gross else net in
                  let min_out := min_amount_out_of config amount_out in
                  min_profit <-r of_result (effective_payload_min_profit_wei config);;
                  if negb shadow_research && (simulated <? min_profit) then
                    fail (profit_below_minimum config "v3 " simulated min_profit)
                  else
                    let metadata := base_metadata input "payload_built"
                      "selected positive v3 gross edge" "v3"
                      [debug_address (bi_token_out input); debug_address (bi_token_in input)]
                      [debug_address (bi_pair input)] 1 gas_estimate (v3_capital_fraction_bps c) impact
                      (v3_self_slippage_bps c) gross_native repay_native
                      (v3_rank amount_in amount_out repayment out_native repay_native gross None fee_tier)
                      (show_Z amount_in) (show_Z amount_out) (show_Z gross) (show_Z repayment) in
                    metadata <-r v3_research_status config net metadata;;
                    executor <-r ok_or (match mev_executor_v3 (mev config) with
                                        | Some e => Some e
                                        | None => mev_executor (mev config)
                                        end)
                      (payload_error_with_edge_sample
                         "MEV_EXECUTOR_V3_ADDRESS or MEV_EXECUTOR_ADDRESS is required to build V3 atomic payload"
                         (Some (scavenger_shadow_sample config metadata "shadow_candidate"
                                  "executor contract not configured")));;
                    let step := {| router_v3 := bi_router input; path_v3 := path;
                                   amount_in_v3 := amount_in; min_out_v3 := min_out |} in
                    let call := build_v3_flashswap_call keccak256 abi_encode executor (bi_pair input)
                      (bi_token_out input) amount_in fee_tier min_profit (bi_token_in input)
                      (bi_recipient input) [step] in
                    ok {| ep_tx := []; ep_calldata := calldata_v3 call;
                          ep_target_contract := target_contract_v3 call; ep_value := 0;
                          ep_pair := bi_pair input; ep_amm_kind := RouteV3 fee_tier path;
                          ep_capital_committed_wei := amount_in; ep_expected_profit_wei := simulated;
                          ep_gas_limit := gas_estimate; ep_price_impact_bps := impact;
                          ep_profit_token := bi_token_in input;
                          ep_profit_recipient := bi_recipient input;
                          ep_context_priority_score := bi_context_priority_score input;
                          ep_context_toxicity_score := bi_context_toxicity_score input;
                          ep_edge_metadata := Some metadata;
                          ep_pool_state_before := bi_state_before input |}
          end
      end
  end.
End Builder.
