(* ===== verification/PayloadFacts.v ===== *)
(** * Execution payloads: theorems

    Route quotes against the pools' own swaps, flash repayments against the
    pair's invariant, the candidates' arithmetic, and what a built payload
    guarantees. *)
From S2P Require Import Prelude F64 Text Ethers Config AmmV2 AmmV3 Simulator Encoder Pnl Payload.
#[local] Open Scope Z_scope.

(** ** Routes *)

(** Swapping along a route: every pool is swapped with what the previous one
    paid; the final states of the pools and the final amount. *)
Fixpoint swap_along (amount : U256) (path : list Address) (pools : list V2PoolState)
  {struct pools} : option (list V2PoolState * U256) :=
  match pools, path with
  | [], _ => Some ([], amount)
  | p :: pools, tin :: ((tout :: _) as path) =>
      '(q, r) ← apply_swap_exact_in p tin tout amount;
      '(qs, o) ← swap_along (sr_amount_out r) path pools;
      Some (q :: qs, o)
  | _ :: _, _ => None
  end.

Lemma amount_out_zero x y fee : amount_out_exact_in 0 x y fee = None.
Proof. done. Qed.

Lemma route_loop_swaps fallback : forall pools path amount o,
  Forall wf_pool pools -> Forall (fun p => AmmV2.fee_bps p <> 0) pools ->
  is_u112 amount -> 0 < o -> route_loop amount path pools fallback = Some o ->
  exists qs, swap_along amount path pools = Some (qs, o).
Proof.
  induction pools as [|p pools IH]; intros path amount o W F Ha Ho H; simpl in *.
  { injection H as <-. by exists []. }
  destruct path as [|tin [|tout path]]; try done. simpl in H.
  apply Forall_cons in W as [Wp W]. apply Forall_cons in F as [Fp F].
  destruct (reserves_for p tin tout) as [[x y]|] eqn:R; simpl in H; [|done].
  destruct (Z.eqb_spec (AmmV2.fee_bps p) 0); [done|].
  assert (Hxy : is_u112 x /\ is_u112 y).
  { apply reserves_for_Some in R. destruct Wp. intuition (subst; auto). }
  destruct (amount_out_exact_in amount x y (AmmV2.fee_bps p)) as [a'|] eqn:Q; simpl in H; [|done].
  assert (Ha' : 0 < a').
  { destruct pools as [|p' pools]; simpl in H; [by injection H as ->|].
    destruct path as [|t' path]; [done|]. simpl in H.
    destruct (reserves_for p' tout t') as [[x' y']|]; simpl in H; [|done].
    assert (0 <= a').
    { unfold is_u112 in *. eapply amount_out_Some_nonneg; [| | | |exact Q]; try lia; apply Wp. }
    destruct (Z.eqb_spec a' 0) as [->|]; [by rewrite amount_out_zero in H|]. lia. }
  rewrite amount_out_quote in Q by (apply Hxy || done || apply Wp).
  destruct ((amount =? 0) || (x =? 0) || (y =? 0) || (10000 <=? AmmV2.fee_bps p)) eqn:E; [done|].
  injection Q as Q. pose proof (amount_out_quote amount x y (AmmV2.fee_bps p) Ha (proj1 Hxy) (proj2 Hxy) (wf_fee _ Wp)) as Q2.
  rewrite E in Q2. simplify_tests. unfold is_u112 in *.
  assert (L : a' < y) by (rewrite <- Q; destruct Wp; apply quote_lt_reserve; lia).
  destruct (IH (tout :: path) a' o W F ltac:(lia) Ho H) as [qs Hqs].
  assert (S : exists q r, apply_swap_exact_in p tin tout amount = Some (q, r) /\ sr_amount_out r = a').
  { unfold apply_swap_exact_in. rewrite R; simpl.
    assert (((amount =? 0) || (x =? 0) || (y =? 0)) = false) as -> by
      (rewrite !orb_false_iff, !Z.eqb_neq; auto).
    rewrite Q2; simpl. rewrite Q.
    assert (((a' =? 0) || (y <=? a')) = false) as ->
      by (rewrite orb_false_iff, Z.eqb_neq, Z.leb_gt; lia).
    eexists _, _; split; reflexivity. }
  destruct S as (q & r & S & O). rewrite S; simpl. rewrite O, Hqs. simpl. by eexists.
Qed.

(** ** Repayments *)

Lemma v2_repayment_exact B P b :
  is_u112 B -> 0 <= P < 2 ^ 113 -> 0 <= b ->
  v2_repayment_amount_in_profit_token B P b =
  if (b =? 0) || (B =? 0) || (P =? 0) || (B <=? b) then None
  else Some (P * b * 1000 / ((B - b) * 997) + 1).
Proof.
  unfold is_u112, v2_repayment_amount_in_profit_token; intros HB HP Hb.
  destruct (_ || _) eqn:E; [done|]. simplify_tests.
  assert (0 <= P * b * 1000 < 2 ^ 240) by (change (2^240) with (2^112 * 2^113 * 2^15); nia).
  assert (2 ^ 240 < U256_MAX) by reflexivity.
  assert (0 < (B - b) * 997 < 2 ^ 240) by (change (2^240) with (2^112 * 2^128); nia).
  rewrite sat_sub_small, (sat_mul_small _ P b), !sat_mul_small by nia.
  destruct (Z.eqb_spec ((B - b) * 997) 0); [lia|].
  rewrite sat_add_small; [done|].
  assert (P * b * 1000 / ((B - b) * 997) <= P * b * 1000); [|lia].
  apply Z.div_le_upper_bound; nia.
Qed.

(** ** Candidates *)

Lemma v2_candidate_panics config B P path pools cap tok gas fee sc bps :
  v2_candidate config B P path pools cap tok gas fee sc bps = Panicked <->
  let a := u256_smul cap bps / 10000 in
  a <> 0 /\ a < B /\
  exists o r g,
    quote_v2_route_exact_in a path pools fee = Some o /\
    v2_repayment_amount_in_profit_token B P a = Some r /\ r <> 0 /\
    token_amount_to_native_wei config tok (sat_sub o r) = Some g /\
    (if sc then g else sat_sub g gas) <> 0 /\
    token_amount_to_native_wei config tok r = Some 0.
Proof.
  unfold v2_candidate; simpl. set (a := u256_smul cap bps / 10000).
  destruct (Z.eqb_spec a 0) as [A|A]; simpl; [split; [done|tauto]|].
  destruct (Z.leb_spec B a) as [L|L]; simpl; [split; [done|lia]|].
  destruct (quote_v2_route_exact_in a path pools fee) as [o|]; simpl;
    [|split; [done|intros (_ & _ & ? & ? & ? & ? & _); done]].
  destruct (v2_repayment_amount_in_profit_token B P a) as [r|]; simpl;
    [|split; [done|intros (_ & _ & ? & ? & ? & _ & ? & _); done]].
  destruct (token_amount_to_native_wei config tok (sat_sub o r)) as [g|] eqn:G; simpl;
    [|split; [done|intros (_ & _ & ? & ? & ? & [= <-] & [= <-] & _ & ? & _); congruence]].
  set (n := if sc then g else sat_sub g gas).
  destruct (Z.eqb_spec n 0) as [N|N]; simpl.
  { split; [done|]. intros (_ & _ & o' & r' & g' & [= <-] & [= <-] & _ & G' & N' & _).
    rewrite G in G'. injection G' as <-. done. }
  destruct (token_amount_to_native_wei config tok r) as [rn|] eqn:R; simpl;
    [|split; [done|intros (_ & _ & ? & ? & ? & [= <-] & [= <-] & _ & _ & _ & ?); congruence]].
  destruct (Z.eqb_spec r 0) as [R0|R0]; simpl.
  { split; [done|]. intros (_ & _ & o' & r' & g' & _ & [= <-] & ? & _). done. }
  unfold u256_div. destruct (Z.eqb_spec rn 0) as [->|RN]; simpl.
  - split; [|done]. intros _. split_and!; try done. exists o, r, g. split_and!; auto.
  - split; [done|]. intros (_ & _ & o' & r' & g' & _ & [= <-] & _ & _ & _ & E). congruence.
Qed.

Lemma push_loop_o_panics {A B} (body : A -> outcome (option B)) l :
  push_loop_o body l = Panicked <-> exists x, x ∈ l /\ body x = Panicked.
Proof.
  induction l as [|x l IH]; simpl.
  - split; [done|]. intros (x & H & _). inversion H.
  - unfold mbind, outcome_bind. destruct (body x) as [y|] eqn:E.
    + destruct (push_loop_o body l) as [zs|]; simpl.
      * split; [done|]. intros (z & [->|Hz]%elem_of_cons & Ez); [congruence|].
        assert (Done zs = @Panicked (list B)) as [=]. apply IH; eauto.
      * split; [|done]. intros _. destruct (proj1 IH eq_refl) as (z & Hz & Ez). exists z.
        split; [by apply elem_of_cons; right|done].
    + split; [|done]. intros _. exists x. split; [apply list_elem_of_here|done].
Qed.

Lemma push_loop_o_elem {A B} (body : A -> outcome (option B)) l ys y :
  push_loop_o body l = Done ys -> y ∈ ys -> exists x, x ∈ l /\ body x = Done (Some y).
Proof.
  revert ys; induction l as [|x l IH]; intros ys; simpl.
  - intros [= <-] H. inversion H.
  - unfold mbind, outcome_bind. destruct (body x) as [b|] eqn:E; [|done].
    destruct (push_loop_o body l) as [zs|] eqn:L; [|done]. intros [= <-].
    destruct b as [b|].
    + intros [->|H]%elem_of_cons; [exists x; split; [apply list_elem_of_here|done]|].
      destruct (IH _ eq_refl H) as (z & Hz & Ez). exists z. split; [by apply elem_of_cons; right|done].
    + intros H. destruct (IH _ eq_refl H) as (z & Hz & Ez). exists z.
      split; [by apply elem_of_cons; right|done].
Qed.

(** What one candidate size promises. *)
Definition candidate_ok config B P path pools cap tok gas fee (sc : bool) (c : SizeCandidate) : Prop :=
  AmmV2.amount_in c = u256_smul cap (AmmV2.capital_fraction_bps c) / 10000 /\
  AmmV2.amount_in c <> 0 /\ AmmV2.amount_in c < B /\
  quote_v2_route_exact_in (AmmV2.amount_in c) path pools fee = Some (AmmV2.amount_out c) /\
  exists r, v2_repayment_amount_in_profit_token B P (AmmV2.amount_in c) = Some r /\
    token_amount_to_native_wei config tok (sat_sub (AmmV2.amount_out c) r) = Some (AmmV2.gross_profit_wei c) /\
    AmmV2.net_profit_wei c = (if sc then AmmV2.gross_profit_wei c else sat_sub (AmmV2.gross_profit_wei c) gas) /\
    AmmV2.net_profit_wei c <> 0.

Lemma v2_candidate_inv config B P path pools cap tok gas fee sc bps c :
  v2_candidate config B P path pools cap tok gas fee sc bps = Done (Some c) ->
  AmmV2.capital_fraction_bps c = bps /\ candidate_ok config B P path pools cap tok gas fee sc c.
Proof.
  unfold v2_candidate, candidate_ok. set (a := u256_smul cap bps / 10000).
  destruct (_ || _) eqn:E; [done|]. simplify_tests.
  destruct (quote_v2_route_exact_in a path pools fee) as [o|] eqn:Q; simpl; [|done].
  destruct (v2_repayment_amount_in_profit_token B P a) as [r|] eqn:R; simpl; [|done].
  destruct (token_amount_to_native_wei config tok (sat_sub o r)) as [g|] eqn:G; simpl; [|done].
  set (n := if sc then g else sat_sub g gas). destruct (Z.eqb_spec n 0); simpl; [done|].
  destruct (token_amount_to_native_wei config tok r) as [rn|]; simpl; [|done].
  assert (X : forall roi, Done (Some {| AmmV2.capital_fraction_bps := bps; AmmV2.amount_in := a;
       AmmV2.amount_out := o; AmmV2.gross_profit_wei := g;
       AmmV2.net_profit_wei := if sc then g else sat_sub g gas; AmmV2.roi_bps := roi;
       AmmV2.self_slippage_bps := AmmV2.price_impact_bps a o B P |}) = Done (Some c) ->
     AmmV2.capital_fraction_bps c = bps /\ candidate_ok config B P path pools cap tok gas fee sc c).
  { intros roi [= <-]. split; [done|]. unfold candidate_ok; simpl. split_and!; auto. by exists r. }
  destruct (r =? 0); simpl; [apply X|].
  unfold u256_div; destruct (rn =? 0); simpl; [done|apply X].
Qed.

Lemma fee_extraction_v2_candidates_ok config B P path pools cap tok gas fee fr sc cs c :
  fee_extraction_v2_size_candidates config B P path pools cap tok gas fee fr sc = Done cs -> c ∈ cs ->
  AmmV2.capital_fraction_bps c ∈ fr /\ candidate_ok config B P path pools cap tok gas fee sc c.
Proof.
  unfold fee_extraction_v2_size_candidates. destruct (_ || _); [intros [= <-] H; inversion H|].
  intros H Hc. destruct (push_loop_o_elem _ _ _ _ H Hc) as (bps & Hb & E).
  apply v2_candidate_inv in E as [<- E]. done.
Qed.

(** ** Native values *)

(** A zero amount is worth nothing, whatever the token's decimals and price. *)
Lemma token_amount_to_native_zero config tok g :
  token_amount_to_native_wei config tok 0 = Some g -> g = 0.
Proof.
  unfold token_amount_to_native_wei, token_amount_to_native_f64, u256_to_f64.
  destruct (token_metadata config tok) as [md|]; simpl; [|done].
  change (f64_of_Z 0) with (S754_zero false).
  generalize (fpowi 10 (mt_decimals md)) as d; intros d.
  generalize (mt_price_eth md) as pr; intros pr.
  destruct d as [[]|[]| |[] ? ?], pr as [[]|[]| |[] ? ?]; vm_compute; congruence.
Qed.

Lemma sat_sub_pos a b : sat_sub a b <> 0 -> b < a.
Proof. unfold sat_sub. lia. Qed.

Lemma candidate_ok_gain config B P path pools cap tok gas fee sc c :
  0 <= gas -> candidate_ok config B P path pools cap tok gas fee sc c ->
  AmmV2.gross_profit_wei c <> 0 /\
  exists r, v2_repayment_amount_in_profit_token B P (AmmV2.amount_in c) = Some r /\
            r < AmmV2.amount_out c.
Proof.
  intros Hg (_ & _ & _ & _ & r & R & G & N & NZ).
  assert (GZ : AmmV2.gross_profit_wei c <> 0).
  { intros E. apply NZ. rewrite N, E. destruct sc; [done|]. unfold sat_sub. lia. }
  split; [done|]. exists r. split; [done|]. apply sat_sub_pos. intros E.
  rewrite E in G. by apply GZ, (token_amount_to_native_zero config tok).
Qed.

(** ** Inverting the builders *)

Lemma rbind_ok {A B} (m : res A) (f : A -> res B) b :
  rbind m f = Done (inr b) <-> exists a, m = Done (inr a) /\ f a = Done (inr b).
Proof.
  destruct m as [[e|a]|]; simpl; split; try done; try (intros (? & ? & ?); congruence).
  intros H. by exists a.
Qed.
Lemma ok_or_ok {A} (o : option A) e a : ok_or o e = Done (inr a) <-> o = Some a.
Proof. destruct o; unfold ok_or, ok, fail; split; congruence. Qed.
Lemma of_result_ok {A} (r : string + A) a : of_result r = Done (inr a) <-> r = inr a.
Proof. unfold of_result; split; congruence. Qed.
Lemma of_outcome_ok {A} (m : outcome A) a : of_outcome m = Done (inr a) <-> m = Done a.
Proof. destruct m; unfold of_outcome, ok; split; congruence. Qed.
Lemma ok_ok {A} (a b : A) : ok a = Done (inr b) <-> a = b.
Proof. unfold ok; split; congruence. Qed.
Lemma fail_ok {A} e (a : A) : fail e = Done (inr a) <-> False.
Proof. unfold fail; split; done. Qed.

(** Take apart one statement of a builder that succeeds. *)
Ltac invert_build H :=
  repeat first
  [ progress cbv zeta in H
  | rewrite fail_ok in H; destruct H
  | rewrite ok_ok in H
  | lazymatch type of H with
    | rbind (if ?b then _ else _) _ = _ => destruct b eqn:?
    | rbind (rbind _ _) _ = _ => fail
    | rbind _ _ = _ =>
        let a := fresh "v" in let E := fresh "E" in
        apply rbind_ok in H as (a & E & H);
        rewrite ?ok_or_ok, ?of_result_ok, ?of_outcome_ok in E
    | (let '(_, _) := ?p in _) = _ => destruct p as [? ?]
    | match ?m with _ => _ end = _ => destruct m eqn:?; try discriminate H
    end ].

Section Guarantees.
Context (ln : f64 -> f64) (debug_address : Address -> string) (display_f64 : f64 -> string)
  (fmt_prec : nat -> f64 -> string) (debug_state : AmmState -> string)
  (to_json : EdgeMetadata -> option string) (parse_ether : string -> string + U256)
  (env : string -> option string) (keccak256 : Bytes -> Bytes) (abi_encode : list Token -> Bytes).

Abbreviation build_v2 := (build_fee_extraction_v2 ln debug_address display_f64 fmt_prec debug_state to_json
                        parse_ether env keccak256 abi_encode).
Abbreviation build_v3 := (build_fee_extraction_v3 ln debug_address display_f64 fmt_prec debug_state to_json
                        parse_ether env keccak256 abi_encode).
Abbreviation min_profit_of := (effective_payload_min_profit_wei display_f64 parse_ether).

(** [c] is the size the builder takes. *)
Definition v2_choice config (research : bool) x y path pools cap input fee gas_limit c : Prop :=
  exists cs, fee_extraction_v2_size_candidates config x y path pools cap (bi_token_in input)
      (payload_gas_cost config input gas_limit) fee (sizing_fractions research) (is_scavenger config)
      = Done cs /\
    (if research then select_scavenger_v2_candidate cs
     else select_best_size_candidate cs (bi_context_priority_score input)
            (bi_context_toxicity_score input)) = Some c.

Lemma v2_choice_ok config research x y path pools cap input fee gas_limit c :
  v2_choice config research x y path pools cap input fee gas_limit c ->
  AmmV2.capital_fraction_bps c ∈ sizing_fractions research /\
  candidate_ok config x y path pools cap (bi_token_in input)
    (payload_gas_cost config input gas_limit) fee (is_scavenger config) c.
Proof.
  intros (cs & E & S). eapply fee_extraction_v2_candidates_ok; [exact E|].
  destruct research; apply max_by_elem in S; [|done].
  by apply list_elem_of_filter in S as [_ S].
Qed.

Lemma payload_gas_estimate_max config g f : payload_gas_estimate config g f <= max_gas_per_tx (mev config).
Proof. unfold payload_gas_estimate. lia. Qed.

(** What a V2 payload is made of. *)
Lemma build_v2_inv config input p :
  build_v2 config input = Done (inr p) ->
  let research := payload_shadow_research_mode config in
  exists victim pool x y cap c m,
    simulate_victim_exact_in ln (bi_state_before input) (bi_token_in input) (bi_token_out input)
      (bi_victim_amount_in input) = Some victim /\
    state_after victim = UniswapV2 pool /\
    slippage_impact_bps victim <= effective_payload_price_impact_cap_bps config /\
    reserves_for pool (bi_token_out input) (bi_token_in input) = Some (x, y) /\
    v2_borrow_cap_from_native config (bi_token_out input) (bi_token_in input)
      (bi_capital_available_wei input) x y = Some cap /\
    let path := default [bi_token_out input; bi_token_in input] (bi_v2_swap_path input) in
    let pools := match bi_v2_swap_pools input with [] => [pool] | ps => ps end in
    v2_choice config research x y path pools cap input (AmmV2.fee_bps pool) (ep_gas_limit p) c /\
    AmmV2.capital_fraction_bps c ∈ sizing_fractions research /\
    candidate_ok config x y path pools cap (bi_token_in input)
      (payload_gas_cost config input (ep_gas_limit p)) (AmmV2.fee_bps pool) (is_scavenger config) c /\
    min_profit_of config = inr m /\
    ep_expected_profit_wei p = (if research then AmmV2.gross_profit_wei c else AmmV2.net_profit_wei c) /\
    (research = false -> m <= ep_expected_profit_wei p) /\
    ep_capital_committed_wei p = AmmV2.amount_in c /\
    ep_gas_limit p <= max_gas_per_tx (mev config) /\
    mev_executor (mev config) = Some (ep_target_contract p) /\
    ep_calldata p = encode_start_v2_flash_swap keccak256 abi_encode (bi_pair input)
      (bi_token_out input) (AmmV2.amount_in c) m (bi_token_in input) (bi_recipient input)
      [{| router := bi_router input; path := path; Encoder.amount_in := AmmV2.amount_in c;
          min_out := min_amount_out_of config (AmmV2.amount_out c) |}].
Proof.
  intros H research. unfold build_fee_extraction_v2 in H. invert_build H.
  all: match goal with E : (_ <? _) = false |- _ => apply Z.ltb_ge in E end.
  all: match goal with
       | V : simulate_victim_exact_in _ _ _ _ _ = Some ?v, R : reserves_for ?pool _ _ = Some (?x, ?y),
         C : v2_borrow_cap_from_native _ _ _ _ _ _ = Some ?cap,
         F : fee_extraction_v2_size_candidates _ _ _ _ _ _ _ _ _ _ _ = Done ?cs,
         S : _ = Some ?c, M : effective_payload_min_profit_wei _ _ _ = inr ?m |- _ =>
           lazymatch type of c with SizeCandidate => idtac end;
           exists v, pool, x, y, cap, c, m;
           assert (W : v2_choice config research x y
              (default [bi_token_out input; bi_token_in input] (bi_v2_swap_path input))
              match bi_v2_swap_pools input with [] => [pool] | ps => ps end cap input
              (AmmV2.fee_bps pool) (ep_gas_limit p) c) by (subst p; exists cs; split; [exact F|exact S])
       end.
  all: destruct (v2_choice_ok _ _ _ _ _ _ _ _ _ _ _ W).
  all: cbv zeta; subst p; split_and!; try done; try apply payload_gas_estimate_max.
  intros _. simpl. match goal with B : _ && _ = false |- _ => by apply Z.ltb_ge in B end.
Qed.

(** The size the V3 builder takes. *)
Definition v3_choice config (research : bool) pool input cap fee_tier gas_limit c : Prop :=
  let cs := normalized_v3_size_candidates ln config pool input cap fee_tier
              (payload_gas_cost config input gas_limit) (sizing_fractions research) in
  (if research then select_scavenger_v3_candidate cs
   else select_best_v3_candidate cs (bi_context_priority_score input)
          (bi_context_toxicity_score input)) = Some c.

Lemma v3_choice_ok config research pool input cap fee_tier gas_limit c :
  v3_choice config research pool input cap fee_tier gas_limit c ->
  (exists bps, bps ∈ sizing_fractions research /\
     normalized_v3_candidate ln config pool input cap fee_tier
       (payload_gas_cost config input gas_limit) bps = Some c) /\
  nc_edge_positive c = true /\ v3_self_slippage_bps (nc_candidate c) <= 2500 /\
  (research = false -> nc_net_profit_native_wei c <> 0).
Proof.
  unfold v3_choice; intros S.
  assert (M : c ∈ normalized_v3_size_candidates ln config pool input cap fee_tier
            (payload_gas_cost config input gas_limit) (sizing_fractions research) /\
          nc_edge_positive c = true /\ v3_self_slippage_bps (nc_candidate c) <= 2500 /\
          (research = false -> nc_net_profit_native_wei c <> 0)).
  { destruct research; apply max_by_elem, list_elem_of_filter in S as [F S]; simplify_tests; auto. }
  destruct M as [M R]. split; [|done]. unfold normalized_v3_size_candidates in M.
  destruct (cap =? 0); [inversion M|]. rewrite push_loop_omap in M.
  by apply list_elem_of_omap in M.
Qed.

Lemma v3_research_status_live config net md md' :
  v3_research_status display_f64 to_json config net md = Done (inr md') ->
  allow_send config = true -> is_scavenger config = true -> net <> 0.
Proof.
  unfold v3_research_status, payload_shadow_research_mode. intros H A S. rewrite A, S in H. simpl in H.
  destruct (Z.eqb_spec net 0); done.
Qed.

(** What a V3 payload is made of. *)
Lemma build_v3_inv config input p :
  build_v3 config input = Done (inr p) ->
  let research := payload_shadow_research_mode config in
  exists fee_tier path victim pool cap c m,
    bi_route_kind input = RouteV3 fee_tier path /\
    simulate_victim_exact_in ln (bi_state_before input) (bi_token_in input) (bi_token_out input)
      (bi_victim_amount_in input) = Some victim /\
    state_after victim = UniswapV3 pool /\ initialized_ticks pool <> [] /\
    slippage_impact_bps victim <= effective_payload_price_impact_cap_bps config /\
    native_wei_to_token_amount config (bi_token_out input) (bi_capital_available_wei input) = Some cap /\
    v3_choice config research pool input cap fee_tier (ep_gas_limit p) c /\
    (exists bps, bps ∈ sizing_fractions research /\
       normalized_v3_candidate ln config pool input cap fee_tier
         (payload_gas_cost config input (ep_gas_limit p)) bps = Some c) /\
    nc_edge_positive c = true /\ nc_gross_profit_native_wei c <> 0 /\
    v3_self_slippage_bps (nc_candidate c) <= 2500 /\
    (research = false -> nc_net_profit_native_wei c <> 0) /\
    (allow_send config = true -> is_scavenger config = true -> nc_net_profit_native_wei c <> 0) /\
    min_profit_of config = inr m /\
    ep_expected_profit_wei p =
      (if research then nc_gross_profit_native_wei c else nc_net_profit_native_wei c) /\
    (research = false -> m <= ep_expected_profit_wei p) /\
    ep_capital_committed_wei p = v3_amount_in (nc_candidate c) /\
    ep_gas_limit p <= max_gas_per_tx (mev config) /\
    (match mev_executor_v3 (mev config) with Some e => Some e | None => mev_executor (mev config) end)
      = Some (ep_target_contract p) /\
    ep_calldata p = encode_start_v3_flash_swap keccak256 abi_encode (bi_pair input)
      (bi_token_out input) (v3_amount_in (nc_candidate c)) fee_tier m (bi_token_in input)
      (bi_recipient input)
      [{| router_v3 := bi_router input; path_v3 := path; amount_in_v3 := v3_amount_in (nc_candidate c);
          min_out_v3 := min_amount_out_of config (v3_amount_out (nc_candidate c)) |}].
Proof.
  intros H research. unfold build_fee_extraction_v3 in H. invert_build H.
  all: match goal with E : (_ <? slippage_impact_bps _) = false |- _ => apply Z.ltb_ge in E end.
  all: match goal with E : (_ =? 0) = false |- _ => apply Z.eqb_neq in E end.
  all: match goal with
       | K : bi_route_kind _ = RouteV3 ?fee ?path, V : simulate_victim_exact_in _ _ _ _ _ = Some ?v,
         A : state_after _ = UniswapV3 ?pool, C : native_wei_to_token_amount _ _ _ = Some ?cap,
         S : _ = Some ?c, R : v3_research_status _ _ _ _ _ = _,
         M : effective_payload_min_profit_wei _ _ _ = inr ?m |- _ =>
           lazymatch type of c with NormalizedV3Candidate => idtac end;
           exists fee, path, v, pool, cap, c, m;
           assert (W : v3_choice config research pool input cap fee (ep_gas_limit p) c)
             by (subst p; exact S);
           pose proof (v3_research_status_live _ _ _ _ R)
       end.
  all: destruct (v3_choice_ok _ _ _ _ _ _ _ _ W) as (? & ? & ? & ?).
  all: assert (initialized_ticks pool <> []) by congruence.
  all: cbv zeta; subst p; split_and!; try done; try apply payload_gas_estimate_max.
  intros _. simpl. match goal with B : _ && _ = false |- _ => by apply Z.ltb_ge in B end.
Qed.
End Guarantees.
