(* ===== verification/PayloadProps.v ===== *)
(** * Execution payloads: properties

    The properties of route quotes, flash repayments, candidate sizes and built
    payloads, proved from [PayloadFacts]. *)
From S2P Require Import Prelude F64 Text Ethers Config AmmV2 AmmV3 Simulator Encoder Pnl Payload PayloadFacts.
#[local] Open Scope Z_scope.

(** ** Helpers *)

(** The pair's own test of a flash repayment, with its 0.3% fee. *)
Definition restores_k (B P b r : Z) : Prop :=
  B * P * 1000 ^ 2 <= (B - b) * 1000 * ((P + r) * 1000 - 3 * r).

Lemma restores_k_iff B P b r : restores_k B P b r <-> 1000 * P * b <= (B - b) * 997 * r.
Proof. unfold restores_k. split; intros; nia. Qed.

Lemma v2_repayment_k B P b r :
  is_u112 B -> 0 <= P < 2 ^ 113 -> 0 <= b ->
  v2_repayment_amount_in_profit_token B P b = Some r ->
  0 < b < B /\ 0 < P /\ 0 < r /\ restores_k B P b r /\ (forall r', restores_k B P b r' -> r <= r' + 1).
Proof.
  intros HB HP Hb H. rewrite v2_repayment_exact in H by done.
  destruct (_ || _) eqn:E; [done|]. simplify_tests. injection H as <-.
  unfold is_u112 in HB. set (n := P * b * 1000). set (d := (B - b) * 997).
  assert (0 < d) by (unfold d; lia). assert (0 <= n) by (unfold n; nia).
  pose proof (Z.div_mod n d ltac:(lia)). pose proof (Z.mod_pos_bound n d ltac:(lia)).
  assert (0 <= n / d) by (apply Z.div_pos; lia).
  split_and!; try lia.
  - apply restores_k_iff. fold d. replace (1000 * P * b) with n by (unfold n; ring). nia.
  - intros r' K%restores_k_iff. fold d in K. replace (1000 * P * b) with n in K by (unfold n; ring).
    assert (n / d <= r'); [|lia]. apply Z.div_le_upper_bound; lia.
Qed.

Lemma sizing_fractions_range research bps : bps ∈ sizing_fractions research -> 0 < bps <= 7500.
Proof.
  assert (F : Forall (fun b => 0 < b <= 7500) (sizing_fractions research))
    by (destruct research; repeat constructor; lia).
  intros H. by apply (proj1 (Forall_forall _ _) F).
Qed.

Lemma min_amount_out_le config o :
  0 <= slippage_protection_bps (mev config) -> 0 <= o -> min_amount_out_of config o <= o.
Proof.
  intros H Ho. unfold min_amount_out_of, effective_payload_slippage_bps.
  assert (S : forall s, 0 <= s -> u256_smul o (sat_sub 10000 s) / 10000 <= o).
  { intros s Hs. apply Z.div_le_upper_bound; [lia|].
    set (k := sat_sub 10000 s). assert (0 <= k <= 10000) by (unfold k, sat_sub; lia).
    unfold sat_mul. nia. }
  destruct (is_scavenger config); apply S; [unfold clampZ|]; lia.
Qed.

Lemma u256_of_fmt0_nonneg x n : u256_of_fmt0 x = Some n -> 0 <= n.
Proof.
  unfold u256_of_fmt0. destruct x as [[]|[]| |[] m e]; try done; [by intros [= <-]|].
  destruct (_ <=? _); [|done]. intros [= <-].
  assert (0 <= mag_trunc m e) by (unfold mag_trunc; case_match; auto with sat).
  unfold mag_half_even; repeat case_match; lia.
Qed.

Lemma native_wei_to_token_nonneg config tok w n :
  native_wei_to_token_amount config tok w = Some n -> 0 <= n.
Proof.
  unfold native_wei_to_token_amount, f64_to_u256_floor.
  destruct (token_metadata config tok); simpl; [|done]. destruct (_ <=? _)%f64; [done|].
  destruct (_ || _); [done|]. apply u256_of_fmt0_nonneg.
Qed.

Lemma borrow_cap_nonneg config bt pt w x y cap :
  0 <= x -> 0 <= y -> v2_borrow_cap_from_native config bt pt w x y = Some cap -> 0 <= cap.
Proof.
  intros Hx Hy. unfold v2_borrow_cap_from_native.
  destruct (native_wei_to_token_amount config bt w) eqn:E.
  { intros [= <-]. by eapply native_wei_to_token_nonneg. }
  destruct (_ || _) eqn:Z0; [done|]. simplify_tests.
  destruct (native_wei_to_token_amount config pt w) eqn:E'; simpl; [|done]. intros [= <-].
  apply native_wei_to_token_nonneg in E'. apply Z.div_pos; [|lia]. auto with sat.
Qed.

Lemma share_le cap bps : 0 <= cap -> 0 < bps <= 7500 -> 4 * (u256_smul cap bps / 10000) <= 3 * cap.
Proof.
  intros Hc Hb. assert (u256_smul cap bps / 10000 <= cap * bps / 10000)
    by (apply Z.div_le_mono; [lia|]; unfold sat_mul; lia).
  pose proof (Z.mul_div_le (cap * bps) 10000 ltac:(lia)). nia.
Qed.

(** ** Properties *)

(** C18: the amount a route is quoted is the amount its pools pay: when the
    quote is positive, swapping the input through the pools one after another,
    each with its own fee, succeeds and ends with exactly the quoted amount. *)
Theorem route_quote_is_sequential_swaps path pools a fallback o :
  Forall wf_pool pools -> Forall (fun p => AmmV2.fee_bps p <> 0) pools ->
  is_u112 a -> 0 < o ->
  quote_v2_route_exact_in a path pools fallback = Some o ->
  exists qs, swap_along a path pools = Some (qs, o) /\ length path = S (length pools).
Proof.
  unfold quote_v2_route_exact_in. intros W F Ha Ho H.
  destruct (_ || _) eqn:E; [done|]. apply orb_false_iff in E as [_ E%negb_false_iff%Nat.eqb_eq].
  destruct (route_loop_swaps fallback pools path a o W F Ha Ho H) as [qs Q].
  exists qs. split; [done|lia].
Qed.

Definition second_pool : V2PoolState :=
  {| AmmV2.pair := 8; AmmV2.token0 := 2; AmmV2.token1 := 3; reserve0 := 10000; reserve1 := 30000;
     AmmV2.fee_bps := 25 |}.

Lemma route_quote_is_sequential_swaps_witness :
  exists qs, swap_along 1000 [1; 2; 3] [example_pool; second_pool] = Some (qs, 2486) /\
             length [1; 2; 3] = 3%nat.
Proof.
  apply (route_quote_is_sequential_swaps [1; 2; 3] [example_pool; second_pool] 1000 30 2486).
  - repeat constructor; unfold is_u112; simpl; lia.
  - repeat constructor; simpl; lia.
  - unfold is_u112; lia.
  - lia.
  - vm_compute. reflexivity.
Defined.

(** C19: the repayment of a V2 flash swap restores the pair's fee-adjusted
    product, and is at most one unit above the least repayment that does; there
    is none exactly when the amount or a reserve is zero or the amount is not
    below the reserve. *)
Theorem v2_repayment_restores_invariant B P b :
  is_u112 B -> 0 <= P < 2 ^ 113 -> 0 <= b ->
  match v2_repayment_amount_in_profit_token B P b with
  | Some r => 0 < b < B /\ 0 < P /\ 0 < r /\
      B * P * 1000 ^ 2 <= (B - b) * 1000 * ((P + r) * 1000 - 3 * r) /\
      (forall r', B * P * 1000 ^ 2 <= (B - b) * 1000 * ((P + r') * 1000 - 3 * r') -> r <= r' + 1)
  | None => b = 0 \/ B = 0 \/ P = 0 \/ B <= b
  end.
Proof.
  intros HB HP Hb. destruct (v2_repayment_amount_in_profit_token B P b) as [r|] eqn:E.
  - destruct (v2_repayment_k B P b r HB HP Hb E) as (H1 & H2 & H3 & H4 & H5). split_and!; done || apply H1.
  - rewrite v2_repayment_exact in E by done. destruct (_ || _) eqn:F; [|done].
    rewrite !orb_true_iff, !Z.eqb_eq, Z.leb_le in F. tauto.
Qed.

Lemma v2_repayment_restores_invariant_witness :
  match v2_repayment_amount_in_profit_token 10000 30000 500 with
  | Some r => r = 1584 /\ 10000 * 30000 * 1000 ^ 2 <= 9500 * 1000 * ((30000 + r) * 1000 - 3 * r)
  | None => False
  end.
Proof.
  assert (E : v2_repayment_amount_in_profit_token 10000 30000 500 = Some 1584) by reflexivity.
  pose proof (v2_repayment_restores_invariant 10000 30000 500 ltac:(unfold is_u112; lia) ltac:(lia)
                ltac:(lia)) as H.
  rewrite E in H |- *. destruct H as (_ & _ & _ & K & _). split; [reflexivity|exact K].
Defined.

(** The repayment of a V3 flash swap is the amount and the pool's fee
    rounded up to the next unit, without overflow for amounts of 128 bits. *)
Theorem v3_flash_repayment_exact amount fee_tier :
  0 <= amount < 2 ^ 128 -> 0 <= fee_tier <= U32_MAX ->
  let fee := v3_flash_repayment_wei amount fee_tier - amount in
  amount * fee_tier <= fee * 1000000 /\ (forall f, amount * fee_tier <= f * 1000000 -> fee <= f).
Proof.
  intros Ha Hf fee. unfold U32_MAX in Hf.
  assert (F : fee = (amount * fee_tier + 999999) / 1000000).
  { unfold fee, v3_flash_repayment_wei. destruct (Z.eqb_spec amount 0) as [->|N]; [reflexivity|].
    assert (0 <= amount * fee_tier < 2 ^ 160) by nia.
    assert (2 ^ 161 < U256_MAX) by reflexivity.
    rewrite sat_mul_small, (sat_add_small _ (amount * fee_tier)) by lia.
    change (1000000 - 1) with 999999.
    assert ((amount * fee_tier + 999999) / 1000000 <= amount * fee_tier + 999999)
      by (apply Z.div_le_upper_bound; lia).
    rewrite sat_add_small by lia. lia. }
  rewrite F. pose proof (Z.div_mod (amount * fee_tier + 999999) 1000000 ltac:(lia)).
  pose proof (Z.mod_pos_bound (amount * fee_tier + 999999) 1000000 ltac:(lia)).
  split; [lia|]. intros f Hf'. apply Z.lt_succ_r, Z.div_lt_upper_bound; lia.
Qed.

Lemma v3_flash_repayment_exact_witness :
  1001 * 3000 <= (v3_flash_repayment_wei 1001 3000 - 1001) * 1000000.
Proof. apply (v3_flash_repayment_exact 1001 3000); unfold U32_MAX; lia. Defined.

(** C20: sizing a V2 payload panics exactly when some share of the cap is
    positive and below the reserve, has a route and a repayment above zero, a
    net profit above zero, and a repayment worth less than one wei: the guard
    tests the repayment in tokens, the division is by its native value. *)
Theorem fee_extraction_v2_panics_iff config B P path pools cap tok gas fee fractions sc :
  fee_extraction_v2_size_candidates config B P path pools cap tok gas fee fractions sc = Panicked <->
  cap <> 0 /\ B <> 0 /\ P <> 0 /\
  exists bps, bps ∈ fractions /\
    let a := u256_smul cap bps / 10000 in
    a <> 0 /\ a < B /\
    exists o r g,
      quote_v2_route_exact_in a path pools fee = Some o /\
      v2_repayment_amount_in_profit_token B P a = Some r /\ r <> 0 /\
      token_amount_to_native_wei config tok (sat_sub o r) = Some g /\
      (if sc then g else sat_sub g gas) <> 0 /\
      token_amount_to_native_wei config tok r = Some 0.
Proof.
  unfold fee_extraction_v2_size_candidates. split.
  - destruct (_ || _) eqn:E; [done|]. simplify_tests.
    intros (bps & M & K)%push_loop_o_panics. apply v2_candidate_panics in K. eauto 6.
  - intros (C & X & Y & bps & M & K).
    apply Z.eqb_neq in C as ->. apply Z.eqb_neq in X as ->. apply Z.eqb_neq in Y as ->. simpl.
    apply push_loop_o_panics. exists bps. split; [done|]. by apply v2_candidate_panics.
Qed.

(** A pool and a token for which it does. *)
Definition cheap_token : MonitoredTokenConfig :=
  {| mt_address := 1; mt_decimals := 18; mt_price_eth := 0.4 |}.
Definition rich_pool : V2PoolState :=
  {| AmmV2.pair := 8; AmmV2.token0 := 1; AmmV2.token1 := 2; reserve0 := 100000; reserve1 := 10000;
     AmmV2.fee_bps := 30 |}.
Example fee_extraction_v2_panics :
  fee_extraction_v2_size_candidates (sample_config Scavenger true [cheap_token]) 1000000 1000 [2; 1]
    [rich_pool] 40000 1 0 30 (sizing_fractions true) true = Panicked.
Proof. vm_compute. reflexivity. Qed.

(** A request about a pair that accepts the victim's swap: amounts and reserves
    of 112 bits, pools with their own fee. *)
Record wf_request (config : Config) (p0 : V2PoolState) (input : FeeExtractionBuildInput) : Prop := {
  wr_state : bi_state_before input = UniswapV2 p0;
  wr_pool : wf_pool p0;
  wr_fee : AmmV2.fee_bps p0 <> 0;
  wr_victim : is_u112 (bi_victim_amount_in input);
  wr_fits : forall x y, reserves_for p0 (bi_token_in input) (bi_token_out input) = Some (x, y) ->
              is_u112 (x + bi_victim_amount_in input);
  wr_pools : Forall wf_pool (bi_v2_swap_pools input);
  wr_fees : Forall (fun q => AmmV2.fee_bps q <> 0) (bi_v2_swap_pools input);
  wr_gas_price : 0 <= bi_gas_price_wei input;
  wr_gas_margin : 0 <= gas_safety_margin_bps (mev config);
  wr_slippage : 0 <= slippage_protection_bps (mev config) }.

Lemma payload_gas_cost_nonneg config input g :
  0 <= bi_gas_price_wei input -> 0 <= g -> 0 <= gas_safety_margin_bps (mev config) ->
  0 <= payload_gas_cost config input g.
Proof. intros. unfold payload_gas_cost. apply Z.div_pos; [auto 6 with sat|lia]. Qed.

(** The pair after the victim, read in the direction of the payload. *)
Lemma after_victim config p0 input ln victim pool x y :
  wf_request config p0 input ->
  simulate_victim_exact_in ln (bi_state_before input) (bi_token_in input) (bi_token_out input)
    (bi_victim_amount_in input) = Some victim ->
  state_after victim = UniswapV2 pool ->
  reserves_for pool (bi_token_out input) (bi_token_in input) = Some (x, y) ->
  wf_pool pool /\ AmmV2.fee_bps pool <> 0 /\ is_u112 x /\ is_u112 y.
Proof.
  intros [-> W F V Fit _ _ _ _ _] S A R. simpl in S.
  destruct (AmmV2.apply_swap_exact_in p0 _ _ _) as [[q r]|] eqn:Q; simpl in S; [|done].
  injection S as <-. injection A as <-.
  destruct (apply_swap_inv _ _ _ _ _ _ W V Q)
    as (x0 & y0 & R0 & HA & _ & _ & _ & _ & O & _ & _ & T0 & T1 & FE & R1).
  specialize (Fit x0 y0 R0).
  assert (Hr : is_u112 (x0 + bi_victim_amount_in input) /\ is_u112 (y0 - sr_amount_out r)).
  { apply reserves_for_Some in R0. destruct W. unfold is_u112 in *. intuition (subst; lia). }
  destruct W as [W0 W1 Wf Wt].
  apply reserves_for_Some in R1, R. rewrite T0, T1 in *. rewrite FE.
  split_and!; [split; rewrite ?T0, ?T1, ?FE; auto|done|..]; intuition (subst; auto; congruence).
Qed.

Lemma token_native_wei_nonneg config tok a n : token_amount_to_native_wei config tok a = Some n -> 0 <= n.
Proof.
  unfold token_amount_to_native_wei, f64_to_u256_floor.
  destruct (token_amount_to_native_f64 config tok a); simpl; [|done].
  destruct (_ || _); [done|]. apply u256_of_fmt0_nonneg.
Qed.

Lemma candidate_ok_profit config B P path pools cap tok gas fee sc c :
  0 <= gas -> candidate_ok config B P path pools cap tok gas fee sc c ->
  0 < AmmV2.net_profit_wei c /\ 0 < AmmV2.gross_profit_wei c.
Proof.
  intros Hg (_ & _ & _ & _ & r & _ & G & N & NZ). apply token_native_wei_nonneg in G.
  rewrite N in *. destruct sc; unfold sat_sub in *; lia.
Qed.

Lemma candidate_ok_share config B P path pools cap tok gas fee sc c :
  is_u112 B -> 0 <= cap -> 0 < AmmV2.capital_fraction_bps c <= 7500 ->
  candidate_ok config B P path pools cap tok gas fee sc c ->
  0 < AmmV2.amount_in c < B /\ 4 * AmmV2.amount_in c <= 3 * cap.
Proof.
  intros HB Hc Hb (A & N & L & _). rewrite A in *. pose proof (share_le _ _ Hc Hb).
  assert (0 <= u256_smul cap (AmmV2.capital_fraction_bps c) / 10000)
    by (apply Z.div_pos; [|lia]; apply sat_mul_nonneg; unfold U256_MAX; lia).
  lia.
Qed.

(** C1: a V2 payload that is built pays for itself: it borrows a positive amount
    below the reserve and at most three quarters of the available capital;
    swapping it along the route pays more than a repayment that restores the
    pair's product; the expected profit is positive and, for a live payload, at
    least the configured minimum; the gas stays within the limit, the victim's
    impact within its cap, the call goes to the configured executor and its
    minimum output is one the route can pay. *)
Theorem build_fee_extraction_v2_pays ln da df fp ds tj pe env keccak enc config p0 input p :
  wf_request config p0 input -> 0 <= ep_gas_limit p ->
  build_fee_extraction_v2 ln da df fp ds tj pe env keccak enc config input = Done (inr p) ->
  let b := ep_capital_committed_wei p in
  exists victim pool x y cap m o r qs min_out,
    simulate_victim_exact_in ln (bi_state_before input) (bi_token_in input) (bi_token_out input)
      (bi_victim_amount_in input) = Some victim /\
    state_after victim = UniswapV2 pool /\
    slippage_impact_bps victim <= effective_payload_price_impact_cap_bps config /\
    reserves_for pool (bi_token_out input) (bi_token_in input) = Some (x, y) /\
    v2_borrow_cap_from_native config (bi_token_out input) (bi_token_in input)
      (bi_capital_available_wei input) x y = Some cap /\
    0 < b < x /\ 4 * b <= 3 * cap /\
    let path := default [bi_token_out input; bi_token_in input] (bi_v2_swap_path input) in
    let pools := match bi_v2_swap_pools input with [] => [pool] | ps => ps end in
    swap_along b path pools = Some (qs, o) /\
    x * y * 1000 ^ 2 <= (x - b) * 1000 * ((y + r) * 1000 - 3 * r) /\ 0 < r < o /\
    0 < ep_expected_profit_wei p /\
    effective_payload_min_profit_wei df pe config = inr m /\
    (payload_shadow_research_mode config = false -> m <= ep_expected_profit_wei p) /\
    ep_gas_limit p <= max_gas_per_tx (mev config) /\
    mev_executor (mev config) = Some (ep_target_contract p) /\ min_out <= o /\
    ep_calldata p = encode_start_v2_flash_swap keccak enc (bi_pair input) (bi_token_out input) b m
      (bi_token_in input) (bi_recipient input)
      [{| router := bi_router input; path := path; Encoder.amount_in := b; min_out := min_out |}].
Proof.
  intros W G H b. pose proof W as [_ _ _ _ _ Wps Wfs Wg Wm Ws].
  destruct (build_v2_inv _ _ _ _ _ _ _ _ _ _ _ _ _ H)
    as (victim & pool & x & y & cap & c & m & S & A & I & R & C & _ & Fr & OK & M & EP & L & CC & GL & EX & CD).
  destruct (after_victim _ _ _ _ _ _ _ _ W S A R) as (Wp & Fp & Hx & Hy).
  assert (Hcap : 0 <= cap) by (eapply borrow_cap_nonneg; [| |exact C]; unfold is_u112 in *; lia).
  pose proof (payload_gas_cost_nonneg config input (ep_gas_limit p) Wg G Wm) as Hg.
  destruct (candidate_ok_share _ _ _ _ _ _ _ _ _ _ _ Hx Hcap (sizing_fractions_range _ _ Fr) OK) as [Hb Hs].
  destruct (candidate_ok_profit _ _ _ _ _ _ _ _ _ _ _ Hg OK) as [Np Gp].
  destruct (candidate_ok_gain _ _ _ _ _ _ _ _ _ _ _ Hg OK) as (_ & r & Rp & Ro).
  assert (Hy' : 0 <= y < 2 ^ 113) by (unfold is_u112 in Hy; lia).
  assert (Hb0 : 0 <= AmmV2.amount_in c) by lia.
  destruct (v2_repayment_k _ _ _ _ Hx Hy' Hb0 Rp) as (_ & _ & Rpos & K & _).
  destruct OK as (_ & _ & _ & Q & _).
  unfold quote_v2_route_exact_in in Q. destruct (_ || _); [done|].
  apply route_loop_swaps in Q as [qs Q]; [| | |unfold is_u112 in *; lia|lia].
  2: destruct (bi_v2_swap_pools input); [by apply Forall_singleton|done].
  2: destruct (bi_v2_swap_pools input); [by apply Forall_singleton|done].
  unfold b. rewrite CC.
  exists victim, pool, x, y, cap, m, (AmmV2.amount_out c), r, qs, (min_amount_out_of config (AmmV2.amount_out c)).
  split_and!; try done; try lia.
  - rewrite EP. by case_match.
  - apply min_amount_out_le; lia.
Qed.

Definition token (a : Address) (price : f64) : MonitoredTokenConfig :=
  {| mt_address := a; mt_decimals := 18; mt_price_eth := price |}.
Definition eth (n : Z) : U256 := n * 10 ^ 18.

Definition sample_pair : V2PoolState :=
  {| AmmV2.pair := 7; AmmV2.token0 := 1; AmmV2.token1 := 2; reserve0 := eth 1000; reserve1 := eth 1000;
     AmmV2.fee_bps := 30 |}.
Definition sample_route_pool : V2PoolState :=
  {| AmmV2.pair := 8; AmmV2.token0 := 2; AmmV2.token1 := 1; reserve0 := eth 1000; reserve1 := eth 1100;
     AmmV2.fee_bps := 30 |}.
Definition sample_request : FeeExtractionBuildInput :=
  {| bi_router := 31; bi_factory := None; bi_pair := 7; bi_recipient := 32; bi_token_in := 1;
     bi_token_out := 2; bi_victim_amount_in := eth 5; bi_state_before := UniswapV2 sample_pair;
     bi_capital_available_wei := eth 10; bi_gas_price_wei := 1000000000;
     bi_context_priority_score := 0.5; bi_context_toxicity_score := 0.1; bi_route_kind := RouteV2;
     bi_v2_swap_path := None; bi_v2_swap_pools := [sample_route_pool] |}.
Definition live_config : Config := sample_config Conservative true [token 1 1.0; token 2 1.0].

Definition sample_build_v2 (config : Config) (input : FeeExtractionBuildInput) : res ExecutionPayload :=
  build_fee_extraction_v2 (fun x => x) (fun _ => ""%string) (fun _ => ""%string) (fun _ _ => ""%string)
    (fun _ => ""%string) (fun _ => None) (fun _ => inr (10 ^ 15)) (fun _ => None)
    (fun _ => replicate 32 7) tree_encode config input.

Lemma sample_request_wf : wf_request live_config sample_pair sample_request.
Proof.
  assert (P : forall q, q = sample_pair \/ q = sample_route_pool -> wf_pool q /\ AmmV2.fee_bps q <> 0).
  { intros q [-> | ->]; (split; [split|]); unfold is_u112; vm_compute; intuition congruence. }
  split.
  - reflexivity.
  - apply P; auto.
  - apply P; auto.
  - unfold is_u112; vm_compute; intuition congruence.
  - intros x y H. vm_compute in H. injection H as <- <-. unfold is_u112; vm_compute; intuition congruence.
  - apply Forall_singleton, P; auto.
  - apply Forall_singleton, P; auto.
  - vm_compute; congruence.
  - vm_compute; congruence.
  - vm_compute; congruence.
Qed.

Lemma build_fee_extraction_v2_pays_witness :
  match sample_build_v2 live_config sample_request with
  | Done (inr p) => 0 < ep_capital_committed_wei p /\ 0 < ep_expected_profit_wei p
  | _ => False
  end.
Proof.
  assert (S : match sample_build_v2 live_config sample_request with
              | Done (inr p) => (0 <=? ep_gas_limit p) = true | _ => False end)
    by (vm_compute; reflexivity).
  destruct (sample_build_v2 live_config sample_request) as [[e|p]|] eqn:E; [done| |done].
  apply Z.leb_le in S as G. unfold sample_build_v2 in E.
  destruct (build_fee_extraction_v2_pays _ _ _ _ _ _ _ _ _ _ _ _ _ p sample_request_wf G E)
    as (v & q & x & y & cap & m & o & r & qs & mo & _ & _ & _ & _ & _ & B & _ & _ & _ & _ & P & _).
  split; [exact (proj1 B)|exact P].
Defined.

(** The arithmetic of one V3 candidate. *)
Lemma normalized_v3_candidate_inv ln config pool input cap fee_tier gas bps c :
  0 <= gas -> normalized_v3_candidate ln config pool input cap fee_tier gas bps = Some c ->
  nc_edge_positive c = true -> nc_gross_profit_native_wei c <> 0 ->
  let a := v3_amount_in (nc_candidate c) in
  a = u256_smul cap bps / 10000 /\ a <> 0 /\
  exists next result out rep,
    AmmV3.simulate_exact_in ln pool (bi_token_out input) (bi_token_in input) a = Some (next, result) /\
    v3_amount_out (nc_candidate c) = AmmV3.amount_out result /\
    token_amount_to_native_wei config (bi_token_in input) (AmmV3.amount_out result) = Some out /\
    token_amount_to_native_wei config (bi_token_out input) (v3_flash_repayment_wei a fee_tier) = Some rep /\
    rep < out /\ nc_gross_profit_native_wei c = out - rep /\
    nc_net_profit_native_wei c = Z.max (out - rep - gas) 0.
Proof.
  intros Hg. unfold normalized_v3_candidate. set (a := u256_smul cap bps / 10000).
  destruct (Z.eqb_spec a 0); [done|].
  destruct (simulate_exact_in ln pool (bi_token_out input) (bi_token_in input) a) as [[nx rs]|] eqn:S;
    simpl; [|done].
  destruct (token_amount_to_native_wei config (bi_token_in input) (AmmV3.amount_out rs)) as [o|] eqn:O;
    simpl; [|done].
  destruct (token_amount_to_native_wei config (bi_token_out input) (v3_flash_repayment_wei a fee_tier))
    as [r|] eqn:R; simpl; [|done].
  destruct (Z.leb_spec r o); intros [= <-]; simpl; intros P G; [|done].
  split_and!; try done. exists nx, rs, o, r. unfold sat_sub in *. split_and!; done || lia.
Qed.

(** C2: a V3 payload that is built pays for itself: its pool has initialized
    ticks, it borrows a positive amount of at most three quarters of the
    available capital, and swapping it on the pool after the victim is worth
    more than repaying it with the pool's fee; a live payload is expected to
    earn the configured minimum after gas, and a scavenger's payload is never
    sent live unless it earns more than its gas. *)
Theorem build_fee_extraction_v3_pays ln da df fp ds tj pe env keccak enc config input p :
  0 <= bi_gas_price_wei input -> 0 <= gas_safety_margin_bps (mev config) -> 0 <= ep_gas_limit p ->
  build_fee_extraction_v3 ln da df fp ds tj pe env keccak enc config input = Done (inr p) ->
  let b := ep_capital_committed_wei p in
  let research := payload_shadow_research_mode config in
  exists fee_tier path victim pool cap m next result out rep,
    bi_route_kind input = RouteV3 fee_tier path /\
    simulate_victim_exact_in ln (bi_state_before input) (bi_token_in input) (bi_token_out input)
      (bi_victim_amount_in input) = Some victim /\
    state_after victim = UniswapV3 pool /\ initialized_ticks pool <> [] /\
    slippage_impact_bps victim <= effective_payload_price_impact_cap_bps config /\
    native_wei_to_token_amount config (bi_token_out input) (bi_capital_available_wei input) = Some cap /\
    0 < b /\ 4 * b <= 3 * cap /\
    AmmV3.simulate_exact_in ln pool (bi_token_out input) (bi_token_in input) b = Some (next, result) /\
    token_amount_to_native_wei config (bi_token_in input) (AmmV3.amount_out result) = Some out /\
    token_amount_to_native_wei config (bi_token_out input) (v3_flash_repayment_wei b fee_tier) = Some rep /\
    rep < out /\
    let net := out - rep - payload_gas_cost config input (ep_gas_limit p) in
    ep_expected_profit_wei p = (if research then out - rep else net) /\
    effective_payload_min_profit_wei df pe config = inr m /\
    (research = false -> 0 < net /\ m <= net) /\
    (allow_send config = true -> is_scavenger config = true -> 0 < net) /\
    ep_gas_limit p <= max_gas_per_tx (mev config) /\
    (match mev_executor_v3 (mev config) with Some e => Some e | None => mev_executor (mev config) end)
      = Some (ep_target_contract p) /\
    ep_calldata p = encode_start_v3_flash_swap keccak enc (bi_pair input) (bi_token_out input) b fee_tier m
      (bi_token_in input) (bi_recipient input)
      [{| router_v3 := bi_router input; path_v3 := path; amount_in_v3 := b;
          min_out_v3 := min_amount_out_of config (AmmV3.amount_out result) |}].
Proof.
  intros Wg Wm G H b research.
  destruct (build_v3_inv _ _ _ _ _ _ _ _ _ _ _ _ _ H)
    as (fee & path & victim & pool & cap & c & m & K & S & A & T & I & C & _ & (bps & Fr & N) & E & GZ & _ &
        NZ & SL & M & EP & L & CC & GL & EX & CD).
  pose proof (payload_gas_cost_nonneg config input (ep_gas_limit p) Wg G Wm) as Hg.
  destruct (normalized_v3_candidate_inv _ _ _ _ _ _ _ _ _ Hg N E GZ)
    as (Ha & Hz & next & result & out & rep & Sim & AO & O & R & LT & Gr & Nt).
  pose proof (native_wei_to_token_nonneg _ _ _ _ C) as Hcap.
  pose proof (sizing_fractions_range _ _ Fr) as Hbps.
  pose proof (share_le _ _ Hcap Hbps) as Hs. rewrite <- Ha in Hs.
  assert (0 <= v3_amount_in (nc_candidate c))
    by (rewrite Ha; apply Z.div_pos; [|lia]; apply sat_mul_nonneg; unfold U256_MAX; lia).
  unfold b. rewrite CC in *.
  assert (Hlive : research = false -> 0 < out - rep - payload_gas_cost config input (ep_gas_limit p) /\
     m <= out - rep - payload_gas_cost config input (ep_gas_limit p)).
  { intros Re. specialize (NZ Re). specialize (L Re). fold research in EP. rewrite Re in EP. lia. }
  exists fee, path, victim, pool, cap, m, next, result, out, rep.
  split_and!; try done; try lia.
  - fold research in EP. destruct research; [lia|]. destruct (Hlive eq_refl). lia.
  - intros AS SC. specialize (SL AS SC). lia.
  - by rewrite <- AO.
Qed.

Definition sample_v3_pool : V3PoolState :=
  {| AmmV3.pool := 9; AmmV3.token0 := 1; AmmV3.token1 := 2; sqrt_price_x96 := 2 ^ 96;
     liquidity := eth 1000; current_tick := 0; AmmV3.fee_bps := 30;
     initialized_ticks := [{| AmmV3.index := 6000; liquidity_net := 0 |}] |}.
Definition sample_v3_request : FeeExtractionBuildInput :=
  {| bi_router := 31; bi_factory := None; bi_pair := 9; bi_recipient := 32; bi_token_in := 1;
     bi_token_out := 2; bi_victim_amount_in := eth 5; bi_state_before := UniswapV3 sample_v3_pool;
     bi_capital_available_wei := eth 10; bi_gas_price_wei := 1000000000;
     bi_context_priority_score := 0.5; bi_context_toxicity_score := 0.1;
     bi_route_kind := RouteV3 3000 [1; 2; 3]; bi_v2_swap_path := None; bi_v2_swap_pools := [] |}.
Definition v3_config : Config := sample_config Conservative true [token 1 1.2; token 2 1.0].

Definition sample_build_v3 (config : Config) (input : FeeExtractionBuildInput) : res ExecutionPayload :=
  build_fee_extraction_v3 (fun x => (x - 1)%f64) (fun _ => ""%string) (fun _ => ""%string)
    (fun _ _ => ""%string) (fun _ => ""%string) (fun _ => None) (fun _ => inr (10 ^ 15)) (fun _ => None)
    (fun _ => replicate 32 7) tree_encode config input.

Lemma build_fee_extraction_v3_pays_witness :
  match sample_build_v3 v3_config sample_v3_request with
  | Done (inr p) => 0 < ep_capital_committed_wei p /\ ep_gas_limit p <= 500000
  | _ => False
  end.
Proof.
  assert (S : match sample_build_v3 v3_config sample_v3_request with
              | Done (inr p) => (0 <=? ep_gas_limit p) = true | _ => False end)
    by (vm_compute; reflexivity).
  destruct (sample_build_v3 v3_config sample_v3_request) as [[e|p]|] eqn:E; [done| |done].
  apply Z.leb_le in S as G. unfold sample_build_v3 in E.
  destruct (build_fee_extraction_v3_pays _ _ _ _ _ _ _ _ _ _ v3_config sample_v3_request p
              ltac:(vm_compute; congruence) ltac:(vm_compute; congruence) G E)
    as (fee & pa & v & q & cap & m & nx & rs & o & r & _ & _ & _ & _ & _ & _ & B & _ & _ & _ & _ & _ &
        _ & _ & _ & _ & GL & _).
  split; [exact B|exact GL].
Defined.
