(* ===== verification/Opportunity.v ===== *)
(** * Opportunities ([mev/opportunity.rs], and the cluster key of
      [mev/adaptive.rs])

    What the runtime hands to the executor: the victim, the payload built for
    it and the route it was decoded from. *)
From S2P Require Import Prelude F64 Text Ethers Payload.
#[local] Open Scope Z_scope.

(** Opportunities of one kind: a router, a pair of tokens, a selector. *)
Record ClusterKey := {
  ck_router : Address;
  ck_token_in : Address;
  ck_token_out : Address;
  ck_selector : Bytes }.
#[export] Instance ClusterKey_eq_dec : EqDecision ClusterKey.
Proof. solve_decision. Defined.
#[export] Instance ClusterKey_countable : Countable ClusterKey :=
  inj_countable' (fun k => (ck_router k, ck_token_in k, ck_token_out k, ck_selector k))
    (fun '(r, i, o, s) => {| ck_router := r; ck_token_in := i; ck_token_out := o; ck_selector := s |})
    (fun k => match k with Build_ClusterKey _ _ _ _ => eq_refl end).

Record MevOpportunity := {
  detected_at : Instant;
  victim_tx : H256;
  victim_transaction : option Transaction;
  execution_payload : option ExecutionPayload;
  op_router : Address;
  op_token_in : Address;
  op_token_out : Address;
  op_selector : Bytes;
  decode_source : string;
  decode_confidence : f64;
  preferred_relay : option string }.

Definition age_ms (now : Instant) (self : MevOpportunity) : Z := elapsed_ms now (detected_at self).

Definition cluster_of (o : MevOpportunity) : ClusterKey :=
  {| ck_router := op_router o; ck_token_in := op_token_in o; ck_token_out := op_token_out o;
     ck_selector := op_selector o |}.
