(* ===== verification/Budget.v ===== *)
(** * The capital budget ([CapitalBudget] of [mev/execution/executor.rs])

    Capital committed by the payloads of the current window, in total, by
    cluster and by pair. The theorems relate the pruned queue of the code to a
    ledger that never forgets a reservation before its release. *)
From S2P Require Import Prelude F64 Ethers Config Opportunity.
#[local] Open Scope Z_scope.

Record BudgetReservation := {
  reserved_at : Instant;
  br_cluster : ClusterKey;
  br_pair : Address;
  br_victim_tx : H256;
  capital_eth : f64 }.

Record CapitalBudget := { reservations : list BudgetReservation }.

Record BudgetDecision := {
  allowed : bool;
  reject_reason : string;
  bd_capital_eth : f64;
  total_window_eth : f64;
  cluster_window_eth : f64;
  pair_window_eth : f64 }.

Definition CapitalBudget_new : CapitalBudget := {| reservations := [] |}.

Definition expired (now : Instant) (window_secs : u64) (entry : BudgetReservation) : bool :=
  window_secs <? elapsed_secs now (reserved_at entry).

(** The [while] loop pops the front as long as it has left the window. *)
Definition prune_queue (now : Instant) (window_secs : u64) (q : list BudgetReservation)
  : list BudgetReservation := drop_while (expired now window_secs) q.
Definition prune (now : Instant) (window_secs : u64) (self : CapitalBudget) : CapitalBudget :=
  {| reservations := prune_queue now window_secs (reservations self) |}.

(** The sum of the capitals of the reservations a test selects, in order. *)
Definition window_sum (sel : BudgetReservation -> bool) (q : list BudgetReservation) : f64 :=
  foldl (fun acc r => if sel r then (acc + capital_eth r)%f64 else acc) 0.0%f64 q.

Definition same_cluster (cluster : ClusterKey) (r : BudgetReservation) : bool :=
  bool_decide (br_cluster r = cluster).
Definition same_pair (p : Address) (r : BudgetReservation) : bool := br_pair r =? p.

Definition limit_exceeded (config : MevConfig) (total_after cluster_after pair_after : f64) : option string :=
  if (max_window_exposure_eth config <? total_after)%f64 then Some "window_exposure_limit"%string
  else if (max_cluster_window_exposure_eth config <? cluster_after)%f64 then
    Some "cluster_window_limit"%string
  else if (max_pair_window_exposure_eth config <? pair_after)%f64 then Some "pair_window_limit"%string
  else None.

Definition check_and_reserve (now : Instant) (self : CapitalBudget) (capital : f64) (cluster : ClusterKey)
    (pair : Address) (victim : H256) (config : MevConfig) : CapitalBudget * BudgetDecision :=
  let self := prune now (capital_window_secs config) self in
  let q := reservations self in
  let total_after := (window_sum (fun _ => true) q + capital)%f64 in
  let cluster_after := (window_sum (same_cluster cluster) q + capital)%f64 in
  let pair_after := (window_sum (same_pair pair) q + capital)%f64 in
  let reason := limit_exceeded config total_after cluster_after pair_after in
  let self :=
    match reason with
    | None => {| reservations := q ++ [{| reserved_at := now; br_cluster := cluster; br_pair := pair;
                                          br_victim_tx := victim; capital_eth := capital |}] |}
    | Some _ => self
    end in
  (self, {| allowed := bool_decide (reason = None); reject_reason := default "allowed"%string reason;
            bd_capital_eth := capital; total_window_eth := total_after;
            cluster_window_eth := cluster_after; pair_window_eth := pair_after |}).

Definition release (self : CapitalBudget) (victim : H256) : CapitalBudget :=
  {| reservations := filter (fun r => br_victim_tx r <> victim) (reservations self) |}.

(** ** Traces of operations *)

Inductive budget_op :=
| Check_ (capital : f64) (cluster : ClusterKey) (pair : Address) (victim : H256)
| Release_ (victim : H256).

(** The budget after a trace of operations and the decisions it took. *)
Fixpoint run (config : MevConfig) (b : CapitalBudget) (tr : list (Instant * budget_op))
  : CapitalBudget * list BudgetDecision :=
  match tr with
  | [] => (b, [])
  | (now, Check_ c k p v) :: tr =>
      let '(b, d) := check_and_reserve now b c k p v config in
      let '(b, ds) := run config b tr in (b, d :: ds)
  | (now, Release_ v) :: tr => run config (release b v) tr
  end.

(** The clock never goes back. *)
Fixpoint monotone (from : Instant) (tr : list (Instant * budget_op)) : Prop :=
  match tr with
  | [] => True
  | (now, _) :: tr => from <= now /\ monotone now tr
  end.

(** ** The ledger: reservations are forgotten by their release only *)

Definition live (now : Instant) (window_secs : u64) (ledger : list BudgetReservation)
  : list BudgetReservation :=
  filter (fun r => expired now window_secs r = false) ledger.

Definition ledger_check (now : Instant) (ledger : list BudgetReservation) (capital : f64)
    (cluster : ClusterKey) (pair : Address) (victim : H256) (config : MevConfig)
  : list BudgetReservation * BudgetDecision :=
  let q := live now (capital_window_secs config) ledger in
  let total_after := (window_sum (fun _ => true) q + capital)%f64 in
  let cluster_after := (window_sum (same_cluster cluster) q + capital)%f64 in
  let pair_after := (window_sum (same_pair pair) q + capital)%f64 in
  let reason := limit_exceeded config total_after cluster_after pair_after in
  (if bool_decide (reason = None) then
     ledger ++ [{| reserved_at := now; br_cluster := cluster; br_pair := pair; br_victim_tx := victim;
                   capital_eth := capital |}]
   else ledger,
   {| allowed := bool_decide (reason = None); reject_reason := default "allowed"%string reason;
      bd_capital_eth := capital; total_window_eth := total_after;
      cluster_window_eth := cluster_after; pair_window_eth := pair_after |}).

Fixpoint run_ledger (config : MevConfig) (ledger : list BudgetReservation) (tr : list (Instant * budget_op))
  : list BudgetReservation * list BudgetDecision :=
  match tr with
  | [] => (ledger, [])
  | (now, Check_ c k p v) :: tr =>
      let '(l, d) := ledger_check now ledger c k p v config in
      let '(l, ds) := run_ledger config l tr in (l, d :: ds)
  | (now, Release_ v) :: tr => run_ledger config (filter (fun r => br_victim_tx r <> v) ledger) tr
  end.

(** The time of the last check of a trace. *)
Fixpoint last_check (since : Instant) (tr : list (Instant * budget_op)) : Instant :=
  match tr with
  | [] => since
  | (now, Check_ _ _ _ _) :: tr => last_check now tr
  | (_, Release_ _) :: tr => last_check since tr
  end.

(** The queue holds what was in the window at the time [t] of the last check; no
    reservation is later than [now]. *)
Definition represents (t now : Instant) (w : u64) (b : CapitalBudget) (ledger : list BudgetReservation) : Prop :=
  ordered reserved_at ledger /\ Forall (fun r => reserved_at r <= now) ledger /\
  t <= now /\ reservations b = live t w ledger.

Lemma expired_mono now now' w r : now <= now' -> expired now w r = true -> expired now' w r = true.
Proof.
  unfold expired, elapsed_secs, elapsed, secs; rewrite !Z.ltb_lt; intros H E.
  eapply Z.lt_le_trans; [exact E|]. apply Z.div_le_mono; lia.
Qed.

Lemma expired_earlier now w r r' :
  reserved_at r <= reserved_at r' -> expired now w r = false -> expired now w r' = false.
Proof.
  unfold expired, elapsed_secs, elapsed, secs; rewrite !Z.ltb_ge; intros H E.
  eapply Z.le_trans; [|exact E]. apply Z.div_le_mono; lia.
Qed.

(** On an ordered queue, popping the front forgets what a filter would. *)
Lemma prune_queue_filter now w q : ordered reserved_at q -> prune_queue now w q = live now w q.
Proof. apply drop_while_filter. intros x y. apply expired_earlier. Qed.

(** Reservations that have expired stay expired. *)
Lemma live_live t now w q : t <= now -> live now w (live t w q) = live now w q.
Proof.
  intros H. unfold live. rewrite list_filter_filter. apply list_filter_iff.
  intros r. split; [tauto|]. intros E. split; [done|].
  destruct (expired t w r) eqn:X; [|done]. by rewrite (expired_mono t now w r H X) in E.
Qed.

Lemma represents_prune t now now' w b ledger :
  represents t now w b ledger -> now <= now' ->
  reservations (prune now' w b) = live now' w ledger.
Proof.
  intros (O & _ & Ht & E) H. unfold prune; simpl. rewrite E.
  rewrite prune_queue_filter by (by apply ordered_filter). apply live_live. lia.
Qed.

Lemma live_now now w r : reserved_at r = now -> 0 <= w -> expired now w r = false.
Proof.
  intros <- H. unfold expired, elapsed_secs, elapsed. rewrite Z.sub_diag. apply Z.ltb_ge. simpl.
  by rewrite Z.div_0_l.
Qed.

Lemma check_represents t now now' config b ledger c k p v :
  0 <= capital_window_secs config ->
  represents t now (capital_window_secs config) b ledger -> now <= now' ->
  let '(b', d) := check_and_reserve now' b c k p v config in
  let '(l', d') := ledger_check now' ledger c k p v config in
  d = d' /\ represents now' now' (capital_window_secs config) b' l'.
Proof.
  intros W R H. unfold check_and_reserve, ledger_check.
  pose proof (represents_prune t now now' _ b ledger R H) as P. rewrite P.
  destruct R as (O & F & _).
  assert (F' : Forall (fun r => reserved_at r <= now') ledger)
    by (eapply Forall_impl; [exact F|]; simpl; lia).
  destruct (limit_exceeded _ _ _ _) as [e|] eqn:L; simpl; (split; [done|]).
  - by split_and!.
  - split; [by apply ordered_app|].
    split; [apply Forall_app; split; [done|]; by apply Forall_singleton|].
    split; [lia|]. simpl. unfold live. rewrite filter_app. f_equal.
    rewrite filter_cons_True; [done|]. by apply live_now.
Qed.

Lemma release_represents t now w b ledger v :
  represents t now w b ledger ->
  represents t now w (release b v) (filter (fun r => br_victim_tx r <> v) ledger).
Proof.
  intros (O & F & Ht & E). split; [by apply ordered_filter|]. split; [by apply Forall_filter_keep|].
  split; [done|]. simpl. rewrite E. unfold live. rewrite !list_filter_filter.
  apply list_filter_iff. tauto.
Qed.

Lemma represents_later t now now' w b ledger :
  now <= now' -> represents t now w b ledger -> represents t now' w b ledger.
Proof.
  intros H (O & F & Ht & E). split_and!; [done|eapply Forall_impl; [exact F|]; simpl; lia|lia|done].
Qed.

Lemma run_represents config : 0 <= capital_window_secs config -> forall tr since now b ledger,
  monotone now tr -> represents since now (capital_window_secs config) b ledger ->
  let '(b', ds) := run config b tr in
  let '(l', ds') := run_ledger config ledger tr in
  ds = ds' /\ reservations b' = live (last_check since tr) (capital_window_secs config) l'.
Proof.
  intros W. induction tr as [|[t op] tr IH]; intros since now b ledger M R; [by destruct R as (_ & _ & _ & E)|].
  destruct M as [L M]. destruct op as [c k p v|v]; cbn [run run_ledger last_check].
  - pose proof (check_represents since now t config b ledger c k p v W R L) as C.
    destruct (check_and_reserve t b c k p v config) as [b1 d].
    destruct (ledger_check t ledger c k p v config) as [l1 d']. destruct C as [-> R1].
    specialize (IH t t b1 l1 M R1). destruct (run config b1 tr), (run_ledger config l1 tr).
    destruct IH as [-> IH]. split; [done|exact IH].
  - exact (IH since t _ _ M (release_represents _ _ _ _ _ v (represents_later _ _ _ _ _ _ L R))).
Qed.

Lemma new_represents w : represents 0 0 w CapitalBudget_new [].
Proof. by split_and!. Qed.

Lemma window_sum_snoc sel q r :
  window_sum sel (q ++ [r]) =
  if sel r then (window_sum sel q + capital_eth r)%f64 else window_sum sel q.
Proof. unfold window_sum. by rewrite foldl_app. Qed.

(** ** Properties *)

(** C22: pruning loses nothing: over any trace of checks and releases with a
    clock that does not go back, the budget takes the decisions of a ledger in
    which a reservation lives until its release and counts while its age is at
    most the window; and at any moment the queue holds exactly those reservations of
    the ledger, in their order, whose age was at most the window at the time of the
    last check. *)
Theorem budget_refines_ledger config tr :
  0 <= capital_window_secs config -> monotone 0 tr ->
  let '(b, ds) := run config CapitalBudget_new tr in
  let '(ledger, ds') := run_ledger config [] tr in
  ds = ds' /\ reservations b = live (last_check 0 tr) (capital_window_secs config) ledger.
Proof. intros W M. exact (run_represents config W tr 0 0 _ _ M (new_represents _)). Qed.

Definition cluster1 : ClusterKey :=
  {| ck_router := 1; ck_token_in := 2; ck_token_out := 3; ck_selector := [0; 0; 0; 1] |}.
Definition sample_trace : list (Instant * budget_op) :=
  [ (0, Check_ 1.5 cluster1 7 100); (1 * secs, Check_ 1.5 cluster1 8 101);
    (2 * secs, Check_ 1.5 cluster1 9 102); (3 * secs, Release_ 100);
    (4 * secs, Check_ 1.5 cluster1 9 103); (62 * secs, Check_ 1.5 cluster1 9 104) ].

Lemma budget_refines_ledger_witness :
  let '(b, ds) := run (sample_mev Conservative) CapitalBudget_new sample_trace in
  (allowed <$> ds) = [true; true; false; true; false] /\
  (reject_reason <$> ds) =
    ["allowed"; "allowed"; "cluster_window_limit"; "allowed"; "pair_window_limit"]%string /\
  ds = (run_ledger (sample_mev Conservative) [] sample_trace).2.
Proof.
  pose proof (budget_refines_ledger (sample_mev Conservative) sample_trace ltac:(vm_compute; congruence)
                ltac:(simpl; unfold secs; lia)) as H.
  destruct (run (sample_mev Conservative) CapitalBudget_new sample_trace) as [b ds] eqn:E.
  destruct (run_ledger (sample_mev Conservative) [] sample_trace) as [l ds'].
  destruct H as [<- _]. apply (f_equal snd) in E. vm_compute in E.
  cbn [snd] in *. subst ds. vm_compute. split_and!; reflexivity.
Defined.

(** An admitted reservation keeps the exposure within every limit: with it,
    the reservations of the window sum to no more than the limit of the window,
    those of its cluster to no more than the cluster's, and those of its pair to
    no more than the pair's. A rejected one changes nothing but the pruning, and
    names the first limit it breaks. *)
Theorem admitted_exposure_within_limits config now b c k p v :
  let '(b', d) := check_and_reserve now b c k p v config in
  let sum sel := window_sum sel (reservations b') in
  if allowed d then
    reservations b' = reservations (prune now (capital_window_secs config) b) ++
      [{| reserved_at := now; br_cluster := k; br_pair := p; br_victim_tx := v; capital_eth := c |}] /\
    (max_window_exposure_eth config <? sum (fun _ => true))%f64 = false /\
    (max_cluster_window_exposure_eth config <? sum (same_cluster k))%f64 = false /\
    (max_pair_window_exposure_eth config <? sum (same_pair p))%f64 = false /\
    total_window_eth d = sum (fun _ => true) /\ cluster_window_eth d = sum (same_cluster k) /\
    pair_window_eth d = sum (same_pair p)
  else
    b' = prune now (capital_window_secs config) b /\
    ((max_window_exposure_eth config <? total_window_eth d)%f64 = true /\
       reject_reason d = "window_exposure_limit"%string \/
     (max_window_exposure_eth config <? total_window_eth d)%f64 = false /\
     (max_cluster_window_exposure_eth config <? cluster_window_eth d)%f64 = true /\
       reject_reason d = "cluster_window_limit"%string \/
     (max_cluster_window_exposure_eth config <? cluster_window_eth d)%f64 = false /\
     (max_pair_window_exposure_eth config <? pair_window_eth d)%f64 = true /\
       reject_reason d = "pair_window_limit"%string).
Proof.
  unfold check_and_reserve, limit_exceeded.
  set (q := reservations (prune now (capital_window_secs config) b)).
  destruct (max_window_exposure_eth config <? _)%f64 eqn:E1; [simpl; auto|].
  destruct (max_cluster_window_exposure_eth config <? _)%f64 eqn:E2; [simpl; auto 7|].
  destruct (max_pair_window_exposure_eth config <? _)%f64 eqn:E3; [simpl; auto 9|].
  simpl. rewrite !window_sum_snoc; unfold same_cluster, same_pair; simpl.
  rewrite bool_decide_true, Z.eqb_refl by done. split_and!; done.
Qed.
