(* ===== verification/Guard.v ===== *)
(** * The stop-loss ([ExecutionGuard] of [mev/execution/executor.rs])

    The global guard freezes the executor after a run of losses; a guard per
    pair, router and submit path freezes that path alone, sooner and for longer
    under a hostile regime. [clk i] is the [i]-th reading of the clock of an
    operation. *)
From S2P Require Import Prelude F64 Text Ethers Config Pnl.
#[local] Open Scope Z_scope.

Record ContextFreezeKey := {
  cf_pair : Address;
  cf_router : Address;
  cf_submit_path : string }.
#[export] Instance ContextFreezeKey_eq_dec : EqDecision ContextFreezeKey.
Proof. solve_decision. Defined.
#[export] Instance ContextFreezeKey_countable : Countable ContextFreezeKey :=
  inj_countable' (fun k => (cf_pair k, cf_router k, cf_submit_path k))
    (fun '(p, r, s) => {| cf_pair := p; cf_router := r; cf_submit_path := s |})
    (fun k => match k with Build_ContextFreezeKey _ _ _ => eq_refl end).

Record ContextExecutionGuard := {
  ctx_consecutive_losses : u32;
  ctx_frozen_until : option Instant;
  last_event_at : option Instant;
  regime_pressure_ewma : f64 }.
#[export] Instance ContextExecutionGuard_eta : RecordEta ContextExecutionGuard :=
  fields Build_ContextExecutionGuard <&> ctx_consecutive_losses <&> ctx_frozen_until
    <&> last_event_at <&> regime_pressure_ewma.

Record ExecutionGuard := {
  consecutive_losses : u32;
  frozen_until : option Instant;
  context_guards : gmap ContextFreezeKey ContextExecutionGuard }.
#[export] Instance ExecutionGuard_eta : RecordEta ExecutionGuard :=
  fields Build_ExecutionGuard <&> consecutive_losses <&> frozen_until <&> context_guards.

Record StopLossSnapshot := {
  sl_consecutive_losses : u32;
  remaining_freeze_secs : u64;
  scope : string }.

Definition ExecutionGuard_default : ExecutionGuard :=
  {| consecutive_losses := 0; frozen_until := None; context_guards := ∅ |}.
Definition ContextExecutionGuard_default : ContextExecutionGuard :=
  {| ctx_consecutive_losses := 0; ctx_frozen_until := None; last_event_at := None;
     regime_pressure_ewma := 0.0 |}.

(** ** The regime *)

(** [as i32] on an unsigned 32-bit integer. *)
Definition as_i32 (n : u32) : Z := if n <? 2 ^ 31 then n else n - 2 ^ 32.

Definition decay_context_guard (st : ContextExecutionGuard) (now : Instant) (base_freeze_secs : u64)
  : ContextExecutionGuard :=
  match last_event_at st with
  | None => st
  | Some last =>
      let decay_window_secs := Z.max (base_freeze_secs / 2) 30 in
      let elapsed_secs := elapsed_secs now last in
      if (elapsed_secs <? decay_window_secs) || (ctx_consecutive_losses st =? 0) then st
      else
        let decay_steps := wrap32 (elapsed_secs / decay_window_secs) in
        st <[ ctx_consecutive_losses ::= sat_sub (ctx_consecutive_losses st) (Z.max decay_steps 1) ]>
           <[ last_event_at ::= Some now ]>
           <[ regime_pressure_ewma ::=
                (regime_pressure_ewma st * fpowi 0.88 (as_i32 (Z.max decay_steps 1)))%f64 ]>
  end.

Definition gained (success : bool) (realized_profit : f64) : bool :=
  success && (0.0 <? realized_profit)%f64.

Definition contextual_regime_pressure (context_priority_score context_toxicity_score : f64)
    (success : bool) (realized_profit : f64) : f64 :=
  let toxicity := fclamp01 context_toxicity_score in
  let low_priority := fclamp01 (1.0 - fclamp01 context_priority_score)%f64 in
  let outcome_penalty := (if gained success realized_profit then 0.0 else 0.24)%f64 in
  fclamp01 (toxicity * 0.62 + low_priority * 0.22 + outcome_penalty)%f64.

Definition contextual_stop_loss_threshold (base_threshold : u32) (regime_pressure : f64) : u32 :=
  if (regime_pressure >=? 0.78)%f64 then Z.max (sat_sub base_threshold 1) 1
  else Z.max base_threshold 1.

Definition contextual_freeze_secs (base_freeze_secs : u64) (regime_pressure : f64) : u64 :=
  let multiplier :=
    (if (regime_pressure >=? 0.90)%f64 then 2.00
     else if (regime_pressure >=? 0.78)%f64 then 1.50
     else if (regime_pressure >=? 0.62)%f64 then 1.20
     else 1.0)%f64 in
  f64_as_u64 (fround (f64_of_Z base_freeze_secs * multiplier)%f64).

Definition EPSILON : f64 := f64_of_ratio false 1 (2 ^ 52).
Definition ewma_f64 (current sample alpha : f64) : f64 :=
  (if current <=? EPSILON then sample else current + (sample - current) * alpha)%f64.

(** A context survives the pruning while its freeze runs or it has losses. *)
Definition context_kept (now : Instant) (st : ContextExecutionGuard) : bool :=
  match ctx_frozen_until st with
  | Some until => (now <? until) || (0 <? ctx_consecutive_losses st)
  | None => 0 <? ctx_consecutive_losses st
  end.
Definition prune_context_guards (now : Instant)
    (context_guards : gmap ContextFreezeKey ContextExecutionGuard)
  : gmap ContextFreezeKey ContextExecutionGuard :=
  filter (fun '(_, st) => context_kept now st = true) context_guards.

(** ** Recording a result *)

(** The global part of [record_result]: the guard, and whether it arms. *)
Definition record_global (config : MevConfig) (now : Instant) (guard : ExecutionGuard)
    (result : ExecutionResult) : ExecutionGuard * bool :=
  if gained (success result) (realized_profit result) then
    (guard <[ consecutive_losses ::= 0 ]> <[ frozen_until ::= None ]>, false)
  else
    let losses := u32_sadd (consecutive_losses guard) 1 in
    let guard := guard <[ consecutive_losses ::= losses ]> in
    if stop_loss_consecutive_losses config <=? losses then
      (guard <[ frozen_until ::= Some (now + stop_loss_freeze_secs config * secs) ]>, true)
    else (guard, false).

(** The contextual part, on the guard of one context. *)
Definition record_context (config : MevConfig) (now : Instant) (st : ContextExecutionGuard)
    (result : ExecutionResult) (priority toxicity : option f64) : ContextExecutionGuard * bool :=
  let st := decay_context_guard st now (Z.max (context_stop_loss_freeze_secs config) 1) in
  let regime_pressure :=
    contextual_regime_pressure (default 0.5%f64 priority) (default 0.5%f64 toxicity)
      (success result) (realized_profit result) in
  let st := st <[ regime_pressure_ewma ::= ewma_f64 (regime_pressure_ewma st) regime_pressure 0.35 ]>
               <[ last_event_at ::= Some now ]> in
  if gained (success result) (realized_profit result) then
    (st <[ ctx_consecutive_losses ::= 0 ]> <[ ctx_frozen_until ::= None ]>, false)
  else
    let loss_increment := if (regime_pressure_ewma st >=? 0.82)%f64 then 2 else 1 in
    let losses := u32_sadd (ctx_consecutive_losses st) loss_increment in
    let st := st <[ ctx_consecutive_losses ::= losses ]> in
    let threshold := contextual_stop_loss_threshold (context_stop_loss_consecutive_losses config)
                       (regime_pressure_ewma st) in
    if threshold <=? losses then
      let freeze_secs := contextual_freeze_secs (context_stop_loss_freeze_secs config)
                           (regime_pressure_ewma st) in
      (st <[ ctx_frozen_until ::= Some (now + freeze_secs * secs) ]>, true)
    else (st, false).

(** The guard's part of [record_result]: the guard, and whether the global and
    the contextual freeze were armed. *)
Definition record_guard (config : MevConfig) (clk : nat -> Instant) (guard : ExecutionGuard)
    (result : ExecutionResult) (key : option ContextFreezeKey) (priority toxicity : option f64)
  : ExecutionGuard * bool * bool :=
  let '(guard, global_armed) := record_global config (clk 0%nat) guard result in
  let '(guard, context_armed) :=
    match key with
    | None => (guard, false)
    | Some key =>
        let st := default ContextExecutionGuard_default (context_guards guard !! key) in
        let '(st, armed) := record_context config (clk 1%nat) st result priority toxicity in
        (guard <[ context_guards ::= <[key := st]> (context_guards guard) ]>, armed)
    end in
  (guard <[ context_guards ::= prune_context_guards (clk 2%nat) (context_guards guard) ]>,
   global_armed, context_armed).

(** ** Snapshots *)

Definition snapshot (losses : u32) (until now : Instant) (scope : string) : StopLossSnapshot :=
  {| sl_consecutive_losses := losses; remaining_freeze_secs := elapsed_secs until now; scope := scope |}.

Definition stop_loss_snapshot (now : Instant) (guard : ExecutionGuard)
  : ExecutionGuard * option StopLossSnapshot :=
  match frozen_until guard with
  | None => (guard, None)
  | Some until =>
      if until <=? now then (guard <[ frozen_until ::= None ]> <[ consecutive_losses ::= 0 ]>, None)
      else (guard, Some (snapshot (consecutive_losses guard) until now "global"))
  end.

Definition context_stop_loss_snapshot (config : MevConfig) (now : Instant) (guard : ExecutionGuard)
    (key : ContextFreezeKey) : ExecutionGuard * option StopLossSnapshot :=
  match context_guards guard !! key with
  | None => (guard, None)
  | Some st =>
      let st := decay_context_guard st now (Z.max (context_stop_loss_freeze_secs config) 1) in
      let guard := guard <[ context_guards ::= <[key := st]> (context_guards guard) ]> in
      match ctx_frozen_until st with
      | None => (guard, None)
      | Some until =>
          if until <=? now then
            (guard <[ context_guards ::= delete key (context_guards guard) ]>, None)
          else (guard, Some (snapshot (ctx_consecutive_losses st) until now "contextual"))
      end
  end.

(** ** Traces of results *)

Record guard_record := {
  gr_clk : nat -> Instant;
  gr_result : ExecutionResult;
  gr_key : option ContextFreezeKey;
  gr_priority : option f64;
  gr_toxicity : option f64 }.

Definition record_step (config : MevConfig) (g : ExecutionGuard) (r : guard_record) : ExecutionGuard :=
  (record_guard config (gr_clk r) g (gr_result r) (gr_key r) (gr_priority r) (gr_toxicity r)).1.1.
Definition run_guard (config : MevConfig) (g : ExecutionGuard) (rs : list guard_record) : ExecutionGuard :=
  foldl (record_step config) g rs.

Definition gain (r : guard_record) : bool :=
  gained (success (gr_result r)) (realized_profit (gr_result r)).

(** Losses since the last gain, and the time of the last one. *)
Definition trailing_losses (rs : list guard_record) : Z :=
  foldl (fun k r => if gain r then 0 else k + 1) 0 rs.
Definition last_time (rs : list guard_record) : Instant :=
  default 0 ((fun r => gr_clk r 0%nat) <$> last rs).

Lemma trailing_losses_snoc rs r :
  trailing_losses (rs ++ [r]) = if gain r then 0 else trailing_losses rs + 1.
Proof. unfold trailing_losses. by rewrite foldl_app. Qed.
Lemma trailing_losses_nonneg rs : 0 <= trailing_losses rs.
Proof.
  induction rs as [|r rs IH] using rev_ind; [done|]. rewrite trailing_losses_snoc. destruct (gain r); lia.
Qed.

(** The contextual part of a record leaves the global fields alone. *)
Lemma record_step_global config g r :
  let g' := (record_global config (gr_clk r 0%nat) g (gr_result r)).1 in
  consecutive_losses (record_step config g r) = consecutive_losses g' /\
  frozen_until (record_step config g r) = frozen_until g'.
Proof.
  unfold record_step, record_guard. destruct (record_global _ _ _ _) as [g' a]; simpl.
  destruct (gr_key r) as [k|]; simpl; [|done]. destruct (record_context _ _ _ _ _ _); done.
Qed.

Lemma run_guard_global config rs :
  let g := run_guard config ExecutionGuard_default rs in
  let k := Z.min (trailing_losses rs) U32_MAX in
  consecutive_losses g = k /\
  frozen_until g =
    if (0 <? k) && (stop_loss_consecutive_losses config <=? k)
    then Some (last_time rs + stop_loss_freeze_secs config * secs) else None.
Proof.
  induction rs as [|r rs IH] using rev_ind; [done|]. simpl in *.
  unfold run_guard in *. rewrite foldl_app. simpl. destruct IH as [IHc IHf].
  set (g := foldl (record_step config) ExecutionGuard_default rs) in *.
  destruct (record_step_global config g r) as [-> ->].
  assert (T : last_time (rs ++ [r]) = gr_clk r 0%nat) by (unfold last_time; by rewrite last_snoc).
  rewrite T, trailing_losses_snoc. pose proof (trailing_losses_nonneg rs) as N.
  unfold record_global, gain. destruct (gained _ _); simpl; [done|].
  assert (M : u32_sadd (consecutive_losses g) 1 = Z.min (trailing_losses rs + 1) U32_MAX)
    by (rewrite IHc; unfold sat_add; lia).
  assert (P : 0 < Z.min (trailing_losses rs + 1) U32_MAX) by (unfold U32_MAX; lia).
  rewrite M. apply Z.ltb_lt in P. rewrite P. simpl.
  destruct (Z.leb_spec (stop_loss_consecutive_losses config) (Z.min (trailing_losses rs + 1) U32_MAX));
    simpl; (split; [done|]); [done|].
  rewrite IHf. destruct (_ && _) eqn:E; [|done]. simplify_tests. lia.
Qed.

(** ** Contexts *)

Lemma decay_keeps_freeze st now b : ctx_frozen_until (decay_context_guard st now b) = ctx_frozen_until st.
Proof. unfold decay_context_guard. destruct (last_event_at st); [|done]. destruct (_ || _); done. Qed.

Definition frozen_at (g : ExecutionGuard) (key : ContextFreezeKey) (until : Instant) : Prop :=
  exists st, context_guards g !! key = Some st /\ ctx_frozen_until st = Some until.

Lemma prune_keeps now until gs key st :
  gs !! key = Some st -> ctx_frozen_until st = Some until -> now < until ->
  prune_context_guards now gs !! key = Some st.
Proof.
  intros L F H. unfold prune_context_guards. apply map_lookup_filter_Some. split; [done|].
  unfold context_kept. rewrite F. by apply Z.ltb_lt in H as ->.
Qed.

Lemma record_global_contexts config now g r :
  context_guards (record_global config now g r).1 = context_guards g.
Proof. unfold record_global. destruct (gained _ _); [done|]. destruct (_ <=? _); done. Qed.

Lemma record_step_frozen config g r key until :
  frozen_at g key until -> gr_key r <> Some key -> gr_clk r 2%nat < until ->
  frozen_at (record_step config g r) key until.
Proof.
  intros (st & L & F) K C. exists st. split; [|done].
  unfold record_step, record_guard.
  pose proof (record_global_contexts config (gr_clk r 0%nat) g (gr_result r)) as G.
  destruct (record_global _ _ _ _) as [g' a]; simpl in *.
  destruct (gr_key r) as [k|]; simpl.
  - destruct (record_context _ _ _ _ _ _) as [s b]; simpl.
    eapply prune_keeps; [|exact F|exact C]. rewrite lookup_insert_ne by congruence. by rewrite G.
  - eapply prune_keeps; [|exact F|exact C]. by rewrite G.
Qed.

Lemma context_snapshot_frozen config now g key until k :
  frozen_at g key until -> now < until ->
  frozen_at (context_stop_loss_snapshot config now g k).1 key until.
Proof.
  intros (st & L & F) H. unfold context_stop_loss_snapshot.
  destruct (context_guards g !! k) as [sk|] eqn:Lk; [|by exists st].
  set (sk' := decay_context_guard sk now _).
  assert (Fk : ctx_frozen_until sk' = ctx_frozen_until sk) by apply decay_keeps_freeze.
  destruct (decide (k = key)) as [->|N].
  - assert (sk = st) as -> by congruence. rewrite Fk, F.
    destruct (Z.leb_spec until now); [lia|]. exists sk'. simpl. by rewrite lookup_insert_eq, Fk.
  - destruct (ctx_frozen_until sk') as [u|]; [destruct (u <=? now)|]; simpl; exists st; simpl;
      rewrite ?lookup_delete_ne, ?lookup_insert_ne by done; done.
Qed.

(** Everything that happens to the guard: results, and both kinds of snapshots. *)
Inductive guard_op :=
| ORecord (r : guard_record)
| OSnapshot (now : Instant)
| OContextSnapshot (now : Instant) (key : ContextFreezeKey).

Definition guard_op_step (config : MevConfig) (g : ExecutionGuard) (op : guard_op) : ExecutionGuard :=
  match op with
  | ORecord r => record_step config g r
  | OSnapshot now => (stop_loss_snapshot now g).1
  | OContextSnapshot now key => (context_stop_loss_snapshot config now g key).1
  end.

(** The operation happens before [until] and records nothing for [key]. *)
Definition spares (key : ContextFreezeKey) (until : Instant) (op : guard_op) : Prop :=
  match op with
  | ORecord r => gr_key r <> Some key /\ gr_clk r 2%nat < until
  | OSnapshot now => now < until
  | OContextSnapshot now _ => now < until
  end.

Lemma guard_ops_frozen config key until ops g :
  frozen_at g key until -> Forall (spares key until) ops ->
  frozen_at (foldl (guard_op_step config) g ops) key until.
Proof.
  intros F H. revert g F. induction H as [|op ops S _ IH]; intros g F; [done|]. simpl. apply IH.
  destruct op as [r|now|now k]; simpl in *.
  - destruct S as [K C]. by apply record_step_frozen.
  - destruct F as (st & L & F). exists st. split; [|done].
    unfold stop_loss_snapshot. destruct (frozen_until g) as [u|]; [destruct (u <=? now)|]; done.
  - by apply context_snapshot_frozen.
Qed.

(** ** A run of losses on one context *)

Definition decay_window (config : MevConfig) : Z :=
  Z.max (Z.max (context_stop_loss_freeze_secs config) 1 / 2) 30.

(** The time of the last record, [t] when there is none. *)
Definition last_context_time (t : Instant) (rs : list guard_record) : Instant :=
  foldl (fun _ r => gr_clk r 1%nat) t rs.

(** [r] is a loss on [key], recorded before the losses up to [prev] decay. *)
Definition loss_on (config : MevConfig) (key : ContextFreezeKey) (prev : option Instant) (r : guard_record) : Prop :=
  gain r = false /\ gr_key r = Some key /\
  match prev with
  | Some t => elapsed_secs (gr_clk r 1%nat) t < decay_window config
  | None => True
  end.
Fixpoint losses_on (config : MevConfig) (key : ContextFreezeKey) (prev : option Instant) (rs : list guard_record)
  : Prop :=
  match rs with
  | [] => True
  | r :: rs => loss_on config key prev r /\ losses_on config key (Some (gr_clk r 1%nat)) rs
  end.

Lemma no_decay st now b :
  match last_event_at st with
  | Some t => elapsed_secs now t < Z.max (b / 2) 30
  | None => True
  end -> decay_context_guard st now b = st.
Proof.
  unfold decay_context_guard. destruct (last_event_at st) as [t|]; [|done].
  intros H%Z.ltb_lt. by rewrite H.
Qed.

Definition context_threshold (config : MevConfig) : Z := Z.max (context_stop_loss_consecutive_losses config) 1.

(** After a loss: at least one more loss, and frozen once the threshold is met. *)
Definition after_loss (config : MevConfig) (k : Z) (t : Instant) (st : ContextExecutionGuard) : Prop :=
  Z.min k U32_MAX <= ctx_consecutive_losses st /\ last_event_at st = Some t /\
  (context_threshold config <= k -> context_threshold config <= U32_MAX ->
   exists p, ctx_frozen_until st =
             Some (t + contextual_freeze_secs (context_stop_loss_freeze_secs config) p * secs)).

Lemma record_context_loss config now st result prio tox k :
  gained (success result) (realized_profit result) = false ->
  Z.min k U32_MAX <= ctx_consecutive_losses st ->
  match last_event_at st with
  | Some t => elapsed_secs now t < decay_window config
  | None => True
  end ->
  after_loss config (k + 1) now (record_context config now st result prio tox).1.
Proof.
  intros L K D. unfold record_context. rewrite no_decay by done. rewrite L.
  set (ew := ewma_f64 _ _ _). simpl. set (inc := if (ew >=? 0.82)%f64 then 2 else 1).
  assert (I : 1 <= inc) by (unfold inc; destruct (ew >=? 0.82)%f64; lia).
  set (thr := contextual_stop_loss_threshold _ ew).
  assert (T : thr <= context_threshold config).
  { unfold thr, contextual_stop_loss_threshold, context_threshold, sat_sub. destruct (ew >=? 0.78)%f64; lia. }
  set (l := u32_sadd (ctx_consecutive_losses st) inc).
  assert (N : Z.min (k + 1) U32_MAX <= l) by (unfold l, sat_add; lia).
  destruct (Z.leb_spec thr l); (split; [done|]); (split; [done|]); intros Ck Cm; [by eexists|lia].
Qed.

Lemma record_step_context config g r key k :
  loss_on config key (context_guards g !! key ≫= last_event_at) r ->
  Z.min k U32_MAX <= default 0 (ctx_consecutive_losses <$> context_guards g !! key) -> 0 <= k ->
  exists st, context_guards (record_step config g r) !! key = Some st /\
             after_loss config (k + 1) (gr_clk r 1%nat) st.
Proof.
  intros (G & K & D) L Hk. unfold record_step, record_guard. rewrite K.
  pose proof (record_global_contexts config (gr_clk r 0%nat) g (gr_result r)) as RG.
  destruct (record_global _ _ _ _) as [g' a]; simpl in RG; rewrite RG.
  set (st := default ContextExecutionGuard_default (context_guards g !! key)).
  assert (A : after_loss config (k + 1) (gr_clk r 1%nat)
    (record_context config (gr_clk r 1%nat) st (gr_result r) (gr_priority r) (gr_toxicity r)).1).
  { apply record_context_loss; [done|unfold st; by destruct (context_guards g !! key)|].
    unfold st. by destruct (context_guards g !! key). }
  destruct (record_context _ _ _ _ _ _) as [s b]; simpl in *. exists s. split; [|done].
  unfold prune_context_guards. apply map_lookup_filter_Some. split; [by rewrite lookup_insert_eq|].
  assert (P : (0 <? ctx_consecutive_losses s) = true).
  { apply Z.ltb_lt. destruct A as [A _]. unfold U32_MAX in A. lia. }
  unfold context_kept. destruct (ctx_frozen_until s); rewrite P, ?orb_true_r; done.
Qed.

Lemma run_losses config key : forall rs g k t,
  (exists st, context_guards g !! key = Some st /\ after_loss config k t st) -> 0 <= k ->
  losses_on config key (Some t) rs ->
  exists st, context_guards (run_guard config g rs) !! key = Some st /\
    after_loss config (k + Z.of_nat (length rs)) (last_context_time t rs) st.
Proof.
  induction rs as [|r rs IH]; intros g k t (st & L & A) Hk S.
  { exists st. by rewrite Z.add_0_r. }
  destruct S as [S1 S]. destruct A as (A1 & A2 & _).
  assert (B : exists s, context_guards (record_step config g r) !! key = Some s /\
                        after_loss config (k + 1) (gr_clk r 1%nat) s).
  { apply record_step_context; rewrite ?L; simpl; rewrite ?A2; done. }
  destruct (IH _ _ _ B ltac:(lia) S) as (s & Ls & As). exists s. split; [exact Ls|].
  replace (k + Z.of_nat (length (r :: rs))) with (k + 1 + Z.of_nat (length rs)) by (simpl; lia).
  exact As.
Qed.

(** ** Properties *)

(** The global stop-loss, after any results on any contexts: it counts the
    losses since the last gain, and the executor is frozen exactly while they
    reach the threshold and the freeze counted from the last of them has not
    run out; when it has, the look that notices clears the freeze and the
    count. *)
Theorem global_stop_loss_spec config rs now :
  let g := run_guard config ExecutionGuard_default rs in
  let k := Z.min (trailing_losses rs) U32_MAX in
  let until := last_time rs + stop_loss_freeze_secs config * secs in
  let armed := (0 <? k) && (stop_loss_consecutive_losses config <=? k) in
  consecutive_losses g = k /\
  stop_loss_snapshot now g =
    if armed then
      if now <? until then (g, Some (snapshot k until now "global"))
      else (g <[ frozen_until ::= None ]> <[ consecutive_losses ::= 0 ]>, None)
    else (g, None).
Proof.
  intros g k until armed. destruct (run_guard_global config rs) as [C F]. fold g k until armed in C, F.
  split; [done|]. unfold stop_loss_snapshot. rewrite F. destruct armed; [|done].
  rewrite C, Z.ltb_antisym. by destruct (until <=? now).
Qed.

(** C23: a frozen context stays frozen: whatever happens before the end of its
    freeze, except recording a result of the context itself, a look at the
    context before that end still finds it frozen. *)
Theorem context_freeze_holds config key until ops g now :
  frozen_at g key until -> Forall (spares key until) ops -> now < until ->
  exists snap, (context_stop_loss_snapshot config now (foldl (guard_op_step config) g ops) key).2 = Some snap /\
    scope snap = "contextual"%string /\ remaining_freeze_secs snap = (until - now) / secs.
Proof.
  intros F S H. destruct (guard_ops_frozen config key until ops g F S) as (st & L & U).
  unfold context_stop_loss_snapshot. rewrite L, decay_keeps_freeze, U.
  destruct (Z.leb_spec until now); [lia|]. eexists. split; [reflexivity|]. split; [done|].
  unfold snapshot, elapsed_secs, elapsed. simpl. by rewrite Z.max_l by lia.
Qed.

(** C24: enough losses in a row freeze a context of which the guard has no record yet:
    when as many losses as the context's threshold are recorded on it, none so late
    that the earlier ones decay, it is frozen from the last one for the freeze of some regime
    pressure, and no longer. *)
Theorem context_losses_freeze config g key r rs now :
  context_guards g !! key = None -> losses_on config key None (r :: rs) ->
  context_threshold config <= Z.of_nat (length (r :: rs)) -> context_threshold config <= U32_MAX ->
  exists p,
    let freeze := contextual_freeze_secs (context_stop_loss_freeze_secs config) p * secs in
    let until := last_context_time (gr_clk r 1%nat) rs + freeze in
    is_Some (context_stop_loss_snapshot config now (run_guard config g (r :: rs)) key).2 <-> now < until.
Proof.
  intros N [S1 S] T M.
  assert (B : exists s, context_guards (record_step config g r) !! key = Some s /\
                        after_loss config 1 (gr_clk r 1%nat) s).
  { apply (record_step_context config g r key 0); rewrite ?N; simpl; done || lia. }
  destruct (run_losses config key rs (record_step config g r) 1 _ B ltac:(lia) S) as (s & L & A).
  destruct A as (_ & _ & A). destruct A as [p A]; [simpl in T; lia|done|].
  exists p. cbv zeta. change (run_guard config g (r :: rs)) with (run_guard config (record_step config g r) rs).
  unfold context_stop_loss_snapshot. rewrite L.
  rewrite decay_keeps_freeze, A. destruct (Z.leb_spec (last_context_time (gr_clk r 1%nat) rs +
    contextual_freeze_secs (context_stop_loss_freeze_secs config) p * secs) now); simpl.
  - split; [intros [? [=]]|lia].
  - split; [lia|eauto].
Qed.

Definition path1 : ContextFreezeKey := {| cf_pair := 7; cf_router := 31; cf_submit_path := "relay" |}.
Definition path2 : ContextFreezeKey := {| cf_pair := 7; cf_router := 31; cf_submit_path := "other" |}.
Definition loss_at (t : Z) (key : ContextFreezeKey) : guard_record :=
  {| gr_clk := fun _ => t * secs; gr_result := {| realized_profit := 0.0; gas_used := 0; success := false |};
     gr_key := Some key; gr_priority := Some 0.5%f64; gr_toxicity := Some 0.5%f64 |}.

Lemma context_losses_freeze_witness :
  let g := run_guard (sample_mev Conservative) ExecutionGuard_default [loss_at 1 path1; loss_at 5 path1] in
  (remaining_freeze_secs <$> (context_stop_loss_snapshot (sample_mev Conservative) (6 * secs) g path1).2)
    = Some 143 /\
  exists p, 6 * secs < 5 * secs + contextual_freeze_secs 120 p * secs.
Proof.
  intros g. split; [vm_compute; reflexivity|].
  destruct (context_losses_freeze (sample_mev Conservative) ExecutionGuard_default path1 (loss_at 1 path1)
    [loss_at 5 path1] (6 * secs) eq_refl
    ltac:(repeat split; vm_compute; reflexivity) ltac:(vm_compute; congruence)
    ltac:(vm_compute; congruence)) as [p H].
  exists p. apply (proj1 H). exists (snapshot 2 (149 * secs) (6 * secs) "contextual").
  vm_compute. reflexivity.
Defined.

Lemma context_freeze_holds_witness :
  let g := run_guard (sample_mev Conservative) ExecutionGuard_default [loss_at 1 path1; loss_at 5 path1] in
  exists snap, (context_stop_loss_snapshot (sample_mev Conservative) (100 * secs)
                  (foldl (guard_op_step (sample_mev Conservative)) g
                     [ORecord (loss_at 90 path2); OContextSnapshot (95 * secs) path1; OSnapshot (96 * secs)])
                  path1).2 = Some snap /\ remaining_freeze_secs snap = 49.
Proof.
  intros g.
  destruct (context_freeze_holds (sample_mev Conservative) path1 (149 * secs)
    [ORecord (loss_at 90 path2); OContextSnapshot (95 * secs) path1; OSnapshot (96 * secs)] g (100 * secs))
    as (snap & E & _ & R).
  - eexists. split; vm_compute; reflexivity.
  - repeat constructor; simpl; try (unfold secs; lia). vm_compute. congruence.
  - unfold secs; lia.
  - exists snap. split; [exact E|exact R].
Defined.
