(* ===== verification/Adaptive.v ===== *)
(** * The adaptive policy ([mev/adaptive.rs])

    Moving averages of latencies and outcomes, globally, per relay and per relay
    and cluster; the flows of the last seconds; profiles of past outcomes; and
    from them the preflight gate, the quote that decides an execution and the
    ranking of relays. [exp] and [ln_1p] are parameters; a method that reads the
    clock takes the reading. *)
From S2P Require Import Prelude F64 Text Ethers Config Pnl Opportunity.
#[local] Open Scope Z_scope.

Definition FLOW_CAPACITY : nat := 2048.
Definition FLOW_HORIZON_SECS : Z := 12.
Definition LOOKUP_TARGET_MS : f64 := 140.0.
Definition SUBMIT_TARGET_MS : f64 := 120.0.
Definition FINALIZE_TARGET_MS : f64 := 6000.0.
Definition EWMA_FAST : f64 := 0.20.
Definition EWMA_SLOW : f64 := 0.08.
Definition EPSILON : f64 := f64_of_ratio false 1 (2 ^ 52).

Record FlowObservation := {
  fo_key : ClusterKey;
  observed_at : Instant;
  fo_gas_price_gwei : f64;
  fo_notional_eth : f64 }.

Record AdaptiveQuoteInput := {
  qi_cluster : ClusterKey;
  qi_pair : Address;
  qi_hour_utc : u8;
  qi_context_priority_score : f64;
  qi_context_toxicity_score : f64;
  qi_expected_profit_wei : U256;
  qi_execution_cost_wei : U256;
  qi_gas_price_wei : U256;
  qi_lookup_latency_ms : f64;
  qi_notional_eth : f64;
  qi_price_impact_bps : u64;
  relay_pressure_override : option f64 }.
#[export] Instance AdaptiveQuoteInput_eta : RecordEta AdaptiveQuoteInput :=
  fields Build_AdaptiveQuoteInput <&> qi_cluster <&> qi_pair <&> qi_hour_utc
    <&> qi_context_priority_score <&> qi_context_toxicity_score <&> qi_expected_profit_wei
    <&> qi_execution_cost_wei <&> qi_gas_price_wei <&> qi_lookup_latency_ms <&> qi_notional_eth
    <&> qi_price_impact_bps <&> relay_pressure_override.

Record PreflightInput := {
  pi_cluster : ClusterKey;
  pi_notional_eth : f64;
  pi_gas_price_wei : U256;
  pi_path_len : usize }.

Inductive MarketRegime := Calm | Normal | Hot | Toxic.
#[export] Instance MarketRegime_eq_dec : EqDecision MarketRegime.
Proof. solve_decision. Defined.

Record PreflightQuote := {
  should_continue : bool;
  pq_regime : MarketRegime;
  pq_reject_reason : option string;
  pq_preflight_score : f64;
  upper_bound_ev_usd : f64;
  estimated_gas_cost_usd : f64;
  pq_mempool_density : f64;
  pq_cluster_heat : f64;
  pq_gas_pressure : f64;
  pq_impact_hint : f64;
  pq_size_score : f64 }.

Record AdaptiveQuote := {
  should_execute : bool;
  regime : MarketRegime;
  reject_reason : option string;
  selected_relay : option string;
  ev_real_usd : f64;
  threshold_dynamic_usd : f64;
  p_positive : f64;
  aq_competition_score : f64;
  aq_risk_score : f64;
  competition_penalty_usd : f64;
  risk_penalty_usd : f64;
  path_penalty_usd : f64;
  aq_mempool_density : f64;
  aq_cluster_heat : f64;
  builder_pressure : f64;
  aq_latency_penalty : f64;
  aq_gas_pressure : f64;
  context_priority_score : f64;
  context_toxicity_score : f64 }.
#[export] Instance AdaptiveQuote_eta : RecordEta AdaptiveQuote :=
  fields Build_AdaptiveQuote <&> should_execute <&> regime <&> reject_reason <&> selected_relay
    <&> ev_real_usd <&> threshold_dynamic_usd <&> p_positive <&> aq_competition_score
    <&> aq_risk_score <&> competition_penalty_usd <&> risk_penalty_usd <&> path_penalty_usd
    <&> aq_mempool_density <&> aq_cluster_heat <&> builder_pressure <&> aq_latency_penalty
    <&> aq_gas_pressure <&> context_priority_score <&> context_toxicity_score.

Record RelayQuote := {
  relay : string;
  relay_pressure : f64;
  accept_rate : f64;
  inclusion_rate : f64;
  accepted_not_included_rate : f64;
  revert_rate : f64;
  submit_latency_ms : f64;
  finalization_latency_ms : f64;
  score : f64 }.
#[export] Instance RelayQuote_eta : RecordEta RelayQuote :=
  fields Build_RelayQuote <&> relay <&> relay_pressure <&> accept_rate <&> inclusion_rate
    <&> accepted_not_included_rate <&> revert_rate <&> submit_latency_ms
    <&> finalization_latency_ms <&> score.

Record RelayStats := {
  rs_submit_latency : f64;
  rs_finalization_latency : f64;
  rs_accept_rate : f64;
  rs_reject_rate : f64;
  rs_inclusion_success : f64;
  rs_accepted_not_included : f64;
  rs_included_revert : f64;
  rs_realized_capture : f64 }.
#[export] Instance RelayStats_eta : RecordEta RelayStats :=
  fields Build_RelayStats <&> rs_submit_latency <&> rs_finalization_latency <&> rs_accept_rate
    <&> rs_reject_rate <&> rs_inclusion_success <&> rs_accepted_not_included
    <&> rs_included_revert <&> rs_realized_capture.
Definition RelayStats_default : RelayStats :=
  {| rs_submit_latency := SUBMIT_TARGET_MS; rs_finalization_latency := FINALIZE_TARGET_MS;
     rs_accept_rate := 0.76; rs_reject_rate := 0.16; rs_inclusion_success := 0.58;
     rs_accepted_not_included := 0.14; rs_included_revert := 0.08; rs_realized_capture := 0.82 |}.

Record RelayContextStats := {
  rc_inclusion_success : f64;
  rc_accepted_not_included : f64;
  rc_included_revert : f64;
  rc_realized_capture : f64;
  rc_samples : u64 }.
Definition RelayContextStats_default : RelayContextStats :=
  {| rc_inclusion_success := 0.58; rc_accepted_not_included := 0.14; rc_included_revert := 0.08;
     rc_realized_capture := 0.82; rc_samples := 0 |}.

Record HistoricalOutcomeStats := {
  hs_samples : u64;
  hs_success_rate : f64;
  hs_accepted_not_included_rate : f64;
  hs_revert_rate : f64;
  hs_realized_capture : f64 }.

Record HistoricalCalibration := {
  competition_mult : f64;
  risk_mult : f64;
  threshold_mult : f64;
  regime_shift : Z }.
Definition HistoricalCalibration_default : HistoricalCalibration :=
  {| competition_mult := 1.0; risk_mult := 1.0; threshold_mult := 1.0; regime_shift := 0 |}.

Record HistoricalProfileKey := {
  hk_router : Address;
  hk_pair : Address;
  hk_hour_utc : u8 }.
#[export] Instance HistoricalProfileKey_eq_dec : EqDecision HistoricalProfileKey.
Proof. solve_decision. Defined.
#[export] Instance HistoricalProfileKey_countable : Countable HistoricalProfileKey :=
  inj_countable' (fun k => (hk_router k, hk_pair k, hk_hour_utc k))
    (fun '(r, p, h) => {| hk_router := r; hk_pair := p; hk_hour_utc := h |})
    (fun k => match k with Build_HistoricalProfileKey _ _ _ => eq_refl end).

Record ContextSignal := {
  priority_score : f64;
  toxicity_score : f64;
  cs_samples : u64 }.

Record RouterHourKey := {
  rh_router : Address;
  rh_hour_utc : u8 }.
#[export] Instance RouterHourKey_eq_dec : EqDecision RouterHourKey.
Proof. solve_decision. Defined.
#[export] Instance RouterHourKey_countable : Countable RouterHourKey :=
  inj_countable' (fun k => (rh_router k, rh_hour_utc k))
    (fun '(r, h) => {| rh_router := r; rh_hour_utc := h |})
    (fun k => match k with Build_RouterHourKey _ _ => eq_refl end).

Record HistoricalOutcomeProfile := {
  hp_hour_utc : u8;
  hp_pair : Address;
  hp_router : Address;
  hp_samples : u64;
  hp_success_rate : f64;
  hp_accepted_not_included_rate : f64;
  hp_revert_rate : f64;
  hp_realized_capture : f64 }.

Inductive ContextualOutcomeKind :=
| SubmitFailed
| AcceptedNotIncluded
| IncludedRevert
| IncludedSuccess.

Record AdaptivePolicy := {
  ap_eth_usd_price : f64;
  base_threshold_usd : f64;
  ap_max_price_impact_bps : u64;
  ap_min_large_swap_eth : f64;
  min_profit_eth : f64;
  preflight_gas_estimate : u64;
  recent_flows : list FlowObservation;
  gas_price_ewma_gwei : f64;
  lookup_latency_ewma_ms : f64;
  submit_latency_ewma_ms : f64;
  finalize_latency_ewma_ms : f64;
  relay_accept_rate_ewma : f64;
  relay_reject_rate_ewma : f64;
  inclusion_success_rate_ewma : f64;
  accepted_not_included_rate_ewma : f64;
  included_revert_rate_ewma : f64;
  success_rate_ewma : f64;
  failure_rate_ewma : f64;
  timeout_rate_ewma : f64;
  realized_capture_ewma : f64;
  relay_stats : gmap string RelayStats;
  relay_context_stats : gmap (string * ClusterKey) RelayContextStats;
  historical_profiles : gmap HistoricalProfileKey HistoricalOutcomeStats;
  router_hour_profiles : gmap RouterHourKey ContextSignal;
  chain_competition_mult : f64;
  chain_risk_mult : f64;
  chain_threshold_mult : f64 }.
#[export] Instance AdaptivePolicy_eta : RecordEta AdaptivePolicy :=
  fields Build_AdaptivePolicy <&> ap_eth_usd_price <&> base_threshold_usd <&> ap_max_price_impact_bps
    <&> ap_min_large_swap_eth <&> min_profit_eth <&> preflight_gas_estimate <&> recent_flows
    <&> gas_price_ewma_gwei <&> lookup_latency_ewma_ms <&> submit_latency_ewma_ms
    <&> finalize_latency_ewma_ms <&> relay_accept_rate_ewma <&> relay_reject_rate_ewma
    <&> inclusion_success_rate_ewma <&> accepted_not_included_rate_ewma
    <&> included_revert_rate_ewma <&> success_rate_ewma <&> failure_rate_ewma <&> timeout_rate_ewma
    <&> realized_capture_ewma <&> relay_stats <&> relay_context_stats <&> historical_profiles
    <&> router_hour_profiles <&> chain_competition_mult <&> chain_risk_mult <&> chain_threshold_mult.

Definition relay_of (q : RelayQuote) : string := relay q.

(** ** Helpers *)

Definition ewma (current sample alpha : f64) : f64 :=
  (current * (1.0 - alpha) + sample * alpha)%f64.
Definition wei_to_gwei_f64 (value : U256) : f64 := (f64_of_Z value / 1e9)%f64.
Definition path_penalty (path_len : usize) : f64 :=
  (f64_of_nat (Nat.min (path_len - 2) 3) / 3.0)%f64.
Definition capture_ratio (expected_profit_wei : U256) (realized_profit_eth : f64) : f64 :=
  let expected_profit_eth := wei_to_eth_f64 expected_profit_wei in
  if (EPSILON <? expected_profit_eth)%f64
  then fclamp_in (realized_profit_eth / expected_profit_eth)%f64 0.0 1.25
  else 0.0%f64.

Definition regime_as_str (self : MarketRegime) : string :=
  match self with Calm => "calm" | Normal => "normal" | Hot => "hot" | Toxic => "toxic" end.

Definition is_better_quote (candidate current : AdaptiveQuote) : bool :=
  let candidate_margin := (ev_real_usd candidate - threshold_dynamic_usd candidate)%f64 in
  let current_margin := (ev_real_usd current - threshold_dynamic_usd current)%f64 in
  if negb (Bool.eqb (should_execute candidate) (should_execute current)) then should_execute candidate
  else if (EPSILON <? fabs (candidate_margin - current_margin))%f64 then
    (current_margin <? candidate_margin)%f64
  else if (EPSILON <? fabs (p_positive candidate - p_positive current))%f64 then
    (p_positive current <? p_positive candidate)%f64
  else (builder_pressure candidate <? builder_pressure current)%f64.

(** The seven constants of a chain, in the order of the source's tuple. *)
Record ChainPreset := {
  gas_baseline_gwei : f64;
  threshold_bias : f64;
  success_bias : f64;
  failure_bias : f64;
  preset_competition : f64;
  preset_risk : f64;
  preset_threshold : f64 }.
Definition chain_adaptive_preset (network : string) : ChainPreset :=
  if string_eqb network "bsc" then Build_ChainPreset 3.0 0.86 0.76 0.16 0.94 1.06 0.92
  else if string_eqb network "polygon" then Build_ChainPreset 80.0 1.08 0.70 0.20 1.05 1.02 1.08
  else Build_ChainPreset 25.0 1.0 0.72 0.18 1.0 1.0 1.0.

Definition AdaptivePolicy_new (config : Config) : AdaptivePolicy :=
  let preset := chain_adaptive_preset (network config) in
  {| ap_eth_usd_price := eth_usd_price (mev config);
     base_threshold_usd :=
       (fmax (effective_min_profit_usd (mev config))
          (effective_min_net_profit_eth (mev config) * eth_usd_price (mev config))
        * threshold_bias preset)%f64;
     ap_max_price_impact_bps := Z.max (effective_max_price_impact_bps (mev config)) 1;
     ap_min_large_swap_eth := fmax (effective_min_large_swap_eth (mev config)) 0.0001;
     min_profit_eth := fmax (effective_min_net_profit_eth (mev config)) 0.000001;
     preflight_gas_estimate :=
       Z.max (u64_sadd (estimated_exec_gas config) (estimated_bundle_overhead_gas config)) 180000;
     recent_flows := []; gas_price_ewma_gwei := gas_baseline_gwei preset;
     lookup_latency_ewma_ms := LOOKUP_TARGET_MS; submit_latency_ewma_ms := SUBMIT_TARGET_MS;
     finalize_latency_ewma_ms := FINALIZE_TARGET_MS; relay_accept_rate_ewma := 0.76;
     relay_reject_rate_ewma := 0.16; inclusion_success_rate_ewma := 0.58;
     accepted_not_included_rate_ewma := 0.14; included_revert_rate_ewma := 0.08;
     success_rate_ewma := success_bias preset; failure_rate_ewma := failure_bias preset;
     timeout_rate_ewma := 0.08; realized_capture_ewma := 0.82; relay_stats := ∅;
     relay_context_stats := ∅; historical_profiles := ∅; router_hour_profiles := ∅;
     chain_competition_mult := preset_competition preset; chain_risk_mult := preset_risk preset;
     chain_threshold_mult := preset_threshold preset |}.

(** ** Profiles of past outcomes *)

Definition stats_of_profile (profile : HistoricalOutcomeProfile) : HistoricalOutcomeStats :=
  {| hs_samples := hp_samples profile; hs_success_rate := hp_success_rate profile;
     hs_accepted_not_included_rate := hp_accepted_not_included_rate profile;
     hs_revert_rate := hp_revert_rate profile; hs_realized_capture := hp_realized_capture profile |}.
Definition profile_key (profile : HistoricalOutcomeProfile) : HistoricalProfileKey :=
  {| hk_router := hp_router profile; hk_pair := hp_pair profile; hk_hour_utc := hp_hour_utc profile |}.
Definition router_hour (profile : HistoricalOutcomeProfile) : RouterHourKey :=
  {| rh_router := hp_router profile; rh_hour_utc := hp_hour_utc profile |}.

(** The signal of one router and hour, from the profiles of its pairs. *)
Definition signal_of (values : list HistoricalOutcomeStats) : ContextSignal :=
  let samples := Z.max (wrap64 (foldl (fun acc v => acc + hs_samples v) 0 values)) 1 in
  let weighted f :=
    (fsum ((fun v => f v * f64_of_Z (hs_samples v)) <$> values) / f64_of_Z samples)%f64 in
  let success_rate := weighted hs_success_rate in
  let miss_rate := weighted hs_accepted_not_included_rate in
  let revert_rate := weighted hs_revert_rate in
  let realized_capture := weighted hs_realized_capture in
  {| priority_score := fclamp01
       (success_rate * 0.46 + fclamp01 realized_capture * 0.34
        + fclamp01 (1.0 - miss_rate) * 0.12 + fclamp01 (1.0 - revert_rate) * 0.08)%f64;
     toxicity_score := fclamp01
       (fclamp01 (1.0 - success_rate) * 0.28 + fclamp01 miss_rate * 0.36
        + fclamp01 revert_rate * 0.22 + fclamp01 (1.0 - realized_capture) * 0.14)%f64;
     cs_samples := samples |}.

(** The loop over the profiles: both maps it fills. *)
Definition profile_step
    (acc : gmap HistoricalProfileKey HistoricalOutcomeStats * gmap RouterHourKey (list HistoricalOutcomeStats))
    (profile : HistoricalOutcomeProfile)
  : gmap HistoricalProfileKey HistoricalOutcomeStats * gmap RouterHourKey (list HistoricalOutcomeStats) :=
  let '(profiles, rollup) := acc in
  (<[profile_key profile := stats_of_profile profile]> profiles,
   <[router_hour profile := default [] (rollup !! router_hour profile) ++ [stats_of_profile profile]]>
     rollup).

Definition apply_historical_profiles (self : AdaptivePolicy) (profiles : list HistoricalOutcomeProfile)
  : AdaptivePolicy :=
  let '(historical, rollup) := foldl profile_step (∅, ∅) profiles in
  self <[ historical_profiles ::= historical ]> <[ router_hour_profiles ::= signal_of <$> rollup ]>.

Definition context_signal (self : AdaptivePolicy) (router : Address) (hour_utc : u8) : ContextSignal :=
  default {| priority_score := 0.50; toxicity_score := 0.50; cs_samples := 0 |}
    (router_hour_profiles self !! {| rh_router := router; rh_hour_utc := hour_utc |}).

Definition historical_profile (self : AdaptivePolicy) (pair router : Address) (hour_utc : u8)
  : option HistoricalOutcomeStats :=
  historical_profiles self !! {| hk_router := router; hk_pair := pair; hk_hour_utc := hour_utc |}.

Definition historical_pressure (profile : HistoricalOutcomeStats) : f64 :=
  fclamp01 (fclamp01 (1.0 - hs_success_rate profile) * 0.24
            + fclamp01 (hs_accepted_not_included_rate profile) * 0.36
            + fclamp01 (hs_revert_rate profile) * 0.24
            + fclamp01 (1.0 - hs_realized_capture profile) * 0.16)%f64.

Definition historical_calibration (profile : HistoricalOutcomeStats) (confidence : f64)
  : HistoricalCalibration :=
  let instability := fclamp01 (1.0 - hs_success_rate profile)%f64 in
  let miss := fclamp01 (hs_accepted_not_included_rate profile) in
  let revert := fclamp01 (hs_revert_rate profile) in
  let poor_realization := fclamp01 (1.0 - hs_realized_capture profile)%f64 in
  let stress := fclamp01 (instability * 0.28 + miss * 0.34 + revert * 0.22
                          + poor_realization * 0.16)%f64 in
  {| competition_mult := (1.0 + (miss * 0.34 + instability * 0.18) * confidence)%f64;
     risk_mult :=
       (1.0 + (revert * 0.42 + poor_realization * 0.24 + instability * 0.10) * confidence)%f64;
     threshold_mult :=
       (1.0 + (miss * 0.26 + revert * 0.18 + instability * 0.18 + poor_realization * 0.14)
              * confidence)%f64;
     regime_shift :=
       if (12 <=? hs_samples profile) && (stress >=? 0.54)%f64 then 2
       else if (6 <=? hs_samples profile) && (stress >=? 0.42)%f64 then 1
       else if (12 <=? hs_samples profile) && (stress <=? 0.18)%f64
               && (hs_success_rate profile >=? 0.82)%f64
               && (hs_realized_capture profile >=? 0.82)%f64 then -1
       else 0 |}.

Definition recalibrated_regime (regime : MarketRegime) (shift : Z) : MarketRegime :=
  if shift <=? -2 then Calm
  else if shift =? -1 then
    match regime with Toxic => Hot | Hot => Normal | Normal => Calm | Calm => Calm end
  else if shift =? 0 then regime
  else if shift =? 1 then
    match regime with Calm => Normal | Normal => Hot | Hot => Toxic | Toxic => Toxic end
  else Toxic.

(** ** Pressures *)

(** A latency above its target, as a penalty between 0 and 1. *)
Definition over_target (latency_ms target_ms : f64) : f64 :=
  (fclamp_in (latency_ms / target_ms - 1.0) 0.0 2.0 / 2.0)%f64.

Definition gas_pressure (self : AdaptivePolicy) (current_gwei : f64) : f64 :=
  (if gas_price_ewma_gwei self <=? EPSILON then 0.0
   else fclamp_in (current_gwei / gas_price_ewma_gwei self - 1.0) 0.0 2.0 / 2.0)%f64.

Definition latency_penalty (self : AdaptivePolicy) (current_lookup_ms : f64) : f64 :=
  let lookup := over_target current_lookup_ms LOOKUP_TARGET_MS in
  let lookup_baseline := over_target (lookup_latency_ewma_ms self) LOOKUP_TARGET_MS in
  let submit := over_target (submit_latency_ewma_ms self) SUBMIT_TARGET_MS in
  let finalize := over_target (finalize_latency_ewma_ms self) FINALIZE_TARGET_MS in
  fclamp01 (lookup * 0.35 + lookup_baseline * 0.20 + submit * 0.25 + finalize * 0.20)%f64.

Definition failure_pressure_of (self : AdaptivePolicy) : f64 :=
  fclamp01 (failure_rate_ewma self * 0.65 + timeout_rate_ewma self * 0.35)%f64.
Definition poor_realization_of (self : AdaptivePolicy) : f64 :=
  fclamp01 (1.0 - realized_capture_ewma self)%f64.
Definition mempool_density_of (self : AdaptivePolicy) : f64 :=
  fclamp01 (f64_of_nat (length (recent_flows self)) / f64_of_nat FLOW_CAPACITY)%f64.

Definition market_regime (mempool_density cluster_heat gas_pressure latency_penalty failure_pressure
    poor_realization builder_pressure : f64) : MarketRegime :=
  let stress := fclamp01
    (mempool_density * 0.20 + cluster_heat * 0.20 + gas_pressure * 0.10 + latency_penalty * 0.12
     + failure_pressure * 0.14 + poor_realization * 0.10 + builder_pressure * 0.14)%f64 in
  if (stress >=? 0.82)%f64 || (failure_pressure >=? 0.72)%f64 || (poor_realization >=? 0.62)%f64
     || (builder_pressure >=? 0.72)%f64 then Toxic
  else if (stress >=? 0.58)%f64 || (cluster_heat >=? 0.55)%f64 || (gas_pressure >=? 0.52)%f64
          || (builder_pressure >=? 0.48)%f64 then Hot
  else if (stress >=? 0.30)%f64 then Normal
  else Calm.

Definition by_regime (regime : MarketRegime) (calm normal hot toxic : f64) : f64 :=
  match regime with Calm => calm | Normal => normal | Hot => hot | Toxic => toxic end.

Definition probability_positive (competition_score risk_score failure_pressure latency_penalty
    poor_realization gas_pressure builder_pressure : f64) (regime : MarketRegime) : f64 :=
  let base_drag :=
    (competition_score * 0.29 + risk_score * 0.23 + failure_pressure * 0.17 + latency_penalty * 0.10
     + poor_realization * 0.09 + gas_pressure * 0.06 + builder_pressure * 0.06)%f64 in
  let regime_drag := by_regime regime 0.00 0.03 0.08 0.16 in
  fclamp_in (1.0 - base_drag - regime_drag)%f64 0.04 0.985.

Definition dynamic_threshold (self : AdaptivePolicy) (mempool_density failure_pressure gas_pressure
    latency_penalty poor_realization cluster_heat builder_pressure : f64) (regime : MarketRegime) : f64 :=
  let regime_base := by_regime regime 0.92 1.08 1.42 1.95 in
  let continuous :=
    (1.0 + mempool_density * 0.28 + failure_pressure * 0.52 + gas_pressure * 0.22
     + latency_penalty * 0.24 + poor_realization * 0.30 + cluster_heat * 0.24
     + builder_pressure * 0.38)%f64 in
  (base_threshold_usd self * regime_base * continuous)%f64.

Definition path_execution_penalty_usd (expected_profit_usd builder_pressure failure_pressure
    latency_penalty gas_pressure context_toxicity_score : f64) : f64 :=
  let path_stress := fclamp01
    (builder_pressure * 0.34 + failure_pressure * 0.24 + latency_penalty * 0.18
     + gas_pressure * 0.12 + context_toxicity_score * 0.12)%f64 in
  (expected_profit_usd * path_stress * 0.18)%f64.

Definition min_probability_threshold (regime : MarketRegime) : f64 := by_regime regime 0.54 0.60 0.66 0.74.
Definition max_competition_threshold (regime : MarketRegime) : f64 := by_regime regime 0.78 0.72 0.64 0.52.
Definition max_risk_threshold (regime : MarketRegime) : f64 := by_regime regime 0.80 0.74 0.66 0.56.

Definition builder_path_pressure (self : AdaptivePolicy) : f64 :=
  let relay_rejection := fclamp01 (relay_reject_rate_ewma self) in
  let relay_instability := fclamp01 (1.0 - relay_accept_rate_ewma self)%f64 in
  let inclusion_instability := fclamp01 (1.0 - inclusion_success_rate_ewma self)%f64 in
  let accepted_not_included := fclamp01 (accepted_not_included_rate_ewma self) in
  let included_revert := fclamp01 (included_revert_rate_ewma self) in
  let submit_latency := over_target (submit_latency_ewma_ms self) SUBMIT_TARGET_MS in
  let finalization_latency := over_target (finalize_latency_ewma_ms self) FINALIZE_TARGET_MS in
  let poor_realization := poor_realization_of self in
  fclamp01
    (relay_rejection * 0.24 + relay_instability * 0.12 + inclusion_instability * 0.12
     + accepted_not_included * 0.24 + included_revert * 0.16 + submit_latency * 0.10
     + finalization_latency * 0.08 + poor_realization * 0.06)%f64.

Definition builder_path_pressure_for_relay (self : AdaptivePolicy) (relay : string) : f64 :=
  match relay_stats self !! relay with
  | None => builder_path_pressure self
  | Some stats =>
      let relay_rejection := fclamp01 (rs_reject_rate stats) in
      let relay_instability := fclamp01 (1.0 - rs_accept_rate stats)%f64 in
      let inclusion_instability := fclamp01 (1.0 - rs_inclusion_success stats)%f64 in
      let accepted_not_included := fclamp01 (rs_accepted_not_included stats) in
      let included_revert := fclamp01 (rs_included_revert stats) in
      let submit_latency := over_target (rs_submit_latency stats) SUBMIT_TARGET_MS in
      let finalization_latency := over_target (rs_finalization_latency stats) FINALIZE_TARGET_MS in
      let poor_realization := fclamp01 (1.0 - rs_realized_capture stats)%f64 in
      fclamp01
        (relay_rejection * 0.26 + relay_instability * 0.12 + inclusion_instability * 0.12
         + accepted_not_included * 0.24 + included_revert * 0.14 + submit_latency * 0.10
         + finalization_latency * 0.08 + poor_realization * 0.04)%f64
  end.

(** [context.samples.min(24) as f64 / 24.0], clamped. *)
Definition confidence_of (samples cap : u64) : f64 :=
  fclamp01 (f64_of_Z (Z.min samples cap) / f64_of_Z cap)%f64.

Definition builder_path_pressure_for_cluster (self : AdaptivePolicy) (relay : option string)
    (cluster : ClusterKey) : f64 :=
  let base := match relay with
              | Some relay => builder_path_pressure_for_relay self relay
              | None => builder_path_pressure self
              end in
  match (relay ← relay; relay_context_stats self !! (relay, cluster)) with
  | None => base
  | Some context =>
      let success_drag := fclamp01 (1.0 - rc_inclusion_success context)%f64 in
      let miss := fclamp01 (rc_accepted_not_included context) in
      let revert := fclamp01 (rc_included_revert context) in
      let poor_realization := fclamp01 (1.0 - rc_realized_capture context)%f64 in
      let confidence := confidence_of (rc_samples context) 24 in
      let contextual := fclamp01 (success_drag * 0.24 + miss * 0.36 + revert * 0.24
                                  + poor_realization * 0.16)%f64 in
      fclamp01 (base * (1.0 - confidence * 0.35) + contextual * confidence * 0.65)%f64
  end.

Section Policy.
Context (exp ln_1p : f64 -> f64).

Definition size_pressure (notional_eth : f64) : f64 :=
  fclamp01 (ln_1p (fmax notional_eth 0.0) / 8.0)%f64.
Definition logistic (x : f64) : f64 := (1.0 / (1.0 + exp (fneg x)))%f64.

Definition impact_hint (self : AdaptivePolicy) (notional_eth : f64) (path_len : usize) : f64 :=
  let size_multiple := (fmax notional_eth 0.0 / fmax (ap_min_large_swap_eth self) 1e-9)%f64 in
  let size_curve := fclamp01 (ln_1p size_multiple / 3.6)%f64 in
  let profit_curve := fclamp01 (ln_1p (notional_eth / fmax (min_profit_eth self) 1e-9) / 14.0)%f64 in
  let multi_hop_penalty := (path_penalty path_len * 0.18)%f64 in
  fclamp01 (size_curve * 0.58 + profit_curve * 0.42 - multi_hop_penalty)%f64.

(** ** The heat of a cluster *)

(** The six sums of the loop: total and cluster weight, recency and
    aggression. *)
Record HeatSums := {
  total_weight : f64;
  cluster_weight : f64;
  total_recent : f64;
  cluster_recent : f64;
  aggressive_cluster : f64;
  aggressive_total : f64 }.

Definition heat_step (self : AdaptivePolicy) (key : ClusterKey) (now : Instant) (s : HeatSums)
    (flow : FlowObservation) : HeatSums :=
  let age_secs := duration_as_secs_f64 (elapsed now (observed_at flow)) in
  let recency_weight := exp (fneg age_secs / 4.0)%f64 in
  let size_weight := (1.0 + fclamp_in (ln_1p (fmax (fo_notional_eth flow) 0.0) / 8.0) 0.0 0.5)%f64 in
  let gas_weight :=
    (1.0 + fclamp_in (fo_gas_price_gwei flow / fmax (gas_price_ewma_gwei self) 1.0) 0.0 2.0 * 0.10)%f64 in
  let weight := (recency_weight * size_weight * gas_weight)%f64 in
  let is_aggressive :=
    if (EPSILON <? gas_price_ewma_gwei self)%f64
       && (gas_price_ewma_gwei self * 1.18 <? fo_gas_price_gwei flow)%f64
    then recency_weight else 0.0%f64 in
  let mine := bool_decide (fo_key flow = key) in
  {| total_weight := total_weight s + weight;
     cluster_weight := if mine then cluster_weight s + weight else cluster_weight s;
     total_recent := total_recent s + recency_weight;
     cluster_recent := if mine then cluster_recent s + recency_weight else cluster_recent s;
     aggressive_cluster := if mine then aggressive_cluster s + is_aggressive else aggressive_cluster s;
     aggressive_total := aggressive_total s + is_aggressive |}%f64.

(** [part / total], zero when there is nothing to share. *)
Definition share (part total : f64) : f64 :=
  (if total <=? EPSILON then 0.0 else fclamp01 (part / total))%f64.

Definition cluster_heat (self : AdaptivePolicy) (key : ClusterKey) (now : Instant) : f64 :=
  match recent_flows self with
  | [] => 0.0%f64
  | flows =>
      let s := foldl (heat_step self key now) (Build_HeatSums 0.0 0.0 0.0 0.0 0.0 0.0) flows in
      if (total_weight s <=? EPSILON)%f64 then 0.0%f64
      else
        let local_share := fclamp01 (cluster_weight s / total_weight s)%f64 in
        let burst_share := share (cluster_recent s) (total_recent s) in
        let aggression_share := share (aggressive_cluster s) (aggressive_total s) in
        let dominance :=
          if (0.24 <? local_share)%f64 && (0.20 <? burst_share)%f64
          then fclamp01 ((local_share - 0.24) * 1.8 + (burst_share - 0.20) * 1.4)%f64
          else 0.0%f64 in
        fclamp01 (local_share * 0.42 + burst_share * 0.28 + aggression_share * 0.15
                  + dominance * 0.15)%f64
  end.

(** ** Scores and penalties *)

Definition competition_score (cluster_heat mempool_density gas_pressure size_pressure impact_pressure
    builder_pressure : f64) (regime : MarketRegime) : f64 :=
  let base := fclamp01
    (cluster_heat * 0.38 + mempool_density * 0.15 + gas_pressure * 0.15 + size_pressure * 0.12
     + impact_pressure * 0.10 + builder_pressure * 0.10)%f64 in
  let jump :=
    (logistic ((cluster_heat - 0.52) * 9.0) * 0.18
     + logistic ((mempool_density - 0.62) * 8.0) * 0.10
     + logistic ((gas_pressure - 0.58) * 8.5) * 0.08
     + logistic ((builder_pressure - 0.45) * 10.0) * 0.16)%f64 in
  fclamp01 (base + jump + by_regime regime 0.0 0.03 0.10 0.18)%f64.

Definition risk_score (failure_pressure latency_penalty poor_realization gas_pressure impact_pressure
    builder_pressure : f64) (regime : MarketRegime) : f64 :=
  let base := fclamp01
    (failure_pressure * 0.42 + latency_penalty * 0.20 + poor_realization * 0.16
     + gas_pressure * 0.07 + impact_pressure * 0.05)%f64 in
  let jump :=
    (logistic ((failure_pressure - 0.48) * 10.0) * 0.16
     + logistic ((latency_penalty - 0.45) * 8.0) * 0.09
     + logistic ((poor_realization - 0.32) * 9.0) * 0.11
     + logistic ((builder_pressure - 0.42) * 10.5) * 0.18)%f64 in
  fclamp01 (base + jump + by_regime regime 0.0 0.02 0.08 0.15)%f64.

(** [if x > knee { logistic((x - knee) * slope) * weight } else { 0.0 }]. *)
Definition knee_jump (x knee slope weight : f64) : f64 :=
  (if knee <? x then logistic ((x - knee) * slope) * weight else 0.0)%f64.

Definition competition_penalty (expected_profit_usd competition_score cluster_heat builder_pressure : f64)
    (regime : MarketRegime) : f64 :=
  let multiplier := by_regime regime 0.30 0.40 0.56 0.78 in
  let jump := (knee_jump cluster_heat 0.58 11.0 0.34 + knee_jump builder_pressure 0.44 10.5 0.28)%f64 in
  (expected_profit_usd * competition_score * (multiplier + jump))%f64.

Definition risk_penalty (expected_profit_usd risk_score failure_pressure builder_pressure : f64)
    (regime : MarketRegime) : f64 :=
  let multiplier := by_regime regime 0.42 0.54 0.68 0.88 in
  let jump := (knee_jump failure_pressure 0.42 12.0 0.26 + knee_jump builder_pressure 0.46 9.5 0.22)%f64 in
  (expected_profit_usd * risk_score * (multiplier + jump))%f64.

(** ** The flows *)

(** The [while] loop pops the front as long as it is past the horizon. *)
Definition too_old (now : Instant) (flow : FlowObservation) : bool :=
  FLOW_HORIZON_SECS * secs <? elapsed now (observed_at flow).
Definition prune (now : Instant) (self : AdaptivePolicy) : AdaptivePolicy :=
  self <[ recent_flows ::= drop_while (too_old now) (recent_flows self) ]>.

Definition observe_lookup_latency (self : AdaptivePolicy) (latency_ms : f64) : AdaptivePolicy :=
  self <[ lookup_latency_ewma_ms ::= ewma (lookup_latency_ewma_ms self) latency_ms EWMA_FAST ]>.

Definition observe_candidate_flow (now : Instant) (self : AdaptivePolicy) (key : ClusterKey)
    (notional_wei gas_price_wei : U256) : AdaptivePolicy :=
  let self := prune now self in
  let gas_price_gwei := wei_to_gwei_f64 gas_price_wei in
  let self := self <[ gas_price_ewma_gwei ::=
      if (gas_price_ewma_gwei self <=? EPSILON)%f64 then fmax gas_price_gwei 1e-9
      else ewma (gas_price_ewma_gwei self) gas_price_gwei EWMA_SLOW ]> in
  let flows := if (length (recent_flows self) =? FLOW_CAPACITY)%nat then tail (recent_flows self)
               else recent_flows self in
  self <[ recent_flows ::=
      flows ++ [{| fo_key := key; observed_at := now; fo_gas_price_gwei := gas_price_gwei;
                   fo_notional_eth := wei_to_eth_f64 notional_wei |}] ]>.

(** ** The preflight gate *)

Definition preflight_score (now : Instant) (self : AdaptivePolicy) (input : PreflightInput)
  : AdaptivePolicy * PreflightQuote :=
  let self := prune now self in
  let mempool_density := mempool_density_of self in
  let cluster_heat := cluster_heat self (pi_cluster input) now in
  let gas_pressure := gas_pressure self (wei_to_gwei_f64 (pi_gas_price_wei input)) in
  let notional_eth := pi_notional_eth input in
  let size_score := size_pressure notional_eth in
  let impact_hint := impact_hint self notional_eth (pi_path_len input) in
  let path_penalty := path_penalty (pi_path_len input) in
  let latency_penalty := latency_penalty self (lookup_latency_ewma_ms self) in
  let failure_pressure := failure_pressure_of self in
  let poor_realization := poor_realization_of self in
  let builder_pressure := builder_path_pressure self in
  let regime := market_regime mempool_density cluster_heat gas_pressure latency_penalty
                  failure_pressure poor_realization builder_pressure in
  let gas_floor_usd :=
    (wei_to_eth_f64 (u256_smul (pi_gas_price_wei input) (preflight_gas_estimate self))
     * ap_eth_usd_price self)%f64 in
  let notional_usd := (fmax notional_eth 0.0 * ap_eth_usd_price self)%f64 in
  let gross_edge_upper_usd :=
    (notional_usd * (0.00020 + impact_hint * 0.00115) * (1.0 - cluster_heat * 0.16)
     * (1.0 - path_penalty * 0.12))%f64 in
  let gas_drag_usd := (gas_floor_usd * (1.0 + gas_pressure * 0.85))%f64 in
  let competition_drag_usd :=
    (gross_edge_upper_usd
     * (cluster_heat * 0.42 + mempool_density * 0.18 + gas_pressure * 0.12))%f64 in
  let upper_bound_ev_usd := (gross_edge_upper_usd - gas_drag_usd - competition_drag_usd)%f64 in
  let preflight_score := fclamp01
    (impact_hint * 0.36 + size_score * 0.24 + (1.0 - cluster_heat) * 0.20
     + (1.0 - mempool_density) * 0.10 + (1.0 - gas_pressure) * 0.10 - path_penalty * 0.10)%f64 in
  let min_preflight_ev := (base_threshold_usd self * 0.55)%f64 in
  let should_continue :=
    (notional_eth >=? ap_min_large_swap_eth self)%f64 && (min_preflight_ev <? upper_bound_ev_usd)%f64
    && (preflight_score >=? 0.28)%f64 && (impact_hint >=? 0.18)%f64 && (cluster_heat <=? 0.92)%f64
    && (gas_pressure <=? 0.96)%f64 && (builder_pressure <=? 0.94)%f64 in
  let reject_reason : option string :=
    if should_continue then None
    else if (notional_eth <? ap_min_large_swap_eth self)%f64 then Some "notional_below_min"%string
    else if (upper_bound_ev_usd <=? min_preflight_ev)%f64 then Some "ev_upper_bound_below_min"%string
    else if (preflight_score <? 0.28)%f64 then Some "preflight_score_too_low"%string
    else if (impact_hint <? 0.18)%f64 then Some "impact_hint_too_low"%string
    else if (0.92 <? cluster_heat)%f64 then Some "cluster_saturated"%string
    else if (0.96 <? gas_pressure)%f64 then Some "gas_pressure_too_high"%string
    else if (0.94 <? builder_pressure)%f64 then Some "builder_path_toxic"%string
    else Some "preflight_reject"%string in
  (self, {| should_continue := should_continue; pq_regime := regime; pq_reject_reason := reject_reason;
            pq_preflight_score := preflight_score; upper_bound_ev_usd := upper_bound_ev_usd;
            estimated_gas_cost_usd := gas_drag_usd; pq_mempool_density := mempool_density;
            pq_cluster_heat := cluster_heat; pq_gas_pressure := gas_pressure;
            pq_impact_hint := impact_hint; pq_size_score := size_score |}).

(** ** The quote *)

(** The part of [quote] that depends on the outcome profile of the pair: its
    pressure, confidence and calibration. *)
Definition historical_view (self : AdaptivePolicy) (historical : option HistoricalOutcomeStats)
  : f64 * f64 * HistoricalCalibration :=
  match historical with
  | None => (0.0%f64, 0.0%f64, HistoricalCalibration_default)
  | Some profile =>
      let confidence := confidence_of (hs_samples profile) 48 in
      (historical_pressure profile, confidence, historical_calibration profile confidence)
  end.

Definition calibrated_probability (p : f64) (historical : option HistoricalOutcomeStats) (confidence : f64)
  : f64 :=
  match historical with
  | None => p
  | Some profile =>
      let target := fclamp_in
        (hs_success_rate profile * 0.62 + (1.0 - hs_accepted_not_included_rate profile) * 0.18
         + (1.0 - hs_revert_rate profile) * 0.10 + fclamp01 (hs_realized_capture profile) * 0.10)%f64
        0.04 0.99 in
      fclamp_in (p * (1.0 - confidence * 0.40) + target * confidence * 0.40)%f64 0.04 0.99
  end.

Definition calibrated_threshold (threshold : f64) (historical : option HistoricalOutcomeStats)
    (confidence : f64) : f64 :=
  match historical with
  | None => threshold
  | Some profile =>
      let threshold_penalty := fclamp01
        (hs_accepted_not_included_rate profile * 0.34 + hs_revert_rate profile * 0.26
         + fclamp01 (1.0 - hs_success_rate profile) * 0.24
         + fclamp01 (1.0 - hs_realized_capture profile) * 0.16)%f64 in
      (threshold * (1.0 + threshold_penalty * confidence * 0.75))%f64
  end.

Definition quote_decision (ev threshold p competition risk builder_pressure : f64) (regime : MarketRegime)
  : bool * option string :=
  let should_execute :=
    (threshold <? ev)%f64 && (p >=? min_probability_threshold regime)%f64
    && (competition <=? max_competition_threshold regime)%f64
    && (risk <=? max_risk_threshold regime)%f64 in
  (should_execute,
   if should_execute then None
   else if (ev <=? threshold)%f64 then Some "ev_real_below_threshold"%string
   else if (p <? min_probability_threshold regime)%f64 then Some "probability_too_low"%string
   else if (max_competition_threshold regime <? competition)%f64 then Some "competition_too_high"%string
   else if (max_risk_threshold regime <? risk)%f64 then Some "risk_too_high"%string
   else if (0.76 <? builder_pressure)%f64 then Some "builder_pressure_too_high"%string
   else Some "adaptive_reject"%string).

Definition quote (now : Instant) (self : AdaptivePolicy) (input : AdaptiveQuoteInput)
  : AdaptivePolicy * AdaptiveQuote :=
  let self := prune now self in
  let expected_profit_usd := (wei_to_eth_f64 (qi_expected_profit_wei input) * ap_eth_usd_price self)%f64 in
  let gas_cost_usd := (wei_to_eth_f64 (qi_execution_cost_wei input) * ap_eth_usd_price self)%f64 in
  let mempool_density := mempool_density_of self in
  let cluster_heat := cluster_heat self (qi_cluster input) now in
  let gas_pressure := gas_pressure self (wei_to_gwei_f64 (qi_gas_price_wei input)) in
  let size_pressure := size_pressure (qi_notional_eth input) in
  let impact_pressure :=
    fclamp01 (f64_of_Z (qi_price_impact_bps input) / f64_of_Z (ap_max_price_impact_bps self))%f64 in
  let latency_penalty := latency_penalty self (qi_lookup_latency_ms input) in
  let failure_pressure := failure_pressure_of self in
  let poor_realization := poor_realization_of self in
  let historical := historical_profile self (qi_pair input) (ck_router (qi_cluster input))
                      (qi_hour_utc input) in
  let builder_pressure :=
    match relay_pressure_override input with
    | Some pressure => pressure
    | None => builder_path_pressure_for_cluster self None (qi_cluster input)
    end in
  let '(historical_pressure, confidence, calibration) := historical_view self historical in
  let builder_pressure :=
    fclamp01 (builder_pressure * (1.0 - confidence * 0.45)
              + historical_pressure * confidence * 0.55)%f64 in
  let regime := recalibrated_regime
    (market_regime mempool_density cluster_heat gas_pressure latency_penalty failure_pressure
       poor_realization builder_pressure) (regime_shift calibration) in
  let context_priority_score := fclamp_in (qi_context_priority_score input) 0.0 1.5 in
  let context_toxicity_score := fclamp_in (qi_context_toxicity_score input) 0.0 1.0 in
  let competition_score := fclamp01
    (competition_score cluster_heat mempool_density gas_pressure size_pressure impact_pressure
       builder_pressure regime
     * chain_competition_mult self * (1.0 + (1.0 - fclamp01 context_priority_score) * 0.06)
     * (1.0 + context_toxicity_score * 0.20) * fmax (competition_mult calibration) 1e-9)%f64 in
  let risk_score := fclamp01
    (risk_score failure_pressure latency_penalty poor_realization gas_pressure impact_pressure
       builder_pressure regime
     * chain_risk_mult self * (1.0 + context_toxicity_score * 0.24)
     * (1.0 - fclamp01 context_priority_score * 0.08) * fmax (risk_mult calibration) 1e-9)%f64 in
  let p_positive := calibrated_probability
    (probability_positive competition_score risk_score failure_pressure latency_penalty
       poor_realization gas_pressure builder_pressure regime) historical confidence in
  let competition_penalty_usd :=
    competition_penalty expected_profit_usd competition_score cluster_heat builder_pressure regime in
  let risk_penalty_usd :=
    risk_penalty expected_profit_usd risk_score failure_pressure builder_pressure regime in
  let path_penalty_usd :=
    path_execution_penalty_usd expected_profit_usd builder_pressure failure_pressure latency_penalty
      gas_pressure context_toxicity_score in
  let ev_real_usd := (p_positive * expected_profit_usd - gas_cost_usd - competition_penalty_usd
                      - risk_penalty_usd - path_penalty_usd)%f64 in
  let threshold_dynamic_usd := calibrated_threshold
    (dynamic_threshold self mempool_density failure_pressure gas_pressure latency_penalty
       poor_realization cluster_heat builder_pressure regime
     * chain_threshold_mult self * (1.0 + context_toxicity_score * 0.18)
     * (1.0 - fclamp01 context_priority_score * 0.08)
     * fmax (threshold_mult calibration) 1e-9)%f64 historical confidence in
  let '(should_execute, reject_reason) :=
    quote_decision ev_real_usd threshold_dynamic_usd p_positive competition_score risk_score
      builder_pressure regime in
  (self, {| should_execute := should_execute; regime := regime; reject_reason := reject_reason;
            selected_relay := None; ev_real_usd := ev_real_usd;
            threshold_dynamic_usd := threshold_dynamic_usd; p_positive := p_positive;
            aq_competition_score := competition_score; aq_risk_score := risk_score;
            competition_penalty_usd := competition_penalty_usd; risk_penalty_usd := risk_penalty_usd;
            path_penalty_usd := path_penalty_usd; aq_mempool_density := mempool_density;
            aq_cluster_heat := cluster_heat; builder_pressure := builder_pressure;
            aq_latency_penalty := latency_penalty; aq_gas_pressure := gas_pressure;
            context_priority_score := context_priority_score;
            context_toxicity_score := context_toxicity_score |}).

(** ** Ranking relays *)

Definition relay_quote (self : AdaptivePolicy) (relay : string) : RelayQuote :=
  let stats := relay_stats self !! relay in
  let relay_pressure := builder_path_pressure_for_relay self relay in
  let accept_rate := from_option rs_accept_rate (relay_accept_rate_ewma self) stats in
  let inclusion_rate := from_option rs_inclusion_success (inclusion_success_rate_ewma self) stats in
  let accepted_not_included_rate :=
    from_option rs_accepted_not_included (accepted_not_included_rate_ewma self) stats in
  let revert_rate := from_option rs_included_revert (included_revert_rate_ewma self) stats in
  let submit_latency_ms := from_option rs_submit_latency (submit_latency_ewma_ms self) stats in
  let finalization_latency_ms :=
    from_option rs_finalization_latency (finalize_latency_ewma_ms self) stats in
  let submit_penalty := over_target submit_latency_ms SUBMIT_TARGET_MS in
  let finalize_penalty := over_target finalization_latency_ms FINALIZE_TARGET_MS in
  {| relay := relay; relay_pressure := relay_pressure; accept_rate := accept_rate;
     inclusion_rate := inclusion_rate; accepted_not_included_rate := accepted_not_included_rate;
     revert_rate := revert_rate; submit_latency_ms := submit_latency_ms;
     finalization_latency_ms := finalization_latency_ms;
     score := (relay_pressure * 0.48 + fclamp01 (1.0 - accept_rate) * 0.20
               + fclamp01 accepted_not_included_rate * 0.14 + fclamp01 revert_rate * 0.08
               + fclamp01 (1.0 - inclusion_rate) * 0.05 + submit_penalty * 0.03
               + finalize_penalty * 0.02)%f64 |}.

Definition relay_quote_for_cluster (self : AdaptivePolicy) (relay : string) (cluster : ClusterKey)
  : RelayQuote :=
  let q := relay_quote self relay in
  match relay_context_stats self !! (relay, cluster) with
  | None => q
  | Some context =>
      let confidence := confidence_of (rc_samples context) 24 in
      let miss_penalty := (fclamp01 (rc_accepted_not_included context) * confidence * 0.22)%f64 in
      let revert_penalty := (fclamp01 (rc_included_revert context) * confidence * 0.10)%f64 in
      let success_credit := (fclamp01 (rc_inclusion_success context) * confidence * 0.06)%f64 in
      q <[ relay_pressure ::= builder_path_pressure_for_cluster self (Some relay) cluster ]>
        <[ score ::= fclamp_in (score q + miss_penalty + revert_penalty - success_credit)%f64 0.0 2.0 ]>
  end.

Definition by_quote_score (left right : RelayQuote) : comparison := total_cmp (score left) (score right).

Definition rank_relays (self : AdaptivePolicy) (relays : list string) : list RelayQuote :=
  sort_by by_quote_score (relay_quote self <$> relays).
Definition rank_relays_for_cluster (self : AdaptivePolicy) (relays : list string) (cluster : ClusterKey)
  : list RelayQuote :=
  sort_by by_quote_score ((fun r => relay_quote_for_cluster self r cluster) <$> relays).

(** The quote for one relay of the ranking. *)
Definition quote_via (now : Instant) (self : AdaptivePolicy) (input : AdaptiveQuoteInput)
    (relay : option RelayQuote) : AdaptivePolicy * AdaptiveQuote :=
  let pressure := (fun q => builder_path_pressure_for_cluster self (Some (relay_of q))
                              (qi_cluster input)) <$> relay in
  let '(self, q) := quote now self (input <[ relay_pressure_override ::= pressure ]>) in
  match relay with
  | Some r => (self, q <[ selected_relay ::= Some (relay_of r) ]>)
  | None => (self, q)
  end.

(** [clk i] is the reading of the [i]-th call of [quote]. *)
Fixpoint quote_rest (clk : nat -> Instant) (i : nat) (self : AdaptivePolicy) (input : AdaptiveQuoteInput)
    (best : AdaptiveQuote) (relays : list RelayQuote) : AdaptivePolicy * AdaptiveQuote :=
  match relays with
  | [] => (self, best)
  | r :: relays =>
      let '(self, candidate) := quote_via (clk i) self input (Some r) in
      quote_rest clk (S i) self input (if is_better_quote candidate best then candidate else best) relays
  end.

Definition quote_for_relays (clk : nat -> Instant) (self : AdaptivePolicy) (input : AdaptiveQuoteInput)
    (relays : list string) : AdaptivePolicy * AdaptiveQuote :=
  let ranked := rank_relays self relays in
  let '(self, best) := quote_via (clk 0%nat) self input (head ranked) in
  quote_rest clk 1%nat self input best (tail ranked).
End Policy.

(** ** Recording outcomes *)

Definition bool_rate (b : bool) : f64 := (if b then 1.0 else 0.0)%f64.

Definition record_submit_success (self : AdaptivePolicy) (latency_ms : f64) : AdaptivePolicy :=
  self <[ submit_latency_ewma_ms ::= ewma (submit_latency_ewma_ms self) latency_ms EWMA_FAST ]>
       <[ relay_accept_rate_ewma ::= ewma (relay_accept_rate_ewma self) 1.0 EWMA_FAST ]>
       <[ relay_reject_rate_ewma ::= ewma (relay_reject_rate_ewma self) 0.0 EWMA_FAST ]>
       <[ accepted_not_included_rate_ewma ::=
            ewma (accepted_not_included_rate_ewma self) 0.0 EWMA_FAST ]>
       <[ included_revert_rate_ewma ::= ewma (included_revert_rate_ewma self) 0.0 EWMA_FAST ]>.

Definition record_submit_failure (self : AdaptivePolicy) (latency_ms : f64) : AdaptivePolicy :=
  self <[ submit_latency_ewma_ms ::= ewma (submit_latency_ewma_ms self) latency_ms EWMA_FAST ]>
       <[ relay_accept_rate_ewma ::= ewma (relay_accept_rate_ewma self) 0.0 EWMA_FAST ]>
       <[ relay_reject_rate_ewma ::= ewma (relay_reject_rate_ewma self) 1.0 EWMA_FAST ]>
       <[ success_rate_ewma ::= ewma (success_rate_ewma self) 0.0 EWMA_FAST ]>
       <[ failure_rate_ewma ::= ewma (failure_rate_ewma self) 1.0 EWMA_FAST ]>.

Definition record_finalization (self : AdaptivePolicy) (expected_profit_wei : U256)
    (realized_profit_eth : f64) (success : bool) (finalization_latency_ms : f64) : AdaptivePolicy :=
  self <[ finalize_latency_ewma_ms ::=
            ewma (finalize_latency_ewma_ms self) finalization_latency_ms EWMA_FAST ]>
       <[ timeout_rate_ewma ::= ewma (timeout_rate_ewma self) 0.0 EWMA_FAST ]>
       <[ success_rate_ewma ::= ewma (success_rate_ewma self) (bool_rate success) EWMA_FAST ]>
       <[ inclusion_success_rate_ewma ::=
            ewma (inclusion_success_rate_ewma self) (bool_rate success) EWMA_FAST ]>
       <[ accepted_not_included_rate_ewma ::=
            ewma (accepted_not_included_rate_ewma self) 0.0 EWMA_FAST ]>
       <[ included_revert_rate_ewma ::=
            ewma (included_revert_rate_ewma self) (bool_rate (negb success)) EWMA_FAST ]>
       <[ failure_rate_ewma ::= ewma (failure_rate_ewma self) (bool_rate (negb success)) EWMA_FAST ]>
       <[ realized_capture_ewma ::=
            ewma (realized_capture_ewma self)
              (capture_ratio expected_profit_wei realized_profit_eth) EWMA_SLOW ]>.

Definition record_receipt_timeout (self : AdaptivePolicy) (finalization_latency_ms : f64)
  : AdaptivePolicy :=
  self <[ finalize_latency_ewma_ms ::=
            ewma (finalize_latency_ewma_ms self) finalization_latency_ms EWMA_FAST ]>
       <[ timeout_rate_ewma ::= ewma (timeout_rate_ewma self) 1.0 EWMA_FAST ]>
       <[ inclusion_success_rate_ewma ::= ewma (inclusion_success_rate_ewma self) 0.0 EWMA_FAST ]>
       <[ accepted_not_included_rate_ewma ::=
            ewma (accepted_not_included_rate_ewma self) 1.0 EWMA_FAST ]>
       <[ included_revert_rate_ewma ::= ewma (included_revert_rate_ewma self) 0.0 EWMA_FAST ]>
       <[ success_rate_ewma ::= ewma (success_rate_ewma self) 0.0 EWMA_FAST ]>
       <[ failure_rate_ewma ::= ewma (failure_rate_ewma self) 1.0 EWMA_FAST ]>.

(** [entry(relay).or_insert_with(default)], updated. *)
Definition update_relay (f : RelayStats -> RelayStats) (self : AdaptivePolicy) (relay : string)
  : AdaptivePolicy :=
  self <[ relay_stats ::=
      <[relay := f (default RelayStats_default (relay_stats self !! relay))]> (relay_stats self) ]>.

Definition record_submit_success_for_relay (self : AdaptivePolicy) (relay : string) (latency_ms : f64)
  : AdaptivePolicy :=
  record_submit_success
    (update_relay (fun st =>
       st <[ rs_submit_latency ::= ewma (rs_submit_latency st) latency_ms EWMA_FAST ]>
          <[ rs_accept_rate ::= ewma (rs_accept_rate st) 1.0 EWMA_FAST ]>
          <[ rs_reject_rate ::= ewma (rs_reject_rate st) 0.0 EWMA_FAST ]>
          <[ rs_accepted_not_included ::= ewma (rs_accepted_not_included st) 0.0 EWMA_FAST ]>
          <[ rs_included_revert ::= ewma (rs_included_revert st) 0.0 EWMA_FAST ]>) self relay)
    latency_ms.

Definition record_submit_failure_for_relay (self : AdaptivePolicy) (relay : string) (latency_ms : f64)
  : AdaptivePolicy :=
  record_submit_failure
    (update_relay (fun st =>
       st <[ rs_submit_latency ::= ewma (rs_submit_latency st) latency_ms EWMA_FAST ]>
          <[ rs_accept_rate ::= ewma (rs_accept_rate st) 0.0 EWMA_FAST ]>
          <[ rs_reject_rate ::= ewma (rs_reject_rate st) 1.0 EWMA_FAST ]>) self relay)
    latency_ms.

Definition record_finalization_for_relay (self : AdaptivePolicy) (relay : string)
    (expected_profit_wei : U256) (realized_profit_eth : f64) (success : bool)
    (finalization_latency_ms : f64) : AdaptivePolicy :=
  record_finalization
    (update_relay (fun st =>
       st <[ rs_finalization_latency ::=
               ewma (rs_finalization_latency st) finalization_latency_ms EWMA_FAST ]>
          <[ rs_inclusion_success ::= ewma (rs_inclusion_success st) (bool_rate success) EWMA_FAST ]>
          <[ rs_accepted_not_included ::= ewma (rs_accepted_not_included st) 0.0 EWMA_FAST ]>
          <[ rs_included_revert ::=
               ewma (rs_included_revert st) (bool_rate (negb success)) EWMA_FAST ]>
          <[ rs_realized_capture ::=
               ewma (rs_realized_capture st)
                 (capture_ratio expected_profit_wei realized_profit_eth) EWMA_SLOW ]>) self relay)
    expected_profit_wei realized_profit_eth success finalization_latency_ms.

Definition record_receipt_timeout_for_relay (self : AdaptivePolicy) (relay : string)
    (finalization_latency_ms : f64) : AdaptivePolicy :=
  record_receipt_timeout
    (update_relay (fun st =>
       st <[ rs_finalization_latency ::=
               ewma (rs_finalization_latency st) finalization_latency_ms EWMA_FAST ]>
          <[ rs_inclusion_success ::= ewma (rs_inclusion_success st) 0.0 EWMA_FAST ]>
          <[ rs_accepted_not_included ::= ewma (rs_accepted_not_included st) 1.0 EWMA_FAST ]>
          <[ rs_included_revert ::= ewma (rs_included_revert st) 0.0 EWMA_FAST ]>) self relay)
    finalization_latency_ms.

Definition record_contextual_outcome (self : AdaptivePolicy) (relay : string) (cluster : ClusterKey)
    (expected_profit_wei : U256) (realized_profit_eth : f64) (outcome : ContextualOutcomeKind)
  : AdaptivePolicy :=
  let st := default RelayContextStats_default (relay_context_stats self !! (relay, cluster)) in
  let '(success, miss, revert) :=
    match outcome with
    | IncludedSuccess => (1.0, 0.0, 0.0)
    | AcceptedNotIncluded => (0.0, 1.0, 0.0)
    | IncludedRevert => (0.0, 0.0, 1.0)
    | SubmitFailed => (0.0, 0.0, 0.0)
    end%f64 in
  let st :=
    {| rc_inclusion_success := ewma (rc_inclusion_success st) success EWMA_FAST;
       rc_accepted_not_included := ewma (rc_accepted_not_included st) miss EWMA_FAST;
       rc_included_revert := ewma (rc_included_revert st) revert EWMA_FAST;
       rc_realized_capture := ewma (rc_realized_capture st)
                                (capture_ratio expected_profit_wei realized_profit_eth) EWMA_FAST;
       rc_samples := u64_sadd (rc_samples st) 1 |} in
  self <[ relay_context_stats ::= <[(relay, cluster) := st]> (relay_context_stats self) ]>.
