(* ===== verification/AdaptiveFacts.v ===== *)
(** * The adaptive policy: theorems

    The window of flows, the ranking of relays, the choice of a relay's quote,
    the profiles, and the ranges of what a quote reports. *)
From S2P Require Import Prelude F64 Text Ethers Config Opportunity Adaptive.
#[local] Open Scope Z_scope.

(** ** The flows *)

Lemma too_old_later now x y :
  observed_at x <= observed_at y -> too_old now x = false -> too_old now y = false.
Proof. unfold too_old, elapsed; rewrite !Z.ltb_ge; lia. Qed.

Lemma too_old_mono now now' x : now <= now' -> too_old now x = true -> too_old now' x = true.
Proof. unfold too_old, elapsed; rewrite !Z.ltb_lt; lia. Qed.

Lemma prune_filter now self :
  ordered observed_at (recent_flows self) ->
  recent_flows (prune now self) = filter (fun f => too_old now f = false) (recent_flows self).
Proof. intros O. simpl. apply drop_while_filter with (time := observed_at); [apply too_old_later|done]. Qed.

Lemma drop_while_idem {A} (p : A -> bool) q : drop_while p (drop_while p q) = drop_while p q.
Proof. induction q as [|x q IH]; simpl; [done|]. destruct (p x) eqn:E; [done|]. simpl. by rewrite E. Qed.

Lemma prune_idem now self : prune now (prune now self) = prune now self.
Proof. unfold prune; simpl. by rewrite drop_while_idem. Qed.

(** The flows are in the order of their times, none later than [now], and at
    most the capacity. *)
Definition flows_ok (now : Instant) (self : AdaptivePolicy) : Prop :=
  ordered observed_at (recent_flows self) /\
  Forall (fun f => observed_at f <= now) (recent_flows self) /\
  (length (recent_flows self) <= FLOW_CAPACITY)%nat.

Lemma prune_ok now now' self : flows_ok now self -> now <= now' -> flows_ok now' (prune now' self).
Proof.
  intros (O & F & L) H. unfold flows_ok. rewrite prune_filter by done. split_and!.
  - by apply ordered_filter.
  - apply Forall_filter_keep. eapply Forall_impl; [exact F|]. simpl; lia.
  - etransitivity; [apply length_filter|done].
Qed.

Lemma Forall_tail_keep {A} (P : A -> Prop) l : Forall P l -> Forall P (tail l).
Proof. destruct l; [done|]. by intros [_ F]%Forall_cons. Qed.

Lemma observe_ok now now' self key w g :
  flows_ok now self -> now <= now' -> flows_ok now' (observe_candidate_flow now' self key w g).
Proof.
  intros F H. destruct (prune_ok now now' self F H) as (O & T & L).
  unfold flows_ok, observe_candidate_flow. set (p := prune now' self) in *. simpl.
  set (q := if (length (recent_flows p) =? FLOW_CAPACITY)%nat then tail (recent_flows p)
            else recent_flows p).
  assert (Oq : ordered observed_at q) by (unfold q; destruct (_ =? _)%nat; [by apply ordered_tail|done]).
  assert (Tq : Forall (fun f => observed_at f <= now') q)
    by (unfold q; destruct (_ =? _)%nat; [by apply Forall_tail_keep|done]).
  assert (Lq : (length q < FLOW_CAPACITY)%nat).
  { unfold q. destruct (Nat.eqb_spec (length (recent_flows p)) FLOW_CAPACITY) as [E|N]; [|lia].
    assert (0 < FLOW_CAPACITY)%nat by (unfold FLOW_CAPACITY; lia).
    destruct (recent_flows p); simpl in *; lia. }
  split_and!.
  - by apply ordered_app.
  - apply Forall_app. split; [done|]. by apply Forall_singleton.
  - rewrite length_app, Nat.add_1_r. exact Lq.
Qed.

(** ** Ranking *)

Lemma rank_relays_for_cluster_perm self relays cluster :
  rank_relays_for_cluster self relays cluster ≡ₚ
  ((fun r => relay_quote_for_cluster self r cluster) <$> relays).
Proof. apply sort_by_perm. Qed.
Lemma rank_relays_perm self relays : rank_relays self relays ≡ₚ (relay_quote self <$> relays).
Proof. apply sort_by_perm. Qed.

Lemma relay_of_quote self r : relay_of (relay_quote self r) = r.
Proof. done. Qed.
Lemma relay_of_cluster_quote self r c : relay_of (relay_quote_for_cluster self r c) = r.
Proof. unfold relay_quote_for_cluster. by destruct (relay_context_stats self !! (r, c)). Qed.

Lemma ranked_relays self relays : (relay_of <$> rank_relays self relays) ≡ₚ relays.
Proof.
  rewrite rank_relays_perm, <- list_fmap_compose.
  rewrite (list_fmap_ext _ id relays); [by rewrite list_fmap_id|]. done.
Qed.

Lemma cluster_relays self relays c : (relay_of <$> rank_relays_for_cluster self relays c) ≡ₚ relays.
Proof.
  rewrite rank_relays_for_cluster_perm, <- list_fmap_compose.
  rewrite (list_fmap_ext _ id relays); [by rewrite list_fmap_id|].
  intros i r _. apply relay_of_cluster_quote.
Qed.

(** ** Quotes at one time *)

Section Quotes.
Context (exp ln_1p : f64 -> f64) (t : Instant) (input : AdaptiveQuoteInput).
Abbreviation via := (quote_via exp ln_1p t).

Lemma quote_prune self i : quote exp ln_1p t (prune t self) i = quote exp ln_1p t self i.
Proof. unfold quote. by rewrite prune_idem. Qed.

Lemma quote_state self i : (quote exp ln_1p t self i).1 = prune t self.
Proof.
  unfold quote. destruct (historical_view _ _) as [[? ?] ?]. by destruct (quote_decision _ _ _ _ _ _ _).
Qed.

Lemma path_pressure_prune self rl c :
  builder_path_pressure_for_cluster (prune t self) rl c = builder_path_pressure_for_cluster self rl c.
Proof.
  unfold builder_path_pressure_for_cluster, builder_path_pressure_for_relay, builder_path_pressure,
    poor_realization_of.
  by destruct self.
Qed.

Lemma via_prune self r : via (prune t self) input r = via self input r.
Proof.
  unfold quote_via. destruct r as [r|]; cbn [fmap option_fmap option_map].
  - rewrite path_pressure_prune, quote_prune. reflexivity.
  - rewrite quote_prune. reflexivity.
Qed.

Lemma via_state self r : (via self input r).1 = prune t self.
Proof.
  unfold quote_via. match goal with |- context [quote _ _ _ _ ?i] => pose proof (quote_state self i) as Q end.
  destruct (quote exp ln_1p t self _) as [s q]. by destruct r.
Qed.

(** The quote for one relay, the clock standing at [t]. *)
Definition relay_view (self : AdaptivePolicy) (r : RelayQuote) : AdaptiveQuote := (via self input (Some r)).2.

Lemma relay_view_selected self r : selected_relay (relay_view self r) = Some (relay_of r).
Proof. unfold relay_view, quote_via. by destruct (quote _ _ _ _ _). Qed.

Lemma better_executes c b :
  should_execute (if is_better_quote c b then c else b) = should_execute c || should_execute b.
Proof.
  unfold is_better_quote. destruct (should_execute c) eqn:C, (should_execute b) eqn:B; simpl;
    rewrite ?C, ?B; try done; repeat case_match; congruence.
Qed.

Lemma quote_rest_spec self rs : forall i best,
  let '(s, q) := quote_rest exp ln_1p (fun _ => t) i (prune t self) input best rs in
  s = prune t self /\
  (q = best \/ exists r, r ∈ rs /\ q = relay_view self r) /\
  should_execute q = should_execute best || existsb (fun r => should_execute (relay_view self r)) rs.
Proof.
  induction rs as [|r rs IH]; intros i best; simpl.
  { split_and!; auto. by rewrite orb_false_r. }
  rewrite via_prune. pose proof (via_state self (Some r)) as S.
  assert (V : (via self input (Some r)).2 = relay_view self r) by done.
  destruct (via self input (Some r)) as [s c]. simpl in S, V. subst s c.
  specialize (IH (Datatypes.S i) (if is_better_quote (relay_view self r) best then relay_view self r else best)).
  destruct (quote_rest _ _ _ _ _ _ _ _) as [s q]. destruct IH as (-> & C & E). split_and!; [done| |].
  - destruct C as [->|(r' & H & ->)].
    + destruct (is_better_quote _ _); [right; exists r; split; [apply list_elem_of_here|done]|auto].
    + right. exists r'. split; [by apply list_elem_of_further|done].
  - rewrite E, better_executes. destruct (should_execute best), (should_execute (relay_view self r)); done.
Qed.
End Quotes.

(** ** Profiles *)

(** The profiles of one router and hour, in order. *)
Definition bucket (k : RouterHourKey) (profiles : list HistoricalOutcomeProfile)
  : list HistoricalOutcomeStats :=
  stats_of_profile <$> filter (fun p => router_hour p = k) profiles.

Lemma profiles_fold profiles :
  let '(historical, rollup) := foldl profile_step (∅, ∅) profiles in
  (forall k, historical !! k = last (stats_of_profile <$> filter (fun p => profile_key p = k) profiles)) /\
  (forall k, rollup !! k = if decide (bucket k profiles = []) then None else Some (bucket k profiles)).
Proof.
  induction profiles as [|p profiles IH] using rev_ind; [done|].
  rewrite foldl_app. simpl. destruct (foldl profile_step (∅, ∅) profiles) as [h r]. simpl.
  destruct IH as [H R]. split; intros k; unfold bucket; rewrite filter_app, fmap_app, filter_cons.
  - destruct (decide (profile_key p = k)) as [<-|N]; simpl.
    + by rewrite lookup_insert_eq, last_snoc.
    + by rewrite lookup_insert_ne, app_nil_r.
  - destruct (decide (router_hour p = k)) as [<-|N]; simpl.
    + rewrite lookup_insert_eq, R. fold (bucket (router_hour p) profiles).
      destruct (decide (_ ++ _ = [])) as [E|_]; [by apply app_eq_nil in E as [_ E]|].
      destruct (decide (bucket (router_hour p) profiles = [])) as [->|_]; done.
    + rewrite lookup_insert_ne, app_nil_r by done. apply R.
Qed.

(** ** Traces of observations *)

Record observation := {
  ob_time : Instant;
  ob_key : ClusterKey;
  ob_notional : U256;
  ob_gas_price : U256 }.
Definition observe (self : AdaptivePolicy) (o : observation) : AdaptivePolicy :=
  observe_candidate_flow (ob_time o) self (ob_key o) (ob_notional o) (ob_gas_price o).
Fixpoint times_from (from : Instant) (os : list observation) (now : Instant) : Prop :=
  match os with
  | [] => from <= now
  | o :: os => from <= ob_time o /\ times_from (ob_time o) os now
  end.

Lemma observations_ok os : forall from self now,
  flows_ok from self -> times_from from os now -> flows_ok now (foldl observe self os).
Proof.
  induction os as [|o os IH]; intros from self now F T; simpl in *.
  - destruct F as (O & F & L). split_and!; [done| |done]. eapply Forall_impl; [exact F|]. simpl; lia.
  - destruct T as [L T]. apply (IH (ob_time o)); [|done]. by eapply observe_ok.
Qed.

(** ** Properties *)

(** The window of flows: after any observations with a clock that does not
    go back, it holds at most 2048 flows in the order of their times, and a
    look at any later time leaves exactly those at most twelve seconds old. *)
Theorem flow_window_spec config os now :
  times_from 0 os now ->
  let self := foldl observe (AdaptivePolicy_new config) os in
  let seen := recent_flows (prune now self) in
  (length (recent_flows self) <= 2048)%nat /\ ordered observed_at (recent_flows self) /\
  seen = filter (fun f => now - observed_at f <= 12 * secs) (recent_flows self) /\
  Forall (fun f => 0 <= now - observed_at f <= 12 * secs) seen.
Proof.
  intros T self seen.
  assert (F0 : flows_ok 0 (AdaptivePolicy_new config)).
  { split_and!; [done|constructor|]. unfold FLOW_CAPACITY. simpl. lia. }
  destruct (observations_ok os 0 _ now F0 T) as (O & F & L). fold self in O, F, L.
  assert (E : seen = filter (fun f => now - observed_at f <= 12 * secs) (recent_flows self)).
  { unfold seen. rewrite prune_filter by done.
    apply list_filter_iff. intros f.
    unfold too_old, elapsed, FLOW_HORIZON_SECS, secs. rewrite Z.ltb_ge. lia. }
  split_and!; [exact L|done|done|]. rewrite E. apply Forall_forall. intros f [H Hf]%list_elem_of_filter.
  rewrite Forall_forall in F. specialize (F f Hf). simpl in F. lia.
Qed.

Definition sample_key : ClusterKey :=
  {| ck_router := 1; ck_token_in := 2; ck_token_out := 3; ck_selector := [0; 0; 0; 1] |}.
Definition observation_at (t : Z) : observation :=
  {| ob_time := t * secs; ob_key := sample_key; ob_notional := 10 ^ 18; ob_gas_price := 30 * 10 ^ 9 |}.

Lemma flow_window_spec_witness :
  let self := foldl observe (AdaptivePolicy_new (sample_config Conservative true []))
                [observation_at 1; observation_at 5; observation_at 14] in
  (observed_at <$> recent_flows (prune (15 * secs) self)) = [5 * secs; 14 * secs] /\
  (length (recent_flows self) <= 2048)%nat.
Proof.
  intros self.
  destruct (flow_window_spec (sample_config Conservative true [])
    [observation_at 1; observation_at 5; observation_at 14] (15 * secs)
    ltac:(simpl; unfold secs; lia)) as (L & _ & E & _).
  split; [|exact L]. unfold self. rewrite E. vm_compute. reflexivity.
Defined.

(** Ranking relays for a cluster returns every relay once, each with its own
    quote, in the order of their scores, the lowest first. *)
Theorem rank_relays_for_cluster_spec self relays cluster :
  let ranked := rank_relays_for_cluster self relays cluster in
  (relay_of <$> ranked) ≡ₚ relays /\
  Forall (fun q => q = relay_quote_for_cluster self (relay_of q) cluster) ranked /\
  (forall i j q r, (i <= j)%nat -> ranked !! i = Some q -> ranked !! j = Some r ->
     f64_key (score q) <= f64_key (score r)).
Proof.
  intros ranked. split_and!.
  - unfold ranked. rewrite rank_relays_for_cluster_perm, <- list_fmap_compose.
    rewrite (list_fmap_ext _ id relays); [by rewrite list_fmap_id|].
    intros i r _. apply relay_of_cluster_quote.
  - unfold ranked. rewrite rank_relays_for_cluster_perm. apply Forall_fmap, Forall_forall.
    intros r _. simpl. by rewrite relay_of_cluster_quote.
  - exact (sort_by_sorted (fun q => f64_key (score q)) _).
Qed.

(** With the clock standing still, quoting several relays executes exactly
    when the quote through one of them would; the quote returned is the one of
    a relay of the list, which it names, or of no relay when there is none. *)
Theorem quote_for_relays_spec exp ln_1p t self input relays :
  let '(s, q) := quote_for_relays exp ln_1p (fun _ => t) self input relays in
  let view r := relay_view exp ln_1p t input self (relay_quote self r) in
  s = prune t self /\
  match relays with
  | [] => q = (quote exp ln_1p t self (input <[ relay_pressure_override ::= None ]>)).2
  | _ => (exists r, r ∈ relays /\ q = view r /\ selected_relay q = Some r) /\
         should_execute q = existsb (fun r => should_execute (view r)) relays
  end.
Proof.
  unfold quote_for_relays. pose proof (rank_relays_perm self relays) as P.
  destruct (rank_relays self relays) as [|r rs] eqn:R.
  - apply Permutation_nil_l, eq_sym, fmap_nil_inv in P. subst relays. simpl.
    pose proof (via_state exp ln_1p t input self None) as S.
    assert (V : (quote_via exp ln_1p t self input None).2 =
                (quote exp ln_1p t self (input <[ relay_pressure_override ::= None ]>)).2)
      by (unfold quote_via; by destruct (quote _ _ _ _ _)).
    destruct (quote_via exp ln_1p t self input None) as [s q]. simpl in *. by subst.
  - simpl. pose proof (via_state exp ln_1p t input self (Some r)) as S.
    assert (V : (quote_via exp ln_1p t self input (Some r)).2 = relay_view exp ln_1p t input self r) by done.
    destruct (quote_via exp ln_1p t self input (Some r)) as [s c]. simpl in S, V. subst s c.
    pose proof (quote_rest_spec exp ln_1p t input self rs 1 (relay_view exp ln_1p t input self r)) as Q.
    destruct (quote_rest _ _ _ _ _ _ _ _) as [s q]. destruct Q as (-> & C & E). split; [done|].
    destruct relays as [|r0 relays']; [by apply Permutation_length in P|].
    set (relays := r0 :: relays') in *.
    assert (In : exists r', r' ∈ r :: rs /\ q = relay_view exp ln_1p t input self r').
    { destruct C as [->|(r' & H & ->)]; [exists r|exists r']; (split; [|done]);
        [apply list_elem_of_here|by apply list_elem_of_further]. }
    split.
    + destruct In as (r' & H & ->). rewrite P in H. apply list_elem_of_fmap in H as (x & -> & H).
      exists x. split; [done|]. split; [done|]. apply relay_view_selected.
    + rewrite E. change (existsb (fun r => should_execute (relay_view exp ln_1p t input self r)) (r :: rs) =
        existsb (fun x => should_execute (relay_view exp ln_1p t input self (relay_quote self x))) relays).
      apply Bool.eq_iff_eq_true. rewrite !existsb_exists. split.
      * intros (y & H & B). apply list_elem_of_In in H. rewrite P in H.
        apply list_elem_of_fmap in H as (x & -> & H). exists x. split; [by apply list_elem_of_In|done].
      * intros (x & H & B). exists (relay_quote self x). split; [|done].
        apply list_elem_of_In. rewrite P. apply list_elem_of_fmap. exists x. split; [done|by apply list_elem_of_In].
Qed.

(** ** Decisions and ranges *)

Definition unit_or_nan (x : f64) : Prop := is_nan x = true \/ (fle 0 x = true /\ fle x 1 = true).

Lemma fclamp_or_nan x lo hi :
  fle lo hi = true ->
  is_nan (fclamp_in x lo hi) = true \/ (fle lo (fclamp_in x lo hi) = true /\ fle (fclamp_in x lo hi) hi = true).
Proof.
  intros H. destruct (is_nan x) eqn:N; [|right; by apply fclamp_in_range].
  destruct x; try done. left. by rewrite fclamp_in_nan.
Qed.
Lemma fclamp01_unit x : unit_or_nan (fclamp01 x).
Proof. by apply fclamp_or_nan. Qed.

(** The decision of a quote whose figures are numbers: it executes exactly
    when the value is above the threshold, the probability reaches the regime's
    minimum, and competition and risk stay within its maxima; otherwise the
    reason names the first of the four that fails. The two reasons after these
    are never given. *)
Theorem quote_decision_spec ev thr p c r bp regime :
  is_nan ev = false -> is_nan thr = false -> is_nan p = false -> is_nan c = false -> is_nan r = false ->
  let '(execute, reason) := quote_decision ev thr p c r bp regime in
  if execute then
    reason = None /\ flt thr ev = true /\ fle (min_probability_threshold regime) p = true /\
    fle c (max_competition_threshold regime) = true /\ fle r (max_risk_threshold regime) = true
  else
    (fle ev thr = true /\ reason = Some "ev_real_below_threshold"%string) \/
    (fle ev thr = false /\ flt p (min_probability_threshold regime) = true /\
       reason = Some "probability_too_low"%string) \/
    (fle ev thr = false /\ flt p (min_probability_threshold regime) = false /\
     flt (max_competition_threshold regime) c = true /\ reason = Some "competition_too_high"%string) \/
    (fle ev thr = false /\ flt p (min_probability_threshold regime) = false /\
     flt (max_competition_threshold regime) c = false /\ flt (max_risk_threshold regime) r = true /\
     reason = Some "risk_too_high"%string).
Proof.
  intros Ne Nt Np Nc Nr. unfold quote_decision.
  assert (Nm : is_nan (min_probability_threshold regime) = false) by (by destruct regime).
  assert (Nx : is_nan (max_competition_threshold regime) = false) by (by destruct regime).
  assert (Ny : is_nan (max_risk_threshold regime) = false) by (by destruct regime).
  rewrite (fle_flt ev thr), (fle_flt (min_probability_threshold regime) p), (fle_flt c), (fle_flt r) by done.
  destruct (flt thr ev); simpl; [|auto].
  destruct (flt p _); simpl; [auto 8|]. destruct (flt _ c); simpl; [auto 8|].
  destruct (flt _ r); simpl; [auto 10|]. auto.
Qed.

Lemma quote_decision_spec_witness :
  quote_decision 3.0 2.0 0.5 0.2 0.2 0.9 Calm = (false, Some "probability_too_low"%string) /\
  flt 0.5 0.54 = true.
Proof.
  pose proof (quote_decision_spec 3.0 2.0 0.5 0.2 0.2 0.9 Calm eq_refl eq_refl eq_refl eq_refl eq_refl) as H.
  destruct (quote_decision 3.0 2.0 0.5 0.2 0.2 0.9 Calm) as [[] reason] eqn:E; [vm_compute in E; congruence|].
  destruct H as [[H _]|[(_ & H & ->)|[(_ & H & _)|(_ & H & _)]]].
  - vm_compute in H; congruence.
  - split; [reflexivity|exact H].
  - vm_compute in H; congruence.
  - vm_compute in H; congruence.
Defined.

(** What a quote reports stays in range, whatever the state, the input and
    the transcendental functions: competition, risk, density, heat, builder
    pressure and latency penalty between 0 and 1, the probability between 0.04
    and 0.99 — or it is not a number; and a rejected quote has a reason, an
    executed one none. *)
Theorem quote_ranges exp ln_1p now self input :
  let q := (quote exp ln_1p now self input).2 in
  unit_or_nan (aq_competition_score q) /\ unit_or_nan (aq_risk_score q) /\
  unit_or_nan (aq_mempool_density q) /\ unit_or_nan (builder_pressure q) /\
  unit_or_nan (aq_latency_penalty q) /\ unit_or_nan (aq_cluster_heat q) /\
  (is_nan (p_positive q) = true \/
   (fle 0.04 (p_positive q) = true /\ fle (p_positive q) 0.99 = true)) /\
  (should_execute q = true <-> reject_reason q = None).
Proof.
  unfold quote. destruct (historical_view _ _) as [[hp conf] cal].
  match goal with |- context [quote_decision ?a ?b ?c ?d ?e ?f ?g] =>
    assert (D : forall x y, quote_decision a b c d e f g = (x, y) -> (x = true <-> y = None));
    [unfold quote_decision; intros x y [= <- <-]; repeat case_match; done|];
    destruct (quote_decision a b c d e f g) as [x y] eqn:Q
  end.
  simpl. split_and!; try apply fclamp01_unit; [| |by apply D].
  - unfold cluster_heat. destruct (recent_flows _); [right; split; reflexivity|].
    destruct (_ <=? _)%f64; [right; split; reflexivity|]. apply fclamp01_unit.
  - unfold calibrated_probability, probability_positive. destruct (historical_profile _ _ _ _).
    + by apply fclamp_or_nan.
    + match goal with |- context [fclamp_in ?x 0.04 0.985] =>
        destruct (fclamp_or_nan x 0.04 0.985 eq_refl) as [N|[L H]] end; [by left|right].
      split; [done|]. eapply fle_trans; [exact H|reflexivity].
Qed.

(** Profiles: after loading them, a pair's profile is the last one loaded
    for its router, pair and hour; the signal of a router and hour is the
    average over the profiles of its pairs weighted by their samples, with both
    scores between 0 and 1 or not a number; and a router and hour without any
    profile is neutral. Earlier profiles leave no trace. *)
Theorem historical_profiles_spec self profiles router pair hour :
  let self' := apply_historical_profiles self profiles in
  historical_profile self' pair router hour =
    last (stats_of_profile <$>
          filter (fun p => hp_router p = router /\ hp_pair p = pair /\ hp_hour_utc p = hour) profiles) /\
  let own := stats_of_profile <$> filter (fun p => hp_router p = router /\ hp_hour_utc p = hour) profiles in
  let s := context_signal self' router hour in
  match own with
  | [] => s = {| priority_score := 0.5; toxicity_score := 0.5; cs_samples := 0 |}
  | _ => s = signal_of own /\ unit_or_nan (priority_score s) /\ unit_or_nan (toxicity_score s)
  end.
Proof.
  unfold historical_profile, context_signal, apply_historical_profiles.
  pose proof (profiles_fold profiles) as F. destruct (foldl profile_step (∅, ∅) profiles) as [h r].
  destruct F as [H R]. simpl. split.
  - rewrite H. do 2 f_equal. apply list_filter_iff. intros p. unfold profile_key.
    split; [by intros [= <- <- <-]|by intros (<- & <- & <-)].
  - rewrite lookup_fmap, R.
    assert (B : bucket {| rh_router := router; rh_hour_utc := hour |} profiles =
      stats_of_profile <$> filter (fun p => hp_router p = router /\ hp_hour_utc p = hour) profiles).
    { unfold bucket. f_equal. apply list_filter_iff. intros p. unfold router_hour.
      split; [by intros [= <- <-]|by intros (<- & <-)]. }
    rewrite <- B. destruct (bucket _ profiles) as [|v vs]; [done|].
    destruct (decide (v :: vs = [])) as [E|_]; [done|]. simpl.
    split_and!; [done| |]; apply fclamp01_unit.
Qed.

(** What the executor reports about a relay. *)
Inductive relay_outcome :=
| RSubmitted (latency_ms : f64)
| RRefused (latency_ms : f64)
| RFinalized (expected : U256) (realized : f64) (success : bool) (latency_ms : f64)
| RTimedOut (latency_ms : f64).
Definition record_outcome (self : AdaptivePolicy) (relay : string) (o : relay_outcome) : AdaptivePolicy :=
  match o with
  | RSubmitted l => record_submit_success_for_relay self relay l
  | RRefused l => record_submit_failure_for_relay self relay l
  | RFinalized e r s l => record_finalization_for_relay self relay e r s l
  | RTimedOut l => record_receipt_timeout_for_relay self relay l
  end.

Lemma record_outcome_stats self relay o r :
  r <> relay -> relay_stats (record_outcome self relay o) !! r = relay_stats self !! r.
Proof. intros N. destruct o; simpl; by rewrite lookup_insert_ne. Qed.
Lemma record_outcome_own self relay o : is_Some (relay_stats (record_outcome self relay o) !! relay).
Proof. destruct o; simpl; rewrite lookup_insert_eq; eauto. Qed.
Lemma record_outcome_context self relay o :
  relay_context_stats (record_outcome self relay o) = relay_context_stats self.
Proof. by destruct o. Qed.

(** Outcomes are kept apart: whatever is recorded for one relay, the quotes
    of another relay that has a history of its own do not move, in general and
    for every cluster; the relay itself has a history from its first outcome
    on. *)
Theorem relay_outcomes_isolated self relay os r st :
  relay_stats self !! r = Some st -> r <> relay ->
  let self' := foldl (fun s o => record_outcome s relay o) self os in
  relay_quote self' r = relay_quote self r /\
  (forall cluster, relay_quote_for_cluster self' r cluster = relay_quote_for_cluster self r cluster) /\
  (os <> [] -> is_Some (relay_stats self' !! relay)).
Proof.
  intros L N self'.
  assert (P : relay_stats self' !! r = Some st /\ relay_context_stats self' = relay_context_stats self).
  { unfold self'. clear self'. revert self L. induction os as [|o os IH]; intros self L; [done|]. simpl.
    destruct (IH (record_outcome self relay o)) as [A B]; [by rewrite record_outcome_stats|].
    split; [done|]. by rewrite B, record_outcome_context. }
  destruct P as [L' C'].
  assert (Q : relay_quote self' r = relay_quote self r).
  { unfold relay_quote, builder_path_pressure_for_relay. rewrite L, L'. reflexivity. }
  split; [exact Q|]. split.
  - intros cluster. unfold relay_quote_for_cluster. rewrite Q, C'.
    destruct (relay_context_stats self !! (r, cluster)) as [cx|] eqn:E; [|done].
    unfold builder_path_pressure_for_cluster, builder_path_pressure_for_relay.
    cbn [mbind option_bind]. rewrite C', E, L, L'. reflexivity.
  - intros Hos. unfold self'. destruct os as [|o os _] using rev_ind; [done|].
    rewrite foldl_app. apply record_outcome_own.
Qed.

Lemma relay_outcomes_isolated_witness :
  let self := record_outcome (AdaptivePolicy_new (sample_config Conservative true [])) "a" (RSubmitted 100.0) in
  relay_quote (record_outcome self "b" (RTimedOut 9000.0)) "a" = relay_quote self "a".
Proof.
  intros self.
  destruct (relay_stats self !! "a"%string) as [st|] eqn:E; [|vm_compute in E; congruence].
  apply (relay_outcomes_isolated self "b" [RTimedOut 9000.0] "a" st); [exact E|discriminate].
Defined.
