(* ===== verification/Learners.v ===== *)
(** * Estimators of the adaptive policy ([mev/adaptive.rs])

    The hidden Markov model, the Beta distribution, the value iteration and the
    Poisson process at the end of the file. A vector is a list and a matrix a list
    of rows; an index out of range, which the shapes exclude, reads as zero. The
    sum [ndarray] takes of a row, whose order of additions is its own, is a
    parameter. *)
From S2P Require Import Prelude F64.
#[local] Open Scope Z_scope.

Abbreviation Vector := (list f64).
Abbreviation Matrix := (list (list f64)).
Definition from_elem (rows cols : nat) (x : f64) : Matrix := replicate rows (replicate cols x).
Definition at_ (v : Vector) (i : nat) : f64 := default 0%f64 (v !! i).
Definition at2 (m : Matrix) (i j : nat) : f64 := at_ (default [] (m !! i)) j.
(** [(0..n).map(f).sum()]. *)
Definition sum_over (n : nat) (f : nat -> f64) : f64 := fsum (f <$> seq 0 n).
Definition tabulate (n : nat) (f : nat -> f64) : Vector := f <$> seq 0 n.

Section Learners.
Context (nd_sum : list f64 -> f64).

Definition normalize_vector (v : Vector) : Vector :=
  let sum := nd_sum v in
  if (sum >? 0.0)%f64 then (fun x => x / sum)%f64 <$> v else v.
(** A row is normalised as a vector is. *)
Definition normalize_matrix_rows (m : Matrix) : Matrix := normalize_vector <$> m.

(** ** Hidden Markov model *)

Record HiddenMarkovModel := {
  transition_matrix : Matrix;
  emission_matrix : Matrix;
  initial_distribution : Vector;
  current_belief : Vector }.
#[export] Instance HiddenMarkovModel_eta : RecordEta HiddenMarkovModel :=
  fields Build_HiddenMarkovModel <&> transition_matrix <&> emission_matrix <&> initial_distribution
    <&> current_belief.

Definition hmm_new (num_states num_observations : nat) : HiddenMarkovModel :=
  let states := Nat.max num_states 1 in
  let observations := Nat.max num_observations 1 in
  let uniform := (1.0 / f64_of_nat states)%f64 in
  {| transition_matrix := from_elem states states uniform;
     emission_matrix := from_elem states observations (1.0 / f64_of_nat observations)%f64;
     initial_distribution := replicate states uniform; current_belief := replicate states uniform |}.

Definition hmm_states (self : HiddenMarkovModel) : nat := length (transition_matrix self).
Definition hmm_observations (self : HiddenMarkovModel) : nat :=
  length (default [] (head (emission_matrix self))).
Definition observed (self : HiddenMarkovModel) (obs : nat) : nat := Nat.min obs (hmm_observations self - 1).

(** The normalised forward probabilities after each observation. *)
Definition alpha_first (self : HiddenMarkovModel) (obs : nat) : Vector :=
  normalize_vector (tabulate (hmm_states self) (fun i =>
    at_ (initial_distribution self) i * at2 (emission_matrix self) i (observed self obs))%f64).
Definition alpha_next (self : HiddenMarkovModel) (alpha : Vector) (obs : nat) : Vector :=
  normalize_vector (tabulate (hmm_states self) (fun j =>
    sum_over (hmm_states self) (fun i => at_ alpha i * at2 (transition_matrix self) i j)
    * at2 (emission_matrix self) j (observed self obs))%f64).
Fixpoint alphas_from (self : HiddenMarkovModel) (alpha : Vector) (observations : list nat) : list Vector :=
  alpha :: match observations with
           | [] => []
           | obs :: observations => alphas_from self (alpha_next self alpha obs) observations
           end.
Definition alphas (self : HiddenMarkovModel) (observations : list nat) : list Vector :=
  match observations with
  | [] => []
  | obs :: observations => alphas_from self (alpha_first self obs) observations
  end.

Definition forward_algorithm (self : HiddenMarkovModel) (observations : list nat) : f64 :=
  match last (alphas self observations) with
  | None => 1.0
  | Some alpha => fclamp_in (sum_over (hmm_states self) (at_ alpha)) 0.0 1.0
  end.

(** The backward probabilities: ones at the end, each other from the next. *)
Fixpoint betas (self : HiddenMarkovModel) (observations : list nat) : list Vector :=
  match observations with
  | [] => []
  | [_] => [replicate (hmm_states self) 1%f64]
  | _ :: ((next :: _) as observations) =>
      let rest := betas self observations in
      let beta := default [] (head rest) in
      normalize_vector (tabulate (hmm_states self) (fun i =>
        sum_over (hmm_states self) (fun j =>
          at2 (transition_matrix self) i j * at2 (emission_matrix self) j (observed self next)
          * at_ beta j)%f64)) :: rest
  end.

(** What one step of the re-estimation adds up. *)
Record Estimates := { new_transition : Matrix; new_emission : Matrix; new_initial : Vector }.
Definition add_at (m : Matrix) (i j : nat) (x : f64) : Matrix :=
  alter (alter (fun y => y + x)%f64 j) i m.
Definition gamma (self : HiddenMarkovModel) (alpha beta : Vector) (i : nat) : f64 :=
  let den := fmax (sum_over (hmm_states self) (fun i => at_ alpha i * at_ beta i)%f64) 1e-12 in
  (at_ alpha i * at_ beta i / den)%f64.
Definition estimate_state (self : HiddenMarkovModel) (first : bool) (alpha beta : Vector) (obs : nat)
    (next : option nat) (e : Estimates) (i : nat) : Estimates :=
  let g := gamma self alpha beta i in
  {| new_initial := if first then <[i := g]> (new_initial e) else new_initial e;
     new_emission := add_at (new_emission e) i (observed self obs) g;
     new_transition :=
       match next with
       | None => new_transition e
       | Some next_obs =>
           foldl (fun m j => add_at m i j
             (g * at2 (transition_matrix self) i j * at2 (emission_matrix self) j (observed self next_obs))%f64)
             (new_transition e) (seq 0 (hmm_states self))
       end |}.
Fixpoint estimate (self : HiddenMarkovModel) (first : bool) (alphas betas : list Vector)
    (observations : list nat) (e : Estimates) : Estimates :=
  match observations, alphas, betas with
  | obs :: observations, alpha :: alphas, beta :: betas =>
      let e := foldl (estimate_state self first alpha beta obs (head observations)) e
                 (seq 0 (hmm_states self)) in
      estimate self false alphas betas observations e
  | _, _, _ => e
  end.
Definition baum_welch_step (observations : list nat) (self : HiddenMarkovModel) : HiddenMarkovModel :=
  let states := hmm_states self in
  let e := estimate self true (alphas self observations) (betas self observations) observations
             {| new_transition := from_elem states states 0.0;
                new_emission := from_elem states (hmm_observations self) 0.0;
                new_initial := replicate states 0%f64 |} in
  self <[ transition_matrix ::= normalize_matrix_rows (new_transition e) ]>
       <[ emission_matrix ::= normalize_matrix_rows (new_emission e) ]>
       <[ initial_distribution ::= normalize_vector (new_initial e) ]>.
(** Until the likelihood changes by less than [tol]. *)
Fixpoint baum_welch_loop (observations : list nat) (tol : f64) (max_iter : nat) (previous : f64)
    (self : HiddenMarkovModel) : HiddenMarkovModel :=
  match max_iter with
  | O => self
  | S max_iter =>
      let self := baum_welch_step observations self in
      let likelihood := forward_algorithm self observations in
      if (fabs (likelihood - previous) <? tol)%f64 then self
      else baum_welch_loop observations tol max_iter likelihood self
  end.
Definition baum_welch (self : HiddenMarkovModel) (observations : list nat) (max_iter : nat) (tol : f64)
  : HiddenMarkovModel :=
  if (length observations <? 2)%nat then self
  else baum_welch_loop observations tol max_iter (fneg f64_inf) self.

(** The new belief, which is also kept. *)
Definition hmm_filter (self : HiddenMarkovModel) (observation : nat) : HiddenMarkovModel * Vector :=
  let next := normalize_vector (tabulate (hmm_states self) (fun j =>
    sum_over (hmm_states self) (fun i => at_ (current_belief self) i * at2 (transition_matrix self) i j)
    * at2 (emission_matrix self) j (observed self observation))%f64) in
  (self <[ current_belief ::= next ]>, next).

(** ** Beta distribution *)

Record BetaDistribution := { beta_alpha : f64; beta_beta : f64 }.
Definition beta_new (alpha beta : f64) : BetaDistribution :=
  {| beta_alpha := fmax alpha 1e-6; beta_beta := fmax beta 1e-6 |}.
Definition beta_update (self : BetaDistribution) (success : bool) : BetaDistribution :=
  if success then {| beta_alpha := (beta_alpha self + 1.0)%f64; beta_beta := beta_beta self |}
  else {| beta_alpha := beta_alpha self; beta_beta := (beta_beta self + 1.0)%f64 |}.
Definition beta_mean (self : BetaDistribution) : f64 :=
  (beta_alpha self / (beta_alpha self + beta_beta self))%f64.
Definition beta_variance (self : BetaDistribution) : f64 :=
  ((beta_alpha self * beta_beta self)
   / (fpowi (beta_alpha self + beta_beta self) 2 * (beta_alpha self + beta_beta self + 1.0)))%f64.
Definition lower_confidence_bound (self : BetaDistribution) (z : f64) : f64 :=
  fclamp_in (beta_mean self - fabs z * fsqrt (beta_variance self))%f64 0.0 1.0.

(** ** Value iteration *)

Record HjbSolver := { value_function : Vector; optimal_policy : Vector; hjb_dt : f64 }.
Definition hjb_new (state_dim : nat) (dt : f64) : HjbSolver :=
  let dim := Nat.max state_dim 1 in
  {| value_function := replicate dim 0%f64; optimal_policy := replicate dim 0%f64; hjb_dt := fmax dt 1e-6 |}.
Section Solve.
Context (reward_fn : nat -> f64 -> f64).
Definition action_of (step : nat) : f64 := (f64_of_nat step / 100.0)%f64.
Definition next_state (self : HjbSolver) (state : nat) (action : f64) : nat :=
  Nat.min (f64_as_usize (fround (f64_of_nat state + action * hjb_dt self)%f64)) (length (value_function self) - 1).
(** The best of the 101 actions, the first one among equals. *)
Definition best_action (self : HjbSolver) (state : nat) : f64 * f64 :=
  foldl (fun best step =>
    let action := action_of step in
    let value := (reward_fn state action + hjb_dt self * at_ (value_function self) (next_state self state action))%f64 in
    if (value >? best.1)%f64 then (value, action) else best) (fneg f64_inf, 0%f64) (seq 0 101).
Definition hjb_step (self : HjbSolver) : HjbSolver * f64 :=
  let best := best_action self <$> seq 0 (length (value_function self)) in
  let next_value := best.*1 in
  ({| value_function := next_value; optimal_policy := best.*2; hjb_dt := hjb_dt self |},
   nd_sum (zip_with (fun a b => fabs (a - b)%f64) next_value (value_function self))).
Fixpoint hjb_solve (max_iter : nat) (self : HjbSolver) : HjbSolver :=
  match max_iter with
  | O => self
  | S max_iter =>
      let '(self, diff) := hjb_step self in
      if (diff <? 1e-6)%f64 then self else hjb_solve max_iter self
  end.
End Solve.
Definition get_optimal_action (self : HjbSolver) (state : nat) : f64 :=
  at_ (optimal_policy self) (Nat.min state (length (optimal_policy self) - 1)).

(** ** Inclusion as a Poisson process *)

Record InclusionPoissonProcess := { lambda : f64; last_observation : Z }.
Section Poisson.
Context (exp : f64 -> f64).
Definition poisson_new (now : Z) (initial_lambda : f64) : InclusionPoissonProcess :=
  {| lambda := fclamp_in initial_lambda 0.01 100.0; last_observation := now |}.
Definition inclusion_probability (self : InclusionPoissonProcess) (delta_ms : f64) : f64 :=
  fclamp_in (1.0 - exp (fneg (lambda self) * fmax delta_ms 0.0 / 1000.0))%f64 0.0 1.0.
Definition update_lambda (now : Z) (self : InclusionPoissonProcess) (inclusion_observed : bool) (delta_ms : f64)
  : InclusionPoissonProcess :=
  let observed_lambda := if inclusion_observed && (delta_ms >? 0.0)%f64 then (1000.0 / delta_ms)%f64 else 0%f64 in
  {| lambda := fclamp_in (lambda self * 0.9 + observed_lambda * 0.1)%f64 0.01 100.0; last_observation := now |}.
End Poisson.
End Learners.

(** ** Shapes and ranges *)

Section Facts.
Context (nd_sum : list f64 -> f64).

Lemma normalize_length v : length (normalize_vector nd_sum v) = length v.
Proof. unfold normalize_vector. case_match; [apply length_fmap|done]. Qed.
Lemma tabulate_length n f : length (tabulate n f) = n.
Proof. unfold tabulate. by rewrite length_fmap, length_seq. Qed.

(** Rows of the same length. *)
Definition shape (rows cols : nat) (m : Matrix) : Prop := length m = rows /\ Forall (fun r => length r = cols) m.
Lemma from_elem_shape rows cols x : shape rows cols (from_elem rows cols x).
Proof. split; [apply length_replicate|]. apply Forall_replicate, length_replicate. Qed.
Lemma normalize_rows_shape rows cols m :
  shape rows cols m -> shape rows cols (normalize_matrix_rows nd_sum m).
Proof.
  intros [L F]. split; [unfold normalize_matrix_rows; by rewrite length_fmap|].
  apply Forall_fmap. eapply Forall_impl; [exact F|]. intros r R. simpl. by rewrite normalize_length.
Qed.
Lemma add_at_shape rows cols m i j x : shape rows cols m -> shape rows cols (add_at m i j x).
Proof.
  intros [L F]. unfold add_at. split; [by rewrite length_alter|].
  apply Forall_alter; [done|]. intros r _ R. by rewrite length_alter.
Qed.

(** A model with [s] states and [o] observations: every index is in range. *)
Definition hmm_wf (s o : nat) (self : HiddenMarkovModel) : Prop :=
  (1 <= s)%nat /\ (1 <= o)%nat /\ shape s s (transition_matrix self) /\ shape s o (emission_matrix self) /\
  length (initial_distribution self) = s /\ length (current_belief self) = s.
Lemma hmm_new_wf s o : hmm_wf (Nat.max s 1) (Nat.max o 1) (hmm_new s o).
Proof. unfold hmm_wf; simpl. split_and!; try lia; try apply from_elem_shape; apply length_replicate. Qed.
Lemma hmm_dimensions s o self : hmm_wf s o self -> hmm_states self = s /\ hmm_observations self = o.
Proof.
  intros (S & _ & [T _] & [L E] & _). split; [done|]. unfold hmm_observations.
  destruct (emission_matrix self) as [|r rows]; [simpl in L; lia|]. by apply Forall_inv in E.
Qed.
Lemma observed_in_range s o self obs : hmm_wf s o self -> (observed self obs < o)%nat.
Proof. intros W. destruct (hmm_dimensions _ _ _ W) as [_ E]. unfold observed. rewrite E. destruct W as (_ & ? & _). lia. Qed.
Lemma filter_wf s o self obs : hmm_wf s o self -> hmm_wf s o (hmm_filter nd_sum self obs).1.
Proof.
  intros W. destruct (hmm_dimensions _ _ _ W) as [S _]. destruct W as (? & ? & ? & ? & ? & ?).
  unfold hmm_wf; simpl. rewrite normalize_length, tabulate_length. by split_and!.
Qed.

(** The sums of the re-estimation have the shapes of the model. *)
Definition estimates_shape (s o : nat) (e : Estimates) : Prop :=
  shape s s (new_transition e) /\ shape s o (new_emission e) /\ length (new_initial e) = s.
Lemma foldl_inv {A B} (P : A -> Prop) (f : A -> B -> A) l a :
  (forall a b, P a -> P (f a b)) -> P a -> P (foldl f a l).
Proof. intros F. revert a; induction l as [|b l IH]; simpl; auto. Qed.
Lemma estimate_shape s o self first alphas betas observations e :
  estimates_shape s o e -> estimates_shape s o (estimate self first alphas betas observations e).
Proof.
  revert first alphas betas e; induction observations as [|obs observations IH];
    intros first [|alpha alphas] [|beta betas] e W; try done.
  simpl. apply IH. apply foldl_inv; [|done]. intros e' i (T & E & I). split_and!; simpl.
  - case_match; [|done]. apply foldl_inv; [|done]. intros m j. apply add_at_shape.
  - by apply add_at_shape.
  - case_match; [by rewrite length_insert|done].
Qed.
Lemma baum_welch_step_wf s o observations self :
  hmm_wf s o self -> hmm_wf s o (baum_welch_step nd_sum observations self).
Proof.
  intros W. destruct (hmm_dimensions _ _ _ W) as [S O]. unfold baum_welch_step. rewrite S, O. cbv zeta.
  match goal with |- context [estimate self true ?a ?b observations ?e] =>
    destruct (estimate_shape s o self true a b observations e) as (T & E & I) end.
  { split_and!; simpl; [apply from_elem_shape..|apply length_replicate]. }
  destruct W as (? & ? & ? & ? & ? & ?). unfold hmm_wf; simpl.
  split_and!; try done; [by apply normalize_rows_shape..|by rewrite normalize_length].
Qed.
(** Learning keeps the model well formed, whatever is observed. *)
Theorem baum_welch_wf s o self observations max_iter tol :
  hmm_wf s o self -> hmm_wf s o (baum_welch nd_sum self observations max_iter tol).
Proof.
  unfold baum_welch. destruct (_ <? 2)%nat; [done|]. generalize (fneg f64_inf).
  revert self; induction max_iter as [|n IH]; intros self previous W; [done|]. simpl.
  pose proof (baum_welch_step_wf _ _ observations _ W) as W'.
  destruct (_ <? tol)%f64; [done|]. by apply IH.
Qed.
(** A likelihood is a share or not a number. *)
Theorem forward_range self observations :
  let p := forward_algorithm nd_sum self observations in
  is_nan p = true \/ (0 <=? p)%f64 && (p <=? 1)%f64 = true.
Proof.
  cbv zeta. unfold forward_algorithm. destruct (last _); [|by right].
  set (x := sum_over _ _). destruct (is_nan x) eqn:N; [left; by destruct x|right].
  destruct (fclamp_in_range x 0.0 1.0 eq_refl N) as [-> ->]. done.
Qed.

(** *** Value iteration: an action is one of the 101 *)

Definition share (a : f64) : Prop := (0 <=? a)%f64 && (a <=? 1)%f64 = true.
Lemma action_share step : (step < 101)%nat -> share (action_of step).
Proof.
  assert (C : forallb (fun s => (0 <=? action_of s)%f64 && (action_of s <=? 1)%f64) (seq 0 101) = true)
    by (vm_compute; reflexivity).
  intros L. rewrite forallb_forall in C. apply C, in_seq. lia.
Qed.
Lemma best_action_share reward self state : share (best_action reward self state).2.
Proof.
  unfold best_action. assert (F : Forall (fun s => (s < 101)%nat) (seq 0 101))
    by (apply Forall_forall; intros s I; apply elem_of_seq in I; lia).
  assert (B : share (fneg f64_inf, 0%f64).2) by reflexivity. revert B F.
  generalize (fneg f64_inf, 0%f64) as best. induction (seq 0 101) as [|s l IH]; intros best B F; [done|].
  simpl. apply Forall_cons in F as [S F]. apply IH; [|done]. case_match; [|done]. by apply action_share.
Qed.
(** The policy has an action for every state, and it is a share. *)
Theorem hjb_policy_shares reward max_iter dim dt state :
  let self := hjb_solve nd_sum reward max_iter (hjb_new dim dt) in
  length (optimal_policy self) = Nat.max dim 1 /\ share (get_optimal_action self state).
Proof.
  cbv zeta. set (ok := fun self => length (value_function self) = Nat.max dim 1 /\
    length (optimal_policy self) = Nat.max dim 1 /\ Forall share (optimal_policy self)).
  assert (K : forall self, ok self -> ok (hjb_solve nd_sum reward max_iter self)).
  { induction max_iter as [|n IH]; intros self (V & P & F); [done|]. cbn [hjb_solve].
    assert (ok (hjb_step nd_sum reward self).1) as W.
    { unfold ok, hjb_step; simpl. split_and!; [by rewrite !length_fmap, length_seq, V|by rewrite !length_fmap, length_seq, V|].
      simpl. apply Forall_fmap, Forall_fmap, Forall_forall. intros i _. apply best_action_share. }
    destruct (hjb_step nd_sum reward self) as [self' diff]. change (ok self') in W. destruct (_ <? _)%f64; [exact W|by apply IH]. }
  destruct (K (hjb_new dim dt)) as (_ & P & F).
  { unfold ok, hjb_new; simpl. split_and!; try apply length_replicate. apply Forall_replicate. reflexivity. }
  split; [done|]. unfold get_optimal_action, at_.
  set (policy := optimal_policy _) in *.
  destruct (lookup_lt_is_Some_2 policy (Nat.min state (length policy - 1))) as [a E]; [rewrite P; lia|].
  exact (eq_ind_r share (Forall_lookup_1 _ _ _ _ F E) (f_equal (default 0%f64) E)).
Qed.
End Facts.
