(* ===== verification/Executor.v ===== *)
(** * The executor ([mev/execution/executor.rs])

    [handle] as a computation on the engine: the guards before anything is
    spent, the preflight, the budget, the ranking of submit paths, the gas
    price, the signature, the submission through RPC endpoints or relays, and
    the observation of the result. A computation threads the engine, may return
    early from [handle], and may panic.

    The network is a set of parameters: what an endpoint answers to the balance,
    nonce, gas price and block queries, in which order submissions complete and
    how, receipts, block numbers, token balances; so are the wallet, the EVM and
    the hash. The dashboard is a sink: the trace keeps, of the calls to it, the
    level and the fixed words of each event, the counters and the outcomes, and
    next to them what leaves the process: transactions and bundles. *)
From S2P Require Import Prelude F64 Text Ethers Config AmmV2 AmmV3.
From S2P Require Import Simulator Rpc Pnl Payload Opportunity Budget Guard.
From S2P Require Import Adaptive.
#[local] Open Scope Z_scope.

(** ** Data *)

Record TreasurySignal := {
  ts_action : string;
  ts_status : string;
  rounded_amount : u64 }.
#[export] Instance TreasurySignal_eq_dec : EqDecision TreasurySignal.
Proof. solve_decision. Defined.

Record TreasurySignalView := {
  action : string;
  status : string;
  recommended_amount_eth : f64;
  note : string }.

(** What the four queries of [load_send_context] answer; the block and its
    number may be missing. *)
Record ContextReply := {
  cr_balance : U256;
  cr_nonce : U256;
  cr_gas_price : U256;
  cr_block : option (option u64 * option U256) }.

Record SendContext := {
  endpoint : RpcHandle;
  hot_balance : U256;
  chain_nonce : U256;
  gas_price : U256;
  base_fee_per_gas : option U256;
  block : u64 }.

Record TransactionReceipt := {
  tr_gas_used : option U256;
  tr_effective_gas_price : option U256;
  tr_status : option u64;
  tr_block_number : option u64 }.

(** The transaction that is signed: EIP-1559 fees when the block has a base
    fee, a gas price otherwise. *)
Inductive Fees :=
| Eip1559 (max_fee_per_gas max_priority_fee_per_gas : U256)
| Legacy (price : U256).
Record TypedTransaction := {
  tt_to : Address;
  tt_data : Bytes;
  tt_value : U256;
  tt_gas : u64;
  tt_fees : Fees;
  tt_nonce : U256;
  tt_from : Address;
  tt_chain_id : option u64 }.

Inductive BundleTransaction :=
| Revertible (victim : Transaction)
| Ours (tx : Bytes).
Record BundleRequest := {
  bundle_block : u64;
  bundle_transactions : list BundleTransaction }.

Inductive Event :=
| Note_ (level head : string)
| ExecutorBalance (balance_eth : f64) (status : string)
| TreasuryRecommendation (signal : TreasurySignalView) (balance_eth : f64)
| RelayRankings (relays : list string)
| Funnel (stage : string)
| RejectReason (stage reason : string)
| RelayOutcome (relay kind : string)
| ExecutionOutcome (relay outcome : string) (realized_profit_eth : f64) (gas_used : u64)
| SendRawTransaction (endpoint_id : usize) (tx : Bytes)
| SendBundle (relay : string) (bundle : BundleRequest).

Record Engine := {
  world : Rpc.World;
  pnl : PnlTracker;
  adaptive : AdaptivePolicy;
  last_treasury_signal : option TreasurySignal;
  capital_budget : CapitalBudget;
  execution_guard : ExecutionGuard;
  trace : list Event }.
#[export] Instance Engine_eta : RecordEta Engine :=
  fields Build_Engine <&> world <&> pnl <&> adaptive <&> last_treasury_signal <&> capital_budget
    <&> execution_guard <&> trace.

(** ** Computations of [handle] *)

Inductive flow (A : Type) :=
| Return (r : string + unit)
| Continue (a : A).
Arguments Return {A} _.
Arguments Continue {A} _.

Definition ExecM (A : Type) : Type := Engine -> outcome (Engine * flow A).
#[export] Instance ExecM_ret : MRet ExecM := fun A a e => Done (e, Continue a).
#[export] Instance ExecM_bind : MBind ExecM := fun A B f m e =>
  match m e with
  | Done (e, Continue a) => f a e
  | Done (e, Return r) => Done (e, Return r)
  | Panicked => Panicked
  end.

Definition get_engine : ExecM Engine := fun e => Done (e, Continue e).
Definition put_engine (e : Engine) : ExecM unit := fun _ => Done (e, Continue tt).
(** [return r]. *)
Definition stop {A} (r : string + unit) : ExecM A := fun e => Done (e, Return r).
Definition panic {A} : ExecM A := fun _ => Panicked.
Definition lift_outcome {A} (m : outcome A) : ExecM A :=
  fun e => match m with Done a => Done (e, Continue a) | Panicked => Panicked end.
Definition lift_rpc {A} (m : RpcM A) : ExecM A := fun e =>
  match m (world e) with
  | Done (w, a) => Done (e <[ world ::= w ]>, Continue a)
  | Panicked => Panicked
  end.
Definition emit (ev : Event) : ExecM unit := fun e =>
  Done (e <[ trace ::= trace e ++ [ev] ]>, Continue tt).
Definition update_adaptive (f : AdaptivePolicy -> AdaptivePolicy) : ExecM unit := fun e =>
  Done (e <[ adaptive ::= f (adaptive e) ]>, Continue tt).

(** A [for] loop over a list. *)
Fixpoint for_each {A} (f : A -> ExecM unit) (l : list A) : ExecM unit :=
  match l with
  | [] => mret tt
  | x :: l => f x;; for_each f l
  end.

(** ** Pure parts *)

Definition rpc_label (name : string) : string := ("rpc://" +:+ name)%string.

(** [str::strip_prefix]. *)
Fixpoint strip_prefix (s p : string) : option string :=
  match p, s with
  | EmptyString, _ => Some s
  | String c p, String d s => if Ascii.eqb c d then strip_prefix s p else None
  | String _ _, EmptyString => None
  end.

Definition is_insufficient_funds_error (message : string) : bool :=
  let lowered := to_lower message in
  contains lowered "insufficient funds" || contains lowered "insufficient balance"
  || contains lowered "funds for gas" || contains lowered "not enough funds".

Definition hot_wallet_status (config : MevConfig) (balance_eth : f64) : string :=
  if (balance_eth <? executor_min_buffer_eth config)%f64 then "underfunded"
  else if (executor_max_buffer_eth config <? balance_eth)%f64 then "overfunded"
  else if (balance_eth <? executor_target_buffer_eth config)%f64 then "below_target"
  else "healthy".

Definition treasury_signal (config : MevConfig) (balance_eth : f64) : TreasurySignalView :=
  let target := executor_target_buffer_eth config in
  let min := executor_min_buffer_eth config in
  let max := executor_max_buffer_eth config in
  if (balance_eth <? min)%f64 then
    {| action := "fund_executor"; status := "critical";
       recommended_amount_eth := fmax (target - balance_eth) 0.0;
       note := "executor below min buffer; fund from vault before next execution burst" |}
  else if (balance_eth <? target)%f64 then
    {| action := "fund_executor"; status := "recommended";
       recommended_amount_eth := fmax (target - balance_eth) 0.0;
       note := "executor below target buffer; top up from vault to restore burst capacity" |}
  else if (max <? balance_eth)%f64 then
    {| action := "sweep_to_vault"; status := "critical";
       recommended_amount_eth := fmax (balance_eth - target) 0.0;
       note := "executor above max buffer; sweep excess back to vault to reduce hot-wallet exposure" |}
  else if (target <? balance_eth)%f64 then
    {| action := "sweep_to_vault"; status := "recommended";
       recommended_amount_eth := fmax (balance_eth - target) 0.0;
       note := "executor above target buffer; sweep excess to vault while keeping execution headroom" |}
  else
    {| action := "hold"; status := "healthy"; recommended_amount_eth := 0.0;
       note := "executor buffer aligned with target; no treasury rebalance required" |}.

Definition dynamic_gas_price (config : MevConfig) (base_gas_price : U256) (best_relay : option RelayQuote)
    (payload : ExecutionPayload) : U256 :=
  let extra_bps := gas_overpay_base_extra_bps config in
  let extra_bps :=
    match best_relay with
    | None => extra_bps
    | Some relay =>
        let extra_bps := if (accepted_not_included_rate relay >=? 0.10)%f64
                         then u64_sadd extra_bps (gas_overpay_miss_extra_bps config) else extra_bps in
        let extra_bps := if (revert_rate relay >=? 0.05)%f64
                         then u64_sadd extra_bps (gas_overpay_revert_extra_bps config) else extra_bps in
        if (accept_rate relay <=? 0.60)%f64
        then u64_sadd extra_bps (gas_overpay_submit_failure_extra_bps config) else extra_bps
    end in
  let extra_bps :=
    if (ep_context_toxicity_score payload >=? capital_multiplier_toxicity_threshold config)%f64 then
      u64_sadd extra_bps (gas_overpay_miss_extra_bps config / 2)
    else if (ep_context_priority_score payload >=? capital_multiplier_priority_threshold config)%f64 then
      u64_sadd extra_bps (gas_overpay_base_extra_bps config / 2)
    else extra_bps in
  let extra_bps := Z.min extra_bps (gas_overpay_max_extra_bps config) in
  let adjusted := u256_smul base_gas_price (wrap64 (10000 + extra_bps)) / 10000 in
  match max_gas_price_wei config with
  | Some cap => Z.min adjusted cap
  | None => adjusted
  end.

(** The fees [sign_executor_transaction] chooses. *)
Definition fees_of (gas_price : U256) (base_fee_per_gas : option U256) : Fees :=
  match base_fee_per_gas with
  | Some base_fee =>
      let min_priority := gas_price / 4 in
      let priority_fee := Z.max (sat_sub gas_price base_fee) min_priority in
      let max_fee := Z.max (u256_sadd base_fee priority_fee) gas_price in
      Eip1559 max_fee priority_fee
  | None => Legacy gas_price
  end.

Definition typed_transaction (config : Config) (wallet : Address) (payload : ExecutionPayload)
    (nonce gas_price : U256) (base_fee_per_gas : option U256) : TypedTransaction :=
  {| tt_to := ep_target_contract payload; tt_data := ep_calldata payload; tt_value := ep_value payload;
     tt_gas := ep_gas_limit payload; tt_fees := fees_of gas_price base_fee_per_gas; tt_nonce := nonce;
     tt_from := wallet;
     tt_chain_id := match base_fee_per_gas with Some _ => Some (chain_id config) | None => None end |}.

Definition build_bundle (block : u64) (opportunity : MevOpportunity) (payload : ExecutionPayload)
  : BundleRequest :=
  {| bundle_block := u64_sadd block 1;
     bundle_transactions :=
       match victim_transaction opportunity with Some victim => [Revertible victim] | None => [] end
       ++ [Ours (ep_tx payload)] |}.

(** The placeholder pool of the preflight. *)
Definition preflight_pool (payload : ExecutionPayload) : AmmState :=
  match ep_amm_kind payload with
  | RouteV2 =>
      UniswapV2 {| AmmV2.pair := ep_pair payload; AmmV2.token0 := 0; AmmV2.token1 := 0; reserve0 := 0;
                   reserve1 := 0; AmmV2.fee_bps := 30 |}
  | RouteV3 fee_tier _ =>
      UniswapV3 {| AmmV3.pool := ep_pair payload; AmmV3.token0 := 0; AmmV3.token1 := 0;
                   sqrt_price_x96 := 0; liquidity := 0; current_tick := 0;
                   AmmV3.fee_bps := fee_tier / 100; initialized_ticks := [] |}
  end.

Definition with_storage (slots : gmap U256 U256) : AccountState :=
  {| balance := balance AccountState_empty; nonce := nonce AccountState_empty;
     code := code AccountState_empty; storage := slots |}.

(** The overrides of the preflight: the pool with its slots, then the
    executors and the profit recipient, empty. [U256::from] panics on a negative
    tick. *)
Definition preflight_overrides (config : Config) (pool_state : AmmState)
  : outcome (gmap Address AccountState) :=
  pool <-! match pool_state with
           | UniswapV2 pool =>
               Done (<[AmmV2.pair pool :=
                         with_storage (<[1 := reserve1 pool]> (<[0 := reserve0 pool]> ∅))]> ∅)
           | UniswapV3 pool =>
               if current_tick pool <? 0 then Panicked
               else Done (<[AmmV3.pool pool :=
                         with_storage (<[2 := current_tick pool]> (<[1 := liquidity pool]>
                                        (<[0 := sqrt_price_x96 pool]> ∅)))]> ∅)
           end;;
  let add (a : option Address) (m : gmap Address AccountState) :=
    match a with Some a => <[a := AccountState_empty]> m | None => m end in
  Done (<[profit_address config := AccountState_empty]>
          (add (mev_executor_v3 (mev config)) (add (mev_executor (mev config)) pool))).

Definition mock_transaction (config : Config) (payload : ExecutionPayload) : Transaction :=
  {| tx_hash := 0; tx_nonce := 0; tx_from := executor_address config;
     tx_to := Some (ep_target_contract payload); tx_value := ep_value payload; tx_gas_price := Some 0;
     tx_gas := ep_gas_limit payload; tx_input := ep_calldata payload;
     tx_max_priority_fee_per_gas := None; tx_max_fee_per_gas := None;
     tx_chain_id := Some (chain_id config); tx_block_number := None |}.

(** The policy's lock is never poisoned here. *)
Definition rank_relays (config : Config) (policy : AdaptivePolicy) (preferred_relay : option string)
    (cluster : ClusterKey) : list RelayQuote :=
  let relays := rank_relays_for_cluster policy (builder_relays config) cluster in
  match preferred_relay with
  | None => relays
  | Some preferred =>
      match position (fun q => string_eqb (relay_of q) preferred) relays with
      | None => relays
      | Some index =>
          match relays !! index with
          | Some q => q :: delete index relays
          | None => relays
          end
      end
  end.

(** What surrounds the engine. *)
Class Outside := {
  clk : nat -> Instant;                         (* the readings of the clock *)
  powf : f64 -> f64 -> f64;
  rotate_env : option string;                   (* RPC_READ_ROTATE_TOP_N *)
  env : string -> option string;
  preflight_timestamp : u64;
  parse_wallet : string -> string + Address;
  sign : TypedTransaction -> string + Bytes;
  transact : EvmEnv -> gmap Address RAccount -> string + ExecResult;
  utf8_lossy : Bytes -> string;
  (* the answers of the endpoints *)
  query_context : RpcHandle -> string + ContextReply;
  query_receipt : nat -> RpcHandle -> string + option TransactionReceipt;
  query_block_number : nat -> RpcHandle -> string + u64;
  query_balance : RpcHandle -> Address -> Address -> u64 -> option U256;
  (* the submissions, in the order in which they complete; a task that failed to
     join is [None] *)
  rpc_completions : list RpcHandle -> Bytes -> list (option (RpcHandle * Z * (string + H256)));
  url_error : string -> option string;
  relay_completions : list RelayQuote -> BundleRequest -> list (option (RelayQuote * f64 * (string + H256))) }.

Section Handle.
Context `{Out : Outside}.
Context (config : Config).

Definition now : ExecM Instant := lift_rpc (now_ clk).

Definition note_event (level head : string) : ExecM unit := emit (Note_ level head).

(** [dashboard.event(...)], then [return Ok(())]. *)
Definition skip {A} (level head : string) : ExecM A := note_event level head;; stop (inr tt).

(** ** Guards and budget *)

Definition take_stop_loss_snapshot : ExecM (option StopLossSnapshot) :=
  e ← get_engine;
  match frozen_until (execution_guard e) with
  | None => mret None
  | Some _ =>
      t ← now;
      e ← get_engine;
      let '(g, s) := stop_loss_snapshot t (execution_guard e) in
      put_engine (e <[ execution_guard ::= g ]>);;
      mret s
  end.

Definition take_context_snapshot (pair router : Address) (submit_path : string)
  : ExecM (option StopLossSnapshot) :=
  t ← now;
  e ← get_engine;
  let '(g, s) := context_stop_loss_snapshot (mev config) t (execution_guard e)
                   {| cf_pair := pair; cf_router := router; cf_submit_path := submit_path |} in
  put_engine (e <[ execution_guard ::= g ]>);;
  mret s.

Definition check_and_reserve_budget (opportunity : MevOpportunity) (payload : ExecutionPayload)
    (cluster : ClusterKey) : ExecM BudgetDecision :=
  t ← now;
  e ← get_engine;
  let '(b, d) := check_and_reserve t (capital_budget e) (wei_to_eth_f64 (ep_capital_committed_wei payload))
                   cluster (ep_pair payload) (victim_tx opportunity) (mev config) in
  put_engine (e <[ capital_budget ::= b ]>);;
  mret d.

Definition release_budget (victim : H256) : ExecM unit :=
  e ← get_engine;
  put_engine (e <[ capital_budget ::= release (capital_budget e) victim ]>).

Definition record_result (result : ExecutionResult) (key : option ContextFreezeKey)
    (priority toxicity : option f64) : ExecM unit :=
  t0 ← now; t1 ← now; t2 ← now;
  e ← get_engine;
  let '(g, global_armed, context_armed) :=
    record_guard (mev config) (fun i => match i with 0%nat => t0 | 1%nat => t1 | _ => t2 end)
      (execution_guard e) result key priority toxicity in
  put_engine (e <[ execution_guard ::= g ]> <[ pnl ::= record (pnl e) result ]>);;
  note_event "info" "realized pnl update";;
  (if global_armed then note_event "warn" "stop-loss armed" else mret tt);;
  (if context_armed then note_event "warn" "contextual stop-loss armed" else mret tt).

(** ** Treasury *)

Definition maybe_emit_treasury_signal (balance_eth : f64) : ExecM unit :=
  let signal := treasury_signal (mev config) balance_eth in
  let key := {| ts_action := action signal; ts_status := status signal;
                rounded_amount := f64_as_u64 (fround (recommended_amount_eth signal * 1000000.0)%f64) |} in
  e ← get_engine;
  if bool_decide (last_treasury_signal e = Some key) then mret tt
  else
    put_engine (e <[ last_treasury_signal ::= Some key ]>);;
    emit (TreasuryRecommendation signal balance_eth);;
    note_event (if string_eqb (status signal) "critical" then "warn" else "info") "treasury".

(** ** The send context *)

(** The loop over the candidate endpoints. *)
Fixpoint load_loop (endpoints : list RpcHandle) (last_error : option string)
  : ExecM (string + SendContext) :=
  match endpoints with
  | [] => mret (inl (default "no rpc endpoint available for send context"%string last_error))
  | h :: rest =>
      lift_rpc (reserve_send_selection clk (h_id h));;
      started ← now;
      let result :=
        match query_context h with
        | inl err => inl err
        | inr reply =>
            match cr_block reply with
            | None => inl "latest block unavailable"%string
            | Some (None, _) => inl "latest block number unavailable"%string
            | Some (Some number, base_fee) =>
                inr {| endpoint := h; hot_balance := cr_balance reply; chain_nonce := cr_nonce reply;
                       gas_price := cr_gas_price reply; base_fee_per_gas := base_fee; block := number |}
            end
        end in
      match result with
      | inr context =>
          finished ← now;
          lift_rpc (record_success clk (h_id h) (elapsed finished started) (Some (block context)));;
          mret (inr context)
      | inl err =>
          lift_rpc (record_failure clk (h_id h) (classify_failure err));;
          load_loop rest (Some (err +:+ " via " +:+ h_name h)%string)
      end
  end.
Definition load_send_context : ExecM (string + SendContext) :=
  endpoints ← lift_rpc (send_candidates clk powf rotate_env 3);
  load_loop endpoints None.

(** ** Submit paths *)

Definition fanout : nat := Nat.max (rpc_fanout_count (mev config)) 1.

(** The endpoints in the order of their ranked labels, then the others. *)
Definition order_by_labels (ranked : list RelayQuote) (by_health : list RpcHandle) : list RpcHandle :=
  let add (ordered : list RpcHandle) (h : RpcHandle) :=
    if existsb (fun x => (h_id x =? h_id h)%nat) ordered then ordered else ordered ++ [h] in
  let ordered := foldl (fun ordered q =>
      match head (filter (fun h => relay_of q = rpc_label (h_name h)) by_health) with
      | Some h => add ordered h
      | None => ordered
      end) [] ranked in
  take fanout (foldl add ordered by_health).

Definition direct_rpc_submit_endpoints (preferred : RpcHandle) : ExecM (list RpcHandle) :=
  by_health ← lift_rpc (send_candidates clk powf rotate_env fanout);
  let by_health := if existsb (fun h => (h_id h =? h_id preferred)%nat) by_health then by_health
                   else preferred :: by_health in
  e ← get_engine;
  let ranked := Adaptive.rank_relays (adaptive e) ((fun h => rpc_label (h_name h)) <$> by_health) in
  mret (order_by_labels ranked by_health).

Definition rank_direct_rpc_submit_paths (preferred : RpcHandle) (cluster : ClusterKey)
  : ExecM (list RelayQuote) :=
  endpoints ← direct_rpc_submit_endpoints preferred;
  e ← get_engine;
  mret (rank_relays_for_cluster (adaptive e) ((fun h => rpc_label (h_name h)) <$> endpoints) cluster).

(** The loop over the ranked paths: the named endpoints are taken out of the
    candidates, and those left over follow. *)
Fixpoint take_named (ranked : list RelayQuote) (candidates : list RpcHandle) : list RpcHandle :=
  match ranked with
  | [] => candidates
  | q :: ranked =>
      match (n ← strip_prefix (relay_of q) "rpc://";
             i ← position (fun h => string_eqb (h_name h) n) candidates;
             h ← candidates !! i; Some (i, h)) with
      | Some (i, h) => h :: take_named ranked (delete i candidates)
      | None => take_named ranked candidates
      end
  end.
Definition direct_rpc_submit_endpoints_from_ranked_paths (ranked : list RelayQuote)
  : ExecM (list RpcHandle) :=
  candidates ← lift_rpc (send_candidates clk powf rotate_env fanout);
  mret (take fanout (take_named ranked candidates)).

(** [ranked.retain(...)]: the paths whose context is not frozen. *)
Fixpoint retain_unfrozen (pair router : Address) (ranked : list RelayQuote) : ExecM (list RelayQuote) :=
  match ranked with
  | [] => mret []
  | q :: ranked =>
      s ← take_context_snapshot pair router (relay_of q);
      rest ← retain_unfrozen pair router ranked;
      mret (match s with None => q :: rest | Some _ => rest end)
  end.

(** ** Observing the result *)

Definition read_probe_handles (preferred_endpoint_id : usize) : ExecM (list RpcHandle) :=
  e ← get_engine;
  let primary := head (filter (fun h => h_id h = preferred_endpoint_id) (all_handles (fleet (world e)))) in
  reads ← lift_rpc (read_candidates clk powf rotate_env 3);
  mret (foldl (fun handles h =>
          if existsb (fun x => (h_id x =? h_id h)%nat) handles then handles else handles ++ [h])
          (match primary with Some h => [h] | None => [] end) reads).

Definition receipt_has_required_confirmations (round : nat) (h : RpcHandle) (receipt : TransactionReceipt)
  : ExecM bool :=
  let required := finality_confirmations (mev config) in
  if required =? 0 then mret true
  else
    match tr_block_number receipt with
    | None => mret false
    | Some receipt_block =>
        match query_block_number round h with
        | inr current => mret (u64_sadd receipt_block required <=? current)
        | inl err => note_event "warn" "confirmation check failed";; mret false
        end
    end.

Definition realized_profit_eth (h : RpcHandle) (payload : ExecutionPayload) (receipt : TransactionReceipt)
    (gas_paid_wei : U256) : option f64 :=
  block_number ← tr_block_number receipt;
  let pre_block := sat_sub block_number 1 in
  pre_balance ← query_balance h (ep_profit_token payload) (ep_profit_recipient payload) pre_block;
  post_balance ← query_balance h (ep_profit_token payload) (ep_profit_recipient payload) block_number;
  let balance_delta := sat_sub post_balance pre_balance in
  token_meta ← token_metadata config (ep_profit_token payload);
  let delta_tokens := (f64_of_Z balance_delta / fpowi 10 (mt_decimals token_meta))%f64 in
  let gross_eth := (delta_tokens * mt_price_eth token_meta)%f64 in
  Some (gross_eth - wei_to_eth_f64 gas_paid_wei)%f64.

(** A final receipt: its result is recorded with the policy. *)
Definition finalize (started : Instant) (h : RpcHandle) (opportunity : MevOpportunity)
    (payload : ExecutionPayload) (relay : string) (receipt : TransactionReceipt) : ExecM ExecutionResult :=
  gas_used ← lift_outcome (as_u64 (default 0 (tr_gas_used receipt)));
  let gas_paid_wei :=
    u256_smul (default 0 (tr_gas_used receipt)) (default 0 (tr_effective_gas_price receipt)) in
  let success := match tr_status receipt with Some s => s =? 1 | None => false end in
  let realized :=
    if success then
      default (wei_to_eth_f64 (ep_expected_profit_wei payload) - wei_to_eth_f64 gas_paid_wei)%f64
        (realized_profit_eth h payload receipt gas_paid_wei)
    else fneg (wei_to_eth_f64 gas_paid_wei) in
  let result := {| realized_profit := realized; Pnl.gas_used := gas_used; Pnl.success := success |} in
  t ← now;
  update_adaptive (fun a =>
    record_contextual_outcome
      (record_finalization_for_relay a relay (ep_expected_profit_wei payload) realized success
         (f64_of_Z (elapsed_ms t started)))
      relay (cluster_of opportunity) (ep_expected_profit_wei payload) realized
      (if success then IncludedSuccess else IncludedRevert));;
  emit (RelayOutcome relay (if success then "included_success" else "included_revert"));;
  note_event (if success then "success" else "warn") "fee extraction finalized";;
  emit (ExecutionOutcome relay (if success then "included_success" else "included_revert") realized gas_used);;
  mret result.

(** One round over the handles: the first final receipt ends it. *)
Fixpoint probe (round : nat) (started : Instant) (handles : list RpcHandle) (opportunity : MevOpportunity)
    (payload : ExecutionPayload) (relay : string) : ExecM (option ExecutionResult) :=
  match handles with
  | [] => mret None
  | h :: handles =>
      receipt_started ← now;
      match query_receipt round h with
      | inl err =>
          lift_rpc (record_failure clk (h_id h) (classify_failure err));;
          probe round started handles opportunity payload relay
      | inr None => probe round started handles opportunity payload relay
      | inr (Some receipt) =>
          confirmed ← receipt_has_required_confirmations round h receipt;
          if (confirmed : bool) then
            receipt_done ← now;
            lift_rpc (record_success clk (h_id h) (elapsed receipt_done receipt_started) None);;
            result ← finalize started h opportunity payload relay receipt;
            mret (Some result)
          else probe round started handles opportunity payload relay
      end
  end.

(** [for _ in 0..10]. *)
Fixpoint probe_rounds (n : nat) (started : Instant) (preferred : usize) (opportunity : MevOpportunity)
    (payload : ExecutionPayload) (relay : string) : ExecM (option ExecutionResult) :=
  match n with
  | O => mret None
  | S n =>
      handles ← read_probe_handles preferred;
      found ← probe (9 - n) started handles opportunity payload relay;
      match found with
      | Some result => mret (Some result)
      | None => probe_rounds n started preferred opportunity payload relay
      end
  end.

Definition observe_realized_pnl (preferred : usize) (opportunity : MevOpportunity)
    (payload : ExecutionPayload) (relay : string) : ExecM ExecutionResult :=
  started ← now;
  found ← probe_rounds 10 started preferred opportunity payload relay;
  match found with
  | Some result => mret result
  | None =>
      note_event "warn" "fee extraction receipt timeout";;
      t ← now;
      update_adaptive (fun a =>
        record_contextual_outcome
          (record_receipt_timeout_for_relay a relay (f64_of_Z (elapsed_ms t started)))
          relay (cluster_of opportunity) (ep_expected_profit_wei payload) 0.0 AcceptedNotIncluded);;
      emit (RelayOutcome relay "not_included_timeout");;
      emit (ExecutionOutcome relay "accepted_not_included" 0.0 0);;
      mret {| realized_profit := 0.0; Pnl.gas_used := 0; Pnl.success := false |}
  end.
(** ** [handle], phase by phase *)

(** Observation mode, age, payload and the global stop-loss. *)
Definition gate_opportunity (opportunity : MevOpportunity) : ExecM ExecutionPayload :=
  if negb (allow_send config) then
    skip "warn" "execution skipped: ALLOW_SEND=false observation mode"
  else
    t ← now;
    if Z.max (max_pending_age_ms (mev config)) 1 <? age_ms t opportunity then
      skip "info" "fee extraction rejected: stale"
    else
      match execution_payload opportunity with
      | None => skip "warn" "fee extraction blocked: no execution payload"
      | Some payload =>
          s ← take_stop_loss_snapshot;
          match s with
          | Some _ => skip "warn" "fee extraction frozen by stop-loss"
          | None => mret payload
          end
      end.

(** The wallet, the chain's state and the limits on both. *)
Definition prepare : ExecM (Address * SendContext) :=
  match parse_wallet (executor_private_key config) with
  | inl err => stop (inl err)
  | inr wallet =>
      loaded ← load_send_context;
      match loaded with
      | inl err => stop (inl err)
      | inr context =>
          let balance_eth := wei_to_eth_f64 (hot_balance context) in
          emit (ExecutorBalance balance_eth (hot_wallet_status (mev config) balance_eth));;
          maybe_emit_treasury_signal balance_eth;;
          if match max_gas_price_wei (mev config) with
             | Some cap => cap <? gas_price context
             | None => false
             end then
            skip "warn" "fee extraction blocked: rpc gas price exceeds cap"
          else if (balance_eth <? executor_min_buffer_eth (mev config))%f64 then
            skip "warn" "fee extraction blocked: executor wallet underfunded"
          else if (executor_max_buffer_eth (mev config) <? balance_eth)%f64 then
            skip "warn" "fee extraction blocked: executor wallet overfunded"
          else mret (wallet, context)
      end
  end.

Definition env_true (name : string) : bool := eq_ignore_ascii_case (default ""%string (env name)) "true".

Definition preflight_gate (payload : ExecutionPayload) (target_block : u64) : ExecM unit :=
  if negb (env_true "MEV_EVM_PREFLIGHT_ENABLED") then mret tt
  else
    overrides ← lift_outcome (preflight_overrides config (preflight_pool payload));
    note_event "info" "EVM preflight started";;
    result ← lift_outcome (evm_preflight_execution transact utf8_lossy config
                             (mock_transaction config payload) target_block preflight_timestamp overrides);
    match result with
    | inr preflight =>
        if negb (pf_success preflight) then skip "warn" "EVM preflight rejected"
        else note_event "info" "EVM preflight passed"
    | inl err =>
        note_event "warn" "EVM preflight failed";;
        if env_true "MEV_EVM_PREFLIGHT_HARD_FAIL" then stop (inr tt) else mret tt
    end.

Definition budget_gate (opportunity : MevOpportunity) (payload : ExecutionPayload) : ExecM unit :=
  decision ← check_and_reserve_budget opportunity payload (cluster_of opportunity);
  if allowed decision then mret tt else skip "warn" "fee extraction budget blocked".

(** The ranked submit paths that are not frozen. *)
Definition choose_paths (opportunity : MevOpportunity) (payload : ExecutionPayload) (context : SendContext)
  : ExecM (list RelayQuote) :=
  ranked ← (if uses_bundle_relays config then
              e ← get_engine;
              mret (rank_relays config (adaptive e) (preferred_relay opportunity) (cluster_of opportunity))
            else rank_direct_rpc_submit_paths (endpoint context) (cluster_of opportunity));
  ranked ← retain_unfrozen (ep_pair payload) (op_router opportunity) ranked;
  match ranked with
  | [] => skip "warn" "fee extraction frozen by contextual stop-loss: no submit path available"
  | _ => mret ranked
  end.

Definition sign_payload (wallet : Address) (context : SendContext) (ranked : list RelayQuote)
    (payload : ExecutionPayload) : ExecM ExecutionPayload :=
  let price := dynamic_gas_price (mev config) (gas_price context) (head ranked) payload in
  (if price =? gas_price context then mret tt else note_event "info" "dynamic gas overpay");;
  match sign (typed_transaction config wallet payload (chain_nonce context) price
                (base_fee_per_gas context)) with
  | inl err => stop (inl err)
  | inr tx => mret (payload <[ ep_tx ::= tx ]>)
  end.

Definition context_key (opportunity : MevOpportunity) (payload : ExecutionPayload) (path : string)
  : ContextFreezeKey :=
  {| cf_pair := ep_pair payload; cf_router := op_router opportunity; cf_submit_path := path |}.

(** The budget is given back and the result recorded. *)
Definition settle (opportunity : MevOpportunity) (payload : ExecutionPayload) (path : option string)
    (result : ExecutionResult) : ExecM unit :=
  release_budget (victim_tx opportunity);;
  record_result result (context_key opportunity payload <$> path)
    (Some (ep_context_priority_score payload)) (Some (ep_context_toxicity_score payload)).

Definition no_result : ExecutionResult :=
  {| realized_profit := 0.0; Pnl.gas_used := 0; Pnl.success := false |}.

(** The [while let Some(result) = submit_set.join_next().await] loop: a task
    that failed to join is skipped, the first success ends [handle]. *)
Fixpoint rpc_loop (completions : list (option (RpcHandle * Z * (string + H256))))
    (opportunity : MevOpportunity) (payload : ExecutionPayload) (target_block : u64)
    (last_error : option string) : ExecM (option string) :=
  match completions with
  | [] => mret last_error
  | None :: rest => rpc_loop rest opportunity payload target_block last_error
  | Some (h, took, inr hash) :: rest =>
      lift_rpc (reserve_send_selection clk (h_id h));;
      lift_rpc (record_success clk (h_id h) took (Some target_block));;
      update_adaptive (fun a =>
        record_submit_success_for_relay a (rpc_label (h_name h)) (f64_of_Z (took / millis)));;
      note_event "success" "fee extraction tx submitted";;
      emit (Funnel "submit_succeeded");;
      emit (RejectReason "submit" "rpc_submit_succeeded");;
      realized ← observe_realized_pnl (h_id h) opportunity payload (rpc_label (h_name h));
      settle opportunity payload (Some (rpc_label (h_name h))) realized;;
      stop (inr tt)
  | Some (h, took, inl err) :: rest =>
      lift_rpc (reserve_send_selection clk (h_id h));;
      (if is_insufficient_funds_error err
       then note_event "error" "execution failed: insufficient funds for gas/value"
       else note_event "warn" "fee extraction rpc submit failed");;
      lift_rpc (record_failure clk (h_id h) (classify_failure err));;
      emit (Funnel "submit_failed");;
      emit (RejectReason "submit" (if is_insufficient_funds_error err
                                   then "rpc_submit_insufficient_funds" else "rpc_submit_failed"));;
      rpc_loop rest opportunity payload target_block (Some err)
  end.

Definition submit_rpc (opportunity : MevOpportunity) (payload : ExecutionPayload) (target_block : u64)
    (ranked : list RelayQuote) : ExecM unit :=
  endpoints ← direct_rpc_submit_endpoints_from_ranked_paths ranked;
  for_each (fun h => emit (Funnel "submit_attempted");;
                     emit (SendRawTransaction (h_id h) (ep_tx payload))) endpoints;;
  last_error ← rpc_loop (rpc_completions endpoints (ep_tx payload)) opportunity payload target_block None;
  match ranked with
  | q :: _ => settle opportunity payload (Some (relay_of q)) no_result
  | [] => mret tt
  end;;
  stop (inl (default "all rpc submit endpoints failed"%string last_error)).

(** The relays whose URL parses are sent the bundle; a bad URL is an error that
    is only remembered. *)
Fixpoint spawn_relays (relays : list RelayQuote) (bundle : BundleRequest) (last_error : option string)
  : ExecM (list RelayQuote * option string) :=
  match relays with
  | [] => mret ([], last_error)
  | q :: relays =>
      match url_error (relay_of q) with
      | Some err => spawn_relays relays bundle (Some err)
      | None =>
          emit (Funnel "submit_attempted");;
          emit (SendBundle (relay_of q) bundle);;
          '(spawned, last_error) ← spawn_relays relays bundle last_error;
          mret (q :: spawned, last_error)
      end
  end.

Fixpoint relay_loop (completions : list (option (RelayQuote * f64 * (string + H256))))
    (opportunity : MevOpportunity) (payload : ExecutionPayload) (endpoint_id : usize)
    (last_error : option string) : ExecM (option string) :=
  match completions with
  | [] => mret last_error
  | None :: rest => relay_loop rest opportunity payload endpoint_id last_error
  | Some (q, latency_ms, inr hash) :: rest =>
      update_adaptive (fun a => record_submit_success_for_relay a (relay_of q) latency_ms);;
      emit (RelayOutcome (relay_of q) "accepted");;
      emit (Funnel "submit_succeeded");;
      emit (RejectReason "submit" "relay_submit_succeeded");;
      note_event "success" "fee extraction bundle submitted";;
      realized ← observe_realized_pnl endpoint_id opportunity payload (relay_of q);
      settle opportunity payload (Some (relay_of q)) realized;;
      stop (inr tt)
  | Some (q, latency_ms, inl err) :: rest =>
      emit (Funnel "submit_failed");;
      emit (RejectReason "submit" "relay_submit_failed");;
      update_adaptive (fun a =>
        record_contextual_outcome (record_submit_failure_for_relay a (relay_of q) latency_ms)
          (relay_of q) (cluster_of opportunity) (ep_expected_profit_wei payload) 0.0 SubmitFailed);;
      emit (RelayOutcome (relay_of q) "submit_failed");;
      note_event "warn" "fee extraction relay failed";;
      relay_loop rest opportunity payload endpoint_id (Some err)
  end.

Definition submit_relays (opportunity : MevOpportunity) (payload : ExecutionPayload) (context : SendContext)
    (ranked : list RelayQuote) : ExecM unit :=
  let bundle := build_bundle (block context) opportunity payload in
  '(spawned, last_error) ←
    spawn_relays (take (Nat.max (relay_fanout_count (mev config)) 1) ranked) bundle None;
  last_error ← relay_loop (relay_completions spawned bundle) opportunity payload
                 (h_id (endpoint context)) last_error;
  settle opportunity payload (relay_of <$> head ranked) no_result;;
  stop (inl (default "no relay submission path available"%string last_error)).

Definition handle_body (opportunity : MevOpportunity) : ExecM unit :=
  payload ← gate_opportunity opportunity;
  '(wallet, context) ← prepare;
  let target_block := u64_sadd (block context) 1 in
  preflight_gate payload target_block;;
  budget_gate opportunity payload;;
  ranked ← choose_paths opportunity payload context;
  payload ← sign_payload wallet context ranked payload;
  emit (RelayRankings (relay_of <$> ranked));;
  note_event "info" "submit path ranking";;
  if uses_bundle_relays config then submit_relays opportunity payload context ranked
  else submit_rpc opportunity payload target_block ranked.

Definition handle (opportunity : MevOpportunity) (e : Engine) : outcome (Engine * (string + unit)) :=
  match handle_body opportunity e with
  | Done (e, Return r) => Done (e, r)
  | Done (e, Continue tt) => Done (e, inr tt)
  | Panicked => Panicked
  end.
End Handle.
