(* ===== verification/ExecutorFacts.v ===== *)
(** * Facts about the executor's computations

    A small program logic for [ExecM]: [within S m] says that every run of [m],
    whether it goes on or returns early, relates the engines before and after by
    [S]; the inversion of a bind follows a run phase by phase. [silent] is the
    relation of the phases that submit nothing and leave the books (budget,
    profit and loss) alone. *)
From S2P Require Import RpcFacts.
From S2P Require Import Prelude F64 Text Ethers Config AmmV2 AmmV3.
From S2P Require Import Simulator Rpc Pnl Payload Opportunity Budget Guard.
From S2P Require Import Adaptive AdaptiveFacts Executor.
#[local] Open Scope Z_scope.

(** ** Runs *)

Section Logic.
Context {A B : Type}.
Implicit Types (m : ExecM A) (f : A -> ExecM B) (S : Engine -> Engine -> Prop).

Definition within S {A} (m : ExecM A) : Prop :=
  forall e e' x, m e = Done (e', x) -> S e e'.

(** What holds when the computation goes on. *)
Definition yields {A} (m : ExecM A) (Q : Engine -> A -> Engine -> Prop) : Prop :=
  forall e e' a, m e = Done (e', Continue a) -> Q e a e'.

Lemma bind_inv m f e e' x :
  (m ≫= f) e = Done (e', x) ->
  (exists e1 a, m e = Done (e1, Continue a) /\ f a e1 = Done (e', x)) \/
  (exists r, m e = Done (e', Return r) /\ x = Return r).
Proof.
  unfold mbind, ExecM_bind. destruct (m e) as [[e1 [r|a]]|] eqn:E; [|eauto|done].
  intros [= <- <-]. eauto.
Qed.

Lemma bind_yields_inv m f e e' b :
  (m ≫= f) e = Done (e', Continue b) ->
  exists e1 a, m e = Done (e1, Continue a) /\ f a e1 = Done (e', Continue b).
Proof. intros H. apply bind_inv in H as [(e1 & a & H1 & H2)|(r & H1 & [=])]. eauto. Qed.

Lemma within_bind S m f :
  Transitive S -> within S m -> (forall a, within S (f a)) -> within S (m ≫= f).
Proof.
  intros T Hm Hf e e' x H. apply bind_inv in H as [(e1 & a & H1 & H2)|(r & H1 & _)].
  - transitivity e1; [by eapply Hm|by eapply Hf].
  - by eapply Hm.
Qed.

Lemma within_ret S (a : A) : Reflexive S -> within S (mret a).
Proof. intros R e e' x [= <- <-]. apply R. Qed.
Lemma within_stop S r : Reflexive S -> within S (@stop A r).
Proof. intros R e e' x [= <- <-]. apply R. Qed.
Lemma within_get S : Reflexive S -> within S get_engine.
Proof. intros R e e' x [= <- <-]. apply R. Qed.
Lemma within_lift_outcome S (o : outcome A) : Reflexive S -> within S (lift_outcome o).
Proof. intros R e e' x. unfold lift_outcome. destruct o; [|done]. intros [= <- <-]. apply R. Qed.
End Logic.

(** ** Events *)

Definition submission (ev : Event) : Prop :=
  match ev with SendRawTransaction _ _ | SendBundle _ _ => True | _ => False end.

(** The trace grows by events that satisfy [P]. *)
Definition emits (P : Event -> Prop) (e e' : Engine) : Prop :=
  exists evs, trace e' = trace e ++ evs /\ Forall P evs.

#[export] Instance submission_dec ev : Decision (submission ev).
Proof. destruct ev; simpl; apply _. Defined.

#[export] Instance emits_refl P : Reflexive (emits P).
Proof. intros e. exists []. by rewrite app_nil_r. Qed.
#[export] Instance emits_trans P : Transitive (emits P).
Proof.
  intros e1 e2 e3 (l & E & F) (l' & E' & F'). exists (l ++ l').
  rewrite E', E, <- app_assoc. split; [done|]. by apply Forall_app.
Qed.

(** ** Freezes *)

(** Until when a context is frozen. *)
Definition freeze (g : ExecutionGuard) (key : ContextFreezeKey) : option Instant :=
  st ← context_guards g !! key; ctx_frozen_until st.

Section Relations.
Context `{Out : Outside}.

(** Freezes end, by the clock, and none begins. *)
Definition thaws (g g' : ExecutionGuard) : Prop :=
  forall key, freeze g' key = freeze g key \/
    freeze g' key = None /\ exists until n, freeze g key = Some until /\ until <= clk n.

#[export] Instance thaws_refl : Reflexive thaws.
Proof. by left. Qed.
#[export] Instance thaws_trans : Transitive thaws.
Proof.
  intros g1 g2 g3 H H' key. destruct (H key) as [E|[E X]], (H' key) as [E'|[E' Y]].
  - left. congruence.
  - right. rewrite E in Y. by split.
  - right. split; [congruence|done].
  - destruct Y as (u & n & Y & _). congruence.
Qed.

(** What the fleet goes through: readings of the clock and its own operations. *)
Definition fleet_step (w w' : World) : Prop :=
  (exists t, now_ clk w = Done (w', t)) \/ (exists o, run_op clk powf o w = Done (w', tt)).
Definition fleet_run {A} (m : RpcM A) : Prop := forall w w' a, m w = Done (w', a) -> rtc fleet_step w w'.

Lemma run_of_op {A} (m : RpcM A) o :
  (forall w w' a, m w = Done (w', a) -> run_op clk powf o w = Done (w', tt)) -> fleet_run m.
Proof. intros H w w' a E. apply rtc_once. right. exists o. by eapply H. Qed.
Lemma now_fleet_run : fleet_run (now_ clk).
Proof. intros w w' a E. apply rtc_once. left. eauto. Qed.
Lemma send_fleet_run env n : fleet_run (send_candidates clk powf env n).
Proof. eapply (run_of_op _ (OpSelect env true n)). intros w w' a E. simpl. unfold mbind, RpcM_bind.
  unfold send_candidates in E. by rewrite E. Qed.
Lemma read_fleet_run env n : fleet_run (read_candidates clk powf env n).
Proof. eapply (run_of_op _ (OpSelect env false n)). intros w w' a E. simpl. unfold mbind, RpcM_bind.
  unfold read_candidates in E. by rewrite E. Qed.
Lemma reserve_fleet_run i : fleet_run (reserve_send_selection clk i).
Proof. by eapply (run_of_op _ (OpReserve i true)); intros w w' []. Qed.
Lemma success_fleet_run i l b : fleet_run (record_success clk i l b).
Proof. by eapply (run_of_op _ (OpSuccess i l b)); intros w w' []. Qed.
Lemma failure_fleet_run i k : fleet_run (record_failure clk i k).
Proof. by eapply (run_of_op _ (OpFailure i k)); intros w w' []. Qed.

(** Nothing is submitted, the books stay as they are, freezes only end, and the
    fleet is as its operations leave it. *)
Definition silent (e e' : Engine) : Prop :=
  emits (fun ev => ~ submission ev) e e' /\
  capital_budget e' = capital_budget e /\ pnl e' = pnl e /\
  thaws (execution_guard e) (execution_guard e') /\ rtc fleet_step (world e) (world e').

#[export] Instance silent_refl : Reflexive silent.
Proof. intros e. split_and!; reflexivity. Qed.
#[export] Instance silent_trans : Transitive silent.
Proof.
  intros e1 e2 e3 (E & B & P & G & W) (E' & B' & P' & G' & W'). split_and!; [by etrans|congruence..|by etrans|by etrans].
Qed.

Lemma silent_same e e' :
  trace e' = trace e -> capital_budget e' = capital_budget e -> pnl e' = pnl e ->
  thaws (execution_guard e) (execution_guard e') -> rtc fleet_step (world e) (world e') -> silent e e'.
Proof. intros T C P G W. split_and!; [|done..]. exists []. by rewrite app_nil_r. Qed.
Lemma silent_emit ev : ~ submission ev -> within silent (emit ev).
Proof.
  intros N e e' x [= <- <-]. split_and!; [|done..]. exists [ev]. split; [done|]. by constructor.
Qed.
Lemma silent_lift_rpc {A} (m : RpcM A) : fleet_run m -> within silent (lift_rpc m).
Proof.
  intros F e e' x. unfold lift_rpc. destruct (m (world e)) as [[w a]|] eqn:M; [|done].
  intros [= <- <-]. apply silent_same; [done..|]. by eapply F.
Qed.
Lemma silent_adaptive f : within silent (update_adaptive f).
Proof. intros e e' x [= <- <-]. by apply silent_same. Qed.
End Relations.

Create HintDb exec.
#[export] Hint Resolve now_fleet_run send_fleet_run read_fleet_run reserve_fleet_run success_fleet_run
  failure_fleet_run within_ret within_stop within_get within_lift_outcome silent_lift_rpc
  silent_adaptive silent_refl silent_trans emits_refl emits_trans : exec.
#[export] Hint Extern 1 (within silent (emit _)) => (apply silent_emit; simpl; tauto) : exec.

(** Follows a computation whose every step is silent. *)
Ltac silent_step :=
  match goal with
  | |- within _ (mbind _ _) => apply within_bind; [solve [auto with exec]| |intros ?]
  | |- within _ (if ?b then _ else _) => destruct b
  | |- within _ (match ?x with _ => _ end) => destruct x
  | |- within _ (let _ := _ in _) => cbv zeta
  | |- within _ _ => solve [auto with exec]
  end.
Ltac silent_run := repeat silent_step.

Section Silent.
Context `{Out : Outside} (config : Config).

Lemma get_engine_bind {B} (k : Engine -> ExecM B) e : (get_engine ≫= k) e = k e e.
Proof. reflexivity. Qed.

(** A read of the engine, followed by what is known of it. *)
Lemma silent_get {B} (k : Engine -> ExecM B) :
  (forall e e' x, k e e = Done (e', x) -> silent e e') -> within silent (e ← get_engine; k e).
Proof. intros K e e' x H. by eapply K. Qed.

Lemma silent_put {B} e e1 (m : ExecM B) e' x :
  silent e e1 -> within silent m -> (put_engine e1;; m) e = Done (e', x) -> silent e e'.
Proof. intros E M H. transitivity e1; [done|]. by eapply M. Qed.

Lemma now_inv e e' x : now e = Done (e', x) -> exists n, x = Continue (clk n) /\ silent e e'.
Proof.
  intros H. exists (tick (world e)). split; [by injection H|]. by eapply silent_lift_rpc, H; auto with exec.
Qed.

Lemma silent_take_global : within silent (take_stop_loss_snapshot).
Proof.
  apply silent_get. intros e0 e' x H0. destruct (frozen_until _).
  2: { injection H0 as <- _. reflexivity. }
  revert H0. apply (within_bind silent); auto with exec; [apply silent_lift_rpc; auto with exec|]. intros t.
  apply silent_get. intros e e1 y H. destruct (stop_loss_snapshot _ _) as [g s] eqn:E.
  injection H as <- <-. apply silent_same; [done..| |reflexivity]. simpl. intros key. left.
  revert E. unfold stop_loss_snapshot. repeat case_match; intros [= <- _]; reflexivity.
Qed.

(** The snapshot of a context: its freeze if it still runs. *)
Lemma context_snapshot_spec c t g key :
  let '(g', s) := context_stop_loss_snapshot c t g key in
  (forall k, k <> key -> freeze g' k = freeze g k) /\
  match freeze g key with
  | Some until => if until <=? t then s = None /\ freeze g' key = None
                  else s <> None /\ freeze g' key = Some until
  | None => s = None /\ freeze g' key = None
  end.
Proof.
  unfold context_stop_loss_snapshot, freeze. destruct (context_guards g !! key) as [st|] eqn:E.
  2: { simpl. rewrite E. done. }
  rewrite decay_keeps_freeze. cbn [mbind option_bind].
  destruct (ctx_frozen_until st) as [u|] eqn:F; [destruct (u <=? t)|]; simpl; split;
    try (intros k N; by rewrite ?lookup_delete_ne, ?lookup_insert_ne by done);
    rewrite ?lookup_delete_eq, ?lookup_insert_eq; simpl; rewrite ?decay_keeps_freeze; done.
Qed.

Lemma take_context_inv pair router path e e' x :
  take_context_snapshot config pair router path e = Done (e', x) ->
  silent e e' /\ exists s n, x = Continue s /\
    match freeze (execution_guard e)
            {| cf_pair := pair; cf_router := router; cf_submit_path := path |} with
    | Some until => s = None <-> until <= clk n
    | None => s = None
    end.
Proof.
  intros H. apply bind_inv in H as [(e1 & t & H1 & H)|(r & H1 & _)].
  2: { by apply now_inv in H1 as (n & [=] & _). }
  assert (G : execution_guard e1 = execution_guard e) by (injection H1 as <- _; done).
  apply now_inv in H1 as (n & [= ->] & S1).
  rewrite get_engine_bind, G in H.
  set (key := Build_ContextFreezeKey _ _ _) in *.
  pose proof (context_snapshot_spec (mev config) (clk n) (execution_guard e) key) as C.
  destruct (context_stop_loss_snapshot _ _ _ _) as [g s]. injection H as <- <-.
  destruct C as [O C]. split.
  - etrans; [exact S1|]. apply silent_same; [done..| |reflexivity]. simpl. rewrite G. intros k.
    destruct (decide (k = key)) as [->|N]; [|left; by apply O].
    destruct (freeze (execution_guard e) key) as [u|] eqn:F; [|by left; destruct C].
    destruct (Z.leb_spec u (clk n)); destruct C; [right; eauto|by left].
  - exists s, n. split; [done|].
    destruct (freeze (execution_guard e) key) as [u|]; [|by destruct C].
    destruct (Z.leb_spec u (clk n)); destruct C; split; [tauto..|tauto|lia].
Qed.
Lemma silent_take_context pair router path : within silent (take_context_snapshot config pair router path).
Proof. intros e e' x H. by apply take_context_inv in H as [? _]. Qed.
Lemma silent_note l h : within silent (note_event l h).
Proof. apply silent_emit. simpl. tauto. Qed.
Lemma silent_skip {A} l h : within silent (@skip A l h).
Proof. apply within_bind; auto with exec. apply silent_note. Qed.
Lemma silent_now : within silent now.
Proof. apply silent_lift_rpc. auto with exec. Qed.
Hint Resolve silent_take_global silent_take_context silent_note silent_skip silent_now : exec.

Lemma silent_gate o : within silent (gate_opportunity config o).
Proof. unfold gate_opportunity. silent_run. Qed.

Lemma silent_treasury b : within silent (maybe_emit_treasury_signal config b).
Proof.
  apply silent_get. intros e e' x H. case_bool_decide; [injection H as <- _; reflexivity|].
  revert H. apply silent_put; [by apply silent_same|]. silent_run.
Qed.
Hint Resolve silent_treasury : exec.

Lemma silent_load_loop l : forall err, within silent (load_loop l err).
Proof. induction l as [|h l IH]; intros err; cbn [load_loop]; silent_run. Qed.
Lemma silent_load : within silent load_send_context.
Proof. unfold load_send_context. silent_run. apply silent_load_loop. Qed.
Hint Resolve silent_load : exec.

Lemma silent_prepare : within silent (prepare config).
Proof. unfold prepare. silent_run. Qed.
Lemma silent_preflight payload b : within silent (preflight_gate config payload b).
Proof. unfold preflight_gate. silent_run. Qed.

Lemma silent_endpoints h : within silent (direct_rpc_submit_endpoints config h).
Proof. unfold direct_rpc_submit_endpoints. silent_run. Qed.
Lemma silent_rank h k : within silent (rank_direct_rpc_submit_paths config h k).
Proof. unfold rank_direct_rpc_submit_paths. pose proof silent_endpoints. silent_run. Qed.
Lemma silent_named ranked : within silent (direct_rpc_submit_endpoints_from_ranked_paths config ranked).
Proof. unfold direct_rpc_submit_endpoints_from_ranked_paths. silent_run. Qed.
Lemma silent_retain p r l : within silent (retain_unfrozen config p r l).
Proof. induction l as [|q l IH]; cbn [retain_unfrozen]; silent_run. Qed.
Hint Resolve silent_rank silent_retain silent_named : exec.

Lemma silent_choose o p c : within silent (choose_paths config o p c).
Proof. unfold choose_paths. silent_run. Qed.
Lemma silent_sign w c l p : within silent (sign_payload config w c l p).
Proof. unfold sign_payload. silent_run. Qed.

Lemma silent_confirm n h r : within silent (receipt_has_required_confirmations config n h r).
Proof. unfold receipt_has_required_confirmations. silent_run. Qed.
Lemma silent_finalize s h o p rl r : within silent (finalize config s h o p rl r).
Proof. unfold finalize. silent_run. Qed.
Hint Resolve silent_confirm silent_finalize : exec.
Lemma silent_probe n s hs o p rl : within silent (probe config n s hs o p rl).
Proof. induction hs as [|h hs IH]; cbn [probe]; silent_run. Qed.
Lemma silent_handles i : within silent (read_probe_handles i).
Proof. apply within_bind; auto with exec. intros e. silent_run. Qed.
Hint Resolve silent_probe silent_handles : exec.
Lemma silent_probe_rounds n : forall s i o p rl, within silent (probe_rounds config n s i o p rl).
Proof. induction n as [|n IH]; intros; cbn [probe_rounds]; silent_run. Qed.
Hint Resolve silent_probe_rounds : exec.
Lemma silent_observe i o p rl : within silent (observe_realized_pnl config i o p rl).
Proof. unfold observe_realized_pnl. silent_run. Qed.
End Silent.
#[export] Hint Resolve silent_take_global silent_take_context silent_note silent_skip silent_now
  silent_gate silent_prepare silent_preflight silent_choose silent_sign silent_named silent_observe : exec.

(** ** What is known when a phase goes on *)

Section Phases.
Context `{Out : Outside} (config : Config).

(** No freeze of the context, or one that some reading of the clock has passed. *)
Definition unfrozen (g : ExecutionGuard) (key : ContextFreezeKey) : Prop :=
  forall until, freeze g key = Some until -> exists n, until <= clk n.

Lemma unfrozen_thaws g g' key : thaws g g' -> unfrozen g' key -> unfrozen g key.
Proof.
  intros T U until F. destruct (T key) as [E|[E (u & n & F' & L)]].
  - apply U. by rewrite E.
  - rewrite F in F'. injection F' as <-. eauto.
Qed.

(** The opportunity is wanted: sending is allowed, it is young, it has a payload
    and the executor is not frozen. *)
Definition admissible (o : MevOpportunity) (payload : ExecutionPayload) (g : ExecutionGuard) : Prop :=
  allow_send config = true /\ execution_payload o = Some payload /\
  (exists n, age_ms (clk n) o <= Z.max (max_pending_age_ms (mev config)) 1) /\
  forall until, frozen_until g = Some until -> exists n, until <= clk n.

Lemma take_global_inv e e' s :
  take_stop_loss_snapshot e = Done (e', Continue s) ->
  s = None -> forall until, frozen_until (execution_guard e) = Some until -> exists n, until <= clk n.
Proof.
  unfold take_stop_loss_snapshot. rewrite get_engine_bind. intros H -> until F. rewrite F in H.
  apply bind_yields_inv in H as (e1 & t & H1 & H).
  assert (G : execution_guard e1 = execution_guard e) by (injection H1 as <- _; done).
  apply now_inv in H1 as (n & [= ->] & _). rewrite get_engine_bind, G in H.
  unfold stop_loss_snapshot in H. rewrite F in H.
  destruct (until <=? clk n) eqn:L; [exists n; lia|]. discriminate H.
Qed.

Lemma skip_inv {A} l h e e' (a : A) : skip l h e <> Done (e', Continue a).
Proof. intros [=]. Qed.

Lemma gate_inv o e e' payload :
  gate_opportunity config o e = Done (e', Continue payload) ->
  admissible o payload (execution_guard e).
Proof.
  unfold gate_opportunity. destruct (allow_send config) eqn:A; [|by intros []%skip_inv]. simpl negb.
  intros (e1 & t & H1 & H)%bind_yields_inv.
  assert (G : execution_guard e1 = execution_guard e) by (injection H1 as <- _; done).
  apply now_inv in H1 as (n & [= ->] & _). cbv iota in H.
  destruct (Z.ltb_spec (Z.max (max_pending_age_ms (mev config)) 1) (age_ms (clk n) o)) as [L|L];
    [by apply skip_inv in H|].
  destruct (execution_payload o) as [p|] eqn:P; [|by apply skip_inv in H].
  apply bind_yields_inv in H as (e2 & s & H2 & H). destruct s as [s|]; [by apply skip_inv in H|].
  injection H as _ <-. split_and!; [done|done|eauto|].
  rewrite <- G. by eapply take_global_inv.
Qed.

(** The context is what an endpoint answered. *)
Definition answered (c : SendContext) : Prop :=
  exists reply, query_context (endpoint c) = inr reply /\ hot_balance c = cr_balance reply /\
    chain_nonce c = cr_nonce reply /\ gas_price c = cr_gas_price reply /\
    cr_block reply = Some (Some (block c), base_fee_per_gas c).

Lemma load_loop_inv l : forall err e e' c,
  load_loop l err e = Done (e', Continue (inr c)) -> answered c.
Proof.
  induction l as [|h l IH]; intros err e e' c H; [discriminate|]. cbn [load_loop] in H.
  apply bind_yields_inv in H as (e1 & _ & _ & H). apply bind_yields_inv in H as (e2 & t & _ & H).
  destruct (query_context h) as [msg|reply] eqn:Q; [|destruct (cr_block reply) as [[[number|] fee]|] eqn:B];
    cbv zeta iota in H; apply bind_yields_inv in H as (e3 & ? & _ & H); try (by eapply IH).
  apply bind_yields_inv in H as (e4 & ? & _ & H). injection H as _ <-. exists reply. by split_and!.
Qed.

(** The chain's state is within the limits. *)
Definition affordable (c : SendContext) : Prop :=
  answered c /\
  (forall cap, max_gas_price_wei (mev config) = Some cap -> gas_price c <= cap) /\
  (wei_to_eth_f64 (hot_balance c) <? executor_min_buffer_eth (mev config))%f64 = false /\
  (executor_max_buffer_eth (mev config) <? wei_to_eth_f64 (hot_balance c))%f64 = false.

Lemma prepare_inv e e' wallet c :
  prepare config e = Done (e', Continue (wallet, c)) ->
  parse_wallet (executor_private_key config) = inr wallet /\ affordable c.
Proof.
  unfold prepare. destruct (parse_wallet _) as [|w] eqn:W; [discriminate|].
  intros (e1 & l & H1 & H)%bind_yields_inv. destruct l as [|c1]; [discriminate|]. cbv zeta in H.
  apply bind_yields_inv in H as (e2 & _ & _ & H). apply bind_yields_inv in H as (e3 & _ & _ & H).
  destruct (match max_gas_price_wei (mev config) with Some cap => cap <? gas_price c1 | None => false end)
    eqn:G; [by apply skip_inv in H|].
  destruct (wei_to_eth_f64 (hot_balance c1) <? _)%f64 eqn:L; [by apply skip_inv in H|].
  destruct (_ <? wei_to_eth_f64 (hot_balance c1))%f64 eqn:U; [by apply skip_inv in H|].
  injection H as _ <- <-. split; [done|]. split_and!; [|intros cap E|done..].
  - unfold load_send_context in H1. apply bind_yields_inv in H1 as (? & ? & _ & H1).
    by eapply load_loop_inv.
  - rewrite E in G. lia.
Qed.

Lemma retain_inv pair router l : forall e e' l',
  retain_unfrozen config pair router l e = Done (e', Continue l') ->
  l' `sublist_of` l /\
  forall q, q ∈ l' -> unfrozen (execution_guard e)
    {| cf_pair := pair; cf_router := router; cf_submit_path := relay_of q |}.
Proof.
  induction l as [|q l IH]; intros e e' l' H; cbn [retain_unfrozen] in H.
  { injection H as _ <-. split; [constructor|]. by intros q ?%elem_of_nil. }
  apply bind_yields_inv in H as (e1 & s & H1 & H). apply bind_yields_inv in H as (e2 & rest & H2 & H).
  injection H as _ <-. apply take_context_inv in H1 as ((_ & _ & _ & T & _) & s' & n & [= <-] & F).
  apply IH in H2 as [S U]. split; [destruct s; by constructor|].
  assert (U' : forall x, x ∈ rest -> unfrozen (execution_guard e)
    {| cf_pair := pair; cf_router := router; cf_submit_path := relay_of x |})
    by (intros x X; by eapply unfrozen_thaws, U).
  destruct s as [s|]; [done|]. intros x [->|X]%elem_of_cons; [|by apply U'].
  intros u E. rewrite E in F. exists n. tauto.
Qed.

Lemma relay_paths_perm policy preferred cluster :
  (relay_of <$> Executor.rank_relays config policy preferred cluster) ≡ₚ builder_relays config.
Proof.
  pose proof (cluster_relays policy (builder_relays config) cluster) as P.
  unfold Executor.rank_relays. destruct preferred as [p|]; [|done].
  destruct (position _ _) as [i|]; [|done].
  destruct (rank_relays_for_cluster _ _ _ !! i) as [q|] eqn:Q; [|done].
  transitivity (relay_of <$> rank_relays_for_cluster policy (builder_relays config) cluster); [|done].
  apply fmap_Permutation. symmetry. by apply delete_Permutation.
Qed.

(** The paths: none is frozen, and relays are those of the configuration. *)
Definition open_paths (o : MevOpportunity) (payload : ExecutionPayload) (g : ExecutionGuard)
    (ranked : list RelayQuote) : Prop :=
  ranked <> [] /\
  (forall q, q ∈ ranked -> unfrozen g (context_key o payload (relay_of q))) /\
  (uses_bundle_relays config = true ->
   (relay_of <$> ranked) ⊆+ builder_relays config).

Lemma choose_inv o payload c e e' ranked :
  choose_paths config o payload c e = Done (e', Continue ranked) ->
  open_paths o payload (execution_guard e) ranked.
Proof.
  unfold choose_paths. intros (e1 & l & H1 & H)%bind_yields_inv.
  apply bind_yields_inv in H as (e2 & l' & H2 & H).
  assert (T : thaws (execution_guard e) (execution_guard e1)).
  { revert H1. destruct (uses_bundle_relays config); [by intros [= <- _]|].
    intros H1. by apply silent_rank in H1 as (_ & _ & _ & T & _). }
  apply retain_inv in H2 as [S U]. destruct l' as [|q l']; [by apply skip_inv in H|].
  injection H as _ <-. split_and!; [done|intros x X; by eapply unfrozen_thaws, U|].
  intros B. rewrite B in H1. rewrite get_engine_bind in H1. injection H1 as _ <-.
  rewrite <- relay_paths_perm. by apply fmap_submseteq, sublist_submseteq.
Qed.

Lemma dynamic_gas_price_cap base best payload cap :
  max_gas_price_wei (mev config) = Some cap -> dynamic_gas_price (mev config) base best payload <= cap.
Proof. intros E. unfold dynamic_gas_price. rewrite E. lia. Qed.

(** The transaction to submit, and how it came to be. *)
Record Signed := {
  sg_payload : ExecutionPayload;
  sg_wallet : Address;
  sg_context : SendContext;
  sg_price : U256;
  sg_tx : Bytes }.

Definition signed_tx (s : Signed) : Prop :=
  sign (typed_transaction config (sg_wallet s) (sg_payload s) (chain_nonce (sg_context s)) (sg_price s)
          (base_fee_per_gas (sg_context s))) = inr (sg_tx s) /\
  forall cap, max_gas_price_wei (mev config) = Some cap -> sg_price s <= cap.

Lemma sign_inv wallet c ranked payload e e' payload' :
  sign_payload config wallet c ranked payload e = Done (e', Continue payload') ->
  exists tx price, payload' = payload <[ ep_tx ::= tx ]> /\ signed_tx {| sg_payload := payload; sg_wallet := wallet; sg_context := c; sg_price := price; sg_tx := tx |}.
Proof.
  unfold sign_payload. intros (e1 & _ & _ & H)%bind_yields_inv.
  destruct (sign _) as [|tx] eqn:G; [discriminate|]. injection H as _ <-.
  eexists tx, _. split; [done|]. split; [exact G|]. intros cap. apply dynamic_gas_price_cap.
Qed.

(** ** Submitting *)

(** The submissions between two engines: at most [n], all with [P]. *)
Definition submits (P : Event -> Prop) (n : nat) (e e' : Engine) : Prop :=
  exists evs, trace e' = trace e ++ evs /\ Forall P (filter submission evs) /\
    (length (filter submission evs) <= n)%nat.

Lemma submits_none P e e' : emits (fun ev => ~ submission ev) e e' -> submits P 0 e e'.
Proof.
  intros (evs & E & F). exists evs. split; [done|].
  assert (filter submission evs = []) as ->; [|by split].
  clear E. induction F as [|ev evs N _ IH]; [done|]. by rewrite filter_cons_False.
Qed.
Lemma submits_app P n n' e1 e2 e3 :
  submits P n e1 e2 -> submits P n' e2 e3 -> submits P (n + n') e1 e3.
Proof.
  intros (l & E & F & L) (l' & E' & F' & L'). exists (l ++ l').
  rewrite E', E, <- app_assoc, filter_app, length_app, Forall_app.
  split_and!; [done..|lia].
Qed.

(** The budget is given back and one result recorded. *)
Definition settled (o : MevOpportunity) (e e' : Engine) : Prop :=
  capital_budget e' = release (capital_budget e) (victim_tx o) /\
  exists result, pnl e' = record (pnl e) result.

Lemma silent_settled o e1 e2 e3 : silent e1 e2 -> settled o e2 e3 -> settled o e1 e3.
Proof. intros (_ & B & P & _) [C (r & R)]. rewrite B in C. rewrite P in R. split; eauto. Qed.

Lemma now_bind {B} (k : Instant -> ExecM B) e e' x :
  (now ≫= k) e = Done (e', x) ->
  exists n e1, k (clk n) e1 = Done (e', x) /\ silent e e1 /\ execution_guard e1 = execution_guard e.
Proof.
  intros [(e1 & t & H1 & H)|(r & H1 & _)]%bind_inv.
  - assert (G : execution_guard e1 = execution_guard e) by (by injection H1 as <- _).
    apply now_inv in H1 as (n & [= ->] & S1). by exists n, e1.
  - by apply now_inv in H1 as (n & [=] & _).
Qed.

(** [record_result] always completes. *)
Lemma record_result_inv result key p t e e' x :
  record_result config result key p t e = Done (e', x) ->
  x = Continue tt /\ emits (fun ev => ~ submission ev) e e' /\
  capital_budget e' = capital_budget e /\ pnl e' = record (pnl e) result.
Proof.
  unfold record_result. intros (t0 & e0 & H & S0 & _)%now_bind.
  apply now_bind in H as (t1 & e1 & H & S1 & _). apply now_bind in H as (t2 & e2 & H & S2 & _).
  assert (S : silent e e2) by (etrans; [exact S0|]; by etrans). clear S0 S1 S2.
  destruct S as (T & B & P & _). rewrite get_engine_bind in H.
  destruct (record_guard _ _ _ _ _ _ _) as [[g a] b].
  rewrite <- B, <- P. destruct a, b; injection H as <- <-; simpl;
    (split_and!; [done| |done|done]); (etrans; [exact T|]); red; simpl;
    rewrite <- ?app_assoc; eexists; (split; [reflexivity|]); repeat constructor; simpl; tauto.
Qed.

Lemma settle_inv o payload path result e e' x :
  settle config o payload path result e = Done (e', x) ->
  x = Continue tt /\ emits (fun ev => ~ submission ev) e e' /\ settled o e e'.
Proof.
  unfold settle. intros [(e1 & [] & H1 & H)|(r & [=] & _)]%bind_inv.
  injection H1 as <-. apply record_result_inv in H as (-> & T & B & P).
  split_and!; [done|exact T|]. split; [exact B|]. by exists result.
Qed.

(** Observing the result never ends [handle] early. *)
Definition goes_on {A} (m : ExecM A) : Prop := forall e e' r, m e <> Done (e', Return r).
Lemma goes_on_bind {A B} (m : ExecM A) (f : A -> ExecM B) :
  goes_on m -> (forall a, goes_on (f a)) -> goes_on (m ≫= f).
Proof.
  intros M F e e' r [(e1 & a & _ & H)|(r' & H & _)]%bind_inv; [by eapply F|by eapply M].
Qed.
Lemma goes_on_ret {A} (a : A) : goes_on (mret a).
Proof. done. Qed.
Lemma goes_on_rpc {A} (m : RpcM A) : goes_on (lift_rpc m).
Proof. intros e e' r. unfold lift_rpc. by destruct (m (world e)) as [[]|]. Qed.
Lemma goes_on_outcome {A} (m : outcome A) : goes_on (lift_outcome m).
Proof. intros e e' r. unfold lift_outcome. by destruct m. Qed.
Lemma goes_on_emit ev : goes_on (emit ev).
Proof. done. Qed.
Lemma goes_on_get : goes_on get_engine.
Proof. done. Qed.
Lemma goes_on_adaptive f : goes_on (update_adaptive f).
Proof. done. Qed.
Hint Resolve goes_on_ret goes_on_rpc goes_on_outcome goes_on_emit goes_on_get goes_on_adaptive : exec.
Ltac goes_on_step :=
  match goal with
  | |- goes_on (mbind _ _) => apply goes_on_bind; [|intros ?]
  | |- goes_on (if ?b then _ else _) => destruct b
  | |- goes_on (match ?x with _ => _ end) => destruct x
  | |- goes_on _ => solve [auto with exec | apply goes_on_rpc | apply goes_on_emit]
  end.

Lemma confirm_goes_on n h r : goes_on (receipt_has_required_confirmations config n h r).
Proof. unfold receipt_has_required_confirmations. repeat goes_on_step. Qed.
Lemma finalize_goes_on s h o p rl r : goes_on (finalize config s h o p rl r).
Proof. unfold finalize. cbv zeta. repeat goes_on_step. Qed.
Hint Resolve confirm_goes_on finalize_goes_on : exec.
Lemma probe_goes_on n s hs o p rl : goes_on (probe config n s hs o p rl).
Proof. induction hs as [|h hs IH]; cbn [probe]; repeat goes_on_step. Qed.
Lemma handles_go_on i : goes_on (read_probe_handles i).
Proof. unfold read_probe_handles. repeat goes_on_step. Qed.
Hint Resolve probe_goes_on handles_go_on : exec.
Lemma probe_rounds_go_on n : forall s i o p rl, goes_on (probe_rounds config n s i o p rl).
Proof. induction n as [|n IH]; intros; cbn [probe_rounds]; repeat goes_on_step. Qed.
Hint Resolve probe_rounds_go_on : exec.
Lemma observe_goes_on i o p rl : goes_on (observe_realized_pnl config i o p rl).
Proof. unfold observe_realized_pnl. repeat goes_on_step. Qed.

(** A loop over completions submits nothing: it either settles and returns, or
    goes on with the books as they were. *)
Definition loop_run (o : MevOpportunity) {A} (e e' : Engine) (x : flow A) : Prop :=
  emits (fun ev => ~ submission ev) e e' /\
  match x with Return _ => settled o e e' | Continue _ => silent e e' end.

Lemma loop_run_silent o {A} e1 e2 e3 (x : flow A) :
  silent e1 e2 -> loop_run o e2 e3 x -> loop_run o e1 e3 x.
Proof.
  intros S [T X]. split; [etrans; [apply S|done]|].
  destruct x; [by eapply silent_settled|by etrans].
Qed.

(** The end of [handle] after a success. *)
Lemma observe_settle_inv {A} i o payload relay e e' (x : flow A) :
  (realized ← observe_realized_pnl config i o payload relay;
   settle config o payload (Some relay) realized;; stop (inr tt)) e = Done (e', x) ->
  loop_run o e e' x.
Proof.
  intros [(e1 & r & H1 & H)|(r & H1 & ->)]%bind_inv.
  - apply silent_observe in H1. apply bind_inv in H as [(e2 & [] & H2 & H)|(r' & H2 & _)].
    + injection H as <- <-. apply settle_inv in H2 as (_ & T & C).
      split; [etrans; [apply H1|done]|by eapply silent_settled].
    + by apply settle_inv in H2 as (? & _).
  - by apply observe_goes_on in H1.
Qed.

(** A silent step first. *)
Lemma loop_run_bind o {A C} (m : ExecM A) (f : A -> ExecM C) e e' x :
  within silent m -> goes_on m -> (forall a e1, f a e1 = Done (e', x) -> loop_run o e1 e' x) ->
  (m ≫= f) e = Done (e', x) -> loop_run o e e' x.
Proof.
  intros S G F [(e1 & a & H1 & H)|(r & H1 & _)]%bind_inv; [|by apply G in H1].
  eapply loop_run_silent; [by eapply S|by eapply F].
Qed.
Ltac loop_steps :=
  repeat (match goal with
          | |- (mbind _ ?m) _ = _ -> _ =>
              apply loop_run_bind;
              [first [apply silent_lift_rpc; solve [auto with exec] | apply silent_adaptive | solve [silent_run]]
              |solve [repeat goes_on_step]|intros ? ?]
          end).

Lemma rpc_loop_run o payload b l : forall err e e' x,
  rpc_loop config l o payload b err e = Done (e', x) -> loop_run o e e' x.
Proof.
  induction l as [|[[[h took] [msg|hash]]|] l IH]; intros err e e' x; cbn [rpc_loop].
  - intros [= <- <-]. split; reflexivity.
  - loop_steps. apply IH.
  - do 6 (apply loop_run_bind; [auto with exec|by auto with exec|intros _ ?]).
    apply observe_settle_inv.
  - apply IH.
Qed.

Lemma relay_loop_run o payload i l : forall err e e' x,
  relay_loop config l o payload i err e = Done (e', x) -> loop_run o e e' x.
Proof.
  induction l as [|[[[q ms] [msg|hash]]|] l IH]; intros err e e' x; cbn [relay_loop].
  - intros [= <- <-]. split; reflexivity.
  - loop_steps. apply IH.
  - do 5 (apply loop_run_bind; [auto with exec|by auto with exec|intros _ ?]).
    apply observe_settle_inv.
  - apply IH.
Qed.

(** Only the trace differs. *)
Definition same_books (e e' : Engine) : Prop :=
  capital_budget e' = capital_budget e /\ pnl e' = pnl e /\ execution_guard e' = execution_guard e.
#[local] Instance same_books_trans : Transitive same_books.
Proof. intros e1 e2 e3 (? & ? & ?) (? & ? & ?). split_and!; congruence. Qed.

(** Each submission is announced to the funnel, then made. *)
Lemma announce_inv {A} ev e e' (k : ExecM A) x :
  submission ev -> (emit (Funnel "submit_attempted");; emit ev;; k) e = Done (e', x) ->
  exists e1, k e1 = Done (e', x) /\ same_books e e1 /\ submits (eq ev) 1 e e1.
Proof.
  intros S H. exists (e <[ trace ::= trace e ++ [Funnel "submit_attempted"] ++ [ev] ]>).
  split_and!; [|done|].
  - rewrite app_assoc. exact H.
  - exists [Funnel "submit_attempted"; ev]. split; [done|].
    rewrite filter_cons_False by tauto. rewrite filter_cons_True by done. rewrite filter_nil.
    by repeat constructor.
Qed.

Lemma submits_weaken (P Q : Event -> Prop) n n' e e' :
  (forall ev, P ev -> Q ev) -> (n <= n')%nat -> submits P n e e' -> submits Q n' e e'.
Proof.
  intros I L (evs & E & F & N). exists evs. split_and!; [done|by eapply Forall_impl|lia].
Qed.
Lemma submits_refl P e : submits P 0 e e.
Proof. exists []. rewrite app_nil_r. split_and!; [done|constructor|done]. Qed.

Lemma send_all_inv tx l : forall e e' x,
  for_each (fun h => emit (Funnel "submit_attempted");; emit (SendRawTransaction (h_id h) tx)) l e
    = Done (e', x) ->
  x = Continue tt /\ same_books e e' /\
  submits (fun ev => exists h, h ∈ l /\ ev = SendRawTransaction (h_id h) tx) (length l) e e'.
Proof.
  induction l as [|h l IH]; intros e e' x H.
  { injection H as <- <-. split_and!; [done..|apply submits_refl]. }
  assert (H' : (emit (Funnel "submit_attempted");; emit (SendRawTransaction (h_id h) tx);;
            for_each (fun h => emit (Funnel "submit_attempted");;
                               emit (SendRawTransaction (h_id h) tx)) l) e = Done (e', x))
    by exact H.
  apply announce_inv in H' as (e1 & H1 & B & S); [|done]. apply IH in H1 as (-> & B' & S').
  split_and!; [done|by etrans|].
  eapply (submits_app _ 1); [|eapply submits_weaken; [|done|exact S']].
  - eapply submits_weaken; [|done|exact S]. intros ev <-. exists h. split; [left|done].
  - intros ev (y & Y & ->). exists y. split; [by right|done].
Qed.

Lemma spawn_inv b l : forall err e e' x,
  spawn_relays l b err e = Done (e', x) ->
  (exists r, x = Continue r) /\ same_books e e' /\
  submits (fun ev => exists q, q ∈ l /\ ev = SendBundle (relay_of q) b) (length l) e e'.
Proof.
  induction l as [|q l IH]; intros err e e' x H; cbn [spawn_relays] in H.
  { injection H as <- <-. split_and!; [eauto|done..|apply submits_refl]. }
  assert (W : forall ev, (exists y, y ∈ l /\ ev = SendBundle (relay_of y) b) ->
                         exists y, y ∈ q :: l /\ ev = SendBundle (relay_of y) b).
  { intros ev (y & Y & ->). exists y. split; [by right|done]. }
  destruct (url_error (relay_of q)) as [msg|].
  - apply IH in H as (X & B & S). split_and!; [done..|]. eapply submits_weaken; [exact W| |exact S].
    simpl; lia.
  - apply announce_inv in H as (e1 & H & B & S); [|done].
    apply bind_inv in H as [(e2 & [l' err'] & H1 & H)|(r & H1 & ->)].
    + injection H as <- <-. apply IH in H1 as (_ & B' & S'). split_and!; [eauto|by etrans|].
      eapply (submits_app _ 1); [|by eapply submits_weaken; [exact W| |exact S']].
      eapply submits_weaken; [|done|exact S]. intros ev <-. exists q. split; [left|done].
    + by apply IH in H1 as ((? & ?) & _).
Qed.

Lemma same_books_settled o e1 e2 e3 : same_books e1 e2 -> settled o e2 e3 -> settled o e1 e3.
Proof. intros (B & P & _) [C (r & R)]. rewrite B in C. rewrite P in R. split; eauto. Qed.

(** After the submissions: a loop that submits nothing, then the settling of
    what no completion settled. *)
Lemma finish_run o payload path {A C} (loop : ExecM A) (f : A -> string) e e' (x : flow C) :
  (forall e1 x1, loop e = Done (e1, x1) -> loop_run o e e1 x1) ->
  (last_error ← loop; settle config o payload path no_result;; stop (inl (f last_error))) e
    = Done (e', x) ->
  emits (fun ev => ~ submission ev) e e' /\ settled o e e'.
Proof.
  intros L [(e1 & a & H1 & H)|(r & H1 & _)]%bind_inv; [|by apply L in H1].
  apply L in H1 as [T S]. apply bind_inv in H as [(e2 & [] & H2 & H)|(r & H2 & _)];
    apply settle_inv in H2 as (X & T2 & C2); [|done].
  injection H as <- _. split; [by etrans|by eapply silent_settled].
Qed.

Lemma submits_then_none P n e1 e2 e3 :
  submits P n e1 e2 -> emits (fun ev => ~ submission ev) e2 e3 -> submits P n e1 e3.
Proof.
  intros S T. rewrite <- (Nat.add_0_r n). eapply submits_app; [exact S|by apply submits_none].
Qed.
Lemma none_then_submits P n e1 e2 e3 :
  emits (fun ev => ~ submission ev) e1 e2 -> submits P n e2 e3 -> submits P n e1 e3.
Proof. intros T S. apply (submits_app P 0 n _ e2); [by apply submits_none|done]. Qed.

(** ** Endpoints of a direct submission *)

Lemma strip_prefix_app s p r : strip_prefix s p = Some r -> s = (p +:+ r)%string.
Proof.
  revert s. induction p as [|c p IH]; intros [|d s]; simpl; intros H; try discriminate;
    try (injection H as <-; reflexivity).
  destruct (Ascii.eqb_spec c d) as [->|]; [|done]. apply (f_equal (String d)), IH, H.
Qed.
Lemma strip_prefix_label n : strip_prefix (rpc_label n) "rpc://" = Some n.
Proof. by destruct n. Qed.

Lemma rpc_label_inj a b : rpc_label a = rpc_label b -> a = b.
Proof.
  intros H. apply (f_equal (fun s => strip_prefix s "rpc://")) in H.
  rewrite !strip_prefix_label in H. by injection H.
Qed.

(** The named endpoints first, in the order of the ranking; then the others. *)
Lemma take_named_spec ranked : forall candidates,
  exists named rest,
    take_named ranked candidates = named ++ rest /\ named ++ rest ≡ₚ candidates /\
    (rpc_label ∘ h_name <$> named) `sublist_of` (relay_of <$> ranked) /\
    (NoDup (h_name <$> candidates) ->
     forall h, h ∈ rest -> rpc_label (h_name h) ∉ relay_of <$> ranked).
Proof.
  induction ranked as [|q ranked IH]; intros cs; cbn [take_named].
  { exists [], cs. split_and!; [done..|constructor|]. intros _ h _. simpl. by apply not_elem_of_nil. }
  destruct (strip_prefix (relay_of q) "rpc://") as [n|] eqn:Q; cbn [mbind option_bind].
  2: { destruct (IH cs) as (named & rest & -> & P & S & D). exists named, rest.
       split_and!; [done..|by constructor|]. intros N h H X%elem_of_cons.
       destruct X as [X|X]; [|by apply (D N h H)]. by rewrite <- X, strip_prefix_label in Q. }
  apply strip_prefix_app in Q. fold (rpc_label n) in Q.
  destruct (position _ cs) as [i|] eqn:I; cbn [mbind option_bind].
  - apply position_Some in I as (h & H & E). rewrite H. cbn [mbind option_bind].
    apply string_eqb_eq in E. subst n. destruct (IH (delete i cs)) as (named & rest & -> & P & S & D).
    exists (h :: named), rest. split_and!; [done| | |].
    + simpl. rewrite P. symmetry. by apply delete_Permutation.
    + simpl. rewrite Q. by constructor.
    + intros N x X. pose proof (delete_Permutation _ _ _ H) as DP.
      assert (N' : NoDup (h_name <$> h :: delete i cs)) by (by rewrite <- DP).
      apply NoDup_cons in N' as [N1 N2]. apply not_elem_of_cons. split; [|by apply D].
      rewrite Q. intros Y%rpc_label_inj. apply N1. rewrite <- Y. apply list_elem_of_fmap_2.
      rewrite <- P. apply elem_of_app. by right.
  - destruct (IH cs) as (named & rest & -> & P & S & D). exists named, rest.
    split_and!; [done..|by constructor|]. intros N h H X%elem_of_cons.
    destruct X as [X|X]; [|by apply (D N h H)].
    rewrite Q in X. apply rpc_label_inj in X. rewrite position_None in I.
    assert (h ∈ cs) as Hc by (rewrite <- P; apply elem_of_app; by right).
    specialize (I h Hc). simpl in I. rewrite X in I. by rewrite (proj2 (string_eqb_eq n n) eq_refl) in I.
Qed.

(** What a candidate for sending is: [send_candidates] names it when it is asked of the
    fleet as its operations have left it since the state [e]. *)
Definition named_for_sending (e : Engine) (h : RpcHandle) : Prop :=
  exists w w' candidates, rtc fleet_step (world e) w /\
    send_candidates clk powf rotate_env (fanout config) w = Done (w', candidates) /\ h ∈ candidates.
Lemma named_before e0 e h : rtc fleet_step (world e0) (world e) -> named_for_sending e h -> named_for_sending e0 h.
Proof. intros R (w & w' & cs & R' & N). exists w, w', cs. split; [by etrans|done]. Qed.

(** It is an endpoint of the fleet that is enabled at that moment. *)
Lemma named_enabled e h :
  (forall i, clk i <= clk (S i)) -> Inv clk (world e) -> named_for_sending e h ->
  exists w ep, rtc fleet_step (world e) w /\ endpoints (fleet w) !! h_id h = Some ep /\
    h = to_handle ep /\ disabled (state ep) = false.
Proof.
  intros M I (w & w' & cs & R & S & Hh).
  assert (Iw : Inv clk w).
  { clear S. induction R as [|x y z [[t St]|[o St]] R IH]; [done|apply IH..].
    - by eapply ptriple_now_inv.
    - by eapply (run_op_inv clk powf M o). }
  pose proof (triple_select clk powf M (statics (fleet w)) rotate_env true (fanout config) w (conj Iw eq_refl)) as H.
  unfold send_candidates in S. rewrite S in H. destruct H as [[[_ H] _] _].
  destruct (H h Hh) as [k E]. unfold statics in E. rewrite list_lookup_fmap in E.
  destruct (endpoints (fleet w) !! h_id h) as [ep|] eqn:L; [|done]. injection E as E1 E2 E3 E4 E5.
  exists w, ep. split_and!; [done|done| |done]. destruct h; unfold to_handle; simpl in *; by subst.
Qed.
Lemma endpoints_named ranked e e' hs :
  direct_rpc_submit_endpoints_from_ranked_paths config ranked e = Done (e', Continue hs) ->
  Forall (named_for_sending e) hs.
Proof.
  unfold direct_rpc_submit_endpoints_from_ranked_paths.
  intros (e1 & cs & H1 & H)%bind_yields_inv. injection H as _ <-.
  unfold lift_rpc in H1. destruct (send_candidates _ _ _ _ _) as [[w cs']|] eqn:S; [|done].
  injection H1 as _ ->. destruct (take_named_spec ranked cs) as (named & rest & -> & P & _).
  apply Forall_forall. intros h I. exists (world e), w, cs. split_and!; [done..|]. rewrite <- P.
  by apply elem_of_take in I as (i & I%list_elem_of_lookup_2 & _).
Qed.

Lemma submit_rpc_run o payload b ranked e e' x :
  ranked <> [] -> submit_rpc config o payload b ranked e = Done (e', x) ->
  submits (fun ev => exists h, named_for_sending e h /\ ev = SendRawTransaction (h_id h) (ep_tx payload))
    (fanout config) e e' /\
  settled o e e'.
Proof.
  intros N [(e1 & l & H1 & H)|(r & H1 & _)]%bind_inv.
  2: { unfold direct_rpc_submit_endpoints_from_ranked_paths in H1.
       exfalso. revert H1. apply goes_on_bind; [apply goes_on_rpc|done]. }
  pose proof (silent_named _ _ _ _ _ H1) as S1. pose proof (endpoints_named _ _ _ _ H1) as NS.
  assert (length l <= fanout config)%nat as L.
  { unfold direct_rpc_submit_endpoints_from_ranked_paths in H1.
    apply bind_yields_inv in H1 as (? & ? & _ & H1). injection H1 as _ <-. rewrite length_take. lia. }
  apply bind_inv in H as [(e2 & [] & H2 & H)|(r & H2 & _)];
    apply send_all_inv in H2 as (X & B & S2); [|done].
  destruct ranked as [|q ranked]; [done|].
  apply (finish_run o payload (Some (relay_of q)) _ _ e2) in H;
    [|intros ? ?; by apply rpc_loop_run].
  destruct H as [T C]. split.
  - eapply none_then_submits; [apply S1|]. eapply submits_then_none; [|exact T].
    eapply submits_weaken; [|exact L|exact S2]. intros ev (h & I & ->). exists h.
    split; [|done]. rewrite Forall_forall in NS. by apply NS.
  - eapply silent_settled; [exact S1|]. by eapply same_books_settled.
Qed.

Lemma submit_relays_run o payload c ranked e e' x :
  submit_relays config o payload c ranked e = Done (e', x) ->
  submits (fun ev => exists q, q ∈ ranked /\
             ev = SendBundle (relay_of q) (build_bundle (block c) o payload))
    (Nat.max (relay_fanout_count (mev config)) 1) e e' /\
  settled o e e'.
Proof.
  unfold submit_relays. cbv zeta.
  intros [(e1 & [l err] & H1 & H)|(r & H1 & _)]%bind_inv; apply spawn_inv in H1 as (X & B & S).
  2: { by destruct X. }
  apply (finish_run o payload (relay_of <$> head ranked) _ _ e1) in H;
    [|intros ? ?; by apply relay_loop_run].
  destruct H as [T C]. split.
  - eapply submits_then_none; [|exact T]. eapply submits_weaken; [| |exact S].
    + intros ev (q & Q & ->). exists q. split; [|done]. apply elem_of_take in Q as (i & Q & _). by eapply list_elem_of_lookup_2.
    + rewrite length_take. lia.
  - by eapply same_books_settled.
Qed.
End Phases.
