(* ===== verification/ExecutorProps.v ===== *)
(** * Properties of the executor

    What [handle] submits and under which conditions, what it leaves of the
    capital it reserves, the fees it signs, the endpoints it sends to, and what
    its preflight executes. *)
From S2P Require Import RpcFacts.
From S2P Require Import Prelude F64 Text Ethers Config AmmV2 AmmV3.
From S2P Require Import Simulator Rpc Pnl Payload Opportunity Budget Guard.
From S2P Require Import Adaptive AdaptiveFacts Executor ExecutorFacts.
#[local] Open Scope Z_scope.

Section Runs.
Context `{Out : Outside} (config : Config).

(** The budget's answer to the opportunity at a reading of the clock. *)
Definition budget_answer (o : MevOpportunity) (payload : ExecutionPayload) (b : CapitalBudget) (n : nat)
  : CapitalBudget * BudgetDecision :=
  check_and_reserve (clk n) b (wei_to_eth_f64 (ep_capital_committed_wei payload)) (cluster_of o)
    (ep_pair payload) (victim_tx o) (mev config).

(** Everything that has to hold before the transaction [s] is submitted for the
    opportunity [o] by the engine [e]. *)
Record authorized (o : MevOpportunity) (e : Engine) (ranked : list RelayQuote) (s : Signed) : Prop := {
  au_admissible : admissible config o (sg_payload s) (execution_guard e);
  au_wallet : parse_wallet (executor_private_key config) = inr (sg_wallet s);
  au_affordable : affordable config (sg_context s);
  au_budget : exists n, allowed (budget_answer o (sg_payload s) (capital_budget e) n).2 = true;
  au_paths : open_paths config o (sg_payload s) (execution_guard e) ranked;
  au_signed : signed_tx config s }.

(** A submission carries the one signed transaction: as it is to an endpoint that
    the fleet of the engine [e] names as a candidate for sending, or to a relay of the
    ranking in the bundle for the next block. *)
Definition carries (o : MevOpportunity) (e : Engine) (ranked : list RelayQuote) (s : Signed) (ev : Event) : Prop :=
  match ev with
  | SendRawTransaction id tx =>
      uses_bundle_relays config = false /\ tx = sg_tx s /\ exists h, id = h_id h /\ named_for_sending config e h
  | SendBundle relay b =>
      uses_bundle_relays config = true /\ relay ∈ relay_of <$> ranked /\
      bundle_block b = u64_sadd (block (sg_context s)) 1 /\
      bundle_transactions b =
        (match victim_transaction o with Some victim => [Revertible victim] | None => [] end)
        ++ [Ours (sg_tx s)]
  | _ => True
  end.

Lemma carries_before o e0 e ranked s ev :
  rtc fleet_step (world e0) (world e) -> carries o e ranked s ev -> carries o e0 ranked s ev.
Proof.
  destruct ev; simpl; try done. intros R (U & T & h & H & N). split_and!; [done..|].
  exists h. split; [done|]. by eapply named_before.
Qed.

Definition submission_limit : nat :=
  if uses_bundle_relays config then Nat.max (relay_fanout_count (mev config)) 1
  else Nat.max (rpc_fanout_count (mev config)) 1.

(** [handle] stops before the budget is asked. *)
Definition stopped (e e' : Engine) : Prop := silent e e'.
(** [handle] stops after the budget was asked, with nothing submitted: what the
    budget reserved, if it did, stays reserved. *)
Definition unsubmitted (o : MevOpportunity) (e e' : Engine) : Prop :=
  exists payload n, execution_payload o = Some payload /\
    emits (fun ev => ~ submission ev) e e' /\ pnl e' = pnl e /\
    capital_budget e' = (budget_answer o payload (capital_budget e) n).1.
(** [handle] submits, then settles. *)
Definition submitted (o : MevOpportunity) (e e' : Engine) : Prop :=
  exists ranked s n, authorized o e ranked s /\
    submits (carries o e ranked s) submission_limit e e' /\
    allowed (budget_answer o (sg_payload s) (capital_budget e) n).2 = true /\
    capital_budget e' = release (budget_answer o (sg_payload s) (capital_budget e) n).1 (victim_tx o) /\
    exists result, pnl e' = record (pnl e) result.

Lemma budget_gate_inv o payload e e' x :
  budget_gate config o payload e = Done (e', x) ->
  emits (fun ev => ~ submission ev) e e' /\ pnl e' = pnl e /\ execution_guard e' = execution_guard e /\
  rtc fleet_step (world e) (world e') /\
  exists n, capital_budget e' = (budget_answer o payload (capital_budget e) n).1 /\
    (forall a, x = Continue a -> allowed (budget_answer o payload (capital_budget e) n).2 = true).
Proof.
  unfold budget_gate, check_and_reserve_budget.
  intros [(e1 & d & H1 & H)|(r & H1 & _)]%bind_inv;
    apply now_bind in H1 as (n & e0 & H1 & S & G); rewrite get_engine_bind in H1;
    fold (budget_answer o payload (capital_budget e0) n) in H1;
    destruct S as (T & B & P & _ & W); rewrite B in H1;
    destruct (budget_answer o payload (capital_budget e) n) as [b d'] eqn:A; [|discriminate].
  injection H1 as <- <-. rewrite <- P, <- G.
  assert (X : (forall a, x = Continue a -> allowed d' = true) /\ silent (e0 <[ capital_budget ::= b ]>) e').
  { destruct (allowed d'); [injection H as <- <-; by split|].
    split; [intros a ->; by apply skip_inv in H|by eapply silent_skip]. }
  destruct X as [X (T' & B' & P' & _ & W')].
  split_and!; [by etrans|exact P'| |by etrans|exists n; by rewrite A].
  destruct (allowed d'); [by injection H as <- _|by injection H as <- _].
Qed.

Lemma open_paths_thaws o payload g g' ranked :
  thaws g g' -> open_paths config o payload g' ranked -> open_paths config o payload g ranked.
Proof.
  intros T (N & U & B). split_and!; [done|intros q Q; by eapply unfrozen_thaws, U|done].
Qed.

(** The submission phase, from the announcement of the ranking. *)
Lemma submission_run o payload b c ranked e e' x tx :
  ranked <> [] ->
  (emit (RelayRankings (relay_of <$> ranked));; note_event "info" "submit path ranking";;
   if uses_bundle_relays config then submit_relays config o (payload <[ ep_tx ::= tx ]>) c ranked
   else submit_rpc config o (payload <[ ep_tx ::= tx ]>) b ranked) e = Done (e', x) ->
  settled o e e' /\
  forall s, sg_tx s = tx -> sg_context s = c -> submits (carries o e ranked s) submission_limit e e'.
Proof.
  intros N H.
  apply bind_inv in H as [(e1 & [] & H1 & H)|(r & [=] & _)]. apply bind_inv in H as [(e2 & [] & H2 & H)|(r & [=] & _)].
  assert (S : silent e e2).
  { apply (silent_emit (RelayRankings _) (fun f => f)) in H1. apply silent_note in H2. by etrans. }
  clear H1 H2 e1. unfold carries, submission_limit in *.
  destruct (uses_bundle_relays config) eqn:U.
  - apply submit_relays_run in H as [T C]. split; [by eapply silent_settled|]. intros s Ht Hc.
    eapply none_then_submits; [apply S|]. eapply submits_weaken; [|done|exact T].
    intros ev (q & Q & ->). subst. split_and!; [done|by apply list_elem_of_fmap_2|done|done].
  - apply submit_rpc_run in H as [T C]; [|done]. split; [by eapply silent_settled|]. intros s Ht Hc.
    eapply none_then_submits; [apply S|]. eapply submits_weaken; [|done|exact T].
    intros ev (h & C' & ->). split_and!; [done|done|]. exists h. split; [done|].
    eapply named_before, C'. apply S.
Qed.

Lemma handle_run o e e' x :
  handle_body config o e = Done (e', x) ->
  stopped e e' \/ unsubmitted o e e' \/ submitted o e e'.
Proof.
  unfold handle_body.
  intros [(e1 & payload & H1 & H)|(r & H1 & _)]%bind_inv; [|left; by eapply silent_gate].
  pose proof (gate_inv _ _ _ _ _ H1) as G. apply silent_gate in H1.
  apply bind_inv in H as [(e2 & [wallet c] & H2 & H)|(r & H2 & _)];
    [|left; etrans; [exact H1|by eapply silent_prepare]].
  pose proof (prepare_inv _ _ _ _ _ H2) as [W F]. apply silent_prepare in H2.
  apply bind_inv in H as [(e3 & [] & H3 & H)|(r & H3 & _)]; apply silent_preflight in H3;
    [|left; etrans; [exact H1|by etrans]].
  assert (S : silent e e3) by (etrans; [exact H1|by etrans]). clear H1 H2 H3 e1 e2.
  destruct S as (T & B & P & Th & Wd).
  apply bind_inv in H as [(e4 & [] & H4 & H)|(r & H4 & _)];
    apply budget_gate_inv in H4 as (T4 & P4 & G4 & W4 & n & B4 & A4); rewrite B in *.
  2: { right; left. exists payload, n. split_and!; [apply G|by etrans|congruence|done]. }
  assert (U : forall e5, silent e4 e5 -> unsubmitted o e e5).
  { intros e5 (T5 & B5 & P5 & _). exists payload, n.
    split_and!; [apply G|etrans; [exact T|by etrans]|congruence|congruence]. }
  apply bind_inv in H as [(e5 & ranked & H5 & H)|(r & H5 & _)];
    [|right; left; apply U; by eapply silent_choose].
  pose proof (choose_inv _ _ _ _ _ _ _ H5) as O. apply silent_choose in H5.
  apply bind_inv in H as [(e6 & payload' & H6 & H)|(r & H6 & _)];
    [|right; left; apply U; etrans; [exact H5|by eapply silent_sign]].
  apply sign_inv in H6 as Z. destruct Z as (tx & price & -> & Sg). apply silent_sign in H6.
  apply submission_run in H as [C K]; [|apply O].
  assert (S : silent e4 e6) by (by etrans).
  right; right. eexists ranked, (Build_Signed payload wallet c price tx), n. split_and!.
  - split; try done; [exists n; by apply (A4 tt)|].
    eapply open_paths_thaws; [|exact O]. by rewrite G4.
  - eapply none_then_submits; [etrans; [exact T|]; etrans; [exact T4|apply S]|].
    eapply submits_weaken; [|reflexivity|by apply (K (Build_Signed payload wallet c price tx))]. intros ev. apply carries_before.
    etrans; [exact Wd|]. etrans; [exact W4|apply S].
  - by apply (A4 tt).
  - destruct C as [C _]. rewrite C. destruct S as (_ & -> & _). by rewrite B4.
  - destruct C as [_ (r & C)]. exists r. rewrite C. destruct S as (_ & _ & -> & _). congruence.
Qed.

Lemma handle_inv o e e' r :
  handle config o e = Done (e', r) ->
  stopped e e' \/ unsubmitted o e e' \/ submitted o e e'.
Proof.
  unfold handle. intros H. destruct (handle_body config o e) as [[e1 [x|[]]]|] eqn:E; [| |done];
    injection H as <- _; by eapply handle_run.
Qed.

Lemma emits_filter e e' :
  emits (fun ev => ~ submission ev) e e' ->
  exists evs, trace e' = trace e ++ evs /\ filter submission evs = [].
Proof.
  intros S%(submits_none (fun _ => True)). destruct S as (evs & E & _ & L).
  exists evs. split; [done|]. apply nil_length_inv. lia.
Qed.

Lemma release_check o payload b n :
  reservations (release (budget_answer o payload b n).1 (victim_tx o)) =
  filter (fun r => br_victim_tx r <> victim_tx o)
    (prune_queue (clk n) (capital_window_secs (mev config)) (reservations b)).
Proof.
  unfold budget_answer, check_and_reserve, release, prune.
  destruct (limit_exceeded _ _ _ _); simpl; [done|].
  rewrite filter_app. rewrite (filter_cons_False _ (Build_BudgetReservation _ _ _ _ _)) by (simpl; tauto).
  by rewrite filter_nil, app_nil_r.
Qed.

(** ** Fees *)

(** The limits of the overpay fit their width. *)
Definition overpay_ok (m : MevConfig) : Prop :=
  0 <= gas_overpay_base_extra_bps m /\ 0 <= gas_overpay_miss_extra_bps m /\
  0 <= gas_overpay_revert_extra_bps m /\ 0 <= gas_overpay_submit_failure_extra_bps m /\
  0 <= gas_overpay_max_extra_bps m <= U64_MAX - 10000.

Lemma u64_sadd_nonneg a b : 0 <= a -> 0 <= b -> 0 <= u64_sadd a b.
Proof. unfold sat_add, U64_MAX. lia. Qed.

Lemma dynamic_gas_price_range base best payload :
  overpay_ok (mev config) -> 0 <= base ->
  base * (10000 + gas_overpay_max_extra_bps (mev config)) <= U256_MAX ->
  exists adjusted,
    base <= adjusted <= base * (10000 + gas_overpay_max_extra_bps (mev config)) / 10000 /\
    dynamic_gas_price (mev config) base best payload =
      match max_gas_price_wei (mev config) with Some cap => Z.min adjusted cap | None => adjusted end.
Proof.
  intros (B & M & R & F & X) P L. unfold dynamic_gas_price. cbv zeta.
  assert (D : forall n, 0 <= n -> 0 <= n / 2) by (intros; by apply Z.div_pos).
  match goal with |- context [Z.min ?x (gas_overpay_max_extra_bps _)] => set (extra := x) end.
  assert (E : 0 <= extra).
  { unfold extra. destruct best as [q|]; repeat case_match; repeat apply u64_sadd_nonneg; auto. }
  clearbody extra. set (bps := Z.min extra _). assert (0 <= bps <= gas_overpay_max_extra_bps (mev config)) by lia.
  exists (u256_smul base (wrap64 (10000 + bps)) / 10000). split; [|done].
  assert (W : wrap64 (10000 + bps) = 10000 + bps).
  { unfold wrap64. apply Z.mod_small. unfold U64_MAX in X. lia. }
  rewrite W. unfold sat_mul. rewrite Z.min_l by nia.
  split; [apply Z.div_le_lower_bound; nia|apply Z.div_le_mono; nia].
Qed.

(** ** Endpoints of a direct submission *)

Lemma rpc_bind_inv {A B} (m : RpcM A) (f : A -> RpcM B) w w' b :
  (m ≫= f) w = Done (w', b) -> exists w1 a, f a w1 = Done (w', b).
Proof. unfold mbind, RpcM_bind. destruct (m w) as [[w1 a]|]; [eauto|done]. Qed.

Lemma length_omap_le {A B} (f : A -> option B) l : (length (omap f l) <= length l)%nat.
Proof. induction l as [|x l IH]; csimpl; [done|]. destruct (f x); csimpl; lia. Qed.

Lemma select_candidates_length now powf rotate mode limit w w' hs :
  select_candidates now powf rotate mode limit w = Done (w', hs) -> (length hs <= Nat.max limit 1)%nat.
Proof.
  unfold select_candidates. intros H. cbv zeta in H.
  do 7 (apply rpc_bind_inv in H as (? & ? & H)). injection H as _ <-.
  etrans; [apply length_omap_le|]. rewrite length_take. lia.
Qed.


(** ** Properties *)


(** C4: a submission is always settled: when a run of [handle] submits anything,
    in the end no reservation of the opportunity is left, the others are those
    that were in the window, and exactly one result has been added to the profit
    and loss, on every path through successes, failures and time-outs. A run that
    submits nothing either leaves both as they are, or has asked the budget: then the
    budget is what the answer made of it and the profit and loss is as before, or the
    reservation was released and one result added. *)
Theorem submissions_are_settled o e e' r evs :
  handle config o e = Done (e', r) -> trace e' = trace e ++ evs ->
  (filter submission evs <> [] ->
   exists n result,
     reservations (capital_budget e') =
       filter (fun r => br_victim_tx r <> victim_tx o)
         (prune_queue (clk n) (capital_window_secs (mev config)) (reservations (capital_budget e))) /\
     pnl e' = record (pnl e) result) /\
  (filter submission evs = [] ->
   capital_budget e' = capital_budget e /\ pnl e' = pnl e \/
   exists payload n, execution_payload o = Some payload /\
     let '(b, d) := budget_answer o payload (capital_budget e) n in
     capital_budget e' = b /\ pnl e' = pnl e \/
     allowed d = true /\ capital_budget e' = release b (victim_tx o) /\
       exists result, pnl e' = record (pnl e) result).
Proof.
  intros H T. apply handle_inv in H.
  assert (N : emits (fun ev => ~ submission ev) e e' -> filter submission evs = []).
  { intros (evs' & E & F)%emits_filter. rewrite E in T. by apply app_inv_head in T as <-. }
  destruct H as [S|[(p & n & P & S & L & B)|(ranked & s & n & A & _ & D & B & result & L)]].
  - destruct S as (S & B & L & _). split; [intros X; by destruct (X (N S))|]. by left.
  - split; [intros X; by destruct (X (N S))|]. intros _. right. exists p, n. split; [done|].
    destruct (budget_answer _ _ _ _). by left.
  - split; intros _.
    + exists n, result. split; [|done]. rewrite B. apply release_check.
    + right. exists (sg_payload s), n. split; [apply A|].
      destruct (budget_answer _ _ _ _). right. eauto.
Qed.

(** The capital reserved is lost when no path is left: if every relay of the
    configuration is frozen for the opportunity's pair and router as long as the
    run lasts, the run submits nothing and records nothing, and whatever the budget reserved for the opportunity stays
    reserved until the window ends. *)
Theorem no_open_path_keeps_the_reservation o e e' r payload :
  uses_bundle_relays config = true -> execution_payload o = Some payload ->
  (forall relay, relay ∈ builder_relays config ->
     exists until, freeze (execution_guard e) (context_key o payload relay) = Some until /\
       forall n, clk n < until) ->
  handle config o e = Done (e', r) ->
  pnl e' = pnl e /\
  (capital_budget e' = capital_budget e \/
   exists n, capital_budget e' = (budget_answer o payload (capital_budget e) n).1).
Proof.
  intros U P F [S|[(p & n & P' & S & L & B)|(ranked & s & n & A & _)]]%handle_inv.
  - destruct S as (_ & B & L & _). by split; [|left].
  - rewrite P in P'. injection P' as <-. split; [done|]. right. by exists n.
  - exfalso. destruct (au_paths _ _ _ _ A) as (N & O & I).
    assert (P' := proj1 (proj2 (au_admissible _ _ _ _ A))). rewrite P in P'. injection P' as E.
    destruct ranked as [|q ranked]; [done|]. destruct (F (relay_of q)) as (u & Fu & Lt).
    { eapply elem_of_submseteq; [|by apply I]. simpl. left. }
    destruct (O q ltac:(left) u) as (m & M); [by rewrite <- E|]. specialize (Lt m). lia.
Qed.
(** C21: the fees a transaction is signed with: the price is at least the
    network's, at most the configured overpay over it, and never over the cap;
    with a base fee, the priority is what the price leaves over the base fee but
    at least a quarter of the price, and the maximum fee is the price or the base
    fee and a quarter of the price, whichever is more, so it passes the price,
    and then possibly the cap, exactly when the base fee is more than three
    quarters of it. *)
Theorem signed_fees_spec wallet payload c best :
  overpay_ok (mev config) -> 0 <= gas_price c ->
  gas_price c * (10000 + gas_overpay_max_extra_bps (mev config)) <= U256_MAX ->
  (forall cap, max_gas_price_wei (mev config) = Some cap -> gas_price c <= cap) ->
  (forall b, base_fee_per_gas c = Some b -> 0 <= b) ->
  let price := dynamic_gas_price (mev config) (gas_price c) best payload in
  let tx := typed_transaction config wallet payload (chain_nonce c) price (base_fee_per_gas c) in
  gas_price c <= price <= gas_price c * (10000 + gas_overpay_max_extra_bps (mev config)) / 10000 /\
  (forall cap, max_gas_price_wei (mev config) = Some cap -> price <= cap) /\
  match base_fee_per_gas c with
  | None => tt_fees tx = Legacy price
  | Some b =>
      let max_fee := Z.max price (Z.min (b + price / 4) U256_MAX) in
      tt_fees tx = Eip1559 max_fee (Z.max (price - b) (price / 4)) /\
      Z.max (price - b) (price / 4) <= max_fee /\
      (b + price / 4 <= U256_MAX -> price < max_fee <-> price - price / 4 < b)
  end.
Proof.
  intros O G L C B. cbv zeta.
  destruct (dynamic_gas_price_range (gas_price c) best payload O G L) as (adj & A & E).
  generalize dependent (dynamic_gas_price (mev config) (gas_price c) best payload). intros price E.
  destruct O as (_ & _ & _ & _ & O).
  assert (adj <= U256_MAX).
  { etrans; [apply A|]. apply Z.div_le_upper_bound; lia. }
  assert (P : gas_price c <= price <= adj).
  { rewrite E. destruct (max_gas_price_wei (mev config)) as [cap|]; [specialize (C cap eq_refl)|]; lia. }
  split; [split; [apply P|etrans; [apply P|apply A]]|].
  split; [intros cap F; rewrite F in E; lia|]. clear E.
  unfold typed_transaction; cbn [tt_fees]. destruct (base_fee_per_gas c) as [b|]; [|done].
  specialize (B b eq_refl).
  pose proof (Z.div_pos price 4 ltac:(lia) ltac:(lia)). pose proof (Z.mul_div_le price 4 ltac:(lia)).
  split; [|lia]. unfold fees_of, sat_sub, sat_add. f_equal; lia.
Qed.

(** A direct submission goes to every candidate endpoint, frozen or not: the
    endpoints are the fleet's candidates for sending, all of them, those the
    ranking names first and in its order; the ranking, from which the frozen
    paths were dropped, removes none. *)
Theorem direct_submission_ignores_freezes ranked e e' hs :
  direct_rpc_submit_endpoints_from_ranked_paths config ranked e = Done (e', Continue hs) ->
  exists w candidates,
    send_candidates clk powf rotate_env (fanout config) (world e) = Done (w, candidates) /\
    hs ≡ₚ candidates /\
    exists named rest, hs = named ++ rest /\
      (rpc_label ∘ h_name <$> named) `sublist_of` (relay_of <$> ranked) /\
      (NoDup (h_name <$> candidates) ->
       forall h, h ∈ rest -> rpc_label (h_name h) ∉ relay_of <$> ranked).
Proof.
  unfold direct_rpc_submit_endpoints_from_ranked_paths.
  intros (e1 & cs & H1 & H)%bind_yields_inv. injection H as _ <-.
  unfold lift_rpc in H1. destruct (send_candidates _ _ _ _ _) as [[w cs']|] eqn:S; [|done].
  injection H1 as _ ->. exists w, cs. split; [done|].
  destruct (take_named_spec ranked cs) as (named & rest & -> & P & L & D).
  pose proof (select_candidates_length _ _ _ _ _ _ _ _ S) as B.
  rewrite take_ge by (rewrite P; unfold fanout in *; lia). split; [done|]. exists named, rest. done.
Qed.

Definition add_empty (a : option Address) (m : gmap Address AccountState) : gmap Address AccountState :=
  match a with Some a => <[a := AccountState_empty]> m | None => m end.
Lemma add_empty_Some a m x st : add_empty a m !! x = Some st -> st = AccountState_empty \/ m !! x = Some st.
Proof. destruct a as [a|]; simpl; [|auto]. intros [[_ <-]|[_ E]]%lookup_insert_Some; auto. Qed.
Lemma add_empty_eq a m : add_empty (Some a) m !! a = Some AccountState_empty.
Proof. apply lookup_insert_eq. Qed.
Lemma add_empty_keep a m x :
  m !! x = Some AccountState_empty -> add_empty a m !! x = Some AccountState_empty.
Proof.
  destruct a as [a|]; simpl; [|done]. destruct (decide (a = x)) as [->|N]; intros H.
  - apply lookup_insert_eq.
  - by rewrite lookup_insert_ne.
Qed.

(** The preflight runs no code: every account of the database it hands to the
    EVM is without code, the executors and the profit recipient in particular
    are empty accounts, so what the transaction calls is not the executor. *)
Theorem preflight_runs_no_code payload overrides :
  preflight_overrides config (preflight_pool payload) = Done overrides ->
  let db := apply_overrides overrides in
  map_Forall (fun _ acc => ra_code acc = None /\ ra_balance acc = 0) db /\
  forall a, mev_executor (mev config) = Some a \/ mev_executor_v3 (mev config) = Some a \/
    profit_address config = a ->
    db !! a = Some {| ra_balance := 0; ra_nonce := 0; ra_code := None; ra_storage := ∅ |}.
Proof.
  intros H. cbv zeta.
  assert (X : exists pool slots, overrides =
    <[profit_address config := AccountState_empty]>
      (add_empty (mev_executor_v3 (mev config))
        (add_empty (mev_executor (mev config)) {[ pool := with_storage slots ]}))).
  { unfold preflight_overrides, preflight_pool in H.
    destruct (ep_amm_kind payload); cbn in H; injection H as <-; eexists _, _; reflexivity. }
  clear H. destruct X as (pool & slots & ->). split.
  - intros a acc. rewrite apply_overrides_lookup. intros (st & E & ->)%fmap_Some.
    assert (D : code st = None /\ balance st = 0); [|destruct D; split; done].
    apply lookup_insert_Some in E as [[_ <-]|[_ E]]; [done|].
    apply add_empty_Some in E as [->|E]; [done|]. apply add_empty_Some in E as [->|E]; [done|].
    by apply lookup_singleton_Some in E as [_ <-].
  - intros a A. rewrite apply_overrides_lookup.
    destruct (decide (profit_address config = a)) as [->|N]; [by rewrite lookup_insert_eq|].
    rewrite lookup_insert_ne by done.
    destruct A as [A|[A|A]]; [|by rewrite A, add_empty_eq|done].
    rewrite A, add_empty_keep; [done|]. apply add_empty_eq.
Qed.
End Runs.

(** ** A concrete run *)

Definition sample_payload : ExecutionPayload :=
  {| ep_tx := []; ep_calldata := [0; 0; 0; 1]; ep_target_contract := 13; ep_value := 0; ep_pair := 7;
     ep_amm_kind := RouteV2; ep_capital_committed_wei := 10 ^ 18; ep_expected_profit_wei := 10 ^ 16;
     ep_gas_limit := 200000; ep_price_impact_bps := 10; ep_profit_token := 2; ep_profit_recipient := 23;
     ep_context_priority_score := 0.8; ep_context_toxicity_score := 0.1; ep_edge_metadata := None;
     ep_pool_state_before := UniswapV2 {| AmmV2.pair := 7; AmmV2.token0 := 2; AmmV2.token1 := 3;
                                          reserve0 := 1000; reserve1 := 1000; AmmV2.fee_bps := 30 |} |}.
Definition sample_opportunity : MevOpportunity :=
  {| detected_at := 0; victim_tx := 100; victim_transaction := None;
     execution_payload := Some sample_payload; op_router := 1; op_token_in := 2; op_token_out := 3;
     op_selector := [0; 0; 0; 1]; decode_source := ""; decode_confidence := 1.0; preferred_relay := None |}.

(** The clock reads a millisecond more each time, up to a second; the wallet holds 0.3 ether, a
    bundle is accepted at once and its receipt final in the second round. *)
Definition sample_outside : Outside :=
  {| clk := fun n => Z.of_nat (Nat.min n 1000) * 10 ^ 6; powf := fun x _ => x; rotate_env := None; env := fun _ => None;
     preflight_timestamp := 0; parse_wallet := fun _ => inr 21; sign := fun tx => inr [tt_nonce tx];
     transact := fun _ _ => inl "none"%string; utf8_lossy := fun _ => ""%string;
     query_context := fun _ =>
       inr {| cr_balance := 3 * 10 ^ 17; cr_nonce := 5; cr_gas_price := 20 * 10 ^ 9;
              cr_block := Some (Some 100, Some (15 * 10 ^ 9)) |};
     query_receipt := fun round _ =>
       if (round =? 0)%nat then inr None
       else inr (Some {| tr_gas_used := Some 150000; tr_effective_gas_price := Some (16 * 10 ^ 9);
                         tr_status := Some 1; tr_block_number := Some 101 |});
     query_block_number := fun _ _ => inr 110; query_balance := fun _ _ _ _ => None;
     rpc_completions := fun hs _ => (fun h => Some (h, 10 ^ 6, inr 77)) <$> hs;
     url_error := fun _ => None;
     relay_completions := fun qs _ => (fun q => Some (q, 12.0%f64, inr 77)) <$> qs |}.

Definition sample_engine (config : Config) : Engine :=
  {| world := {| fleet := RpcFacts.sample_fleet; tick := 10 |}; pnl := PnlTracker_default;
     adaptive := AdaptivePolicy_new config; last_treasury_signal := None;
     capital_budget := CapitalBudget_new; execution_guard := ExecutionGuard_default; trace := [] |}.

Definition sample_relays : Config := sample_config Conservative true [].

(** What the run ends with satisfies [P]. *)
Definition ends (m : outcome (Engine * (string + unit))) (P : Engine -> string + unit -> Prop) : Prop :=
  match m with Done (e, r) => P e r | Panicked => False end.


Lemma submissions_are_settled_witness :
  ends (@handle sample_outside sample_relays sample_opportunity (sample_engine sample_relays))
    (fun e r => (0.0 <? Pnl.realized_profit_eth (pnl e))%f64 = true /\
       reservations (capital_budget e) = [] /\ exists result, pnl e = record PnlTracker_default result).
Proof.
  assert (V : ends (@handle sample_outside sample_relays sample_opportunity (sample_engine sample_relays))
    (fun e r => (0.0 <? Pnl.realized_profit_eth (pnl e))%f64 = true /\ filter submission (trace e) =
       [SendBundle "relay" {| bundle_block := 101; bundle_transactions := [Ours [5]] |}]))
    by (vm_compute; split; reflexivity).
  destruct (@handle sample_outside sample_relays sample_opportunity (sample_engine sample_relays))
    as [[e r]|] eqn:E; [|destruct V]. destruct V as [R F]. split; [exact R|].
  apply (@submissions_are_settled sample_outside _ _ _ _ _ (trace e)) in E as [C _]; [|reflexivity].
  destruct C as (n & result & B & L); [by rewrite F|]. split; [exact B|by exists result].
Defined.

(** The path of the only relay is frozen. *)
Definition frozen_engine : Engine :=
  (sample_engine sample_relays) <[ execution_guard ::=
    {| consecutive_losses := 0; frozen_until := None;
       context_guards := {[ {| cf_pair := 7; cf_router := 1; cf_submit_path := "relay" |} :=
         {| ctx_consecutive_losses := 2; ctx_frozen_until := Some (10 ^ 12); last_event_at := None;
            regime_pressure_ewma := 0.5 |} ]} |} ]>.

Lemma no_open_path_keeps_the_reservation_witness :
  ends (@handle sample_outside sample_relays sample_opportunity frozen_engine)
    (fun e r => r = inr tt /\ (br_victim_tx <$> reservations (capital_budget e)) = [100] /\
       pnl e = PnlTracker_default).
Proof.
  assert (V : ends (@handle sample_outside sample_relays sample_opportunity frozen_engine)
    (fun e r => r = inr tt /\ (br_victim_tx <$> reservations (capital_budget e)) = [100]))
    by (vm_compute; split; reflexivity).
  destruct (@handle sample_outside sample_relays sample_opportunity frozen_engine)
    as [[e r]|] eqn:E; [|destruct V]. destruct V as [R B]. split_and!; [exact R|exact B|].
  apply (@no_open_path_keeps_the_reservation sample_outside _ _ _ _ _ sample_payload) in E as [P _];
    [exact P|reflexivity|reflexivity|].
  intros relay ->%list_elem_of_singleton. exists (10 ^ 12). split; [vm_compute; reflexivity|].
  intros n. cbn [clk sample_outside]. lia.
Defined.

Definition sample_context : SendContext :=
  {| endpoint := {| h_id := 0; h_name := "getblock-1"; h_url := "a" |}; hot_balance := 3 * 10 ^ 17;
     chain_nonce := 5; gas_price := 99 * 10 ^ 9; base_fee_per_gas := Some (90 * 10 ^ 9); block := 100 |}.

(** The cap is 100 gwei; the maximum fee is 115 gwei. *)
Lemma signed_fees_spec_witness :
  let price := dynamic_gas_price (mev sample_relays) (gas_price sample_context) None sample_payload in
  max_gas_price_wei (mev sample_relays) = Some (100 * 10 ^ 9) /\ price <= 100 * 10 ^ 9 /\
  tt_fees (typed_transaction sample_relays 21 sample_payload 5 price (Some (90 * 10 ^ 9))) =
    Eip1559 (115 * 10 ^ 9) (25 * 10 ^ 9).
Proof.
  destruct (signed_fees_spec sample_relays 21 sample_payload sample_context None) as (_ & C & F).
  - vm_compute; intuition discriminate.
  - vm_compute; discriminate.
  - vm_compute; discriminate.
  - intros cap [= <-]. vm_compute; discriminate.
  - intros b [= <-]. vm_compute; discriminate.
  - split_and!; [reflexivity|by apply C|]. destruct F as [F _]. etrans; [exact F|].
    vm_compute; reflexivity.
Defined.

(** Outside Ethereum transactions go to endpoints; that of the second is frozen. *)
Definition sample_direct : Config := sample_relays <[ network ::= "polygon"%string ]>.
Definition frozen_endpoint : Engine :=
  (sample_engine sample_direct) <[ execution_guard ::=
    {| consecutive_losses := 0; frozen_until := None;
       context_guards := {[ {| cf_pair := 7; cf_router := 1; cf_submit_path := "rpc://rpc-1" |} :=
         {| ctx_consecutive_losses := 2; ctx_frozen_until := Some (10 ^ 12); last_event_at := None;
            regime_pressure_ewma := 0.5 |} ]} |} ]>.
Definition sent_raw (e : Engine) : list (nat * Bytes) :=
  omap (fun ev => match ev with SendRawTransaction i tx => Some (i, tx) | _ => None end) (trace e).
Definition ranked_paths (e : Engine) : list (list string) :=
  omap (fun ev => match ev with RelayRankings l => Some l | _ => None end) (trace e).

Lemma direct_submission_ignores_freezes_witness :
  ends (@handle sample_outside sample_direct sample_opportunity frozen_endpoint)
    (fun e _ => ranked_paths e = [["rpc://getblock-1"]]%string /\ sent_raw e = [(0%nat, [5]); (1%nat, [5])]) /\
  exists e' hs, @direct_rpc_submit_endpoints_from_ranked_paths sample_outside sample_direct
      [relay_quote (adaptive frozen_endpoint) "rpc://getblock-1"] frozen_endpoint = Done (e', Continue hs) /\
    (h_name <$> hs) ≡ₚ ["getblock-1"; "rpc-1"]%string.
Proof.
  split; [vm_compute; split; reflexivity|].
  destruct (@direct_rpc_submit_endpoints_from_ranked_paths sample_outside sample_direct
      [relay_quote (adaptive frozen_endpoint) "rpc://getblock-1"] frozen_endpoint)
    as [[e' [r|hs]]|] eqn:E; [vm_compute in E; discriminate E| |vm_compute in E; discriminate E].
  exists e', hs. split; [reflexivity|].
  apply (@direct_submission_ignores_freezes sample_outside) in E as (w & cs & S & P & _).
  rewrite P. vm_compute in S. injection S as _ <-. reflexivity.
Defined.

Lemma preflight_runs_no_code_witness :
  exists overrides, preflight_overrides sample_relays (preflight_pool sample_payload) = Done overrides /\
    apply_overrides overrides !! 13 =
      Some {| ra_balance := 0; ra_nonce := 0; ra_code := None; ra_storage := ∅ |}.
Proof.
  destruct (preflight_overrides sample_relays (preflight_pool sample_payload)) as [ov|] eqn:E; [|discriminate E].
  exists ov. split; [reflexivity|]. apply preflight_runs_no_code in E as [_ D]. apply D. left. reflexivity.
Defined.
