(* ===== verification/Calldata.v ===== *)
(** * Pieces of calldata ([mev/runtime.rs])

    Swap signals, packed V3 paths, and what is searched in raw calldata: the
    addresses of monitored tokens and plausible amounts. *)
From S2P Require Import Prelude F64 Text Ethers Config.
#[local] Open Scope Z_scope.

(** ** Signals *)

Inductive SwapKind :=
| SwapV2
| SwapV3 (fee_tier : u32) (encoded_path : Bytes) (hops : usize) (exact_out : bool).

Record SwapSignal := {
  sw_selector : Bytes;
  sw_amount_in : U256;
  sw_amount_out_min : option U256;
  sw_notional_wei : U256;
  sw_path : list Address;
  sw_router : Address;
  sw_kind : SwapKind;
  sw_decode_confidence : f64;
  sw_decode_source : string }.
#[export] Instance SwapSignal_eta : RecordEta SwapSignal :=
  fields Build_SwapSignal <&> sw_selector <&> sw_amount_in <&> sw_amount_out_min <&> sw_notional_wei
    <&> sw_path <&> sw_router <&> sw_kind <&> sw_decode_confidence <&> sw_decode_source.

Definition path_len (self : SwapSignal) : usize :=
  match sw_kind self with
  | SwapV2 => length (sw_path self)
  | SwapV3 _ _ hops _ => Nat.max (S hops) (length (sw_path self))
  end.
Definition is_partial_decode (self : SwapSignal) : bool := (sw_decode_confidence self <? 0.99)%f64.

(** ** Packed V3 paths: 20 bytes of token, 3 of fee, 20 of token, ... *)

Record ParsedV3Path := {
  pp_token_in : Address;
  edge_token_out : Address;
  first_fee_tier : u32;
  pp_hops : usize }.
Record V3PathSegment := {
  seg_token_in : Address;
  seg_token_out : Address;
  seg_fee_tier : u32 }.

(** [&path[a..b]]. *)
Definition slice {A} (l : list A) (a b : nat) : list A := take (b - a) (drop a l).

Definition parse_v3_path (path : Bytes) : option ParsedV3Path :=
  if (length path <? 43)%nat then None
  else Some {| pp_token_in := from_big_endian (slice path 0 20);
               edge_token_out := from_big_endian (slice path 23 43);
               first_fee_tier := from_big_endian (slice path 20 23);
               pp_hops := ((length path - 20) / 23)%nat |}.

(** The [for hop in 0..hop_count] loop, which breaks at a segment cut short. *)
Fixpoint segments_loop (path : Bytes) (hops : list nat) : list V3PathSegment :=
  match hops with
  | [] => []
  | hop :: hops =>
      let token_in_offset := (hop * 23)%nat in
      let fee_offset := (token_in_offset + 20)%nat in
      let token_out_offset := (fee_offset + 3)%nat in
      if (length path <? token_out_offset + 20)%nat then []
      else {| seg_token_in := from_big_endian (slice path token_in_offset (token_in_offset + 20));
              seg_token_out := from_big_endian (slice path token_out_offset (token_out_offset + 20));
              seg_fee_tier := from_big_endian (slice path fee_offset (fee_offset + 3)) |}
             :: segments_loop path hops
  end.
Definition parse_v3_path_segments (path : Bytes) : list V3PathSegment :=
  if (length path <? 43)%nat then []
  else segments_loop path (seq 0 ((length path - 20) / 23)).

Definition parse_v3_exact_out_path (path : Bytes) : option ParsedV3Path :=
  forward ← parse_v3_path path;
  if (pp_hops forward =? 1)%nat then
    Some {| pp_token_in := edge_token_out forward; edge_token_out := pp_token_in forward;
            first_fee_tier := first_fee_tier forward; pp_hops := pp_hops forward |}
  else None.

(** The low three bytes of the fee. *)
Definition encode_v3_path (token_in : Address) (fee_tier : u32) (token_out : Address) : Bytes :=
  to_big_endian 20 token_in ++ drop 1 (to_big_endian 4 fee_tier) ++ to_big_endian 20 token_out.

(** ** Addresses and amounts in raw calldata *)

(** [windows(20).position(|window| window == address)]. *)
Definition window_positions (input : Bytes) : list nat := seq 0 (length input + 1 - 20).
Definition address_position (input : Bytes) (a : Address) : option nat :=
  position (fun i => bool_decide (slice input i (i + 20) = to_big_endian 20 a)) (window_positions input).
Definition input_contains_address (input : Bytes) (a : Address) : bool :=
  bool_decide (is_Some (address_position input a)).

Definition by_position (a b : nat * Address) : comparison := Z.compare (Z.of_nat a.1) (Z.of_nat b.1).
Definition monitored_token_addresses_in_input (monitored_tokens : list MonitoredTokenConfig)
    (input : Bytes) : list Address :=
  let matches := push_loop (fun token =>
      (fun i => (i, mt_address token)) <$> address_position input (mt_address token)) monitored_tokens in
  take 6 (snd <$> sort_by by_position matches).

(** [retain] keeps the first occurrence of each address. *)
Fixpoint dedup_from (seen path : list Address) : list Address :=
  match path with
  | [] => []
  | a :: path => if bool_decide (a ∈ seen) then dedup_from seen path
                 else a :: dedup_from (a :: seen) path
  end.
Definition dedup_address_path (path : list Address) : list Address := dedup_from [] path.

(** [chunks_exact(32)]. *)
Fixpoint chunks_exact (fuel n : nat) (input : Bytes) : list Bytes :=
  match fuel with
  | O => []
  | S fuel => if (length input <? n)%nat then [] else take n input :: chunks_exact fuel n (drop n input)
  end.
Definition words (input : Bytes) : list Bytes := chunks_exact (length input) 32 input.

Definition amount_hint_from_calldata (input : Bytes) : option U256 :=
  min_by Z.compare (omap (fun word =>
    let value := from_big_endian word in
    if (10000 <=? value) && (value <=? 10 ^ 24) then Some value else None) (words input)).

Definition path_contains_monitored_token (path : list Address)
    (monitored_tokens : list MonitoredTokenConfig) : bool :=
  existsb (fun a => existsb (fun token => mt_address token =? a) monitored_tokens) path.

Definition polygon_partial_counterpart_tokens : list Address :=
  [ 0x2791bca1f2de4661ed88a30c99a7a9449aa84174;
    0xc2132d05d31c914a87c6611c10748aeb04b58e8f;
    0x0d500b1d8e8ef31e21c99d1db9a6444d3adf1270;
    0x7ceb23fd6bc0add59e62ac25578270cff1b9f619;
    0x8f3cf7ad23cd3cadbd9735aff958023239c6a063 ].

(** The tokens found, in order of appearance; a lone one is paired with another
    monitored token, or with one of Polygon's. *)
Definition partial_path_from_monitored_tokens (monitored_tokens : list MonitoredTokenConfig)
    (args : Bytes) : list Address :=
  let path := dedup_address_path (monitored_token_addresses_in_input monitored_tokens args) in
  match path with
  | [anchor] =>
      match head (filter (fun a => a <> anchor)
                    ((mt_address <$> monitored_tokens) ++ polygon_partial_counterpart_tokens)) with
      | Some other => path ++ [other]
      | None => path
      end
  | _ => path
  end.

(** ** ABI values *)

Definition token_as_uint (t : Token) : option U256 := match t with TUint n => Some n | _ => None end.
Definition token_as_address (t : Token) : option Address := match t with TAddress a => Some a | _ => None end.
Definition token_as_address_vec (t : Token) : option (list Address) :=
  match t with TArray l => mapM token_as_address l | _ => None end.
Definition token_as_bytes (t : Token) : option Bytes := match t with TBytes b => Some b | _ => None end.
Definition token_as_array (t : Token) : option (list Token) := match t with TArray l => Some l | _ => None end.
Definition token_as_tuple (t : Token) : option (list Token) := match t with TTuple l => Some l | _ => None end.

(** The first packed path found, depth first. *)
Fixpoint token_find_v3_path_bytes (t : Token) : option Bytes :=
  match t with
  | TBytes b | TFixedBytes b => match parse_v3_path b with Some _ => Some b | None => None end
  | TArray l | TFixedArray l | TTuple l =>
      (fix find (l : list Token) : option Bytes :=
         match l with
         | [] => None
         | t :: l => match token_find_v3_path_bytes t with Some p => Some p | None => find l end
         end) l
  | _ => None
  end.
Definition token_tree_find_v3_path_bytes (tokens : list Token) : option Bytes :=
  token_find_v3_path_bytes (TTuple tokens).

Section AddressPath.
Context (monitored_tokens : list MonitoredTokenConfig).
Definition address_path_of (l : list Token) : option (list Address) :=
  path ← mapM token_as_address l;
  if (2 <=? length path)%nat && path_contains_monitored_token path monitored_tokens
  then Some path else None.
Fixpoint token_find_address_path (t : Token) : option (list Address) :=
  let tree := fix find (l : list Token) : option (list Address) :=
    match l with
    | [] => None
    | t :: l => match token_find_address_path t with Some p => Some p | None => find l end
    end in
  match t with
  | TArray l | TFixedArray l =>
      match address_path_of l with Some path => Some path | None => tree l end
  | TTuple l => tree l
  | _ => None
  end.
Definition token_tree_find_address_path (tokens : list Token) : option (list Address) :=
  token_find_address_path (TTuple tokens).
End AddressPath.
