(* ===== verification/Decode.v ===== *)
(** * The decoders of router calldata ([mev/runtime.rs])

    From a pending transaction to a swap signal: the direct routers, the
    universal router with its sub-plans, wallets and multicalls that wrap other
    calls, and the partial decoding of aggregators by the tokens they mention.
    The ABI decoder of [ethers] is a parameter, like the printing and the
    parsing of decimal ether amounts. *)
From S2P Require Import Prelude F64 Text Ethers Config Selector Calldata.
#[local] Open Scope Z_scope.

(** ** Selectors *)

Definition SWAP_EXACT_TOKENS_FOR_TOKENS : Bytes := [0x38; 0xed; 0x17; 0x39].
Definition SWAP_EXACT_ETH_FOR_TOKENS : Bytes := [0x7f; 0xf3; 0x6a; 0xb5].
Definition SWAP_EXACT_TOKENS_FOR_ETH : Bytes := [0x18; 0xcb; 0xaf; 0xe5].
Definition SWAP_EXACT_TOKENS_FOR_TOKENS_SUPPORTING_FEE : Bytes := [0x5c; 0x11; 0xd7; 0x95].
Definition SWAP_EXACT_ETH_FOR_TOKENS_SUPPORTING_FEE : Bytes := [0xb6; 0xf9; 0xde; 0x95].
Definition SWAP_EXACT_TOKENS_FOR_ETH_SUPPORTING_FEE : Bytes := [0x79; 0x1a; 0xc9; 0x47].
Definition V3_EXACT_INPUT_SINGLE : Bytes := [0x41; 0x4b; 0xf3; 0x89].
Definition V3_EXACT_INPUT : Bytes := [0xc0; 0x4b; 0x8d; 0x59].
Definition UNIVERSAL_ROUTER_EXECUTE : Bytes := [0x35; 0x93; 0x56; 0x4c].
Definition UNIVERSAL_ROUTER_EXECUTE_NO_DEADLINE : Bytes := [0x24; 0x85; 0x6b; 0xc3].
Definition ZERO_EX_TRANSFORM_ERC20 : Bytes := [0x41; 0x55; 0x65; 0xb0].
Definition ZERO_EX_SELL_TO_UNISWAP : Bytes := [0xd9; 0x62; 0x7a; 0xa4].
Definition ONE_INCH_SWAP : Bytes := [0x12; 0xaa; 0x3c; 0x6a].
Definition ONE_INCH_UNOSWAP : Bytes := [0x2e; 0x95; 0xb6; 0xc8].
Definition PARASWAP_SIMPLE_SWAP : Bytes := [0x54; 0xe3; 0xf3; 0x1b].
Definition ODOS_SWAP_COMPACT : Bytes := [0x83; 0xbd; 0x37; 0xf9].
Definition KYBER_SWAP : Bytes := [0x3f; 0x2d; 0x5c; 0xf5].
Definition SAFE_EXEC_TRANSACTION : Bytes := [0x6a; 0x76; 0x12; 0x02].
Definition TRANSIT_SWAP_V5 : Bytes := [0xd8; 0x08; 0xd8; 0x89].
Definition TRANSIT_EXACT_INPUT_V3_SWAP : Bytes := [0xb9; 0xb5; 0x14; 0x9b].
Definition TRANSIT_EXACT_INPUT_V2_SWAP : Bytes := [0x0d; 0xc4; 0xbd; 0xae].
Definition AGGREGATOR_SELECTOR_01B7037C : Bytes := [0x01; 0xb7; 0x03; 0x7c].
Definition AGGREGATOR_SELECTOR_0A3C4405 : Bytes := [0x0a; 0x3c; 0x44; 0x05].
Definition AGGREGATOR_SELECTOR_0A2B8F36 : Bytes := [0x0a; 0x2b; 0x8f; 0x36].
Definition AGGREGATOR_SELECTOR_405CEC67 : Bytes := [0x40; 0x5c; 0xec; 0x67].
Definition AGGREGATOR_SELECTOR_0060EA13 : Bytes := [0x00; 0x60; 0xea; 0x13].
Definition AGGREGATOR_SELECTOR_448E340E : Bytes := [0x44; 0x8e; 0x34; 0x0e].
Definition AGGREGATOR_SELECTOR_9265BB9D : Bytes := [0x92; 0x65; 0xbb; 0x9d].
Definition AGGREGATOR_SELECTOR_C3192F1F : Bytes := [0xc3; 0x19; 0x2f; 0x1f].
Definition AGGREGATOR_SELECTOR_CDD1B25D : Bytes := [0xcd; 0xd1; 0xb2; 0x5d].
Definition AGGREGATOR_SELECTOR_F2881E21 : Bytes := [0xf2; 0x88; 0x1e; 0x21].
Definition BALANCER_SELECTOR_46495152 : Bytes := [0x46; 0x49; 0x51; 0x52].
Definition PRIVATE_SEARCHER_SELECTOR_D00BA30B : Bytes := [0xd0; 0x0b; 0xa3; 0x0b].
Definition PRIVATE_SWAP_WRAPPER_2E35732F : Bytes := [0x2e; 0x35; 0x73; 0x2f].
Definition POLYMARKET_BATCH_EXECUTE : Bytes := [0x02; 0x3e; 0x8d; 0x84].
Definition WOOFI_WOORACLE_POST_STATE : Bytes := [0x71; 0xea; 0x92; 0x05].
Definition UNISWAP_V3_EXACT_INPUT_SINGLE_NO_DEADLINE : Bytes := [0x04; 0xe4; 0x5a; 0xaf].
Definition ALGEBRA_EXACT_INPUT_SINGLE : Bytes := [0xbc; 0x65; 0x11; 0x88].
Definition MULTICALL_BYTES : Bytes := [0xac; 0x96; 0x50; 0xd8].
Definition MULTICALL_DEADLINE_BYTES : Bytes := [0x5a; 0xe4; 0x01; 0xdc].
Definition CONTEXT_WRAP_SELECTOR : Bytes := [0x62; 0x35; 0x56; 0x38].
Definition ENTRYPOINT_HANDLE_OPS : Bytes := [0x76; 0x5e; 0x82; 0x7f].
Definition SELECTOR_NOISE_00000000 : Bytes := [0x00; 0x00; 0x00; 0x00].
Definition SELECTOR_NOISE_00000008 : Bytes := [0x00; 0x00; 0x00; 0x08].
Definition OBSERVED_UNSUPPORTED_SELECTOR_5F052516 : Bytes := [0x5f; 0x05; 0x25; 0x16].
Definition OBSERVED_UNSUPPORTED_SELECTOR_3D6684A8 : Bytes := [0x3d; 0x66; 0x84; 0xa8].
Definition OBSERVED_UNSUPPORTED_SELECTOR_3A66E301 : Bytes := [0x3a; 0x66; 0xe3; 0x01].
Definition OBSERVED_UNSUPPORTED_SELECTOR_4A502F39 : Bytes := [0x4a; 0x50; 0x2f; 0x39].
Definition OBSERVED_UNSUPPORTED_SELECTOR_E3EAD59E : Bytes := [0xe3; 0xea; 0xd5; 0x9e].
Definition OBSERVED_UNSUPPORTED_SELECTOR_3C02F856 : Bytes := [0x3c; 0x02; 0xf8; 0x56].
Definition PRIVATE_MEV_SELECTOR_A00597A0 : Bytes := [0xa0; 0x05; 0x97; 0xa0].
Definition PRIVATE_MEV_SELECTOR_EAA79076 : Bytes := [0xea; 0xa7; 0x90; 0x76].
Definition PRIVATE_MEV_SELECTOR_34EE9791 : Bytes := [0x34; 0xee; 0x97; 0x91].
Definition PRIVATE_MEV_SELECTOR_669DC5B6 : Bytes := [0x66; 0x9d; 0xc5; 0xb6].
Definition SAFE_INNER_SELECTOR_8CC7104F : Bytes := [0x8c; 0xc7; 0x10; 0x4f].
Definition SAFE_INNER_SELECTOR_9E7212AD : Bytes := [0x9e; 0x72; 0x12; 0xad].
Definition UNIVERSAL_ROUTER_COMMAND_MASK : Z := 0x7f.

Definition is_sel (sel c : Bytes) : bool := bool_decide (sel = c).
Definition sel_in (sel : Bytes) (cs : list Bytes) : bool := existsb (is_sel sel) cs.

(** ** The universal router's graph *)

Record UniversalRouterHop := {
  hop_dex : string;
  hop_command : string;
  hop_token_in : Address;
  hop_token_out : Address;
  hop_amount_in : option U256;
  hop_amount_out : option U256;
  hop_fee_tier : option u32;
  hop_exact_out : bool;
  hop_depth : usize }.
Record UniversalRouterRouteGraph := {
  command_count : u64;
  swap_command_count : u64;
  graph_hops : list UniversalRouterHop;
  unsupported_commands : list string }.
#[export] Instance UniversalRouterRouteGraph_eta : RecordEta UniversalRouterRouteGraph :=
  fields Build_UniversalRouterRouteGraph <&> command_count <&> swap_command_count <&> graph_hops
    <&> unsupported_commands.
Definition empty_graph : UniversalRouterRouteGraph :=
  {| command_count := 0; swap_command_count := 0; graph_hops := []; unsupported_commands := [] |}.

Section Decode.
Context (abi_decode : list ParamType -> Bytes -> option (list Token)).

(** [decoded.get(i).and_then(f)]. *)
Definition at_ {A} (f : Token -> option A) (ts : list Token) (i : nat) : option A := ts !! i ≫= f.

Definition signal_of (sel : Bytes) (router : Address) (amount_in : U256) (amount_out_min : option U256)
    (path : list Address) (kind : SwapKind) (confidence : f64) (source : string) : SwapSignal :=
  {| sw_selector := sel; sw_amount_in := amount_in; sw_amount_out_min := amount_out_min;
     sw_notional_wei := 0; sw_path := path; sw_router := router; sw_kind := kind;
     sw_decode_confidence := confidence; sw_decode_source := source |}.

(** The kind of a V3 swap of which the first hop is kept, its path reversed. *)
Definition v3_kind (parsed : ParsedV3Path) (exact_out : bool) : SwapKind :=
  SwapV3 (first_fee_tier parsed)
    (encode_v3_path (edge_token_out parsed) (first_fee_tier parsed) (pp_token_in parsed))
    (pp_hops parsed) exact_out.

(** *** Commands of the universal router *)

Definition V2_SWAP_PARAMS : list ParamType := [PAddress; PUint 256; PUint 256; PArray PAddress; PBool].
Definition V3_SWAP_PARAMS : list ParamType := [PAddress; PUint 256; PUint 256; PBytes; PBool].
Definition PLAN_PARAMS : list ParamType := [PBytes; PArray PBytes].

Definition decode_universal_router_v2_exact_in (sel : Bytes) (router : Address) (input : Bytes)
  : option SwapSignal :=
  decoded ← abi_decode V2_SWAP_PARAMS input;
  amount_in ← at_ token_as_uint decoded 1;
  let amount_out_min := at_ token_as_uint decoded 2 in
  path ← at_ token_as_address_vec decoded 3;
  Some (signal_of sel router amount_in amount_out_min path SwapV2 1.0 "universal_router").

Definition decode_universal_router_v2_exact_out (sel : Bytes) (router : Address) (input : Bytes)
  : option SwapSignal :=
  decoded ← abi_decode V2_SWAP_PARAMS input;
  amount_out ← at_ token_as_uint decoded 1;
  amount_in_max ← at_ token_as_uint decoded 2;
  path ← at_ token_as_address_vec decoded 3;
  Some (signal_of sel router amount_in_max (Some amount_out) path SwapV2 1.0 "universal_router").

Definition decode_universal_router_v3_exact_in (sel : Bytes) (router : Address) (input : Bytes)
  : option SwapSignal :=
  decoded ← abi_decode V3_SWAP_PARAMS input;
  amount_in ← at_ token_as_uint decoded 1;
  let amount_out_min := at_ token_as_uint decoded 2 in
  path_bytes ← at_ token_as_bytes decoded 3;
  parsed ← parse_v3_path path_bytes;
  Some (signal_of sel router amount_in amount_out_min [pp_token_in parsed; edge_token_out parsed]
          (v3_kind parsed false) 1.0 "universal_router").

Definition decode_universal_router_v3_exact_out (sel : Bytes) (router : Address) (input : Bytes)
  : option SwapSignal :=
  decoded ← abi_decode V3_SWAP_PARAMS input;
  amount_out ← at_ token_as_uint decoded 1;
  amount_in_max ← at_ token_as_uint decoded 2;
  path_bytes ← at_ token_as_bytes decoded 3;
  parsed ← parse_v3_exact_out_path path_bytes;
  Some (signal_of sel router amount_in_max (Some amount_out) [pp_token_in parsed; edge_token_out parsed]
          (v3_kind parsed true) 1.0 "universal_router").

Definition decode_universal_router_sub_plan (input : Bytes) : option (Bytes * list Token) :=
  decoded ← abi_decode PLAN_PARAMS input;
  commands ← at_ token_as_bytes decoded 0;
  inputs ← at_ token_as_array decoded 1;
  Some (commands, inputs).

Definition opcode_of (command : Z) : Z := Z.land command UNIVERSAL_ROUTER_COMMAND_MASK.
(** [depth > 3] ends the nesting. *)
Definition LEVELS : nat := 4.

(** The loop over the commands; [levels] is the number of levels left, four
    at the top. An input that is not bytes is skipped, a missing one ends the loop. *)
Fixpoint decode_universal_router_parts (levels : nat) (sel : Bytes) (router : Address)
    (commands : Bytes) (inputs : list Token) : list SwapSignal :=
  match levels with
  | O => []
  | S levels =>
      (fix loop (commands : Bytes) (inputs : list Token) {struct commands} : list SwapSignal :=
         match commands, inputs with
         | command :: commands, TBytes input :: inputs =>
             let op := opcode_of command in
             (if op =? 0x00 then option_list (decode_universal_router_v3_exact_in sel router input)
              else if op =? 0x01 then option_list (decode_universal_router_v3_exact_out sel router input)
              else if op =? 0x08 then option_list (decode_universal_router_v2_exact_in sel router input)
              else if op =? 0x09 then option_list (decode_universal_router_v2_exact_out sel router input)
              else if op =? 0x21 then
                match decode_universal_router_sub_plan input with
                | Some (sub_commands, sub_inputs) =>
                    decode_universal_router_parts levels sel router sub_commands sub_inputs
                | None => []
                end
              else [])
             ++ loop commands inputs
         | _ :: commands, _ :: inputs => loop commands inputs
         | _, _ => []
         end) commands inputs
  end.

(** *** The graph *)

Definition universal_router_v2_hops (input : Bytes) (exact_out : bool) (depth : usize)
  : list UniversalRouterHop :=
  match (decoded ← abi_decode V2_SWAP_PARAMS input;
         path ← at_ token_as_address_vec decoded 3; Some (decoded, path)) with
  | None => []
  | Some (decoded, path) =>
      let amount_primary := at_ token_as_uint decoded 1 in
      let amount_secondary := at_ token_as_uint decoded 2 in
      (fun '(a, b) =>
         {| hop_dex := "v2"; hop_command := if exact_out then "v2_exact_out" else "v2_exact_in";
            hop_token_in := a; hop_token_out := b;
            hop_amount_in := if exact_out then amount_secondary else amount_primary;
            hop_amount_out := if exact_out then amount_primary else amount_secondary;
            hop_fee_tier := None; hop_exact_out := exact_out; hop_depth := depth |})
      <$> zip path (tail path)
  end.

Definition universal_router_v3_hops (input : Bytes) (exact_out : bool) (depth : usize)
  : list UniversalRouterHop :=
  match (decoded ← abi_decode V3_SWAP_PARAMS input;
         path ← at_ token_as_bytes decoded 3; Some (decoded, path)) with
  | None => []
  | Some (decoded, path) =>
      let amount_primary := at_ token_as_uint decoded 1 in
      let amount_secondary := at_ token_as_uint decoded 2 in
      let segments := parse_v3_path_segments path in
      if exact_out then
        (fun s => {| hop_dex := "v3"; hop_command := "v3_exact_out"; hop_token_in := seg_token_out s;
                     hop_token_out := seg_token_in s; hop_amount_in := amount_secondary;
                     hop_amount_out := amount_primary; hop_fee_tier := Some (seg_fee_tier s);
                     hop_exact_out := exact_out; hop_depth := depth |}) <$> reverse segments
      else
        (fun s => {| hop_dex := "v3"; hop_command := "v3_exact_in"; hop_token_in := seg_token_in s;
                     hop_token_out := seg_token_out s; hop_amount_in := amount_primary;
                     hop_amount_out := amount_secondary; hop_fee_tier := Some (seg_fee_tier s);
                     hop_exact_out := exact_out; hop_depth := depth |}) <$> segments
  end.

Definition universal_router_command_name (opcode : Z) : string :=
  match opcode with
  | 0x00 => "v3_exact_in" | 0x01 => "v3_exact_out" | 0x02 => "permit2_transfer_from"
  | 0x03 => "permit2_permit_batch" | 0x04 => "sweep" | 0x05 => "transfer" | 0x06 => "pay_portion"
  | 0x08 => "v2_exact_in" | 0x09 => "v2_exact_out" | 0x0a => "permit2_permit" | 0x0b => "wrap_eth"
  | 0x0c => "unwrap_weth" | 0x0d => "permit2_transfer_from_batch" | 0x0e => "balance_check_erc20"
  | 0x10 => "v4_swap" | 0x21 => "execute_sub_plan" | 0x40 => "across_v4_deposit_v3"
  | _ => "unknown"
  end.

Definition graph_unsupported (what : string) (g : UniversalRouterRouteGraph) : UniversalRouterRouteGraph :=
  g <[ unsupported_commands ::= unsupported_commands g ++ [what] ]>.
Definition graph_swap (hops : list UniversalRouterHop) (g : UniversalRouterRouteGraph)
  : UniversalRouterRouteGraph :=
  g <[ swap_command_count ::= u64_sadd (swap_command_count g) 1 ]> <[ graph_hops ::= graph_hops g ++ hops ]>.

Fixpoint collect_universal_router_graph (levels : nat) (commands : Bytes) (inputs : list Token)
    (depth : usize) (graph : UniversalRouterRouteGraph) : UniversalRouterRouteGraph :=
  match levels with
  | O => graph_unsupported "subplan_depth_limit" graph
  | S levels =>
      (fix loop (commands : Bytes) (inputs : list Token) (graph : UniversalRouterRouteGraph)
         {struct commands} : UniversalRouterRouteGraph :=
         match commands with
         | [] => graph
         | command :: commands =>
             let graph := graph <[ command_count ::= u64_sadd (command_count graph) 1 ]> in
             let op := opcode_of command in
             let name := universal_router_command_name op in
             match inputs with
             | [] => graph_unsupported (name +:+ ":missing_input") graph
             | TBytes input :: inputs =>
                 loop commands inputs
                   (if op =? 0x00 then graph_swap (universal_router_v3_hops input false depth) graph
                    else if op =? 0x01 then graph_swap (universal_router_v3_hops input true depth) graph
                    else if op =? 0x08 then graph_swap (universal_router_v2_hops input false depth) graph
                    else if op =? 0x09 then graph_swap (universal_router_v2_hops input true depth) graph
                    else if op =? 0x21 then
                      match decode_universal_router_sub_plan input with
                      | Some (sub_commands, sub_inputs) =>
                          collect_universal_router_graph levels sub_commands sub_inputs (S depth) graph
                      | None => graph_unsupported "execute_sub_plan:decode_failed" graph
                      end
                    else if (op =? 0x10) || (op =? 0x40) then graph_unsupported name graph
                    else graph)
             | _ :: inputs => loop commands inputs (graph_unsupported (name +:+ ":input_not_bytes") graph)
             end
         end) commands inputs graph
  end.

(** With a deadline, or without one. *)
Definition decode_plan (args : Bytes) : option (Bytes * list Token) :=
  decoded ← match abi_decode (PLAN_PARAMS ++ [PUint 256]) args with
            | Some decoded => Some decoded
            | None => abi_decode PLAN_PARAMS args
            end;
  commands ← at_ token_as_bytes decoded 0;
  inputs ← at_ token_as_array decoded 1;
  Some (commands, inputs).
Definition universal_router_route_graph (args : Bytes) : option UniversalRouterRouteGraph :=
  '(commands, inputs) ← decode_plan args;
  Some (collect_universal_router_graph LEVELS commands inputs 0 empty_graph).

Definition universal_router_hop_to_signal (sel : Bytes) (router : Address) (hop : UniversalRouterHop)
  : option SwapSignal :=
  amount_in ← hop_amount_in hop;
  if amount_in =? 0 then None
  else
    kind ← if string_eqb (hop_dex hop) "v3" then
             fee_tier ← hop_fee_tier hop;
             Some (SwapV3 fee_tier (encode_v3_path (hop_token_out hop) fee_tier (hop_token_in hop)) 1
                     (hop_exact_out hop))
           else Some SwapV2;
    Some (signal_of sel router amount_in (hop_amount_out hop) [hop_token_in hop; hop_token_out hop]
            kind 1.0 "universal_router").

Definition decode_universal_router_graph_candidates (sel : Bytes) (router : Address) (commands : Bytes)
    (inputs : list Token) : list SwapSignal :=
  omap (universal_router_hop_to_signal sel router)
    (graph_hops (collect_universal_router_graph LEVELS commands inputs 0 empty_graph)).

Definition decode_universal_router_swap_candidates (sel : Bytes) (router : Address) (args : Bytes)
  : list SwapSignal :=
  match decode_plan args with
  | None => []
  | Some (commands, inputs) =>
      match decode_universal_router_parts LEVELS sel router commands inputs with
      | [] => decode_universal_router_graph_candidates sel router commands inputs
      | signals => signals
      end
  end.

Definition decode_universal_router_swap (sel : Bytes) (router : Address) (args : Bytes)
  : option SwapSignal := head (decode_universal_router_swap_candidates sel router args).

(** *** What a signal is worth *)

Context (display_f64 : f64 -> string) (parse_ether : string -> string + U256).
Context (monitored_tokens : list MonitoredTokenConfig).

Definition find_token (a : Address) : option MonitoredTokenConfig :=
  head (filter (fun token => mt_address token = a) monitored_tokens).

Definition estimate_notional_wei (signal : SwapSignal) : option U256 :=
  if sel_in (sw_selector signal) [SWAP_EXACT_ETH_FOR_TOKENS; SWAP_EXACT_ETH_FOR_TOKENS_SUPPORTING_FEE]
  then Some (sw_amount_in signal)
  else
    input ← head (sw_path signal);
    token ← find_token input;
    let decimals_factor := fpowi 10 (mt_decimals token) in
    let normalized := (f64_of_Z (sw_amount_in signal) / decimals_factor)%f64 in
    let value_eth := (normalized * mt_price_eth token)%f64 in
    match parse_ether (display_f64 value_eth) with inr wei => Some wei | inl _ => None end.

(** Tuples compare in order: the notional, exact input before exact output, the
    shorter path. *)
Definition universal_router_candidate_rank (signal : SwapSignal) : Z * Z * Z :=
  (sw_notional_wei signal,
   match sw_kind signal with SwapV3 _ _ _ true => 0 | _ => 1 end,
   - Z.of_nat (path_len signal)).
Definition by_rank (a b : SwapSignal) : comparison :=
  let '(n1, e1, p1) := universal_router_candidate_rank a in
  let '(n2, e2, p2) := universal_router_candidate_rank b in
  match Z.compare n1 n2 with
  | Eq => match Z.compare e1 e2 with Eq => Z.compare p1 p2 | c => c end
  | c => c
  end.

Definition decode_universal_router_swap_for_monitored (sel : Bytes) (router : Address) (args : Bytes)
  : option SwapSignal :=
  max_by by_rank (omap (fun signal =>
      notional_wei ← estimate_notional_wei signal; Some (signal <[ sw_notional_wei ::= notional_wei ]>))
    (decode_universal_router_swap_candidates sel router args)).

(** *** Direct routers *)

Definition decode_eth_for_tokens (sel : Bytes) (router : Address) (value : U256) (args : Bytes)
  : option SwapSignal :=
  decoded ← abi_decode [PUint 256; PArray PAddress; PAddress; PUint 256] args;
  path ← at_ token_as_address_vec decoded 1;
  Some ((signal_of sel router value (at_ token_as_uint decoded 0) path SwapV2 1.0 "abi")
          <[ sw_notional_wei ::= value ]>).

Definition decode_tokens_for (sel : Bytes) (router : Address) (args : Bytes) : option SwapSignal :=
  decoded ← abi_decode [PUint 256; PUint 256; PArray PAddress; PAddress; PUint 256] args;
  amount_in ← at_ token_as_uint decoded 0;
  path ← at_ token_as_address_vec decoded 2;
  Some (signal_of sel router amount_in (at_ token_as_uint decoded 1) path SwapV2 1.0 "abi").

(** [as_u32] panics on a fee that does not fit. *)
Definition decode_v3_exact_input_single_values (sel : Bytes) (router : Address) (values : list Token)
    (amount_in_index amount_out_min_index : nat) (confidence : f64) (source : string)
  : outcome (option SwapSignal) :=
  token_in <-? opt (at_ token_as_address values 0);;
  token_out <-? opt (at_ token_as_address values 1);;
  fee <-? opt (at_ token_as_uint values 2);;
  fee_tier <-! as_u32 fee;;
  amount_in <-? opt (at_ token_as_uint values amount_in_index);;
  opt (Some (signal_of sel router amount_in (at_ token_as_uint values amount_out_min_index)
               [token_in; token_out]
               (SwapV3 fee_tier (encode_v3_path token_out fee_tier token_in) 1 false) confidence source)).

Definition SINGLE_DEADLINE_PARAMS : list ParamType :=
  [PTuple [PAddress; PAddress; PUint 24; PAddress; PUint 256; PUint 256; PUint 256; PUint 160]].
Definition SINGLE_PARAMS : list ParamType :=
  [PTuple [PAddress; PAddress; PUint 24; PAddress; PUint 256; PUint 256; PUint 160]].
Definition ALGEBRA_PARAMS : list ParamType :=
  [PTuple [PAddress; PAddress; PAddress; PUint 256; PUint 256; PUint 160]].

Definition decode_v3_exact_input_single_with_deadline (sel : Bytes) (router : Address) (args : Bytes)
  : outcome (option SwapSignal) :=
  decoded <-? opt (abi_decode SINGLE_DEADLINE_PARAMS args);;
  values <-? opt (at_ token_as_tuple decoded 0);;
  decode_v3_exact_input_single_values sel router values 5 6 1.0 "abi".

Definition decode_v3_exact_input_single_no_deadline (sel : Bytes) (router : Address) (args : Bytes)
  : outcome (option SwapSignal) :=
  decoded <-? opt (abi_decode SINGLE_PARAMS args);;
  values <-? opt (at_ token_as_tuple decoded 0);;
  decode_v3_exact_input_single_values sel router values 4 5 0.98
    "uniswap_v3_exact_input_single_no_deadline".

Definition decode_algebra_exact_input_single (sel : Bytes) (router : Address) (args : Bytes)
  : option SwapSignal :=
  decoded ← abi_decode ALGEBRA_PARAMS args;
  values ← at_ token_as_tuple decoded 0;
  token_in ← at_ token_as_address values 0;
  token_out ← at_ token_as_address values 1;
  amount_in ← at_ token_as_uint values 3;
  let fee_tier := 3000 in
  Some (signal_of sel router amount_in (at_ token_as_uint values 4) [token_in; token_out]
          (SwapV3 fee_tier (encode_v3_path token_out fee_tier token_in) 1 false) 0.86
          "algebra_exact_input_single").

Definition decode_v3_exact_input (sel : Bytes) (router : Address) (args : Bytes) : option SwapSignal :=
  decoded ← abi_decode [PTuple [PBytes; PAddress; PUint 256; PUint 256; PUint 256]] args;
  values ← at_ token_as_tuple decoded 0;
  path_bytes ← at_ token_as_bytes values 0;
  parsed ← parse_v3_path path_bytes;
  amount_in ← at_ token_as_uint values 3;
  Some (signal_of sel router amount_in (at_ token_as_uint values 4)
          [pp_token_in parsed; edge_token_out parsed] (v3_kind parsed false) 1.0 "abi").

Definition decode_zero_ex_sell_to_uniswap (sel : Bytes) (router : Address) (args : Bytes)
  : option SwapSignal :=
  decoded ← abi_decode [PArray PAddress; PUint 256; PUint 256; PBool] args;
  path ← at_ token_as_address_vec decoded 0;
  amount_in ← at_ token_as_uint decoded 1;
  Some (signal_of sel router amount_in (at_ token_as_uint decoded 2) path SwapV2 1.0 "0x_uniswap").

(** *** Aggregators, by the tokens they mention *)

(** The value sent, or the smallest plausible amount of the calldata. *)
Definition amount_or_hint (value : U256) (args : Bytes) : U256 :=
  if 0 <? value then value else default 1 (amount_hint_from_calldata args).

Definition decode_partial_swap_from_monitored_tokens (sel : Bytes) (router : Address) (value : U256)
    (args : Bytes) (confidence : f64) (source : string) : option SwapSignal :=
  match partial_path_from_monitored_tokens monitored_tokens args with
  | (a :: b :: _) as path =>
      if a =? b then None
      else Some (signal_of sel router (amount_or_hint value args) None path SwapV2 confidence source)
  | _ => None
  end.

Definition decode_swap_exact_eth_for_token_partial (sel : Bytes) (router : Address) (value : U256)
    (args : Bytes) : option SwapSignal :=
  decoded ← abi_decode [PUint 256; PUint 256; PAddress; PAddress; PBytes; PUint 256] args;
  amount_in ← at_ token_as_uint decoded 0;
  let amount_out_min := at_ token_as_uint decoded 1 in
  token_out ← at_ token_as_address decoded 2;
  path_bytes ← at_ token_as_bytes decoded 4;
  let path := monitored_token_addresses_in_input monitored_tokens path_bytes in
  let path := if bool_decide (token_out ∈ path) then path else path ++ [token_out] in
  let path := dedup_address_path path in
  if (length path <? 2)%nat || negb (path_contains_monitored_token path monitored_tokens) then None
  else Some (signal_of sel router (if 0 <? value then value else Z.max amount_in 1) amount_out_min
               path SwapV2 0.62 "swap_exact_eth_for_token_path_partial").

Definition TRANSIT_V3_PARAMS : list ParamType :=
  [PTuple [PAddress; PAddress; PAddress; PAddress; PUint 256; PUint 256; PUint 256; PUint 256;
           PArray (PUint 256); PBytes; PString]].
Definition TRANSIT_V2_PARAMS : list ParamType :=
  [PTuple [PAddress; PAddress; PUint 256; PUint 256; PUint 256; PUint 256; PArray PAddress;
           PArray PAddress; PBytes; PString]; PUint 256].

Definition decode_transit_v5_v3_partial (sel : Bytes) (router : Address) (value : U256) (args : Bytes)
  : option SwapSignal :=
  decoded ← abi_decode TRANSIT_V3_PARAMS args;
  values ← at_ token_as_tuple decoded 0;
  path_bytes ← token_tree_find_v3_path_bytes values;
  parsed ← parse_v3_path path_bytes;
  let path := match parse_v3_path_segments path_bytes with
              | segment :: _ => [seg_token_in segment; seg_token_out segment]
              | [] => [pp_token_in parsed; edge_token_out parsed]
              end in
  if negb (path_contains_monitored_token path monitored_tokens) then None
  else Some (signal_of sel router (amount_or_hint value args) None path (v3_kind parsed false) 0.72
               "transit_v5_v3_path_partial").

Definition decode_transit_v5_v2_partial (sel : Bytes) (router : Address) (value : U256) (args : Bytes)
  : option SwapSignal :=
  decoded ← abi_decode TRANSIT_V2_PARAMS args;
  values ← at_ token_as_tuple decoded 0;
  path ← token_tree_find_address_path monitored_tokens values;
  let path := dedup_address_path path in
  if (length path <? 2)%nat || negb (path_contains_monitored_token path monitored_tokens) then None
  else Some (signal_of sel router (amount_or_hint value args) None path SwapV2 0.68
               "transit_v5_v2_path_partial").

Definition decode_safe_inner_aggregator_partial (sel : Bytes) (target : Address) (value : U256)
    (args : Bytes) : option SwapSignal :=
  if is_sel sel SAFE_INNER_SELECTOR_9E7212AD then None
  else if is_sel sel SAFE_INNER_SELECTOR_8CC7104F then
    decode_partial_swap_from_monitored_tokens sel target value args 0.75 "safe_inner_partial"
  else decode_partial_swap_from_monitored_tokens sel target value args 0.55 "safe_inner_token_hint".

(** *** Calls inside calls *)

Section Nested.
(** [decode_swap_signal], of the calls found inside. *)
Context (rec : Bytes -> Address -> U256 -> Bytes -> outcome (option SwapSignal)).

(** A signal found inside is reported under the outer selector, with less
    confidence. *)
Definition relabel (sel : Bytes) (confidence : f64) (source : string) (signal : SwapSignal) : SwapSignal :=
  signal <[ sw_selector ::= sel ]>
         <[ sw_decode_confidence ::= fmin (sw_decode_confidence signal) confidence ]>
         <[ sw_decode_source ::= source ]>.
Definition relabelled (sel : Bytes) (confidence : f64) (source : string)
    (m : outcome (option SwapSignal)) : outcome (option SwapSignal) :=
  signal <-? m;; opt (Some (relabel sel confidence source signal)).

(** The first call of a list that decodes. *)
Fixpoint first_call {A} (f : A -> outcome (option SwapSignal)) (l : list A) : outcome (option SwapSignal) :=
  match l with
  | [] => opt None
  | x :: l => oor_else (f x) (first_call f l)
  end.

(** A call's selector and arguments, when it has four bytes. *)
Definition split_call (calldata : Bytes) : option (Bytes * Bytes) :=
  if (length calldata <? 4)%nat then None else Some (take 4 calldata, drop 4 calldata).

Definition CHILD_SELECTORS : list Bytes :=
  [ V3_EXACT_INPUT_SINGLE; UNISWAP_V3_EXACT_INPUT_SINGLE_NO_DEADLINE; ALGEBRA_EXACT_INPUT_SINGLE;
    SWAP_EXACT_TOKENS_FOR_TOKENS; SWAP_EXACT_TOKENS_FOR_TOKENS_SUPPORTING_FEE ].

(** At every offset, a known selector followed by arguments that decode to a
    path with a monitored token. *)
Definition nested_at (router : Address) (value : U256) (input : Bytes) (offset : nat)
  : outcome (option SwapSignal) :=
  let child_selector := slice input offset (offset + 4) in
  if negb (sel_in child_selector CHILD_SELECTORS) then opt None
  else
    signal <-? rec child_selector router value (drop (offset + 4) input);;
    opt (if path_contains_monitored_token (sw_path signal) monitored_tokens then Some signal else None).
Definition decode_nested_swap_from_calldata (router : Address) (value : U256) (input : Bytes)
  : outcome (option SwapSignal) :=
  first_call (nested_at router value input) (seq 0 (length input - 3)).

Definition multicall_calls (sel args : Bytes) : option (list Token) :=
  if is_sel sel MULTICALL_BYTES then
    decoded ← abi_decode [PArray PBytes] args; at_ token_as_array decoded 0
  else
    decoded ← abi_decode [PUint 256; PArray PBytes] args; at_ token_as_array decoded 1.
Definition call_of_bytes (router : Address) (value : U256) (call : Token) : outcome (option SwapSignal) :=
  calldata <-? opt (token_as_bytes call);;
  c <-? opt (split_call calldata);;
  rec c.1 router value c.2.
Definition decode_multicall_nested_swap (sel : Bytes) (router : Address) (value : U256) (args : Bytes)
  : outcome (option SwapSignal) :=
  calls <-? opt (multicall_calls sel args);;
  oor_else
    (relabelled sel 0.92 "multicall_nested" (first_call (call_of_bytes router value) calls))
    (relabelled sel 0.68 "multicall_selector_scan" (decode_nested_swap_from_calldata router value args)).

Definition decode_private_swap_wrapper (sel : Bytes) (router : Address) (value : U256) (args : Bytes)
  : outcome (option SwapSignal) :=
  relabelled sel 0.88 "private_swap_wrapper_nested" (decode_nested_swap_from_calldata router value args).

Definition BATCH_PARAMS : list ParamType := [PArray (PTuple [PAddress; PUint 256; PBytes])].
Definition call_of_tuple (call : Token) : outcome (option SwapSignal) :=
  parts <-? opt (token_as_tuple call);;
  target <-? opt (at_ token_as_address parts 0);;
  let call_value := default 0 (at_ token_as_uint parts 1) in
  calldata <-? opt (at_ token_as_bytes parts 2);;
  c <-? opt (split_call calldata);;
  rec c.1 target call_value c.2.
Definition batch_calls (args : Bytes) : list Token :=
  default [] (decoded ← abi_decode BATCH_PARAMS args; at_ token_as_array decoded 0).
Definition decode_batch_execute_nested_swap (sel : Bytes) (router : Address) (value : U256) (args : Bytes)
  : outcome (option SwapSignal) :=
  oor_else
    (relabelled sel 0.82 "batch_execute_nested" (first_call call_of_tuple (batch_calls args)))
    (relabelled sel 0.58 "batch_execute_selector_scan" (decode_nested_swap_from_calldata router value args)).

Definition SAFE_PARAMS : list ParamType :=
  [PAddress; PUint 256; PBytes; PUint 8; PUint 256; PUint 256; PUint 256; PAddress; PAddress; PBytes].
(** Target, value and data of a plain call; delegate calls are not decoded. *)
Definition safe_call (args : Bytes) : option (Address * U256 * (Bytes * Bytes)) :=
  decoded ← abi_decode SAFE_PARAMS args;
  target ← at_ token_as_address decoded 0;
  value ← at_ token_as_uint decoded 1;
  inner ← at_ token_as_bytes decoded 2;
  operation ← at_ token_as_uint decoded 3;
  if negb (operation =? 0) then None else c ← split_call inner; Some (target, value, c).
Definition decode_safe_exec_transaction_swap (args : Bytes) : outcome (option SwapSignal) :=
  call <-? opt (safe_call args);;
  let '(target, value, c) := call in
  oor_else (rec c.1 target value c.2)
    (opt (decode_safe_inner_aggregator_partial c.1 target value c.2)).

Definition decode_private_searcher_fingerprint (sel : Bytes) (router : Address) (value : U256) (args : Bytes)
  : outcome (option SwapSignal) :=
  oor_else
    (relabelled sel 0.62 "private_searcher_nested_fingerprint"
       (decode_nested_swap_from_calldata router value args))
    (opt (decode_partial_swap_from_monitored_tokens sel router value args 0.42
            "private_searcher_token_fingerprint")).

Definition or_else {A} (a b : option A) : option A := match a with Some x => Some x | None => b end.

Definition decode_known_aggregator_partial (sel : Bytes) (router : Address) (value : U256) (args : Bytes)
  : outcome (option SwapSignal) :=
  let partial := decode_partial_swap_from_monitored_tokens sel router value args in
  if is_sel sel TRANSIT_EXACT_INPUT_V3_SWAP then
    opt (or_else (decode_transit_v5_v3_partial sel router value args)
           (partial 0.45%f64 "transit_v5_token_order_partial"%string))
  else if is_sel sel TRANSIT_EXACT_INPUT_V2_SWAP then
    opt (or_else (decode_transit_v5_v2_partial sel router value args)
           (partial 0.52%f64 "transit_v5_v2_token_order_partial"%string))
  else if sel_in sel [TRANSIT_SWAP_V5; AGGREGATOR_SELECTOR_0A2B8F36; AGGREGATOR_SELECTOR_0060EA13;
                      AGGREGATOR_SELECTOR_448E340E; AGGREGATOR_SELECTOR_9265BB9D] then
    opt (partial 0.35%f64 "token_order_partial"%string)
  else if is_sel sel AGGREGATOR_SELECTOR_C3192F1F then
    opt (or_else (decode_swap_exact_eth_for_token_partial sel router value args)
           (partial 0.35%f64 "token_order_partial"%string))
  else if is_sel sel PRIVATE_SEARCHER_SELECTOR_D00BA30B then
    decode_private_searcher_fingerprint sel router value args
  else opt None.

(** The [match] on the selector. *)
Definition decode_swap_signal_body (sel : Bytes) (router : Address) (value : U256) (args : Bytes)
  : outcome (option SwapSignal) :=
  if sel_in sel [SWAP_EXACT_ETH_FOR_TOKENS; SWAP_EXACT_ETH_FOR_TOKENS_SUPPORTING_FEE] then
    opt (decode_eth_for_tokens sel router value args)
  else if sel_in sel [SWAP_EXACT_TOKENS_FOR_TOKENS; SWAP_EXACT_TOKENS_FOR_ETH;
                      SWAP_EXACT_TOKENS_FOR_TOKENS_SUPPORTING_FEE;
                      SWAP_EXACT_TOKENS_FOR_ETH_SUPPORTING_FEE] then
    opt (decode_tokens_for sel router args)
  else if is_sel sel V3_EXACT_INPUT_SINGLE then
    decode_v3_exact_input_single_with_deadline sel router args
  else if is_sel sel UNISWAP_V3_EXACT_INPUT_SINGLE_NO_DEADLINE then
    decode_v3_exact_input_single_no_deadline sel router args
  else if is_sel sel ALGEBRA_EXACT_INPUT_SINGLE then opt (decode_algebra_exact_input_single sel router args)
  else if is_sel sel V3_EXACT_INPUT then opt (decode_v3_exact_input sel router args)
  else if sel_in sel [UNIVERSAL_ROUTER_EXECUTE; UNIVERSAL_ROUTER_EXECUTE_NO_DEADLINE] then
    opt (or_else (decode_universal_router_swap_for_monitored sel router args)
           (decode_universal_router_swap sel router args))
  else if is_sel sel ZERO_EX_SELL_TO_UNISWAP then opt (decode_zero_ex_sell_to_uniswap sel router args)
  else if is_sel sel SAFE_EXEC_TRANSACTION then decode_safe_exec_transaction_swap args
  else if sel_in sel [MULTICALL_BYTES; MULTICALL_DEADLINE_BYTES] then
    decode_multicall_nested_swap sel router value args
  else if is_sel sel PRIVATE_SWAP_WRAPPER_2E35732F then decode_private_swap_wrapper sel router value args
  else if is_sel sel POLYMARKET_BATCH_EXECUTE then decode_batch_execute_nested_swap sel router value args
  else decode_known_aggregator_partial sel router value args.
End Nested.

(** [decode_swap_signal] calls itself on calls found inside the arguments: as
    many levels as the arguments have bytes are enough. *)
Fixpoint decode_levels (levels : nat) (sel : Bytes) (router : Address) (value : U256) (args : Bytes)
  : outcome (option SwapSignal) :=
  match levels with
  | O => opt None
  | S levels => decode_swap_signal_body (decode_levels levels) sel router value args
  end.
Definition decode_swap_signal (sel : Bytes) (router : Address) (value : U256) (args : Bytes)
  : outcome (option SwapSignal) := decode_levels (S (length args)) sel router value args.

(** *** The transaction *)

(** The selector of a transaction, through the search of [simd.rs]. *)
Definition tx_selector (avx2 : bool) (tx : Transaction) : outcome (option Bytes) :=
  found <-! find_selector avx2 (tx_input tx);;
  match found with
  | Some index => opt (SELECTORS !! index)
  | None => opt (fst <$> split_call (tx_input tx))
  end.

Definition mode_allows_partial_shadow_decode (mode : OpportunityMode) : bool :=
  match mode with Aggressive | Scavenger => true | Conservative => false end.

Definition decode_relevant_swap (avx2 : bool) (tx : Transaction) (min_large_swap_wei : U256)
    (mode : OpportunityMode) : outcome (option SwapSignal) :=
  sel <-? tx_selector avx2 tx;;
  router <-? opt (tx_to tx);;
  signal <-? decode_swap_signal sel router (tx_value tx) (drop 4 (tx_input tx));;
  notional_wei <-? opt (or_else (estimate_notional_wei signal)
    (if mode_allows_partial_shadow_decode mode
        && path_contains_monitored_token (sw_path signal) monitored_tokens
     then Some (Z.max min_large_swap_wei 1) else None));;
  if (length (sw_path signal) <? 2)%nat then opt None
  else if negb (bool_decide (mode = Scavenger)) && (notional_wei <? min_large_swap_wei) then opt None
  else opt (Some (signal <[ sw_notional_wei ::= notional_wei ]>)).
End Decode.
