(* ===== verification/AbiRef.v ===== *)
(** * The ABI decoder as the decoders of calldata rely on it

    The law: the byte strings a decoding yields are no longer than what was
    decoded. A decoder after the ABI's head and tail layout satisfies it; the
    concrete runs of the development use it. *)
From S2P Require Import Prelude Text Ethers Calldata.
#[local] Open Scope Z_scope.

(** Every byte string in [t] has at most [n] bytes. *)
Fixpoint bytes_within (n : nat) (t : Token) : bool :=
  match t with
  | TBytes b => (length b <=? n)%nat
  | TArray l | TFixedArray l | TTuple l => forallb (bytes_within n) l
  | _ => true
  end.

Class AbiShrinks (abi_decode : list ParamType -> Bytes -> option (list Token)) : Prop :=
  decoded_within ps data ts : abi_decode ps data = Some ts -> forallb (bytes_within (length data)) ts = true.

(** ** Heads and tails *)

Definition word_at (data : Bytes) (offset : nat) : option Z :=
  if (length data <? offset + 32)%nat then None
  else Some (from_big_endian ((fun b => b mod 256) <$> slice data offset (offset + 32))).
Definition usize_at (data : Bytes) (offset : nat) : option nat :=
  w ← word_at data offset; if w <? 2 ^ 32 then Some (Z.to_nat w) else None.
Definition bytes_at (data : Bytes) (offset : nat) : option Bytes :=
  at_ ← usize_at data offset;
  len ← usize_at data at_;
  if (length data <? at_ + 32 + len)%nat then None else Some (slice data (at_ + 32) (at_ + 32 + len)).
Fixpoint string_of_bytes (b : Bytes) : string :=
  match b with [] => EmptyString | x :: b => String (ascii_of_N (Z.to_N x)) (string_of_bytes b) end.

Fixpoint is_dynamic (p : ParamType) : bool :=
  match p with
  | PBytes | PString | PArray _ => true
  | PFixedArray p _ => is_dynamic p
  | PTuple ps => existsb is_dynamic ps
  | _ => false
  end.

(** Values one after the other, each with its own decoder. *)
Definition decoder : Type := Bytes -> nat -> option (Token * nat).
Fixpoint decode_seq (fs : list decoder) (data : Bytes) (offset : nat) : option (list Token * nat) :=
  match fs with
  | [] => Some ([], offset)
  | f :: fs => '(t, offset) ← f data offset; '(ts, offset) ← decode_seq fs data offset; Some (t :: ts, offset)
  end.

(** The value whose head is at [offset], and the end of that head. *)
Fixpoint decode_param (p : ParamType) (data : Bytes) (offset : nat) {struct p} : option (Token * nat) :=
  let next := (offset + 32)%nat in
  match p with
  | PAddress => w ← word_at data offset; Some (TAddress (address_of_word w), next)
  | PUint _ => w ← word_at data offset; Some (TUint w, next)
  | PInt _ => w ← word_at data offset; Some (TInt w, next)
  | PBool => w ← word_at data offset; if w <? 2 then Some (TBool (w =? 1), next) else None
  | PFixedBytes n =>
      if (length data <? offset + 32)%nat then None
      else Some (TFixedBytes (slice data offset (offset + n)), next)
  | PBytes => b ← bytes_at data offset; Some (TBytes b, next)
  | PString => b ← bytes_at data offset; Some (TString (string_of_bytes b), next)
  | PArray p =>
      start ← usize_at data offset;
      len ← usize_at data start;
      let tail := drop (start + 32) data in
      if (length tail <? 32 * len)%nat then None
      else '(ts, _) ← decode_seq (replicate len (decode_param p)) tail 0; Some (TArray ts, next)
  | PFixedArray q n =>
      let fs := replicate n (decode_param q) in
      if is_dynamic q then
        start ← usize_at data offset;
        '(ts, _) ← decode_seq fs (drop start data) 0; Some (TFixedArray ts, next)
      else '(ts, end_) ← decode_seq fs data offset; Some (TFixedArray ts, end_)
  | PTuple ps =>
      let fs := map decode_param ps in
      if existsb is_dynamic ps then
        start ← usize_at data offset;
        '(ts, _) ← decode_seq fs (drop start data) 0; Some (TTuple ts, next)
      else '(ts, end_) ← decode_seq fs data offset; Some (TTuple ts, end_)
  end.

Definition ref_decode (ps : list ParamType) (data : Bytes) : option (list Token) :=
  fst <$> decode_seq (map decode_param ps) data 0.

(** ** The law *)

Lemma bytes_within_mono n m t : (n <= m)%nat -> bytes_within n t = true -> bytes_within m t = true.
Proof.
  intros H. revert t. fix IH 1. intros [a|b|b|k|k|b|s|l|l|l]; simpl; try done.
  - rewrite !Nat.leb_le. lia.
  - induction l as [|t l IHl]; simpl; [done|]. rewrite !andb_true_iff. intros [A B]. split; [by apply IH|by apply IHl].
  - induction l as [|t l IHl]; simpl; [done|]. rewrite !andb_true_iff. intros [A B]. split; [by apply IH|by apply IHl].
  - induction l as [|t l IHl]; simpl; [done|]. rewrite !andb_true_iff. intros [A B]. split; [by apply IH|by apply IHl].
Qed.
Lemma all_within_mono n m l :
  (n <= m)%nat -> forallb (bytes_within n) l = true -> forallb (bytes_within m) l = true.
Proof. intros H. rewrite !forallb_forall. intros F t T. by eapply bytes_within_mono, F. Qed.

Lemma bytes_at_length data offset b : bytes_at data offset = Some b -> (length b <= length data)%nat.
Proof.
  unfold bytes_at. intros (at_ & _ & H)%bind_Some. apply bind_Some in H as (len & _ & H).
  destruct (_ <? _)%nat; [done|]. injection H as <-. unfold slice. rewrite length_take, length_drop. lia.
Qed.

(** A decoder whose byte strings fit in what it reads. *)
Definition shrinks (f : decoder) : Prop :=
  forall data offset t e, f data offset = Some (t, e) -> bytes_within (length data) t = true.

Lemma decode_seq_within fs : Forall shrinks fs -> forall data offset ts e m,
  (length data <= m)%nat -> decode_seq fs data offset = Some (ts, e) ->
  forallb (bytes_within m) ts = true.
Proof.
  induction 1 as [|f fs F _ IH]; intros data offset ts e m L H; [by injection H as <- _|].
  cbn [decode_seq] in H. apply bind_Some in H as ([t o] & H1 & H).
  apply bind_Some in H as ([ts' o'] & H2 & H). injection H as <- _. simpl.
  apply F in H1. rewrite (bytes_within_mono _ _ _ L H1). by eapply IH.
Qed.

Lemma decode_param_shrinks : forall p, shrinks (decode_param p).
Proof.
  fix IH 1. intros p data offset t e.
  assert (R : forall q n, shrinks (decode_param q) -> Forall shrinks (replicate n (decode_param q)))
    by (intros; by apply Forall_replicate).
  destruct p as [| |n|n| | |p|n|p n|ps]; cbn [decode_param]; cbv zeta; intros H;
    try (repeat case_match; repeat (apply bind_Some in H as (? & ? & H)); repeat case_match;
         simplify_eq; done).
  - apply bind_Some in H as (b & H1 & H). injection H as <- _. simpl. apply Nat.leb_le.
    by eapply bytes_at_length.
  - apply bind_Some in H as (s & _ & H). apply bind_Some in H as (len & _ & H).
    destruct (_ <? _)%nat; [done|]. apply bind_Some in H as ([ts o] & H1 & H). injection H as <- _. simpl.
    eapply decode_seq_within; [apply R, IH| |exact H1]. rewrite length_drop. lia.
  - destruct (is_dynamic p).
    + apply bind_Some in H as (s & _ & H). apply bind_Some in H as ([ts o] & H1 & H).
      injection H as <- _. simpl. eapply decode_seq_within; [apply R, IH| |exact H1]. rewrite length_drop. lia.
    + apply bind_Some in H as ([ts o] & H1 & H). injection H as <- _. simpl.
      eapply decode_seq_within; [apply R, IH|done|exact H1].
  - assert (F : Forall shrinks (map decode_param ps)).
    { clear - IH. induction ps as [|p ps IHps]; simpl; constructor; [apply IH|exact IHps]. }
    clear IH. destruct (existsb is_dynamic ps).
    + apply bind_Some in H as (s & _ & H). apply bind_Some in H as ([ts o] & H1 & H).
      injection H as <- _. simpl. eapply decode_seq_within; [exact F| |exact H1]. rewrite length_drop. lia.
    + apply bind_Some in H as ([ts o] & H1 & H). injection H as <- _. simpl.
      eapply decode_seq_within; [exact F|done|exact H1].
Qed.

#[export] Instance ref_decode_shrinks : AbiShrinks ref_decode.
Proof.
  intros ps data ts H. apply fmap_Some in H as ([ts' e] & H & ->).
  eapply decode_seq_within; [|done|exact H]. apply Forall_fmap, Forall_true. intros p. apply decode_param_shrinks.
Qed.
