(* ===== verification/DecodeFacts.v ===== *)
(** * Properties of the decoders

    Termination of the decoding of calls inside calls, what a decoded signal
    satisfies, when decoding panics, the packed V3 paths there and back, and the
    choice among the swaps of a universal router call. *)
From S2P Require Import Prelude F64 Text Ethers Config Selector.
From S2P Require Import Calldata AbiRef Decode.
#[local] Open Scope Z_scope.

(** ** Sizes *)

Definition all_within (n : nat) (ts : list Token) : Prop := forallb (bytes_within n) ts = true.

Lemma within_lookup n ts i t : all_within n ts -> ts !! i = Some t -> bytes_within n t = true.
Proof.
  intros W L. unfold all_within in W. rewrite forallb_forall in W. apply W.
  apply list_elem_of_In. by eapply list_elem_of_lookup_2.
Qed.
Lemma at_inv {A} (f : Token -> option A) ts i a :
  at_ f ts i = Some a -> exists t, ts !! i = Some t /\ f t = Some a.
Proof. intros (t & L & F)%bind_Some. eauto. Qed.
Lemma at_bytes_within n ts i b :
  all_within n ts -> at_ token_as_bytes ts i = Some b -> (length b <= n)%nat.
Proof.
  intros W (t & L & F)%at_inv. pose proof (within_lookup _ _ _ _ W L) as B.
  destruct t; try done. injection F as ->. by apply Nat.leb_le.
Qed.
Lemma at_array_within n ts i l :
  all_within n ts -> at_ token_as_array ts i = Some l -> all_within n l.
Proof.
  intros W (t & L & F)%at_inv. pose proof (within_lookup _ _ _ _ W L) as B.
  destruct t; try done. injection F as ->. exact B.
Qed.
Lemma split_call_length c sel args :
  split_call c = Some (sel, args) -> (length args < length c)%nat.
Proof.
  unfold split_call. destruct (length c <? 4)%nat eqn:L; [done|]. intros [= <- <-].
  apply Nat.ltb_ge in L. rewrite length_drop. lia.
Qed.

(** ** Termination *)

Section Termination.
Context (abi_decode : list ParamType -> Bytes -> option (list Token)) `{!AbiShrinks abi_decode}.
Context (display_f64 : f64 -> string) (parse_ether : string -> string + U256).
Context (monitored : list MonitoredTokenConfig).
Implicit Types rec : Bytes -> Address -> U256 -> Bytes -> outcome (option SwapSignal).

(** The two agree on arguments shorter than [n]. *)
Definition agree (n : nat) rec rec' : Prop :=
  forall sel router value args, (length args < n)%nat ->
    rec sel router value args = rec' sel router value args.

Lemma first_call_ext {A} (f g : A -> outcome (option SwapSignal)) l :
  (forall x, x ∈ l -> f x = g x) -> first_call f l = first_call g l.
Proof.
  induction l as [|x l IH]; intros H; [done|]. cbn [first_call].
  rewrite H by left. rewrite IH; [done|]. intros y Y. apply H. by right.
Qed.

Lemma decode_within ps data ts : abi_decode ps data = Some ts -> all_within (length data) ts.
Proof. apply decoded_within. Qed.

Lemma nested_ext n rec rec' router value input :
  agree n rec rec' -> (length input <= n)%nat ->
  decode_nested_swap_from_calldata monitored rec router value input =
  decode_nested_swap_from_calldata monitored rec' router value input.
Proof.
  intros A L. apply first_call_ext. intros i [_ I]%elem_of_seq. unfold nested_at.
  destruct (negb _); [done|]. rewrite A; [done|]. rewrite length_drop. lia.
Qed.

Lemma call_of_bytes_ext n rec rec' router value call :
  agree n rec rec' -> bytes_within n call = true ->
  call_of_bytes rec router value call = call_of_bytes rec' router value call.
Proof.
  intros A W. destruct call as [a|b|c|k|k|b|s|l|l|l]; try done. unfold call_of_bytes. cbn [token_as_bytes opt obind].
  destruct (split_call c) as [[sel args]|] eqn:S; [|done]. cbn [obind opt]. simpl.
  apply A. apply split_call_length in S. apply Nat.leb_le in W. lia.
Qed.

Lemma call_of_tuple_ext n rec rec' call :
  agree n rec rec' -> bytes_within n call = true -> call_of_tuple rec call = call_of_tuple rec' call.
Proof.
  intros A W. unfold call_of_tuple. destruct (token_as_tuple call) as [parts|] eqn:T; [|done].
  destruct call as [| | | | | | | | |l]; try done. injection T as ->. cbn [obind opt].
  destruct (at_ token_as_address parts 0) as [target|]; [|done]. cbn [obind opt].
  destruct (at_ token_as_bytes parts 2) as [c|] eqn:C; [|done]. cbn [obind opt].
  apply (at_bytes_within n) in C; [|exact W].
  destruct (split_call c) as [[sel args]|] eqn:S; [|done]. cbn [obind opt]. simpl.
  apply A. apply split_call_length in S. lia.
Qed.

Lemma multicall_within sel args calls :
  multicall_calls abi_decode sel args = Some calls -> all_within (length args) calls.
Proof.
  unfold multicall_calls. destruct (is_sel sel MULTICALL_BYTES);
    intros (ts & D & F)%bind_Some; eapply at_array_within; eauto using decode_within.
Qed.
Lemma batch_within args : all_within (length args) (batch_calls abi_decode args).
Proof.
  unfold batch_calls. destruct (abi_decode BATCH_PARAMS args) as [ts|] eqn:D; [|done]. simpl.
  destruct (at_ token_as_array ts 0) as [calls|] eqn:C; [|done]. simpl.
  eapply at_array_within; eauto using decode_within.
Qed.
Lemma safe_call_within args target value sel c :
  safe_call abi_decode args = Some (target, value, (sel, c)) -> (length c < length args)%nat.
Proof.
  unfold safe_call. intros (ts & D & H)%bind_Some. apply bind_Some in H as (t & _ & H).
  apply bind_Some in H as (v & _ & H). apply bind_Some in H as (inner & I & H).
  apply bind_Some in H as (op & _ & H). destruct (negb _); [done|].
  apply bind_Some in H as ([s' c'] & S & H). injection H as _ _ _ ->.
  apply (at_bytes_within (length args)) in I; [|by eapply decode_within].
  apply split_call_length in S. lia.
Qed.

(** Every decoder calls itself on shorter arguments only. *)
Lemma body_ext rec rec' sel router value args :
  agree (length args) rec rec' ->
  decode_swap_signal_body abi_decode display_f64 parse_ether monitored rec sel router value args =
  decode_swap_signal_body abi_decode display_f64 parse_ether monitored rec' sel router value args.
Proof.
  intros A. pose proof (nested_ext _ _ _ router value args A (le_n _)) as N.
  unfold decode_swap_signal_body.
  repeat match goal with |- (if ?b then _ else _) = _ => destruct b; [try reflexivity|] end.
  - unfold decode_safe_exec_transaction_swap.
    destruct (safe_call abi_decode args) as [[[t v] [s c]]|] eqn:S; [|done]. cbn [obind opt].
    f_equal. apply A. by eapply safe_call_within.
  - unfold decode_multicall_nested_swap. rewrite N.
    destruct (multicall_calls abi_decode sel args) as [calls|] eqn:C; [|done]. cbn [obind opt].
    f_equal. unfold relabelled. f_equal. apply first_call_ext. intros x X.
    eapply call_of_bytes_ext; [exact A|]. apply multicall_within in C. unfold all_within in C.
    rewrite forallb_forall in C. by apply C, list_elem_of_In.
  - unfold decode_private_swap_wrapper. by rewrite N.
  - unfold decode_batch_execute_nested_swap. rewrite N. f_equal. unfold relabelled. f_equal.
    apply first_call_ext. intros x X. eapply call_of_tuple_ext; [exact A|].
    pose proof (batch_within args) as C. unfold all_within in C. rewrite forallb_forall in C.
    by apply C, list_elem_of_In.
  - unfold decode_known_aggregator_partial.
    repeat match goal with |- (if ?b then _ else _) = _ => destruct b; [try reflexivity|] end; [|done].
    unfold decode_private_searcher_fingerprint. by rewrite N.
Qed.

Abbreviation levels_of := (decode_levels abi_decode display_f64 parse_ether monitored).

Lemma levels_enough n : forall m sel router value args,
  (length args < n)%nat -> (length args < m)%nat ->
  levels_of n sel router value args = levels_of m sel router value args.
Proof.
  induction n as [|n IH]; intros m sel router value args Hn Hm; [lia|].
  destruct m as [|m]; [lia|]. cbn [decode_levels]. apply body_ext.
  intros s r v a H. apply IH; lia.
Qed.
End Termination.

(** ** Well-formed signals *)

(** A signal is no more certain than a direct decoding; a V3 signal keeps one
    hop, whose packed path is that of the hop taken backwards. *)
Definition signal_wf (s : SwapSignal) : Prop :=
  (sw_decode_confidence s <=? 1.0)%f64 = true /\
  match sw_kind s with
  | SwapV2 => True
  | SwapV3 fee encoded hops _ =>
      (1 <= hops)%nat /\ exists a b, sw_path s = [a; b] /\ encoded = encode_v3_path b fee a
  end.
(** What a decoder ends with satisfies [P]. *)
Definition option_sat (P : SwapSignal -> Prop) (o : option SwapSignal) : Prop := forall s, o = Some s -> P s.
Definition outcome_sat (P : SwapSignal -> Prop) (m : outcome (option SwapSignal)) : Prop :=
  forall s, m = Done (Some s) -> P s.
Abbreviation all_wf := (Forall signal_wf).
Abbreviation option_wf := (option_sat signal_wf).
Abbreviation outcome_wf := (outcome_sat signal_wf).

Section Sat.
Context {P : SwapSignal -> Prop}.
Lemma opt_sat o : option_sat P o -> outcome_sat P (opt o).
Proof. intros H s [= E]. by apply H. Qed.
Lemma or_else_sat m k : outcome_sat P m -> outcome_sat P k -> outcome_sat P (oor_else m k).
Proof. intros M K s. unfold oor_else. destruct m as [[x|]|]; intros H; [by apply M|by apply K|done]. Qed.
Lemma option_or_else_sat a b : option_sat P a -> option_sat P b -> option_sat P (or_else a b).
Proof. intros A B s. destruct a; simpl; [apply A|apply B]. Qed.
Lemma option_list_sat o : option_sat P o -> Forall P (option_list o).
Proof. intros H. destruct o as [s|]; [|constructor]. constructor; [by apply H|constructor]. Qed.
Lemma first_call_sat {A} (f : A -> outcome (option SwapSignal)) l :
  (forall x, x ∈ l -> outcome_sat P (f x)) -> outcome_sat P (first_call f l).
Proof.
  induction l as [|x l IH]; intros F; [done|]. apply or_else_sat; [apply F; by left|].
  apply IH. intros y Y. apply F. by right.
Qed.
Lemma omap_sat {A} (f : A -> option SwapSignal) l :
  (forall x, x ∈ l -> option_sat P (f x)) -> Forall P (omap f l).
Proof.
  intros F. apply Forall_forall. intros s (x & X & E)%list_elem_of_omap. by eapply F.
Qed.
Lemma relabelled_sat sel c source m :
  (forall s, P s -> P (relabel sel c source s)) -> outcome_sat P m -> outcome_sat P (relabelled sel c source m).
Proof.
  intros R M s. unfold relabelled. destruct m as [[x|]|] eqn:E; try done. intros [= <-]. by apply R, M.
Qed.
End Sat.
Lemma relabelled_wf sel c source m :
  (c <=? 1.0)%f64 = true -> outcome_wf m -> outcome_wf (relabelled sel c source m).
Proof.
  intros C. apply relabelled_sat. intros s [X K]. split; [|exact K]. simpl. unfold fmin. repeat case_match; auto.
Qed.

Lemma parsed_hops p q : parse_v3_path p = Some q -> (1 <= pp_hops q)%nat.
Proof.
  unfold parse_v3_path. destruct (length p <? 43)%nat eqn:L; [done|]. apply Nat.ltb_ge in L.
  assert (N : (1 <= (length p - 20) / 23)%nat) by (apply Nat.div_le_lower_bound; lia).
  revert N. generalize ((length p - 20) / 23)%nat. by intros n N [= <-].
Qed.
Lemma parsed_first_segment p q s l :
  parse_v3_path p = Some q -> parse_v3_path_segments p = s :: l ->
  [seg_token_in s; seg_token_out s] = [pp_token_in q; edge_token_out q].
Proof.
  unfold parse_v3_path, parse_v3_path_segments. destruct (length p <? 43)%nat; [done|]. intros [= <-].
  destruct ((length p - 20) / 23)%nat as [|n]; [done|]. cbn [seq segments_loop].
  destruct (_ <? _)%nat; [done|]. by intros [= <- _].
Qed.

(** One bind of a decoder after the other. *)
Ltac decoder_steps :=
  repeat match goal with
         | H : mbind _ _ = Some _ |- _ => apply bind_Some in H as (? & ? & H)
         | H : (if ?b then _ else _) = Some _ |- _ => destruct b eqn:?; [try discriminate H|try discriminate H]
         | H : Some _ = Some _ |- _ => injection H as <-
         end.
Ltac v2_signal :=
  let H := fresh in intros ? H;
  unfold decode_universal_router_v2_exact_in, decode_universal_router_v2_exact_out, decode_eth_for_tokens,
    decode_tokens_for, decode_zero_ex_sell_to_uniswap, decode_swap_exact_eth_for_token_partial,
    decode_transit_v5_v2_partial in H;
  decoder_steps; (split; [done|exact I]).

Section Wf.
Context (abi_decode : list ParamType -> Bytes -> option (list Token)).
Context (display_f64 : f64 -> string) (parse_ether : string -> string + U256).
Context (monitored : list MonitoredTokenConfig).

Lemma v3_signal_wf sel router a out p q exact_out c source :
  parse_v3_path p = Some q -> (c <=? 1.0)%f64 = true ->
  signal_wf (signal_of sel router a out [pp_token_in q; edge_token_out q] (v3_kind q exact_out) c source).
Proof.
  intros P C. split; [done|]. split; [by eapply parsed_hops|]. by exists (pp_token_in q), (edge_token_out q).
Qed.

Lemma partial_wf sel router value args c source :
  (c <=? 1.0)%f64 = true ->
  option_wf (decode_partial_swap_from_monitored_tokens monitored sel router value args c source).
Proof.
  intros C s. unfold decode_partial_swap_from_monitored_tokens.
  destruct (partial_path_from_monitored_tokens monitored args) as [|a [|b l]]; try done.
  destruct (a =? b); [done|]. intros [= <-]. by split.
Qed.

Lemma hop_signal_wf sel router hop : option_wf (universal_router_hop_to_signal sel router hop).
Proof.
  intros s H. unfold universal_router_hop_to_signal in H. decoder_steps; (split; [done|]); simpl;
    [|done]. split; [done|]. by eexists _, _.
Qed.

Lemma parts_wf levels sel router : forall commands inputs,
  all_wf (decode_universal_router_parts abi_decode levels sel router commands inputs).
Proof.
  induction levels as [|levels IH]; intros commands inputs; [constructor|].
  cbn [decode_universal_router_parts]. revert inputs.
  induction commands as [|c commands IHc]; intros [|t inputs]; try by constructor.
  destruct t; try apply IHc. apply Forall_app. split; [|apply IHc]. cbv zeta.
  repeat match goal with |- Forall _ (if ?b then _ else _) => destruct b end.
  - apply option_list_sat. intros s H. unfold decode_universal_router_v3_exact_in in H. decoder_steps.
    by eapply v3_signal_wf.
  - apply option_list_sat. intros s H. unfold decode_universal_router_v3_exact_out in H. decoder_steps.
    unfold parse_v3_exact_out_path in *. decoder_steps. split; [done|]. split; [|by eexists _, _]. simpl. by eapply parsed_hops.
  - apply option_list_sat. v2_signal.
  - apply option_list_sat. v2_signal.
  - destruct (decode_universal_router_sub_plan abi_decode b) as [[sc si]|]; [apply IH|constructor].
  - constructor.
Qed.

Lemma candidates_wf sel router args :
  all_wf (decode_universal_router_swap_candidates abi_decode sel router args).
Proof.
  unfold decode_universal_router_swap_candidates.
  destruct (decode_plan abi_decode args) as [[commands inputs]|]; [|constructor].
  destruct (decode_universal_router_parts _ _ _ _ _ _) as [|s l] eqn:E.
  - apply omap_sat; intros; apply hop_signal_wf.
  - rewrite <- E. apply parts_wf.
Qed.

Lemma universal_wf sel router args :
  option_wf (or_else
    (decode_universal_router_swap_for_monitored abi_decode display_f64 parse_ether monitored sel router args)
    (decode_universal_router_swap abi_decode sel router args)).
Proof.
  pose proof (candidates_wf sel router args) as C. apply option_or_else_sat; intros s H.
  - unfold decode_universal_router_swap_for_monitored in H. apply max_by_elem in H.
    apply list_elem_of_omap in H as (x & X & H). decoder_steps.
    exact (proj1 (Forall_forall _ _) C x X).
  - unfold decode_universal_router_swap in H. apply head_Some in H as (l & H). rewrite H in C.
    by apply Forall_cons in C as [C _].
Qed.

Lemma single_values_wf sel router values i j c source :
  (c <=? 1.0)%f64 = true ->
  outcome_wf (decode_v3_exact_input_single_values sel router values i j c source).
Proof.
  intros C s. unfold decode_v3_exact_input_single_values.
  destruct (at_ token_as_address values 0) as [a|]; [|done]. cbn [opt obind].
  destruct (at_ token_as_address values 1) as [b|]; [|done]. cbn [opt obind].
  destruct (at_ token_as_uint values 2) as [fee|]; [|done]. cbn [opt obind].
  destruct (as_u32 fee) as [f|]; [|done]. cbn.
  destruct (at_ token_as_uint values i) as [n|]; [|done]. intros [= <-].
  split; [done|]. split; [simpl; lia|]. by exists a, b.
Qed.

Lemma single_wf sel router args :
  outcome_wf (decode_v3_exact_input_single_with_deadline abi_decode sel router args) /\
  outcome_wf (decode_v3_exact_input_single_no_deadline abi_decode sel router args).
Proof.
  unfold decode_v3_exact_input_single_with_deadline, decode_v3_exact_input_single_no_deadline.
  split; intros s; (destruct (abi_decode _ args) as [ts|]; [|done]); cbn [opt obind];
    (destruct (at_ token_as_tuple ts 0) as [values|]; [|done]); cbn [opt obind]; by apply single_values_wf.
Qed.

Lemma algebra_wf sel router args : option_wf (decode_algebra_exact_input_single abi_decode sel router args).
Proof.
  intros s H. unfold decode_algebra_exact_input_single in H. decoder_steps.
  split; [done|]. split; [simpl; lia|]. by eexists _, _.
Qed.
Lemma exact_input_wf sel router args : option_wf (decode_v3_exact_input abi_decode sel router args).
Proof. intros s H. unfold decode_v3_exact_input in H. decoder_steps. by eapply v3_signal_wf. Qed.

Lemma transit_v3_wf sel router value args :
  option_wf (decode_transit_v5_v3_partial abi_decode monitored sel router value args).
Proof.
  intros s H. unfold decode_transit_v5_v3_partial in H.
  apply bind_Some in H as (ts & _ & H). apply bind_Some in H as (values & _ & H).
  apply bind_Some in H as (p & _ & H). apply bind_Some in H as (q & Q & H).
  assert (E : match parse_v3_path_segments p with
              | s :: _ => [seg_token_in s; seg_token_out s]
              | [] => [pp_token_in q; edge_token_out q]
              end = [pp_token_in q; edge_token_out q]).
  { destruct (parse_v3_path_segments p) eqn:P; [done|]. by eapply parsed_first_segment. }
  rewrite E in H. destruct (negb _); [done|]. injection H as <-. by eapply v3_signal_wf.
Qed.

Section Rec.
Context (rec : Bytes -> Address -> U256 -> Bytes -> outcome (option SwapSignal)).
Context (Hrec : forall sel router value args, outcome_wf (rec sel router value args)).

Lemma nested_wf router value input :
  outcome_wf (decode_nested_swap_from_calldata monitored rec router value input).
Proof.
  apply first_call_sat. intros i _ s. unfold nested_at. destruct (negb _); [done|].
  destruct (rec _ router value _) as [[x|]|] eqn:R; try done. cbn [obind opt].
  destruct (path_contains_monitored_token _ _); [|done]. intros [= <-]. by eapply Hrec.
Qed.
Lemma call_of_bytes_wf router value call : outcome_wf (call_of_bytes rec router value call).
Proof.
  intros s. unfold call_of_bytes. destruct (token_as_bytes call) as [c|]; [|done]. cbn [opt obind].
  destruct (split_call c) as [x|]; [|done]. apply Hrec.
Qed.
Lemma call_of_tuple_wf call : outcome_wf (call_of_tuple rec call).
Proof.
  intros s. unfold call_of_tuple. destruct (token_as_tuple call) as [parts|]; [|done]. cbn [opt obind].
  destruct (at_ token_as_address parts 0) as [t|]; [|done]. cbn [opt obind].
  destruct (at_ token_as_bytes parts 2) as [c|]; [|done]. cbn [opt obind].
  destruct (split_call c) as [x|]; [|done]. apply Hrec.
Qed.
Create HintDb wf.
#[local] Hint Resolve nested_wf call_of_bytes_wf call_of_tuple_wf first_call_sat opt_sat or_else_sat option_or_else_sat : wf.

Lemma aggregator_wf sel router value args :
  outcome_wf (decode_known_aggregator_partial abi_decode monitored rec sel router value args).
Proof.
  unfold decode_known_aggregator_partial.
  repeat match goal with |- outcome_wf (if ?b then _ else _) => destruct b end; [| | | | |done].
  - apply opt_sat, option_or_else_sat; [apply transit_v3_wf|by apply partial_wf].
  - apply opt_sat, option_or_else_sat; [v2_signal|by apply partial_wf].
  - by apply opt_sat, partial_wf.
  - apply opt_sat, option_or_else_sat; [v2_signal|by apply partial_wf].
  - apply or_else_sat; [apply relabelled_wf; auto with wf|by apply opt_sat, partial_wf].
Qed.

Lemma body_wf sel router value args :
  outcome_wf (decode_swap_signal_body abi_decode display_f64 parse_ether monitored rec sel router value args).
Proof.
  unfold decode_swap_signal_body.
  repeat match goal with |- outcome_wf (if ?b then _ else _) => destruct b end.
  - apply opt_sat. v2_signal.
  - apply opt_sat. v2_signal.
  - apply single_wf.
  - apply single_wf.
  - apply opt_sat, algebra_wf.
  - apply opt_sat, exact_input_wf.
  - apply opt_sat, universal_wf.
  - apply opt_sat. v2_signal.
  - intros s. unfold decode_safe_exec_transaction_swap.
    destruct (safe_call abi_decode args) as [[[t v] c]|]; [|done]. cbn [opt obind].
    apply or_else_sat; [apply Hrec|]. apply opt_sat. unfold decode_safe_inner_aggregator_partial.
    repeat match goal with |- option_wf (if ?b then _ else _) => destruct b end; [done|by apply partial_wf..].
  - intros s. unfold decode_multicall_nested_swap.
    destruct (multicall_calls abi_decode sel args) as [calls|]; [|done]. cbn [opt obind].
    apply or_else_sat; apply relabelled_wf; auto with wf.
  - apply relabelled_wf; auto with wf.
  - apply or_else_sat; apply relabelled_wf; auto with wf.
  - apply aggregator_wf.
Qed.
End Rec.

Lemma levels_wf levels : forall sel router value args,
  outcome_wf (decode_levels abi_decode display_f64 parse_ether monitored levels sel router value args).
Proof. induction levels as [|n IH]; intros; [done|]. by apply body_wf. Qed.
End Wf.
