(* ===== verification/DecodeProps.v ===== *)
(** * What the decoders of calldata guarantee

    Termination of the decoding of calls inside calls, the shape of a relevant
    signal, the calldata on which decoding panics, packed V3 paths there and
    back, and the choice among the swaps of a universal router call. *)
From S2P Require Import Prelude F64 Text Ethers Config Selector.
From S2P Require Import Calldata AbiRef Decode DecodeFacts.
#[local] Open Scope Z_scope.

(** ** Concrete inputs *)

Definition word (n : Z) : Bytes := to_big_endian 32 n.
Definition no_display (_ : f64) : string := "".
Definition no_parse (_ : string) : string + U256 := inl "".
Definition some_parse (_ : string) : string + U256 := inr 7.
Definition token (a : Address) : MonitoredTokenConfig :=
  {| mt_address := a; mt_decimals := 18; mt_price_eth := 1.0 |}.
Definition call_tx (input : Bytes) : Transaction :=
  {| tx_hash := 1; tx_nonce := 0; tx_from := 2; tx_to := Some 9; tx_value := 5; tx_gas_price := None;
     tx_gas := 21000; tx_input := input; tx_max_priority_fee_per_gas := None;
     tx_max_fee_per_gas := None; tx_chain_id := None; tx_block_number := None |}.
(** The arguments of [exactInputSingle] with a fee of choice. *)
Definition single_args (fee : Z) : Bytes := concat (word <$> [11; 12; fee; 1; 2; 100; 90; 0]).
(** A multicall of one such call. *)
Definition multicall_args (fee : Z) : Bytes :=
  concat (word <$> [32; 1; 32; 260]) ++ V3_EXACT_INPUT_SINGLE ++ single_args fee.

(** ** Calls inside calls *)

Section Guarantees.
Context (abi_decode : list ParamType -> Bytes -> option (list Token)).
Context (display_f64 : f64 -> string) (parse_ether : string -> string + U256).
Context (monitored : list MonitoredTokenConfig).
Abbreviation decode_swap := (decode_swap_signal abi_decode display_f64 parse_ether monitored).
Abbreviation relevant_swap := (decode_relevant_swap abi_decode display_f64 parse_ether monitored).

(** C15: decoding ends on every calldata: when the ABI decoder yields no byte
    string longer than its input, the decoding of a call is one step of the
    selector's decoder that decodes the calls found inside in the same way, and
    any number of nested levels above the length of the arguments gives the
    same result. *)
Theorem nested_decoding_terminates (H : AbiShrinks abi_decode) sel router value args :
  decode_swap sel router value args =
    decode_swap_signal_body abi_decode display_f64 parse_ether monitored decode_swap sel router value args /\
  forall levels, (length args < levels)%nat ->
    decode_levels abi_decode display_f64 parse_ether monitored levels sel router value args =
    decode_swap sel router value args.
Proof.
  split; [|intros levels L; apply (levels_enough abi_decode display_f64 parse_ether monitored levels); lia].
  transitivity (decode_swap_signal_body abi_decode display_f64 parse_ether monitored
    (decode_levels abi_decode display_f64 parse_ether monitored (length args)) sel router value args);
    [reflexivity|].
  apply (body_ext abi_decode display_f64 parse_ether monitored). intros s r v a L.
  apply (levels_enough abi_decode display_f64 parse_ether monitored (length args) (S (length a)) s r v a); lia.
Qed.

(** ** Relevant signals *)

(** C9: a relevant swap has at least two tokens, is well formed (confidence at
    most one; the path of a V3 signal is one hop, with the packed path of that hop taken
    backwards, though its count of hops may be larger), comes from a transaction that is not a creation, and is worth
    the minimum unless the mode is [Scavenger]; its notional is the estimate,
    or, in the modes that follow partial decodings, the minimum for a path with
    a monitored token and no estimate. *)
Theorem relevant_swaps_are_well_formed avx2 tx mn mode s
    (H : relevant_swap avx2 tx mn mode = Done (Some s)) :
  (2 <= length (sw_path s))%nat /\ signal_wf s /\ is_Some (tx_to tx) /\
  (mode <> Scavenger -> mn <= sw_notional_wei s) /\
  (estimate_notional_wei display_f64 parse_ether monitored s = Some (sw_notional_wei s) \/
   mode <> Conservative /\ estimate_notional_wei display_f64 parse_ether monitored s = None /\
   sw_notional_wei s = Z.max mn 1 /\
   path_contains_monitored_token (sw_path s) monitored = true).
Proof.
  unfold decode_relevant_swap in H.
  destruct (tx_selector avx2 tx) as [[sel|]|]; try done. cbn [obind] in H.
  destruct (tx_to tx) as [router|]; [|done]. cbn [obind opt] in H.
  destruct (decode_swap sel router _ _) as [[x|]|] eqn:D; try done. cbn [obind] in H.
  unfold decode_swap_signal in D. apply levels_wf in D.
  set (o := or_else _ _) in H. destruct o as [n|] eqn:O; [|done]. cbn [obind opt] in H.
  destruct (length (sw_path x) <? 2)%nat eqn:L; [done|]. apply Nat.ltb_ge in L.
  destruct (negb _ && _) eqn:G; [done|]. injection H as <-.
  split; [exact L|]. split; [exact D|]. split; [done|]. split.
  - intros M. rewrite bool_decide_false in G by done. simpl in *. lia.
  - subst o. change (estimate_notional_wei display_f64 parse_ether monitored x = Some n \/
      mode <> Conservative /\ estimate_notional_wei display_f64 parse_ether monitored x = None /\
      n = Z.max mn 1 /\ path_contains_monitored_token (sw_path x) monitored = true).
    destruct (estimate_notional_wei _ _ _ x) as [m|]; simpl in O; [by left|].
    right. destruct mode; simpl in O; [done|..];
      (destruct (path_contains_monitored_token _ _) eqn:P; [|done]); by injection O as <-.
Qed.

(** ** Panics *)

(** The fee word of the arguments of [exactInputSingle], when they decode far
    enough to read it. *)
Definition single_fee (params : list ParamType) (args : Bytes) : option Z :=
  decoded ← abi_decode params args;
  values ← at_ token_as_tuple decoded 0;
  _ ← at_ token_as_address values 0;
  _ ← at_ token_as_address values 1;
  at_ token_as_uint values 2.

Lemma single_values_panic sel router values i j c source :
  decode_v3_exact_input_single_values sel router values i j c source = Panicked <->
  exists fee, (_ ← at_ token_as_address values 0; _ ← at_ token_as_address values 1;
               at_ token_as_uint values 2) = Some fee /\ U32_MAX < fee.
Proof.
  unfold decode_v3_exact_input_single_values.
  destruct (at_ token_as_address values 0) as [a|]; cbn; [|split; [done|by intros (? & ? & _)]].
  destruct (at_ token_as_address values 1) as [b|]; cbn; [|split; [done|by intros (? & ? & _)]].
  destruct (at_ token_as_uint values 2) as [fee|]; cbn; [|split; [done|by intros (? & ? & _)]].
  unfold as_u32. destruct (Z.leb_spec fee U32_MAX) as [L|L]; cbn.
  - destruct (at_ token_as_uint values i); (split; [done|]); intros (f & [= <-] & F); lia.
  - split; [|done]. intros _. by exists fee.
Qed.

Lemma is_sel_refl s : is_sel s s = true.
Proof. by apply bool_decide_true. Qed.

(** The decoding of a transaction to [exactInputSingle] panics exactly
    when the word of the fee, which the sender of the transaction chooses, does
    not fit 32 bits. *)
Theorem wide_fee_panics avx2 tx mn mode router
    (Hsel : tx_selector avx2 tx = Done (Some V3_EXACT_INPUT_SINGLE)) (Hto : tx_to tx = Some router) :
  relevant_swap avx2 tx mn mode = Panicked <->
  exists fee, single_fee SINGLE_DEADLINE_PARAMS (drop 4 (tx_input tx)) = Some fee /\ U32_MAX < fee.
Proof.
  unfold decode_relevant_swap. rewrite Hsel, Hto. cbn [obind opt].
  set (args := drop 4 (tx_input tx)).
  change (decode_swap V3_EXACT_INPUT_SINGLE router (tx_value tx) args)
    with (decode_v3_exact_input_single_with_deadline abi_decode V3_EXACT_INPUT_SINGLE router args).
  trans (decode_v3_exact_input_single_with_deadline abi_decode V3_EXACT_INPUT_SINGLE router args = Panicked).
  - destruct (decode_v3_exact_input_single_with_deadline _ _ _ _) as [[x|]|]; cbn [obind opt]; try done.
    split; [|done]. destruct (or_else _ _); [|done]. cbn [obind opt].
    destruct (_ <? _)%nat; [done|]. by destruct (negb _ && _).
  - unfold decode_v3_exact_input_single_with_deadline, single_fee.
    destruct (abi_decode SINGLE_DEADLINE_PARAMS args) as [ts|]; cbn [obind opt mbind option_bind];
      [|split; [done|by intros (? & ? & _)]].
    destruct (at_ token_as_tuple ts 0) as [values|]; cbn [obind opt mbind option_bind];
      [|split; [done|by intros (? & ? & _)]].
    apply single_values_panic.
Qed.

(** ** The choice among the swaps of a universal router call *)

(** A candidate with its worth. *)
Definition valued (s : SwapSignal) : option SwapSignal :=
  n ← estimate_notional_wei display_f64 parse_ether monitored s; Some (s <[ sw_notional_wei ::= n ]>).
(** Lexicographic order of the ranks. *)
Definition rank_le (a b : Z * Z * Z) : Prop :=
  a.1.1 < b.1.1 \/ a.1.1 = b.1.1 /\ (a.1.2 < b.1.2 \/ a.1.2 = b.1.2 /\ a.2 <= b.2).

Lemma by_rank_le a b :
  by_rank a b <> Lt <-> rank_le (universal_router_candidate_rank b) (universal_router_candidate_rank a).
Proof.
  unfold by_rank, rank_le. destruct (universal_router_candidate_rank a) as [[n1 e1] p1],
    (universal_router_candidate_rank b) as [[n2 e2] p2]. simpl.
  destruct (Z.compare_spec n1 n2); [|split; [done|lia]|split; [lia|done]].
  destruct (Z.compare_spec e1 e2); [|split; [done|lia]|split; [lia|done]].
  destruct (Z.compare_spec p1 p2); (split; [try done; lia|try done; lia]).
Qed.
Lemma by_rank_flip a b : by_rank a b <> Gt -> by_rank b a <> Lt.
Proof.
  rewrite by_rank_le. unfold by_rank, rank_le. destruct (universal_router_candidate_rank a) as [[n1 e1] p1],
    (universal_router_candidate_rank b) as [[n2 e2] p2]. simpl.
  destruct (Z.compare_spec n1 n2); [|lia|done].
  destruct (Z.compare_spec e1 e2); [|lia|done].
  destruct (Z.compare_spec p1 p2); [lia|lia|done].
Qed.

(** Of the swaps of a universal router call the one chosen is a candidate
    with its estimated worth, and no candidate with an estimate ranks above it:
    by worth, then exact input before exact output, then the shorter path; none
    is chosen only when no candidate has an estimate. *)
Theorem universal_router_choice_is_best sel router args :
  match decode_universal_router_swap_for_monitored abi_decode display_f64 parse_ether monitored sel router args with
  | Some s =>
      (exists c, c ∈ decode_universal_router_swap_candidates abi_decode sel router args /\ valued c = Some s) /\
      forall c v, c ∈ decode_universal_router_swap_candidates abi_decode sel router args -> valued c = Some v ->
        rank_le (universal_router_candidate_rank v) (universal_router_candidate_rank s)
  | None =>
      forall c, c ∈ decode_universal_router_swap_candidates abi_decode sel router args ->
        estimate_notional_wei display_f64 parse_ether monitored c = None
  end.
Proof.
  unfold decode_universal_router_swap_for_monitored. fold valued.
  set (l := decode_universal_router_swap_candidates abi_decode sel router args).
  destruct (max_by by_rank (omap valued l)) as [s|] eqn:M.
  - split; [by apply list_elem_of_omap, (max_by_elem by_rank)|]. intros c v C V. apply by_rank_le.
    eapply max_by_top; [| | |exact M|apply list_elem_of_omap; eauto].
    + intros x. apply by_rank_le. unfold rank_le. lia.
    + intros x y z. rewrite !by_rank_le. unfold rank_le. lia.
    + apply by_rank_flip.
  - intros c C. destruct (estimate_notional_wei _ _ _ c) as [n|] eqn:E; [|done].
    assert (V : c <[ sw_notional_wei ::= n ]> ∈ omap valued l).
    { apply list_elem_of_omap. exists c. split; [exact C|]. unfold valued. by rewrite E. }
    destruct (omap valued l); [by apply elem_of_nil in V|done].
Qed.
End Guarantees.

(** ** Packed V3 paths *)

(** The packed form of a path: a token, then the fee and the token of each hop. *)
Fixpoint packed (t : Address) (hops : list (u32 * Address)) : Bytes :=
  to_big_endian 20 t ++
  match hops with
  | [] => []
  | (fee, next) :: hops => to_big_endian 3 fee ++ packed next hops
  end.
Fixpoint segments_of (t : Address) (hops : list (u32 * Address)) : list V3PathSegment :=
  match hops with
  | [] => []
  | (fee, next) :: hops =>
      {| seg_token_in := t; seg_token_out := next; seg_fee_tier := fee |} :: segments_of next hops
  end.
Definition address_ok (a : Address) : Prop := 0 <= a < 2 ^ 160.
Definition hop_ok (h : u32 * Address) : Prop := 0 <= h.1 < 2 ^ 24 /\ address_ok h.2.

Lemma length_packed t hops : length (packed t hops) = (20 + 23 * length hops)%nat.
Proof.
  revert t. induction hops as [|[fee next] hops IH]; intros t; cbn [packed];
    rewrite !length_app, length_to_big_endian; [simpl; lia|].
  rewrite length_to_big_endian, IH. simpl. lia.
Qed.
Lemma slice_app {A} (l r : list A) a b : slice (l ++ r) (length l + a) (length l + b) = slice r a b.
Proof. unfold slice. rewrite drop_app_add. f_equal. lia. Qed.
Lemma slice_head {A} (l r : list A) n : length l = n -> slice (l ++ r) 0 n = l.
Proof. intros <-. unfold slice. rewrite drop_0, Nat.sub_0_r. apply take_app_length. Qed.
Lemma read_token t hops : address_ok t -> from_big_endian (slice (packed t hops) 0 20) = t.
Proof.
  intros T. destruct hops as [|[fee next] hops]; cbn [packed];
    rewrite slice_head by apply length_to_big_endian; by apply from_to_big_endian.
Qed.
Lemma read_fee t fee next hops :
  0 <= fee < 2 ^ 24 -> from_big_endian (slice (packed t ((fee, next) :: hops)) 20 23) = fee.
Proof.
  intros F. cbn [packed]. pose proof (slice_app (to_big_endian 20 t) (to_big_endian 3 fee ++ packed next hops) 0 3) as S.
  rewrite length_to_big_endian in S. change (20 + 0)%nat with 20%nat in S. change (20 + 3)%nat with 23%nat in S.
  rewrite S, slice_head by apply length_to_big_endian. by apply from_to_big_endian.
Qed.
Lemma read_next t fee next hops :
  address_ok next -> from_big_endian (slice (packed t ((fee, next) :: hops)) 23 43) = next.
Proof.
  intros N. cbn [packed]. rewrite app_assoc.
  pose proof (slice_app (to_big_endian 20 t ++ to_big_endian 3 fee) (packed next hops) 0 20) as S.
  rewrite length_app, !length_to_big_endian in S. change (20 + 3 + 0)%nat with 23%nat in S.
  change (20 + 3 + 20)%nat with 43%nat in S. rewrite S. by apply read_token.
Qed.

Lemma segments_loop_packed hops : forall pre k t,
  length pre = (23 * k)%nat -> address_ok t -> Forall hop_ok hops ->
  segments_loop (pre ++ packed t hops) (seq k (length hops)) = segments_of t hops.
Proof.
  induction hops as [|[fee next] hops IH]; intros pre k t L T F; [done|].
  apply Forall_cons in F as [[Fee N] F]. simpl in Fee, N.
  cbn [length seq segments_loop segments_of]. cbv zeta.
  replace (k * 23)%nat with (length pre + 0)%nat by lia.
  replace (length pre + 0 + 20)%nat with (length pre + 20)%nat by lia.
  replace (length pre + 20 + 3)%nat with (length pre + 23)%nat by lia.
  replace (length pre + 23 + 20)%nat with (length pre + 43)%nat by lia.
  rewrite !slice_app, read_token, read_fee, read_next by done.
  rewrite length_app, length_packed. cbn [length].
  replace (_ <? _)%nat with false by (symmetry; apply Nat.ltb_ge; lia). f_equal.
  cbn [packed]. rewrite !app_assoc. apply IH; [|done|done].
  rewrite !length_app, !length_to_big_endian. lia.
Qed.

(** C26: a packed path reads back: its segments are the hops it was packed
    from, the summary gives the first hop and the number of hops, and the path
    that the decoders rebuild from a hop is the packing of that hop, which as an
    exact-output path reads in the opposite direction. *)
Theorem v3_path_roundtrip t fee next hops
    (Ht : address_ok t) (Hhops : Forall hop_ok ((fee, next) :: hops)) :
  parse_v3_path_segments (packed t ((fee, next) :: hops)) = segments_of t ((fee, next) :: hops) /\
  parse_v3_path (packed t ((fee, next) :: hops)) =
    Some {| pp_token_in := t; edge_token_out := next; first_fee_tier := fee; pp_hops := S (length hops) |} /\
  encode_v3_path t fee next = packed t [(fee, next)] /\
  parse_v3_exact_out_path (encode_v3_path t fee next) =
    Some {| pp_token_in := next; edge_token_out := t; first_fee_tier := fee; pp_hops := 1 |}.
Proof.
  assert (P : forall hs, parse_v3_path (packed t ((fee, next) :: hs)) =
    Some {| pp_token_in := t; edge_token_out := next; first_fee_tier := fee; pp_hops := S (length hs) |}).
  { intros hs. apply Forall_cons in Hhops as [[Fee N] _]. simpl in Fee, N.
    unfold parse_v3_path. rewrite read_token, read_fee, read_next by done. rewrite length_packed. cbn [length].
    replace (_ <? _)%nat with false by (symmetry; apply Nat.ltb_ge; lia).
    replace ((20 + 23 * S (length hs) - 20) / 23)%nat with (S (length hs)); [done|].
    apply Nat.div_unique with 0%nat; lia. }
  split; [|split; [apply P|split; [reflexivity|]]].
  - unfold parse_v3_path_segments. rewrite length_packed. cbn [length].
    replace (_ <? _)%nat with false by (symmetry; apply Nat.ltb_ge; lia).
    replace ((20 + 23 * S (length hops) - 20) / 23)%nat with (length ((fee, next) :: hops)).
    + by apply (segments_loop_packed ((fee, next) :: hops) [] 0 t).
    + cbn [length]. apply Nat.div_unique with 0%nat; lia.
  - unfold parse_v3_exact_out_path. change (encode_v3_path t fee next) with (packed t [(fee, next)]).
    by rewrite P.
Qed.

(** ** Concrete runs *)

Lemma nested_decoding_terminates_witness :
  bool_decide (is_Some (match decode_swap_signal ref_decode no_display no_parse [] MULTICALL_BYTES 9 0 (multicall_args 500)
                        with Done o => o | Panicked => None end)) = true /\
  decode_swap_signal ref_decode no_display no_parse [] MULTICALL_BYTES 9 0 (multicall_args 500) =
    decode_swap_signal_body ref_decode no_display no_parse []
      (decode_swap_signal ref_decode no_display no_parse []) MULTICALL_BYTES 9 0 (multicall_args 500).
Proof.
  split; [vm_compute; reflexivity|].
  exact (proj1 (nested_decoding_terminates ref_decode no_display no_parse [] ref_decode_shrinks _ _ _ _)).
Defined.

Definition single_tx (fee : Z) : Transaction := call_tx (V3_EXACT_INPUT_SINGLE ++ single_args fee).
Definition relevant (fee : Z) : outcome (option SwapSignal) :=
  decode_relevant_swap ref_decode no_display some_parse [token 11] true (single_tx fee) 1 Conservative.

Lemma relevant_swaps_are_well_formed_witness :
  exists s, relevant 500 = Done (Some s) /\ signal_wf s.
Proof.
  destruct (relevant 500) as [[s|]|] eqn:E; [|vm_compute in E; discriminate..]. exists s. split; [done|].
  apply relevant_swaps_are_well_formed in E. apply E.
Defined.

Lemma wide_fee_panics_witness :
  decode_relevant_swap ref_decode no_display some_parse [token 11] true (single_tx (2 ^ 32)) 1 Conservative = Panicked.
Proof.
  apply (wide_fee_panics ref_decode no_display some_parse [token 11] true _ 1 Conservative 9);
    [vm_compute; reflexivity|reflexivity|].
  exists (2 ^ 32). split; [vm_compute; reflexivity|reflexivity].
Defined.

Lemma v3_path_roundtrip_witness :
  parse_v3_path_segments (packed 11 [(500, 12); (3000, 13)]) = segments_of 11 [(500, 12); (3000, 13)].
Proof.
  apply v3_path_roundtrip; [done|]. repeat constructor; done.
Defined.
