(* ===== verification/EnvVars.v ===== *)
(** * Reading the environment ([mev/runtime.rs])

    The helpers that read a variable, trim it, parse it and clamp it. The
    environment is a function from names to values. *)
From S2P Require Import Prelude F64 Text.
#[local] Open Scope string_scope.
#[local] Open Scope Z_scope.

Section Env.
Context (env : string -> option string).

(** [env::var(name).ok().and_then(|value| value.trim().parse().ok())]. *)
Definition env_parsed {A} (parse : string -> option A) (name : string) : option A :=
  value ← env name; parse (trim value).

Definition env_bool (env_name : string) (def : bool) : bool :=
  match env env_name with
  | Some value =>
      let normalized := to_lower (trim value) in
      existsb (string_eqb normalized) ["1"; "true"; "yes"; "on"]
  | None => def
  end.

Definition env_usize_clamped (env_name : string) (def lo hi : Z) : Z :=
  clampZ lo hi (default def (env_parsed parse_u64 env_name)).

Definition env_f64_clamped (env_name : string) (def lo hi : f64) : f64 :=
  let value := match env_parsed parse_f64 env_name with
               | Some value => if is_finite value then value else def
               | None => def
               end in
  fclamp_in value lo hi.

Definition worker_count (env_name : string) (max_workers : Z) : Z :=
  match env_parsed parse_u64 env_name with
  | Some parsed => clampZ 1 max_workers parsed
  | None => Z.max max_workers 1
  end.

Definition replay_min_confidence : f64 :=
  fclamp_in (default 0.35%f64 (env_parsed parse_f64 "MEV_REPLAY_MIN_CONFIDENCE")) 0.0 1.0.
Definition replay_min_repeat_count : u64 := env_usize_clamped "MEV_REPLAY_MIN_REPEAT_COUNT" 3 1 100.

Definition min_partial_decode_confidence : f64 :=
  fclamp_in (default 0.30%f64 (env_parsed parse_f64 "MEV_PARTIAL_DECODE_MIN_CONFIDENCE")) 0.0 1.0.

Definition pending_lookup_fanout : Z :=
  clampZ 1 3 (default 1 (env_parsed parse_u64 "MEV_PENDING_LOOKUP_FANOUT")).
Definition block_lookup_fanout : Z :=
  clampZ 1 3 (default 1 (env_parsed parse_u64 "MEV_BLOCK_LOOKUP_FANOUT")).
Definition full_pending_tx_subscription_enabled : bool := env_bool "MEV_FULL_PENDING_TX_ENABLED" true.

(** ** Facts *)

Lemma clampZ_range lo hi x : lo <= hi -> lo <= clampZ lo hi x <= hi.
Proof. unfold clampZ. lia. Qed.
Lemma env_usize_clamped_range name def lo hi :
  lo <= hi -> lo <= env_usize_clamped name def lo hi <= hi.
Proof. apply clampZ_range. Qed.
End Env.
