(* ===== verification/ConfigEnv.v ===== *)
(** * Reading the configuration ([config.rs])

    [Config::load]: what the environment says, with its defaults, its order of
    precedence between a network's own variables and the common ones, and its
    errors; then the endpoints a configuration stands for. The environment is a
    function from names to values; the command line, the parsers of addresses,
    private keys and socket addresses, and the file of tuned variables are
    parameters. Warnings are left out. *)
From S2P Require Import Prelude F64 Text Ethers Config.
#[local] Open Scope string_scope.
#[local] Open Scope Z_scope.

(** ** Errors *)

(** What stands for a [Box<dyn Error>]: which error it is and what it quotes. *)
Inductive ConfigError :=
| NotPresent (name : string)
| NotConfigured (name : string)
| NoPrivateKey
| BadNumber (text : string)
| InvalidKey (why : string)
| InvalidAddress (name why : string)
| InvalidTokenAddress (name address why : string)
| InvalidTokenEntry (name entry : string)
| InvalidSocket (why : string)
| UnsupportedRpcPreference (value : string)
| UnsupportedOpportunityMode (value : string)
| UnreadableFile (why : string).

Definition Res (A : Type) : Type := ConfigError + A.
#[export] Instance Res_ret : MRet Res := fun A a => inr a.
#[export] Instance Res_bind : MBind Res := fun A B f m =>
  match m with inl err => inl err | inr a => f a end.
Definition err {A} (e : ConfigError) : Res A := inl e.
(** [?] on a parser's answer. *)
Definition parsed {A} (o : option A) (text : string) : Res A :=
  match o with Some a => inr a | None => inl (BadNumber text) end.

Definition Env : Type := string -> option string.

(** ** Placeholders and names *)

Definition is_placeholder (value : string) : bool :=
  let trimmed := trim value in
  let lower := to_lower trimmed in
  string_eqb trimmed "" || string_eqb lower "sua_chave_hex_aqui" || string_eqb lower "0xseucontratoalvo"
  || existsb (starts_with lower) ["sua_"; "seu_"; "your_"; "change_me"; "replace_me"]
  || contains lower "placeholder".

Definition default_chain_id (network : string) : u64 :=
  if string_eqb network "ethereum" then 1
  else if string_eqb network "bsc" then 56
  else if string_eqb network "polygon" then 137
  else if string_eqb network "arbitrum" then 42161
  else 1.
Definition alchemy_url_for_network (network key : string) : option string :=
  if one_of network ["bsc"; "bnb"] then Some ("https://bnb-mainnet.g.alchemy.com/v2/" +:+ key)
  else if string_eqb network "ethereum" then Some ("https://eth-mainnet.g.alchemy.com/v2/" +:+ key)
  else if string_eqb network "arbitrum" then Some ("https://arb-mainnet.g.alchemy.com/v2/" +:+ key)
  else if string_eqb network "polygon" then Some ("https://polygon-mainnet.g.alchemy.com/v2/" +:+ key)
  else None.
Definition alchemy_ws_url_for_network (network key : string) : option string :=
  if string_eqb network "ethereum" then Some ("wss://eth-mainnet.g.alchemy.com/v2/" +:+ key)
  else if string_eqb network "arbitrum" then Some ("wss://arb-mainnet.g.alchemy.com/v2/" +:+ key)
  else if string_eqb network "polygon" then Some ("wss://polygon-mainnet.g.alchemy.com/v2/" +:+ key)
  else None.
Definition infura_url_for_network (network key : string) : option string :=
  if one_of network ["bsc"; "bnb"] then Some ("https://bsc-mainnet.infura.io/v3/" +:+ key)
  else if string_eqb network "ethereum" then Some ("https://mainnet.infura.io/v3/" +:+ key)
  else if string_eqb network "arbitrum" then Some ("https://arbitrum-mainnet.infura.io/v3/" +:+ key)
  else if string_eqb network "polygon" then Some ("https://polygon-mainnet.infura.io/v3/" +:+ key)
  else None.
Definition default_finality_confirmations (network : string) : u64 :=
  if one_of network ["polygon"; "bsc"; "bnb"] then 1 else 0.
Definition supports_default_alchemy_mempool_ws (network : string) : bool :=
  one_of network ["ethereum"; "arbitrum"; "polygon"].
Definition is_allowed_mempool_ws_url (network url : string) : bool :=
  negb (one_of network ["bsc"; "bnb"]) || negb (contains (to_lower url) "bnb-mainnet.g.alchemy.com").
Definition looks_like_getblock_url (url : string) : bool := contains (to_lower url) "getblock.io".
Definition default_monitored_tokens (network : string) : string :=
  if string_eqb network "bsc" then "WBNB:0xbb4CdB9CBd36B01bD1cBaEBF2De08d9173bc095c:18:1.0"
  else if string_eqb network "polygon" then "WPOL:0x0d500B1d8E8eF31E21C99d1Db9A6444d3ADf1270:18:1.0"
  else if string_eqb network "ethereum" then "WETH:0xC02aaA39b223FE8D0A0e5C4F27eAD9083C756Cc2:18:1.0"
  else if string_eqb network "arbitrum" then "WETH:0x82aF49447D8a07e3bd95BD0d56f35241523fBab1:18:1.0"
  else "".

Definition parse_rpc_preference (value : string) : Res RpcPreference :=
  let v := to_lower (trim value) in
  if string_eqb v "auto" then mret Auto
  else if string_eqb v "getblock" then mret GetBlock
  else if string_eqb v "alchemy" then mret Alchemy
  else if string_eqb v "infura" then mret Infura
  else err (UnsupportedRpcPreference v).
Definition parse_opportunity_mode (value : string) : Res OpportunityMode :=
  let normalized := to_lower (trim (trim_matches "'" (trim_matches "034" (trim value)))) in
  if one_of normalized ["conservative"; "safe"; "atual"] then mret Conservative
  else if one_of normalized ["aggressive"; "bloody"; "sangrento"] then mret Aggressive
  else if one_of normalized ["scavenger"; "bypass"; "farelo"; "farelo-extractor"; "crumbs"] then mret Scavenger
  else err (UnsupportedOpportunityMode normalized).

(** ** Variables by network *)

Definition network_suffixes (network : string) : list string :=
  if string_eqb network "bsc" then ["_BSC"; "_BNB"]
  else if string_eqb network "polygon" then ["_POLYGON"]
  else if string_eqb network "ethereum" then ["_ETHEREUM"]
  else if string_eqb network "arbitrum" then ["_ARBITRUM"]
  else [].
Definition is_network_specific (key : string) : bool :=
  existsb (contains key) ["_BSC"; "_BNB"; "_POLYGON"; "_ETHEREUM"; "_ARBITRUM"].
(** [if test && !prioritized.contains(key) { prioritized.push(key) }] over the keys. *)
Definition push_keys (test : string -> bool) (keys prioritized : list string) : list string :=
  foldl (fun acc key => if test key && negb (bool_decide (key ∈ acc)) then (acc ++ [key])%list else acc)
    prioritized keys.
Definition prioritized_by (own : string -> string -> bool) (network : string) (keys : list string)
  : list string :=
  push_keys (fun key => negb (is_network_specific key)) keys
    (foldl (fun acc suffix => push_keys (fun key => own key suffix) keys acc) [] (network_suffixes network)).
Definition prioritized_network_key_names : string -> list string -> list string := prioritized_by ends_with.
Definition prioritized_network_keys : string -> list string -> list string := prioritized_by contains.
Definition network_env_keys (base_name : string) : list string :=
  [base_name +:+ "_BSC"; base_name +:+ "_BNB"; base_name +:+ "_POLYGON"; base_name +:+ "_ETHEREUM";
   base_name +:+ "_ARBITRUM"; base_name].

(** The items of a comma separated value. *)
Definition items (value : string) : list string :=
  filter (fun item => negb (string_eqb item "")) (trim <$> split "," value).
Definition known_url (urls : list string) (item : string) : bool :=
  existsb (fun existing => eq_ignore_ascii_case existing item) urls.

Definition rpc_name_matches_filter (name : string) (providers : list string) : bool :=
  let lower := to_lower name in
  existsb (fun provider => string_eqb lower provider || starts_with lower (provider +:+ "-")) providers.
Definition rpc_name_allowed_for_network (network name : string) : bool :=
  let lower := to_lower name in
  if one_of network ["bsc"; "bnb"] then starts_with lower "getblock-"
  else if string_eqb network "polygon" then
    starts_with lower "alchemy-" || starts_with lower "getblock-" || starts_with lower "rpc-"
  else true.

(** ** The tuned variables *)

Section Tuned.
(** [None]: there is no such file; an error: it cannot be read. *)
Context (read_file : string -> option (string + string)).

Definition env_flag (env : Env) (name : string) : bool :=
  eq_ignore_ascii_case (trim (default "false" (env name))) "true".
(** A variable, trimmed, when it is not empty. *)
Definition nonempty (env : Env) (name : string) : option string :=
  value ← env name; let value := trim value in if string_eqb value "" then None else Some value.

Definition set_var (env : Env) (key value : string) : Env :=
  fun name => if string_eqb name key then Some value else env name.
(** One line of the file. *)
Definition apply_line (env : Env) (line : string) : Env :=
  let line := trim line in
  if string_eqb line "" || starts_with line "#" then env
  else match split_once "=" line with
       | None => env
       | Some (key, value) =>
           let key := trim key in
           let value := trim value in
           if string_eqb key "" || string_eqb value "" then env else set_var env key value
       end.
Definition tuned_path (env : Env) : string :=
  match nonempty env "REPLAY_AUTO_TUNE_RUNTIME_ENV_PATH" with
  | Some path => path
  | None => default "exports/replay_auto_tune.env" (nonempty env "REPLAY_AUTO_TUNE_APPLY_PATH")
  end.
Definition apply_replay_tuned_runtime_env (env : Env) : Res Env :=
  if negb (env_flag env "REPLAY_AUTO_TUNE_USE_IN_RUNTIME") then mret env
  else
    match read_file (tuned_path env) with
    | None => mret env
    | Some (inl why) => err (UnreadableFile why)
    | Some (inr raw) => mret (foldl apply_line env (split LF raw))
    end.
End Tuned.

(** ** Loading *)

Section Load.
Context (parse_address parse_wallet : string -> string + Address).
Context (parse_socket : string -> string + string).
Context (cli_wallets cli_network : string).
Context (env : Env).

(** [env::var(name).unwrap_or_else(|_| def).parse()?]: not trimmed. *)
Definition number {A} (parse : string -> option A) (name def : string) : Res A :=
  let text := default def (env name) in parsed (parse text) text.

Definition required_env (name : string) : Res string :=
  match env name with
  | None => err (NotPresent name)
  | Some value => if is_placeholder (trim value) then err (NotConfigured name) else mret (trim value)
  end.
Definition parse_optional_address_env (name : string) (tolerate_invalid : bool) : Res (option Address) :=
  match env name with
  | None => mret None
  | Some value =>
      if is_placeholder (trim value) then mret None
      else match parse_address (trim value) with
           | inr address => mret (Some address)
           | inl why => if tolerate_invalid then mret None else err (InvalidAddress name why)
           end
  end.
Definition parse_network_rpc_preference (network base_name : string) : Res RpcPreference :=
  match omap (nonempty env) (prioritized_network_key_names network (network_env_keys base_name)) with
  | [] => mret Auto
  | value :: _ => parse_rpc_preference value
  end.
Definition parse_network_optional_u64 (network : string) (keys : list string) : Res (option u64) :=
  match omap (nonempty env) (prioritized_network_keys network keys) with
  | [] => mret None
  | value :: _ => n ← parsed (parse_u64 value) value; mret (Some n)
  end.

(** *** Lists of endpoints *)

Definition parse_alchemy_keys : list (string * string) :=
  foldl (fun keys idx =>
    match nonempty env ("ALCHEMY_KEY_" +:+ show_nat idx) with
    | Some trimmed =>
        if known_url (snd <$> keys) trimmed then keys
        else (keys ++ [("alchemy-" +:+ show_nat idx, trimmed)])%list
    | None => keys
    end) [] (seq 2 7).

Definition MEMPOOL_KEYS : list string :=
  ["MEMPOOL_WS_URL"; "MEMPOOL_WS_URL_2"; "MEMPOOL_WS_URL_3"; "MEMPOOL_WS_URL_4"; "MEMPOOL_WS_URL_5";
   "MEMPOOL_WS_URL_6"; "MEMPOOL_WS_URL_BSC"; "MEMPOOL_WS_URL_BNB"; "MEMPOOL_WS_URL_POLYGON";
   "MEMPOOL_WS_URL_POLYGON_2"; "MEMPOOL_WS_URL_POLYGON_3"; "MEMPOOL_WS_URL_POLYGON_4";
   "MEMPOOL_WS_URL_POLYGON_5"; "MEMPOOL_WS_URL_POLYGON_6"; "MEMPOOL_WS_URL_POLYGON2";
   "MEMPOOL_WS_URL_POLYGON3"; "MEMPOOL_WS_URL_POLYGON4"; "MEMPOOL_WS_URL_POLYGON5";
   "MEMPOOL_WS_URL_POLYGON6"].
Definition mempool_ws_alchemy_disabled (url : string) : bool :=
  env_flag env "MEMPOOL_WS_DISABLE_DEFAULT_ALCHEMY" && contains (to_lower url) "alchemy.com".
Definition push_ws_item (network : string) (urls : list string) (item : string) : list string :=
  if is_allowed_mempool_ws_url network item && negb (mempool_ws_alchemy_disabled item)
     && negb (known_url urls item)
  then (urls ++ [item])%list else urls.
Definition values_of (keys : list string) : list string := keys ≫= (fun key => default [] (items <$> env key)).
Definition parse_mempool_ws_urls (network : string) (tenderly_rpc_only : bool)
    (alchemy_keys : list (string * string)) : list string :=
  let urls := foldl (push_ws_item network) [] (values_of (prioritized_network_keys network MEMPOOL_KEYS)) in
  if bool_decide (urls = []) && negb tenderly_rpc_only && supports_default_alchemy_mempool_ws network
     && negb (env_flag env "MEMPOOL_WS_DISABLE_DEFAULT_ALCHEMY")
  then omap (fun k => alchemy_ws_url_for_network network k.2) alchemy_keys
  else urls.

(** The label and the number of endpoints of that label so far. *)
Definition push_labelled (label : string -> string) (name : string -> string -> string)
    (urls : list (string * string)) (item : string) : list (string * string) :=
  if known_url (snd <$> urls) item then urls
  else
    let label := label item in
    let label_index := S (length (filter (fun u => starts_with u.1 label) urls)) in
    (urls ++ [(name label (show_nat label_index), item)])%list.
Definition effective_label (label item : string) : string :=
  if string_eqb label "rpc" && looks_like_getblock_url item then "getblock" else label.
Definition push_rpc_url_entries (network label : string) (keys : list string) (urls : list (string * string))
  : list (string * string) :=
  foldl (push_labelled (effective_label label) (fun label index => label +:+ "-" +:+ index)) urls
    (values_of (prioritized_network_keys network keys)).
Definition push_polygon_getblock_bnb_alias (network : string) (urls : list (string * string))
  : list (string * string) :=
  if negb (string_eqb network "polygon") || negb (env_flag env "GETBLOCK_BNB_FOR_POLYGON") then urls
  else foldl (push_labelled (fun _ => "getblock") (fun _ index => "getblock-polygon-bnb-alias-" +:+ index)) urls
         (values_of ["GETBLOCK_BNB"; "GETBLOCK_BSC"; "GETBLOCK_RPC_URL_BNB"; "GETBLOCK_RPC_URL_BSC"]).
Definition RPC_KEYS : list string :=
  ["RPC_URL"; "RPC_URL_2"; "RPC_URL_3"; "RPC_URL_4"; "RPC_URL_BSC"; "RPC_URL_BNB"; "RPC_URL_POLYGON";
   "RPC_URL_POLYGON_2"; "RPC_URL_POLYGON_3"; "RPC_URL_POLYGON_4"; "RPC_URL_POLYGON_5"; "RPC_URL_POLYGON_6";
   "RPC_URL_ETHEREUM"; "RPC_URL_ARBITRUM"].
Definition GETBLOCK_KEYS : list string :=
  ["GETBLOCK_RPC_URL"; "GETBLOCK_RPC_URL_2"; "GETBLOCK_RPC_URL_3"; "GETBLOCK_RPC_URL_BSC";
   "GETBLOCK_RPC_URL_BNB"; "GETBLOCK_RPC_URL_POLYGON"; "GETBLOCK_RPC_URL_POLYGON_2";
   "GETBLOCK_RPC_URL_POLYGON_3"; "GETBLOCK_RPC_URL_POLYGON_4"; "GETBLOCK_RPC_URL_POLYGON_5";
   "GETBLOCK_RPC_URL_POLYGON_6"; "GETBLOCK_RPC_URL_ETHEREUM"; "GETBLOCK_RPC_URL_ARBITRUM";
   "GETBLOCK_BSC"; "GETBLOCK_BNB"; "GETBLOCK_POLYGON"; "GETBLOCK_POLYGON_2"; "GETBLOCK_POLYGON_3";
   "GETBLOCK_POLYGON_4"; "GETBLOCK_POLYGON_5"; "GETBLOCK_POLYGON_6"; "GETBLOCK_ETHEREUM";
   "GETBLOCK_ARBITRUM"].
Definition parse_rpc_urls (network : string) : list (string * string) :=
  let urls := push_rpc_url_entries network "rpc" RPC_KEYS [] in
  let urls := push_rpc_url_entries network "getblock" GETBLOCK_KEYS urls in
  push_polygon_getblock_bnb_alias network urls.
Definition parse_builder_relays (primary : string) : list string :=
  let primary := trim primary in
  let relays := if string_eqb primary "" then [] else [primary] in
  foldl (fun relays relay => if known_url relays relay then relays else (relays ++ [relay])%list) relays
    (values_of ["BUILDER_RELAYS"]).
Definition parse_infura_ids : list string :=
  omap (fun idx => nonempty env ("INFURA_ID_" +:+ show_nat idx)) (seq 1 10).

(** *** Tokens *)

Definition parse_token_entry (env_name entry : string) : Res MonitoredTokenConfig :=
  match match trim <$> split ":" entry with
        | [address; decimals; price_eth] => Some (address, decimals, price_eth)
        | [_; address; decimals; price_eth] => Some (address, decimals, price_eth)
        | [_; _; address; decimals; price_eth] => Some (address, decimals, price_eth)
        | _ => None
        end with
  | None => err (InvalidTokenEntry env_name entry)
  | Some (address, decimals, price_eth) =>
      match parse_address address with
      | inl why => err (InvalidTokenAddress env_name address why)
      | inr address =>
          decimals ← parsed (parse_u8 decimals) decimals;
          price_eth ← parsed (parse_f64 price_eth) price_eth;
          mret {| mt_address := address; mt_decimals := decimals; mt_price_eth := price_eth |}
      end
  end.
Fixpoint parse_token_entries (env_name : string) (entries : list string) : Res (list MonitoredTokenConfig) :=
  match entries with
  | [] => mret []
  | entry :: entries =>
      let trimmed := trim entry in
      if string_eqb trimmed "" then parse_token_entries env_name entries
      else
        token ← parse_token_entry env_name trimmed;
        tokens ← parse_token_entries env_name entries;
        mret (token :: tokens)
  end.
Definition tokens_env_name (network : string) : option string :=
  if string_eqb network "arbitrum" then Some "MONITORED_TOKENS_ARBITRUM"
  else if string_eqb network "bsc" then Some "MONITORED_TOKENS_BSC"
  else if string_eqb network "polygon" then Some "MONITORED_TOKENS_POLYGON"
  else if string_eqb network "ethereum" then Some "MONITORED_TOKENS_ETHEREUM"
  else None.
Definition parse_monitored_tokens (network : string) : Res (list MonitoredTokenConfig) :=
  match tokens_env_name network with
  | None => mret []
  | Some env_name =>
      let raw := default "" (env env_name) in
      let raw := if string_eqb (trim raw) "" then default_monitored_tokens network else raw in
      if string_eqb (trim raw) "" then mret [] else parse_token_entries env_name (split "," raw)
  end.

(** *** The configuration *)

Definition LOAD_TEST_KEY : string := "0000000000000000000000000000000000000000000000000000000000000001".
(** A key that is not a placeholder. *)
Definition configured_key (name : string) : option string :=
  value ← env name; let value := trim value in if is_placeholder value then None else Some value.
Definition or_key (a b : option string) : option string := match a with Some _ => a | None => b end.
Definition private_key_candidate (runtime_load_test_mode : bool) : Res string :=
  match or_key (configured_key "EXECUTOR_PRIVATE_KEY")
          (or_key (configured_key "SENDER_PRIVATE_KEY")
             (or_key (configured_key "CONTROL_PRIVATE_KEY")
                (if runtime_load_test_mode then Some LOAD_TEST_KEY else None))) with
  | Some key => mret key
  | None => err NoPrivateKey
  end.
Definition executor_key (runtime_load_test_mode : bool) : Res (string * Address) :=
  candidate ← private_key_candidate runtime_load_test_mode;
  let key := if runtime_load_test_mode && match parse_wallet candidate with inl _ => true | inr _ => false end
             then LOAD_TEST_KEY else candidate in
  match parse_wallet key with
  | inl why => err (InvalidKey why)
  | inr address => mret (key, address)
  end.
Definition control_address_of (runtime_load_test_mode : bool) (executor_address : Address) : Res Address :=
  match env "CONTROL_ADDRESS" with
  | Some value =>
      match parse_address (trim value) with
      | inr address => mret address
      | inl why => if runtime_load_test_mode then mret executor_address
                   else err (InvalidAddress "CONTROL_ADDRESS" why)
      end
  | None => mret executor_address
  end.

(** The numbers of the opportunity engine, each with its default. *)
Definition f64_of (name def : string) : Res f64 := number parse_f64 name def.
Definition u64_of (name def : string) : Res u64 := number parse_u64 name def.

Definition GAS_PRICE_KEYS : list string :=
  ["MEV_MAX_GAS_PRICE_GWEI"; "MEV_MAX_GAS_PRICE_GWEI_BSC"; "MEV_MAX_GAS_PRICE_GWEI_BNB";
   "MEV_MAX_GAS_PRICE_GWEI_POLYGON"].
Definition load_thresholds : Res OpportunityThresholds :=
  min_net_profit_eth ← f64_of "MEV_MIN_NET_PROFIT_ETH" "0.0025";
  min_large_swap_eth ← f64_of "MEV_MIN_LARGE_SWAP_ETH" "25.0";
  min_profit_usd ← f64_of "MEV_MIN_PROFIT_USD" "2.0";
  min_liquidity_eth ← f64_of "MEV_MIN_LIQUIDITY_ETH" "25.0";
  mret {| th_min_large_swap_eth := min_large_swap_eth; th_min_net_profit_eth := min_net_profit_eth;
          th_min_profit_usd := min_profit_usd; th_min_liquidity_eth := min_liquidity_eth |}.

Definition load_mev (network : string) (runtime_load_test_mode : bool) (th : OpportunityThresholds)
  : Res MevConfig :=
  mode ← parse_opportunity_mode (default "conservative" (env "MEV_OPPORTUNITY_MODE"));
  capital_eth ← f64_of "MEV_CAPITAL_ETH" "0.05";
  capital_window_secs ← u64_of "MEV_CAPITAL_WINDOW_SECS" "90";
  max_window_exposure_eth ← f64_of "MEV_MAX_WINDOW_EXPOSURE_ETH" "0.15";
  max_cluster_window_exposure_eth ← f64_of "MEV_MAX_CLUSTER_WINDOW_EXPOSURE_ETH" "0.08";
  max_pair_window_exposure_eth ← f64_of "MEV_MAX_PAIR_WINDOW_EXPOSURE_ETH" "0.10";
  min_roi_bps ← u64_of "MEV_MIN_ROI_BPS" "1500";
  gas_safety_margin_bps ← u64_of "MEV_GAS_SAFETY_MARGIN_BPS" "12500";
  max_pending_age_ms ← u64_of "MEV_MAX_PENDING_AGE_MS" "1500";
  max_gas_per_tx ← u64_of "MEV_MAX_GAS_PER_TX" "260000";
  max_gas_price_gwei ← parse_network_optional_u64 network GAS_PRICE_KEYS;
  max_price_impact_bps ← u64_of "MEV_MAX_PRICE_IMPACT_BPS" "250";
  slippage_protection_bps ← u64_of "MEV_SLIPPAGE_PROTECTION_BPS" "50";
  eth_usd_price ← f64_of "MEV_ETH_USD_PRICE" "3200.0";
  latency_trace_warn_us ← u64_of "MEV_LATENCY_TRACE_WARN_US" "5000";
  pool_state_cache_ttl_ms ← u64_of "MEV_POOL_STATE_CACHE_TTL_MS" "120";
  executor_min_buffer_eth ← f64_of "MEV_EXECUTOR_MIN_BUFFER_ETH" "0.20";
  executor_target_buffer_eth ← f64_of "MEV_EXECUTOR_TARGET_BUFFER_ETH" "0.50";
  executor_max_buffer_eth ← f64_of "MEV_EXECUTOR_MAX_BUFFER_ETH" "1.00";
  relay_fanout_count ← number parse_usize "MEV_RELAY_FANOUT_COUNT" "3";
  rpc_fanout_count ← number parse_usize "MEV_RPC_FANOUT_COUNT" "2";
  gas_overpay_base_extra_bps ← u64_of "MEV_GAS_OVERPAY_BASE_EXTRA_BPS" "500";
  gas_overpay_miss_extra_bps ← u64_of "MEV_GAS_OVERPAY_MISS_EXTRA_BPS" "2500";
  gas_overpay_revert_extra_bps ← u64_of "MEV_GAS_OVERPAY_REVERT_EXTRA_BPS" "1200";
  gas_overpay_submit_failure_extra_bps ← u64_of "MEV_GAS_OVERPAY_SUBMIT_FAILURE_EXTRA_BPS" "1500";
  gas_overpay_max_extra_bps ← u64_of "MEV_GAS_OVERPAY_MAX_EXTRA_BPS" "5000";
  finality_confirmations ← u64_of "MEV_FINALITY_CONFIRMATIONS"
    (show_Z (default_finality_confirmations network));
  stop_loss_consecutive_losses ← number parse_u32 "MEV_STOP_LOSS_CONSECUTIVE_LOSSES" "3";
  stop_loss_freeze_secs ← u64_of "MEV_STOP_LOSS_FREEZE_SECS" "300";
  context_stop_loss_consecutive_losses ← number parse_u32 "MEV_CONTEXT_STOP_LOSS_CONSECUTIVE_LOSSES" "2";
  context_stop_loss_freeze_secs ← u64_of "MEV_CONTEXT_STOP_LOSS_FREEZE_SECS" "180";
  capital_multiplier_aggressive ← f64_of "MEV_CAPITAL_MULTIPLIER_AGGRESSIVE" "2.0";
  capital_multiplier_neutral ← f64_of "MEV_CAPITAL_MULTIPLIER_NEUTRAL" "1.0";
  capital_multiplier_defensive ← f64_of "MEV_CAPITAL_MULTIPLIER_DEFENSIVE" "0.3";
  capital_multiplier_priority_threshold ← f64_of "MEV_CAPITAL_MULTIPLIER_PRIORITY_THRESHOLD" "0.60";
  capital_multiplier_toxicity_threshold ← f64_of "MEV_CAPITAL_MULTIPLIER_TOXICITY_THRESHOLD" "0.65";
  uniswap_v2_factory ← parse_optional_address_env "MEV_UNISWAP_V2_FACTORY" runtime_load_test_mode;
  uniswap_v3_factory ← parse_optional_address_env "MEV_UNISWAP_V3_FACTORY" runtime_load_test_mode;
  mev_executor ← parse_optional_address_env "MEV_EXECUTOR_ADDRESS" runtime_load_test_mode;
  mev_executor_v3 ← parse_optional_address_env "MEV_EXECUTOR_V3_ADDRESS" runtime_load_test_mode;
  mret
    {| enabled := env_flag env "MEV_ENGINE_ENABLED"; opportunity_mode_lock := Some mode;
       runtime_thresholds_lock := Some th; capital_eth := capital_eth;
       capital_window_secs := capital_window_secs; max_window_exposure_eth := max_window_exposure_eth;
       max_cluster_window_exposure_eth := max_cluster_window_exposure_eth;
       max_pair_window_exposure_eth := max_pair_window_exposure_eth;
       min_net_profit_eth := th_min_net_profit_eth th; min_roi_bps := min_roi_bps;
       min_large_swap_eth := th_min_large_swap_eth th; gas_safety_margin_bps := gas_safety_margin_bps;
       max_pending_age_ms := max_pending_age_ms; max_gas_per_tx := max_gas_per_tx;
       max_gas_price_gwei := max_gas_price_gwei; max_price_impact_bps := max_price_impact_bps;
       slippage_protection_bps := slippage_protection_bps; min_profit_usd := th_min_profit_usd th;
       eth_usd_price := eth_usd_price; min_liquidity_eth := th_min_liquidity_eth th;
       latency_trace := env_flag env "MEV_LATENCY_TRACE"; latency_trace_warn_us := latency_trace_warn_us;
       pool_state_cache_ttl_ms := pool_state_cache_ttl_ms;
       executor_min_buffer_eth := executor_min_buffer_eth;
       executor_target_buffer_eth := executor_target_buffer_eth;
       executor_max_buffer_eth := executor_max_buffer_eth;
       relay_fanout_count := Nat.max relay_fanout_count 1; rpc_fanout_count := Nat.max rpc_fanout_count 1;
       gas_overpay_base_extra_bps := gas_overpay_base_extra_bps;
       gas_overpay_miss_extra_bps := gas_overpay_miss_extra_bps;
       gas_overpay_revert_extra_bps := gas_overpay_revert_extra_bps;
       gas_overpay_submit_failure_extra_bps := gas_overpay_submit_failure_extra_bps;
       gas_overpay_max_extra_bps := gas_overpay_max_extra_bps;
       finality_confirmations := finality_confirmations;
       stop_loss_consecutive_losses := Z.max stop_loss_consecutive_losses 1;
       stop_loss_freeze_secs := stop_loss_freeze_secs;
       context_stop_loss_consecutive_losses := Z.max context_stop_loss_consecutive_losses 1;
       context_stop_loss_freeze_secs := context_stop_loss_freeze_secs;
       capital_multiplier_aggressive := capital_multiplier_aggressive;
       capital_multiplier_neutral := capital_multiplier_neutral;
       capital_multiplier_defensive := capital_multiplier_defensive;
       capital_multiplier_priority_threshold := capital_multiplier_priority_threshold;
       capital_multiplier_toxicity_threshold := capital_multiplier_toxicity_threshold;
       uniswap_v2_factory := uniswap_v2_factory; uniswap_v3_factory := uniswap_v3_factory;
       mev_executor := mev_executor; mev_executor_v3 := mev_executor_v3 |}.

Definition load_network : string :=
  match nonempty env "NETWORK" with Some network => to_lower network | None => to_lower cli_network end.
Definition load_flashbots_relay (network : string) : Res string :=
  if string_eqb network "ethereum" then required_env "FLASHBOTS_RELAY"
  else mret (trim (default "" (env "FLASHBOTS_RELAY"))).
Definition load_chain_id (network : string) : u64 :=
  match value ← env "CHAIN_ID"; parse_u64 (trim value) with
  | Some chain_id => chain_id
  | None => default_chain_id network
  end.
(** Both addresses are read even when the first is there. *)
Definition load_profit_address (runtime_load_test_mode : bool) : Res (option Address) :=
  profit ← parse_optional_address_env "PROFIT_ADDRESS" runtime_load_test_mode;
  recipient ← parse_optional_address_env "MEV_SEARCHER_RECIPIENT" runtime_load_test_mode;
  mret match profit with Some _ => profit | None => recipient end.
Definition load_exec_gas : Res u64 :=
  match env "ESTIMATED_EXEC_GAS" with
  | Some value => parsed (parse_u64 (trim value)) (trim value)
  | None => mret 250000
  end.
Definition load_dashboard_addr : Res string :=
  match parse_socket match env "PORT" with
                     | Some port => "0.0.0.0:" +:+ port
                     | None => default "127.0.0.1:8787" (env "DASHBOARD_ADDR")
                     end with
  | inr addr => mret addr
  | inl why => err (InvalidSocket why)
  end.

Definition load_from_env : Res Config :=
  let network := load_network in
  let runtime_load_test_mode := env_flag env "RUN_RUNTIME_LOAD_TEST" in
  let tenderly_rpc_only := env_flag env "USE_TENDERLY_RPC_ONLY" in
  let alchemy_keys := parse_alchemy_keys in
  flashbots_relay ← load_flashbots_relay network;
  executor ← executor_key runtime_load_test_mode;
  let '(executor_private_key, executor_address) := (executor : string * Address) in
  control_address ← control_address_of runtime_load_test_mode executor_address;
  vault_address ← parse_optional_address_env "VAULT_ADDRESS" runtime_load_test_mode;
  profit_address ← load_profit_address runtime_load_test_mode;
  monitored_tokens ← parse_monitored_tokens network;
  estimated_exec_gas ← load_exec_gas;
  estimated_bundle_overhead_gas ← u64_of "ESTIMATED_BUNDLE_OVERHEAD_GAS" "25000";
  max_infura_endpoints ← number parse_usize "MAX_INFURA_ENDPOINTS"
    (if string_eqb network "polygon" then "0" else "2");
  rpc_read_preference ← parse_network_rpc_preference network "RPC_READ_PREFERENCE";
  rpc_send_preference ← parse_network_rpc_preference network "RPC_SEND_PREFERENCE";
  dashboard_addr ← load_dashboard_addr;
  thresholds ← load_thresholds;
  mev ← load_mev network runtime_load_test_mode thresholds;
  mret
    {| wallets := cli_wallets; network := network; chain_id := load_chain_id network;
       allow_send := env_flag env "ALLOW_SEND"; tenderly_rpc_only := tenderly_rpc_only;
       alchemy_keys := alchemy_keys; infura_ids := parse_infura_ids; flashbots_relay := flashbots_relay;
       builder_relays := parse_builder_relays flashbots_relay; executor_private_key := executor_private_key;
       executor_address := executor_address; vault_address := default control_address vault_address;
       profit_address := default control_address profit_address; control_address := control_address;
       monitored_tokens := monitored_tokens; estimated_exec_gas := estimated_exec_gas;
       estimated_bundle_overhead_gas := estimated_bundle_overhead_gas;
       max_infura_endpoints := max_infura_endpoints; rpc_read_preference := rpc_read_preference;
       rpc_send_preference := rpc_send_preference;
       storage_path := default "bot_state.sqlite" (env "STORAGE_PATH"); dashboard_addr := dashboard_addr;
       explicit_rpc_urls := parse_rpc_urls network;
       mempool_ws_urls := parse_mempool_ws_urls network tenderly_rpc_only alchemy_keys; mev := mev |}.

(** *** Endpoints of a configuration *)

Definition fork_rpc_url (self : Config) : option string :=
  let n := network self in
  key ← (if string_eqb n "ethereum" then Some "TENDERLY_FORK_URL_ETHEREUM"
         else if string_eqb n "arbitrum" then Some "TENDERLY_FORK_URL_ARBITRUM"
         else if string_eqb n "bsc" then Some "TENDERLY_FORK_URL_BNB"
         else if string_eqb n "polygon" then Some "TENDERLY_FORK_URL_POLYGON"
         else None);
  nonempty env key.
(** The first variable that is set wins, and then lists providers or none. *)
Definition rpc_provider_filter (network : string) : option (list string) :=
  let keys := (network_env_keys "RPC_PROVIDER_FILTER" ++ network_env_keys "RPC_ENABLED_PROVIDERS")%list in
  match omap (nonempty env) (prioritized_network_key_names network keys) with
  | [] => None
  | raw :: _ =>
      let providers := filter (fun v => negb (one_of v [""; "auto"; "all"]))
                         ((fun v => to_lower (trim v)) <$> split "," raw) in
      if bool_decide (providers = []) then None else Some providers
  end.
Definition rpc_urls (self : Config) : list (string * string) :=
  if tenderly_rpc_only self then
    match fork_rpc_url self with Some url => [("tenderly-" +:+ network self, url)] | None => [] end
  else
    let alchemy := omap (fun k => (fun url => (k.1, url)) <$> alchemy_url_for_network (network self) k.2)
                     (alchemy_keys self) in
    let infura := omap (fun p => (fun url => ("infura-" +:+ show_nat (S p.1), url))
                                   <$> infura_url_for_network (network self) p.2)
                    (imap pair (take (max_infura_endpoints self) (infura_ids self))) in
    let urls := (explicit_rpc_urls self ++ alchemy ++ infura)%list in
    let urls := match rpc_provider_filter (network self) with
                | Some providers => filter (fun u => rpc_name_matches_filter u.1 providers) urls
                | None => urls
                end in
    filter (fun u => rpc_name_allowed_for_network (network self) u.1) urls.
Definition mempool_ws_urls_of (self : Config) : list string :=
  if tenderly_rpc_only self then mempool_ws_urls self
  else if negb (bool_decide (mempool_ws_urls self = [])) then mempool_ws_urls self
  else if negb (supports_default_alchemy_mempool_ws (network self)) then []
  else if env_flag env "MEMPOOL_WS_DISABLE_DEFAULT_ALCHEMY" then []
  else omap (fun k => alchemy_ws_url_for_network (network self) k.2) (alchemy_keys self).
End Load.

(** [Config::load], the environment it leaves included. *)
Definition load (read_file : string -> option (string + string))
    (parse_address parse_wallet : string -> string + Address) (parse_socket : string -> string + string)
    (cli_wallets cli_network : string) (env : Env) : Env * Res Config :=
  match apply_replay_tuned_runtime_env read_file env with
  | inl e => (env, inl e)
  | inr env =>
      (env, load_from_env parse_address parse_wallet parse_socket cli_wallets cli_network env)
  end.
