(* ===== verification/ConfigFacts.v ===== *)
(** * What a configuration read from the environment satisfies

    The ranges of its numbers, the names of its endpoints, and which variables a
    network reads. *)
From S2P Require Import Prelude F64 Text Ethers Config ConfigEnv.
#[local] Open Scope string_scope.
#[local] Open Scope Z_scope.

(** ** Results *)

Lemma res_bind {A B} (m : Res A) (f : A -> Res B) b :
  m ≫= f = inr b <-> exists a, m = inr a /\ f a = inr b.
Proof.
  unfold mbind, Res_bind. destruct m as [e|a].
  - split; [done|by intros (? & ? & _)].
  - split; [by exists a|by intros (? & [= ->] & ?)].
Qed.
Ltac invert_res H :=
  repeat match type of H with
    | (_ ≫= _) = inr _ => let a := fresh "a" in let E := fresh "E" in apply res_bind in H as (a & E & H)
    | mret _ = inr _ => injection H as H
    end.

Lemma parsed_inr {A} (o : option A) text a : parsed o text = inr a -> o = Some a.
Proof. unfold parsed; destruct o; [by intros [= ->]|done]. Qed.

(** ** Numbers *)

Lemma digit_nonneg c d : digit c = Some d -> 0 <= d.
Proof. unfold digit; case_match; [intros [= <-]; lia|done]. Qed.
Lemma digits_nonneg s acc n : 0 <= acc -> digits_acc s acc = Some n -> 0 <= n.
Proof.
  revert acc; induction s as [|c s IH]; simpl; intros acc A H; [by injection H as <-|].
  destruct (digit c) as [d|] eqn:D; [|done]. apply digit_nonneg in D. eapply IH; [|exact H]. lia.
Qed.
Lemma parse_uint_range mx s n : parse_uint mx s = Some n -> 0 <= n <= mx.
Proof.
  unfold parse_uint; intros H. destruct (all_digits _) as [k|] eqn:D; [|done]. simpl in H.
  destruct (k <=? mx)%Z eqn:L; [|done]. injection H as <-. split; [|lia].
  unfold all_digits in D. case_match; [done|]. by eapply digits_nonneg in D.
Qed.

Section Load.
Context (parse_address parse_wallet : string -> string + Address).
Context (parse_socket : string -> string + string).
Context (cli_wallets cli_network : string) (env : Env).

Lemma u64_of_range name def n : u64_of env name def = inr n -> 0 <= n <= U64_MAX.
Proof. unfold u64_of, number; intros H. apply parsed_inr in H. by apply parse_uint_range in H. Qed.
Lemma u32_range name def n : number env parse_u32 name def = inr n -> 0 <= n <= U32_MAX.
Proof. unfold number; intros H. apply parsed_inr in H. by apply parse_uint_range in H. Qed.
Lemma optional_u64_range network keys o n :
  parse_network_optional_u64 env network keys = inr o -> o = Some n -> 0 <= n <= U64_MAX.
Proof.
  unfold parse_network_optional_u64; intros H ->. destruct (omap _ _); [done|]. invert_res H.
  apply parsed_inr in E. subst. by apply parse_uint_range in E.
Qed.

(** What a loaded engine configuration takes from its environment, and the ranges it
    is in. *)
Record mev_wf (m : MevConfig) : Prop := {
  wf_mode : exists mode, opportunity_mode_lock m = Some mode /\
    parse_opportunity_mode (default "conservative" (env "MEV_OPPORTUNITY_MODE")) = inr mode;
  wf_thresholds : exists th, runtime_thresholds_lock m = Some th /\ load_thresholds env = inr th /\
    th = {| th_min_large_swap_eth := min_large_swap_eth m; th_min_net_profit_eth := min_net_profit_eth m;
            th_min_profit_usd := min_profit_usd m; th_min_liquidity_eth := min_liquidity_eth m |};
  wf_u64s : Forall (fun n => 0 <= n <= U64_MAX)
    [capital_window_secs m; min_roi_bps m; gas_safety_margin_bps m; max_pending_age_ms m; max_gas_per_tx m;
     max_price_impact_bps m; slippage_protection_bps m; latency_trace_warn_us m; pool_state_cache_ttl_ms m;
     gas_overpay_base_extra_bps m; gas_overpay_miss_extra_bps m; gas_overpay_revert_extra_bps m;
     gas_overpay_submit_failure_extra_bps m; gas_overpay_max_extra_bps m; finality_confirmations m;
     stop_loss_freeze_secs m; context_stop_loss_freeze_secs m];
  wf_cap : forall cap, max_gas_price_gwei m = Some cap -> 0 <= cap <= U64_MAX;
  wf_fanouts : (1 <= relay_fanout_count m)%nat /\ (1 <= rpc_fanout_count m)%nat;
  wf_losses : 1 <= stop_loss_consecutive_losses m <= U32_MAX /\
              1 <= context_stop_loss_consecutive_losses m <= U32_MAX }.

Lemma load_mev_wf network test th m :
  load_thresholds env = inr th -> load_mev parse_address env network test th = inr m -> mev_wf m.
Proof.
  intros T. unfold load_mev; intros H. invert_res H. subst m.
  repeat match goal with
  | E : u64_of _ _ _ = inr _ |- _ => apply u64_of_range in E
  | E : number _ parse_u32 _ _ = inr _ |- _ => apply u32_range in E
  end.
  split; simpl; try done.
  - by eexists.
  - exists th. split_and!; [done|done|by destruct th].
  - repeat constructor; lia.
  - intros cap ->. eapply optional_u64_range; [eassumption|done].
  - lia.
  - unfold U32_MAX in *. lia.
Qed.

(** ** The tokens *)

Lemma token_entry_decimals name entry t :
  parse_token_entry parse_address name entry = inr t -> 0 <= mt_decimals t <= 255.
Proof.
  unfold parse_token_entry; intros H. match type of H with match ?o with _ => _ end = _ => destruct o as [[[a d] p]|] end; [|done].
  destruct (parse_address a); [done|]. invert_res H. subst t. simpl. apply parsed_inr in E.
  by apply parse_uint_range in E.
Qed.
Lemma token_entries_decimals name entries ts :
  parse_token_entries parse_address name entries = inr ts -> Forall (fun t => 0 <= mt_decimals t <= 255) ts.
Proof.
  revert ts; induction entries as [|e entries IH]; intros ts H; simpl in H; [by injection H as <-|].
  destruct (string_eqb _ _); [by apply IH|]. invert_res H. subst ts. constructor; [|by apply IH].
  by eapply token_entry_decimals.
Qed.
Lemma monitored_tokens_decimals network ts :
  parse_monitored_tokens parse_address env network = inr ts -> Forall (fun t => 0 <= mt_decimals t <= 255) ts.
Proof.
  unfold parse_monitored_tokens; intros H. destruct (tokens_env_name network); [|by injection H as <-].
  cbv zeta in H.
  match type of H with context [parse_token_entries _ _ (split _ ?raw)] => set (r := raw) in H end.
  destruct (string_eqb (trim r) ""); [by injection H as <-|by eapply token_entries_decimals].
Qed.
End Load.

(** ** The names of endpoints *)

(** A number is printed with a digit first. *)
Lemma pretty_go_head x s c :
  (forall y, c <> pretty_N_char y) -> (forall t, s <> String c t) -> forall t, pretty_N_go x s <> String c t.
Proof.
  intros N. revert s. induction (N.lt_wf_0 x) as [x _ IH]; intros s S t.
  assert (x = 0 \/ 0 < x)%N as [->|P] by lia; [by rewrite pretty_N_go_0|].
  rewrite pretty_N_go_step by done. apply IH; [by apply N.div_lt|].
  intros t' [= E _]. by destruct (N (x mod 10)%N).
Qed.
Lemma show_nat_head k c t : (forall y, c <> pretty_N_char y) -> show_nat k <> String c t.
Proof.
  intros N. unfold show_nat, pretty, pretty_nat, pretty, pretty_N. case_decide.
  - intros [= E _]. by destruct (N 0%N).
  - by apply pretty_go_head.
Qed.
Lemma letter_no_digit y : "p"%char <> pretty_N_char y.
Proof. unfold pretty_N_char. by repeat case_match. Qed.

Definition with_label (label : string) (urls : list (string * string)) : nat :=
  length (filter (fun u => starts_with u.1 label) urls).
Inductive named (urls : list (string * string)) : string -> Prop :=
| named_rpc k : (1 <= k <= with_label "rpc" urls)%nat -> named urls ("rpc-" +:+ show_nat k)
| named_getblock k : (1 <= k <= with_label "getblock" urls)%nat -> named urls ("getblock-" +:+ show_nat k)
| named_alias k : (1 <= k <= with_label "getblock" urls)%nat ->
    named urls ("getblock-polygon-bnb-alias-" +:+ show_nat k).
Definition names_ok (urls : list (string * string)) : Prop :=
  NoDup urls.*1 /\ Forall (named urls) urls.*1.

Lemma with_label_app label urls u :
  with_label label (urls ++ [u])%list =
    (with_label label urls + if starts_with u.1 label then 1 else 0)%nat.
Proof.
  unfold with_label. rewrite filter_app, length_app. f_equal. simpl.
  unfold filter, list_filter. case_decide as D; case_match; simpl; try done.
Qed.
Lemma named_app urls u name : named urls name -> named (urls ++ [u])%list name.
Proof. destruct 1; constructor; rewrite with_label_app; lia. Qed.
Lemma push_names_ok urls label name item :
  (forall k, with_label label urls = pred k -> (1 <= k)%nat ->
     ~ named urls (name (show_nat k)) /\
     named (urls ++ [(name (show_nat k), item)])%list (name (show_nat k))) ->
  names_ok urls ->
  names_ok (urls ++ [(name (show_nat (S (with_label label urls))), item)])%list.
Proof.
  intros F [D N]. destruct (F (S (with_label label urls)) eq_refl ltac:(lia)) as [F1 F2]. split.
  - rewrite fmap_app. apply NoDup_app. split_and!; [done| |by apply NoDup_singleton].
    intros x I X. apply list_elem_of_singleton in X as ->. rewrite Forall_forall in N. by apply F1, N.
  - rewrite fmap_app. apply Forall_app. split; [|by repeat constructor].
    eapply Forall_impl; [exact N|]. intros x. apply named_app.
Qed.

(** The next number of a label is not in use. *)
Ltac other_name :=
  first [ lia
        | match goal with
          | E : _ = _ |- _ => destruct (show_nat_head _ "p" _ letter_no_digit E)
          | E : _ = _ |- _ => destruct (show_nat_head _ "p" _ letter_no_digit (eq_sym E))
          end ].
Lemma rpc_name_next urls item :
  names_ok urls -> names_ok (urls ++ [("rpc-" +:+ show_nat (S (with_label "rpc" urls)), item)])%list.
Proof.
  apply (push_names_ok urls "rpc" (fun i => "rpc-" +:+ i)). intros k K P. split.
  - intros N; inversion N as [j J E|j J E|j J E]; simplify_eq/=; other_name.
  - apply named_rpc. rewrite with_label_app. simpl. lia.
Qed.
Lemma getblock_name_next urls item :
  names_ok urls -> names_ok (urls ++ [("getblock-" +:+ show_nat (S (with_label "getblock" urls)), item)])%list.
Proof.
  apply (push_names_ok urls "getblock" (fun i => "getblock-" +:+ i)). intros k K P. split.
  - intros N; inversion N as [j J E|j J E|j J E]; simplify_eq/=; other_name.
  - apply named_getblock. rewrite with_label_app. simpl. lia.
Qed.
Lemma alias_name_next urls item :
  names_ok urls ->
  names_ok (urls ++ [("getblock-polygon-bnb-alias-" +:+ show_nat (S (with_label "getblock" urls)), item)])%list.
Proof.
  apply (push_names_ok urls "getblock" (fun i => "getblock-polygon-bnb-alias-" +:+ i)). intros k K P. split.
  - intros N; inversion N as [j J E|j J E|j J E]; simplify_eq/=; other_name.
  - apply named_alias. rewrite with_label_app. simpl. lia.
Qed.

Lemma foldl_keeps {A B} (P : A -> Prop) (f : A -> B -> A) l a :
  (forall a b, P a -> P (f a b)) -> P a -> P (foldl f a l).
Proof. intros F. revert a; induction l as [|b l IH]; simpl; auto. Qed.

Section Names.
Context (env : Env).

Lemma push_entries_ok network label keys urls :
  label = "rpc" \/ label = "getblock" -> names_ok urls ->
  names_ok (push_rpc_url_entries env network label keys urls).
Proof.
  intros L. apply foldl_keeps. intros us item O. unfold push_labelled. destruct (known_url _ _); [done|].
  cbv zeta. assert (effective_label label item = "rpc" \/ effective_label label item = "getblock") as [E|E].
  { unfold effective_label. destruct (_ && _); auto. }
  - rewrite E. by apply rpc_name_next.
  - rewrite E. by apply getblock_name_next.
Qed.
Lemma explicit_names_ok network : names_ok (parse_rpc_urls env network).
Proof.
  unfold parse_rpc_urls, push_polygon_getblock_bnb_alias.
  assert (names_ok (push_rpc_url_entries env network "getblock" GETBLOCK_KEYS
            (push_rpc_url_entries env network "rpc" RPC_KEYS []))) as O.
  { apply push_entries_ok; [auto|]. apply push_entries_ok; [auto|]. split; constructor. }
  destruct (_ || _); [done|]. revert O. apply foldl_keeps. intros us item O. unfold push_labelled.
  destruct (known_url _ _); [done|]. by apply alias_name_next.
Qed.

Lemma alchemy_names : exists idxs, NoDup idxs /\ (parse_alchemy_keys env).*1 = (fun i => "alchemy-" +:+ show_nat i) <$> idxs.
Proof.
  unfold parse_alchemy_keys.
  assert (forall n start keys idxs, NoDup idxs -> Forall (fun i => (i < start)%nat) idxs ->
    keys.*1 = (fun i => "alchemy-" +:+ show_nat i) <$> idxs ->
    exists idxs', NoDup idxs' /\
      (foldl (fun keys idx =>
        match nonempty env ("ALCHEMY_KEY_" +:+ show_nat idx) with
        | Some trimmed =>
            if known_url (snd <$> keys) trimmed then keys
            else (keys ++ [("alchemy-" +:+ show_nat idx, trimmed)])%list
        | None => keys
        end) keys (seq start n)).*1 = (fun i => "alchemy-" +:+ show_nat i) <$> idxs') as G.
  { induction n as [|n IH]; intros start keys idxs D L E; [by exists idxs|].
    assert (Forall (fun i => (i < S start)%nat) idxs) by (eapply Forall_impl; [exact L|]; simpl; lia).
    cbn [seq foldl]. destruct (nonempty _ _) as [v|]; [|by eapply IH].
    destruct (known_url _ _); [by eapply IH|]. apply (IH _ _ (idxs ++ [start])%list).
    - apply NoDup_app. split_and!; [done| |by apply NoDup_singleton].
      intros x X Y. apply list_elem_of_singleton in Y as ->. rewrite Forall_forall in L. apply L in X. lia.
    - apply Forall_app. split; [done|]. constructor; [lia|constructor].
    - by rewrite !fmap_app, E. }
  by apply (G 7%nat 2%nat [] []); [constructor..|].
Qed.
End Names.

Lemma omap_sublist {A B C} (f : A -> option B) (g : B -> C) (h : A -> C) l :
  (forall x y, f x = Some y -> g y = h x) -> (g <$> omap f l) `sublist_of` (h <$> l).
Proof.
  intros K. induction l as [|x l IH]; [constructor|]. simpl. destruct (f x) as [y|] eqn:E; simpl.
  - rewrite (K _ _ E). by constructor.
  - by constructor.
Qed.
Lemma NoDup_filter_fst {A B} (P : A * B -> bool) (l : list (A * B)) :
  NoDup l.*1 -> NoDup (filter P l).*1.
Proof. intros D. eapply sublist_NoDup; [exact D|]. apply fmap_sublist, sublist_filter. Qed.
Lemma imap_pair_fst {A} (l : list A) : (imap pair l).*1 = seq 0 (length l).
Proof.
  apply list_eq; intros i. rewrite list_lookup_fmap, list_lookup_imap.
  destruct (l !! i) as [x|] eqn:E; simpl.
  - apply lookup_lt_Some in E. by rewrite lookup_seq_lt.
  - apply lookup_ge_None in E. by rewrite lookup_seq_ge.
Qed.

(** Explicit endpoints, Alchemy's and Infura's have names of their own. *)
Lemma named_head urls n : named urls n -> exists c t, n = String c t /\ (c = "r" \/ c = "g")%char.
Proof. destruct 1; by eexists _, _; split; [done|auto]. Qed.
Lemma numbered_NoDup p l : NoDup l -> NoDup ((fun i => p +:+ show_nat i) <$> l).
Proof.
  intros D. apply NoDup_fmap; [|done]. intros i j E. apply (inj (String.app p)) in E. by apply (inj pretty) in E.
Qed.
Lemma joined_names_NoDup (explicit alchemy infura : list (string * string)) :
  names_ok explicit ->
  (exists idxs, NoDup idxs /\ alchemy.*1 `sublist_of` ((fun i => "alchemy-" +:+ show_nat i) <$> idxs)) ->
  (exists idxs, NoDup idxs /\ infura.*1 `sublist_of` ((fun i => "infura-" +:+ show_nat i) <$> idxs)) ->
  NoDup (explicit ++ alchemy ++ infura)%list.*1.
Proof.
  intros [D N] (ia & Da & Sa) (ii & Di & Si). rewrite !fmap_app.
  apply (sublist_NoDup (_ ++ _ ++ _)
    (explicit.*1 ++ ((fun i => "alchemy-" +:+ show_nat i) <$> ia) ++
     ((fun i => "infura-" +:+ show_nat i) <$> ii))%list); [|by repeat apply sublist_app].
  rewrite Forall_forall in N. apply NoDup_app. split_and!; [done| |].
  - intros x X. apply N, named_head in X as (c & t & -> & C). intros [Y|Y]%elem_of_app.
    all: apply list_elem_of_fmap in Y as (i & Y & _); injection Y as -> _; by destruct C.
  - apply NoDup_app. split_and!; [by apply numbered_NoDup| |by apply numbered_NoDup].
    intros x (i & -> & _)%list_elem_of_fmap (j & Y & _)%list_elem_of_fmap. by injection Y.
Qed.
