(* ===== verification/ConfigProps.v ===== *)
(** * Properties of the configuration

    What a configuration that loads satisfies, the names of the endpoints it
    stands for, and the variables each network reads. *)
From S2P Require Import Prelude F64 Text Ethers Config ConfigEnv ConfigFacts.
#[local] Open Scope string_scope.
#[local] Open Scope Z_scope.

Section Load.
Context (read_file : string -> option (string + string)).
Context (parse_address parse_wallet : string -> string + Address).
Context (parse_socket : string -> string + string).
Context (cli_wallets cli_network : string).

(** The environment a configuration was read from. *)
Lemma load_inv env env' c :
  load read_file parse_address parse_wallet parse_socket cli_wallets cli_network env = (env', inr c) ->
  load_from_env parse_address parse_wallet parse_socket cli_wallets cli_network env' = inr c.
Proof. unfold load. case_match; [done|]. by intros [= <- ->]. Qed.

Lemma executor_key_inv env test key address :
  executor_key parse_wallet env test = inr (key, address) -> parse_wallet key = inr address.
Proof.
  unfold executor_key; intros H. invert_res H. cbv zeta in H.
  destruct (parse_wallet _) eqn:W in H; [done|]. by injection H as <- <-.
Qed.

(** C28: a configuration that loads is in the ranges of its types: every count and
    amount of basis points, gas, seconds and milliseconds fits 64 bits, fan-outs
    and loss counts are at least one, token decimals fit 8 bits, the lock of the
    mode holds what [MEV_OPPORTUNITY_MODE] names, conservative when it is not set,
    that of the thresholds the four numbers of their variables, which are also those
    of the configuration, the executor's address is that of its key, and profits go to the control address unless told otherwise. *)
Theorem loaded_config_wf env env' c :
  load read_file parse_address parse_wallet parse_socket cli_wallets cli_network env = (env', inr c) ->
  mev_wf env' (mev c) /\ Forall (fun t => 0 <= mt_decimals t <= 255) (monitored_tokens c) /\
  0 <= chain_id c <= U64_MAX /\ 0 <= estimated_exec_gas c <= U64_MAX /\
  0 <= estimated_bundle_overhead_gas c <= U64_MAX /\
  parse_wallet (executor_private_key c) = inr (executor_address c) /\
  (env' "PROFIT_ADDRESS" = None -> env' "MEV_SEARCHER_RECIPIENT" = None ->
     profit_address c = control_address c).
Proof.
  intros H. apply load_inv in H. unfold load_from_env in H. cbv zeta in H. invert_res H.
  destruct a0 as [key address]. invert_res H. subst c. simpl.
  apply executor_key_inv in E0.
  assert (C : 0 <= load_chain_id env' (load_network cli_network env') <= U64_MAX).
  { unfold load_chain_id. destruct (env' "CHAIN_ID") as [v|]; simpl;
      [destruct (parse_u64 (trim v)) as [n|] eqn:N; [exact (parse_uint_range _ _ _ N)|]|].
    all: unfold default_chain_id; repeat case_match; unfold U64_MAX; lia. }
  assert (G : 0 <= a4 <= U64_MAX).
  { unfold load_exec_gas in E5. destruct (env' "ESTIMATED_EXEC_GAS"); [exact (parse_uint_range _ _ _ (parsed_inr _ _ _ E5))|].
    injection E5 as <-. unfold U64_MAX; lia. }
  apply u64_of_range in E6. split; [by eapply load_mev_wf; [eassumption|]|]. split; [by eapply monitored_tokens_decimals|].
  split; [exact C|]. split; [exact G|]. split; [exact E6|]. split; [exact E0|].
  intros P1 P2. unfold load_profit_address, parse_optional_address_env in E3. rewrite P1, P2 in E3.
  by injection E3 as <-.
Qed.

(** The endpoints of a configuration that loads have names of their own, and
    names its network admits. *)
Theorem endpoint_names_distinct env env' c :
  load read_file parse_address parse_wallet parse_socket cli_wallets cli_network env = (env', inr c) ->
  NoDup (rpc_urls env' c).*1 /\
  (tenderly_rpc_only c = false ->
   Forall (fun u => rpc_name_allowed_for_network (network c) u.1 = true) (rpc_urls env' c)).
Proof.
  intros H. apply load_inv in H. unfold load_from_env in H. cbv zeta in H. invert_res H.
  destruct a0 as [key address]. invert_res H.
  assert (X : explicit_rpc_urls c = parse_rpc_urls env' (network c)) by by subst.
  assert (A : alchemy_keys c = parse_alchemy_keys env') by by subst. clear H E0 E1 E2 E3 E4 E5 E6 E7 E8 E9 E10 E11 E12.
  split.
  - unfold rpc_urls. destruct (tenderly_rpc_only c); [case_match; repeat constructor; set_solver|].
    apply NoDup_filter_fst.
    match goal with |- context [(explicit_rpc_urls c ++ ?al ++ ?inf)%list] =>
      assert (D : NoDup (explicit_rpc_urls c ++ al ++ inf)%list.*1) end.
    { apply joined_names_NoDup; [rewrite X; apply explicit_names_ok| |].
      - destruct (alchemy_names env') as (idxs & Di & Ei). exists idxs. split; [done|]. rewrite <- Ei, <- A.
        apply omap_sublist. intros k u U. destruct (alchemy_url_for_network _ _); [|done]. by injection U as <-.
      - set (l := take _ _). exists (S <$> seq 0 (length l)). split.
        + apply NoDup_fmap; [apply _|apply NoDup_seq].
        + rewrite <- list_fmap_compose, <- (imap_pair_fst l), <- list_fmap_compose. apply omap_sublist.
          intros k u U. destruct (infura_url_for_network _ _); [|done]. by injection U as <-. }
    case_match; [by apply NoDup_filter_fst|done].
  - intros T. unfold rpc_urls. rewrite T. apply Forall_forall. intros u U.
    apply list_elem_of_filter in U as [U _]. by destruct (rpc_name_allowed_for_network _ _).
Qed.
End Load.

(** ** Variables by network *)

Lemma push_keys_spec test keys acc :
  NoDup acc ->
  exists new, push_keys test keys acc = (acc ++ new)%list /\ NoDup (acc ++ new)%list /\
    (forall k, k ∈ new -> test k = true) /\ (forall k, k ∈ new -> k ∈ keys) /\
    (forall k, k ∈ keys -> test k = true -> k ∈ (acc ++ new)%list).
Proof.
  unfold push_keys. revert acc; induction keys as [|key keys IH]; intros acc D; simpl.
  { exists []. rewrite app_nil_r. split_and!; set_solver. }
  destruct (test key && negb (bool_decide (key ∈ acc))) eqn:T.
  - apply andb_true_iff in T as [T N]. apply negb_true_iff, bool_decide_eq_false in N.
    destruct (IH (acc ++ [key])%list) as (new & E & D' & A & B & C).
    { apply NoDup_app. split_and!; [done|set_solver|by apply NoDup_singleton]. }
    exists (key :: new). rewrite E. rewrite <- app_assoc in D', C |- *.
    split_and!; [done|done|set_solver|set_solver|]. intros k [->|K]%elem_of_cons Tk; [set_solver|by apply C].
  - destruct (IH acc D) as (new & E & D' & A & B & C). exists new.
    split_and!; [done|done|done|set_solver|]. intros k [->|K]%elem_of_cons Tk; [|by apply C].
    rewrite Tk in T. apply negb_false_iff, bool_decide_eq_true in T. set_solver.
Qed.

Lemma push_suffixes_spec (own : string -> string -> bool) suffixes keys acc :
  NoDup acc ->
  exists new, foldl (fun acc suffix => push_keys (fun key => own key suffix) keys acc) acc suffixes
                = (acc ++ new)%list /\ NoDup (acc ++ new)%list /\
    (forall k, k ∈ new -> k ∈ keys /\ existsb (own k) suffixes = true) /\
    (forall k, k ∈ keys -> existsb (own k) suffixes = true -> k ∈ (acc ++ new)%list).
Proof.
  revert acc; induction suffixes as [|suffix suffixes IH]; intros acc D; simpl.
  { exists []. rewrite app_nil_r. split_and!; set_solver. }
  destruct (push_keys_spec (fun key => own key suffix) keys acc D) as (n1 & E1 & D1 & T1 & K1 & C1).
  rewrite E1. destruct (IH _ D1) as (n2 & E2 & D2 & K2 & C2). exists (n1 ++ n2)%list.
  rewrite E2, <- app_assoc. rewrite <- app_assoc in D2, C2. split_and!; [done|done| |].
  - intros k [K|K]%elem_of_app; [by rewrite (T1 _ K); auto|]. destruct (K2 _ K) as [? ->].
    by rewrite orb_true_r.
  - intros k K [T|T]%orb_true_iff; [|by apply C2]. specialize (C1 _ K T). set_solver.
Qed.

(** Of a list of variables a network reads, each at most once and first, those
    that carry one of its suffixes, and then those of no network; never one of
    another network alone. *)
Theorem network_variables_spec (own : string -> string -> bool) network keys :
  exists mine common, prioritized_by own network keys = (mine ++ common)%list /\
    NoDup (mine ++ common)%list /\
    (forall k, k ∈ mine <-> k ∈ keys /\ existsb (own k) (network_suffixes network) = true) /\
    (forall k, k ∈ common <-> k ∈ keys /\ existsb (own k) (network_suffixes network) = false /\
                              is_network_specific k = false).
Proof.
  unfold prioritized_by.
  destruct (push_suffixes_spec own (network_suffixes network) keys [] (NoDup_nil_2)) as (mine & -> & D & M & C).
  simpl in *. 
  destruct (push_keys_spec (fun key => negb (is_network_specific key)) keys mine D)
    as (common & -> & D' & T & K & C').
  exists mine, common. split; [done|]. split; [done|]. split.
  - intros k; split; [apply M|intros [? ?]; by apply C].
  - intros k; split.
    + intros I. split; [by apply K|]. split; [|by apply negb_true_iff, T].
      destruct (existsb (own k) (network_suffixes network)) eqn:X; [|done]. apply NoDup_app in D' as (_ & D' & _).
      destruct (D' k); [by apply C; [apply K|]|done].
    + intros (I & X & S). specialize (C' k I). rewrite S in C'. specialize (C' eq_refl).
      apply elem_of_app in C' as [Y|Y]; [|done]. apply M in Y as [_ Y]. congruence.
Qed.

(** ** A concrete environment *)

Definition polygon_env : Env := fun name =>
  snd <$> head (filter (fun v => v.1 = name)
    [("NETWORK", " Polygon "); ("EXECUTOR_PRIVATE_KEY", "key");
     ("RPC_URL_POLYGON", "https://a, https://b.getblock.io/x,https://A"); ("RPC_URL", "https://c");
     ("RPC_URL_BSC", "https://d"); ("GETBLOCK_POLYGON", "https://e"); ("ALCHEMY_KEY_2", "z");
     ("INFURA_ID_1", "i"); ("MEV_MAX_GAS_PRICE_GWEI", "100");
     ("MEV_MAX_GAS_PRICE_GWEI_POLYGON", " 800 "); ("MEV_OPPORTUNITY_MODE", "'farelo'")]).
Definition polygon_load : Env * Res Config :=
  load (fun _ => None) (fun _ => inr 5) (fun _ => inr 21) (fun s => inr s) "keys.txt" "bsc" polygon_env.

Lemma loaded_config_wf_witness :
  exists env c, polygon_load = (env, inr c) /\ max_gas_price_gwei (mev c) = Some 800 /\
    opportunity_mode (mev c) = Scavenger /\ mev_wf env (mev c) /\ profit_address c = 21.
Proof.
  assert (V : match polygon_load.2 with
              | inr c => max_gas_price_gwei (mev c) = Some 800 /\ opportunity_mode (mev c) = Scavenger /\
                         profit_address c = 21
              | _ => False end) by (vm_compute; auto).
  destruct polygon_load as [env [e|c]] eqn:E; [destruct V|]. cbn [snd] in V. destruct V as (V1 & V2 & V3).
  exists env, c. split; [done|]. split; [done|]. split; [done|].
  split; [|done]. exact (proj1 (loaded_config_wf _ _ _ _ _ _ _ _ _ E)).
Defined.

Lemma endpoint_names_distinct_witness :
  exists env c, polygon_load = (env, inr c) /\
    (rpc_urls env c).*1 = ["rpc-1"; "getblock-1"; "rpc-2"; "getblock-2"; "alchemy-2"] /\
    NoDup (rpc_urls env c).*1.
Proof.
  assert (V : match polygon_load with
              | (env, inr c) => (rpc_urls env c).*1 = ["rpc-1"; "getblock-1"; "rpc-2"; "getblock-2"; "alchemy-2"]
              | _ => False end) by (vm_compute; reflexivity).
  destruct polygon_load as [env [e|c]] eqn:E; [destruct V|]. exists env, c. split; [done|]. split; [exact V|].
  exact (proj1 (endpoint_names_distinct _ _ _ _ _ _ _ _ _ E)).
Defined.
