(* ===== verification/Gates.v ===== *)
(** * Gates of the runtime ([mev/runtime.rs])

    What a decoded candidate and its payload must satisfy: the fast preflight
    with its heuristic scores and gas cap, the validation of the payload's
    numbers, the economic edge, sanity and quote of the scavenger mode, and the
    expected-value and quality gates of the other modes. The [detail] text of a
    diagnostic is only shown and is left out. *)
From S2P Require Import Prelude F64 Text Ethers Config AmmV2 AmmV3.
From S2P Require Import Simulator Pnl Payload Opportunity Adaptive Calldata Decode EnvVars.
#[local] Open Scope Z_scope.

(** ** Data *)

(** Nanoseconds. *)
Definition Duration : Type := Z.
Definition as_millis (d : Duration) : Z := d / millis.

Record FastPreflightDecision := {
  fp_should_continue : bool;
  fp_reject_reason : option string;
  fp_ev_upper_bound_usd : f64;
  fp_estimated_gas_cost_usd : f64;
  competition_score_fast : f64;
  gas_ratio : f64;
  scavenger_try_score : f64 }.

Record GateDiagnostic := {
  gd_pass : bool;
  gd_reason : string;
  gd_expected_profit_wei : U256;
  gd_execution_cost_wei : U256;
  gd_min_profit_wei : U256;
  gd_net_ev_usd : f64;
  gd_roi_bps : u64 }.

Inductive ExecutionRejectReason :=
| GasTooHigh | NegativeEdge | LowLiquidity | HighPriceImpact | QuoteFailed | RepaymentRisk
| UnknownPool | InvalidDecimals | InvalidNormalization | EvValidationFailed | AdaptiveRejected.
Definition reject_as_str (self : ExecutionRejectReason) : string :=
  match self with
  | GasTooHigh => "GasTooHigh"
  | NegativeEdge => "NegativeEdge"
  | LowLiquidity => "LowLiquidity"
  | HighPriceImpact => "HighPriceImpact"
  | QuoteFailed => "QuoteFailed"
  | RepaymentRisk => "RepaymentRisk"
  | UnknownPool => "UnknownPool"
  | InvalidDecimals => "InvalidDecimals"
  | InvalidNormalization => "InvalidNormalization"
  | EvValidationFailed => "EvValidationFailed"
  | AdaptiveRejected => "AdaptiveRejected"
  end.

Record EvValidationReport := {
  ev_pass : bool;
  ev_reason : string;
  gross_edge_usd : f64;
  net_edge_usd : f64;
  gas_cost_usd : f64;
  ev_roi_bps : u64 }.

Definition is_aggressive (config : Config) : bool :=
  bool_decide (opportunity_mode (mev config) = Aggressive).

(** ** Overrides of the adaptive policy by the mode *)

Definition should_override_preflight_reject (config : Config) (preflight : PreflightQuote) : bool :=
  match opportunity_mode (mev config) with
  | Conservative => false
  | Aggressive =>
      (upper_bound_ev_usd preflight >=? effective_min_profit_usd (mev config) * 0.45)%f64
      && (pq_preflight_score preflight >=? 0.12)%f64
      && (pq_gas_pressure preflight <=? 1.05)%f64
  | Scavenger => true
  end.

Definition should_override_adaptive_reject (config : Config) (quote : AdaptiveQuote) : bool :=
  match opportunity_mode (mev config) with
  | Conservative => false
  | Aggressive =>
      (ev_real_usd quote >=? effective_min_profit_usd (mev config))%f64
      && (p_positive quote >=? 0.20)%f64
      && (aq_risk_score quote <=? 0.95)%f64
      && (aq_gas_pressure quote <=? 1.00)%f64
  | Scavenger => true
  end.

(** ** Quality *)

Definition scavenger_quality_price_impact_cap_bps (config : Config) : u64 :=
  clampZ 600 4000 (u64_smul (effective_max_price_impact_bps (mev config)) 15).

Definition profit_usd (config : Config) (wei : U256) : f64 :=
  (wei_to_eth_f64 wei * eth_usd_price (mev config))%f64.

Definition quality_impact_score (config : Config) (payload : ExecutionPayload) : Z :=
  f64_as_u16 (fclamp_in
    (f64_of_Z (ep_price_impact_bps payload)
     / f64_of_Z (Z.max (effective_max_price_impact_bps (mev config)) 1) * 100.0)%f64 0.0 100.0).

Definition quality_gate_diagnostic (config : Config) (payload : ExecutionPayload)
    (execution_cost_wei : U256) : GateDiagnostic :=
  let profit := ep_expected_profit_wei payload in
  if is_scavenger config then
    let impact_cap := scavenger_quality_price_impact_cap_bps config in
    {| gd_pass := negb (profit =? 0) && (ep_price_impact_bps payload <=? impact_cap);
       gd_reason := if profit =? 0 then "quality_zero_expected_profit"
                    else if impact_cap <? ep_price_impact_bps payload then "quality_price_impact_above_cap"
                    else "quality_gate_pass";
       gd_expected_profit_wei := profit; gd_execution_cost_wei := execution_cost_wei;
       gd_min_profit_wei := 0; gd_net_ev_usd := profit_usd config profit;
       gd_roi_bps := roi_bps profit execution_cost_wei |}
  else
    let roi := roi_bps profit execution_cost_wei in
    let impact_score := quality_impact_score config payload in
    let min_roi := effective_min_roi_bps (mev config) in
    {| gd_pass := (min_roi <=? roi) && (impact_score <=? 100);
       gd_reason := if roi <? min_roi then "quality_roi_below_min"
                    else if 100 <? impact_score then "quality_impact_score_above_cap"
                    else "quality_gate_pass";
       gd_expected_profit_wei := profit; gd_execution_cost_wei := execution_cost_wei;
       gd_min_profit_wei := 0; gd_net_ev_usd := profit_usd config profit; gd_roi_bps := roi |}.
Definition passes_quality_gate (config : Config) (payload : ExecutionPayload)
    (execution_cost_wei : U256) : bool :=
  gd_pass (quality_gate_diagnostic config payload execution_cost_wei).

(** ** Validation of a payload's numbers *)

(** Gas at [gas_price] with the safety margin. *)
Definition safety_gas_cost (config : Config) (payload : ExecutionPayload) (gas_price : U256) : U256 :=
  u256_smul (u256_smul gas_price (ep_gas_limit payload)) (gas_safety_margin_bps (mev config)) / 10000.

(** [i32] arithmetic of the release profile. *)
Definition wrap_i32 (x : Z) : Z := (x + 2 ^ 31) mod 2 ^ 32 - 2 ^ 31.

(** One of the pool's tokens is sold for the other along the first hop. *)
Definition pool_supports_path (pool : V2PoolState) (path : list Address) : bool :=
  match path with
  | a :: b :: _ =>
      bool_decide (is_Some (reserves_for pool a b)) || bool_decide (is_Some (reserves_for pool b a))
  | _ => false
  end.

Section Validation.
Context (ln : f64 -> f64).

Definition tick_from_sqrt_price_x96 (value : U256) : option Z :=
  let sqrt := (f64_of_Z value / Q96_F64)%f64 in
  if negb (is_finite sqrt) || (sqrt <=? 0.0)%f64 then None
  else
    let price := (sqrt * sqrt)%f64 in
    Some (f64_as_i32 (ffloor (ln price / ln 1.0001)%f64)).

Definition tick_mismatch (pool : V3PoolState) : bool :=
  match tick_from_sqrt_price_x96 (sqrt_price_x96 pool) with
  | Some derived_tick => 250 <? wrap_i32 (Z.abs (wrap_i32 (derived_tick - current_tick pool)))
  | None => false
  end.

(** What is wrong with the pool of the payload. *)
Definition pool_defect (payload : ExecutionPayload) (signal : SwapSignal) : option string :=
  match ep_pool_state_before payload with
  | UniswapV2 pool =>
      if (reserve0 pool =? 0) || (reserve1 pool =? 0) then Some "reserve_normalization_zero"%string
      else if (2 <=? length (sw_path signal))%nat && negb (pool_supports_path pool (sw_path signal)) then
        Some "pool_token_mismatch"%string
      else None
  | UniswapV3 pool =>
      if liquidity pool =? 0 then Some "v3_liquidity_zero"%string
      else if bool_decide (initialized_ticks pool = []) then Some "v3_tick_data_missing"%string
      else if sqrt_price_x96 pool =? 0 then Some "sqrt_price_x96_zero"%string
      else if tick_mismatch pool then Some "tick_sqrt_price_mismatch"%string
      else None
  end.

Definition validate_payload_ev (config : Config) (payload : ExecutionPayload) (signal : SwapSignal)
    (gas_price : U256) : EvValidationReport :=
  let gas_cost_wei := safety_gas_cost config payload gas_price in
  let gross := profit_usd config (ep_expected_profit_wei payload) in
  let gas := profit_usd config gas_cost_wei in
  let net := (gross - gas)%f64 in
  let roi := roi_bps (ep_expected_profit_wei payload) gas_cost_wei in
  let report (pass : bool) (reason : string) :=
    {| ev_pass := pass; ev_reason := reason; gross_edge_usd := gross; net_edge_usd := net;
       gas_cost_usd := gas; ev_roi_bps := roi |} in
  match head (filter (fun token => mt_address token = ep_profit_token payload) (monitored_tokens config)) with
  | None => report false "token_decimals_unknown"
  | Some profit_meta =>
      if (30 <? mt_decimals profit_meta) || negb (is_finite (mt_price_eth profit_meta))
         || (mt_price_eth profit_meta <=? 0.0)%f64 then report false "invalid_token_metadata"
      else if negb (is_finite gross) || negb (is_finite net) || negb (is_finite gas) then
        report false "non_finite_ev"
      else if (gross >? 10000.0)%f64 || (100000 <? roi) then report false "ev_outlier_profit_or_roi"
      else if ep_capital_committed_wei payload =? 0 then report false "capital_usage_zero"
      else
        match pool_defect payload signal with
        | Some reason => report false reason
        | None => report true "ev_validation_pass"
        end
  end.
End Validation.

(** ** The scavenger mode *)

Definition passes_scavenger_sanity_gate (config : Config) (payload : ExecutionPayload)
    (lookup_latency : Duration) : string + unit :=
  if bool_decide (ep_tx payload = []) || bool_decide (ep_calldata payload = []) then
    inl "scavenger_empty_payload"%string
  else if ep_target_contract payload =? 0 then inl "scavenger_missing_target"%string
  else if ep_capital_committed_wei payload =? 0 then inl "scavenger_zero_capital"%string
  else if ep_expected_profit_wei payload =? 0 then inl "scavenger_no_positive_gross_edge"%string
  else if max_gas_per_tx (mev config) <? ep_gas_limit payload then inl "scavenger_gas_limit_above_cap"%string
  else if scavenger_quality_price_impact_cap_bps config <? ep_price_impact_bps payload then
    inl "scavenger_price_impact_above_cap"%string
  else if Z.max (u64_smul (effective_max_pending_age_ms (mev config)) 3) 1 <? as_millis lookup_latency then
    inl "scavenger_lookup_stale"%string
  else inr tt.

Definition scavenger_sanity_diagnostic (config : Config) (payload : ExecutionPayload) (reason : string)
  : GateDiagnostic :=
  {| gd_pass := false; gd_reason := reason;
     gd_expected_profit_wei := ep_expected_profit_wei payload; gd_execution_cost_wei := 0;
     gd_min_profit_wei := 0; gd_net_ev_usd := profit_usd config (ep_expected_profit_wei payload);
     gd_roi_bps := 0 |}.

Section Env.
Context (env : string -> option string).
Context (display_f64 : f64 -> string) (fmt_prec : nat -> f64 -> string)
  (parse_ether : string -> string + U256).

(** [unwrap_or_else(|_| ...)] on a parsed amount. *)
Definition ether_or (fallback : U256) (s : string) : U256 :=
  match parse_ether s with inr wei => wei | inl _ => fallback end.

(** Gas cost and the profit the payload must have: a fraction of the gas cost
    or an amount in dollars, on top of the gas cost when the edge must be net. *)
Definition scavenger_required_edge (config : Config) (payload : ExecutionPayload) (gas_price : U256)
  : U256 * U256 :=
  let gas_cost_wei := u256_smul gas_price (ep_gas_limit payload) in
  let min_gas_fraction_bps :=
    clampZ 1 10000 (default 100 (env_parsed env parse_u64 "MEV_SCAVENGER_MIN_GAS_FRACTION_BPS")) in
  let min_edge_wei := u256_smul gas_cost_wei min_gas_fraction_bps / 10000 in
  let min_edge_usd :=
    fmax (default 0.0005%f64 (env_parsed env parse_f64 "MEV_SCAVENGER_MIN_ECONOMIC_EDGE_USD")) 0.0 in
  let min_edge_native := (min_edge_usd / fmax (eth_usd_price (mev config)) 0.000001)%f64 in
  let min_edge_from_usd := ether_or 0 (fmt_prec 18 min_edge_native) in
  let floor := Z.max min_edge_wei min_edge_from_usd in
  (gas_cost_wei,
   if env_bool env "MEV_SCAVENGER_REQUIRE_NET_POSITIVE" true then u256_sadd gas_cost_wei floor else floor).

Definition scavenger_payload_has_economic_edge (config : Config) (payload : ExecutionPayload)
    (gas_price : U256) : bool :=
  if ep_expected_profit_wei payload =? 0 then false
  else (scavenger_required_edge config payload gas_price).2 <=? ep_expected_profit_wei payload.

Definition scavenger_economic_edge_diagnostic (config : Config) (payload : ExecutionPayload)
    (gas_price : U256) : GateDiagnostic :=
  let '(gas_cost_wei, required_edge) := scavenger_required_edge config payload gas_price in
  let profit := ep_expected_profit_wei payload in
  let pass := required_edge <=? profit in
  {| gd_pass := pass;
     gd_reason := if profit =? 0 then "ev_zero_expected_profit"
                  else if negb pass then "ev_scavenger_edge_below_floor"
                  else "ev_gate_pass";
     gd_expected_profit_wei := profit; gd_execution_cost_wei := gas_cost_wei;
     gd_min_profit_wei := required_edge;
     gd_net_ev_usd := profit_usd config (sat_sub profit gas_cost_wei);
     gd_roi_bps := roi_bps profit gas_cost_wei |}.

Definition pool_state_valid (payload : ExecutionPayload) (signal : SwapSignal) : bool :=
  match ep_pool_state_before payload with
  | UniswapV2 pool =>
      negb (reserve0 pool =? 0) && negb (reserve1 pool =? 0) && (2 <=? length (sw_path signal))%nat
      && pool_supports_path pool (sw_path signal)
  | UniswapV3 pool =>
      negb (liquidity pool =? 0) && negb (sqrt_price_x96 pool =? 0)
      && negb (bool_decide (initialized_ticks pool = []))
  end.

Definition scavenger_war_quote_diagnostic (config : Config) (payload : ExecutionPayload)
    (signal : SwapSignal) (gas_price : U256) (economic : GateDiagnostic) : GateDiagnostic :=
  let safety_gas_cost_wei := safety_gas_cost config payload gas_price in
  let economic_floor_wei := sat_sub (gd_min_profit_wei economic) (gd_execution_cost_wei economic) in
  let required_edge := u256_sadd safety_gas_cost_wei economic_floor_wei in
  let profit := ep_expected_profit_wei payload in
  let net_after_safety_gas := sat_sub profit safety_gas_cost_wei in
  let roi := roi_bps profit safety_gas_cost_wei in
  let min_roi := effective_min_roi_bps (mev config) in
  let valid := pool_state_valid payload signal in
  let impact_cap := scavenger_quality_price_impact_cap_bps config in
  {| gd_pass := gd_pass economic && valid && (safety_gas_cost_wei <? profit) && (required_edge <=? profit)
                && (min_roi <=? roi) && (ep_price_impact_bps payload <=? impact_cap);
     gd_reason := if negb (gd_pass economic) then gd_reason economic
                  else if negb valid then "scavenger_quote_invalid_pool_state"
                  else if profit <=? safety_gas_cost_wei then "scavenger_quote_net_after_gas_not_positive"
                  else if profit <? required_edge then "scavenger_quote_edge_below_safety_floor"
                  else if roi <? min_roi then "scavenger_quote_roi_below_min"
                  else if impact_cap <? ep_price_impact_bps payload then
                    "scavenger_quote_price_impact_above_cap"
                  else "scavenger_quote_pass";
     gd_expected_profit_wei := profit; gd_execution_cost_wei := safety_gas_cost_wei;
     gd_min_profit_wei := required_edge;
     gd_net_ev_usd := profit_usd config net_after_safety_gas; gd_roi_bps := roi |}.

(** ** Expected value, in the other modes *)

Definition lookup_is_fresh (config : Config) (lookup_latency : Duration) : bool :=
  as_millis lookup_latency <=? Z.max (effective_max_pending_age_ms (mev config)) 1.
Definition gas_budget_ok (config : Config) (payload : ExecutionPayload) : bool :=
  ep_gas_limit payload <=? max_gas_per_tx (mev config).

Definition scavenger_ev_gate_result (config : Config) (payload : ExecutionPayload)
    (lookup_latency : Duration) (pass : bool) : GateDiagnostic :=
  {| gd_pass := pass;
     gd_reason := if negb (lookup_is_fresh config lookup_latency) then "ev_lookup_stale"
                  else if ep_expected_profit_wei payload =? 0 then "ev_zero_expected_profit"
                  else if negb (gas_budget_ok config payload) then "ev_gas_limit_above_cap"
                  else "ev_gate_pass";
     gd_expected_profit_wei := ep_expected_profit_wei payload; gd_execution_cost_wei := 0;
     gd_min_profit_wei := 0; gd_net_ev_usd := profit_usd config (ep_expected_profit_wei payload);
     gd_roi_bps := 0 |}.

Definition standard_ev_gate_result (config : Config) (payload : ExecutionPayload) (min_profit_wei : U256)
    (pass fresh large_enough inevitable_impact profit_above_threshold : bool) (net_ev_usd : f64)
    (budget_ok : bool) : GateDiagnostic :=
  {| gd_pass := pass;
     gd_reason := if negb fresh then "ev_lookup_stale"
                  else if negb large_enough then "ev_notional_below_min"
                  else if negb inevitable_impact then "ev_price_impact_too_low"
                  else if negb profit_above_threshold then "ev_profit_below_min_wei"
                  else if (net_ev_usd <? effective_min_profit_usd (mev config))%f64 then
                    "ev_profit_below_min_usd"
                  else if negb budget_ok then "ev_gas_limit_above_cap"
                  else "ev_gate_pass";
     gd_expected_profit_wei := ep_expected_profit_wei payload; gd_execution_cost_wei := 0;
     gd_min_profit_wei := min_profit_wei; gd_net_ev_usd := net_ev_usd; gd_roi_bps := 0 |}.

(** The two versions differ in the least price impact. *)
Definition ev_gate_diagnostic_from (min_impact_bps : u64) (config : Config) (payload : ExecutionPayload)
    (signal : SwapSignal) (lookup_latency : Duration) (min_profit_wei : U256) : GateDiagnostic :=
  let fresh := lookup_is_fresh config lookup_latency in
  let budget_ok := gas_budget_ok config payload in
  if is_scavenger config then
    scavenger_ev_gate_result config payload lookup_latency
      (fresh && negb (ep_expected_profit_wei payload =? 0) && budget_ok)
  else
    let large_enough :=
      ether_or 0 (display_f64 (effective_min_large_swap_eth (mev config))) <=? sw_notional_wei signal in
    let inevitable_impact := min_impact_bps <=? ep_price_impact_bps payload in
    let profit_above_threshold := min_profit_wei <=? ep_expected_profit_wei payload in
    let net_ev_usd := profit_usd config (ep_expected_profit_wei payload) in
    standard_ev_gate_result config payload min_profit_wei
      (fresh && large_enough && inevitable_impact && profit_above_threshold
       && (net_ev_usd >=? effective_min_profit_usd (mev config))%f64 && budget_ok)
      fresh large_enough inevitable_impact profit_above_threshold net_ev_usd budget_ok.
Definition ev_gate_diagnostic_v2 : Config -> ExecutionPayload -> SwapSignal -> Duration -> U256 -> GateDiagnostic :=
  ev_gate_diagnostic_from 8.
Definition ev_gate_diagnostic_v3 : Config -> ExecutionPayload -> SwapSignal -> Duration -> U256 -> GateDiagnostic :=
  ev_gate_diagnostic_from 6.
Definition ev_gate_diagnostic (config : Config) (payload : ExecutionPayload) (signal : SwapSignal)
    (lookup_latency : Duration) (min_profit_wei : U256) : GateDiagnostic :=
  match sw_kind signal with
  | SwapV2 => ev_gate_diagnostic_v2 config payload signal lookup_latency min_profit_wei
  | SwapV3 _ _ _ _ => ev_gate_diagnostic_v3 config payload signal lookup_latency min_profit_wei
  end.
Definition passes_ev_gate (config : Config) (payload : ExecutionPayload) (signal : SwapSignal)
    (lookup_latency : Duration) (min_profit_wei : U256) : bool :=
  gd_pass (ev_gate_diagnostic config payload signal lookup_latency min_profit_wei).

(** ** The fast preflight *)

Definition heuristic_gas_baseline_gwei (config : Config) : f64 :=
  let n := network config in
  if string_eqb n "arbitrum" then 0.15
  else if string_eqb n "polygon" then 80.0
  else if string_eqb n "bsc" then 3.0
  else 25.0.

Definition selector_heuristic_factor (selector : Bytes) : f64 :=
  if is_sel selector V3_EXACT_INPUT_SINGLE then 1.16
  else if is_sel selector V3_EXACT_INPUT then 1.04
  else if sel_in selector [SWAP_EXACT_ETH_FOR_TOKENS; SWAP_EXACT_ETH_FOR_TOKENS_SUPPORTING_FEE] then 1.18
  else if sel_in selector [SWAP_EXACT_TOKENS_FOR_ETH; SWAP_EXACT_TOKENS_FOR_ETH_SUPPORTING_FEE] then 1.08
  else if sel_in selector [SWAP_EXACT_TOKENS_FOR_TOKENS; SWAP_EXACT_TOKENS_FOR_TOKENS_SUPPORTING_FEE] then 0.94
  else 0.82.

Definition notional_size_bucket (notional_eth min_large_swap_eth : f64) : u8 :=
  if (notional_eth <? min_large_swap_eth * 1.25)%f64 then 0
  else if (notional_eth <? min_large_swap_eth * 2.5)%f64 then 1
  else 2.

Definition fast_path_penalty (path_len : usize) : f64 :=
  match path_len with
  | 0%nat | 1%nat | 2%nat => 0.0
  | 3%nat => 0.18
  | 4%nat => 0.30
  | _ => 0.42
  end.

Definition scavenger_slippage_window_hint (signal : SwapSignal) : f64 :=
  if match sw_amount_out_min signal with Some value => value =? 0 | None => false end then 0.95
  else if sel_in (sw_selector signal)
            [SWAP_EXACT_TOKENS_FOR_TOKENS_SUPPORTING_FEE; SWAP_EXACT_ETH_FOR_TOKENS_SUPPORTING_FEE;
             SWAP_EXACT_TOKENS_FOR_ETH_SUPPORTING_FEE] then 0.72
  else if (3 <=? path_len signal)%nat then 0.52
  else 0.30.

Definition scavenger_impact_imbalance_hint (notional_eth min_large_swap_eth : f64) (path_len : usize) : f64 :=
  let size_pressure := fclamp01 (notional_eth / fmax min_large_swap_eth 0.000001 / 3.0)%f64 in
  let simple_pool_bonus := (if (path_len <=? 2)%nat then 0.22 else 0.08)%f64 in
  fclamp01 (size_pressure * 0.78 + simple_pool_bonus)%f64.

Definition scavenger_route_inefficiency_hint (signal : SwapSignal) : f64 :=
  match sw_kind signal with
  | SwapV3 _ _ hops _ => if (2 <=? hops)%nat then 0.78 else 0.46
  | SwapV2 => if (3 <=? path_len signal)%nat then 0.72 else 0.38
  end.

Definition scavenger_fast_try_score (signal : SwapSignal) (gas_ratio notional_eth : f64) (config : Config)
    (context_signal : ContextSignal) : f64 :=
  let slippage_window := scavenger_slippage_window_hint signal in
  let min_large := effective_min_large_swap_eth (mev config) in
  let pool_imbalance := scavenger_impact_imbalance_hint notional_eth min_large (path_len signal) in
  let low_competition :=
    (fclamp01 ((1.35 - gas_ratio) / 1.35) * 0.55
     + fclamp01 (priority_score context_signal) * 0.25
     + (1.0 - fclamp01 (toxicity_score context_signal)) * 0.20)%f64 in
  let route_quality := scavenger_route_inefficiency_hint signal in
  let victim_size_factor := fclamp01 (notional_eth / fmax min_large 0.000001 / 4.0)%f64 in
  fclamp01 (slippage_window * 0.35 + pool_imbalance * 0.25 + low_competition * 0.20
            + route_quality * 0.10 + victim_size_factor * 0.10)%f64.

Definition fast_reject (reason : string) : FastPreflightDecision :=
  {| fp_should_continue := false; fp_reject_reason := Some reason; fp_ev_upper_bound_usd := 0.0;
     fp_estimated_gas_cost_usd := 0.0; competition_score_fast := 1.0; gas_ratio := 0.0;
     scavenger_try_score := 0.0 |}.

Definition bucket_value (bucket : u8) (a b c : f64) : f64 :=
  if bucket =? 0 then a else if bucket =? 1 then b else c.

(** The bound of the expected value, and the gas cost it takes off. *)
Definition fast_ev_upper_bound (signal : SwapSignal) (gas_price : U256) (config : Config)
    (context_signal : ContextSignal) : f64 * f64 :=
  let notional_eth := wei_to_eth_f64 (sw_notional_wei signal) in
  let notional_usd := (notional_eth * eth_usd_price (mev config))%f64 in
  let size_bucket := notional_size_bucket notional_eth (effective_min_large_swap_eth (mev config)) in
  let size_factor := bucket_value size_bucket 0.00022 0.00038 0.00060 in
  let heuristic_factor := fmax
    (selector_heuristic_factor (sw_selector signal) * size_factor
     * (1.0 - fast_path_penalty (path_len signal))
     * (0.88 + fclamp01 (priority_score context_signal) * 0.18)
     * (1.0 - fclamp01 (toxicity_score context_signal) * 0.20))%f64 0.00005 in
  let gas_units :=
    Z.max (u64_sadd (estimated_exec_gas config) (estimated_bundle_overhead_gas config)) 180000 in
  let estimated_gas_cost_usd := profit_usd config (u256_smul gas_price gas_units) in
  ((notional_usd * heuristic_factor - estimated_gas_cost_usd)%f64, estimated_gas_cost_usd).

Definition fast_gas_ratio (config : Config) (gas_price : U256) : f64 :=
  fmax (wei_to_gwei_f64 gas_price / fmax (heuristic_gas_baseline_gwei config) 1e-9)%f64 0.0.

(** Competition as the conservative mode sees it. *)
Definition fast_competition (signal : SwapSignal) (config : Config) (gas_ratio : f64)
    (context_signal : ContextSignal) : f64 :=
  let notional_eth := wei_to_eth_f64 (sw_notional_wei signal) in
  let size_bucket := notional_size_bucket notional_eth (effective_min_large_swap_eth (mev config)) in
  let gas_pressure := fclamp01 ((gas_ratio - 1.0) / 0.8)%f64 in
  let size_pressure := bucket_value size_bucket 0.20 0.48 0.72 in
  let context_confidence := fclamp01 (f64_of_Z (Z.min (cs_samples context_signal) 24) / 24.0)%f64 in
  let path_risk := (f64_of_nat (Nat.min (path_len signal - 2) 3) / 3.0)%f64 in
  fclamp01 (gas_pressure * 0.46 + size_pressure * 0.34 + path_risk * 0.14
     + fclamp01 (toxicity_score context_signal) * (0.08 + context_confidence * 0.08)
     - fclamp01 (priority_score context_signal) * (0.03 + context_confidence * 0.05))%f64.

Definition fast_preflight_gate (signal : SwapSignal) (gas_price min_large_swap_wei : U256)
    (config : Config) (context_signal : ContextSignal) : FastPreflightDecision :=
  if (path_len signal <? 2)%nat then fast_reject "invalid_path"
  else if sw_notional_wei signal <? min_large_swap_wei then fast_reject "notional_below_min"
  else
    let notional_eth := wei_to_eth_f64 (sw_notional_wei signal) in
    let gas_ratio := fast_gas_ratio config gas_price in
    let '(ev_upper, gas_cost) := fast_ev_upper_bound signal gas_price config context_signal in
    let decision (reason : option string) (competition try_score : f64) :=
      {| fp_should_continue := bool_decide (reason = None); fp_reject_reason := reason;
         fp_ev_upper_bound_usd := ev_upper; fp_estimated_gas_cost_usd := gas_cost;
         competition_score_fast := competition; gas_ratio := gas_ratio;
         scavenger_try_score := try_score |} in
    let try_score := scavenger_fast_try_score signal gas_ratio notional_eth config context_signal in
    match opportunity_mode (mev config) with
    | Scavenger =>
        decision (if (try_score <? 0.18)%f64 && (gas_ratio >? 1.45)%f64
                  then Some "scavenger_score_below_cheap_threshold"%string else None)
          (1.0 - try_score)%f64 try_score
    | Aggressive =>
        let min_usd := effective_min_profit_usd (mev config) in
        decision (if (try_score <? 0.24)%f64 && (ev_upper <? min_usd * 0.35)%f64 then
                    Some "bloody_score_below_research_threshold"%string
                  else if (gas_ratio >? 1.85)%f64 && (ev_upper <? min_usd)%f64 then
                    Some "bloody_gas_pressure_without_edge"%string
                  else None)
          (1.0 - try_score)%f64 try_score
    | Conservative =>
        let competition := fast_competition signal config gas_ratio context_signal in
        decision (if (ev_upper <? effective_min_profit_usd (mev config) * 1.5)%f64 then
                    Some "ev_upper_bound_below_min"%string
                  else if (competition >? 0.75)%f64 then Some "competition_fast_too_high"%string
                  else None)
          competition 0.0%f64
    end.

(** The last [clamp] panics when the hard cap is below its lower bound. *)
Definition gas_tier_floor (ev_upper_bound_usd hard_cap_gwei : f64) : f64 :=
  (if ev_upper_bound_usd >=? 0.25 then 1000.0
   else if ev_upper_bound_usd >=? 0.14 then hard_cap_gwei * 0.98
   else if ev_upper_bound_usd >=? 0.10 then 850.0
   else if ev_upper_bound_usd >=? 0.05 then 450.0
   else if ev_upper_bound_usd >=? 0.02 then hard_cap_gwei * 0.95
   else if ev_upper_bound_usd >=? 0.005 then 350.0
   else if ev_upper_bound_usd >=? 0.001 then 300.0
   else if ev_upper_bound_usd >? 0.0 then 250.0
   else if ev_upper_bound_usd >=? -0.02 then 150.0
   else 120.0)%f64.
Definition adaptive_gas_cap_gwei (ev_upper_bound_usd notional_eth hard_cap_gwei : f64) : outcome f64 :=
  let tier_floor := gas_tier_floor ev_upper_bound_usd hard_cap_gwei in
  let continuous_cap :=
    (if ev_upper_bound_usd >? 0.0 then 100.0 + ev_upper_bound_usd * 3000.0
     else 150.0 + ev_upper_bound_usd * 1500.0)%f64 in
  let edge_cap := if (ev_upper_bound_usd >=? 0.02)%f64 then tier_floor else fmax tier_floor continuous_cap in
  let size_multiplier :=
    if (ev_upper_bound_usd >? 0.0)%f64 then fclamp_in (0.95 + notional_eth / 40.0)%f64 1.0 1.18
    else fclamp_in (notional_eth / 10.0)%f64 0.75 1.15 in
  fclamp (edge_cap * size_multiplier)%f64 120.0 (fmax hard_cap_gwei 1.0).

Definition scavenger_gas_cap_research_bypass (config : Config) (signal : SwapSignal)
    (fast_gate : FastPreflightDecision) : bool :=
  is_scavenger config && negb (allow_send config)
  && env_bool env "MEV_SCAVENGER_GAS_CAP_RESEARCH_BYPASS" true
  && (sw_decode_confidence signal >=? 0.35)%f64
  && (gas_ratio fast_gate <=? env_f64_clamped env "MEV_SCAVENGER_RESEARCH_MAX_GAS_RATIO" 25.0 1.0 100.0)%f64.
End Env.
