(* ===== verification/Intake.v ===== *)
(** * Mempool intake ([mev/runtime.rs])

    From the feeds of pending transactions to the queue of lookups: which feeds
    are connected and how reconnection backs off, hashes seen before, the
    shedding of lookups by the pressure on the RPC fleet, the gate before
    decoding, the lanes of candidates and the budget of small ones. *)
From S2P Require Import Prelude F64 Text Ethers Config Rpc Adaptive.
From S2P Require Import Executor Calldata Decode EnvVars.
#[local] Open Scope string_scope.
#[local] Open Scope Z_scope.

Definition LOOKUP_DECODE_QUEUE_CAPACITY : nat := Z.to_nat 8192.
Definition SMALL_SCAVENGER_BUDGET_PER_SEC : Z := 8.
Definition SEEN_CAPACITY : nat := Z.to_nat 8192.

(** ** Items and hashes seen *)

Inductive PendingMempoolItem :=
| ItemHash (hash : H256)
| ItemFull (tx : Transaction).
Definition item_hash (self : PendingMempoolItem) : H256 :=
  match self with ItemHash h => h | ItemFull tx => tx_hash tx end.

Record SeenTxs := {
  seen_hashes : gset H256;
  seen_order : list H256 }.
Definition SeenTxs_new : SeenTxs := {| seen_hashes := ∅; seen_order := [] |}.

(** [while seen_order.len() > capacity]: the oldest are forgotten. *)
Fixpoint forget_oldest (capacity : nat) (hashes : gset H256) (order : list H256) : SeenTxs :=
  match order with
  | old :: rest =>
      if (capacity <? length order)%nat then forget_oldest capacity (hashes ∖ {[old]}) rest
      else {| seen_hashes := hashes; seen_order := order |}
  | [] => {| seen_hashes := hashes; seen_order := [] |}
  end.
Definition mark_seen_tx (self : SeenTxs) (tx_hash : H256) : SeenTxs * bool :=
  if bool_decide (tx_hash ∈ seen_hashes self) then (self, false)
  else
    (forget_oldest SEEN_CAPACITY ({[tx_hash]} ∪ seen_hashes self) (seen_order self ++ [tx_hash]), true).

(** ** Feeds *)

Definition is_provider_capacity_exhausted (error : string) : bool :=
  let lower := to_lower error in
  contains lower "monthly capacity limit exceeded" || contains lower "capacity limit exceeded"
  || contains lower "quota exceeded" || contains lower "billing".
Definition is_blocked_bnb_alchemy_ws (url : string) : bool :=
  let normalized := to_lower url in
  starts_with normalized "wss://bnb-mainnet.g.alchemy.com/"
  || starts_with normalized "wss://bnb-mainnet.g.alchemy.com:".
Definition is_alchemy_ws (url : string) : bool := contains (to_lower url) ".alchemy.com/".
(** The feeds that are connected. *)
Definition connected_feeds (ws_urls : list string) : list string :=
  filter (fun url => negb (is_blocked_bnb_alchemy_ws url) = true) ws_urls.

(** ** Pressure on the RPC fleet *)

Record RpcLookupPressure := {
  available_readers : Z;
  available_read_capacity_per_sec : u64;
  rate_limited_readers : Z;
  failing_readers : Z }.
#[export] Instance RpcLookupPressure_eta : RecordEta RpcLookupPressure :=
  fields Build_RpcLookupPressure <&> available_readers <&> available_read_capacity_per_sec
    <&> rate_limited_readers <&> failing_readers.
Definition RpcLookupPressure_default : RpcLookupPressure :=
  {| available_readers := 1; available_read_capacity_per_sec := 25; rate_limited_readers := 0;
     failing_readers := 0 |}.

(** The body of the loop over the snapshot. *)
Definition pressure_step (pressure : RpcLookupPressure) (e : RpcEndpointSnapshot) : RpcLookupPressure :=
  if s_disabled e then pressure
  else
    let pressure :=
      if 0 <? s_rate_limit_failures e then
        pressure <[ rate_limited_readers ::= u64_sadd (rate_limited_readers pressure) 1 ]>
      else pressure in
    let pressure :=
      if (0 <? s_failures e) || (0 <? s_timeout_failures e) || (0 <? s_stale_failures e) then
        pressure <[ failing_readers ::= u64_sadd (failing_readers pressure) 1 ]>
      else pressure in
    if (s_cooldown_remaining_secs e =? 0) && (s_rate_limit_failures e =? 0) then
      pressure <[ available_readers ::= u64_sadd (available_readers pressure) 1 ]>
               <[ available_read_capacity_per_sec ::=
                    u64_sadd (available_read_capacity_per_sec pressure) (s_read_capacity_per_sec e) ]>
    else pressure.
Definition pressure_of (snapshot : list RpcEndpointSnapshot) : RpcLookupPressure :=
  foldl pressure_step
    {| available_readers := 0; available_read_capacity_per_sec := 0; rate_limited_readers := 0;
       failing_readers := 0 |} snapshot.

Definition lookup_budget_base (mode : OpportunityMode) (configured : option u64)
    (pressure : RpcLookupPressure) : u64 :=
  let base := default match mode with Conservative => 60 | Aggressive => 90 | Scavenger => 25 end
                configured in
  let healthy_reader_cap :=
    Z.max (available_read_capacity_per_sec pressure)
      match mode with Scavenger => 4 | Aggressive => 10 | Conservative => 8 end in
  match configured with
  | Some _ => Z.min (clampZ 1 1000 base) healthy_reader_cap
  | None => Z.min base healthy_reader_cap
  end.
Definition pressure_multiplier (configured : bool) (pressure : RpcLookupPressure) : f64 :=
  if configured then
    if available_readers pressure =? 0 then 0.05
    else if 0 <? rate_limited_readers pressure then 0.25
    else if available_readers pressure <? failing_readers pressure then 0.60
    else 1.0
  else if available_readers pressure =? 0 then 0.03
  else if (available_readers pressure <=? 1) && (0 <? rate_limited_readers pressure) then 0.18
  else if (available_readers pressure <=? 1) || (0 <? rate_limited_readers pressure) then 0.28
  else if available_readers pressure <? failing_readers pressure then 0.45
  else 1.0.
Definition effective_pending_lookup_budget_for_mode (mode : OpportunityMode) (configured : option u64)
    (pressure : RpcLookupPressure) : u64 :=
  let base := lookup_budget_base mode configured pressure in
  let pressure_multiplier := pressure_multiplier (bool_decide (is_Some configured)) pressure in
  let floor := (if (available_readers pressure =? 0)%Z then 4.0 else 10.0)%f64 in
  f64_as_u64 (fmax (fround (f64_of_Z base * pressure_multiplier)) floor)%f64.

(** ** Shedding of lookups *)

Record PendingLookupBackpressure := {
  window_started : Instant;
  accepted_in_window : u64;
  pressure_refreshed_at : Instant;
  pressure : RpcLookupPressure;
  dropped_since_event : u64;
  last_event_at : Instant }.
#[export] Instance PendingLookupBackpressure_eta : RecordEta PendingLookupBackpressure :=
  fields Build_PendingLookupBackpressure <&> window_started <&> accepted_in_window
    <&> pressure_refreshed_at <&> pressure <&> dropped_since_event <&> last_event_at.
Definition PendingLookupBackpressure_new (now : Instant) : PendingLookupBackpressure :=
  {| window_started := now; accepted_in_window := 0; pressure_refreshed_at := now - 2 * secs;
     pressure := RpcLookupPressure_default; dropped_since_event := 0; last_event_at := now |}.

(** A window that is over is replaced. *)
Definition roll_window (now : Instant) (self : PendingLookupBackpressure) : PendingLookupBackpressure :=
  if secs <=? elapsed now (window_started self) then
    self <[ window_started ::= now ]> <[ accepted_in_window ::= 0 ]>
  else self.
Definition queue_soft_full (queue_remaining : nat) : bool :=
  (queue_remaining <=? LOOKUP_DECODE_QUEUE_CAPACITY / 16)%nat.
(** What follows the refreshes: accept, or count the drop and report it at most
    every five seconds. *)
Definition admit_lookup (budget : u64) (now : Instant) (queue_remaining : nat)
    (self : PendingLookupBackpressure) : PendingLookupBackpressure * bool * list Event :=
  let soft_full := queue_soft_full queue_remaining in
  if (accepted_in_window self <? budget) && negb soft_full then
    (self <[ accepted_in_window ::= u64_sadd (accepted_in_window self) 1 ]>, true, [])
  else
    let self := self <[ dropped_since_event ::= u64_sadd (dropped_since_event self) 1 ]> in
    if 5 * secs <=? elapsed now (last_event_at self) then
      (self <[ dropped_since_event ::= 0 ]> <[ last_event_at ::= now ]>, false,
       [Funnel "tx_lookup_throttled";
        RejectReason "pending_lookup" (if soft_full then "queue_backpressure" else "rpc_budget");
        Note_ "warn" "pending lookup backpressure"])
    else (self, false, [Funnel "tx_lookup_throttled"]).

Section Env.
Context (env : string -> option string).

(** [2u64.saturating_pow(exponent)], with an exponent of at most seven. *)
Definition mempool_ws_reconnect_delay (ws_url : string) (failures : u32) : Z :=
  let base_ms := default 1500 (env_parsed env parse_u64 "MEMPOOL_WS_RECONNECT_BASE_MS") in
  let max_secs := default (if contains (to_lower ws_url) "alchemy.com" then 300 else 60)
                    (env_parsed env parse_u64 "MEMPOOL_WS_RECONNECT_MAX_SECS") in
  let exponent := Z.min (sat_sub failures 1) 7 in
  let delay_ms := u64_smul base_ms (2 ^ exponent) in
  Z.min (delay_ms * millis) (max_secs * secs).

Definition effective_pending_lookup_budget (config : Config) (pressure : RpcLookupPressure) : u64 :=
  effective_pending_lookup_budget_for_mode (opportunity_mode (mev config))
    (env_parsed env parse_u64 "MEV_PENDING_LOOKUP_MAX_PER_SEC") pressure.

Context (clk : nat -> Instant).

Definition rpc_lookup_pressure : RpcM RpcLookupPressure :=
  endpoints ← Rpc.snapshot clk; mret (pressure_of endpoints).

Definition should_enqueue (self : PendingLookupBackpressure) (config : Config) (queue_remaining : nat)
  : RpcM (PendingLookupBackpressure * bool * list Event) :=
  now ← now_ clk;
  let self := roll_window now self in
  self ← (if 900 * millis <=? elapsed now (pressure_refreshed_at self) then
            pressure_ ← rpc_lookup_pressure;
            mret (self <[ pressure ::= pressure_ ]> <[ pressure_refreshed_at ::= now ]>)
          else mret self);
  mret (admit_lookup (effective_pending_lookup_budget config (pressure self)) now queue_remaining self).

(** ** The gate before decoding *)

Definition known_target_label (address : Address) : option string :=
  if address =? 0x07964f135f276412b3182a3b2407b8dd45000000 then Some "transit_swap_router_v5"
  else if address =? 0x4337084d9e255ff0702461cf8895ce9e3b5ff108 then Some "entrypoint_v0_8"
  else if address =? 0x0000000071727de22e5e9d8baf0edac6f37da032 then Some "entrypoint_v0_7"
  else if address =? 0x00000000000fb5c9adea0298d729a0cb3823cc07 then Some "aggregator_or_permit_router"
  else if address =? 0xd216153c06e857cd7f72665e0af1d7d82172f494 then
    Some "unknown_high_frequency_polygon_target"
  else if address =? 0x278d858f05b94576c1e6f73285886876ff6ef8d2 then Some "private_mev_executor_polygon_a"
  else if address =? 0xc37184b6ab8d18be826af019cfa6bb71c6a0ab39 then Some "private_mev_executor_polygon_b"
  else if address =? 0xab45c5a4b0c941a2f231c04c3f49182e1a254052 then Some "private_mev_executor_polygon_c"
  else if address =? 0xada100db00ca00073811820692005400218fce1f then Some "safe_inner_target"
  else None.

Definition label_starts (address : option Address) (prefix : string) : bool :=
  match address ≫= known_target_label with
  | Some label => starts_with label prefix
  | None => false
  end.
Definition is_account_abstraction_target (address : option Address) : bool :=
  label_starts address "entrypoint_".
Definition is_private_mev_executor_noise (address : option Address) (selector : Bytes) : bool :=
  label_starts address "private_mev_executor_"
  && sel_in selector [PRIVATE_MEV_SELECTOR_A00597A0; PRIVATE_MEV_SELECTOR_EAA79076;
                      PRIVATE_MEV_SELECTOR_34EE9791; PRIVATE_MEV_SELECTOR_669DC5B6].

Definition is_context_only_or_helper_selector (selector : Bytes) : bool :=
  sel_in selector [AGGREGATOR_SELECTOR_01B7037C; AGGREGATOR_SELECTOR_0A3C4405;
                   AGGREGATOR_SELECTOR_405CEC67; AGGREGATOR_SELECTOR_CDD1B25D;
                   AGGREGATOR_SELECTOR_F2881E21; CONTEXT_WRAP_SELECTOR].
Definition is_observed_unsupported_selector_noise (selector : Bytes) : bool :=
  sel_in selector [SELECTOR_NOISE_00000000; OBSERVED_UNSUPPORTED_SELECTOR_5F052516;
                   OBSERVED_UNSUPPORTED_SELECTOR_3D6684A8; OBSERVED_UNSUPPORTED_SELECTOR_3A66E301;
                   OBSERVED_UNSUPPORTED_SELECTOR_4A502F39; OBSERVED_UNSUPPORTED_SELECTOR_E3EAD59E;
                   OBSERVED_UNSUPPORTED_SELECTOR_3C02F856].

(** [{:02x}]. *)
Definition hex_digit (n : Z) : ascii := ascii_of_N (Z.to_N (if n <? 10 then 48 + n else 87 + n)).
Definition hex_byte (b : Z) : string := String (hex_digit (b / 16)) (String (hex_digit (b mod 16)) "").
Definition selector_hex (selector : Bytes) : string :=
  "0x" +:+ String.concat "" (hex_byte <$> take 4 selector).

Definition aggregator_name (selector : Bytes) : option string :=
  if sel_in selector [UNIVERSAL_ROUTER_EXECUTE; UNIVERSAL_ROUTER_EXECUTE_NO_DEADLINE] then
    Some "universal_router"
  else if sel_in selector [ZERO_EX_TRANSFORM_ERC20; ZERO_EX_SELL_TO_UNISWAP] then Some "0x_matcha"
  else if sel_in selector [ONE_INCH_SWAP; ONE_INCH_UNOSWAP] then Some "1inch"
  else if is_sel selector PARASWAP_SIMPLE_SWAP then Some "paraswap"
  else if is_sel selector ODOS_SWAP_COMPACT then Some "odos"
  else if is_sel selector KYBER_SWAP then Some "kyber"
  else None.
Definition aggregator_name_from_tx (avx2 : bool) (tx : Transaction) : outcome (option string) :=
  selector <-? tx_selector avx2 tx;; opt (aggregator_name selector).
Definition decode_reject_selector_reason (avx2 : bool) (tx : Transaction) : outcome string :=
  selector <-! tx_selector avx2 tx;;
  Done ("selector=" +:+ selector_hex (default [0; 0; 0; 0] selector) +:+ " source="
        +:+ default "direct_or_unknown" (selector ≫= aggregator_name)).

(** What a transaction pays for gas at most. *)
Definition victim_gas_price (tx : Transaction) : U256 :=
  default 0 match tx_max_fee_per_gas tx with Some p => Some p | None => tx_gas_price tx end.

(** The cap's multiplier is parsed as it stands, without trimming. *)
Definition pre_decode_gas_cap_gwei (max_gas_price_gwei : u64) : f64 :=
  let multiplier :=
    match env "MEV_PRE_DECODE_GAS_CAP_MULTIPLIER" ≫= parse_f64 with
    | Some value => if is_finite value && (value >=? 1.0)%f64 then value else 2.0%f64
    | None => 2.0%f64
    end in
  (f64_of_Z max_gas_price_gwei * multiplier)%f64.

(** The reason to reject, if there is one; nothing is said of calldata too
    short for a selector. *)
Definition pre_decode_tx_gate_with_cap (avx2 : bool) (tx : Transaction) (max_gas_price_gwei : option u64)
  : outcome (option string) :=
  selector <-? tx_selector avx2 tx;;
  opt (if is_account_abstraction_target (tx_to tx) || is_sel selector ENTRYPOINT_HANDLE_OPS then
         Some "account_abstraction_noise"
       else if is_private_mev_executor_noise (tx_to tx) selector then Some "private_mev_executor_noise"
       else if is_sel selector CONTEXT_WRAP_SELECTOR then Some "context_command_not_swap"
       else if is_context_only_or_helper_selector selector then Some "router_helper_or_context_only"
       else if is_sel selector SELECTOR_NOISE_00000008 then Some "selector_noise_or_mev_trap"
       else if is_observed_unsupported_selector_noise selector then
         Some "observed_unsupported_selector_noise"
       else if victim_gas_price tx =? 0 then Some "zero_gas_price"
       else match max_gas_price_gwei with
            | Some cap =>
                if (wei_to_gwei_f64 (victim_gas_price tx) >? pre_decode_gas_cap_gwei cap)%f64 then
                  Some "victim_gas_price_above_pre_decode_cap"
                else None
            | None => None
            end).
Definition pre_decode_tx_gate (avx2 : bool) (config : Config) (tx : Transaction) : outcome (option string) :=
  pre_decode_tx_gate_with_cap avx2 tx (max_gas_price_gwei (mev config)).

(** ** The intake as a step of the runtime's loop *)

Record PendingHashTask := {
  task_hash : H256;
  task_pending_tx : option Transaction }.
Record Intake := {
  seen : SeenTxs;
  backpressure : PendingLookupBackpressure;
  intake_world : Rpc.World }.
#[export] Instance Intake_eta : RecordEta Intake :=
  fields Build_Intake <&> seen <&> backpressure <&> intake_world.

(** One item of the feeds: the task to enqueue, if any, and what is recorded;
    latencies are left out. [paused]: the dashboard has paused the runtime. *)
Definition scan_item (avx2 : bool) (config : Config) (paused : bool) (queue_remaining : nat)
    (item : PendingMempoolItem) (self : Intake) : outcome (Intake * option PendingHashTask * list Event) :=
  if paused then Done (self, None, []) else
  let '(seen_, fresh_) := mark_seen_tx (seen self) (item_hash item) in
  let self := self <[ seen ::= seen_ ]> in
  if negb fresh_ then Done (self, None, [])
  else
    match item with
    | ItemHash h =>
        match should_enqueue (backpressure self) config queue_remaining (intake_world self) with
        | Panicked => Panicked
        | Done (w, (bp, allowed, events)) =>
            let self := self <[ intake_world ::= w ]> <[ backpressure ::= bp ]> in
            Done (self, if (allowed : bool) then Some {| task_hash := h; task_pending_tx := None |} else None,
                  Funnel "pending_hashes_received" :: events)
        end
    | ItemFull tx =>
        rejected <-! pre_decode_tx_gate avx2 config tx;;
        match (rejected : option string) with
        | Some reason =>
            selector_reason <-! decode_reject_selector_reason avx2 tx;;
            Done (self, None,
                  [Funnel "pending_full_tx_received"; Funnel "pre_lookup_reject";
                   RejectReason "pre_lookup_gate" reason; RejectReason "decode_selector" selector_reason])
        | None =>
            Done (self, Some {| task_hash := tx_hash tx; task_pending_tx := Some tx |},
                  [Funnel "pending_full_tx_received"])
        end
    end.
End Env.

(** ** Lanes *)

Inductive CandidateLane := LaneSmall | LaneMedium | LaneLarge | LaneUniversal.
#[export] Instance CandidateLane_eq_dec : EqDecision CandidateLane.
Proof. solve_decision. Defined.
Definition lane_as_str (self : CandidateLane) : string :=
  match self with
  | LaneSmall => "small"
  | LaneMedium => "medium"
  | LaneLarge => "large"
  | LaneUniversal => "universal"
  end.
Definition u256_max (left_ right_ : U256) : U256 := if right_ <? left_ then left_ else right_.

(** [parse_ether("0.05")] and [parse_ether("0.5")]. *)
Definition MEDIUM_FLOOR_WEI : U256 := 50000000000000000.
Definition LARGE_FLOOR_WEI : U256 := 500000000000000000.
Definition classify_candidate_lane (signal : SwapSignal) (min_large_swap_wei : U256) : CandidateLane :=
  if sel_in (sw_selector signal) [UNIVERSAL_ROUTER_EXECUTE; UNIVERSAL_ROUTER_EXECUTE_NO_DEADLINE] then
    LaneUniversal
  else
    let medium_threshold := u256_max (u256_smul min_large_swap_wei 25) MEDIUM_FLOOR_WEI in
    let large_threshold := u256_max (u256_smul min_large_swap_wei 250) LARGE_FLOOR_WEI in
    if large_threshold <=? sw_notional_wei signal then LaneLarge
    else if medium_threshold <=? sw_notional_wei signal then LaneMedium
    else LaneSmall.

(** The budget of small candidates: so many per window of a second. *)
Record SmallSwapBudget := {
  sb_window_started : Instant;
  sb_accepted : u64 }.
#[export] Instance SmallSwapBudget_eta : RecordEta SmallSwapBudget :=
  fields Build_SmallSwapBudget <&> sb_window_started <&> sb_accepted.
Definition allow_small_scavenger_candidate (now : Instant) (guard : SmallSwapBudget)
  : SmallSwapBudget * bool :=
  let guard := if secs <=? elapsed now (sb_window_started guard) then
                 {| sb_window_started := now; sb_accepted := 0 |}
               else guard in
  if sb_accepted guard <? SMALL_SCAVENGER_BUDGET_PER_SEC then
    (guard <[ sb_accepted ::= u64_sadd (sb_accepted guard) 1 ]>, true)
  else (guard, false).
