(* ===== verification/Batch.v ===== *)
(** * The micro-batch ([mev/runtime.rs])

    Candidates ready for execution wait in a small batch; when it is full or
    its window is over the best one is handed to the executor. *)
From S2P Require Import Prelude F64 Text Ethers Opportunity.
#[local] Open Scope Z_scope.

Definition MICROBATCH_WINDOW_MS : Z := 45.
Definition MICROBATCH_MAX_CANDIDATES : nat := 4.

Record PendingExecutionCandidate := {
  pc_opportunity : MevOpportunity;
  pc_ev_real_usd : f64;
  pc_p_positive : f64;
  pc_capital_efficiency : f64;
  pc_relay_score : f64;
  pc_context_priority_score : f64 }.

Definition ranking_score (self : PendingExecutionCandidate) : f64 :=
  (fmax (pc_ev_real_usd self) 0.0
   * (0.65 + fclamp01 (pc_p_positive self) * 0.35)
   * (0.70 + fclamp01 (pc_context_priority_score self) * 0.30)
   * (0.72 + fclamp01 (pc_capital_efficiency self) * 0.28)
   * (1.0 - fclamp01 (pc_relay_score self) * 0.20))%f64.

Record MicroBatcher := {
  opened_at : option Instant;
  candidates : list PendingExecutionCandidate }.
#[export] Instance MicroBatcher_eta : RecordEta MicroBatcher :=
  fields Build_MicroBatcher <&> opened_at <&> candidates.
Definition MicroBatcher_default : MicroBatcher := {| opened_at := None; candidates := [] |}.

Definition push (now : Instant) (self : MicroBatcher) (candidate : PendingExecutionCandidate) : MicroBatcher :=
  self <[ opened_at ::= match opened_at self with Some t => Some t | None => Some now end ]>
       <[ candidates ::= candidates self ++ [candidate] ]>.

Definition should_flush (now : Instant) (self : MicroBatcher) : bool :=
  (MICROBATCH_MAX_CANDIDATES <=? length (candidates self))%nat
  || match opened_at self with
     | Some opened => MICROBATCH_WINDOW_MS * millis <=? elapsed now opened
     | None => false
     end.

Definition has_pending (self : MicroBatcher) : bool := negb (bool_decide (candidates self = [])).

(** [Vec::swap_remove]: the last element takes the place of the one removed. *)
Definition swap_remove {A} (i : nat) (l : list A) : option (A * list A) :=
  x ← l !! i;
  y ← last l;
  Some (x, take (length l - 1) (<[i := y]> l)).

Definition by_ranking (left_ right_ : nat * PendingExecutionCandidate) : comparison :=
  total_cmp (ranking_score left_.2) (ranking_score right_.2).
(** The best candidate and how many are left. *)
Definition drain_best (now : Instant) (self : MicroBatcher)
  : MicroBatcher * option (PendingExecutionCandidate * usize) :=
  match max_by by_ranking (imap pair (candidates self)) ≫= (fun c => swap_remove c.1 (candidates self)) with
  | None => (self, None)
  | Some (best, rest) =>
      ({| opened_at := if bool_decide (rest = []) then None else Some now; candidates := rest |},
       Some (best, length rest))
  end.

(** ** The batch in the loop of [run] *)

(** Each arm reads the clock when it pushes, tests and drains. *)
Inductive BatchEvent :=
| Ready (candidate : PendingExecutionCandidate) (pushed tested drained : Instant)
| FlushTick (tested drained : Instant).

(** [flush_candidate_batch]: what is handed to [executor.handle]. *)
Definition flush_candidate_batch (now : Instant) (self : MicroBatcher)
  : MicroBatcher * option PendingExecutionCandidate :=
  let '(self, best) := drain_best now self in (self, fst <$> best).
Definition flush_if_due (tested drained : Instant) (self : MicroBatcher)
  : MicroBatcher * option PendingExecutionCandidate :=
  if should_flush tested self then flush_candidate_batch drained self else (self, None).
Definition batch_step (self : MicroBatcher) (e : BatchEvent) : MicroBatcher * option PendingExecutionCandidate :=
  match e with
  | Ready candidate pushed tested drained => flush_if_due tested drained (push pushed self candidate)
  | FlushTick tested drained => flush_if_due tested drained self
  end.
(** The events one after the other, and what was handed over. *)
Fixpoint batch_run (self : MicroBatcher) (es : list BatchEvent)
  : MicroBatcher * list PendingExecutionCandidate :=
  match es with
  | [] => (self, [])
  | e :: es =>
      let '(self, out) := batch_step self e in
      let '(self, outs) := batch_run self es in
      (self, option_list out ++ outs)
  end.
Definition received (es : list BatchEvent) : list PendingExecutionCandidate :=
  omap (fun e => match e with Ready c _ _ _ => Some c | FlushTick _ _ => None end) es.
