(* ===== verification/BatchFacts.v ===== *)
(** * Properties of the micro-batch

    Nothing is lost or handed over twice, at most three candidates wait, and
    the one handed over ranks highest. *)
From S2P Require Import Prelude F64 Text Ethers Opportunity Batch.
#[local] Open Scope Z_scope.

(** ** Removal *)

Lemma swap_in_perm {A} (l1 l2 : list A) x y : last (x::l2) = Some y -> x :: take (length (l1 ++ x :: l2) - 1) (<[length l1:=y]> (l1 ++ x :: l2)) ≡ₚ l1 ++ x :: l2.
Proof.
  intros Y.
  rewrite insert_app_r_alt by lia. rewrite Nat.sub_diag. cbn [insert list_insert].
  assert (E : take (length (l1 ++ x :: l2) - 1) (l1 ++ y :: l2) = l1 ++ take (length l2) (y :: l2)).
  { rewrite length_app. simpl. rewrite take_app. f_equal; [apply take_ge; lia|]. f_equal. lia. }
  rewrite E. clear E.
  destruct l2 as [|z l2 _] using rev_ind; [simpl in *|].
  - rewrite app_nil_r. apply Permutation_cons_append.
  - rewrite app_comm_cons, last_snoc in Y. injection Y as ->.
   assert (E : take (length (l2 ++ [y])) (y :: l2 ++ [y]) = y :: l2).
   { change (y :: l2 ++ [y]) with ((y :: l2) ++ [y]). apply take_app_length'. rewrite length_app. simpl. lia. }
   rewrite E.
   rewrite <- (Permutation_middle l1 (l2 ++ [y]) x). constructor. apply Permutation_app_head. apply Permutation_cons_append.
Qed.
Lemma swap_remove_perm {A} i (l : list A) x rest : swap_remove i l = Some (x, rest) -> x :: rest ≡ₚ l.
Proof.
  unfold swap_remove. intros (x' & L & H)%bind_Some. apply bind_Some in H as (y & Y & H). injection H as <- <-.
  destruct (list_elem_of_split_length _ _ _ L) as (l1 & l2 & -> & ->). apply swap_in_perm.
  by rewrite last_app_cons in Y.
Qed.
Lemma swap_remove_length {A} i (l : list A) x rest : swap_remove i l = Some (x, rest) -> length l = S (length rest).
Proof. intros H%swap_remove_perm. by rewrite <- (Permutation_length H). Qed.

Lemma swap_remove_lookup {A} i (l : list A) x rest : swap_remove i l = Some (x, rest) -> l !! i = Some x.
Proof. unfold swap_remove. intros (x' & L & H)%bind_Some. by apply bind_Some in H as (y & _ & [= -> _]). Qed.

Lemma swap_remove_Some {A} i (l : list A) x : l !! i = Some x -> exists rest, swap_remove i l = Some (x, rest).
Proof.
  intros L. unfold swap_remove. rewrite L. cbn [mbind option_bind].
  destruct (last l) as [y|] eqn:Y; [by eexists|]. apply last_None in Y as ->. done.
Qed.

(** ** Draining *)

Lemma max_of_nonempty {A} (cmp : A -> A -> comparison) x l : exists m, max_by cmp (x :: l) = Some m.
Proof. by eexists. Qed.

Lemma drain_best_empty now b : candidates b = [] -> drain_best now b = (b, None).
Proof. intros E. unfold drain_best. by rewrite E. Qed.

Lemma imap_pair_elem {A} (l : list A) p : p ∈ imap pair l -> l !! p.1 = Some p.2.
Proof. intros (i & x & -> & L)%elem_of_lookup_imap. exact L. Qed.

Lemma total_cmp_lt_iff a b : total_cmp a b <> Lt <-> f64_key b <= f64_key a.
Proof. unfold total_cmp. destruct (Z.compare_spec (f64_key a) (f64_key b)); (split; [lia || done|lia || done]). Qed.

(** Draining a batch that is not empty hands over a candidate of the batch
    whose score no other exceeds in the total order of floats, leaves exactly
    the others, says how many, and reopens the window when some are left. *)
Theorem drain_best_spec now b (H : candidates b <> []) :
  exists best rest, drain_best now b =
      ({| opened_at := if bool_decide (rest = []) then None else Some now; candidates := rest |},
       Some (best, length rest)) /\
    best :: rest ≡ₚ candidates b /\
    forall c, c ∈ candidates b -> f64_key (ranking_score c) <= f64_key (ranking_score best).
Proof.
  unfold drain_best. destruct (candidates b) as [|x l] eqn:E; [done|]. clear H.
  destruct (max_of_nonempty by_ranking (0%nat, x) (imap (fun i y => (S i, y)) l)) as [[i m] M].
  change ((0%nat, x) :: imap _ l) with (imap pair (x :: l)) in M. rewrite M. cbn [mbind option_bind].
  pose proof (imap_pair_elem _ _ (max_by_elem _ _ _ M)) as L. simpl in L.
  destruct (swap_remove_Some _ _ _ L) as [rest R]. simpl. rewrite R.
  exists m, rest. split; [done|]. split; [by eapply swap_remove_perm|].
  intros c C. apply list_elem_of_lookup in C as [j J].
  apply total_cmp_lt_iff. apply (max_by_top by_ranking _ (i, m)) with (x := (j, c)) in M; [exact M|..].
  - intros p. apply total_cmp_lt_iff. lia.
  - intros p q r. unfold by_ranking. rewrite !total_cmp_lt_iff. lia.
  - intros p q. unfold by_ranking. rewrite total_cmp_lt_iff. unfold total_cmp.
    destruct (Z.compare_spec (f64_key (ranking_score p.2)) (f64_key (ranking_score q.2))); lia || done.
  - apply elem_of_lookup_imap. by exists j, c.
Qed.

(** ** The loop *)

Lemma flush_if_due_perm t d b b' out :
  flush_if_due t d b = (b', out) -> option_list out ++ candidates b' ≡ₚ candidates b.
Proof.
  unfold flush_if_due, flush_candidate_batch. destruct (should_flush t b); [|by intros [= <- <-]].
  destruct (decide (candidates b = [])) as [E|N].
  - rewrite drain_best_empty by done. by intros [= <- <-].
  - destruct (drain_best_spec d b N) as (best & rest & -> & P & _). by intros [= <- <-].
Qed.

(** What is left after a test is short of a full batch. *)
Lemma flush_if_due_short t d b b' out :
  (length (candidates b) <= MICROBATCH_MAX_CANDIDATES)%nat -> flush_if_due t d b = (b', out) ->
  (length (candidates b') < MICROBATCH_MAX_CANDIDATES)%nat.
Proof.
  intros L H. pose proof (flush_if_due_perm _ _ _ _ _ H) as P. apply Permutation_length in P.
  rewrite length_app in P. unfold flush_if_due, flush_candidate_batch in H.
  destruct (should_flush t b) eqn:F.
  - destruct (decide (candidates b = [])) as [E|N].
    + rewrite E in P. unfold MICROBATCH_MAX_CANDIDATES. simpl in P. lia.
    + destruct (drain_best_spec d b N) as (best & rest & D & _). rewrite D in H. injection H as <- <-.
      simpl in *. lia.
  - injection H as <- <-. unfold should_flush in F. apply orb_false_iff in F as [F _].
    by apply Nat.leb_gt in F.
Qed.

Lemma batch_step_perm b e b' out :
  batch_step b e = (b', out) -> option_list out ++ candidates b' ≡ₚ candidates b ++ received [e].
Proof.
  destruct e as [c p t d|t d]; intros H%flush_if_due_perm; rewrite H; simpl; [done|by rewrite app_nil_r].
Qed.

Lemma batch_step_short b e b' out :
  (length (candidates b) < MICROBATCH_MAX_CANDIDATES)%nat -> batch_step b e = (b', out) ->
  (length (candidates b') < MICROBATCH_MAX_CANDIDATES)%nat.
Proof.
  intros L. destruct e as [c p t d|t d]; intros H; eapply flush_if_due_short; [|exact H| |exact H].
  - simpl. rewrite length_app. simpl. lia.
  - lia.
Qed.

Lemma received_cons e es : received (e :: es) = received [e] ++ received es.
Proof. by destruct e. Qed.

Lemma batch_run_inv es : forall b b' outs,
  (length (candidates b) < MICROBATCH_MAX_CANDIDATES)%nat -> batch_run b es = (b', outs) ->
  (length (candidates b') < MICROBATCH_MAX_CANDIDATES)%nat /\
  outs ++ candidates b' ≡ₚ candidates b ++ received es.
Proof.
  induction es as [|e es IH]; intros b b' outs L H.
  - injection H as <- <-. by rewrite app_nil_r.
  - cbn [batch_run] in H. destruct (batch_step b e) as [b1 out] eqn:S.
    destruct (batch_run b1 es) as [b2 outs2] eqn:R. injection H as <- <-.
    pose proof (batch_step_perm _ _ _ _ S) as P. apply batch_step_short in S; [|done].
    destruct (IH _ _ _ S R) as [L2 P2]. split; [done|].
    rewrite <- app_assoc, P2, received_cons, app_assoc, app_assoc, P. done.
Qed.

(** Over any sequence of candidates and ticks, whatever the clock shows,
    what was handed to the executor together with what still waits is exactly
    what was received: nothing is lost, nothing handed over twice; and fewer
    candidates wait than fill a batch. *)
Theorem batch_loses_nothing es :
  let '(b, outs) := batch_run MicroBatcher_default es in
  outs ++ candidates b ≡ₚ received es /\ (length (candidates b) < MICROBATCH_MAX_CANDIDATES)%nat.
Proof.
  destruct (batch_run MicroBatcher_default es) as [b outs] eqn:R.
  apply batch_run_inv in R as [L P]; [done|]. simpl. unfold MICROBATCH_MAX_CANDIDATES. lia.
Qed.

(** ** Concrete runs *)

Definition sample_opportunity : MevOpportunity :=
  {| detected_at := 0; victim_tx := 1; victim_transaction := None; execution_payload := None;
     op_router := 2; op_token_in := 3; op_token_out := 4; op_selector := []; decode_source := "abi";
     decode_confidence := 1.0; preferred_relay := None |}.
Definition sample_candidate (ev : f64) : PendingExecutionCandidate :=
  {| pc_opportunity := sample_opportunity; pc_ev_real_usd := ev; pc_p_positive := 0.5;
     pc_capital_efficiency := 0.5; pc_relay_score := 0.5; pc_context_priority_score := 0.5 |}.
Definition sample_batch : MicroBatcher :=
  {| opened_at := Some 0; candidates := [sample_candidate 1.0; sample_candidate 3.0; sample_candidate 2.0] |}.

Lemma drain_best_spec_witness :
  exists best rest, drain_best 5 sample_batch =
    ({| opened_at := if bool_decide (rest = []) then None else Some 5; candidates := rest |},
     Some (best, length rest)) /\ best :: rest ≡ₚ candidates sample_batch.
Proof.
  destruct (drain_best_spec 5 sample_batch) as (best & rest & D & P & _); [discriminate|].
  exists best, rest. exact (conj D P).
Defined.
Example drained_is_second : snd (drain_best 5 sample_batch) = Some (sample_candidate 3.0, 2%nat).
Proof. vm_compute. reflexivity. Qed.
