(* ===== verification/IntakeFacts.v ===== *)
(** * Properties of the intake

    The memory of hashes as a window, tasks enqueued once, the range of the
    lookup budget, the rate of small candidates and the reconnection backoff. *)
From S2P Require Import Prelude F64 Text Ethers Config Rpc Adaptive.
From S2P Require Import Executor Calldata Decode EnvVars Intake.
#[local] Open Scope Z_scope.

(** ** Hashes seen *)

(** The specification: a window over the distinct hashes, the oldest first. *)
Definition lastn {A} (n : nat) (l : list A) : list A := drop (length l - n) l.
Definition window_mark (w : list H256) (h : H256) : list H256 * bool :=
  if bool_decide (h ∈ w) then (w, false) else (lastn SEEN_CAPACITY (w ++ [h]), true).

Record seen_inv (s : SeenTxs) : Prop := {
  seen_set : seen_hashes s = list_to_set (seen_order s);
  seen_nodup : NoDup (seen_order s);
  seen_bound : (length (seen_order s) <= SEEN_CAPACITY)%nat }.

Lemma lastn_short {A} n (l : list A) : (length l <= n)%nat -> lastn n l = l.
Proof. intros L. unfold lastn. replace (_ - _)%nat with 0%nat by lia. done. Qed.
Lemma length_lastn {A} n (l : list A) : (length (lastn n l) <= n)%nat.
Proof. unfold lastn. rewrite length_drop. lia. Qed.
Lemma lastn_suffix {A} n (l : list A) : exists k, l = k ++ lastn n l.
Proof. exists (take (length l - n) l). unfold lastn. by rewrite take_drop. Qed.
Lemma lastn_last {A} n (l : list A) x : (1 <= n)%nat -> x ∈ lastn n (l ++ [x]).
Proof.
  intros N. unfold lastn. rewrite length_app. simpl. rewrite drop_app_le by lia.
  apply elem_of_app. right. by left.
Qed.

Lemma forget_oldest_spec n : forall order hashes,
  hashes = list_to_set order -> NoDup order ->
  forget_oldest n hashes order =
    {| seen_hashes := list_to_set (lastn n order); seen_order := lastn n order |}.
Proof.
  induction order as [|old rest IH]; intros hashes -> N; [by rewrite lastn_short by (simpl; lia)|].
  cbn [forget_oldest]. apply NoDup_cons in N as [O N]. destruct (n <? _)%nat eqn:L.
  - apply Nat.ltb_lt in L. cbn [length] in L. rewrite IH; [|set_solver|done].
    unfold lastn. cbn [length]. by replace (S (length rest) - n)%nat with (S (length rest - n)) by lia.
  - apply Nat.ltb_ge in L. by rewrite lastn_short by lia.
Qed.

Lemma seen_new_inv : seen_inv SeenTxs_new.
Proof. split; simpl; [done|constructor|lia]. Qed.

Lemma mark_seen_inv s h : seen_inv s ->
  let '(s', fresh) := mark_seen_tx s h in
  seen_inv s' /\ (seen_order s', fresh) = window_mark (seen_order s) h /\ h ∈ seen_order s'.
Proof.
  intros [S N B]. unfold mark_seen_tx, window_mark. rewrite S.
  destruct (decide (h ∈ seen_order s)) as [I|I].
  - rewrite !bool_decide_true by set_solver. repeat split; done.
  - rewrite !bool_decide_false by set_solver.
    assert (N' : NoDup (seen_order s ++ [h])).
    { apply NoDup_app. split; [done|]. split; [set_solver|apply NoDup_singleton]. }
    rewrite forget_oldest_spec; [|set_solver|done]. cbn [seen_order seen_hashes].
    split; [|split; [done|apply lastn_last; unfold SEEN_CAPACITY; lia]].
    split; [done| |apply length_lastn].
    destruct (lastn_suffix SEEN_CAPACITY (seen_order s ++ [h])) as [k E].
    rewrite E in N'. by apply NoDup_app in N' as (_ & _ & ?).
Qed.

(** Hashes marked one after the other, with what each mark answered. *)
Fixpoint mark_all (s : SeenTxs) (hs : list H256) : SeenTxs * list bool :=
  match hs with
  | [] => (s, [])
  | h :: hs => let '(s, b) := mark_seen_tx s h in let '(s, bs) := mark_all s hs in (s, b :: bs)
  end.
Fixpoint window_all (w : list H256) (hs : list H256) : list H256 * list bool :=
  match hs with
  | [] => (w, [])
  | h :: hs => let '(w, b) := window_mark w h in let '(w, bs) := window_all w hs in (w, b :: bs)
  end.

(** C27: the memory of hashes refines a window of the latest 8192 distinct
    hashes: on every sequence of hashes the two give the same answers, the set
    and the queue hold the same hashes, each once, and no more than 8192. *)
Theorem seen_refines_window hs :
  let '(s, answers) := mark_all SeenTxs_new hs in
  window_all [] hs = (seen_order s, answers) /\ seen_inv s.
Proof.
  assert (G : forall hs s, seen_inv s ->
    let '(s', answers) := mark_all s hs in
    window_all (seen_order s) hs = (seen_order s', answers) /\ seen_inv s').
  { clear hs. induction hs as [|h hs IH]; intros s I; [done|]. cbn [mark_all window_all].
    pose proof (mark_seen_inv s h I) as M. destruct (mark_seen_tx s h) as [s1 b].
    destruct M as (I1 & <- & _). specialize (IH s1 I1). destruct (mark_all s1 hs) as [s2 bs].
    destruct IH as [-> I2]. by split. }
  apply (G hs SeenTxs_new seen_new_inv).
Qed.

(** ** Each transaction is enqueued once *)

Section Scan.
Context (env : string -> option string) (clk : nat -> Instant) (avx2 : bool) (config : Config).

Lemma scan_item_seen paused q item self self' task events :
  seen_inv (seen self) ->
  scan_item env clk avx2 config paused q item self = Done (self', task, events) ->
  seen_inv (seen self') /\
  ((seen self' = seen self /\ task = None) \/
   (window_mark (seen_order (seen self)) (item_hash item) = (seen_order (seen self'), true) /\
    forall t, task = Some t -> task_hash t = item_hash item)).
Proof.
  intros I H. unfold scan_item in H. destruct paused; [injection H as <- <- _; auto|].
  pose proof (mark_seen_inv _ (item_hash item) I) as M.
  destruct (mark_seen_tx (seen self) (item_hash item)) as [s fresh]. destruct M as (I' & W & _).
  destruct fresh; simpl in H.
  - destruct item as [h|tx]; simpl in *.
    + destruct (should_enqueue _ _ _ _ _ _) as [[w [[bp allowed] evs]]|]; [|done]. injection H as <- <- _.
      split; [exact I'|]. right. split; [by rewrite <- W|]. intros t. by destruct allowed; intros [= <-].
    + destruct (pre_decode_tx_gate env avx2 config tx) as [[reason|]|]; simpl in H; [| |done].
      * destruct (decode_reject_selector_reason avx2 tx); [|done]. injection H as <- <- _.
        split; [exact I'|]. right. split; [by rewrite <- W|done].
      * injection H as <- <- _. split; [exact I'|]. right. split; [by rewrite <- W|]. by intros t [= <-].
  - injection H as <- <- _. split; [exact I'|]. left. split; [|done]. simpl.
    unfold window_mark in W. destruct (bool_decide _) eqn:D; [|done]. injection W as W.
    destruct I as [S1 _ _], I' as [S2 _ _], s as [sh so], (seen self) as [sh' so']. simpl in *. by subst.
Qed.

(** Items one after the other; each comes with whether the runtime is paused and
    the room in the queue. *)
Fixpoint scan_all (items : list (bool * nat * PendingMempoolItem)) (self : Intake)
  : outcome (Intake * list PendingHashTask) :=
  match items with
  | [] => Done (self, [])
  | (paused, q, item) :: items =>
      match scan_item env clk avx2 config paused q item self with
      | Panicked => Panicked
      | Done (self, task, _) =>
          match scan_all items self with
          | Panicked => Panicked
          | Done (self, tasks) => Done (self, option_list task ++ tasks)
          end
      end
  end.

Lemma window_mark_grows w h w' :
  (length w < SEEN_CAPACITY)%nat -> window_mark w h = (w', true) -> w' = w ++ [h] /\ h ∉ w.
Proof.
  intros L. unfold window_mark. destruct (decide (h ∈ w)) as [I|I].
  - by rewrite bool_decide_true by done.
  - rewrite bool_decide_false by done. rewrite lastn_short; [by intros [= <-]|]. rewrite length_app. simpl. lia.
Qed.

Lemma scan_all_inv items : forall self self' tasks,
  seen_inv (seen self) -> (length (seen_order (seen self)) + length items <= SEEN_CAPACITY)%nat ->
  scan_all items self = Done (self', tasks) ->
  NoDup (task_hash <$> tasks) /\ (forall t, t ∈ tasks -> task_hash t ∉ seen_order (seen self)).
Proof.
  induction items as [|[[paused q] item] items IH]; intros self self' tasks I L H.
  - injection H as _ <-. split; [constructor|by intros t ?%elem_of_nil].
  - cbn [scan_all] in H.
    destruct (scan_item env clk avx2 config paused q item self) as [[[s1 task] evs]|] eqn:S; [|done].
    destruct (scan_all items s1) as [[s2 ts]|] eqn:A; [|done]. injection H as _ <-. cbn [length] in L.
    apply scan_item_seen in S as [I1 [[E ->]|[W T]]]; [| |done].
    + destruct (IH s1 s2 ts) as [N F]; [exact I1|rewrite E; lia|exact A|]. rewrite E in F. by split.
    + apply window_mark_grows in W as [E O]; [|lia].
      destruct (IH s1 s2 ts I1) as [N F]; [rewrite E, length_app; simpl; lia|exact A|].
      rewrite E in F. destruct task as [t|]; simpl; [|split; [done|intros t; specialize (F t); set_solver]].
      specialize (T t eq_refl). split.
      * constructor; [|done]. rewrite list_elem_of_fmap. intros (t' & Et & In).
        apply (F t' In). rewrite <- Et, T. set_solver.
      * intros t' [->|In]%elem_of_cons; [by rewrite T|]. specialize (F t' In). set_solver.
Qed.

(** Over any sequence of at most 8192 items of the feeds, hashes and full
    transactions mixed, no transaction is enqueued twice, whatever is shed,
    rejected or skipped while the runtime is paused. *)
Theorem tasks_are_enqueued_once items self bp w tasks
    (Hself : self = {| seen := SeenTxs_new; backpressure := bp; intake_world := w |})
    (Hlen : (length items <= SEEN_CAPACITY)%nat)
    (Hrun : exists self', scan_all items self = Done (self', tasks)) :
  NoDup (task_hash <$> tasks).
Proof.
  destruct Hrun as [self' H]. apply scan_all_inv in H as [N _]; [done|subst; apply seen_new_inv|].
  subst. simpl. lia.
Qed.

(** A hash that was shed is not looked up again while it is remembered: an
    item with the hash of the item just handled enqueues nothing and records
    nothing, even when the first was dropped for lack of budget and the second
    is the full transaction. *)
Theorem shed_hashes_are_not_retried q q' item item' self self' task events
    (Hinv : seen_inv (seen self)) (Hsame : item_hash item' = item_hash item)
    (Hscan : scan_item env clk avx2 config false q item self = Done (self', task, events)) :
  scan_item env clk avx2 config false q' item' self' =
    Done (self', None, []).
Proof.
  assert (M : mark_seen_tx (seen self') (item_hash item') = (seen self', false)).
  { rewrite Hsame. unfold mark_seen_tx. rewrite bool_decide_true; [done|].
    unfold scan_item in Hscan. pose proof (mark_seen_inv _ (item_hash item) Hinv) as M.
    destruct (mark_seen_tx (seen self) (item_hash item)) as [s fresh]. destruct M as ([E _ _] & _ & In).
    assert (seen self' = s) as ->; [|rewrite E; set_solver].
    destruct fresh, item as [h|tx]; simpl in Hscan; try (by injection Hscan as <- _ _).
    - destruct (should_enqueue _ _ _ _ _ _) as [[w [[bp allowed] evs]]|]; [|done]. by injection Hscan as <- _ _.
    - destruct (pre_decode_tx_gate env avx2 config tx) as [[reason|]|]; simpl in Hscan; [| |done].
      + destruct (decode_reject_selector_reason avx2 tx); [|done]. by injection Hscan as <- _ _.
      + by injection Hscan as <- _ _. }
  unfold scan_item. rewrite M. by destruct self'.
Qed.
End Scan.

(** ** The lookup budget *)

(** The floor of the budget wins over the configuration and the capacity: with
    one lookup per second configured and a reader that serves four, ten are
    allowed. *)
Example lookup_budget_above_configuration :
  effective_pending_lookup_budget_for_mode Scavenger (Some 1)
    {| available_readers := 1; available_read_capacity_per_sec := 4; rate_limited_readers := 0;
       failing_readers := 0 |} = 10.
Proof. vm_compute. reflexivity. Qed.

(** ** The rate of small candidates *)

Fixpoint small_run (guard : SmallSwapBudget) (times : list Instant) : list (Instant * bool) :=
  match times with
  | [] => []
  | t :: times => let '(guard, ok) := allow_small_scavenger_candidate t guard in (t, ok) :: small_run guard times
  end.
(** How many were accepted from [s] on, for a second. *)
Definition accepted_from (s : Instant) (l : list (Instant * bool)) : Z :=
  Z.of_nat (length (filter (fun p : Instant * bool => p.2 = true /\ s <= p.1 < s + secs) l)).
(** What the window that is open leaves to the second from [s]. *)
Definition allowance (s : Instant) (g : SmallSwapBudget) : Z :=
  let ws := sb_window_started g in
  if ws + secs <=? s then 16
  else if ws <=? s then 16 - sb_accepted g
  else if ws <? s + secs then 8 - sb_accepted g
  else 0.

Lemma accepted_cons s t ok l :
  accepted_from s ((t, ok) :: l) =
  (if ok && (s <=? t) && (t <? s + secs) then 1 else 0) + accepted_from s l.
Proof.
  unfold accepted_from. rewrite filter_cons. cbn [fst snd].
  destruct (decide (ok = true /\ s <= t < s + secs)) as [[-> [A B]]|N].
  - apply Z.leb_le in A as ->. apply Z.ltb_lt in B as ->. cbn [andb length]. lia.
  - replace (ok && (s <=? t) && (t <? s + secs)) with false; [lia|]. symmetry.
    destruct ok; [|done]. cbn [andb]. apply andb_false_iff. rewrite Z.leb_gt, Z.ltb_ge. lia.
Qed.

Lemma small_run_allowance s : forall times g,
  0 <= sb_accepted g <= 8 -> Sorted Z.le (sb_window_started g :: times) ->
  accepted_from s (small_run g times) <= allowance s g.
Proof.
  induction times as [|t times IH]; intros g A S.
  - unfold accepted_from, allowance. simpl. repeat case_match; lia.
  - cbn [small_run]. apply Sorted_inv in S as [S H]. apply HdRel_inv in H.
    unfold allow_small_scavenger_candidate, SMALL_SCAVENGER_BUDGET_PER_SEC.
    assert (E : elapsed t (sb_window_started g) = t - sb_window_started g) by (unfold elapsed; lia).
    rewrite E. clear E. unfold u64_sadd, sat_add.
    assert (Tl : forall g', sb_window_started g' <= t -> Sorted Z.le (sb_window_started g' :: times)).
    { intros g' L. apply Sorted_inv in S as [S1 S2]. constructor; [done|].
      destruct times; constructor. apply HdRel_inv in S2. lia. }
    destruct (secs <=? t - sb_window_started g) eqn:W.
    + simpl. rewrite accepted_cons. change (Z.min (0 + 1) U64_MAX) with 1.
      specialize (IH {| sb_window_started := t; sb_accepted := 1 |} ltac:(simpl; lia) (Tl (Build_SmallSwapBudget t 1) (Z.le_refl t))).
      unfold allowance in *. simpl in *. unfold secs in *. repeat case_match; lia.
    + destruct (sb_accepted g <? 8) eqn:B.
      * rewrite accepted_cons. destruct g as [ws acc]. simpl in *.
        specialize (IH {| sb_window_started := ws; sb_accepted := Z.min (acc + 1) U64_MAX |}).
        unfold U64_MAX in *. specialize (IH ltac:(simpl; lia) (Tl (Build_SmallSwapBudget ws _) H)).
        unfold allowance in *. simpl in *. unfold secs in *. repeat case_match; lia.
      * rewrite accepted_cons. simpl. specialize (IH g A (Tl _ H)). lia.
Qed.

(** Small candidates are limited in rate: whatever the times of the calls,
    any second accepts at most sixteen, twice the eight of one window, since
    the window is not a sliding one. *)
Theorem small_candidates_rate g times s
    (Hacc : 0 <= sb_accepted g <= 8) (Hmono : Sorted Z.le (sb_window_started g :: times)) :
  accepted_from s (small_run g times) <= 16.
Proof.
  pose proof (small_run_allowance s times g Hacc Hmono) as R. unfold allowance in R.
  repeat case_match; lia.
Qed.

(** Sixteen are reached: eight at the end of a window, eight at the start of the next. *)
Lemma small_candidates_rate_witness :
  accepted_from 900000000 (small_run {| sb_window_started := 0; sb_accepted := 0 |}
    (replicate 9 999999999 ++ replicate 9 1000000000)) = 16 /\
  accepted_from 900000000 (small_run {| sb_window_started := 0; sb_accepted := 0 |}
    (replicate 9 999999999 ++ replicate 9 1000000000)) <= 16.
Proof.
  split; [vm_compute; reflexivity|]. apply small_candidates_rate; [simpl; lia|].
  repeat (constructor; try (simpl; lia)).
Defined.

(** ** Reconnection *)

(** The delay before a feed reconnects does not shrink as failures add up
    and never exceeds the configured maximum. *)
Theorem reconnect_backoff_spec env url n m
    (Hn : 0 <= n <= m)
    (Hbase : forall b, env_parsed env parse_u64 "MEMPOOL_WS_RECONNECT_BASE_MS" = Some b -> 0 <= b) :
  mempool_ws_reconnect_delay env url n <= mempool_ws_reconnect_delay env url m /\
  mempool_ws_reconnect_delay env url m <=
    default (if contains (to_lower url) "alchemy.com" then 300 else 60)
      (env_parsed env parse_u64 "MEMPOOL_WS_RECONNECT_MAX_SECS") * secs.
Proof.
  unfold mempool_ws_reconnect_delay.
  set (b := default 1500 _). set (mx := default _ (env_parsed env parse_u64 "MEMPOOL_WS_RECONNECT_MAX_SECS")).
  assert (B : 0 <= b). { unfold b. destruct (env_parsed _ _ _) eqn:E; simpl; [by apply Hbase|lia]. }
  assert (P : 2 ^ Z.min (sat_sub n 1) 7 <= 2 ^ Z.min (sat_sub m 1) 7)
    by (apply Z.pow_le_mono_r; unfold sat_sub; lia).
  unfold u64_smul, sat_mul, millis. split; [|lia]. apply Z.min_le_compat_r. nia.
Qed.

(** ** Concrete runs *)

Definition no_env (_ : string) : option string := None.
Definition still (_ : nat) : Instant := 0.
Definition empty_world : Rpc.World :=
  {| fleet := {| endpoints := []; rotation := 0; read_preference := Auto; send_preference := Auto;
                 score_cache := {| updated_at := 0; read_scores := []; send_scores := [] |} |};
     tick := 0 |}.
Definition sample_intake : Intake :=
  {| seen := SeenTxs_new; backpressure := PendingLookupBackpressure_new 0; intake_world := empty_world |}.
(** Two hashes, the second shed for lack of room and then offered again. *)
Definition sample_items : list (bool * nat * PendingMempoolItem) :=
  [(false, Z.to_nat 8000, ItemHash 5); (false, Z.to_nat 8000, ItemHash 5); (false, 100%nat, ItemHash 6);
   (false, Z.to_nat 8000, ItemHash 6)].
Abbreviation sample_scan := (scan_all no_env still true (sample_config Scavenger false []) sample_items sample_intake).

Example sample_scan_tasks :
  match sample_scan with Done (_, tasks) => task_hash <$> tasks | Panicked => [] end = [5].
Proof. vm_compute. reflexivity. Qed.

Lemma tasks_are_enqueued_once_witness :
  exists tasks, (exists self', sample_scan = Done (self', tasks)) /\ NoDup (task_hash <$> tasks).
Proof.
  assert (R : exists self' tasks, sample_scan = Done (self', tasks)) by (vm_compute; eauto).
  destruct R as (self' & tasks & R). exists tasks. split; [by exists self'|].
  apply (tasks_are_enqueued_once no_env still true (sample_config Scavenger false []) sample_items
           sample_intake (PendingLookupBackpressure_new 0) empty_world tasks).
  - reflexivity.
  - unfold sample_items, SEEN_CAPACITY. simpl. lia.
  - exists self'. exact R.
Defined.

Definition shed_item : outcome (Intake * option PendingHashTask * list Event) :=
  scan_item no_env still true (sample_config Scavenger false []) false 100 (ItemHash 6) sample_intake.
Lemma shed_hashes_are_not_retried_witness :
  exists self' events, shed_item = Done (self', None, events) /\
    scan_item no_env still true (sample_config Scavenger false []) false (Z.to_nat 8000) (ItemHash 6) self' =
      Done (self', None, []).
Proof.
  assert (R : exists self' events, shed_item = Done (self', None, events)) by (vm_compute; eauto).
  destruct R as (self' & events & R). exists self', events. split; [exact R|].
  apply (shed_hashes_are_not_retried no_env still true (sample_config Scavenger false []) 100 _
           (ItemHash 6) _ sample_intake _ None events seen_new_inv eq_refl R).
Defined.

Lemma reconnect_backoff_spec_witness :
  mempool_ws_reconnect_delay no_env "wss://x" 1 = 1500 * millis /\
  mempool_ws_reconnect_delay no_env "wss://x" 1 <= mempool_ws_reconnect_delay no_env "wss://x" 9.
Proof.
  split; [vm_compute; reflexivity|]. apply reconnect_backoff_spec; [lia|discriminate].
Defined.
