(* ===== verification/PayloadErrors.v ===== *)
(** * Errors of payload building ([mev/runtime.rs])

    How the messages of failed builds are cut, joined and classified: whether
    the RPC endpoint is to blame, what is shown, and the sample kept of the
    reject. Address and float rendering and [serde_json] are parameters. *)
From S2P Require Import Prelude F64 Text Ethers Config Simulator Payload Rpc.
From S2P Require Import Calldata Decode EnvVars Intake Gates.
#[local] Open Scope string_scope.
#[local] Open Scope Z_scope.

(** ** Text *)

(** [str::split_once] at a string. *)
Fixpoint split_once_str (sep s : string) : option (string * string) :=
  if starts_with s sep then Some ("", substring (String.length sep) (String.length s) s)
  else match s with
       | "" => None
       | String c t => match split_once_str sep t with
                       | Some (a, b) => Some (String c a, b)
                       | None => None
                       end
       end.
Definition EDGE_SAMPLE_MARK : string := " | edge_sample=".
Definition strip_edge_sample (error : string) : string :=
  match split_once_str EDGE_SAMPLE_MARK error with Some (a, _) => a | None => error end.

(** [split_whitespace]. *)
Fixpoint words_acc (word s : string) : list string :=
  let flush := if string_eqb word "" then [] else [word] in
  match s with
  | "" => flush
  | String c t => if is_whitespace c then (flush ++ words_acc "" t)%list
                  else words_acc (word +:+ String c "") t
  end.
Definition split_whitespace (s : string) : list string := words_acc "" s.
Definition compact_text (value : string) (max_chars : nat) : string :=
  let compact := String.concat " " (split_whitespace value) in
  if (String.length compact <=? max_chars)%nat then compact
  else substring 0 (max_chars - 3) compact +:+ "...".

Definition has_any (s : string) (patterns : list string) : bool := existsb (contains s) patterns.

(** The first three different messages, without regard to case. *)
Fixpoint unique_errors (unique errors : list string) : list string :=
  match errors with
  | [] => unique
  | err :: errors =>
      let normalized := trim err in
      if string_eqb normalized "" then unique_errors unique errors
      else
        let unique := if existsb (fun existing => eq_ignore_ascii_case existing normalized) unique then unique
                      else (unique ++ [normalized])%list in
        if (3 <=? Datatypes.length unique)%nat then unique else unique_errors unique errors
  end.
Definition compact_payload_errors (errors : list string) : string :=
  match unique_errors [] errors with
  | [] => "all payload builders failed without error detail"
  | unique => String.concat " | " unique
  end.

(** ** Whether the endpoint is to blame *)

Definition ECONOMIC_ERRORS : list string :=
  [ "no positive gross"; "no roi-positive"; "victim price impact too high"; "token normalization failed";
    "missing decimals/price metadata"; "v3_tick_data_missing_for_shadow_ev";
    "pool after victim does not support reverse path"; "pool_token_mismatch"; "zero_reserves";
    "empty_liquidity"; "liquidity_or_price"; "executor_address" ].
Definition RPC_ERRORS : list string :=
  [ "deserialization error"; "eof while parsing"; "empty response"; "provider error"; "request error";
    "connection"; "socket"; "dns"; "econnreset"; "broken pipe"; "timeout"; "timed out";
    "deadline exceeded"; "429"; "rate limit"; "too many requests"; "throughput limit";
    "capacity limit exceeded"; "quota exceeded"; "billing"; "lookup failed" ].
Definition payload_builder_rpc_failure_kind (error : string) : option RpcFailureKind :=
  let lower := to_lower (strip_edge_sample error) in
  if has_any lower ECONOMIC_ERRORS then None
  else if has_any lower RPC_ERRORS then Some (classify_failure lower)
  else None.

(** ** What is shown *)

Definition human_reason (lower : string) : string :=
  let has := has_any lower in
  if has ["missing uniswap v2 factory"; "missing uniswap v3 factory"] then "factory not configured"
  else if has ["pair not found"; "pool not found"] then "pool not found"
  else if has ["failed to fetch pool state"; "pool_state_unavailable"] then "pool state unavailable"
  else if has ["pool_token_mismatch"] then "pool token mismatch"
  else if has ["zero_reserves"; "empty_liquidity"; "liquidity_or_price"] then "pool has no usable liquidity"
  else if has ["payload_builder_no_rpc_read_candidates"] then "no RPC builder available"
  else if has ["payload_builder_no_result"] then "payload builder returned no result"
  else if has ["v3_tick_data_missing_for_shadow_ev"] then "v3 tick data missing"
  else if has ["no positive gross"] then "no exploitable micro edge"
  else if has ["no roi-positive"] then "no profitable size after gas"
  else if has ["below minimum"] then "profit below configured floor"
  else if has ["reverse path"; "does not support"] then "unsupported reverse path"
  else if has ["executor_address"] then "executor contract not configured"
  else "payload build failed".
Definition human_payload_error (error : string) : string :=
  let clean_error := strip_edge_sample error in
  human_reason (to_lower clean_error) +:+ " (" +:+ compact_text clean_error 96 +:+ ")".

Definition is_v3 (signal : SwapSignal) : bool := match sw_kind signal with SwapV3 _ _ _ _ => true | SwapV2 => false end.
Definition payload_error_category (lower : string) (v3 : bool) : string :=
  let has := has_any lower in
  if has ["v2 factory unavailable"; "v3 factory unavailable"; "missing uniswap v2 factory";
          "missing uniswap v3 factory"] then "factory_wrong_or_unavailable"
  else if has ["v3 pool not found"] then "v3_fee_tier_or_pool_not_found"
  else if has ["pair not found"] then if v3 then "v3_routed_to_v2_pair_lookup" else "v2_pair_not_found"
  else if has ["pool after victim does not support reverse path"; "reverse path"] then
    "path_inverted_or_pool_token_mismatch"
  else if has ["failed to fetch pool state"; "pool_state_unavailable"] then "pool_state_unavailable"
  else if has ["pool_token_mismatch"] then "path_inverted_or_pool_token_mismatch"
  else if has ["zero_reserves"] then "pool_real_zero_reserves"
  else if has ["empty_liquidity"; "liquidity_or_price"] then "pool_real_no_liquidity"
  else if has ["payload_builder_no_rpc_read_candidates"] then "payload_builder_no_rpc_read_candidates"
  else if has ["payload_builder_no_result"] then "payload_builder_no_result"
  else if has ["victim price impact too high"] then "victim_price_impact_too_high"
  else if has ["v3_tick_data_missing_for_shadow_ev"] then "v3_tick_data_missing_for_shadow_ev"
  else if has ["no positive gross"] then "economic_no_positive_gross_edge"
  else if has ["no roi-positive"] then "economic_no_positive_net_after_gas"
  else if has ["below minimum"] then "economic_profit_below_floor"
  else "payload_builder_unclassified".

Section Text.
Context (debug_address : Address -> string) (debug_hash : H256 -> string).

Definition signal_route_kind_label (signal : SwapSignal) : string :=
  match sw_kind signal with
  | SwapV2 => "v2"
  | SwapV3 fee_tier _ _ _ => "v3 fee_tier=" +:+ show_Z fee_tier
  end.
Definition signal_path_label (signal : SwapSignal) : string :=
  let path := String.concat ">" (debug_address <$> sw_path signal) in
  if string_eqb path "" then "unknown" else path.

Definition show_min (signal : SwapSignal) (none : string) : string :=
  match sw_amount_out_min signal with Some value => show_Z value | None => none end.
Definition payload_error_detail (error : string) (signal : SwapSignal) : string :=
  let clean_error := strip_edge_sample error in
  payload_error_category (to_lower clean_error) (is_v3 signal)
  +:+ " route_kind=" +:+ signal_route_kind_label signal
  +:+ " amount_in=" +:+ show_Z (sw_amount_in signal)
  +:+ " amount_out_min=" +:+ show_min signal "unknown"
  +:+ " path=" +:+ signal_path_label signal
  +:+ " raw=" +:+ compact_text clean_error 240.

Definition short_hash (hash : H256) : string :=
  let full := debug_hash hash in
  if (String.length full <=? 14)%nat then full
  else substring 0 8 full +:+ "..." +:+ substring (String.length full - 6) 6 full.

Definition extract_edge_sample (from_json : string -> option EdgeMetadata) (error : string)
  : option EdgeMetadata :=
  '(_, json) ← split_once_str EDGE_SAMPLE_MARK error; from_json json.

(** [as_u64] panics on a gas price that does not fit. *)
Definition payload_reject_edge_sample (tx_hash : H256) (signal : SwapSignal)
    (human_reason payload_detail : string) (gas_price : U256) : outcome EdgeMetadata :=
  let '(route_kind, fee_tier_hint, encoded_hops) :=
    match sw_kind signal with
    | SwapV2 => ("v2", "n/a", 0%nat)
    | SwapV3 fee_tier _ hops _ => ("v3", show_Z fee_tier, hops)
    end in
  gas_estimate <-! as_u64 gas_price;;
  Done {| em_victim_tx := short_hash tx_hash; em_selector := selector_hex (sw_selector signal);
          em_status := "payload_reject"; em_reason := human_reason +:+ "; " +:+ payload_detail;
          em_route_kind := route_kind; em_path := debug_address <$> sw_path signal;
          em_hops := Z.of_nat (Nat.max (path_len signal - 1) encoded_hops); em_impacted_pools := [];
          em_slippage_window_score := scavenger_slippage_window_hint signal;
          em_pool_imbalance_score := 0.0; em_cross_dex_deviation_bps := 0;
          em_gas_estimate := gas_estimate; em_simulated_extraction_native := 0.0;
          em_aggregator_type :=
            if sel_in (sw_selector signal) [UNIVERSAL_ROUTER_EXECUTE; UNIVERSAL_ROUTER_EXECUTE_NO_DEADLINE]
            then "universal_router" else "direct_router";
          em_route_complexity := Z.of_nat (Nat.max (path_len signal) 1); em_split_ratio_bps := 0;
          em_dex_sequence := [route_kind];
          em_route_inefficiency_score := scavenger_route_inefficiency_hint signal;
          em_liquidity_distortion_score := 0.0;
          em_hop_profitability_rank :=
            [ "amount_in=" +:+ show_Z (sw_amount_in signal);
              "amount_out_min=" +:+ show_min signal "unknown";
              "fee_tier=" +:+ fee_tier_hint; payload_detail ];
          em_best_size_bps := 0; em_amount_in_wei := show_Z (sw_amount_in signal);
          em_amount_out_wei := show_min signal "0"; em_gross_edge_wei := "0";
          em_gross_edge_native := 0.0; em_repayment_wei := "0"; em_repayment_native := 0.0;
          em_price_impact_bps := 0; em_self_slippage_bps := 0; em_pool := "unknown";
          em_factory := "unknown"; em_router := debug_address (sw_router signal);
          em_token_in := match head (sw_path signal) with Some a => debug_address a | None => "unknown" end;
          em_token_out := match last (sw_path signal) with Some a => debug_address a | None => "unknown" end |}.
End Text.

(** [Simulator.as_u64] is the same conversion. *)
Lemma as_u64_panics n : as_u64 n = Panicked <-> U64_MAX < n.
Proof. unfold as_u64. destruct (Z.leb_spec n U64_MAX); (split; [done || lia|done || lia]). Qed.

Section Env.
Context (env : string -> option string).
Definition payload_build_fanout (config : Config) : Z :=
  match env_parsed env parse_u64 "MEV_PAYLOAD_BUILD_FANOUT" with
  | Some parsed => clampZ 1 6 parsed
  | None => 3
  end.
Definition payload_builder_unhealthy_rpc_fallback (config : Config) : bool :=
  is_scavenger config && negb (allow_send config)
  && env_bool env "MEV_PAYLOAD_BUILD_UNHEALTHY_RPC_FALLBACK" true.
End Env.
