(* ===== verification/Routes.v ===== *)
(** * Building a payload in the runtime ([mev/runtime.rs])

    From a decoded signal to the request of [Payload]: the execution router, the
    factory and the pair or pool of the first hop, its cached state, the capital,
    for the scavenger mode the best reverse route, and the attempt on several
    endpoints. What the chain answers is the class [Chain], one answer per
    endpoint; building tasks run one after the other in an arbitrary order. *)
From S2P Require Import Prelude F64 Text Ethers Config PoolCache AmmV2 AmmV3 Simulator Encoder Pnl Payload.
From S2P Require Import Opportunity Rpc Adaptive Calldata Decode EnvVars Intake Gates PayloadErrors.
#[local] Open Scope string_scope.
#[local] Open Scope Z_scope.

(** ** State and parameters *)

Record RouteState := {
  rt_world : Rpc.World;
  rt_cache : PoolCache.PoolCache }.
#[export] Instance RouteState_eta : RecordEta RouteState :=
  fields Build_RouteState <&> rt_world <&> rt_cache.

Definition RouteM (A : Type) : Type := RouteState -> outcome (RouteState * A).
#[export] Instance RouteM_ret : MRet RouteM := fun A a s => Done (s, a).
#[export] Instance RouteM_bind : MBind RouteM := fun A B f m s =>
  match m s with Done (s, a) => f a s | Panicked => Panicked end.
Definition on_world {A} (m : RpcM A) : RouteM A := fun s =>
  match m (rt_world s) with
  | Done (w, a) => Done (s <[ rt_world ::= w ]>, a)
  | Panicked => Panicked
  end.
Definition on_cache {A} (f : PoolCache.PoolCache -> PoolCache.PoolCache * A) : RouteM A := fun s =>
  let '(c, a) := f (rt_cache s) in Done (s <[ rt_cache ::= c ]>, a).
(** [?] on a result. *)
Definition try_ {A B} (m : RouteM (string + A)) (f : A -> RouteM (string + B)) : RouteM (string + B) :=
  r ← m; match r with inl err => mret (inl err) | inr a => f a end.
Notation "x <-t m ;; k" := (try_ m (fun x => k))
  (at level 100, m at next level, right associativity) : rt_scope.

(** What the chain answers to one endpoint. *)
Class Chain := {
  router_factory : Address -> option Address;
  get_pair : Address -> Address -> Address -> string + Address;
  get_pool : Address -> Address -> Address -> u32 -> string + Address;
  fetch_v2 : Address -> option (Address * Address * (U256 * U256));
  fetch_v3 : Address -> option (Address * Address * U256 * (U256 * Z)) }.

(** The functions of libraries and of the system. *)
Class Host := {
  ln : f64 -> f64;
  powf : f64 -> f64 -> f64;
  debug_address : Address -> string;
  debug_hash : H256 -> string;
  display_f64 : f64 -> string;
  fmt_prec : nat -> f64 -> string;
  debug_state : AmmState -> string;
  to_json : EdgeMetadata -> option string;
  from_json : string -> option EdgeMetadata;
  parse_ether : string -> string + U256;
  env : string -> option string;
  keccak256 : Bytes -> Bytes;
  abi_encode : list Token -> Bytes;
  abi_decode : list ParamType -> Bytes -> option (list Token);
  abi_error : list ParamType -> Bytes -> string;
  clk : nat -> Instant;
  avx2 : bool }.

(** ** Addresses by network *)

Definition execution_v2_router (config : Config) (fallback : Address) : Address :=
  let n := network config in
  if string_eqb n "polygon" then 0xa5e0829caced8ffdd4de3c43696c57f7d7a678ff
  else if string_eqb n "bsc" || string_eqb n "bnb" then 0x10ed43c718714eb63d5aa57b78b54704e256024e
  else if string_eqb n "ethereum" then 0x7a250d5630b4cf539739df2c5dacb4c659f2488d
  else fallback.
Definition execution_v3_router (config : Config) (fallback : Address) : Address :=
  let n := network config in
  if string_eqb n "polygon" || string_eqb n "ethereum" || string_eqb n "arbitrum" then
    0xe592427a0aece92de3edee1f18e0157c05861564
  else if string_eqb n "bsc" || string_eqb n "bnb" then 0x13f4ea83d0bd40e75c8222255bc855a974568dd4
  else fallback.
Definition default_v2_factories (network : string) : list Address :=
  if string_eqb network "polygon" then
    [0x5757371414417b8c6caad45baef941abc7d3ab32; 0xc35dadb65012ec5796536bd9864ed8773abc74c4]
  else if string_eqb network "bsc" || string_eqb network "bnb" then
    [0xca143ce32fe78f1f7019d7d551a6402fc5350c73; 0xc35dadb65012ec5796536bd9864ed8773abc74c4]
  else if string_eqb network "ethereum" then
    [0x5c69bee701ef814a2b6a3edd4b1652cb9cc5aa6f; 0xc0aee478e3658e2610c5f7a4a2e1777ce9e4f2ac]
  else [].
Definition default_v3_factories (network : string) : list Address :=
  if string_eqb network "polygon" || string_eqb network "ethereum" || string_eqb network "arbitrum" then
    [0x1f98431c8ad98523631ae4a59f267346ea31f984]
  else if string_eqb network "bsc" || string_eqb network "bnb" then
    [0x0bfbcf9fa4f9c56b0f40a671ad40e0805a091865]
  else [].
Definition polygon_v3_shadow_fee_tiers : list u32 := [100; 500; 3000; 10000].

Definition push_unique_address (addresses : list Address) (address : Address) : list Address :=
  if (address =? 0) || bool_decide (address ∈ addresses) then addresses else (addresses ++ [address])%list.

Definition pool_tokens_match (pool_token0 pool_token1 token_in token_out : Address) : bool :=
  ((pool_token0 =? token_in) && (pool_token1 =? token_out))
  || ((pool_token0 =? token_out) && (pool_token1 =? token_in)).

(** ** Quotes of a route *)

(** The loops over the pools of a route: [None] when a pool does not trade the
    tokens of its edge. *)
Fixpoint runtime_route_loop (amount : U256) (worst : u64) (route : list Address) (pools : list V2PoolState)
  {struct pools} : option (U256 * u64) :=
  match pools, route with
  | [], _ => Some (amount, worst)
  | pool :: pools, a :: ((b :: _) as route) =>
      '(reserve_in, reserve_out) ← reserves_for pool a b;
      out ← amount_out_exact_in amount reserve_in reserve_out (AmmV2.fee_bps pool);
      runtime_route_loop out (Z.max worst (AmmV2.price_impact_bps amount out reserve_in reserve_out)) route pools
  | _ :: _, _ => None
  end.
Definition route_shape (route : list Address) (pools : list V2PoolState) : bool :=
  (2 <=? Datatypes.length route)%nat && (Datatypes.length pools + 1 =? Datatypes.length route)%nat.
Definition quote_v2_runtime_route_exact_in (amount_in : U256) (route : list Address)
    (pools : list V2PoolState) : option U256 :=
  if negb (route_shape route pools) then None else fst <$> runtime_route_loop amount_in 0 route pools.
Definition quote_v2_runtime_route_impact_bps (amount_in : U256) (route : list Address)
    (pools : list V2PoolState) : option u64 :=
  if negb (route_shape route pools) then None else snd <$> runtime_route_loop amount_in 0 route pools.

Fixpoint low_liquidity_loop (probe_amount : U256) (route : list Address) (pools : list V2PoolState)
  {struct pools} : bool :=
  match pools, route with
  | [], _ => false
  | pool :: pools, a :: ((b :: _) as route) =>
      match reserves_for pool a b with
      | None => true
      | Some (reserve_in, reserve_out) =>
          if (reserve_in <=? u256_smul probe_amount 20) || (reserve_out <=? 1) then true
          else low_liquidity_loop probe_amount route pools
      end
  | _ :: _, _ => true
  end.
Definition route_has_low_liquidity_probe (probe_amount : U256) (route : list Address)
    (pools : list V2PoolState) : bool :=
  if negb (route_shape route pools) then true else low_liquidity_loop probe_amount route pools.

Definition scavenger_v2_route_score (amount_out : U256) (impact_bps : u64) (route_len : nat) : U256 :=
  let hop_count := Z.of_nat (Nat.max (route_len - 1) 1) in
  let penalty_bps :=
    u64_sadd (u64_sadd 10000 (u64_smul impact_bps 2)) (u64_smul (sat_sub hop_count 1) 250) in
  u256_smul amount_out 10000 / Z.max penalty_bps 1.

(** [dedup_routes]: the first of equal routes. *)
Definition dedup_routes (routes : list (list Address)) : list (list Address) :=
  foldl (fun out route => if bool_decide (route ∈ out) then out else (out ++ [route])%list) [] routes.
Definition mid_route (token_in token_out mid : Address) : option (list Address) :=
  if (mid =? token_in) || (mid =? token_out) then None else Some [token_out; mid; token_in].
Definition scavenger_reverse_route_candidates (config : Config) (signal : SwapSignal)
    (token_in token_out : Address) : list (list Address) :=
  dedup_routes
    ([[token_out; token_in]]
     ++ omap (fun token => mid_route token_in token_out (mt_address token)) (take 6 (monitored_tokens config))
     ++ omap (mid_route token_in token_out) (take 2 (drop 2 (sw_path signal))))%list.

(** ** Building *)

Section Build.
Context {chain : Chain} {host : Host}.
Context (config : Config).

(** A factory is asked in turn until one knows the pair. *)
Definition pair_message (what : string) (factory token_in token_out : Address) (found : string + Address)
  : string :=
  match found with
  | inl err => cat [what; " factory "; debug_address factory; " lookup failed token_in=";
                    debug_address token_in; " token_out="; debug_address token_out; ": "; err]
  | inr _ => cat [what; " not found on factory "; debug_address factory; " token_in=";
                  debug_address token_in; " token_out="; debug_address token_out]
  end.
Fixpoint ask_factories (ask : Address -> string + Address) (message : Address -> string + Address -> string)
    (factories : list Address) (errors : list string) : string + (Address * Address) :=
  match factories with
  | [] => inl (compact_payload_errors errors)
  | factory :: factories =>
      match ask factory with
      | inr found =>
          if found =? 0 then
            ask_factories ask message factories (errors ++ [message factory (inr found)])%list
          else inr (factory, found)
      | inl err => ask_factories ask message factories (errors ++ [message factory (inl err)])%list
      end
  end.

Definition v2_factories (router : Address) : list Address :=
  let factories := match router_factory router with
                   | Some factory => push_unique_address [] factory
                   | None => []
                   end in
  let factories := match uniswap_v2_factory (mev config) with
                   | Some factory => push_unique_address factories factory
                   | None => factories
                   end in
  foldl push_unique_address factories (default_v2_factories (network config)).
Definition find_v2_pair (router token_in token_out : Address) : string + (Address * Address) :=
  match v2_factories router with
  | [] => inl "v2 factory unavailable for router"
  | factories =>
      ask_factories (fun factory => get_pair factory token_in token_out)
        (fun factory found => pair_message match found with inl _ => "v2" | inr _ => "v2 pair" end
                                factory token_in token_out found) factories []
  end.

Definition v3_factories : list Address :=
  let factories := match uniswap_v3_factory (mev config) with
                   | Some factory => push_unique_address [] factory
                   | None => []
                   end in
  foldl push_unique_address factories (default_v3_factories (network config)).
Definition find_v3_pool (token_in token_out : Address) (fee_tier : u32) : string + (Address * Address) :=
  match v3_factories with
  | [] => inl "v3 factory unavailable"
  | factories =>
      ask_factories (fun factory => get_pool factory token_in token_out fee_tier)
        (fun factory found =>
           match found with
           | inl err => cat ["v3 factory "; debug_address factory; " lookup failed fee="; show_Z fee_tier;
                             " token_in="; debug_address token_in; " token_out="; debug_address token_out;
                             ": "; err]
           | inr _ => cat ["v3 pool not found on factory "; debug_address factory; " fee="; show_Z fee_tier;
                           " token_in="; debug_address token_in; " token_out="; debug_address token_out]
           end) factories []
  end.
(** The other fee tiers, for a partial decoding that is not sent. *)
Fixpoint try_fee_tiers (token_in token_out : Address) (fee_tier : u32) (tiers : list u32)
    (errors : list string) : string + (Address * Address * u32) :=
  match tiers with
  | [] => inl (compact_payload_errors errors)
  | tier :: tiers =>
      if tier =? fee_tier then try_fee_tiers token_in token_out fee_tier tiers errors
      else match find_v3_pool token_in token_out tier with
           | inr (factory, pool) => inr (factory, pool, tier)
           | inl err => try_fee_tiers token_in token_out fee_tier tiers (errors ++ [err])%list
           end
  end.
Definition find_v3_pool_with_shadow_fee_fallback (signal : SwapSignal) (token_in token_out : Address)
    (fee_tier : u32) : string + (Address * Address * u32) :=
  match find_v3_pool token_in token_out fee_tier with
  | inr (factory, pool) => inr (factory, pool, fee_tier)
  | inl primary_err =>
      if allow_send config || negb (is_partial_decode signal) then inl primary_err
      else try_fee_tiers token_in token_out fee_tier polygon_v3_shadow_fee_tiers [primary_err]
  end.

(** A cached pool, or what the chain answers, stored. *)
Definition cached_v2 (pair : Address) (block : u64) : RouteM (option CachedV2Pool) :=
  now ← on_world (now_ clk);
  hit ← on_cache (fun c => lookup_v2 c pair now block);
  match hit with
  | Some pool => mret (Some pool)
  | None =>
      match fetch_v2 pair with
      | None => mret None
      | Some fetched =>
          now1 ← on_world (now_ clk);
          now2 ← on_world (now_ clk);
          pool ← on_cache (fun c => store_v2 c pair fetched block now1 now2);
          mret (Some pool)
      end
  end.
Definition cached_v3 (pool : Address) (block : u64) : RouteM (option CachedV3Pool) :=
  now ← on_world (now_ clk);
  hit ← on_cache (fun c => lookup_v3 c pool now block);
  match hit with
  | Some cached => mret (Some cached)
  | None =>
      match fetch_v3 pool with
      | None => mret None
      | Some fetched =>
          now1 ← on_world (now_ clk);
          now2 ← on_world (now_ clk);
          cached ← on_cache (fun c => store_v3 c pool fetched block now1 now2);
          mret (Some cached)
      end
  end.

Definition contextual_capital_available_wei (context_signal : ContextSignal) : string + U256 :=
  let multiplier := contextual_capital_multiplier (mev config) (priority_score context_signal)
                      (toxicity_score context_signal) in
  let capital_eth := fmax (capital_eth (mev config) * multiplier)%f64 0.000001 in
  parse_ether (display_f64 capital_eth).

Definition v2_state (pair : Address) (cached : CachedV2Pool) : V2PoolState :=
  {| AmmV2.pair := pair; AmmV2.token0 := c2_token0 cached; AmmV2.token1 := c2_token1 cached;
     AmmV2.reserve0 := c2_reserve0 cached; AmmV2.reserve1 := c2_reserve1 cached; AmmV2.fee_bps := 30 |}.

(** The pools of a route, whose edges are consecutive tokens; the victim's pair
    is only used on a direct route. *)
Fixpoint load_edges (router : Address) (edges : list (Address * Address)) (direct : bool)
    (victim_pair : Address) (block : u64) : RouteM (option (list V2PoolState)) :=
  match edges with
  | [] => mret (Some [])
  | (a, b) :: edges =>
      match find_v2_pair router a b with
      | inl _ => mret None
      | inr (_, pair) =>
          if (pair =? 0) || (negb direct && (pair =? victim_pair)) then mret None
          else
            cached ← cached_v2 pair block;
            match cached with
            | None => mret None
            | Some cached =>
                pools ← load_edges router edges direct victim_pair block;
                mret (cons (v2_state pair cached) <$> pools)
            end
      end
  end.
Definition load_v2_route_pools (router : Address) (route : list Address) (victim_pair : Address)
    (block : u64) : RouteM (option (list V2PoolState)) :=
  if (Datatypes.length route <? 2)%nat then mret None
  else load_edges router (zip route (tail route)) (Datatypes.length route <=? 2)%nat victim_pair block.

(** The loop over the candidate routes keeps the first of the best scores. *)
Fixpoint best_route_loop (router victim_pair : Address) (probe_amount : U256) (block : u64)
    (routes : list (list Address)) (best : option (U256 * list Address * list V2PoolState))
  : RouteM (option (U256 * list Address * list V2PoolState)) :=
  match routes with
  | [] => mret best
  | route :: routes =>
      loaded ← load_v2_route_pools router route victim_pair block;
      let best :=
        match (pools ← loaded;
               amount_out ← quote_v2_runtime_route_exact_in probe_amount route pools;
               let impact := default 10000 (quote_v2_runtime_route_impact_bps probe_amount route pools) in
               if (scavenger_quality_price_impact_cap_bps config <? impact)
                  || route_has_low_liquidity_probe probe_amount route pools then None
               else Some (scavenger_v2_route_score amount_out impact (Datatypes.length route), pools)) with
        | None => best
        | Some (score, pools) =>
            match best with
            | Some (best_score, _, _) => if best_score <? score then Some (score, route, pools) else best
            | None => Some (score, route, pools)
            end
        end in
      best_route_loop router victim_pair probe_amount block routes best
  end.
Definition best_scavenger_v2_reverse_route (signal : SwapSignal) (token_in token_out victim_pair : Address)
    (execution_router : Address) (capital_available_wei : U256) (block : u64)
  : RouteM (option (list Address * list V2PoolState)) :=
  let probe_amount := u256_smul capital_available_wei 25 / 10000 in
  if probe_amount =? 0 then mret None
  else
    best ← best_route_loop execution_router victim_pair probe_amount block
             (scavenger_reverse_route_candidates config signal token_in token_out) None;
    mret ((fun b => (b.1.2, b.2)) <$> best).

(** The configuration as the builder reads it, after the last await. *)
Context (at_builder : Config).
Definition fee_extraction_v2 : FeeExtractionBuildInput -> res ExecutionPayload :=
  build_fee_extraction_v2 ln debug_address display_f64 fmt_prec debug_state to_json parse_ether env
    keccak256 abi_encode at_builder.
Definition fee_extraction_v3 : FeeExtractionBuildInput -> res ExecutionPayload :=
  build_fee_extraction_v3 ln debug_address display_f64 fmt_prec debug_state to_json parse_ether env
    keccak256 abi_encode at_builder.

Definition ok_or_t {A} (o : option A) (e : string) : RouteM (string + A) :=
  mret match o with Some a => inr a | None => inl e end.
Definition signal_tokens (what_out : string) (signal : SwapSignal) : string + (Address * Address) :=
  match sw_path signal with
  | [] => inl "missing token_in"
  | [_] => inl what_out
  | a :: b :: _ => inr (a, b)
  end.
Definition kv (l : list (string * string)) : string := cat ((fun p => " " +:+ p.1 +:+ "=" +:+ p.2) <$> l).

(** What is asked of the builder. *)
Definition v2_request (signal : SwapSignal) (gas_price : U256) (context_signal : ContextSignal)
    (block : u64) : RouteM (string + FeeExtractionBuildInput) :=
  tokens <-t mret (signal_tokens "missing token_out" signal);;
  let '(token_in, token_out) := tokens in
  let execution_router := execution_v2_router config (sw_router signal) in
  found <-t mret (find_v2_pair execution_router token_in token_out);;
  let '(factory, pair) := found in
  if pair =? 0 then mret (inl "v2 pair not found")
  else
    cached ← cached_v2 pair block;
    let place := [("pair", debug_address pair); ("factory", debug_address factory)] in
    let ends := [("signal_token_in", debug_address token_in); ("signal_token_out", debug_address token_out)] in
    cached <-t ok_or_t cached
      ("v2_pool_state_unavailable" +:+ kv (place ++ [("token_in", debug_address token_in);
         ("token_out", debug_address token_out); ("block", show_Z block)]))%list;;
    if negb (pool_tokens_match (c2_token0 cached) (c2_token1 cached) token_in token_out) then
      mret (inl ("v2_pool_token_mismatch" +:+ kv (place
        ++ [("pool_token0", debug_address (c2_token0 cached)); ("pool_token1", debug_address (c2_token1 cached))]
        ++ ends))%list)
    else if (c2_reserve0 cached =? 0) || (c2_reserve1 cached =? 0) then
      mret (inl ("v2_zero_reserves" +:+ kv (place
        ++ [("token0", debug_address (c2_token0 cached)); ("token1", debug_address (c2_token1 cached));
            ("reserve0", show_Z (c2_reserve0 cached)); ("reserve1", show_Z (c2_reserve1 cached))]
        ++ ends))%list)
    else
      let pool := v2_state pair cached in
      capital <-t mret (contextual_capital_available_wei context_signal);;
      route ← (if is_scavenger config then
                 best_scavenger_v2_reverse_route signal token_in token_out pair execution_router capital block
               else mret None);
      let '(swap_path, swap_pools) := default ([token_out; token_in], [pool]) route in
      mret (inr
        {| bi_router := execution_router; bi_factory := Some factory; bi_pair := pair;
           bi_recipient := profit_address config; bi_token_in := token_in; bi_token_out := token_out;
           bi_victim_amount_in := sw_amount_in signal; bi_state_before := UniswapV2 pool;
           bi_capital_available_wei := capital; bi_gas_price_wei := gas_price;
           bi_context_priority_score := priority_score context_signal;
           bi_context_toxicity_score := toxicity_score context_signal; bi_route_kind := RouteV2;
           bi_v2_swap_path := Some swap_path; bi_v2_swap_pools := swap_pools |}).
Definition build_v2_payload (signal : SwapSignal) (gas_price : U256) (context_signal : ContextSignal)
    (block : u64) : RouteM (res ExecutionPayload) :=
  request ← v2_request signal gas_price context_signal block;
  mret match request with inl err => fail err | inr input => fee_extraction_v2 input end.

(** An exact-output swap pays at most [amount_in], which must exceed the gas. *)
Definition exact_out_check (signal : SwapSignal) (gas_price : U256) : string + unit :=
  match sw_kind signal with
  | SwapV3 _ _ _ true =>
      match sw_amount_out_min signal with
      | None => inl "exact_out requires amount_out_min"
      | Some _ =>
          let gas_cost := u256_smul gas_price 300000 in
          if sw_amount_in signal <=? gas_cost then
            inl (cat ["exact_out edge below gas cost: amount_in_max="; show_Z (sw_amount_in signal);
                      " gas_cost="; show_Z gas_cost])
          else if sat_sub (sw_amount_in signal) gas_cost =? 0 then
            inl "exact_out positive gross edge not found"
          else inr tt
      end
  | _ => inr tt
  end.

(** The pool's ticks are not read: the state has none. *)
Definition v3_state (pool : Address) (cached : CachedV3Pool) (fee_tier : u32) : V3PoolState :=
  {| AmmV3.pool := pool; AmmV3.token0 := c3_token0 cached; AmmV3.token1 := c3_token1 cached;
     AmmV3.sqrt_price_x96 := c3_sqrt_price_x96 cached; AmmV3.liquidity := c3_liquidity cached;
     AmmV3.current_tick := c3_current_tick cached; AmmV3.fee_bps := fee_tier / 100;
     AmmV3.initialized_ticks := [] |}.

Definition v3_request (signal : SwapSignal) (gas_price : U256) (context_signal : ContextSignal)
    (fee_tier : u32) (encoded_path : Bytes) (block : u64) : RouteM (string + FeeExtractionBuildInput) :=
  tokens <-t mret (signal_tokens "missing edge token_out" signal);;
  let '(token_in, token_out) := tokens in
  found <-t mret (find_v3_pool_with_shadow_fee_fallback signal token_in token_out fee_tier);;
  let '(factory, pool, discovered) := found in
  let execution_router := execution_v3_router config (sw_router signal) in
  let execution_path := if discovered =? fee_tier then encoded_path
                        else encode_v3_path token_out discovered token_in in
  if pool =? 0 then mret (inl "v3 pool not found")
  else
    cached ← cached_v3 pool block;
    let place := [("pool", debug_address pool); ("factory", debug_address factory);
                  ("fee_tier", show_Z discovered)] in
    let ends := [("signal_token_in", debug_address token_in); ("signal_token_out", debug_address token_out)] in
    cached <-t ok_or_t cached
      ("v3_pool_state_unavailable" +:+ kv (place ++ [("token_in", debug_address token_in);
         ("token_out", debug_address token_out); ("block", show_Z block)]))%list;;
    if negb (pool_tokens_match (c3_token0 cached) (c3_token1 cached) token_in token_out) then
      mret (inl ("v3_pool_token_mismatch" +:+ kv (place
        ++ [("pool_token0", debug_address (c3_token0 cached)); ("pool_token1", debug_address (c3_token1 cached))]
        ++ ends))%list)
    else if (c3_liquidity cached =? 0) || (c3_sqrt_price_x96 cached =? 0) then
      mret (inl ("v3_empty_liquidity_or_price" +:+ kv (place
        ++ [("token0", debug_address (c3_token0 cached)); ("token1", debug_address (c3_token1 cached));
            ("liquidity", show_Z (c3_liquidity cached)); ("sqrt_price_x96", show_Z (c3_sqrt_price_x96 cached))]
        ++ ends))%list)
    else
      let state := v3_state pool cached discovered in
      capital <-t mret (contextual_capital_available_wei context_signal);;
      _ <-t mret (exact_out_check signal gas_price);;
      mret (inr
        {| bi_router := execution_router; bi_factory := Some factory; bi_pair := pool;
           bi_recipient := profit_address config; bi_token_in := token_in; bi_token_out := token_out;
           bi_victim_amount_in := sw_amount_in signal; bi_state_before := UniswapV3 state;
           bi_capital_available_wei := capital; bi_gas_price_wei := gas_price;
           bi_context_priority_score := priority_score context_signal;
           bi_context_toxicity_score := toxicity_score context_signal;
           bi_route_kind := RouteV3 discovered execution_path;
           bi_v2_swap_path := None; bi_v2_swap_pools := [] |}).

Definition build_v3_payload (signal : SwapSignal) (gas_price : U256) (context_signal : ContextSignal)
    (fee_tier : u32) (encoded_path : Bytes) (block : u64) : RouteM (res ExecutionPayload) :=
  request ← v3_request signal gas_price context_signal fee_tier encoded_path block;
  mret match request with inl err => fail err | inr input => fee_extraction_v3 input end.

Definition build_payload (signal : SwapSignal) (gas_price : U256) (context_signal : ContextSignal)
    (block : u64) : RouteM (res ExecutionPayload) :=
  match sw_kind signal with
  | SwapV2 => build_v2_payload signal gas_price context_signal block
  | SwapV3 fee_tier encoded_path _ _ =>
      build_v3_payload signal gas_price context_signal fee_tier encoded_path block
  end.
End Build.

(** ** Several endpoints *)

(** What each endpoint sees of the chain, the order in which the building tasks
    complete, and the message of a task that panicked. *)
Class Endpoints := {
  chain_of : RpcHandle -> Chain;
  completion_order : list RpcHandle -> list RpcHandle;
  join_error : string }.

Section Fanout.
Context {network_ : Endpoints} {host : Host}.
(** The configuration as the task reads it, and as the build for each endpoint does:
    when it looks for the route, and in the builder. *)
Context (config : Config) (at_route at_builder : RpcHandle -> Config).

Definition build_failure (what : string) (signal : SwapSignal) (block : u64) : string :=
  what +:+ kv [("route_kind", signal_route_kind_label signal); ("amount_in", show_Z (sw_amount_in signal));
               ("path", signal_path_label debug_address signal); ("block", show_Z block)].

(** The first payload ends the wait; a panic in a task is an error among the others. *)
Fixpoint await_builds (signal : SwapSignal) (gas_price : U256) (context_signal : ContextSignal) (block : u64)
    (completions : list RpcHandle) (errors : list string) : RouteM (string + ExecutionPayload) :=
  match completions with
  | [] => mret (inl match errors with
                    | [] => build_failure "payload_builder_no_result" signal block
                    | _ => compact_payload_errors errors
                    end)
  | handle :: completions =>
      started ← on_world (now_ clk);
      built ← build_payload (chain := chain_of handle) (at_route handle) (at_builder handle) signal gas_price context_signal block;
      match built with
      | Done (inr payload) =>
          now ← on_world (now_ clk);
          on_world (record_success clk (h_id handle) (elapsed now started) (Some block));;
          mret (inr payload)
      | Done (inl err) =>
          match payload_builder_rpc_failure_kind err with
          | Some kind => on_world (record_failure clk (h_id handle) kind)
          | None => mret tt
          end;;
          await_builds signal gas_price context_signal block completions
            (errors ++ ["rpc=" +:+ h_name handle
                        +:+ kv [("route_kind", signal_route_kind_label signal); ("block", show_Z block)]
                        +:+ " " +:+ err])%list
      | Panicked =>
          await_builds signal gas_price context_signal block completions (errors ++ [join_error])%list
      end
  end.

Definition build_payload_with_fallback_parallel (signal : SwapSignal) (gas_price : U256)
    (context_signal : ContextSignal) (block : u64) : RouteM (string + ExecutionPayload) :=
  let fanout := Z.to_nat (payload_build_fanout env config) in
  handles ← on_world (read_candidates clk powf (env "RPC_READ_ROTATE_TOP_N") fanout);
  handles ← (if bool_decide (handles = []) && payload_builder_unhealthy_rpc_fallback env config then
               on_world (fl ← get_fleet; mret (take fanout (all_handles fl)))
             else mret handles);
  match handles with
  | [] => mret (inl (build_failure "payload_builder_no_rpc_read_candidates" signal block))
  | _ =>
      on_world (forM (fun h => reserve_read_selection clk (h_id h)) handles);;
      await_builds signal gas_price context_signal block (completion_order handles) []
  end.
End Fanout.
