(* ===== verification/Samples.v ===== *)
(** * The samples shown of a candidate ([mev/runtime.rs])

    What the evaluation shows of a payload on its way through the gates: the
    figures of its sample, and what was decided of it. *)
From S2P Require Import Prelude F64 Text Ethers Config AmmV2 AmmV3 Simulator Pnl Payload Adaptive.
From S2P Require Import Calldata Decode Intake Gates PayloadErrors Routes.
#[local] Open Scope string_scope.
#[local] Open Scope Z_scope.

(** [wei_to_eth_f64(pool.reserve0).max(0.0) + ...]. *)
Definition payload_pool_liquidity (payload : ExecutionPayload) : f64 :=
  match ep_pool_state_before payload with
  | UniswapV2 pool => (fmax (wei_to_eth_f64 (reserve0 pool)) 0.0 + fmax (wei_to_eth_f64 (reserve1 pool)) 0.0)%f64
  | UniswapV3 pool => fmax (wei_to_eth_f64 (liquidity pool)) 0.0
  end.
Definition signal_dex_kind_and_fee_tier (signal : SwapSignal) : string * u32 :=
  match sw_kind signal with SwapV2 => ("v2", 0) | SwapV3 fee_tier _ _ _ => ("v3", fee_tier) end.
Definition yes_no (b : bool) : string := if b then "true" else "false".
(** The price of gas that the edge pays for, and what an inclusion is thought to cost. *)
Definition edge_capped_gas_price (payload : ExecutionPayload) : U256 :=
  let edge_gas_budget := u256_smul (ep_expected_profit_wei payload) 35 / 100 in
  if ep_gas_limit payload =? 0 then 0 else edge_gas_budget / ep_gas_limit payload.
Definition priority_to_win (observed_gas_price : U256) : U256 :=
  let base_priority := u256_smul observed_gas_price 5000 / 10000 in
  u256_smul base_priority 15000 / 10000.

Section Samples.
Context {host : Host}.
Context (tx_hash : H256) (signal : SwapSignal).

Definition token_pair_label : string :=
  let shown := fun o : option Address => match o with Some a => debug_address a | None => "unknown" end in
  shown (head (sw_path signal)) +:+ "->"
  +:+ shown (match sw_path signal !! 1%nat with Some a => Some a | None => last (sw_path signal) end).

(** [if sample.path.is_empty() { ... }]. *)
Definition or_signal_path (sample : EdgeMetadata) : EdgeMetadata :=
  match em_path sample with [] => sample <[ em_path ::= debug_address <$> sw_path signal ]> | _ => sample end.
(** [signal.path_len().saturating_sub(1) as u64]. *)
Definition signal_hops : u64 := Z.of_nat (path_len signal - 1).

(** The payload's own sample, or that of a rejected payload. *)
Definition sample_of (payload : ExecutionPayload) (status detail : string) (gas_price : U256) : outcome EdgeMetadata :=
  match ep_edge_metadata payload with
  | Some sample => Done sample
  | None => payload_reject_edge_sample debug_address debug_hash tx_hash signal status detail gas_price
  end.
(** What every later sample sets. *)
Definition candidate_sample (payload : ExecutionPayload) (status reason : string) (sample : EdgeMetadata) : EdgeMetadata :=
  let sample :=
    or_signal_path (sample <[ em_victim_tx ::= short_hash debug_hash tx_hash ]>
                           <[ em_selector ::= selector_hex (sw_selector signal) ]>
                           <[ em_status ::= status ]> <[ em_reason ::= reason ]>
                           <[ em_gas_estimate ::= ep_gas_limit payload ]>
                           <[ em_price_impact_bps ::= ep_price_impact_bps payload ]>
                           <[ em_pool ::= debug_address (ep_pair payload) ]>
                           <[ em_router ::= debug_address (sw_router signal) ]>) in
  sample <[ em_hops ::= Z.max (em_hops sample) signal_hops ]>.
Definition with_profit (payload : ExecutionPayload) (sample : EdgeMetadata) : EdgeMetadata :=
  let profit := ep_expected_profit_wei payload in
  sample <[ em_simulated_extraction_native ::= wei_to_eth_f64 profit ]> <[ em_gross_edge_wei ::= show_Z profit ]>
         <[ em_gross_edge_native ::= wei_to_eth_f64 profit ]>.

Definition ev_gate_edge_sample (payload : ExecutionPayload) (gas_price : U256) (status : string)
    (d : GateDiagnostic) (detail : string) : outcome EdgeMetadata :=
  sample <-! sample_of payload status detail gas_price;;
  let sample := candidate_sample payload status (gd_reason d +:+ " " +:+ detail) sample in
  let expected_native := wei_to_eth_f64 (gd_expected_profit_wei d) in
  let gas_native := wei_to_eth_f64 (gd_execution_cost_wei d) in
  let floor_native := wei_to_eth_f64 (gd_min_profit_wei d) in
  let sample := sample <[ em_simulated_extraction_native ::= expected_native ]> in
  let sample :=
    if string_eqb (trim (em_gross_edge_wei sample)) "" || string_eqb (em_gross_edge_wei sample) "0" then
      sample <[ em_gross_edge_wei ::= show_Z (gd_expected_profit_wei d) ]> <[ em_gross_edge_native ::= expected_native ]>
    else sample in
  Done (sample <[ em_hop_profitability_rank ::=
    ["gate_reason=" +:+ gd_reason d;
     "gross_edge_native=" +:+ fmt_prec 12 expected_native;
     "gas_cost_native=" +:+ fmt_prec 12 gas_native;
     "floor_native=" +:+ fmt_prec 12 floor_native;
     "edge_minus_floor_native=" +:+ fmt_prec 12 (expected_native - floor_native)%f64;
     "net_after_gas_native=" +:+ fmt_prec 12 (expected_native - gas_native)%f64;
     "expected_profit_wei=" +:+ show_Z (gd_expected_profit_wei d);
     "execution_cost_wei=" +:+ show_Z (gd_execution_cost_wei d);
     "min_profit_or_floor_wei=" +:+ show_Z (gd_min_profit_wei d);
     "net_ev_usd=" +:+ fmt_prec 6 (gd_net_ev_usd d);
     "roi_bps=" +:+ show_Z (gd_roi_bps d);
     detail] ]>).

(** The figures of a payload after the gates: gross, gas and what is left. *)
Definition gas_cost_of (payload : ExecutionPayload) (gas_price : U256) : U256 :=
  u256_smul gas_price (ep_gas_limit payload).
Definition net_figures (payload : ExecutionPayload) (gas_price : U256) : list string :=
  let gross := wei_to_eth_f64 (ep_expected_profit_wei payload) in
  let gas := wei_to_eth_f64 (gas_cost_of payload gas_price) in
  ["gas_cost_native=" +:+ fmt_prec 12 gas; "floor_native=0.000000000000";
   "edge_minus_floor_native=" +:+ fmt_prec 12 gross; "net_after_gas_native=" +:+ fmt_prec 12 (gross - gas)%f64;
   "roi_bps=" +:+ show_Z (roi_bps (ep_expected_profit_wei payload) (gas_cost_of payload gas_price))].
Definition gas_figures (payload : ExecutionPayload) (gas_price : U256) : list string :=
  ["gas_limit=" +:+ show_Z (ep_gas_limit payload);
   "gas_price_gwei=" +:+ fmt_prec 6 (f64_of_Z gas_price / 1e9)%f64].
Definition quote_figures (quote : AdaptiveQuote) : list string :=
  ["quote_ev_real_usd=" +:+ fmt_prec 6 (ev_real_usd quote);
   "quote_threshold_usd=" +:+ fmt_prec 6 (threshold_dynamic_usd quote);
   "quote_p_positive=" +:+ fmt_prec 6 (p_positive quote);
   "quote_competition_score=" +:+ fmt_prec 6 (aq_competition_score quote);
   "quote_risk_score=" +:+ fmt_prec 6 (aq_risk_score quote);
   "quote_builder_pressure=" +:+ fmt_prec 6 (builder_pressure quote);
   "quote_gas_pressure=" +:+ fmt_prec 6 (aq_gas_pressure quote);
   "quote_selected_relay=" +:+ default "unknown" (selected_relay quote);
   "quote_regime=" +:+ regime_as_str (regime quote)].

Definition adaptive_quote_edge_sample (payload : ExecutionPayload) (gas_price : U256) (status : string)
    (quote : option AdaptiveQuote) (reason : string) (pass override_used : bool) : outcome EdgeMetadata :=
  sample <-! sample_of payload status reason gas_price;;
  let sample := with_profit payload (candidate_sample payload status reason sample) in
  Done (sample <[ em_hop_profitability_rank ::=
    (["gate_reason=" +:+ reason; "quote_pass=" +:+ yes_no pass; "override_used=" +:+ yes_no override_used;
      "gross_edge_native=" +:+ fmt_prec 12 (wei_to_eth_f64 (ep_expected_profit_wei payload))]
     ++ net_figures payload gas_price ++ gas_figures payload gas_price
     ++ match quote with Some quote => quote_figures quote | None => [] end)%list ]>).

Definition execution_ready_edge_sample (payload : option ExecutionPayload) (gas_price : U256)
    (status reason : string) (ev_real_usd confidence : f64) (selected_path : string) : outcome EdgeMetadata :=
  match payload with
  | None => payload_reject_edge_sample debug_address debug_hash tx_hash signal status reason gas_price
  | Some payload =>
      sample <-! sample_of payload status reason gas_price;;
      let sample := with_profit payload (candidate_sample payload status reason sample) in
      Done (sample <[ em_hop_profitability_rank ::=
        (["gate_reason=" +:+ reason; "ready_reason=" +:+ reason;
          "final_gross_native=" +:+ fmt_prec 12 (wei_to_eth_f64 (ep_expected_profit_wei payload))]
         ++ net_figures payload gas_price
         ++ ["final_size_wei=" +:+ show_Z (ep_capital_committed_wei payload)]
         ++ gas_figures payload gas_price
         ++ ["ev_real_usd=" +:+ fmt_prec 6 ev_real_usd; "confidence=" +:+ fmt_prec 6 confidence;
             "selected_path=" +:+ selected_path])%list ]>)
  end.

(** [if x == 0.0 { x = y }] and the like: a field that says nothing gets a value. *)
Definition or_if_zero (x y : f64) : f64 := if (x =? 0.0)%f64 then y else x.
Definition or_if_empty {A} (l d : list A) : list A := match l with [] => d | _ => l end.
(** A [f64] estimate as [u64], by [max(0.0).round().min(u64::MAX as f64) as u64]. *)
Definition estimate_u64 (x : f64) : u64 := f64_as_u64 (fmin (fround (fmax x 0.0)) (f64_of_Z U64_MAX)).

Definition enrich_edge_explainer_sample (sample : EdgeMetadata) (fast_gate : FastPreflightDecision) : EdgeMetadata :=
  let sample := or_signal_path (sample <[ em_victim_tx ::= short_hash debug_hash tx_hash ]>
                                       <[ em_selector ::= selector_hex (sw_selector signal) ]>) in
  let sample := if em_hops sample =? 0 then sample <[ em_hops ::= signal_hops ]> else sample in
  let imbalance := scavenger_impact_imbalance_hint (wei_to_eth_f64 (sw_notional_wei signal)) 1.0 (path_len signal) in
  let gross := em_gross_edge_native sample in
  let sample :=
    sample <[ em_slippage_window_score ::= scavenger_slippage_window_hint signal ]>
           <[ em_pool_imbalance_score ::= imbalance ]>
           <[ em_cross_dex_deviation_bps ::= clampZ (-1000000) 1000000 (f64_as_i64 (fround (gross * 10000.0)%f64)) ]>
           <[ em_gas_estimate ::= Z.max (em_gas_estimate sample) (estimate_u64 (fp_estimated_gas_cost_usd fast_gate)) ]>
           <[ em_simulated_extraction_native ::= or_if_zero (em_simulated_extraction_native sample) gross ]>
           <[ em_aggregator_type ::=
                if string_eqb (em_aggregator_type sample) "" then "direct_router" else em_aggregator_type sample ]>
           <[ em_route_complexity ::=
                if em_route_complexity sample =? 0 then Z.max (em_hops sample) 1 else em_route_complexity sample ]>
           <[ em_dex_sequence ::= or_if_empty (em_dex_sequence sample) [em_route_kind sample] ]>
           <[ em_route_inefficiency_score ::=
                or_if_zero (em_route_inefficiency_score sample) (scavenger_route_inefficiency_hint signal) ]>
           <[ em_liquidity_distortion_score ::= or_if_zero (em_liquidity_distortion_score sample) imbalance ]> in
  sample <[ em_hop_profitability_rank ::=
    or_if_empty (em_hop_profitability_rank sample)
      ((fun idx =>
          "hop_" +:+ show_nat (idx + 1) +:+ ": gross=" +:+ fmt_prec 6 gross +:+ " impact="
          +:+ show_Z (em_price_impact_bps sample) +:+ "bps")
       <$> seq 0 (Z.to_nat (Z.min (Z.max (em_hops sample) 1) 4))) ]>.

Definition append_gas_sniper_shadow_metrics (payload : ExecutionPayload) (observed_gas_price : U256)
    (sample : EdgeMetadata) : EdgeMetadata :=
  let cap := edge_capped_gas_price payload in
  sample <[ em_hop_profitability_rank ::=
    (em_hop_profitability_rank sample
     ++ ["gas_shadow: base_fee_per_block_wei=" +:+ show_Z observed_gas_price
         +:+ " priority_fee_to_win_wei=" +:+ show_Z (Z.min (priority_to_win observed_gas_price) cap)
         +:+ " edge_cap_gas_price_wei=" +:+ show_Z cap
         +:+ " missed_inclusion=false replacement_needed=false"])%list ]>.
End Samples.
