(* ===== verification/Diagnosis.v ===== *)
(** * Why a transaction is not decoded ([mev/runtime.rs])

    What is reported of a transaction the decoder rejects: the diagnosis of its
    selector and calldata, the shape of an aggregator's route, and the sample
    shown of it. *)
From S2P Require Import Prelude F64 Text Ethers Config Simulator Payload.
From S2P Require Import Calldata Decode EnvVars Intake Gates PayloadErrors Routes Samples.
#[local] Open Scope string_scope.
#[local] Open Scope Z_scope.

Record AggregatorRouteIntel := {
  ai_command_count : u64;
  ai_swap_command_count : u64;
  ai_split_ratio_bps : u64;
  ai_dex_sequence : list string;
  ai_path : list string;
  ai_route_inefficiency_score : f64;
  ai_liquidity_distortion_score : f64;
  ai_hop_profitability_rank : list string }.

Record DecodeRejectDiagnostic := {
  dr_reason : string;
  dr_detail : string;
  dr_hints : list string }.

(** [calldata_prefix_hex] keeps 96 bytes. *)
Definition calldata_prefix_hex (input : Bytes) : string :=
  "0x" +:+ String.concat "" (hex_byte <$> take 96 input).
(** [input.get(4..)]. *)
Definition args_of (tx : Transaction) : option Bytes :=
  if (length (tx_input tx) <? 4)%nat then None else Some (drop 4 (tx_input tx)).

Section Describe.
Context {host : Host}.
Abbreviation graph_of := (universal_router_route_graph abi_decode).

Definition format_target (address : option Address) : string :=
  match address with
  | None => "unknown"
  | Some a =>
      match known_target_label a with
      | Some label => debug_address a +:+ "(" +:+ label +:+ ")"
      | None => debug_address a
      end
  end.
Definition format_path (path : list Address) : string :=
  match path with [] => "unknown" | _ => String.concat ">" (debug_address <$> path) end.
Definition router_text (tx : Transaction) : string :=
  match tx_to tx with Some a => debug_address a | None => "unknown" end.
Definition hash_text (tx_hash : H256) : string := short_hash debug_hash tx_hash.

Definition monitored_token_path_hint (config : Config) (input : Bytes) : list string :=
  debug_address <$> monitored_token_addresses_in_input (monitored_tokens config) input.
(** [if path_hint.is_empty() { "none" } else { path_hint.join(",") }]. *)
Definition hint_or_none (path_hint : list string) : string :=
  match path_hint with [] => "none" | _ => String.concat "," path_hint end.

(** ** The commands of the universal router, described *)

Definition abi_mismatch (params : list ParamType) (input : Bytes) : string :=
  "abi mismatch " +:+ abi_error params input.

Definition universal_router_v2_swap_status (input : Bytes) (exact_out : bool) : string :=
  match abi_decode V2_SWAP_PARAMS input with
  | Some values =>
      let path_len := match at_ token_as_address_vec values 3 with Some path => length path | None => 0%nat end in
      "decoded path_len=" +:+ show_nat path_len
      +:+ " notional=" +:+ (if exact_out then "amountInMax" else "amountIn")
  | None => abi_mismatch V2_SWAP_PARAMS input
  end.

(** The packed path of a V3 command, described by [show]. *)
Definition v3_status (show : Bytes -> ParsedV3Path -> string) (input : Bytes) : string :=
  match abi_decode V3_SWAP_PARAMS input with
  | Some values =>
      match at_ token_as_bytes values 3 with
      | None => "path not bytes"
      | Some path =>
          match parse_v3_path path with
          | Some parsed => show path parsed
          | None => "invalid v3 path " +:+ show_nat (length path) +:+ "b"
          end
      end
  | None => abi_mismatch V3_SWAP_PARAMS input
  end.
Definition universal_router_v3_exact_in_status : Bytes -> string :=
  v3_status (fun path parsed =>
    "decoded hops=" +:+ show_nat (pp_hops parsed) +:+ " first_fee=" +:+ show_Z (first_fee_tier parsed)
    +:+ " path=" +:+ show_nat (length path) +:+ "b").
Definition universal_router_v3_exact_out_status : Bytes -> string :=
  v3_status (fun path parsed =>
    if (pp_hops parsed =? 1)%nat then
      "decoded single_hop first_fee=" +:+ show_Z (first_fee_tier parsed)
      +:+ " path=" +:+ show_nat (length path) +:+ "b"
    else "decoded but unsupported multi_hop_exact_out hops=" +:+ show_nat (pp_hops parsed)).

(** The graph of a sub-plan starts one level down. *)
Definition universal_router_subplan_status (input : Bytes) : string :=
  match decode_universal_router_sub_plan abi_decode input with
  | Some (sub_commands, sub_inputs) =>
      let graph := collect_universal_router_graph abi_decode (LEVELS - 1) sub_commands sub_inputs 1 empty_graph in
      "subplan decoded commands=" +:+ show_Z (command_count graph)
      +:+ " swaps=" +:+ show_Z (swap_command_count graph)
      +:+ " hops=" +:+ show_nat (length (graph_hops graph))
      +:+ " unsupported=" +:+ String.concat "," (unsupported_commands graph)
  | None => "subplan decode failed"
  end.

Definition command_status (opcode : Z) (input : Bytes) : string :=
  if opcode =? 0x00 then universal_router_v3_exact_in_status input
  else if opcode =? 0x01 then universal_router_v3_exact_out_status input
  else if opcode =? 0x08 then universal_router_v2_swap_status input false
  else if opcode =? 0x09 then universal_router_v2_swap_status input true
  else if existsb (Z.eqb opcode) [0x02; 0x03; 0x0a; 0x0d] then "permit2 command skipped"
  else if existsb (Z.eqb opcode) [0x04; 0x05; 0x06; 0x0b; 0x0c; 0x0e] then "balance/transfer command skipped"
  else if opcode =? 0x21 then universal_router_subplan_status input
  else "unsupported command".
Definition command_hint (inputs : list Token) (idx : nat) (command : Z) : string :=
  let opcode := opcode_of command in
  let head := "cmd#" +:+ show_nat idx +:+ " " +:+ universal_router_command_name opcode in
  match inputs !! idx with
  | Some (TBytes input) =>
      head +:+ " input=" +:+ show_nat (length input) +:+ "b " +:+ command_status opcode input
  | Some _ => head +:+ ": input not bytes"
  | None => head +:+ ": missing input"
  end.

(** With a deadline or without; the error shown is the second one's. *)
Definition plan_tokens (args : Bytes) : option (list Token) :=
  match abi_decode (PLAN_PARAMS ++ [PUint 256])%list args with
  | Some decoded => Some decoded
  | None => abi_decode PLAN_PARAMS args
  end.
Definition universal_router_decode_hints (tx : Transaction) : list string :=
  match args_of tx with
  | None => ["decode: calldata shorter than selector"]
  | Some args =>
      match plan_tokens args with
      | None => ["decode: " +:+ abi_mismatch PLAN_PARAMS args]
      | Some decoded =>
          match at_ token_as_bytes decoded 0, at_ token_as_array decoded 1 with
          | None, _ => ["decode: commands not bytes"]
          | _, None => ["decode: inputs not bytes[]"]
          | Some commands, Some inputs =>
              (imap (command_hint inputs) (take 8 commands)
               ++ (if (8 <? length commands)%nat then
                     [show_nat (length commands - 8) +:+ " additional commands omitted"]
                   else []))%list
          end
      end
  end.

(** ** What an aggregator's calldata shows of its route *)

(** [(score * 100.0).round() as u64]. *)
Definition score_of (x : f64) : u64 := f64_as_u64 (fround x).

Definition universal_router_hop_rank (swap_command_count split_ratio_bps : u64) (route_inefficiency_score : f64)
    : list string :=
  if swap_command_count =? 0 then ["no swap command extracted"]
  else
    (fun idx =>
       "hop_" +:+ show_nat (idx + 1) +:+ ": score=" +:+ show_Z (score_of (route_inefficiency_score * 100.0)%f64)
       +:+ " split=" +:+ show_Z split_ratio_bps +:+ "bps")
    <$> seq 0 (Z.to_nat (Z.min swap_command_count 4)).

Definition hop_text (route_inefficiency_score : f64) (idx : nat) (hop : UniversalRouterHop) : string :=
  let amount := match hop_amount_in hop with Some value => show_Z value | None => "unknown" end in
  let fee := match hop_fee_tier hop with Some fee => " fee=" +:+ show_Z fee | None => "" end in
  let score := score_of ((route_inefficiency_score * 100.0) + f64_of_nat idx * 4.0)%f64 in
  "candidate_hop_" +:+ show_nat (idx + 1) +:+ ": " +:+ hop_dex hop +:+ " " +:+ hop_command hop +:+ " "
  +:+ debug_address (hop_token_in hop) +:+ "->" +:+ debug_address (hop_token_out hop)
  +:+ " amount_in=" +:+ amount +:+ " score=" +:+ show_Z score
  +:+ " depth=" +:+ show_nat (hop_depth hop) +:+ fee +:+ " exact_out=" +:+ yes_no (hop_exact_out hop).
Definition unsupported_texts (n : nat) (graph : UniversalRouterRouteGraph) : list string :=
  (fun command => "unsupported command: " +:+ command) <$> take n (unsupported_commands graph).
Definition universal_router_graph_hop_rank (graph : UniversalRouterRouteGraph) (route_inefficiency_score : f64)
    : list string :=
  match graph_hops graph with
  | [] => "no executable v2/v3 hop extracted" :: unsupported_texts 4 graph
  | hops => (imap (hop_text route_inefficiency_score) hops ++ unsupported_texts 3 graph)%list
  end.

(** [if !path.contains(&token) { path.push(token) }]. *)
Definition push_new (path : list string) (token : string) : list string :=
  if bool_decide (token ∈ path) then path else (path ++ [token])%list.
Definition hops_path (hops : list UniversalRouterHop) : list string :=
  foldl (fun path hop =>
           push_new (push_new path (debug_address (hop_token_in hop))) (debug_address (hop_token_out hop))) [] hops.
(** The split guessed from the number of swaps, [(n - 1) * each], at most 8000. *)
Definition split_of (each : Z) (swaps : u64) : u64 :=
  if 1 <? swaps then Z.min (wrap64 (wrap64 (swaps - 1) * each)) 8000 else 0.
(** [(a as f64 / b).clamp(0.0, 1.0)]. *)
Definition share (a : Z) (b : f64) : f64 := fclamp01 (f64_of_Z a / b)%f64.
Definition or_router (dex_sequence : list string) : list string :=
  match dex_sequence with [] => ["universal_router"] | _ => dex_sequence end.

Definition universal_router_graph_intel (tx : Transaction) : option AggregatorRouteIntel :=
  args ← args_of tx;
  graph ← graph_of args;
  match graph_hops graph, unsupported_commands graph with
  | [], [] => None
  | hops, unsupported =>
      let dex_sequence :=
        (or_router (hop_command <$> hops) ++ ((fun command => "unsupported:" +:+ command) <$> take 3 unsupported))%list in
      let split_ratio_bps := split_of 2000 (swap_command_count graph) in
      let complexity_score := share (command_count graph) 10.0 in
      let split_score := share split_ratio_bps 10000.0 in
      let unsupported_score := share (Z.of_nat (length unsupported)) 6.0 in
      let route_inefficiency_score :=
        fclamp01 (0.24 + complexity_score * 0.28 + split_score * 0.34 + unsupported_score * 0.14)%f64 in
      Some {| ai_command_count := command_count graph;
              ai_swap_command_count := swap_command_count graph;
              ai_split_ratio_bps := split_ratio_bps;
              ai_dex_sequence := dex_sequence;
              ai_path := hops_path hops;
              ai_route_inefficiency_score := route_inefficiency_score;
              ai_liquidity_distortion_score :=
                fclamp01 (0.20 + f64_of_nat (length hops) * 0.06 + split_score * 0.40)%f64;
              ai_hop_profitability_rank := universal_router_graph_hop_rank graph route_inefficiency_score |}
  end.

(** The commands counted by kind, without their inputs. *)
Record CommandTally := {
  ct_swaps : u64;
  ct_dex : list string;
  ct_wraps : u64;
  ct_permit2 : u64 }.
#[export] Instance CommandTally_eta : RecordEta CommandTally :=
  fields Build_CommandTally <&> ct_swaps <&> ct_dex <&> ct_wraps <&> ct_permit2.
Definition tally_swap (dex : string) (t : CommandTally) : CommandTally :=
  t <[ ct_swaps ::= wrap64 (ct_swaps t + 1) ]> <[ ct_dex ::= (ct_dex t ++ [dex])%list ]>.
Definition tally (t : CommandTally) (command : Z) : CommandTally :=
  let opcode := opcode_of command in
  if opcode =? 0x00 then tally_swap "v3_exact_in" t
  else if opcode =? 0x01 then tally_swap "v3_exact_out" t
  else if opcode =? 0x08 then tally_swap "v2_exact_in" t
  else if opcode =? 0x09 then tally_swap "v2_exact_out" t
  else if existsb (Z.eqb opcode) [0x0b; 0x0c] then t <[ ct_wraps ::= wrap64 (ct_wraps t + 1) ]>
  else if existsb (Z.eqb opcode) [0x02; 0x03; 0x0a; 0x0d] then t <[ ct_permit2 ::= wrap64 (ct_permit2 t + 1) ]>
  else t.
Definition universal_router_intel (tx : Transaction) : option AggregatorRouteIntel :=
  args ← args_of tx;
  decoded ← plan_tokens args;
  commands ← at_ token_as_bytes decoded 0;
  let t := foldl tally {| ct_swaps := 0; ct_dex := []; ct_wraps := 0; ct_permit2 := 0 |} commands in
  let split_ratio_bps := split_of 2500 (ct_swaps t) in
  let complexity_score := share (Z.of_nat (length commands)) 8.0 in
  let split_score := share split_ratio_bps 10000.0 in
  let route_inefficiency_score := fclamp01 (0.35 + complexity_score * 0.35 + split_score * 0.30)%f64 in
  Some {| ai_command_count := Z.of_nat (length commands);
          ai_swap_command_count := ct_swaps t;
          ai_split_ratio_bps := split_ratio_bps;
          ai_dex_sequence := or_router (ct_dex t);
          ai_path := [];
          ai_route_inefficiency_score := route_inefficiency_score;
          ai_liquidity_distortion_score :=
            fclamp01 (0.25 + split_score * 0.45 + (f64_of_Z (ct_wraps t) * 0.04)
                      + (f64_of_Z (ct_permit2 t) * 0.03))%f64;
          ai_hop_profitability_rank :=
            universal_router_hop_rank (ct_swaps t) split_ratio_bps route_inefficiency_score |}.

(** [(input.len().saturating_sub(4) / 128).max(1)]. *)
Definition calldata_complexity (input : Bytes) : nat := Nat.max ((length input - 4) / 128) 1.
Definition source_inefficiency (source : string) : f64 :=
  if one_of source ["odos"; "1inch"; "0x_matcha"] then 0.72
  else if one_of source ["paraswap"; "kyber"] then 0.66 else 0.58.
Definition unresolved_route_intel (config : Config) (input : Bytes) (source : string) : AggregatorRouteIntel :=
  let route_inefficiency_score := source_inefficiency source in
  {| ai_command_count := Z.of_nat (Nat.min (calldata_complexity input) 24);
     ai_swap_command_count := 1;
     ai_split_ratio_bps := if (900 <? length input)%nat then 3000 else 0;
     ai_dex_sequence := [source; "unknown_dex"];
     ai_path := monitored_token_path_hint config input;
     ai_route_inefficiency_score := route_inefficiency_score;
     ai_liquidity_distortion_score := fclamp01 (0.30 + route_inefficiency_score * 0.45)%f64;
     ai_hop_profitability_rank :=
       ["hop_1: route intent unresolved"; "hop_2: decode aggregator inputs next"] |}.
Definition aggregator_route_intel (config : Config) (tx : Transaction) (source : string) : AggregatorRouteIntel :=
  let intel :=
    if string_eqb source "universal_router" then
      or_else (universal_router_graph_intel tx) (universal_router_intel tx)
    else None in
  default (unresolved_route_intel config (tx_input tx) source) intel.

Definition aggregator_slippage_hint (source : string) (tx : Transaction) : f64 :=
  let size_hint := fclamp_in (f64_of_nat (length (tx_input tx)) / 1600.0)%f64 0 0.35 in
  let source_hint :=
    (if string_eqb source "universal_router" then 0.62
     else if one_of source ["odos"; "1inch"] then 0.58
     else if one_of source ["0x_matcha"; "paraswap"; "kyber"] then 0.52 else 0.45)%f64 in
  fclamp_in (source_hint + size_hint)%f64 0 0.95.

(** [as_u64] of the transaction's gas panics when it does not fit. *)
Definition aggregator_intelligence_sample (config : Config) (tx : Transaction) (tx_hash : H256) (source : string)
    : outcome (option EdgeMetadata) :=
  selector <-! tx_selector avx2 tx;;
  let intel := aggregator_route_intel config tx source in
  let universal := string_eqb source "universal_router" in
  if universal && (ai_swap_command_count intel =? 0) then Done None
  else
    let decode_hints := if universal then universal_router_decode_hints tx else [] in
    let undecoded := "aggregator flow not decoded into executable graph yet" in
    gas <-! as_u64 (tx_gas tx);;
    Done (Some
      {| em_victim_tx := hash_text tx_hash; em_selector := selector_hex (default [0; 0; 0; 0] selector);
         em_status := "aggregator_candidate";
         em_reason := match decode_hints with
                      | [] => undecoded
                      | _ => undecoded +:+ ": " +:+ String.concat " | " decode_hints
                      end;
         em_route_kind := "aggregator"; em_path := ai_path intel; em_hops := Z.max (ai_command_count intel) 1;
         em_impacted_pools := []; em_slippage_window_score := aggregator_slippage_hint source tx;
         em_pool_imbalance_score := ai_liquidity_distortion_score intel;
         em_cross_dex_deviation_bps :=
           clampZ 0 10000 (f64_as_i64 (fround (ai_route_inefficiency_score intel * 10000.0)%f64));
         em_gas_estimate := gas; em_simulated_extraction_native := 0.0; em_aggregator_type := source;
         em_route_complexity := ai_command_count intel; em_split_ratio_bps := ai_split_ratio_bps intel;
         em_dex_sequence := ai_dex_sequence intel;
         em_route_inefficiency_score := ai_route_inefficiency_score intel;
         em_liquidity_distortion_score := ai_liquidity_distortion_score intel;
         em_hop_profitability_rank := match decode_hints with [] => ai_hop_profitability_rank intel | _ => decode_hints end;
         em_best_size_bps := 0; em_amount_in_wei := show_Z (tx_value tx); em_amount_out_wei := "0";
         em_gross_edge_wei := "0"; em_gross_edge_native := 0.0; em_repayment_wei := "0";
         em_repayment_native := 0.0; em_price_impact_bps := 0; em_self_slippage_bps := 0; em_pool := "unknown";
         em_factory := "aggregator"; em_router := router_text tx; em_token_in := "unknown";
         em_token_out := "unknown" |}).

(** ** The diagnosis *)

Definition diagnostic (reason detail : string) (hints : list string) : DecodeRejectDiagnostic :=
  {| dr_reason := reason; dr_detail := detail; dr_hints := hints |}.

Definition balancer_vault : Address := 0xba12222222228d8ba445958a75a0704d566bf2c8.
Definition diagnose_balancer_decode (tx : Transaction) (tx_hash : H256) (selector_text : string)
    (path_hint : list string) : DecodeRejectDiagnostic :=
  let input := tx_input tx in
  let vault_hint :=
    if input_contains_address input balancer_vault then debug_address balancer_vault else "not_in_calldata" in
  diagnostic "balancer_pool_type_unsupported"
    ("tx=" +:+ hash_text tx_hash +:+ " selector=" +:+ selector_text +:+ " to=" +:+ format_target (tx_to tx)
     +:+ " vault_hint=" +:+ vault_hint +:+ " monitored_token_hint=" +:+ hint_or_none path_hint
     +:+ " input_bytes=" +:+ show_nat (length input) +:+ " calldata_prefix=" +:+ calldata_prefix_hex input)
    ["Balancer route detected; current payload builder only supports V2/V3 factory pool discovery";
     "blocked before pool discovery to avoid false Uniswap pair paths"].

Definition diagnose_classified_non_swap (tx : Transaction) (tx_hash : H256) (selector : Bytes)
    (selector_text : string) (path_hint : list string) : DecodeRejectDiagnostic :=
  let '(reason, intent, hint) :=
    if is_sel selector SAFE_INNER_SELECTOR_9E7212AD then
      ("conditional_tokens_merge", "prediction_market_ctf",
       "Gnosis/Polymarket mergePositions classified; excluded from AMM quote path")
    else if is_sel selector WOOFI_WOORACLE_POST_STATE then
      ("woofi_wooracle_post_state", "oracle_update",
       "WOOFi Wooracle postState classified; excluded unless WOOFi state simulation is enabled")
    else ("classified_non_swap", "non_swap", "selector classified but not replayable as AMM swap") in
  diagnostic reason
    ("tx=" +:+ hash_text tx_hash +:+ " selector=" +:+ selector_text +:+ " to=" +:+ format_target (tx_to tx)
     +:+ " intent=" +:+ intent +:+ " monitored_token_hint=" +:+ hint_or_none path_hint
     +:+ " input_bytes=" +:+ show_nat (length (tx_input tx))
     +:+ " calldata_prefix=" +:+ calldata_prefix_hex (tx_input tx))
    [hint].

Definition diagnose_safe_exec_decode (tx : Transaction) (tx_hash : H256) (selector_text : string)
    (path_hint : list string) : DecodeRejectDiagnostic :=
  match abi_decode SAFE_PARAMS (default [] (args_of tx)) with
  | None =>
      diagnostic "safe_exec_abi_decode_failed"
        ("tx=" +:+ hash_text tx_hash +:+ " selector=" +:+ selector_text +:+ " safe ABI decode failed")
        ["safe execTransaction wrapper not decoded"]
  | Some decoded =>
      let target := match at_ token_as_address decoded 0 with Some a => format_target (Some a) | None => "unknown" end in
      let operation := default 0 (at_ token_as_uint decoded 3) in
      let inner_selector := data ← at_ token_as_bytes decoded 2; fst <$> split_call data in
      let inner_selector_text := match inner_selector with Some sel => selector_hex sel | None => "none" end in
      let reason :=
        if negb (operation =? 0) then "safe_exec_delegatecall_ignored"
        else if bool_decide (inner_selector = None) then "safe_exec_inner_calldata_missing"
        else "safe_exec_inner_selector_unsupported" in
      diagnostic reason
        ("tx=" +:+ hash_text tx_hash +:+ " selector=" +:+ selector_text +:+ " target=" +:+ target
         +:+ " operation=" +:+ show_Z operation +:+ " inner_selector=" +:+ inner_selector_text
         +:+ " monitored_token_hint=" +:+ hint_or_none path_hint
         +:+ " calldata_prefix=" +:+ calldata_prefix_hex (tx_input tx))
        ["safe execTransaction target=" +:+ target +:+ " operation=" +:+ show_Z operation
         +:+ " inner selector " +:+ inner_selector_text]
  end.

Definition V2_ETH_SELECTORS : list Bytes := [SWAP_EXACT_ETH_FOR_TOKENS; SWAP_EXACT_ETH_FOR_TOKENS_SUPPORTING_FEE].
Definition V2_TOKEN_SELECTORS : list Bytes :=
  [SWAP_EXACT_TOKENS_FOR_TOKENS; SWAP_EXACT_TOKENS_FOR_ETH; SWAP_EXACT_TOKENS_FOR_TOKENS_SUPPORTING_FEE;
   SWAP_EXACT_TOKENS_FOR_ETH_SUPPORTING_FEE].
Definition decode_direct_router_signal (selector : Bytes) (router : Address) (value : U256) (args : Bytes)
    : option SwapSignal :=
  if sel_in selector V2_ETH_SELECTORS then decode_eth_for_tokens abi_decode selector router value args
  else if sel_in selector V2_TOKEN_SELECTORS then decode_tokens_for abi_decode selector router args
  else None.

Definition notional_of (config : Config) (signal : SwapSignal) : option U256 :=
  estimate_notional_wei display_f64 parse_ether (monitored_tokens config) signal.
(** [mode != OpportunityMode::Scavenger && notional_wei < min_large_swap_wei]. *)
Definition too_small (mode : OpportunityMode) (notional_wei min_large_swap_wei : U256) : bool :=
  negb (bool_decide (mode = Scavenger)) && (notional_wei <? min_large_swap_wei).
Definition below_min_hints (signal : SwapSignal) (notional_wei min_large_swap_wei : U256) : list string :=
  ["amount_in_wei=" +:+ show_Z (sw_amount_in signal); "notional_wei=" +:+ show_Z notional_wei;
   "min_large_swap_wei=" +:+ show_Z min_large_swap_wei].

Definition diagnose_direct_router_decode (config : Config) (tx : Transaction) (tx_hash : H256) (selector : Bytes)
    (selector_text : string) (min_large_swap_wei : U256) (mode : OpportunityMode) : option DecodeRejectDiagnostic :=
  router ← tx_to tx;
  args ← args_of tx;
  signal ← decode_direct_router_signal selector router (tx_value tx) args;
  let head := "tx=" +:+ hash_text tx_hash +:+ " selector=" +:+ selector_text in
  let path := format_path (sw_path signal) in
  let amount_in := show_Z (sw_amount_in signal) in
  if (length (sw_path signal) <? 2)%nat then
    Some (diagnostic "path_invalid" (head +:+ " decoded direct router path has <2 tokens") ["decoded path invalid"])
  else
    match notional_of config signal with
    | Some notional_wei =>
        if too_small mode notional_wei min_large_swap_wei then
          Some (diagnostic "amount_in_below_min"
                  (head +:+ " notional_wei=" +:+ show_Z notional_wei
                   +:+ " min_large_swap_wei=" +:+ show_Z min_large_swap_wei +:+ " path=" +:+ path)
                  (below_min_hints signal notional_wei min_large_swap_wei))
        else None
    | None =>
        if path_contains_monitored_token (sw_path signal) (monitored_tokens config) then
          Some (diagnostic "monitored_token_not_input"
                  (head +:+ " monitored token is in path but input token is not priced amount_in=" +:+ amount_in
                   +:+ " path=" +:+ path)
                  ["amount_in_wei=" +:+ amount_in; "path=" +:+ path; "scavenger now allows this as shadow candidate"])
        else
          Some (diagnostic "monitored_token_not_in_path"
                  (head +:+ " no monitored token in decoded path amount_in=" +:+ amount_in +:+ " path=" +:+ path)
                  ["path=" +:+ path])
    end.

Definition UNIVERSAL_SELECTORS : list Bytes := [UNIVERSAL_ROUTER_EXECUTE; UNIVERSAL_ROUTER_EXECUTE_NO_DEADLINE].
Definition SUPPORTED_SELECTORS : list Bytes :=
  [SWAP_EXACT_ETH_FOR_TOKENS; SWAP_EXACT_ETH_FOR_TOKENS_SUPPORTING_FEE; SWAP_EXACT_TOKENS_FOR_TOKENS;
   SWAP_EXACT_TOKENS_FOR_ETH; SWAP_EXACT_TOKENS_FOR_TOKENS_SUPPORTING_FEE; SWAP_EXACT_TOKENS_FOR_ETH_SUPPORTING_FEE;
   V3_EXACT_INPUT_SINGLE; UNISWAP_V3_EXACT_INPUT_SINGLE_NO_DEADLINE; ALGEBRA_EXACT_INPUT_SINGLE; V3_EXACT_INPUT;
   UNIVERSAL_ROUTER_EXECUTE; UNIVERSAL_ROUTER_EXECUTE_NO_DEADLINE; ZERO_EX_SELL_TO_UNISWAP; SAFE_EXEC_TRANSACTION;
   MULTICALL_BYTES; MULTICALL_DEADLINE_BYTES; PRIVATE_SEARCHER_SELECTOR_D00BA30B; PRIVATE_SWAP_WRAPPER_2E35732F;
   POLYMARKET_BATCH_EXECUTE; SAFE_INNER_SELECTOR_9E7212AD; WOOFI_WOORACLE_POST_STATE; TRANSIT_SWAP_V5;
   TRANSIT_EXACT_INPUT_V3_SWAP; TRANSIT_EXACT_INPUT_V2_SWAP; AGGREGATOR_SELECTOR_0A2B8F36;
   AGGREGATOR_SELECTOR_0060EA13; AGGREGATOR_SELECTOR_448E340E; AGGREGATOR_SELECTOR_9265BB9D;
   AGGREGATOR_SELECTOR_C3192F1F; BALANCER_SELECTOR_46495152].

Definition universal_router_reason (graph : option UniversalRouterRouteGraph) (path_hint : list string) : string :=
  match graph with
  | Some graph =>
      if swap_command_count graph =? 0 then "universal_router_no_swap_command"
      else match graph_hops graph, unsupported_commands graph with
           | [], _ :: _ => "universal_router_command_unsupported"
           | [], [] => "universal_router_subplan_not_extracted"
           | _ :: _, _ => match path_hint with
                          | [] => "monitored_token_not_in_path"
                          | _ => "universal_router_path_invalid"
                          end
           end
  | None => "universal_router_abi_decode_failed"
  end.
Definition diagnose_universal_router (tx : Transaction) (tx_hash : H256) (selector_text : string)
    (path_hint : list string) : DecodeRejectDiagnostic :=
  let hints := universal_router_decode_hints tx in
  let graph := graph_of (default [] (args_of tx)) in
  let reason := universal_router_reason graph path_hint in
  diagnostic reason
    ("tx=" +:+ hash_text tx_hash +:+ " selector=" +:+ selector_text +:+ " " +:+ reason
     +:+ match graph with
         | Some graph =>
             " commands=" +:+ show_Z (command_count graph) +:+ " swaps=" +:+ show_Z (swap_command_count graph)
             +:+ " hops=" +:+ show_nat (length (graph_hops graph))
             +:+ " unsupported=" +:+ String.concat "," (unsupported_commands graph)
         | None => ""
         end
     +:+ match path_hint with [] => "" | _ => " monitored_tokens=" +:+ String.concat "," path_hint end
     +:+ match hints with [] => "" | _ => " hints=" +:+ String.concat " | " hints end)
    hints.

Definition unsupported_reason (tx : Transaction) (selector : Bytes) : string :=
  if is_account_abstraction_target (tx_to tx) || is_sel selector ENTRYPOINT_HANDLE_OPS then "account_abstraction_noise"
  else if is_sel selector CONTEXT_WRAP_SELECTOR then "context_command_not_swap"
  else if is_context_only_or_helper_selector selector then "router_helper_or_context_only"
  else if is_sel selector SELECTOR_NOISE_00000008 then "selector_noise_or_mev_trap"
  else "selector_unsupported".
Definition unsupported_hint (reason selector_text target : string) : string :=
  if string_eqb reason "account_abstraction_noise" then
    "account abstraction entrypoint selector " +:+ selector_text +:+ " target=" +:+ target
  else if string_eqb reason "context_command_not_swap" then
    "context-only selector " +:+ selector_text +:+ " target=" +:+ target +:+ " is not an AMM swap"
  else if string_eqb reason "router_helper_or_context_only" then
    "helper/context selector " +:+ selector_text +:+ " target=" +:+ target +:+ " is not decoded as replayable swap"
  else if string_eqb reason "selector_noise_or_mev_trap" then
    "noise selector " +:+ selector_text +:+ " target=" +:+ target +:+ " left out of pool discovery"
  else "unsupported selector " +:+ selector_text +:+ " target=" +:+ target.
Definition diagnose_unsupported (tx : Transaction) (tx_hash : H256) (selector : Bytes) (selector_text : string)
    (path_hint : list string) : DecodeRejectDiagnostic :=
  let reason := unsupported_reason tx selector in
  let target := format_target (tx_to tx) in
  diagnostic reason
    ("tx=" +:+ hash_text tx_hash +:+ " selector=" +:+ selector_text +:+ " to=" +:+ target
     +:+ " monitored_token_hint=" +:+ hint_or_none path_hint
     +:+ " input_bytes=" +:+ show_nat (length (tx_input tx))
     +:+ " calldata_prefix=" +:+ calldata_prefix_hex (tx_input tx))
    [unsupported_hint reason selector_text target].

(** The swap is decoded again, whatever its size: what is wrong with it, if the
    decoder has it. *)
Definition diagnose_decoded (config : Config) (selector_text : string) (min_large_swap_wei : U256)
    (mode : OpportunityMode) (signal : SwapSignal) : option DecodeRejectDiagnostic :=
  if (length (sw_path signal) <? 2)%nat then
    Some (diagnostic "path_invalid" ("selector=" +:+ selector_text +:+ " decoded path has <2 tokens")
            ["decoded path invalid"])
  else
    match notional_of config signal with
    | Some notional_wei =>
        if too_small mode notional_wei min_large_swap_wei then
          Some (diagnostic "amount_in_below_min"
                  ("selector=" +:+ selector_text +:+ " notional_wei=" +:+ show_Z notional_wei
                   +:+ " min_large_swap_wei=" +:+ show_Z min_large_swap_wei
                   +:+ " path_len=" +:+ show_nat (path_len signal))
                  (below_min_hints signal notional_wei min_large_swap_wei))
        else None
    | None =>
        Some (diagnostic "token_monitored_path_invalid"
                ("selector=" +:+ selector_text +:+ " path decoded but no monitored token valuation path_len="
                 +:+ show_nat (path_len signal))
                (debug_address <$> sw_path signal))
    end.
Definition not_relevant (tx : Transaction) (selector_text : string) (path_hint : list string) : DecodeRejectDiagnostic :=
  diagnostic "not_relevant_or_below_min"
    ("selector=" +:+ selector_text +:+ " monitored_token_hint=" +:+ hint_or_none path_hint
     +:+ " input_bytes=" +:+ show_nat (length (tx_input tx)))
    match path_hint with [] => [] | _ => ["decode rejected after monitored token hint"] end.
Definition selector_missing : DecodeRejectDiagnostic :=
  diagnostic "selector_missing_or_short_calldata" "calldata shorter than 4-byte selector" [].

Definition diagnose_decode_reject (config : Config) (tx : Transaction) (tx_hash : H256) (min_large_swap_wei : U256)
    (mode : OpportunityMode) : outcome DecodeRejectDiagnostic :=
  found <-! tx_selector avx2 tx;;
  match found with
  | None => Done selector_missing
  | Some selector =>
      let selector_text := selector_hex selector in
      let path_hint := monitored_token_path_hint config (tx_input tx) in
      if sel_in selector UNIVERSAL_SELECTORS then
        Done (diagnose_universal_router tx tx_hash selector_text path_hint)
      else if negb (sel_in selector SUPPORTED_SELECTORS) then
        Done (diagnose_unsupported tx tx_hash selector selector_text path_hint)
      else if sel_in selector [SAFE_INNER_SELECTOR_9E7212AD; WOOFI_WOORACLE_POST_STATE] then
        Done (diagnose_classified_non_swap tx tx_hash selector selector_text path_hint)
      else if is_sel selector SAFE_EXEC_TRANSACTION then
        Done (diagnose_safe_exec_decode tx tx_hash selector_text path_hint)
      else if is_sel selector BALANCER_SELECTOR_46495152 then
        Done (diagnose_balancer_decode tx tx_hash selector_text path_hint)
      else
        match diagnose_direct_router_decode config tx tx_hash selector selector_text min_large_swap_wei mode with
        | Some d => Done d
        | None =>
            decoded <-! decode_relevant_swap abi_decode display_f64 parse_ether (monitored_tokens config) avx2 tx 0
                          Scavenger;;
            Done (default (not_relevant tx selector_text path_hint)
                    (decoded ≫= diagnose_decoded config selector_text min_large_swap_wei mode))
        end
  end.

Definition decode_reject_edge_sample (config : Config) (tx : Transaction) (tx_hash : H256)
    (d : DecodeRejectDiagnostic) : outcome (option EdgeMetadata) :=
  selector <-? tx_selector avx2 tx;;
  match monitored_token_path_hint config (tx_input tx) with
  | [] => Done None
  | path_hint =>
      gas <-! as_u64 (tx_gas tx);;
      Done (Some
        {| em_victim_tx := hash_text tx_hash; em_selector := selector_hex selector; em_status := "decode_reject";
           em_reason := dr_reason d +:+ " " +:+ dr_detail d; em_route_kind := "unknown"; em_path := path_hint;
           em_hops := 0; em_impacted_pools := []; em_slippage_window_score := 0.0; em_pool_imbalance_score := 0.0;
           em_cross_dex_deviation_bps := 0; em_gas_estimate := gas; em_simulated_extraction_native := 0.0;
           em_aggregator_type := "unknown"; em_route_complexity := Z.of_nat (calldata_complexity (tx_input tx));
           em_split_ratio_bps := 0; em_dex_sequence := ["decode_reject"]; em_route_inefficiency_score := 0.0;
           em_liquidity_distortion_score := 0.0;
           em_hop_profitability_rank := match dr_hints d with [] => [dr_reason d] | hints => hints end;
           em_best_size_bps := 0; em_amount_in_wei := show_Z (tx_value tx); em_amount_out_wei := "0";
           em_gross_edge_wei := "0"; em_gross_edge_native := 0.0; em_repayment_wei := "0";
           em_repayment_native := 0.0; em_price_impact_bps := 0; em_self_slippage_bps := 0; em_pool := "unknown";
           em_factory := "unknown"; em_router := router_text tx; em_token_in := "unknown";
           em_token_out := "unknown" |})
  end.

(** The sample [process_lookup_decode_task] shows of a transaction that is not decoded. *)
Definition relabelled_sample (d : DecodeRejectDiagnostic) (sample : EdgeMetadata) : EdgeMetadata :=
  let sample := sample <[ em_status ::= "decode_reject" ]>
                       <[ em_reason ::= dr_reason d +:+ " " +:+ dr_detail d ]> in
  match dr_hints d with [] => sample | hints => sample <[ em_hop_profitability_rank ::= hints ]> end.
Definition rejection_sample (config : Config) (tx : Transaction) (tx_hash : H256) (d : DecodeRejectDiagnostic)
    : outcome (option EdgeMetadata) :=
  name <-! aggregator_name_from_tx avx2 tx;;
  match name with
  | Some name =>
      sample <-! aggregator_intelligence_sample config tx tx_hash name;;
      Done (relabelled_sample d <$> sample)
  | None => decode_reject_edge_sample config tx tx_hash d
  end.
End Describe.
