(* ===== verification/Evaluate.v ===== *)
(** * Evaluation of a candidate ([mev/runtime.rs])

    [process_evaluation_task]: from a decoded candidate to an opportunity for
    the executor, through the fast gate and the gas cap, the adaptive preflight,
    the building of the payload, its validation, the replay queue, the optional
    EVM preflight, and the gates of the scavenger or of the other modes. A task
    threads the endpoints and the pool cache, the adaptive policy ([None] when
    its lock is poisoned), the replay counters and the calls to the dashboard; the mode
    and the thresholds it reads anew ([EvalRead]). It may end early without a candidate, and may panic. Of the dashboard's calls
    the stage, the reason, the fixed words and the samples are kept; of the samples
    of the EV and quality gates only the status, and latencies are left out. *)
From S2P Require Import Prelude F64 Text Ethers Config AmmV2 AmmV3 Simulator Pnl Payload Opportunity Rpc.
From S2P Require Import Adaptive Executor Calldata Decode EnvVars Gates Intake Batch PayloadErrors Routes Samples.
#[local] Open Scope Z_scope.
#[local] Open Scope string_scope.
#[local] Open Scope Z_scope.

(** ** Data *)

Record LookupDecodedCandidate := {
  ld_tx : Transaction;
  ld_signal : SwapSignal;
  ld_lane : CandidateLane;
  ld_hour_utc : u8;
  ld_gas_price : U256;
  ld_context_signal : ContextSignal;
  ld_cluster : ClusterKey;
  ld_lookup_latency : Duration;
  ld_block_number : u64 }.

Record ReplayCandidate := {
  rc_tx_hash : H256;
  rc_selector : string;
  rc_target : string;
  rc_pool : string;
  rc_path : list Address;
  rc_amount_in : U256;
  rc_amount_out_min : option U256;
  rc_gas_gwei : f64;
  rc_block_number : u64;
  rc_expected_profit : f64;
  rc_confidence : f64;
  rc_decode_source : string;
  rc_gas_limit : u64 }.
Inductive TrySend := Sent | QueueFull | QueueClosed.

Inductive EvalEvent :=
| Dash (e : Event)
| MarketRegimeIs (name : string)
| SelectorStage (stage : string)
| PoolStage (stage pool : string)
| EdgeSample (status : string)
| Sampled (sample : EdgeMetadata)
| Lifecycle (status quote_result quote_failure_reason ready_reason : string)
    (reject : option ExecutionRejectReason)
| Replayed (candidate : ReplayCandidate).

Record EvalState := {
  es_route : RouteState;
  es_adaptive : option AdaptivePolicy;
  es_replay_counts : gmap string u64;
  es_small : option SmallSwapBudget;
  es_trace : list EvalEvent }.
#[export] Instance EvalState_eta : RecordEta EvalState :=
  fields Build_EvalState <&> es_route <&> es_adaptive <&> es_replay_counts <&> es_small <&> es_trace.

(** What a task uses besides the endpoints. *)
Class Surroundings := {
  evm_transact : EvmEnv -> gmap Address RAccount -> string + ExecResult;
  evm_utf8_lossy : Bytes -> string;
  evm_timestamp : u64;
  hour_now : u8;
  exp_ : f64 -> f64;
  ln_1p_ : f64 -> f64;
  replay_queue : option (ReplayCandidate -> TrySend);
  query_transaction : RpcHandle -> H256 -> string + option Transaction;
  query_block : RpcHandle -> string + u64 }.

(** ** Computations of a task *)

Definition EvalM (A : Type) : Type := EvalState -> outcome (EvalState * option A).
#[export] Instance EvalM_ret : MRet EvalM := fun A a s => Done (s, Some a).
#[export] Instance EvalM_bind : MBind EvalM := fun A B f m s =>
  match m s with
  | Done (s, Some a) => f a s
  | Done (s, None) => Done (s, None)
  | Panicked => Panicked
  end.
(** [return None]. *)
Definition return_none {A} : EvalM A := fun s => Done (s, None).
Definition lift_panic {A} (m : outcome A) : EvalM A := fun s =>
  match m with Done a => Done (s, Some a) | Panicked => Panicked end.
Definition on_route {A} (m : RouteM A) : EvalM A := fun s =>
  match m (es_route s) with
  | Done (r, a) => Done (s <[ es_route ::= r ]>, Some a)
  | Panicked => Panicked
  end.
Definition log (e : EvalEvent) : EvalM unit := fun s =>
  Done (s <[ es_trace ::= (es_trace s ++ [e])%list ]>, Some tt).
(** [if let Ok(mut model) = adaptive.lock()]. *)
Definition with_adaptive {B} (f : AdaptivePolicy -> AdaptivePolicy * B) : EvalM (option B) := fun s =>
  match es_adaptive s with
  | None => Done (s, Some None)
  | Some model => let '(model, b) := f model in Done (s <[ es_adaptive ::= Some model ]>, Some (Some b))
  end.

Definition funnel (stage : string) : EvalM unit := log (Dash (Funnel stage)).
Definition reason (stage why : string) : EvalM unit := log (Dash (RejectReason stage why)).
Definition note_ (level head : string) : EvalM unit := log (Dash (Note_ level head)).
Definition record_selector_stage (stage : string) : EvalM unit := log (SelectorStage stage).
Definition record_pool_shadow_stage (stage pool : string) : EvalM unit :=
  (if starts_with stage "partial_" then funnel stage else mret tt);;
  log (PoolStage stage pool).

(** Every sample starts from the payload's own one; without it, the gas price
    is converted and may not fit. *)
Definition sample_base (payload : ExecutionPayload) (gas_price : U256) : EvalM unit :=
  match ep_edge_metadata payload with
  | Some _ => mret tt
  | None => lift_panic (_ <-! as_u64 gas_price;; Done tt)
  end.
Definition edge_sample (payload : ExecutionPayload) (gas_price : U256) (status : string) : EvalM unit :=
  sample_base payload gas_price;; log (EdgeSample status).
Definition shown_sample (sample : outcome EdgeMetadata) : EvalM unit :=
  sample ← lift_panic sample; log (Sampled sample).
Definition record_payload_lifecycle (payload : ExecutionPayload) (gas_price : U256)
    (status quote_result quote_failure_reason ready_reason : string)
    (reject : option ExecutionRejectReason) : EvalM unit :=
  sample_base payload gas_price;;
  log (Lifecycle status quote_result quote_failure_reason ready_reason reject).

(** ** Why a gate rejects, for the lifecycle *)

Definition ev_validation_reject (why : string) : ExecutionRejectReason :=
  if one_of why ["token_decimals_unknown"; "invalid_token_metadata"] then InvalidDecimals
  else if one_of why ["reserve_normalization_zero"; "pool_token_mismatch"; "v3_liquidity_zero"] then LowLiquidity
  else if one_of why ["sqrt_price_x96_zero"; "tick_sqrt_price_mismatch"; "v3_tick_data_missing"] then
    InvalidNormalization
  else EvValidationFailed.
Definition scavenger_sanity_reject (why : string) : ExecutionRejectReason :=
  if string_eqb why "scavenger_gas_limit_above_cap" then GasTooHigh
  else if string_eqb why "scavenger_price_impact_above_cap" then HighPriceImpact
  else if string_eqb why "scavenger_no_positive_gross_edge" then NegativeEdge
  else if string_eqb why "scavenger_zero_capital" then RepaymentRisk
  else if string_eqb why "scavenger_missing_target" then UnknownPool
  else EvValidationFailed.
Definition scavenger_quote_reject (why : string) : ExecutionRejectReason :=
  if string_eqb why "scavenger_quote_price_impact_above_cap" then HighPriceImpact
  else if string_eqb why "scavenger_quote_invalid_pool_state" then LowLiquidity
  else if one_of why ["scavenger_quote_roi_below_min"; "scavenger_quote_net_after_gas_not_positive";
                      "scavenger_quote_edge_below_safety_floor"] then NegativeEdge
  else AdaptiveRejected.
Definition ev_gate_reject (why : string) : ExecutionRejectReason :=
  if string_eqb why "ev_gas_limit_above_cap" then GasTooHigh
  else if one_of why ["ev_profit_below_min_wei"; "ev_profit_below_min_usd"; "ev_zero_expected_profit"] then
    NegativeEdge
  else if string_eqb why "ev_price_impact_too_low" then HighPriceImpact
  else EvValidationFailed.
Definition quality_gate_reject (why : string) : ExecutionRejectReason :=
  if one_of why ["quality_price_impact_above_cap"; "quality_impact_score_above_cap"] then HighPriceImpact
  else if one_of why ["quality_zero_expected_profit"; "quality_roi_below_min"] then NegativeEdge
  else EvValidationFailed.

(** ** The EVM preflight of the runtime *)

Definition or_insert_empty (a : Address) (m : gmap Address AccountState) : gmap Address AccountState :=
  match m !! a with Some _ => m | None => <[a := AccountState_empty]> m end.
Definition runtime_overrides (config : Config) (pool_state : AmmState) : gmap Address AccountState :=
  let pool : gmap Address AccountState :=
    match pool_state with
    | UniswapV2 pool => {[AmmV2.pair pool := with_storage {[0 := reserve0 pool; 1 := reserve1 pool]}]}
    | UniswapV3 pool =>
        {[AmmV3.pool pool := with_storage {[0 := sqrt_price_x96 pool; 1 := liquidity pool;
                                            2 := Z.max (current_tick pool) 0]}]}
    end in
  let add (a : option Address) (m : gmap Address AccountState) :=
    match a with Some a => or_insert_empty a m | None => m end in
  or_insert_empty (profit_address config)
    (add (mev_executor_v3 (mev config)) (add (mev_executor (mev config)) pool)).
Definition runtime_mock_tx (config : Config) (payload : ExecutionPayload) (victim : Transaction) : Transaction :=
  {| tx_hash := tx_hash victim; tx_nonce := tx_nonce victim; tx_from := executor_address config;
     tx_to := Some (ep_target_contract payload); tx_value := ep_value payload;
     tx_gas_price := Some (victim_gas_price victim); tx_gas := ep_gas_limit payload;
     tx_input := ep_calldata payload; tx_max_priority_fee_per_gas := None; tx_max_fee_per_gas := None;
     tx_chain_id := Some (chain_id config); tx_block_number := None |}.
Definition validate_with_evm_preflight `{Surroundings} (payload : ExecutionPayload) (victim : Transaction)
    (block : u64) (pool_state : AmmState) (config : Config) : outcome (string + EvmPreflightResult) :=
  evm_preflight_execution evm_transact evm_utf8_lossy config (runtime_mock_tx config payload victim) block
    evm_timestamp (runtime_overrides config pool_state).

(** The first and the last token of the path; an empty path panics. *)
Definition build_opportunity (now : Instant) (tx : Transaction) (signal : SwapSignal)
    (payload : ExecutionPayload) (relay : option string) : outcome MevOpportunity :=
  match sw_path signal with
  | [] => Panicked
  | token_in :: _ =>
      Done {| detected_at := now; victim_tx := tx_hash tx; victim_transaction := Some tx;
              execution_payload := Some payload; op_router := sw_router signal; op_token_in := token_in;
              op_token_out := default token_in (last (sw_path signal)); op_selector := sw_selector signal;
              decode_source := sw_decode_source signal; decode_confidence := sw_decode_confidence signal;
              preferred_relay := relay |}
  end.

(** ** The task *)

Section Task.
Context {network_ : Endpoints} {host : Host} {around : Surroundings}.
Context (config : Config).

Definition now : EvalM Instant := on_route (on_world (now_ clk)).
Definition gas_gwei (gas_price : U256) : f64 := (f64_of_Z gas_price / 1e9)%f64.

(** The fast gate; a gas price above the adaptive cap is only let through for
    research. *)
Definition fast_step (c : LookupDecodedCandidate) (min_large_swap_wei : U256)
  : EvalM FastPreflightDecision :=
  let fast_gate := fast_preflight_gate (ld_signal c) (ld_gas_price c) min_large_swap_wei config
                     (ld_context_signal c) in
  match max_gas_price_gwei (mev config) with
  | None => mret tt
  | Some hard_cap =>
      cap ← lift_panic (adaptive_gas_cap_gwei (fp_ev_upper_bound_usd fast_gate)
                          (wei_to_eth_f64 (sw_notional_wei (ld_signal c))) (f64_of_Z hard_cap));
      if (wei_to_gwei_f64 (ld_gas_price c) >? cap)%f64 then
        reason "gas_price_cap" "victim_gas_price_above_adaptive_cap";;
        if scavenger_gas_cap_research_bypass env config (ld_signal c) fast_gate then
          reason "gas_price_cap" "research_bypass_shadow_only";;
          note_ "info" "opportunity gas-cap research bypass";;
          record_selector_stage "fast_preflight_gas_cap_research_bypass"
        else
          note_ "warn" "opportunity skipped";;
          funnel "fast_preflight_reject";;
          record_selector_stage "fast_preflight_reject";;
          return_none
      else mret tt
  end;;
  if negb (fp_should_continue fast_gate) then
    funnel "fast_preflight_reject";;
    match fp_reject_reason fast_gate with Some why => reason "fast_preflight" why | None => mret tt end;;
    return_none
  else
    funnel "fast_preflight_pass";;
    mret fast_gate.

(** The flow is observed, then the policy is asked outside the scavenger mode. *)
Definition adaptive_step (c : LookupDecodedCandidate) : EvalM unit :=
  let signal := ld_signal c in
  t ← now;
  with_adaptive (fun model =>
    (observe_candidate_flow t model (ld_cluster c) (sw_notional_wei signal) (ld_gas_price c), tt));;
  if is_scavenger config then
    funnel "adaptive_preflight_pass";; log (MarketRegimeIs "scavenger")
  else
    t ← now;
    answer ← with_adaptive (fun model =>
      preflight_score exp_ ln_1p_ t model
        {| pi_cluster := ld_cluster c; pi_notional_eth := wei_to_eth_f64 (sw_notional_wei signal);
           pi_gas_price_wei := ld_gas_price c; pi_path_len := path_len signal |});
    match answer with
    | None => return_none
    | Some preflight =>
        log (MarketRegimeIs (regime_as_str (pq_regime preflight)));;
        let override := should_override_preflight_reject config preflight in
        if negb (should_continue preflight) && negb override then
          funnel "adaptive_preflight_reject";;
          match pq_reject_reason preflight with Some why => reason "preflight" why | None => mret tt end;;
          return_none
        else
          funnel "adaptive_preflight_pass";;
          if negb (should_continue preflight) && override then note_ "warn" "preflight bypassed" else mret tt
    end.

(** Pool and shadow stages of a payload. *)
Definition known_pool (sample : EdgeMetadata) : bool :=
  negb (string_eqb (trim (em_pool sample)) "") && negb (string_eqb (em_pool sample) "unknown").
Definition payload_pool_name (payload : ExecutionPayload) : string :=
  match ep_edge_metadata payload with
  | Some sample => if known_pool sample then em_pool sample else debug_address (ep_pair payload)
  | None => debug_address (ep_pair payload)
  end.
Definition partial_or (signal : SwapSignal) (partial whole : string) : string :=
  if is_partial_decode signal then partial else whole.
Definition shadow_ev_stage (signal : SwapSignal) (positive : bool) : string :=
  if positive then partial_or signal "partial_shadow_ev_positive" "shadow_ev_positive"
  else partial_or signal "partial_shadow_ev_negative" "shadow_ev_negative".
Definition without_ticks (payload : ExecutionPayload) : bool :=
  match ep_pool_state_before payload with
  | UniswapV3 pool => bool_decide (initialized_ticks pool = [])
  | UniswapV2 _ => false
  end.
Definition record_payload_pool_shadow (signal : SwapSignal) (payload : ExecutionPayload)
    (economic_payload : bool) : EvalM unit :=
  let economic_payload := economic_payload && negb (without_ticks payload) in
  let pool := payload_pool_name payload in
  record_pool_shadow_stage (partial_or signal "partial_pool_found" "pool_found") pool;;
  (if economic_payload then record_pool_shadow_stage "payload_built" pool else mret tt);;
  record_pool_shadow_stage
    (shadow_ev_stage signal ((wei_to_eth_f64 (ep_expected_profit_wei payload) >? 0.0)%f64 && economic_payload))
    pool.

Definition POOL_MISSING : list string :=
  ["pair_not_found"; "pool_not_found"; "factory_wrong_or_unavailable"; "v3_fee_tier_or_pool_not_found"].
Definition PARTIAL_POOL_MISSING : list string :=
  ["payload_builder_unclassified"; "pool_state_unavailable"; "path_inverted_or_pool_token_mismatch"].
Definition record_payload_pool_reject (signal : SwapSignal) (payload_detail : string)
    (sample : option EdgeMetadata) : EvalM unit :=
  let detail := to_lower payload_detail in
  match (s ← sample;
         let pool := trim (em_pool s) in
         if string_eqb pool "" || string_eqb pool "unknown" then None else Some (s, pool)) with
  | Some (s, pool) =>
      let blocked := has_any detail ["v3_tick_data_missing"; "shadow_v3_ev_blocked"] in
      record_pool_shadow_stage (partial_or signal "partial_pool_found" "pool_found") pool;;
      record_pool_shadow_stage
        (shadow_ev_stage signal (negb blocked && (em_gross_edge_native s >? 0.0)%f64)) pool
  | None =>
      if has_any detail POOL_MISSING || (is_partial_decode signal && has_any detail PARTIAL_POOL_MISSING) then
        record_pool_shadow_stage (partial_or signal "partial_pool_missing" "pool_missing") "unknown"
      else mret tt
  end.

(** What the builder answers; an error ends the task. *)
Definition payload_step (at_route at_builder : RpcHandle -> Config) (c : LookupDecodedCandidate) (fast_gate : FastPreflightDecision) : EvalM ExecutionPayload :=
  let signal := ld_signal c in
  (if is_partial_decode signal then
     record_selector_stage "partial_entered_payload_builder";;
     record_pool_shadow_stage "partial_entered_payload_builder" "pending";;
     record_pool_shadow_stage "partial_pool_discovery_attempted" "pending"
   else mret tt);;
  built ← on_route (build_payload_with_fallback_parallel config at_route at_builder signal (ld_gas_price c)
                      (ld_context_signal c) (ld_block_number c));
  match built with
  | inl err =>
      funnel "payload_reject";;
      record_selector_stage "payload_reject";;
      let human := human_payload_error err in
      let detail := payload_error_detail debug_address err signal in
      let sample := extract_edge_sample from_json err in
      record_payload_pool_reject signal detail sample;;
      shown_sample
        match sample with
        | Some sample => Done (enrich_edge_explainer_sample (tx_hash (ld_tx c)) signal sample fast_gate)
        | None =>
            payload_reject_edge_sample debug_address debug_hash (tx_hash (ld_tx c)) signal human detail (ld_gas_price c)
        end;;
      reason "payload_build" human;;
      reason "payload_build_detail" detail;;
      note_ "warn" "payload blocked";;
      return_none
  | inr payload =>
      funnel "payload_built";;
      record_selector_stage "payload_built";;
      (if allow_send config then mret tt
       else funnel "shadow_payload_built";; record_selector_stage "shadow_payload_built");;
      record_payload_lifecycle payload (ld_gas_price c) "payload_built" "not_attempted" "" "" None;;
      mret payload
  end.

Definition validation_step (c : LookupDecodedCandidate) (payload : ExecutionPayload) : EvalM unit :=
  let ev_validation := validate_payload_ev ln config payload (ld_signal c) (ld_gas_price c) in
  if negb (ev_pass ev_validation) then
    funnel "ev_validation_failed";;
    funnel "ev_gate_reject";;
    reason "ev_validation" (ev_reason ev_validation);;
    reason "ev_gate" (ev_reason ev_validation);;
    record_selector_stage "ev_validation_failed";;
    record_selector_stage "ev_gate_reject";;
    record_payload_pool_shadow (ld_signal c) payload false;;
    record_payload_lifecycle payload (ld_gas_price c) "ev_validation_failed" "not_attempted"
      "ev_validation_failed" "" (Some (ev_validation_reject (ev_reason ev_validation)));;
    note_ "warn" "ev_validation_failed";;
    return_none
  else
    funnel "ev_validation_pass";;
    reason "ev_validation" (ev_reason ev_validation).

(** *** The replay queue *)

(** Counts how often a key was seen. *)
Definition replay_repeat_count (key : string) : EvalM u64 := fun s =>
  let count := u64_sadd (default 0 (es_replay_counts s !! key)) 1 in
  Done (s <[ es_replay_counts ::= <[key := count]> (es_replay_counts s) ]>, Some count).
Definition replay_rejected (signal : SwapSignal) (pool : string) : EvalM unit :=
  if is_partial_decode signal then record_pool_shadow_stage "partial_replay_candidate_rejected" pool
  else mret tt.
Definition replay_candidate (c : LookupDecodedCandidate) (payload : ExecutionPayload) (pool : string)
  : ReplayCandidate :=
  let signal := ld_signal c in
  {| rc_tx_hash := tx_hash (ld_tx c); rc_selector := selector_hex (sw_selector signal);
     rc_target := debug_address (sw_router signal); rc_pool := pool; rc_path := sw_path signal;
     rc_amount_in := sw_amount_in signal; rc_amount_out_min := sw_amount_out_min signal;
     rc_gas_gwei := gas_gwei (ld_gas_price c); rc_block_number := ld_block_number c;
     rc_expected_profit := wei_to_eth_f64 (ep_expected_profit_wei payload);
     rc_confidence := sw_decode_confidence signal; rc_decode_source := sw_decode_source signal;
     rc_gas_limit := ep_gas_limit payload |}.
Definition maybe_enqueue_replay_candidate (c : LookupDecodedCandidate) (payload : ExecutionPayload)
    (economic_payload : bool) : EvalM unit :=
  let signal := ld_signal c in
  match replay_queue with
  | None => replay_rejected signal "unknown"
  | Some try_send =>
      if negb economic_payload || (wei_to_eth_f64 (ep_expected_profit_wei payload) <=? 0.0)%f64 then
        replay_rejected signal "unknown"
      else if (sw_decode_confidence signal <? replay_min_confidence env)%f64 then
        replay_rejected signal "unknown"
      else
        let pool := payload_pool_name payload in
        if string_eqb pool "unknown" then replay_rejected signal "unknown"
        else
          let candidate := replay_candidate c payload pool in
          repeat_count ← replay_repeat_count
            (String.concat "|" [rc_selector candidate; rc_target candidate; pool]);
          if repeat_count <? replay_min_repeat_count env then replay_rejected signal pool
          else
            match try_send candidate with
            | Sent =>
                log (Replayed candidate);;
                funnel "replay_candidate";;
                reason "replay_queue" "queued";;
                if is_partial_decode signal then record_pool_shadow_stage "partial_replay_candidate_created" pool
                else mret tt
            | QueueFull => reason "replay_queue" "full_drop"
            | QueueClosed => reason "replay_queue" "closed"
            end
  end.

(** *** After the payload *)

(** Whether the payload is economic: only asked in the scavenger mode. *)
Definition economic_diagnostic (c : LookupDecodedCandidate) (payload : ExecutionPayload)
  : option GateDiagnostic :=
  if is_scavenger config then
    Some (scavenger_economic_edge_diagnostic env fmt_prec parse_ether config payload (ld_gas_price c))
  else None.
Definition economic_of (diagnostic : option GateDiagnostic) : bool :=
  match diagnostic with Some d => gd_pass d | None => true end.

Definition shadow_sample (c : LookupDecodedCandidate) (payload : ExecutionPayload)
    (fast_gate : FastPreflightDecision) (economic_payload : bool) (sample : EdgeMetadata) : EdgeMetadata :=
  let sample := enrich_edge_explainer_sample (tx_hash (ld_tx c)) (ld_signal c) sample fast_gate in
  let sample := append_gas_sniper_shadow_metrics payload (ld_gas_price c) sample in
  if economic_payload then sample
  else sample <[ em_status ::= "shadow_candidate"%string ]> <[ em_reason ::= "dust edge below economic floor"%string ]>.
Definition shadow_step (c : LookupDecodedCandidate) (payload : ExecutionPayload) (fast_gate : FastPreflightDecision)
    (diagnostic : option GateDiagnostic) : EvalM unit :=
  let economic_payload := economic_of diagnostic in
  (match diagnostic with
   | Some d =>
       if gd_pass d then funnel "payload_to_quote_pass"
       else
         funnel "payload_to_quote_reject";;
         reason "payload_to_quote" (gd_reason d);;
         note_ "warn" "payload_to_quote reject"
   | None => funnel "payload_to_quote_pass"
   end);;
  record_payload_pool_shadow (ld_signal c) payload economic_payload;;
  maybe_enqueue_replay_candidate c payload economic_payload;;
  match ep_edge_metadata payload with
  | Some sample => log (Sampled (shadow_sample c payload fast_gate economic_payload sample))
  | None => mret tt
  end.

(** The EVM preflight, when the environment asks for it. *)
Definition evm_step (c : LookupDecodedCandidate) (payload : ExecutionPayload) : EvalM unit :=
  if eq_ignore_ascii_case (default "" (env "MEV_EVM_PREFLIGHT_ENABLED")) "true"
     && negb (is_scavenger config) then
    result ← lift_panic (validate_with_evm_preflight payload (ld_tx c) (ld_block_number c)
                           (ep_pool_state_before payload) config);
    match result with
    | inr preflight =>
        if negb (pf_success preflight) then
          reason "evm_preflight" (default "preflight_failed" (pf_revert_reason preflight));;
          return_none
        else note_ "info" "evm preflight passed"
    | inl err => reason "evm_preflight_error" err;; return_none
    end
  else mret tt.

(** Profit per ether committed, in the unit interval. *)
Definition capital_efficiency_of (profit_usd : f64) (payload : ExecutionPayload) : f64 :=
  let capital_eth := fmax (wei_to_eth_f64 (ep_capital_committed_wei payload)) 1e-9 in
  fclamp01 (fmax (profit_usd / capital_eth) 0.0 / fmax (eth_usd_price (mev config)) 1.0)%f64.
Definition pending (opportunity : MevOpportunity) (ev p efficiency relay priority : f64)
  : PendingExecutionCandidate :=
  {| pc_opportunity := opportunity; pc_ev_real_usd := ev; pc_p_positive := p;
     pc_capital_efficiency := efficiency; pc_relay_score := relay; pc_context_priority_score := priority |}.

(** *** The scavenger mode *)

(** The diagnostic is of an earlier reading of the mode: it is missing when that was
    another one, which counts as economic until the quote, where it panics. *)
Definition scavenger_step (c : LookupDecodedCandidate) (payload : ExecutionPayload)
    (fast_gate : FastPreflightDecision) (diagnostic : option GateDiagnostic) : EvalM PendingExecutionCandidate :=
  let signal := ld_signal c in
  let gas_price := ld_gas_price c in
  let expected := lift_panic match diagnostic with Some economic => Done economic | None => Panicked end in
  (if negb (economic_of diagnostic) then
     economic ← expected;
     reason "shadow_research" (gd_reason economic);;
     record_selector_stage "shadow_research_reject";;
     edge_sample payload gas_price "shadow_research_reject";;
     note_ "warn" "shadow research reject";;
     funnel "shadow_research_reject";;
     record_payload_lifecycle payload gas_price "shadow_research_reject" "not_attempted"
       "economic_payload_failed" "" (Some NegativeEdge);;
     return_none
   else mret tt);;
  (match passes_scavenger_sanity_gate config payload (ld_lookup_latency c) with
   | inl why =>
       reason "ev_gate" why;;
       record_selector_stage "ev_gate_reject";;
       edge_sample payload gas_price "ev_gate_reject";;
       note_ "warn" "EV gate reject";;
       funnel "ev_gate_reject";;
       reason "scavenger_sanity" why;;
       record_payload_lifecycle payload gas_price "execution_ready_reject" "not_attempted"
         "scavenger_sanity_failed" "" (Some (scavenger_sanity_reject why));;
       return_none
   | inr _ => mret tt
   end);;
  funnel "ev_gate_pass";;
  record_selector_stage "ev_gate_pass";;
  funnel "quote_attempt";;
  funnel "adaptive_quote_candidate";;
  economic ← expected;
  let quote := scavenger_war_quote_diagnostic config payload signal gas_price economic in
  (if negb (gd_pass quote) then
     funnel "quote_failure";;
     funnel "adaptive_quote_reject";;
     funnel "execution_ready_candidate";;
     funnel "execution_ready_reject";;
     reason "scavenger_quote" (gd_reason quote);;
     record_selector_stage "adaptive_quote_reject";;
     edge_sample payload gas_price "scavenger_quote_reject";;
     record_payload_lifecycle payload gas_price "adaptive_quote_reject" "failure" (gd_reason quote) ""
       (Some (scavenger_quote_reject (gd_reason quote)));;
     note_ "warn" "scavenger quote reject";;
     return_none
   else mret tt);;
  funnel "quote_success";;
  funnel "adaptive_quote_pass";;
  funnel "execution_ready_candidate";;
  let expected_profit_usd := fmax (gd_net_ev_usd quote) 0.0 in
  t ← now;
  opportunity ← lift_panic (build_opportunity t (ld_tx c) signal payload None);
  funnel "execution_ready";;
  record_selector_stage "execution_ready";;
  record_payload_lifecycle payload gas_price "execution_ready" "success" "" "scavenger_sanity_fast_path" None;;
  shown_sample (execution_ready_edge_sample (tx_hash (ld_tx c)) signal (Some payload) gas_price "execution_ready"
                  "scavenger_sanity_fast_path" expected_profit_usd 1.0 "scavenger");;
  note_ "info" "scavenger execution ready";;
  mret (pending opportunity expected_profit_usd
          (fclamp_in (0.45 + scavenger_try_score fast_gate * 0.50)%f64 0.05 0.98)
          (capital_efficiency_of expected_profit_usd payload)
          (fclamp01 (gas_ratio fast_gate)) (priority_score (ld_context_signal c))).

(** *** The other modes *)

Definition quote_input (c : LookupDecodedCandidate) (payload : ExecutionPayload) (execution_cost_wei : U256)
  : AdaptiveQuoteInput :=
  {| qi_cluster := ld_cluster c; qi_pair := ep_pair payload; qi_hour_utc := ld_hour_utc c;
     qi_context_priority_score := priority_score (ld_context_signal c);
     qi_context_toxicity_score := toxicity_score (ld_context_signal c);
     qi_expected_profit_wei := ep_expected_profit_wei payload; qi_execution_cost_wei := execution_cost_wei;
     qi_gas_price_wei := ld_gas_price c; qi_lookup_latency_ms := f64_of_Z (as_millis (ld_lookup_latency c));
     qi_notional_eth := wei_to_eth_f64 (sw_notional_wei (ld_signal c));
     qi_price_impact_bps := ep_price_impact_bps payload; relay_pressure_override := None |}.

Definition ev_gate_step (c : LookupDecodedCandidate) (payload : ExecutionPayload) (min_profit_wei : U256)
  : EvalM unit :=
  let d := ev_gate_diagnostic display_f64 parse_ether config payload (ld_signal c) (ld_lookup_latency c)
             min_profit_wei in
  if negb (gd_pass d) then
    funnel "ev_gate_reject";;
    reason "ev_gate" (gd_reason d);;
    record_selector_stage "ev_gate_reject";;
    edge_sample payload (ld_gas_price c) "ev_gate_reject";;
    record_payload_lifecycle payload (ld_gas_price c) "ev_gate_reject" "not_attempted" "ev_gate_failed" ""
      (Some (ev_gate_reject (gd_reason d)));;
    note_ "warn" "EV gate reject";;
    return_none
  else funnel "ev_gate_pass";; record_selector_stage "ev_gate_pass".

Definition quality_step (c : LookupDecodedCandidate) (payload : ExecutionPayload) (execution_cost_wei : U256)
  : EvalM unit :=
  let d := quality_gate_diagnostic config payload execution_cost_wei in
  if negb (gd_pass d) then
    funnel "execution_ready_candidate";;
    funnel "execution_ready_reject";;
    reason "quality_gate" (gd_reason d);;
    edge_sample payload (ld_gas_price c) "quality_gate_reject";;
    record_payload_lifecycle payload (ld_gas_price c) "execution_ready_reject" "not_attempted"
      "quality_gate_failed" "" (Some (quality_gate_reject (gd_reason d)));;
    return_none
  else mret tt.

(** The policy reads the clock once per relay tried. *)
Definition ask_quote (input : AdaptiveQuoteInput) : EvalM (option AdaptiveQuote) := fun s =>
  let w := rt_world (es_route s) in
  let reads := Nat.max 1 (Datatypes.length (builder_relays config)) in
  let clock := fun i => clk (tick w + i)%nat in
  match es_adaptive s with
  | None => Done (s, Some None)
  | Some model =>
      let '(model, quote) := quote_for_relays exp_ ln_1p_ clock model input (builder_relays config) in
      let w := w <[ tick ::= (tick w + reads)%nat ]> in
      Done (s <[ es_adaptive ::= Some model ]> <[ es_route ::= (es_route s) <[ rt_world ::= w ]> ]>,
            Some (Some quote))
  end.

Definition quote_step (c : LookupDecodedCandidate) (payload : ExecutionPayload) (execution_cost_wei : U256)
  : EvalM AdaptiveQuote :=
  let gas_price := ld_gas_price c in
  let quote_sample := adaptive_quote_edge_sample (tx_hash (ld_tx c)) (ld_signal c) payload gas_price in
  funnel "quote_attempt";;
  funnel "adaptive_quote_candidate";;
  answer ← ask_quote (quote_input c payload execution_cost_wei);
  match answer with
  | None =>
      funnel "quote_failure";;
      funnel "adaptive_quote_error";;
      record_selector_stage "adaptive_quote_error";;
      funnel "execution_ready_candidate";;
      funnel "execution_ready_reject";;
      reason "adaptive" "adaptive_model_lock_failed";;
      record_payload_lifecycle payload gas_price "adaptive_quote_error" "failure"
        "adaptive_model_lock_failed" "" (Some QuoteFailed);;
      shown_sample (quote_sample "adaptive_quote_error" None "adaptive_model_lock_failed" false false);;
      return_none
  | Some quote =>
      log (MarketRegimeIs (regime_as_str (regime quote)));;
      let override := should_override_adaptive_reject config quote in
      if negb (should_execute quote) && negb override then
        funnel "quote_failure";;
        funnel "adaptive_quote_reject";;
        record_selector_stage "adaptive_quote_reject";;
        funnel "execution_ready_candidate";;
        funnel "execution_ready_reject";;
        match reject_reason quote with Some why => reason "adaptive" why | None => mret tt end;;
        record_payload_lifecycle payload gas_price "adaptive_quote_reject" "failure"
          (default "adaptive_reject" (reject_reason quote)) "" (Some AdaptiveRejected);;
        shown_sample (quote_sample "adaptive_quote_reject" (Some quote)
                        (default "adaptive_reject" (reject_reason quote)) false override);;
        return_none
      else
        funnel "quote_success";;
        funnel "adaptive_quote_pass";;
        record_selector_stage "adaptive_quote_pass";;
        record_payload_lifecycle payload gas_price "adaptive_quote_pass" "success" "" "adaptive_passed" None;;
        shown_sample (quote_sample "adaptive_quote_pass" (Some quote)
                        (if override && negb (should_execute quote) then "adaptive_override" else "adaptive_pass")
                        true override);;
        (if negb (should_execute quote) && override && negb (is_scavenger config)
         then note_ "warn" "adaptive bypassed" else mret tt);;
        note_ "info" "adaptive gate passed";;
        mret quote
  end.

Definition standard_step (c : LookupDecodedCandidate) (payload : ExecutionPayload) (min_profit_wei : U256)
  : EvalM PendingExecutionCandidate :=
  let gas_price := ld_gas_price c in
  ev_gate_step c payload min_profit_wei;;
  let execution_cost_wei := safety_gas_cost config payload gas_price in
  quality_step c payload execution_cost_wei;;
  quote ← quote_step c payload execution_cost_wei;
  t ← now;
  opportunity ← lift_panic (build_opportunity t (ld_tx c) (ld_signal c) payload (selected_relay quote));
  funnel "execution_ready_candidate";;
  funnel "execution_ready";;
  record_selector_stage "execution_ready";;
  record_payload_lifecycle payload gas_price "execution_ready" "success" "" "adaptive_passed" None;;
  shown_sample (execution_ready_edge_sample (tx_hash (ld_tx c)) (ld_signal c) (Some payload) gas_price
                  "execution_ready" "adaptive_passed" (ev_real_usd quote) (p_positive quote)
                  (default "unknown" (selected_relay quote)));;
  mret (pending opportunity (ev_real_usd quote) (p_positive quote)
          (capital_efficiency_of (ev_real_usd quote) payload) (builder_pressure quote)
          (context_priority_score quote)).

End Task.

(** *** The whole task *)

(** Where a task reads the mode and the thresholds. The locks are read anew at each of
    these places, and the dashboard may have written them in between: while the task
    waits for the builds or the preflight, or from another thread at any time. The
    builds for the endpoints run side by side, each with its own readings. *)
Inductive EvalRead :=
| AtStart                         (* the thresholds of the task, the fast gate and the gas cap *)
| AtPreflight                     (* the adaptive preflight *)
| AtFanout                        (* the endpoints to build with *)
| AtRoute (handle : RpcHandle)    (* whether to look for a reverse route, and the search *)
| AtBuilder (handle : RpcHandle)  (* the payload builder *)
| AtValidation
| AtEconomic                      (* whether to ask for the economic diagnostic, and the diagnostic *)
| AtEvm                           (* whether to run the EVM preflight *)
| AtBranch                        (* which of the two ways to take *)
| AtGates.                        (* the gates and the quote of that way *)

Section Readings.
Context {network_ : Endpoints} {host : Host} {around : Surroundings}.
Context (config : EvalRead -> Config).

Definition evaluation_reading (c : LookupDecodedCandidate) (min_large_swap_wei min_profit_wei : U256)
  : EvalM PendingExecutionCandidate :=
  let min_large_swap_wei :=
    ether_or parse_ether min_large_swap_wei (display_f64 (effective_min_large_swap_eth (mev (config AtStart)))) in
  let min_profit_wei :=
    ether_or parse_ether min_profit_wei (display_f64 (effective_min_net_profit_eth (mev (config AtStart)))) in
  reason "eval_lane" (lane_as_str (ld_lane c));;
  fast_gate ← fast_step (config AtStart) c min_large_swap_wei;
  adaptive_step (config AtPreflight) c;;
  payload ← payload_step (config AtFanout) (fun h => config (AtRoute h)) (fun h => config (AtBuilder h)) c fast_gate;
  validation_step (config AtValidation) c payload;;
  let diagnostic := economic_diagnostic (config AtEconomic) c payload in
  shadow_step c payload fast_gate diagnostic;;
  evm_step (config AtEvm) c payload;;
  if is_scavenger (config AtBranch) then scavenger_step (config AtGates) c payload fast_gate diagnostic
  else standard_step (config AtGates) c payload min_profit_wei.

End Readings.

(** A route was looked for in the scavenger mode, and the gates are those of another. *)
Definition torn (mode : EvalRead -> OpportunityMode) : Prop :=
  mode AtBranch <> Scavenger /\ exists handle, mode (AtRoute handle) = Scavenger.

(** The task when nothing is written while it runs. *)
Definition process_evaluation_task {network_ : Endpoints} {host : Host} {around : Surroundings} (config : Config)
  : LookupDecodedCandidate -> U256 -> U256 -> EvalM PendingExecutionCandidate :=
  evaluation_reading (fun _ => config).
