(* ===== verification/Lookup.v ===== *)
(** * Lookup and decoding of a pending transaction ([mev/runtime.rs])

    [process_lookup_decode_task]: the transaction behind a hash, asked of several
    endpoints, the gate before decoding, the swap signal, its confidence, the
    context of its router, its lane and the current block. A transaction that is
    not decoded is diagnosed and shown. *)
From S2P Require Import Prelude F64 Text Ethers Config Pnl Payload Opportunity Rpc.
From S2P Require Import Adaptive Executor Calldata Decode EnvVars Intake Gates Batch Routes Diagnosis Evaluate.
#[local] Open Scope Z_scope.
#[local] Open Scope string_scope.
#[local] Open Scope Z_scope.

Section Task.
Context {network_ : Endpoints} {host : Host} {around : Surroundings}.
Context (config : Config).

(** The endpoints are asked at once; [ask] is what one answers, [observed] the
    block it shows, and the first answer with a value ends the wait. *)
Fixpoint first_answer {A B} (ask : RpcHandle -> string + option A) (observed : A -> option u64) (keep : A -> B)
    (completions : list RpcHandle) : RpcM (option B) :=
  match completions with
  | [] => mret None
  | handle :: completions =>
      started ← now_ clk;
      match ask handle with
      | inr (Some a) =>
          t ← now_ clk;
          record_success clk (h_id handle) (elapsed t started) (observed a);;
          mret (Some (keep a))
      | inr None =>
          t ← now_ clk;
          record_success clk (h_id handle) (elapsed t started) None;;
          first_answer ask observed keep completions
      | inl err =>
          record_failure clk (h_id handle) (classify_failure err);;
          first_answer ask observed keep completions
      end
  end.
Definition ask_readers {A B} (fanout : Z) (ask : RpcHandle -> string + option A) (observed : A -> option u64)
    (keep : A -> B) : RpcM (option B) :=
  handles ← read_candidates clk powf (env "RPC_READ_ROTATE_TOP_N") (Z.to_nat fanout);
  forM (fun h => reserve_read_selection clk (h_id h)) handles;;
  first_answer ask observed keep (completion_order handles).

Definition lookup_pending_tx_parallel (hash : H256) : RpcM (option Transaction) :=
  ask_readers (pending_lookup_fanout env) (fun h => query_transaction h hash)
    (fun tx => Some (default 0 (tx_block_number tx))) (fun tx => tx).
Definition get_current_block_parallel : RpcM (option u64) :=
  ask_readers (block_lookup_fanout env)
    (fun h => match query_block h with inl err => inl err | inr block => inr (Some block) end) Some (fun block => block).

(** The transaction that came with the hash, or the one found. *)
Definition find_transaction (task : PendingHashTask) (lookup_started : Instant) : EvalM Transaction :=
  match task_pending_tx task with
  | Some tx => funnel "tx_lookup_skipped_full_pending";; mret tx
  | None =>
      found ← on_route (on_world (lookup_pending_tx_parallel (task_hash task)));
      match found with
      | None => funnel "tx_lookup_miss";; return_none
      | Some tx =>
          funnel "tx_lookup_success";;
          t ← now;
          with_adaptive (fun model =>
            (observe_lookup_latency model (f64_of_Z (elapsed_ms t lookup_started)), tt));;
          mret tx
      end
  end.

Definition selector_reason (stage : string) (tx : Transaction) : EvalM unit :=
  why ← lift_panic (decode_reject_selector_reason avx2 tx); reason stage why.
Definition gate_step (tx : Transaction) : EvalM unit :=
  verdict ← lift_panic (pre_decode_tx_gate env avx2 config tx);
  match verdict with
  | Some why =>
      funnel "decode_reject";; reason "pre_decode_gate" why;; selector_reason "decode_selector" tx;;
      return_none
  | None => mret tt
  end.

(** What is said of a transaction that is not decoded; the mode is read once more. *)
Context (at_diagnose : Config).
Definition rejected_step (hash : H256) (tx : Transaction) (min_large_swap_wei : U256) : EvalM unit :=
  d ← lift_panic (diagnose_decode_reject at_diagnose tx hash min_large_swap_wei
                     (opportunity_mode (mev at_diagnose)));
  reason "decode" (dr_reason d);;
  selector_reason "decode_selector" tx;;
  name ← lift_panic (aggregator_name_from_tx avx2 tx);
  (match name with
   | Some name => reason "aggregator_decode" name;; reason "aggregator_decode_detail" (dr_reason d)
   | None => mret tt
   end);;
  sample ← lift_panic (rejection_sample at_diagnose tx hash d);
  (match sample with Some sample => log (Sampled sample) | None => mret tt end);;
  match name with Some _ => note_ "warn" "aggregator flow not decoded" | None => mret tt end.

Definition decode_step (hash : H256) (tx : Transaction) (min_large_swap_wei : U256) : EvalM SwapSignal :=
  decoded ← lift_panic (decode_relevant_swap abi_decode display_f64 parse_ether (monitored_tokens config)
                          avx2 tx min_large_swap_wei (opportunity_mode (mev config)));
  match decoded with
  | None =>
      funnel "decode_reject";;
      rejected_step hash tx min_large_swap_wei;;
      return_none
  | Some signal =>
      funnel "decode_pass";;
      selector_reason "decode_selector_pass" tx;;
      record_selector_stage "decode_pass";;
      (if is_partial_decode signal then funnel "partial_signal";; record_selector_stage "partial_signal"
       else mret tt);;
      if (sw_decode_confidence signal <? min_partial_decode_confidence env)%f64 then
        funnel "decode_reject";;
        reason "decode" "partial_confidence_below_min";;
        record_selector_stage "confidence_reject";;
        return_none
      else mret signal
  end.

(** A router without a profile, or a poisoned lock, has a neutral context. *)
Definition context_step (signal : SwapSignal) (hour_utc : u8) : EvalM ContextSignal :=
  answer ← with_adaptive (fun model => (model, context_signal model (sw_router signal) hour_utc));
  mret (default {| priority_score := 0.50; toxicity_score := 0.50; cs_samples := 0 |} answer).

(** The static budget starts at its first use. *)
Definition small_budget_step : EvalM bool := fun s =>
  match (now ≫= fun opened => now ≫= fun t => mret (opened, t)) s with
  | Done (s, Some (opened, t)) =>
      let guard := default {| sb_window_started := opened; sb_accepted := 0 |} (es_small s) in
      let '(guard, allowed) := allow_small_scavenger_candidate t guard in
      Done (s <[ es_small ::= Some guard ]>, Some allowed)
  | Done (s, None) => Done (s, None)
  | Panicked => Panicked
  end.
Definition lane_step (lane : CandidateLane) : EvalM unit :=
  reason "candidate_lane" (lane_as_str lane);;
  if bool_decide (lane = LaneSmall) && is_scavenger config then
    allowed ← small_budget_step;
    if negb allowed then
      funnel "small_scavenger_throttled";; reason "small_scavenger" "budget_limited";; return_none
    else mret tt
  else mret tt.

Definition block_step : EvalM u64 :=
  found ← on_route (on_world get_current_block_parallel);
  match found with
  | None => funnel "block_lookup_fail";; return_none
  | Some block => funnel "block_lookup_success";; mret block
  end.

(** [signal.path[0]] panics on an empty path. *)
Definition cluster_key (signal : SwapSignal) : outcome ClusterKey :=
  match sw_path signal with
  | [] => Panicked
  | token_in :: _ =>
      Done {| ck_router := sw_router signal; ck_token_in := token_in;
              ck_token_out := default token_in (last (sw_path signal)); ck_selector := sw_selector signal |}
  end.

End Task.

(** Where a task reads the mode and the thresholds, each time anew. *)
Inductive LookupRead := AtGate | AtMinimum | AtDecode | AtDiagnose | AtLane.

Section Readings.
Context {network_ : Endpoints} {host : Host} {around : Surroundings}.
Context (config : LookupRead -> Config).

Definition lookup_reading (task : PendingHashTask) : EvalM LookupDecodedCandidate :=
  lookup_started ← now;
  tx ← find_transaction task lookup_started;
  gate_step (config AtGate) tx;;
  match parse_ether (display_f64 (effective_min_large_swap_eth (mev (config AtMinimum)))) with
  | inl _ => return_none
  | inr min_large_swap_wei =>
      signal ← decode_step (config AtDecode) (config AtDiagnose) (task_hash task) tx min_large_swap_wei;
      context ← context_step signal hour_now;
      let gas_price := victim_gas_price tx in
      if gas_price =? 0 then funnel "decode_reject";; reason "decode" "zero_gas_price";; return_none
      else
        let lane := classify_candidate_lane signal min_large_swap_wei in
        lane_step (config AtLane) lane;;
        block ← block_step;
        cluster ← lift_panic (cluster_key signal);
        t ← now;
        mret {| ld_tx := tx; ld_signal := signal; ld_lane := lane; ld_hour_utc := hour_now;
                ld_gas_price := gas_price; ld_context_signal := context; ld_cluster := cluster;
                ld_lookup_latency := elapsed t lookup_started; ld_block_number := block |}
  end.
End Readings.

(** The task when nothing is written while it runs. *)
Definition process_lookup_decode_task {network_ : Endpoints} {host : Host} {around : Surroundings} (config : Config)
  : PendingHashTask -> EvalM LookupDecodedCandidate := lookup_reading (fun _ => config).

(** The two workers one after the other: a task from the queue to a candidate
    for the batch. *)
Definition process_task {network_ : Endpoints} {host : Host} {around : Surroundings} (config : Config)
    (task : PendingHashTask) (min_large_swap_wei min_profit_wei : U256) : EvalM PendingExecutionCandidate :=
  candidate ← process_lookup_decode_task config task;
  process_evaluation_task config candidate min_large_swap_wei min_profit_wei.
