(* ===== verification/RouteFacts.v ===== *)
(** * Lemmas on routes and payload building

    What the computations on the endpoints preserve: every cached V2 pool is well
    formed when what the chain answers is; what a request to a builder is about;
    why the route back through the pair itself never earns its repayment; and of
    the payloads that are built, the endpoint, the pool and the empty [tx]. *)
From S2P Require Import Prelude F64 Text Ethers Config AmmV2 AmmV3 Simulator Pnl Payload PayloadFacts PayloadProps.
From S2P Require Import PoolCache Opportunity Rpc Adaptive Calldata Decode EnvVars Gates Intake.
From S2P Require Import PayloadErrors Routes.
#[local] Open Scope Z_scope.

(** ** Computations *)

Lemma route_bind {A B} (m : RouteM A) (f : A -> RouteM B) r r' b :
  (m ≫= f) r = Done (r', b) <-> exists r1 a, m r = Done (r1, a) /\ f a r1 = Done (r', b).
Proof.
  unfold mbind, RouteM_bind. destruct (m r) as [[r1 a]|].
  - split; [eauto|by intros (? & ? & [= <- <-] & ?)].
  - split; [done|by intros (? & ? & ? & ?)].
Qed.

Lemma route_ret {A} (a b : A) r r' : (mret a : RouteM A) r = Done (r', b) <-> r' = r /\ b = a.
Proof. unfold mret, RouteM_ret; split; [intros [= -> ->]; done|intros [-> ->]; done]. Qed.
Lemma try_inr {A B} (m : RouteM (string + A)) (f : A -> RouteM (string + B)) r r' b :
  try_ m f r = Done (r', inr b) <-> exists r1 a, m r = Done (r1, inr a) /\ f a r1 = Done (r', inr b).
Proof.
  unfold try_; rewrite route_bind. split.
  - intros (r1 & [e|a] & E & H); [by apply route_ret in H as [_ ?]|eauto].
  - intros (r1 & a & E & H); by eexists _, (inr a).
Qed.

(** Take apart a computation on the endpoints that ends with a value. *)
Ltac invert_route H :=
  repeat first
  [ progress cbv zeta in H
  | match type of H with
    | try_ _ _ _ = Done (_, inr _) =>
        let r := fresh "r" in let a := fresh "a" in let E := fresh "E" in
        apply try_inr in H as (r & a & E & H)
    | (_ ≫= _) _ = Done (_, _) =>
        let r := fresh "r" in let a := fresh "a" in let E := fresh "E" in
        apply route_bind in H as (r & a & E & H)
    | (if ?b then _ else _) _ = _ => destruct b eqn:?
    | (match ?m with _ => _ end) _ = _ => destruct m eqn:?
    | @mret _ _ _ _ _ = _ => apply route_ret in H as [? H]; try discriminate H
    end ].

(** ** Well-formed caches *)

Definition cache_ok (c : PoolCache) : Prop :=
  forall pair e, v2_pools c !! pair = Some e -> wf_pool (v2_state pair (data e)).
(** What the chain answers of a V2 pair: 112-bit reserves of two tokens. *)
Definition chain_ok (chain : Chain) : Prop :=
  forall pair t0 t1 r0 r1, fetch_v2 pair = Some (t0, t1, (r0, r1)) -> is_u112 r0 /\ is_u112 r1 /\ t0 <> t1.

Lemma new_cache_ok ttl : cache_ok (PoolCache.new ttl).
Proof. intros pair e H. simpl in H. by rewrite lookup_empty in H. Qed.

(** [m] keeps the caches well formed, and its value satisfies [Q]. *)
Definition yields {A} (Q : A -> Prop) (m : RouteM A) : Prop :=
  forall r r' a, cache_ok (rt_cache r) -> m r = Done (r', a) -> cache_ok (rt_cache r') /\ Q a.

Lemma yields_bind {A B} (P : A -> Prop) (Q : B -> Prop) (m : RouteM A) (f : A -> RouteM B) :
  yields P m -> (forall a, P a -> yields Q (f a)) -> yields Q (m ≫= f).
Proof.
  intros M F r r' b W H. apply route_bind in H as (r1 & a & E & H).
  destruct (M _ _ _ W E) as [W1 Pa]. exact (F a Pa _ _ _ W1 H).
Qed.
Lemma yields_ret {A} (Q : A -> Prop) (a : A) : Q a -> yields Q (mret a).
Proof. intros Qa r r' b W H. apply route_ret in H as [-> ->]. done. Qed.
Lemma yields_any {A} (Q : A -> Prop) (m : RouteM A) : yields Q m -> yields (fun _ => True) m.
Proof. intros M r r' a W H. by destruct (M _ _ _ W H). Qed.
Lemma yields_world {A} (m : RpcM A) : yields (fun _ => True) (on_world m).
Proof.
  intros r r' a W H. unfold on_world in H. destruct (m (rt_world r)) as [[w b]|]; [|done].
  by injection H as <- <-.
Qed.
(** [?]: an error is of no interest. *)
Definition right_ok {A B} (Q : B -> Prop) (r : A + B) : Prop := match r with inl _ => True | inr b => Q b end.
Lemma yields_try {A B} (P : A -> Prop) (Q : B -> Prop) (m : RouteM (string + A))
    (f : A -> RouteM (string + B)) :
  yields (right_ok P) m -> (forall a, P a -> yields (right_ok Q) (f a)) -> yields (right_ok Q) (try_ m f).
Proof. intros M F. eapply yields_bind; [exact M|]. intros [e|a] Pa; [by apply yields_ret|by apply F]. Qed.
Create HintDb routes.
#[export] Hint Resolve yields_world : routes.

(** ** The direct route back *)

(** What selling the borrowed tokens to the pair itself brings, at its prices
    before the victim, is less than what the pair then asks back. *)
Lemma quote_below_repayment a x y X Y o r :
  is_u112 x -> is_u112 X -> is_u112 Y -> x <= X -> Y <= y -> 0 < a -> a < x ->
  amount_out_exact_in a X Y 30 = Some o ->
  v2_repayment_amount_in_profit_token x y a = Some r -> o < r.
Proof.
  unfold is_u112; intros Hx HX HY LX LY A1 A2 O R.
  rewrite amount_out_quote in O by (unfold is_u112; lia).
  destruct ((a =? 0) || (X =? 0) || (Y =? 0)) eqn:Z0; [done|]. simpl in O. injection O as <-.
  simplify_tests.
  assert (PX : 0 < X) by lia. assert (PY : 0 < Y) by lia. assert (F : 0 <= 30 < 10000) by lia.
  pose proof (quote_mul_le a X Y 30 A1 PX F) as M. pose proof (quote_lt_reserve a X Y 30 A1 PX PY F) as L.
  pose proof (quote_nonneg a X Y 30 A1 PX PY F) as P.
  revert R; unfold v2_repayment_amount_in_profit_token. destruct (_ || _) eqn:Z1; [done|].
  set (o := AmmV2.quote a X Y 30) in *; clearbody o.
  assert (D : u256_smul (sat_sub x a) 997 = (x - a) * 997).
  { rewrite sat_sub_small, sat_mul_small by (unfold U256_MAX; nia). done. }
  rewrite D. destruct (Z.eqb_spec ((x - a) * 997) 0); [done|]. intros [= <-].
  assert (B : o * ((x - a) * 997) <= u256_smul (u256_smul y a) 1000).
  { assert (S1 : o * (x - a) <= o * X) by (apply Z.mul_le_mono_nonneg_l; lia).
    assert (S2 : a * Y <= a * y) by (apply Z.mul_le_mono_nonneg_l; lia).
    assert (S3 : 0 <= o * a) by (apply Z.mul_nonneg_nonneg; lia).
    assert (S4 : 0 <= o * X) by (apply Z.mul_nonneg_nonneg; lia).
    assert (S5 : 0 <= a * Y) by (apply Z.mul_nonneg_nonneg; lia).
    assert (B1 : o * ((x - a) * 997) <= y * a * 1000) by lia.
    assert (B2 : o * ((x - a) * 997) <= U256_MAX).
    { transitivity (2 ^ 112 * (2 ^ 112 * 997)); [apply Z.mul_le_mono_nonneg; lia|vm_compute; congruence]. }
    pose proof U256_MAX_nonneg. unfold sat_mul. lia. }
  assert (o <= u256_smul (u256_smul y a) 1000 / ((x - a) * 997)) by (apply Z.div_le_lower_bound; lia).
  assert (o + 1 <= U256_MAX) by (unfold U256_MAX; lia). unfold sat_add. lia.
Qed.

(** The pair after the victim: no cheaper in the token sold, no fuller in the
    token bought. *)
Lemma victim_moves_reserves p tin tout amount q res x y :
  wf_pool p -> 0 <= amount -> apply_swap_exact_in p tin tout amount = Some (q, res) ->
  reserves_for q tout tin = Some (x, y) ->
  exists X Y, reserves_for p tout tin = Some (X, Y) /\ is_u112 X /\ is_u112 Y /\ is_u112 x /\
    x <= X /\ Y <= y.
Proof.
  intros [W0 W1 Wf Wt] A H R. unfold apply_swap_exact_in in H.
  destruct (reserves_for p tin tout) as [[rin rout]|] eqn:E; simpl in H; [|done].
  revert H. destruct (_ || _) eqn:Z0; [done|].
  destruct (amount_out_exact_in amount rin rout (AmmV2.fee_bps p)) as [o|] eqn:O; simpl; [|done].
  destruct ((o =? 0) || (rout <=? o)) eqn:Z1; [done|]. intros H. apply (f_equal (fmap fst)) in H; simpl in H.
  injection H as <-. simplify_tests. pose proof U256_MAX_nonneg. unfold is_u112 in *.
  assert (I : 0 <= rin < 2 ^ 112 /\ 0 <= rout < 2 ^ 112).
  { apply reserves_for_Some in E. intuition (subst; lia). }
  assert (O0 : 0 <= o) by (eapply amount_out_Some_nonneg; [..|exact O]; lia).
  assert (MAX : 2 ^ 112 <= U256_MAX) by (vm_compute; congruence).
  assert (rin <= u256_sadd rin amount) by (unfold sat_add; lia).
  rewrite sat_sub_small in R by lia.
  apply reserves_for_Some in E as [(-> & -> & -> & ->)|(_ & -> & -> & -> & ->)].
  - rewrite Z.eqb_refl in R. apply reserves_for_Some in R; simpl in R.
    eexists _, _; split; [by apply reserves_for_Some; right; split; [intuition congruence|]|].
    intuition (subst; try lia; congruence).
  - destruct (Z.eqb_spec (AmmV2.token1 p) (AmmV2.token0 p)); [congruence|].
    apply reserves_for_Some in R; simpl in R.
    eexists _, _; split; [by apply reserves_for_Some; left|].
    intuition (subst; try lia; congruence).
Qed.

(** A request whose only swap pool is the pair itself, before the victim. *)
Record direct_request (input : FeeExtractionBuildInput) (pool : V2PoolState) : Prop := {
  dr_state : bi_state_before input = UniswapV2 pool;
  dr_pool : wf_pool pool;
  dr_fee : AmmV2.fee_bps pool = 30;
  dr_amount : 0 <= bi_victim_amount_in input;
  dr_path : bi_v2_swap_path input = Some [bi_token_out input; bi_token_in input];
  dr_pools : bi_v2_swap_pools input = [pool] }.

(** The numbers of the configuration and of the request that are of unsigned
    types. *)
Definition unsigned (config : Config) (gas_price : U256) : Prop :=
  0 <= gas_safety_margin_bps (mev config) /\ 0 <= max_gas_per_tx (mev config) /\ 0 <= gas_price.

Section Builders.
Context {host : Host}.
Context (config at_builder : Config).

Lemma fee_extraction_v2_built input p :
  fee_extraction_v2 at_builder input = Done (inr p) ->
  ep_tx p = [] /\ is_Some (ep_edge_metadata p) /\ ep_pool_state_before p = bi_state_before input /\
  (0 <= max_gas_per_tx (mev at_builder) -> 0 <= ep_gas_limit p).
Proof.
  unfold fee_extraction_v2, build_fee_extraction_v2; intros H; invert_build H.
  all: subst; split_and!; [done..|]; simpl; unfold payload_gas_estimate; lia.
Qed.

(** The builder then finds no size: what it would earn is below the repayment. *)
Lemma direct_route_not_built input pool p :
  direct_request input pool -> unsigned at_builder (bi_gas_price_wei input) ->
  fee_extraction_v2 at_builder input <> Done (inr p).
Proof.
  intros [S W F A RP PS] (U1 & U2 & U3) H.
  destruct (fee_extraction_v2_built _ _ H) as (_ & _ & _ & GL). unfold fee_extraction_v2 in H.
  destruct (build_v2_inv _ _ _ _ _ _ _ _ _ _ _ _ _ H)
    as (victim & q & x & y & cap & c & m & V & Q & _ & R & CAP & _ & FR & OK & _).
  assert (G : 0 <= payload_gas_cost at_builder input (ep_gas_limit p)) by (apply payload_gas_cost_nonneg; auto).
  rewrite RP, PS in OK. simpl in OK.
  destruct (candidate_ok_gain _ _ _ _ _ _ _ _ _ _ _ G OK) as (_ & r & RE & L).
  destruct OK as (AC & NZ & LT & QU & _).
  rewrite S in V. simpl in V.
  destruct (apply_swap_exact_in pool (bi_token_in input) (bi_token_out input) (bi_victim_amount_in input))
    as [[q' res]|] eqn:AS; [|done]. injection V as <-. simpl in Q. injection Q as ->.
  destruct (victim_moves_reserves _ _ _ _ _ _ _ _ W A AS R) as (X & Y & RB & HX & HY & Hx & LX & LY).
  unfold quote_v2_route_exact_in in QU. simpl in QU. rewrite RB, F in QU. simpl in QU.
  destruct (amount_out_exact_in (AmmV2.amount_in c) X Y 30) as [o|] eqn:O; [|done].
  simpl in QU. injection QU as E. rewrite <- E in L.
  assert (P : 0 < AmmV2.amount_in c).
  { unfold is_u112 in *. apply borrow_cap_nonneg in CAP; [|lia..].
    apply sizing_fractions_range in FR. assert (0 <= AmmV2.amount_in c); [|lia].
    rewrite AC. apply Z.div_pos; [|lia]. apply sat_mul_nonneg; unfold U256_MAX; lia. }
  pose proof (quote_below_repayment _ _ _ _ _ _ _ Hx HX HY LX LY P LT O RE). lia.
Qed.

(** ** What the requests yield *)

Section OneChain.
Context {chain : Chain}.
Context (CO : chain_ok chain).

Lemma cached_v2_yields pair block :
  yields (fun found => forall c, found = Some c -> wf_pool (v2_state pair c)) (cached_v2 pair block).
Proof.
  unfold cached_v2. eapply yields_bind; [apply yields_world|]. intros now _.
  apply (yields_bind (fun hit => forall c, hit = Some c -> wf_pool (v2_state pair c))).
  - intros r r' hit W H. unfold on_cache, lookup_v2 in H.
    destruct (v2_pools (rt_cache r) !! pair) as [e|] eqn:L;
      [destruct (fresh _ _ _ _); [|destruct (_ <=? _)%Z]|]; injection H as <- <-; (split; [exact W|]); try done.
    intros c [= <-]. exact (W _ _ L).
  - intros [hit|] Hh; [by apply yields_ret|].
    destruct (fetch_v2 pair) as [[[t0 t1] [r0 r1]]|] eqn:F; [|by apply yields_ret].
    destruct (CO _ _ _ _ _ F) as (W0 & W1 & T).
    eapply yields_bind; [apply yields_world|]. intros n1 _.
    eapply yields_bind; [apply yields_world|]. intros n2 _.
    apply (yields_bind (fun c => wf_pool (v2_state pair c))).
    + intros r r' c W H. unfold on_cache, store_v2 in H. injection H as <- <-. simpl.
      assert (P : wf_pool (v2_state pair {| c2_pair := pair; c2_token0 := t0; c2_token1 := t1;
        c2_reserve0 := r0; c2_reserve1 := r1; c2_block_number := block; c2_cached_at := n1 |}))
        by (split; simpl; [done..|lia|done]).
      split; [|exact P]. intros a e H. simpl in H. destruct (decide (a = pair)) as [->|N].
      * rewrite lookup_insert_eq in H. injection H as <-. exact P.
      * rewrite lookup_insert_ne in H by done. exact (W _ _ H).
    + intros c Wc. apply yields_ret. by intros ? [= <-].
Qed.

Lemma cached_v3_yields pool block : yields (fun _ => True) (cached_v3 pool block).
Proof.
  unfold cached_v3. eapply yields_bind; [apply yields_world|]. intros now _.
  apply (yields_bind (fun _ => True)).
  - intros r r' hit W H. unfold on_cache, lookup_v3 in H.
    destruct (v3_pools (rt_cache r) !! pool) as [e|]; [destruct (fresh _ _ _ _)|]; injection H as <- <-; done.
  - intros [hit|] _; [by apply yields_ret|].
    destruct (fetch_v3 pool) as [[[[t0 t1] l] [p t]]|]; [|by apply yields_ret].
    eapply yields_bind; [apply yields_world|]. intros n1 _.
    eapply yields_bind; [apply yields_world|]. intros n2 _.
    apply (yields_bind (fun _ => True)); [|intros c _; by apply yields_ret].
    intros r r' c W H. unfold on_cache, store_v3 in H. injection H as <- <-. done.
Qed.

Lemma load_edges_yields router edges direct victim block :
  yields (fun _ => True) (load_edges config router edges direct victim block).
Proof.
  induction edges as [|[a b] edges IH]; simpl; [by apply yields_ret|].
  destruct (find_v2_pair config router a b) as [e|[f pair]]; [by apply yields_ret|].
  destruct (_ || _); [by apply yields_ret|].
  eapply yields_bind; [apply cached_v2_yields|]. intros [c|] _; [|by apply yields_ret].
  eapply yields_bind; [apply IH|]. intros pools _. by apply yields_ret.
Qed.
Lemma best_route_yields router victim probe block routes best :
  yields (fun _ => True) (best_route_loop config router victim probe block routes best).
Proof.
  revert best; induction routes as [|route routes IH]; intros best; simpl; [by apply yields_ret|].
  apply (yields_bind (fun _ => True)).
  - unfold load_v2_route_pools. destruct (_ <? _)%nat; [by apply yields_ret|apply load_edges_yields].
  - intros loaded _. apply IH.
Qed.
Lemma reverse_route_yields signal tin tout victim router capital block :
  yields (fun _ => True) (best_scavenger_v2_reverse_route config signal tin tout victim router capital block).
Proof.
  unfold best_scavenger_v2_reverse_route. destruct (_ =? 0); [by apply yields_ret|].
  eapply yields_bind; [apply best_route_yields|]. intros best _. by apply yields_ret.
Qed.

(** Outside the scavenger mode the route is the direct one. *)
Definition request_ok (signal : SwapSignal) (gas_price : U256) (input : FeeExtractionBuildInput) : Prop :=
  bi_gas_price_wei input = gas_price /\ bi_recipient input = profit_address config /\
  (exists rest, sw_path signal = bi_token_in input :: bi_token_out input :: rest) /\
  (is_scavenger config = false -> 0 <= sw_amount_in signal -> exists pool, direct_request input pool).

Lemma signal_tokens_inv what signal tin tout :
  signal_tokens what signal = inr (tin, tout) -> exists rest, sw_path signal = tin :: tout :: rest.
Proof. unfold signal_tokens. destruct (sw_path signal) as [|a [|b rest]]; try done. intros [= <- <-]. eauto. Qed.

Lemma v2_request_yields signal gas ctx block :
  yields (right_ok (request_ok signal gas)) (v2_request config signal gas ctx block).
Proof.
  unfold v2_request.
  apply (yields_try (fun t => exists rest, sw_path signal = t.1 :: t.2 :: rest)).
  { apply yields_ret. destruct (signal_tokens _ signal) as [|[tin tout]] eqn:E; [done|]. by eapply signal_tokens_inv. }
  intros [tin tout] (rest & P).
  eapply yields_try with (P := fun _ => True); [apply yields_ret; by destruct (find_v2_pair _ _ _ _)|].
  intros [factory pair] _. destruct (_ =? 0); [by apply yields_ret|].
  eapply yields_bind; [apply cached_v2_yields|]. intros found FO.
  eapply yields_try with (P := fun c => wf_pool (v2_state pair c));
    [apply yields_ret; destruct found; [by apply FO|done]|].
  intros c Wc. destruct (negb _); [by apply yields_ret|]. destruct (_ || _); [by apply yields_ret|].
  eapply yields_try with (P := fun _ => True); [apply yields_ret; by destruct (contextual_capital_available_wei _ _)|].
  intros capital _. destruct (is_scavenger config) eqn:M.
  - eapply yields_bind; [apply reverse_route_yields|]. intros route _.
    destruct (default _ route) as [path pools]. apply yields_ret. simpl. unfold request_ok; simpl.
    split_and!; [done..|by exists rest|congruence].
  - apply (yields_bind (fun route => route = None)); [by apply yields_ret|]. intros route ->. simpl.
    apply yields_ret. simpl. unfold request_ok; simpl. split_and!; [done..|by exists rest|].
    intros _ A. by eexists (v2_state pair c).
Qed.

(** *** V3: the state that is built has no tick, and the builder needs one *)

Lemma v3_ticks_kept swap_ln state tin tout a v pool pool' :
  simulate_victim_exact_in swap_ln state tin tout a = Some v -> state = UniswapV3 pool ->
  state_after v = UniswapV3 pool' -> initialized_ticks pool' = initialized_ticks pool.
Proof.
  intros H -> E; simpl in H. destruct (simulate_exact_in swap_ln pool tin tout a) as [[q r]|] eqn:S; [|done].
  injection H as <-; simpl in E; injection E as ->. revert S; unfold simulate_exact_in.
  repeat split_step; by intros [= <- <-].
Qed.

Lemma v3_request_inv signal gas ctx fee path block r r' input :
  v3_request config signal gas ctx fee path block r = Done (r', inr input) ->
  exists pool, bi_state_before input = UniswapV3 pool /\ initialized_ticks pool = [].
Proof.
  unfold v3_request; intros H; invert_route H. injection H as ->. by eexists.
Qed.

Lemma v3_never_built signal gas ctx fee path block r r' res :
  build_v3_payload config at_builder signal gas ctx fee path block r = Done (r', res) ->
  forall p, res <> Done (inr p).
Proof.
  unfold build_v3_payload; intros H p E. invert_route H. rewrite E in H; symmetry in H.
  destruct a as [err|input]; [done|].
  destruct (v3_request_inv _ _ _ _ _ _ _ _ _ E0) as (pool & B & T).
  destruct (build_v3_inv _ _ _ _ _ _ _ _ _ _ _ _ _ H)
    as (fee_tier & path' & victim & pool' & cap & c & m & _ & V & A & N & _).
  destruct N. by rewrite (v3_ticks_kept _ _ _ _ _ _ _ _ V B A).
Qed.

Lemma v3_request_yields signal gas ctx fee path block :
  yields (fun _ => True) (v3_request config signal gas ctx fee path block).
Proof.
  apply (yields_any (right_ok (fun _ => True))). unfold v3_request.
  eapply yields_try with (P := fun _ => True); [apply yields_ret; by destruct (signal_tokens _ _)|].
  intros [tin tout] _.
  eapply yields_try with (P := fun _ => True);
    [apply yields_ret; by destruct (find_v3_pool_with_shadow_fee_fallback _ _ _ _ _)|].
  intros [[factory pool] tier] _. destruct (_ =? 0); [by apply yields_ret|].
  eapply yields_bind; [apply cached_v3_yields|]. intros found _.
  eapply yields_try with (P := fun _ => True); [apply yields_ret; by destruct found|]. intros c _.
  destruct (negb _); [by apply yields_ret|]. destruct (_ || _); [by apply yields_ret|].
  eapply yields_try with (P := fun _ => True); [apply yields_ret; by destruct (contextual_capital_available_wei _ _)|].
  intros capital _.
  eapply yields_try with (P := fun _ => True); [apply yields_ret; by destruct (exact_out_check _ _)|].
  intros _ _. by apply yields_ret.
Qed.

(** *** What is built *)

(** A payload is one of the V2 builder, unsigned, and of a route that was looked for
    in the scavenger mode. *)
Definition built (signal : SwapSignal) (gas_price : U256) (p : ExecutionPayload) : Prop :=
  sw_kind signal = SwapV2 /\ ep_tx p = [] /\ is_Some (ep_edge_metadata p) /\
  (unsigned at_builder gas_price -> 0 <= sw_amount_in signal -> is_scavenger config = true).
Definition all_built (signal : SwapSignal) (gas_price : U256) (res : res ExecutionPayload) : Prop :=
  forall p, res = Done (inr p) -> built signal gas_price p.

Lemma build_payload_yields signal gas ctx block :
  yields (all_built signal gas) (build_payload config at_builder signal gas ctx block).
Proof.
  unfold build_payload. destruct (sw_kind signal) as [|fee path hops out] eqn:K.
  - unfold build_v2_payload. eapply yields_bind; [apply v2_request_yields|].
    intros [err|input] R; apply yields_ret; intros p H; [done|].
    destruct R as (G & _ & _ & D). destruct (fee_extraction_v2_built _ _ H) as (T & M & _ & _).
    split_and!; [done..|]. intros U A. destruct (is_scavenger config) eqn:S; [done|].
    destruct (D eq_refl A) as (pool & DR). rewrite <- G in U.
    by destruct (direct_route_not_built _ _ _ DR U H).
  - intros r r' res W H. assert (N := v3_never_built _ _ _ _ _ _ _ _ _ H).
    split; [|intros p E; by destruct (N p)].
    unfold build_v3_payload in H. apply route_bind in H as (r1 & input & E & H).
    apply route_ret in H as [-> _]. by destruct (v3_request_yields _ _ _ _ _ _ _ _ _ W E).
Qed.
End OneChain.
End Builders.

(** ** Several endpoints *)

Section Fanout.
Context {network_ : Endpoints} {host : Host}.
Context (config : Config) (at_route at_builder : RpcHandle -> Config).
Context (CO : forall handle, chain_ok (chain_of handle)).

(** The payload of one of the builds. *)
Definition built_for (signal : SwapSignal) (gas : U256) (p : ExecutionPayload) : Prop :=
  exists handle, built (at_route handle) (at_builder handle) signal gas p.
Lemma await_builds_yields signal gas ctx block handles errors :
  yields (right_ok (built_for signal gas)) (await_builds at_route at_builder signal gas ctx block handles errors).
Proof.
  revert errors; induction handles as [|h handles IH]; intros errors; [by apply yields_ret; destruct errors|].
  cbn [await_builds]. eapply yields_bind; [apply yields_world|]. intros started _.
  eapply yields_bind; [apply build_payload_yields, CO|]. intros [[err|p]|] B.
  - eapply yields_bind; [destruct (payload_builder_rpc_failure_kind err); [apply yields_world|by apply yields_ret]|].
    intros _ _. apply IH.
  - eapply yields_bind; [apply yields_world|]. intros now _.
    eapply yields_bind; [apply yields_world|]. intros _ _. apply yields_ret. exists h. by apply B.
  - apply IH.
Qed.

Lemma fallback_yields signal gas ctx block :
  yields (right_ok (built_for signal gas))
    (build_payload_with_fallback_parallel config at_route at_builder signal gas ctx block).
Proof.
  unfold build_payload_with_fallback_parallel. eapply yields_bind; [apply yields_world|]. intros hs _.
  eapply yields_bind with (P := fun _ => True); [destruct (_ && _); [apply yields_world|by apply yields_ret]|].
  intros [|h hs'] _; [by apply yields_ret|].
  eapply yields_bind; [apply yields_world|]. intros _ _. apply await_builds_yields.
Qed.
End Fanout.
