(* ===== verification/EvaluateFacts.v ===== *)
(** * Lemmas on the evaluation of candidates

    When a step of a task goes on, what it has found, and what every step keeps
    of the pool cache. *)
From S2P Require Import Prelude F64 Text Ethers Config AmmV2 AmmV3 Simulator Pnl Payload PayloadFacts.
From S2P Require Import PoolCache Opportunity Rpc Adaptive Executor Calldata Decode EnvVars Gates Intake Batch.
From S2P Require Import PayloadErrors Routes RouteFacts Evaluate Lookup.
#[local] Open Scope Z_scope.

(** ** Computations *)

Lemma bind_some {A B} (m : EvalM A) (f : A -> EvalM B) s s' b :
  (m ≫= f) s = Done (s', Some b) <->
  exists s1 a, m s = Done (s1, Some a) /\ f a s1 = Done (s', Some b).
Proof.
  unfold mbind, EvalM_bind. destruct (m s) as [[s1 [a|]]|]; split; try done; eauto;
    try (intros (? & ? & [= ] & ?)); congruence.
Qed.
Lemma ret_some {A} (a b : A) s s' : (mret a : EvalM A) s = Done (s', Some b) <-> s' = s /\ b = a.
Proof. unfold mret, EvalM_ret; split; [intros [= -> ->]; done|intros [-> ->]; done]. Qed.
Lemma none_some {A} (b : A) s s' : return_none s = Done (s', Some b) <-> False.
Proof. unfold return_none; split; [congruence|done]. Qed.
Lemma panic_some {A} (m : outcome A) s s' b :
  lift_panic m s = Done (s', Some b) <-> s' = s /\ m = Done b.
Proof. unfold lift_panic; destruct m; split; try congruence; try (intros [= -> ->]; done); intros [-> [= ->]]; done. Qed.
Lemma route_some {A} (m : RouteM A) s s' b :
  on_route m s = Done (s', Some b) <->
  exists r, m (es_route s) = Done (r, b) /\ s' = s <[ es_route ::= r ]>.
Proof.
  unfold on_route; destruct (m (es_route s)) as [[r a]|].
  - split; [intros [= <- <-]; eauto|by intros (? & [= <- <-] & ->)].
  - split; [done|by intros (? & ? & ?)].
Qed.

Ltac head_of m := match m with ?f _ => head_of f | _ => m end.
(** Take apart a task that ends with a value. *)
Ltac invert_task H :=
  repeat first
  [ progress cbv zeta in H
  | rewrite none_some in H; destruct H
  | match type of H with
    | (_ ≫= _) _ = Done (_, Some _) =>
        let s := fresh "s" in let a := fresh "a" in let E := fresh "E" in
        apply bind_some in H as (s & a & E & H)
    | (if ?b then _ else _) _ = _ => destruct b eqn:?
    | (match ?m with _ => _ end) _ = _ => destruct m eqn:?
    | lift_panic _ _ = _ => apply panic_some in H as [? H]
    | @mret _ _ _ _ _ = _ => apply ret_some in H as [? H]
    | on_route _ _ = _ => apply route_some in H as (? & H & ?)
    end ].

(** The same of every step found on the way. *)
Ltac invert_tasks :=
  repeat match goal with
  | E : (if ?b then _ else _) _ = Done (_, Some _) |- _ => invert_task E
  | E : (match ?m with _ => _ end) _ = Done (_, Some _) |- _ => invert_task E
  | E : lift_panic _ _ = Done (_, Some _) |- _ => apply panic_some in E as [? E]
  end.

Section Task.
Context {network_ : Endpoints} {host : Host} {around : Surroundings}.
Context (config : Config).

Lemma fast_step_inv c m s s' g :
  fast_step config c m s = Done (s', Some g) ->
  g = fast_preflight_gate (ld_signal c) (ld_gas_price c) m config (ld_context_signal c) /\
  fp_should_continue g = true.
Proof. unfold fast_step; intros H; invert_task H; subst; by simplify_tests. Qed.

Lemma payload_step_inv at_route at_builder c g s s' p :
  payload_step config at_route at_builder c g s = Done (s', Some p) ->
  exists r r', build_payload_with_fallback_parallel config at_route at_builder (ld_signal c) (ld_gas_price c)
    (ld_context_signal c) (ld_block_number c) r = Done (r', inr p).
Proof. unfold payload_step; intros H; invert_task H; subst. invert_task E0. by eexists _, _. Qed.

Lemma validation_step_inv c p s s' u :
  validation_step config c p s = Done (s', Some u) ->
  ev_pass (validate_payload_ev ln config p (ld_signal c) (ld_gas_price c)) = true.
Proof. unfold validation_step; intros H; invert_task H; by simplify_tests. Qed.

Lemma ev_gate_step_inv c p m s s' u :
  ev_gate_step config c p m s = Done (s', Some u) ->
  gd_pass (ev_gate_diagnostic display_f64 parse_ether config p (ld_signal c) (ld_lookup_latency c) m) = true.
Proof. unfold ev_gate_step; intros H; invert_task H; by simplify_tests. Qed.

Lemma quality_step_inv c p cost s s' u :
  quality_step config c p cost s = Done (s', Some u) -> gd_pass (quality_gate_diagnostic config p cost) = true.
Proof. unfold quality_step; intros H; invert_task H; by simplify_tests. Qed.

Lemma quote_step_inv c p cost s s' q :
  quote_step config c p cost s = Done (s', Some q) ->
  (exists t t', ask_quote config (quote_input c p cost) t = Done (t', Some (Some q))) /\
  (should_execute q = true \/ should_override_adaptive_reject config q = true).
Proof.
  unfold quote_step; intros H; invert_task H; subst. split; [by eexists _, _|].
  match goal with B : _ && _ = false |- _ => apply andb_false_iff in B as [B|B] end; simplify_tests; auto.
Qed.

Lemma build_opportunity_inv t tx signal p relay o :
  build_opportunity t tx signal p relay = Done o ->
  execution_payload o = Some p /\ preferred_relay o = relay /\ sw_path signal <> [] /\
  victim_tx o = tx_hash tx.
Proof. unfold build_opportunity; destruct (sw_path signal); [done|by intros [= <-]]. Qed.

(** The sanity gate rejects every payload of the builders: its [tx] is empty. *)
Lemma scavenger_step_none c p g diagnostic s s' q :
  ep_tx p = [] -> scavenger_step config c p g diagnostic s <> Done (s', Some q).
Proof.
  intros T H. assert (G : passes_scavenger_sanity_gate config p (ld_lookup_latency c) =
                           inl "scavenger_empty_payload"%string).
  { unfold passes_scavenger_sanity_gate. by rewrite T. }
  unfold scavenger_step in H. rewrite G in H.
  apply bind_some in H as (s1 & u & _ & H). apply bind_some in H as (s2 & u2 & H & _). invert_task H.
Qed.

(** ** What a task keeps *)

Definition state_ok (s : EvalState) : Prop := cache_ok (rt_cache (es_route s)).
(** [m] keeps the pool cache well formed, and a value it ends with satisfies [Q]. *)
Definition ends {A} (Q : A -> Prop) (m : EvalM A) : Prop :=
  forall s s' r, state_ok s -> m s = Done (s', r) -> state_ok s' /\ forall a, r = Some a -> Q a.

Lemma ends_bind {A B} (P : A -> Prop) (Q : B -> Prop) (m : EvalM A) (f : A -> EvalM B) :
  ends P m -> (forall a, P a -> ends Q (f a)) -> ends Q (m ≫= f).
Proof.
  intros M F s s' r W H. unfold mbind, EvalM_bind in H.
  destruct (m s) as [[s1 [a|]]|] eqn:E; [| |done].
  - destruct (M _ _ _ W E) as [W1 Pa]. exact (F a (Pa a eq_refl) _ _ _ W1 H).
  - injection H as <- <-. destruct (M _ _ _ W E) as [W1 _]. by split.
Qed.
Lemma ends_ret {A} (Q : A -> Prop) (a : A) : Q a -> ends Q (mret a).
Proof. intros Qa s s' r W [= <- <-]. split; [done|by intros ? [= <-]]. Qed.
Lemma ends_none {A} (Q : A -> Prop) : ends Q return_none.
Proof. intros s s' r W [= <- <-]. by split. Qed.
Lemma ends_panic {A} (m : outcome A) : ends (fun _ => True) (lift_panic m).
Proof. intros s s' r W H. unfold lift_panic in H. destruct m; [|done]. by injection H as <- <-. Qed.
Lemma ends_route {A} (Q : A -> Prop) (m : RouteM A) : yields Q m -> ends Q (on_route m).
Proof.
  intros M s s' r W H. unfold on_route in H. destruct (m (es_route s)) as [[r1 a]|] eqn:E; [|done].
  injection H as <- <-. destruct (M _ _ _ W E) as [W1 Qa]. split; [exact W1|by intros ? [= <-]].
Qed.
Lemma ends_log ev : ends (fun _ => True) (log ev).
Proof. intros s s' r W [= <- <-]. by split. Qed.
Lemma ends_adaptive {B} (f : AdaptivePolicy -> AdaptivePolicy * B) : ends (fun _ => True) (with_adaptive f).
Proof.
  intros s s' r W H. unfold with_adaptive in H. destruct (es_adaptive s) as [model|]; [|by injection H as <- <-].
  destruct (f model). by injection H as <- <-.
Qed.
Lemma ends_ask input : ends (fun _ => True) (ask_quote config input).
Proof.
  intros s s' r W H. unfold ask_quote in H. destruct (es_adaptive s) as [model|]; [|by injection H as <- <-].
  destruct (quote_for_relays _ _ _ _ _ _). by injection H as <- <-.
Qed.
Lemma ends_repeat key : ends (fun _ => True) (replay_repeat_count key).
Proof. intros s s' r W [= <- <-]. by split. Qed.
Lemma ends_now : ends (fun _ => True) now.
Proof. apply ends_route, yields_world. Qed.
Lemma ends_weaken {A} (Q : A -> Prop) (m : EvalM A) : ends Q m -> ends (fun _ => True) m.
Proof. intros M s s' r W H. by destruct (M _ _ _ W H). Qed.
End Task.
Create HintDb tasks.
#[export] Hint Resolve ends_ret ends_none ends_panic ends_log ends_adaptive ends_ask ends_repeat ends_now : tasks.

(** A step of which only the cache matters. *)
Ltac ends_step :=
  first
  [ solve [eauto with tasks]
  | progress cbv zeta
  | match goal with
    | |- ends _ (_ ≫= _) => eapply ends_bind with (P := fun _ => True); [|intros ? _]
    | |- ends _ (if ?b then _ else _) => destruct b
    | |- ends _ (match ?m with _ => _ end) => destruct m
    end
  | match goal with |- ends _ ?m => let h := head_of m in unfold h end ].

Section Steps.
Context {network_ : Endpoints} {host : Host} {around : Surroundings}.
Context (config : Config).

Lemma fast_step_ends c m : ends (fun _ => True) (fast_step config c m).
Proof. repeat ends_step. Qed.
Lemma adaptive_step_ends c : ends (fun _ => True) (adaptive_step config c).
Proof. repeat ends_step. Qed.
Lemma validation_step_ends c p : ends (fun _ => True) (validation_step config c p).
Proof. repeat ends_step. Qed.
Lemma shadow_step_ends c p g d : ends (fun _ => True) (shadow_step c p g d).
Proof. repeat ends_step. Qed.
Lemma evm_step_ends c p : ends (fun _ => True) (evm_step config c p).
Proof. repeat ends_step. Qed.
Lemma scavenger_step_ends c p g d : ends (fun _ => True) (scavenger_step config c p g d).
Proof. repeat ends_step. Qed.
Lemma standard_step_ends c p m : ends (fun _ => True) (standard_step config c p m).
Proof. repeat ends_step. Qed.
#[local] Hint Resolve fast_step_ends adaptive_step_ends validation_step_ends shadow_step_ends evm_step_ends
  scavenger_step_ends standard_step_ends : tasks.

Context (CO : forall handle, chain_ok (chain_of handle)).

Lemma payload_step_ends at_route at_builder c g :
  ends (built_for at_route at_builder (ld_signal c) (ld_gas_price c)) (payload_step config at_route at_builder c g).
Proof.
  unfold payload_step. cbv zeta. eapply ends_bind with (P := fun _ => True); [repeat ends_step|]. intros _ _.
  eapply ends_bind; [apply ends_route, fallback_yields, CO|]. intros [err|p] B.
  - eapply ends_bind with (P := fun _ => True); [repeat ends_step|]. intros _ _.
    repeat (eapply ends_bind with (P := fun _ => True); [repeat ends_step|]; intros _ _). apply ends_none.
  - repeat (eapply ends_bind with (P := fun _ => True); [repeat ends_step|]; intros _ _). by apply ends_ret.
Qed.
End Steps.

Section Whole.
Context {network_ : Endpoints} {host : Host} {around : Surroundings}.
Context (config : EvalRead -> Config).
Context (CO : forall handle, chain_ok (chain_of handle)).

(** A task keeps the cache, and ends without a candidate unless its readings are torn. *)
Lemma evaluation_ends c m1 m2 : ends (fun _ => True) (evaluation_reading config c m1 m2).
Proof.
  unfold evaluation_reading. cbv zeta.
  eapply ends_bind with (P := fun _ => True); [repeat ends_step|]. intros _ _.
  eapply ends_bind; [apply fast_step_ends|]. intros g _.
  eapply ends_bind; [apply adaptive_step_ends|]. intros _ _.
  eapply ends_bind; [by apply payload_step_ends|]. intros p _. repeat ends_step.
Qed.
Lemma evaluation_ends_torn c m1 m2 :
  (forall handle, unsigned (config (AtBuilder handle)) (ld_gas_price c)) -> 0 <= sw_amount_in (ld_signal c) ->
  ends (fun _ => torn (fun read => opportunity_mode (mev (config read)))) (evaluation_reading config c m1 m2).
Proof.
  intros U A. unfold evaluation_reading. cbv zeta.
  eapply ends_bind with (P := fun _ => True); [repeat ends_step|]. intros _ _.
  eapply ends_bind; [apply fast_step_ends|]. intros g _.
  eapply ends_bind; [apply adaptive_step_ends|]. intros _ _.
  eapply ends_bind; [by apply payload_step_ends|]. intros p (handle & _ & T & _ & S).
  eapply ends_bind; [apply validation_step_ends|]. intros _ _.
  eapply ends_bind; [apply shadow_step_ends|]. intros _ _.
  eapply ends_bind; [apply evm_step_ends|]. intros _ _.
  intros s s' r W H. destruct (is_scavenger (config AtBranch)) eqn:B.
  - destruct (scavenger_step_ends _ _ _ _ _ _ _ _ W H) as [W' _]. split; [done|].
    intros q ->. by destruct (scavenger_step_none (config AtGates) _ _ _ _ _ _ _ T H).
  - destruct (standard_step_ends _ _ _ _ _ _ _ W H) as [W' _]. split; [done|].
    intros q _. split; [by apply bool_decide_eq_false in B|]. exists handle.
    by apply (bool_decide_eq_true_1 _), S.
Qed.
End Whole.
