(* ===== verification/EvaluateProps.v ===== *)
(** * Properties of the evaluation of candidates

    What an opportunity that leaves the gates satisfies, in either mode; that
    with the builders as they are none ever does; and where the gates fail. *)
From S2P Require Import RpcFacts PayloadProps AbiRef.
From S2P Require Import Prelude F64 Text Ethers Config AmmV2 AmmV3 Simulator Pnl Payload.
From S2P Require Import PoolCache Opportunity Rpc Adaptive Executor Calldata Decode EnvVars Gates Intake Batch.
From S2P Require Import PayloadErrors Routes RouteFacts Evaluate EvaluateFacts Lookup.
#[local] Open Scope Z_scope.

Section Evaluation.
Context {network_ : Endpoints} {host : Host} {around : Surroundings}.
Context (config : Config).

(** One task after another. *)
Definition evaluated (s s' : EvalState) : Prop :=
  exists c m1 m2 r, process_evaluation_task config c m1 m2 s = Done (s', r).

Lemma evaluated_ok s s' :
  (forall handle, chain_ok (chain_of handle)) -> rtc evaluated s s' -> state_ok s -> state_ok s'.
Proof.
  intros CO R; induction R as [|s1 s2 s3 (c & m1 & m2 & r & E) _ IH]; [done|]. intros W.
  apply IH. by destruct (evaluation_ends (fun _ => config) CO c m1 m2 _ _ _ W E).
Qed.

(** C6: whatever the endpoints answer, and however many tasks ran before on an
    empty pool cache, a task that ends, and under which the mode and the thresholds
    are not changed, hands no opportunity to the executor:
    outside the scavenger mode the only swap pool of a V2 payload is the pair it
    borrows from, which never earns its repayment, a V3 state is built without
    the ticks the builder needs, and the sanity gate of the scavenger mode asks
    for a signed transaction, which the builders leave empty. *)
Theorem no_opportunity_is_ever_ready c m1 m2 ttl s0 s s' r :
  (forall handle, chain_ok (chain_of handle)) ->
  rt_cache (es_route s0) = PoolCache.new ttl -> rtc evaluated s0 s ->
  unsigned config (ld_gas_price c) -> 0 <= sw_amount_in (ld_signal c) ->
  process_evaluation_task config c m1 m2 s = Done (s', r) -> r = None.
Proof.
  intros CO C R U A H.
  assert (W : state_ok s).
  { apply (evaluated_ok _ _ CO R). unfold state_ok. rewrite C. apply new_cache_ok. }
  destruct (evaluation_ends_torn (fun _ => config) CO c m1 m2 (fun _ => U) A _ _ _ W H) as [_ N].
  destruct r as [q|]; [|done]. by destruct (N q eq_refl) as [B [_ ?]].
Qed.

Lemma low_cap_panics ev notional cap :
  0 <= cap < 120 -> adaptive_gas_cap_gwei ev notional (f64_of_Z cap) = Panicked.
Proof.
  intros C. unfold adaptive_gas_cap_gwei, fclamp. cbv zeta.
  assert (L : forallb (fun n => negb (fle 120.0 (fmax (f64_of_Z n) 1.0))) (seqZ 0 120) = true)
    by (vm_compute; reflexivity).
  rewrite forallb_forall in L. specialize (L cap).
  rewrite <- list_elem_of_In, elem_of_seqZ in L. specialize (L ltac:(lia)).
  apply negb_true_iff in L. by rewrite L.
Qed.

(** With a gas price cap configured below 120 gwei, the evaluation of every
    candidate panics: the bounds of the last [clamp] of the adaptive cap cross. *)
Theorem low_gas_cap_panics c m1 m2 s cap :
  max_gas_price_gwei (mev config) = Some cap -> 0 <= cap < 120 ->
  process_evaluation_task config c m1 m2 s = Panicked.
Proof.
  intros E C.
  assert (F : forall m s, fast_step config c m s = Panicked).
  { intros m t. unfold fast_step. rewrite E. cbv zeta. unfold mbind, EvalM_bind.
    unfold lift_panic. by rewrite low_cap_panics. }
  unfold process_evaluation_task, evaluation_reading, mbind, EvalM_bind. simpl. by rewrite F.
Qed.

(** ** The gates of the scavenger mode *)

Lemma scavenger_step_inv c p g economic s s' q :
  scavenger_step config c p g (Some economic) s = Done (s', Some q) ->
  let quote := scavenger_war_quote_diagnostic config p (ld_signal c) (ld_gas_price c) economic in
  gd_pass economic = true /\ passes_scavenger_sanity_gate config p (ld_lookup_latency c) = inr tt /\
  gd_pass quote = true /\
  pc_ev_real_usd q = fmax (gd_net_ev_usd quote) 0.0 /\
  pc_p_positive q = fclamp_in (0.45 + scavenger_try_score g * 0.50)%f64 0.05 0.98 /\
  exists t, build_opportunity t (ld_tx c) (ld_signal c) p None = Done (pc_opportunity q).
Proof.
  unfold scavenger_step, economic_of; intros H. invert_task H. subst q. invert_tasks.
  repeat match goal with E : Done economic = Done _ |- _ => injection E as <- end. simplify_tests.
  match goal with G : passes_scavenger_sanity_gate _ _ _ = inr ?u |- _ => destruct u end.
  cbv zeta. split_and!; try done. by eexists.
Qed.

Lemma sanity_gate_pass p latency :
  passes_scavenger_sanity_gate config p latency = inr tt <->
  ep_tx p <> [] /\ ep_calldata p <> [] /\ ep_target_contract p <> 0 /\ ep_capital_committed_wei p <> 0 /\
  ep_expected_profit_wei p <> 0 /\ ep_gas_limit p <= max_gas_per_tx (mev config) /\
  ep_price_impact_bps p <= scavenger_quality_price_impact_cap_bps config /\
  as_millis latency <= Z.max (u64_smul (effective_max_pending_age_ms (mev config)) 3) 1.
Proof.
  unfold passes_scavenger_sanity_gate.
  destruct (bool_decide (ep_tx p = [])) eqn:?, (bool_decide (ep_calldata p = [])) eqn:?; simpl;
    repeat match goal with |- context [if ?b then _ else _] => destruct b eqn:? end;
    simplify_tests; (split; [|intros (? & ? & ? & ? & ? & ? & ? & ?)]); try done; try lia.
Qed.
Lemma war_quote_pass p signal gas_price economic :
  let floor := sat_sub (gd_min_profit_wei economic) (gd_execution_cost_wei economic) in
  let gas := safety_gas_cost config p gas_price in
  gd_pass (scavenger_war_quote_diagnostic config p signal gas_price economic) = true <->
  gd_pass economic = true /\ pool_state_valid p signal = true /\ gas < ep_expected_profit_wei p /\
  u256_sadd gas floor <= ep_expected_profit_wei p /\
  effective_min_roi_bps (mev config) <= roi_bps (ep_expected_profit_wei p) gas /\
  ep_price_impact_bps p <= scavenger_quality_price_impact_cap_bps config.
Proof. cbv zeta. simpl. rewrite !andb_true_iff, Z.ltb_lt, !Z.leb_le. tauto. Qed.
(** C8: a candidate the scavenger mode hands on carries the payload it was built
    from and its victim; the payload is signed and encoded, within the gas and
    impact limits, and its profit is above the gas cost with the safety margin by
    the economic floor, at no less than the least return. *)
Theorem scavenger_candidates_pay_for_gas c p g s s' q :
  let economic := scavenger_economic_edge_diagnostic env fmt_prec parse_ether config p (ld_gas_price c) in
  let gas := safety_gas_cost config p (ld_gas_price c) in
  let profit := ep_expected_profit_wei p in
  scavenger_step config c p g (Some economic) s = Done (s', Some q) ->
  execution_payload (pc_opportunity q) = Some p /\ victim_tx (pc_opportunity q) = tx_hash (ld_tx c) /\
  ep_tx p <> [] /\ ep_calldata p <> [] /\ ep_capital_committed_wei p <> 0 /\
  ep_gas_limit p <= max_gas_per_tx (mev config) /\
  ep_price_impact_bps p <= scavenger_quality_price_impact_cap_bps config /\
  pool_state_valid p (ld_signal c) = true /\ gas < profit /\
  (scavenger_required_edge env fmt_prec parse_ether config p (ld_gas_price c)).2 <= profit /\
  u256_sadd gas (sat_sub (gd_min_profit_wei economic) (gd_execution_cost_wei economic)) <= profit /\
  effective_min_roi_bps (mev config) <= roi_bps profit gas /\
  pc_ev_real_usd q = fmax (profit_usd config (sat_sub profit gas)) 0.0.
Proof.
  cbv zeta. intros H. apply scavenger_step_inv in H as (E & G & W & V & _ & t & B).
  apply build_opportunity_inv in B as (B1 & _ & _ & B2). apply sanity_gate_pass in G.
  apply war_quote_pass in W. revert E. unfold scavenger_economic_edge_diagnostic at 1.
  destruct (scavenger_required_edge _ _ _ _ _ _) as [cost edge] eqn:R. simpl. rewrite Z.leb_le. intros E.
  split_and!; try done; tauto.
Qed.

(** ** The gates of the other modes *)

Lemma ev_gate_from_pass n p signal latency m :
  is_scavenger config = false ->
  gd_pass (ev_gate_diagnostic_from display_f64 parse_ether n config p signal latency m) = true <->
  lookup_is_fresh config latency = true /\
  ether_or parse_ether 0 (display_f64 (effective_min_large_swap_eth (mev config))) <= sw_notional_wei signal /\
  n <= ep_price_impact_bps p /\ m <= ep_expected_profit_wei p /\
  (profit_usd config (ep_expected_profit_wei p) >=? effective_min_profit_usd (mev config))%f64 = true /\
  ep_gas_limit p <= max_gas_per_tx (mev config).
Proof.
  intros N. unfold ev_gate_diagnostic_from. rewrite N. cbv zeta. unfold standard_ev_gate_result, gas_budget_ok. simpl.
  rewrite !andb_true_iff, !Z.leb_le. tauto.
Qed.

(** C7: a candidate the other modes hand on was looked up in time, is large
    enough, moves the price by 8 basis points on V2 and 6 on V3, earns the least
    profit in ether and in dollars and the least return over the gas cost, and
    its figures are those of a quote of the adaptive policy that says to execute,
    or which the mode overrides. *)
Theorem standard_candidates_pass_the_gates c p m s s' q :
  is_scavenger config = false -> standard_step config c p m s = Done (s', Some q) ->
  let cost := safety_gas_cost config p (ld_gas_price c) in
  let profit := ep_expected_profit_wei p in
  execution_payload (pc_opportunity q) = Some p /\ victim_tx (pc_opportunity q) = tx_hash (ld_tx c) /\
  as_millis (ld_lookup_latency c) <= Z.max (effective_max_pending_age_ms (mev config)) 1 /\
  ether_or parse_ether 0 (display_f64 (effective_min_large_swap_eth (mev config))) <=
    sw_notional_wei (ld_signal c) /\
  (match sw_kind (ld_signal c) with SwapV2 => 8 | SwapV3 _ _ _ _ => 6 end) <= ep_price_impact_bps p /\
  m <= profit /\ ep_gas_limit p <= max_gas_per_tx (mev config) /\
  (profit_usd config profit >=? effective_min_profit_usd (mev config))%f64 = true /\
  effective_min_roi_bps (mev config) <= roi_bps profit cost /\
  exists quote t t',
    ask_quote config (quote_input c p cost) t = Done (t', Some (Some quote)) /\
    (should_execute quote = true \/ should_override_adaptive_reject config quote = true) /\
    preferred_relay (pc_opportunity q) = selected_relay quote /\ pc_ev_real_usd q = ev_real_usd quote /\
    pc_p_positive q = p_positive quote /\ pc_relay_score q = builder_pressure quote.
Proof.
  intros N H. unfold standard_step in H. invert_task H. subst q. invert_tasks.
  repeat match goal with
  | E : build_opportunity _ _ _ _ _ = Done _ |- _ => apply build_opportunity_inv in E as (? & ? & _ & ?)
  | E : ev_gate_step _ _ _ _ _ = _ |- _ => apply ev_gate_step_inv in E
  | E : quality_step _ _ _ _ _ = _ |- _ => apply quality_step_inv in E
  | E : quote_step _ _ _ _ _ = _ |- _ => apply quote_step_inv in E as [(? & ? & ?) ?]
  end.
  match goal with Q : gd_pass (quality_gate_diagnostic _ _ _) = true |- _ =>
    unfold quality_gate_diagnostic in Q; rewrite N in Q; simpl in Q; apply andb_true_iff in Q as [Q _];
    apply Z.leb_le in Q end.
  match goal with G : gd_pass (ev_gate_diagnostic _ _ _ _ _ _ _) = true |- _ =>
    unfold ev_gate_diagnostic, ev_gate_diagnostic_v2, ev_gate_diagnostic_v3 in G; rename G into EV end.
  destruct (sw_kind (ld_signal c)); rewrite ev_gate_from_pass in EV by done; destruct EV as (F & ? & ? & ? & ? & ?);
    apply Z.leb_le in F; cbv zeta; split_and!; try done; by eexists _, _, _.
Qed.
(** *** Quality *)

Lemma quality_impact_score_le p : 0 <= quality_impact_score config p <= 100.
Proof.
  unfold quality_impact_score. set (x := (_ * 100.0)%f64). split; [by apply f64_as_int_ge0|].
  unfold f64_as_u16. destruct (is_nan x) eqn:N.
  - by destruct x.
  - assert (K : fle (fclamp_in x 0.0 100.0) 100.0 = true) by (by apply fclamp_in_range).
    eapply Z.le_trans.
    + eapply f64_as_int_le; [lia| | |exact K]; [|vm_compute; discriminate].
      apply fclamp_in_short; [apply fmul_short|vm_compute; auto..].
    + vm_compute. discriminate.
Qed.

(** Outside the scavenger mode the quality gate is a test of the return over
    the execution cost alone, since the score of the price impact is capped at
    the value it is compared with: no payload is rejected for its impact. In the
    scavenger mode it is a test of a profit and of the price impact. *)
Theorem quality_gate_spec p cost :
  let profit := ep_expected_profit_wei p in
  let d := quality_gate_diagnostic config p cost in
  (gd_pass d = true <-> gd_reason d = "quality_gate_pass"%string) /\
  gd_reason d <> "quality_impact_score_above_cap"%string /\
  (gd_pass d = true <->
   if is_scavenger config then
     profit <> 0 /\ ep_price_impact_bps p <= scavenger_quality_price_impact_cap_bps config
   else effective_min_roi_bps (mev config) <= roi_bps profit cost).
Proof.
  pose proof (quality_impact_score_le p) as Q. cbv zeta. unfold quality_gate_diagnostic.
  destruct (is_scavenger config); simpl;
    repeat match goal with |- context [if ?b then _ else _] => destruct b eqn:? end; simplify_tests;
    rewrite ?andb_true_iff, ?negb_true_iff, ?Z.eqb_neq, ?Z.leb_le; split_and!; try done;
    intuition (discriminate || lia).
Qed.

(** Whatever an endpoint answers, the building of a V3 payload gives none: the
    state that is read has no tick, and the builder needs one. *)
Theorem v3_is_never_built (chain : Chain) at_builder signal gas ctx fee path block r r' p :
  build_v3_payload config at_builder signal gas ctx fee path block r <> Done (r', Done (inr p)).
Proof. intros H. exact (v3_never_built _ _ _ _ _ _ _ _ _ _ _ H p eq_refl). Qed.
End Evaluation.

(** ** A concrete run

    The tokens 1, 2 and 3 trade in pairs 7, 8 and 9 of every factory. *)

Definition pair_of (a b : Address) : Address :=
  match Z.min a b, Z.max a b with 1, 2 => 7 | 2, 3 => 8 | 1, 3 => 9 | _, _ => 0 end.
Definition sample_reserves (pair : Address) : option (Address * Address * (U256 * U256)) :=
  if pair =? 7 then Some (1, 2, (PayloadProps.eth 1000, PayloadProps.eth 1000))
  else if pair =? 8 then Some (2, 3, (PayloadProps.eth 1000, PayloadProps.eth 1000))
  else if pair =? 9 then Some (1, 3, (PayloadProps.eth 1060, PayloadProps.eth 1000))
  else None.
Definition sample_chain : Chain :=
  {| router_factory := fun _ => Some 11; get_pair := fun _ a b => inr (pair_of a b);
     get_pool := fun _ _ _ _ => inr 0; fetch_v2 := sample_reserves; fetch_v3 := fun _ => None |}.
Lemma sample_chain_ok : chain_ok sample_chain.
Proof.
  assert (E : forall n, 0 <= n < 2000 -> is_u112 (PayloadProps.eth n)).
  { intros n N. unfold is_u112, PayloadProps.eth. change (2 ^ 112) with 5192296858534827628530496329220096. lia. }
  intros pair t0 t1 r0 r1. cbn [fetch_v2 sample_chain]. unfold sample_reserves.
  assert (K : forall a b m n, 0 <= m < 2000 -> 0 <= n < 2000 -> a <> b ->
    Some (a, b, (PayloadProps.eth m, PayloadProps.eth n)) = Some (t0, t1, (r0, r1)) ->
    is_u112 r0 /\ is_u112 r1 /\ t0 <> t1).
  { intros a b m n M N D [= <- <- <- <-]. auto. }
  destruct (pair =? 7); [by apply K|]. destruct (pair =? 8); [by apply K|].
  destruct (pair =? 9); [by apply K|done].
Qed.
Definition sample_endpoints : Endpoints :=
  {| chain_of := fun _ => sample_chain; completion_order := fun hs => hs; join_error := "joined"%string |}.
(** A profit floor in dollars is worth a gwei, any other amount an ether. *)
Definition sample_host : Host :=
  {| ln := fun x => (x - 1)%f64; powf := fun x _ => x; debug_address := fun _ => "0x"%string;
     debug_hash := fun _ => "0x"%string; display_f64 := fun _ => "1"%string;
     fmt_prec := fun _ _ => "edge"%string; debug_state := fun _ => ""%string;
     to_json := fun _ => None; from_json := fun _ => None;
     parse_ether := fun s => inr (if string_eqb s "edge" then 10 ^ 9 else 10 ^ 18);
     env := fun _ => None; keccak256 := fun _ => replicate 32 7; abi_encode := tree_encode;
     abi_decode := ref_decode; abi_error := fun _ _ => "invalid data"%string;
     clk := fun n => Z.of_nat (Nat.min n 1000) * 10 ^ 6; avx2 := false |}.
Definition sample_surroundings : Surroundings :=
  {| evm_transact := fun _ _ => inl "none"%string; evm_utf8_lossy := fun _ => ""%string; evm_timestamp := 0;
     hour_now := 12; exp_ := fun x => (1 + x)%f64; ln_1p_ := fun x => x; replay_queue := None;
     query_transaction := fun _ _ => inr None; query_block := fun _ => inr 100 |}.

Definition sample_candidate : LookupDecodedCandidate :=
  {| ld_tx := {| tx_hash := 500; tx_nonce := 1; tx_from := 40; tx_to := Some 31; tx_value := 0;
                 tx_gas_price := Some (20 * 10 ^ 9); tx_gas := 300000; tx_input := SWAP_EXACT_TOKENS_FOR_TOKENS;
                 tx_max_priority_fee_per_gas := None; tx_max_fee_per_gas := None; tx_chain_id := None;
                 tx_block_number := None |};
     ld_signal := {| sw_selector := SWAP_EXACT_TOKENS_FOR_TOKENS; sw_amount_in := PayloadProps.eth 5;
                     sw_amount_out_min := Some 0; sw_notional_wei := PayloadProps.eth 5; sw_path := [1; 2];
                     sw_router := 31; sw_kind := SwapV2; sw_decode_confidence := 1.0;
                     sw_decode_source := "router"%string |};
     ld_lane := LaneLarge; ld_hour_utc := 12; ld_gas_price := 20 * 10 ^ 9;
     ld_context_signal := {| priority_score := 0.5; toxicity_score := 0.1; cs_samples := 0 |};
     ld_cluster := {| ck_router := 31; ck_token_in := 1; ck_token_out := 2; ck_selector := SWAP_EXACT_TOKENS_FOR_TOKENS |};
     ld_lookup_latency := 10 ^ 6; ld_block_number := 100 |}.
Definition sample_runtime (mode : OpportunityMode) : Config :=
  let config := sample_config mode false [PayloadProps.token 1 1.0; PayloadProps.token 2 1.0; PayloadProps.token 3 1.0] in
  config <[ mev ::= (mev config) <[ max_gas_price_gwei ::= None ]> ]>.
Definition sample_state (config : Config) : EvalState :=
  {| es_route := {| rt_world := {| fleet := RpcFacts.sample_fleet; tick := 10 |}; rt_cache := PoolCache.new 500 |};
     es_adaptive := Some (AdaptivePolicy_new config); es_replay_counts := ∅; es_small := None; es_trace := [] |}.

(** The triangle 2, 3, 1 pays; the payload is economic, and rejected as empty. *)
Lemma no_opportunity_is_ever_ready_witness :
  let config := sample_runtime Scavenger in
  exists s r,
    @process_evaluation_task sample_endpoints sample_host sample_surroundings config sample_candidate
      (10 ^ 18) 1 (sample_state config) = Done (s, r) /\ r = None /\
    Dash (Funnel "payload_to_quote_pass") ∈ es_trace s /\
    Dash (RejectReason "scavenger_sanity" "scavenger_empty_payload") ∈ es_trace s.
Proof.
  cbv zeta. set (config := sample_runtime Scavenger).
  assert (V : match @process_evaluation_task sample_endpoints sample_host sample_surroundings config
                      sample_candidate (10 ^ 18) 1 (sample_state config) with
              | Done (s, _) => 
                  Dash (Funnel "payload_to_quote_pass") ∈ es_trace s /\
                  Dash (RejectReason "scavenger_sanity" "scavenger_empty_payload") ∈ es_trace s
              | Panicked => False
              end) by (vm_compute; split; repeat constructor).
  destruct (@process_evaluation_task sample_endpoints _ _ _ _ _ _ _) as [[s r]|] eqn:E; [|destruct V].
  exists s, r. split; [reflexivity|]. split; [|exact V].
  refine (@no_opportunity_is_ever_ready sample_endpoints sample_host sample_surroundings config
            sample_candidate _ _ 500 (sample_state config) _ _ _ _ eq_refl (rtc_refl _ _) _ _ E).
  - intros h. apply sample_chain_ok.
  - vm_compute; intuition discriminate.
  - vm_compute; discriminate.
Defined.

Lemma low_gas_cap_panics_witness :
  let config := sample_config Scavenger false [] in
  @process_evaluation_task sample_endpoints sample_host sample_surroundings config sample_candidate
    (10 ^ 18) 1 (sample_state config) = Panicked.
Proof.
  apply (@low_gas_cap_panics sample_endpoints sample_host sample_surroundings _ _ _ _ _ 100);
    [reflexivity|lia].
Defined.

Definition signed_payload (profit : U256) : ExecutionPayload :=
  {| ep_tx := [1]; ep_calldata := [1]; ep_target_contract := 13; ep_value := 0; ep_pair := 7;
     ep_amm_kind := RouteV2; ep_capital_committed_wei := 10 ^ 18; ep_expected_profit_wei := profit;
     ep_gas_limit := 200000; ep_price_impact_bps := 10; ep_profit_token := 1; ep_profit_recipient := 23;
     ep_context_priority_score := 0.8; ep_context_toxicity_score := 0.1; ep_edge_metadata := None;
     ep_pool_state_before := UniswapV2 PayloadProps.sample_pair |}.
Definition sample_gate (mode : OpportunityMode) : FastPreflightDecision :=
  fast_preflight_gate (ld_signal sample_candidate) (ld_gas_price sample_candidate) 1 (sample_runtime mode)
    (ld_context_signal sample_candidate).

(** Were payloads signed, this one would go on. *)
Lemma scavenger_candidates_pay_for_gas_witness :
  let config := sample_runtime Scavenger in
  let p := signed_payload (10 ^ 16) in
  exists s q,
    @scavenger_step sample_host config sample_candidate p (sample_gate Scavenger)
      (Some (scavenger_economic_edge_diagnostic (@env sample_host) (@fmt_prec sample_host)
               (@parse_ether sample_host) config p (20 * 10 ^ 9))) (sample_state config) = Done (s, Some q) /\
    execution_payload (pc_opportunity q) = Some p /\ safety_gas_cost config p (20 * 10 ^ 9) < 10 ^ 16.
Proof.
  cbv zeta.
  destruct (@scavenger_step _ _ _ _ _ _ _) as [[s [q|]]|] eqn:E; [|by vm_compute in E..].
  exists s, q. split; [reflexivity|].
  destruct (@scavenger_candidates_pay_for_gas sample_host _ _ _ _ _ _ _ E)
    as (P & _ & _ & _ & _ & _ & _ & _ & G & _). split; [exact P|exact G].
Defined.

Lemma standard_candidates_pass_the_gates_witness :
  let config := sample_runtime Aggressive in
  let p := signed_payload (2 * 10 ^ 16) in
  exists s q,
    @standard_step sample_host sample_surroundings config sample_candidate p 1 (sample_state config)
      = Done (s, Some q) /\
    execution_payload (pc_opportunity q) = Some p /\
    effective_min_roi_bps (mev config) <=
      roi_bps (2 * 10 ^ 16) (safety_gas_cost config p (20 * 10 ^ 9)).
Proof.
  cbv zeta.
  destruct (@standard_step _ _ _ _ _ _ _) as [[s [q|]]|] eqn:E; [|by vm_compute in E..].
  exists s, q. split; [reflexivity|].
  destruct (@standard_candidates_pass_the_gates sample_host sample_surroundings (sample_runtime Aggressive) _ _ _ _ _ _
      eq_refl E)
    as (P & _ & _ & _ & _ & _ & _ & _ & R & _). split; [exact P|exact R].
Defined.
