(* ===== verification/LookupProps.v ===== *)
(** * Properties of the lookup and decoding of a pending transaction

    Where the transaction and the block of a candidate come from, and what the
    candidate satisfies before it is evaluated. *)
From S2P Require Import RpcFacts.
From S2P Require Import Prelude F64 Text Ethers Config Pnl Payload Opportunity Rpc.
From S2P Require Import Adaptive Executor Calldata Decode DecodeFacts DecodeProps EnvVars Intake Gates Batch.
From S2P Require Import AmmV2 AmmV3 Routes RouteFacts Evaluate EvaluateFacts Lookup EvaluateProps.
#[local] Open Scope Z_scope.

(** A computation on the fleet that ends with a value. *)
Lemma rpc_bind {A B} (m : RpcM A) (f : A -> RpcM B) w w' b :
  (m ≫= f) w = Done (w', b) <-> exists w1 a, m w = Done (w1, a) /\ f a w1 = Done (w', b).
Proof.
  unfold mbind, RpcM_bind. destruct (m w) as [[w1 a]|].
  - split; [eauto|by intros (? & ? & [= <- <-] & ?)].
  - split; [done|by intros (? & ? & ? & ?)].
Qed.
Ltac invert_rpc H :=
  repeat match type of H with
    | (_ ≫= _) _ = Done (_, _) =>
        let w := fresh "w" in let a := fresh "a" in let E := fresh "E" in
        apply rpc_bind in H as (w & a & E & H)
    | @mret _ _ _ _ _ = _ => unfold mret, RpcM_ret in H; simplify_eq
    end.

Section Lookup.
Context {network_ : Endpoints} {host : Host} {around : Surroundings}.
Context (config : Config).

(** An answer is that of one of the endpoints asked. *)
Lemma first_answer_some {A B} (ask : RpcHandle -> string + option A) observed (keep : A -> B) handles w w' b :
  first_answer ask observed keep handles w = Done (w', Some b) ->
  exists h a, h ∈ handles /\ ask h = inr (Some a) /\ b = keep a.
Proof.
  revert w; induction handles as [|h handles IH]; intros w H; [done|].
  cbn [first_answer] in H. apply rpc_bind in H as (w1 & started & _ & H).
  destruct (ask h) as [err|[a|]] eqn:E; invert_rpc H.
  - destruct (IH _ H) as (h' & a' & I & Q). exists h', a'. split; [by right|done].
  - exists h, a. split; [by left|done].
  - destruct (IH _ H) as (h' & a' & I & Q). exists h', a'. split; [by right|done].
Qed.
Lemma ask_readers_some {A B} fanout (ask : RpcHandle -> string + option A) observed (keep : A -> B) w w' b :
  ask_readers fanout ask observed keep w = Done (w', Some b) ->
  exists h a, ask h = inr (Some a) /\ b = keep a.
Proof.
  unfold ask_readers; intros H. invert_rpc H.
  destruct (first_answer_some _ _ _ _ _ _ _ H) as (h & a' & _ & Q). by exists h, a'.
Qed.

Lemma asked_some {A B} fanout (ask : RpcHandle -> string + option A) observed (keep : A -> B) s s' b :
  on_route (on_world (ask_readers fanout ask observed keep)) s = Done (s', Some (Some b)) ->
  exists h a, ask h = inr (Some a) /\ b = keep a.
Proof.
  intros H. apply route_some in H as (r & H & _). unfold on_world in H.
  destruct (ask_readers _ _ _ _ _) as [[w a]|] eqn:E; [|done]. injection H as _ ->. by eapply ask_readers_some.
Qed.

Lemma find_transaction_some task started s s' tx :
  find_transaction task started s = Done (s', Some tx) ->
  match task_pending_tx task with
  | Some pending => tx = pending
  | None => exists handle, query_transaction handle (task_hash task) = inr (Some tx)
  end.
Proof.
  unfold find_transaction. destruct (task_pending_tx task); intros H.
  - apply bind_some in H as (? & ? & _ & H). by apply ret_some in H as [_ ?].
  - apply bind_some in H as (? & found & E & H). destruct found as [tx'|]; invert_task H. subst tx'.
    apply asked_some in E as (? & ? & Q & ->). by eexists.
Qed.
Lemma block_step_some s s' block :
  block_step s = Done (s', Some block) -> exists handle, query_block handle = inr block.
Proof.
  unfold block_step; intros H. apply bind_some in H as (? & found & E & H).
  destruct found as [block'|]; invert_task H. subst block'.
  unfold get_current_block_parallel in E. destruct (asked_some _ _ _ _ _ _ _ E) as (handle & ? & Q & ->).
  exists handle. by destruct (query_block handle); simplify_eq.
Qed.
Lemma gate_step_some tx s s' u :
  gate_step config tx s = Done (s', Some u) -> pre_decode_tx_gate env avx2 config tx = Done None.
Proof. unfold gate_step; intros H; invert_task H. subst. by invert_task E. Qed.
Lemma decode_step_some at_diagnose hash tx mn s s' signal :
  decode_step config at_diagnose hash tx mn s = Done (s', Some signal) ->
  decode_relevant_swap abi_decode display_f64 parse_ether (monitored_tokens config) avx2 tx mn
    (opportunity_mode (mev config)) = Done (Some signal) /\
  (sw_decode_confidence signal <? min_partial_decode_confidence env)%f64 = false.
Proof. unfold decode_step; intros H; invert_task H. subst. by invert_task E. Qed.

(** C10: a candidate for evaluation is the transaction that came with the hash, or
    the one an endpoint has under that hash; it passed the gate before decoding;
    its signal is what the decoder finds relevant in it, at no less than the
    least confidence; its gas price is the transaction's and not zero; its
    cluster is the router, the selector and the ends of the path; and an endpoint
    is at its block. *)
Theorem lookup_candidates_are_relevant task s s' c :
  process_lookup_decode_task config task s = Done (s', Some c) ->
  let signal := ld_signal c in
  match task_pending_tx task with
  | Some pending => ld_tx c = pending
  | None => exists handle, query_transaction handle (task_hash task) = inr (Some (ld_tx c))
  end /\
  pre_decode_tx_gate env avx2 config (ld_tx c) = Done None /\
  (exists mn, parse_ether (display_f64 (effective_min_large_swap_eth (mev config))) = inr mn /\
     decode_relevant_swap abi_decode display_f64 parse_ether (monitored_tokens config) avx2 (ld_tx c) mn
       (opportunity_mode (mev config)) = Done (Some signal) /\
     ld_lane c = classify_candidate_lane signal mn) /\
  (sw_decode_confidence signal <? min_partial_decode_confidence env)%f64 = false /\
  ld_gas_price c = victim_gas_price (ld_tx c) /\ ld_gas_price c <> 0 /\
  (exists token_in rest, sw_path signal = token_in :: rest /\
     ld_cluster c = {| ck_router := sw_router signal; ck_token_in := token_in;
                       ck_token_out := default token_in (last (sw_path signal)); ck_selector := sw_selector signal |}) /\
  exists handle, query_block handle = inr (ld_block_number c).
Proof.
  unfold process_lookup_decode_task, lookup_reading. intros H. invert_task H. subst c.
  apply find_transaction_some in E0. apply gate_step_some in E1. apply decode_step_some in E2 as [D C].
  repeat match goal with
  | B : block_step _ = _ |- _ => apply block_step_some in B
  | K : lift_panic (cluster_key _) _ = _ |- _ => apply panic_some in K as [_ K]; unfold cluster_key in K;
      let P := fresh "P" in destruct (sw_path _) as [|t rest] eqn:P; [done|]; injection K as <-
  end.
  simplify_tests. cbv zeta. simpl. split_and!; try done; [by eexists|].
  by exists t, rest.
Qed.
End Lookup.

(** ** A concrete run: the transaction is a V3 swap of the token 11 *)

Definition priced_tx (hash : H256) : Transaction :=
  {| tx_hash := hash; tx_nonce := 0; tx_from := 2; tx_to := Some 9; tx_value := 5;
     tx_gas_price := Some (20 * 10 ^ 9); tx_gas := 21000;
     tx_input := (V3_EXACT_INPUT_SINGLE ++ single_args 500)%list; tx_max_priority_fee_per_gas := None;
     tx_max_fee_per_gas := None; tx_chain_id := None; tx_block_number := None |}.
Definition answering : Surroundings :=
  {| evm_transact := fun _ _ => inl "none"%string; evm_utf8_lossy := fun _ => ""%string; evm_timestamp := 0;
     hour_now := 12; exp_ := fun x => x; ln_1p_ := fun x => x; replay_queue := None;
     query_transaction := fun handle hash =>
       if (h_id handle =? 0)%nat then inr (Some (priced_tx hash)) else inr None;
     query_block := fun _ => inr 100 |}.
Definition lookup_config : Config :=
  let config := sample_config Scavenger false [DecodeProps.token 11] in
  config <[ mev ::= (mev config) <[ max_gas_price_gwei ::= None ]> ]>.

Lemma lookup_candidates_are_relevant_witness :
  exists s c,
    @process_lookup_decode_task sample_endpoints sample_host answering lookup_config
      {| task_hash := 500; task_pending_tx := None |} (sample_state lookup_config) = Done (s, Some c) /\
    sw_path (ld_signal c) = [11; 12] /\ ld_gas_price c <> 0 /\
    exists handle, @query_transaction answering handle 500 = inr (Some (ld_tx c)).
Proof.
  assert (V : match @process_lookup_decode_task sample_endpoints sample_host answering lookup_config
                      {| task_hash := 500; task_pending_tx := None |} (sample_state lookup_config) with
              | Done (s, Some c) => sw_path (ld_signal c) = [11; 12] | _ => False end)
    by (vm_compute; reflexivity).
  destruct (@process_lookup_decode_task _ _ _ _ _ _) as [[s [c|]]|] eqn:E; [|destruct V..].
  exists s, c. split; [reflexivity|]. split; [exact V|].
  destruct (@lookup_candidates_are_relevant sample_endpoints sample_host answering _ _ _ _ _ E)
    as (T & _ & _ & _ & _ & G & _). split; [exact G|exact T].
Defined.
