(* ===== verification/DiagnosisProps.v ===== *)
(** * Properties of the diagnosis of transactions that are not decoded

    Whether the reason named is why the decoder rejected, when reporting it
    panics, and what the dashboard reads out of the text of the report. *)
From S2P Require Import PayloadProps EvaluateProps LookupProps.
From S2P Require Import Prelude F64 Text Ethers Config Selector Simulator Payload Calldata AbiRef Decode DecodeFacts DecodeProps.
From S2P Require Import EnvVars Intake PayloadErrors Gates Batch Routes Diagnosis Evaluate EvaluateFacts Lookup.
#[local] Open Scope string_scope.
#[local] Open Scope Z_scope.

(** ** The selector of a transaction *)

Lemma split_call_some c : (4 <= length c)%nat -> split_call c = Some (take 4 c, drop 4 c).
Proof. intros L. unfold split_call. by rewrite (proj2 (Nat.ltb_ge _ _) L). Qed.
(** No search panics, and a selector has four bytes of calldata. *)
Lemma tx_selector_done avx tx :
  exists found, tx_selector avx tx = Done found /\ (is_Some found -> (4 <= length (tx_input tx))%nat).
Proof.
  unfold tx_selector, find_selector. destruct (Nat.ltb_spec (length (tx_input tx)) 4) as [L|L].
  - exists None. split; [|by intros []]. simpl. unfold split_call. by rewrite (proj2 (Nat.ltb_lt _ _) L).
  - assert (H : exists index, (if avx then Done (find_selector_simd (tx_input tx))
                               else find_selector_scalar (tx_input tx)) = Done index).
    { destruct avx; [by eexists|]. destruct (tx_input tx) as [|a [|b [|c [|d l]]]]; simpl in L; try lia.
      by eexists. }
    destruct H as [index ->]. by destruct index; eexists.
Qed.
Lemma args_of_some tx : (4 <= length (tx_input tx))%nat -> args_of tx = Some (drop 4 (tx_input tx)).
Proof. intros L. unfold args_of. by rewrite (proj2 (Nat.ltb_ge _ _) L). Qed.

Lemma is_sel_true s c : is_sel s c = true <-> s = c.
Proof. unfold is_sel. by rewrite bool_decide_eq_true. Qed.
Lemma sel_in_elem s cs : sel_in s cs = true <-> s ∈ cs.
Proof.
  unfold sel_in. rewrite existsb_exists. split.
  - intros (c & I & ->%is_sel_true). by apply list_elem_of_In.
  - intros I. exists s. by rewrite <- list_elem_of_In, is_sel_true.
Qed.

(** ** Decoding, stage by stage *)

Section Cause.
Context {host : Host}.
Context (config : Config).
Abbreviation decoded_signal sel router tx :=
  (decode_swap_signal abi_decode display_f64 parse_ether (monitored_tokens config) sel router (tx_value tx)
     (drop 4 (tx_input tx))).
Abbreviation relevant_swap tx mn mode :=
  (decode_relevant_swap abi_decode display_f64 parse_ether (monitored_tokens config) avx2 tx mn mode).
Abbreviation monitored path := (path_contains_monitored_token path (monitored_tokens config)).

Definition direct (sel : Bytes) : bool := sel_in sel V2_ETH_SELECTORS || sel_in sel V2_TOKEN_SELECTORS.
(** Selectors whose diagnosis is that of the swap itself. *)
Definition swap_selector (sel : Bytes) : bool :=
  sel_in sel SUPPORTED_SELECTORS
  && negb (sel_in sel (UNIVERSAL_SELECTORS
             ++ [SAFE_INNER_SELECTOR_9E7212AD; WOOFI_WOORACLE_POST_STATE; SAFE_EXEC_TRANSACTION;
                 BALANCER_SELECTOR_46495152])%list).

(** What is decoded, valued or not. *)
Definition decoding (sel : Bytes) (tx : Transaction) : outcome (option SwapSignal) :=
  match tx_to tx with None => Done None | Some router => decoded_signal sel router tx end.
(** The reason the decoder's own tests give, in the words of the diagnosis. *)
Definition true_reason (sel : Bytes) (decoded : option SwapSignal) : string :=
  match decoded with
  | None => "not_relevant_or_below_min"
  | Some signal =>
      if (length (sw_path signal) <? 2)%nat then
        if direct sel then "path_invalid" else "not_relevant_or_below_min"
      else
        match notional_of config signal with
        | Some _ => "amount_in_below_min"
        | None =>
            if monitored (sw_path signal) then
              if direct sel then "monitored_token_not_input" else "token_monitored_path_invalid"
            else if direct sel then "monitored_token_not_in_path" else "not_relevant_or_below_min"
        end
  end.

Lemma relevant_swap_stages sel tx mn mode :
  tx_selector avx2 tx = Done (Some sel) ->
  relevant_swap tx mn mode =
  match decoding sel tx with
  | Panicked => Panicked
  | Done None => Done None
  | Done (Some signal) =>
      match or_else (notional_of config signal)
              (if mode_allows_partial_shadow_decode mode && monitored (sw_path signal)
               then Some (Z.max mn 1) else None) with
      | None => Done None
      | Some notional_wei =>
          if (length (sw_path signal) <? 2)%nat || too_small mode notional_wei mn then Done None
          else Done (Some (signal <[ sw_notional_wei ::= notional_wei ]>))
      end
  end.
Proof.
  intros S. unfold decode_relevant_swap, decoding, too_small. rewrite S. cbn [obind].
  destruct (tx_to tx) as [router|]; [|done]. cbn [obind opt].
  destruct (decoded_signal sel router tx) as [[signal|]|]; [|done|done]. cbn [obind]. fold (notional_of config signal).
  destruct (or_else _ _) as [n|]; [|done]. cbn [obind].
  by destruct (_ <? 2)%nat, (negb _ && _).
Qed.

(** The direct routers' decoder is the one of [decode_swap_signal]. *)
Lemma direct_decoding sel tx :
  direct sel = true -> (4 <= length (tx_input tx))%nat ->
  decoding sel tx =
    Done (router ← tx_to tx; args ← args_of tx; decode_direct_router_signal sel router (tx_value tx) args).
Proof.
  intros D L. unfold decoding. destruct (tx_to tx) as [router|]; [|done].
  rewrite (args_of_some _ L). cbn [mbind option_bind].
  unfold decode_swap_signal, decode_direct_router_signal. cbn [decode_levels]. unfold decode_swap_signal_body.
  unfold direct in D. fold V2_ETH_SELECTORS. fold V2_TOKEN_SELECTORS.
  destruct (sel_in sel V2_ETH_SELECTORS); [done|]. cbn [orb] in D. by rewrite D.
Qed.
Lemma indirect_diagnosis sel tx hash text mn mode :
  direct sel = false -> diagnose_direct_router_decode config tx hash sel text mn mode = None.
Proof.
  intros [E T]%orb_false_iff. unfold diagnose_direct_router_decode, decode_direct_router_signal.
  destruct (tx_to tx) as [router|]; [|done]. cbn [mbind option_bind]. destruct (args_of tx); [|done].
  cbn [mbind option_bind]. by rewrite E, T.
Qed.
Lemma swap_selector_cases sel :
  swap_selector sel = true ->
  sel_in sel UNIVERSAL_SELECTORS = false /\ sel_in sel SUPPORTED_SELECTORS = true /\
  sel_in sel [SAFE_INNER_SELECTOR_9E7212AD; WOOFI_WOORACLE_POST_STATE] = false /\
  is_sel sel SAFE_EXEC_TRANSACTION = false /\ is_sel sel BALANCER_SELECTOR_46495152 = false.
Proof.
  unfold swap_selector. intros [S N]%andb_true_iff. rewrite S. unfold sel_in in N |- *. cbn in N |- *. clear S.
  repeat match type of N with context [is_sel sel ?c] => destruct (is_sel sel c); try done end.
Qed.

(** Its direct decoding says why a swap of a direct router is rejected. *)
Lemma direct_diagnosis sel tx hash text mn mode signal :
  direct sel = true -> (4 <= length (tx_input tx))%nat -> decoding sel tx = Done (Some signal) ->
  relevant_swap tx mn mode = Done None -> tx_selector avx2 tx = Done (Some sel) ->
  exists d, diagnose_direct_router_decode config tx hash sel text mn mode = Some d /\
    dr_reason d = true_reason sel (Some signal).
Proof.
  intros D L E R S. rewrite (relevant_swap_stages _ _ _ _ S), E in R. rewrite direct_decoding in E by done.
  injection E as E. unfold true_reason. rewrite D. unfold diagnose_direct_router_decode.
  destruct (tx_to tx) as [router|]; [|done]. cbn [mbind option_bind] in E |- *.
  destruct (args_of tx) as [args|]; [|done]. cbn [mbind option_bind] in E |- *. rewrite E. cbn [mbind option_bind].
  destruct (length (sw_path signal) <? 2)%nat; [by eexists|]. cbn [orb] in R.
  destruct (notional_of config signal) as [n|]; cbn [or_else] in R.
  - destruct (too_small mode n mn); [by eexists|done].
  - destruct (path_contains_monitored_token _ _); by eexists.
Qed.
(** The second decoding, of any size, says why any other swap is rejected. *)
Lemma indirect_reason sel tx text mn mode signal :
  direct sel = false -> decoding sel tx = Done (Some signal) ->
  relevant_swap tx mn mode = Done None -> tx_selector avx2 tx = Done (Some sel) ->
  exists decoded, relevant_swap tx 0 Scavenger = Done decoded /\
    dr_reason (default (not_relevant tx text (monitored_token_path_hint config (tx_input tx)))
                 (decoded ≫= diagnose_decoded config text mn mode)) = true_reason sel (Some signal).
Proof.
  intros D E R S. rewrite (relevant_swap_stages _ _ _ _ S), E in R. rewrite (relevant_swap_stages _ _ _ _ S), E.
  unfold true_reason. rewrite D. cbn [mode_allows_partial_shadow_decode andb] in *.
  assert (Q : forall n, notional_of config (signal <[ sw_notional_wei ::= n ]>) = notional_of config signal) by done.
  assert (W : forall n, sw_path (signal <[ sw_notional_wei ::= n ]>) = sw_path signal) by done.
  destruct (notional_of config signal) as [n|] eqn:N; cbn [or_else] in R |- *.
  - destruct (length (sw_path signal) <? 2)%nat eqn:P; [by eexists|]. cbn [orb] in R |- *.
    eexists. split; [reflexivity|]. unfold mbind, option_bind, diagnose_decoded. rewrite W, Q, P.
    by destruct (too_small mode n mn).
  - destruct (path_contains_monitored_token _ _) eqn:M.
    + destruct (length (sw_path signal) <? 2)%nat eqn:P; [by eexists|]. cbn [orb].
      eexists. split; [reflexivity|]. unfold mbind, option_bind, diagnose_decoded. by rewrite W, Q, P.
    + eexists. split; [reflexivity|]. by destruct (_ <? 2)%nat.
Qed.

(** C11: for a selector that is supported and not diagnosed by its form alone (as
    those of the universal router, the Safe's execution, the Balancer call 46495152
    and the two calls known to be no swap are), the diagnosis of a rejected
    transaction names the test of the decoder that rejects it. Of a direct V2 call it
    tells apart a path that is too short, a notional below the minimum, no monitored
    token in the path, and a monitored token of which the input is not valued; of any
    other call a notional below the minimum and a monitored path that is not valued,
    and the rest, what is not decoded included, is the one reason that it is not
    relevant. The minimum is named only when there is a notional below it outside the
    scavenger mode, and the diagnosis does not panic. *)
Theorem diagnosis_names_the_cause sel tx hash mn mode :
  tx_selector avx2 tx = Done (Some sel) -> swap_selector sel = true -> relevant_swap tx mn mode = Done None ->
  exists decoded d, decoding sel tx = Done decoded /\
    diagnose_decode_reject config tx hash mn mode = Done d /\ dr_reason d = true_reason sel decoded /\
    (dr_reason d = "amount_in_below_min" ->
     exists signal notional_wei, decoded = Some signal /\ notional_of config signal = Some notional_wei /\
       mode <> Scavenger /\ notional_wei < mn).
Proof.
  intros S C R. destruct (tx_selector_done avx2 tx) as (found & F & L). rewrite S in F. injection F as <-.
  specialize (L (ex_intro _ _ eq_refl)). pose proof R as R'. rewrite (relevant_swap_stages _ _ _ _ S) in R'.
  destruct (swap_selector_cases _ C) as (U & K & Z & X & B).
  unfold diagnose_decode_reject. rewrite S. cbn [mbind outcome_bind]. rewrite U, K, Z, X, B. cbn [negb].
  destruct (decoding sel tx) as [[signal|]|] eqn:E; [| |done].
  - assert (T : exists d,
       match diagnose_direct_router_decode config tx hash sel (selector_hex sel) mn mode with
       | Some d => Done d
       | None => decoded <-! relevant_swap tx 0 Scavenger;;
           Done (default (not_relevant tx (selector_hex sel) (monitored_token_path_hint config (tx_input tx)))
                   (decoded ≫= diagnose_decoded config (selector_hex sel) mn mode))
       end = Done d /\ dr_reason d = true_reason sel (Some signal)).
    { destruct (direct sel) eqn:D.
      - destruct (direct_diagnosis sel tx hash (selector_hex sel) mn mode signal D L E R S) as (d & -> & Q).
        by exists d.
      - rewrite indirect_diagnosis by done.
        destruct (indirect_reason sel tx (selector_hex sel) mn mode signal D E R S) as (decoded & -> & Q).
        by eexists. }
    destruct T as (d & -> & Q). exists (Some signal), d. split_and!; try done. rewrite Q. unfold true_reason.
    destruct (_ <? 2)%nat eqn:P; [by destruct (direct sel)|]. cbn [orb] in R'.
    destruct (notional_of config signal) as [n|] eqn:N; [intros _|by destruct (path_contains_monitored_token _ _), (direct sel)].
    exists signal, n. split_and!; try done; cbn [or_else] in R'; unfold too_small in R';
      destruct (bool_decide_reflect (mode = Scavenger)), (Z.ltb_spec n mn); by try lia.
  - exists None. rewrite (relevant_swap_stages _ _ _ _ S), E.
    assert (diagnose_direct_router_decode config tx hash sel (selector_hex sel) mn mode = None) as ->.
    { destruct (direct sel) eqn:D; [|by apply indirect_diagnosis]. rewrite direct_decoding in E by done.
      injection E as E. unfold diagnose_direct_router_decode. destruct (tx_to tx); [|done].
      cbn [mbind option_bind] in E |- *. destruct (args_of tx); [|done]. cbn [mbind option_bind] in E |- *. by rewrite E. }
    by eexists.
Qed.
End Cause.

(** ** Reporting a rejection *)

Section Report.
Context {network_ : Endpoints} {host : Host} {around : Surroundings}.
Context (config : Config).
Abbreviation relevant_swap tx mn mode :=
  (decode_relevant_swap abi_decode display_f64 parse_ether (monitored_tokens config) avx2 tx mn mode).

(** A rejected transaction is always diagnosed, for any mode. *)
Lemma rejected_is_diagnosed tx hash mn mode mode' :
  relevant_swap tx mn mode = Done None -> exists d, diagnose_decode_reject config tx hash mn mode' = Done d.
Proof.
  intros R. unfold diagnose_decode_reject. destruct (tx_selector_done avx2 tx) as ([sel|] & S & _); rewrite S; cbn;
    [|by eexists].
  rewrite (relevant_swap_stages _ _ _ _ _ S) in R.
  repeat match goal with |- exists d, (if ?b then _ else _) = _ => destruct b; [by eexists|] end.
  destruct (diagnose_direct_router_decode _ _ _ _ _ _ _); [by eexists|].
  rewrite (relevant_swap_stages _ _ _ _ _ S). destruct (decoding config sel tx) as [[signal|]|]; [|by eexists|done].
  clear R. destruct (or_else _ _); [|by eexists]. destruct (_ || _); by eexists.
Qed.

(** Whether a sample is taken of a rejected transaction. *)
Definition sample_due (tx : Transaction) : bool :=
  match tx_selector avx2 tx with
  | Done (Some sel) =>
      match aggregator_name sel with
      | Some name =>
          negb (string_eqb name "universal_router"
                && (ai_swap_command_count (aggregator_route_intel config tx name) =? 0))
      | None => negb (bool_decide (monitored_token_path_hint config (tx_input tx) = []))
      end
  | _ => false
  end.
Lemma rejection_sample_spec tx hash d :
  rejection_sample config tx hash d = Panicked /\ sample_due tx = true /\ U64_MAX < tx_gas tx \/
  exists sample, rejection_sample config tx hash d = Done sample /\
    (sample_due tx = true -> tx_gas tx <= U64_MAX) /\ (is_Some sample <-> sample_due tx = true).
Proof.
  unfold rejection_sample, sample_due, aggregator_name_from_tx, aggregator_intelligence_sample,
    decode_reject_edge_sample, as_u64.
  destruct (tx_selector_done avx2 tx) as ([sel|] & S & _); rewrite S; cbn [obind opt mbind outcome_bind default].
  2: { right. exists None. split_and!; try done; by intros []. }
  destruct (aggregator_name sel) as [name|].
  - destruct (_ && _); [right; exists None; split_and!; try done; by intros []|].
    destruct (Z.leb_spec (tx_gas tx) U64_MAX); [right|by left]. by eexists.
  - destruct (monitored_token_path_hint _ _) as [|hint hints].
    { right; exists None; split_and!; try done; by intros []. }
    destruct (Z.leb_spec (tx_gas tx) U64_MAX); [right|by left]. by eexists.
Qed.

End Report.

Section DecodeStage.
Context {network_ : Endpoints} {host : Host} {around : Surroundings}.
Context (config : Config).
Abbreviation relevant_swap tx mn mode :=
  (decode_relevant_swap abi_decode display_f64 parse_ether (monitored_tokens config) avx2 tx mn mode).

(** C12: the stage that decodes a transaction panics exactly when its decoder does, or
    when it rejects a transaction of which a sample is shown and whose gas limit
    does not fit 64 bits; nothing else in the diagnosis or its report panics, whatever
    the locks of the mode and the thresholds hold when it reads them. *)
Theorem decode_step_panics_iff locks hash tx mn s :
  decode_step config (with_locks locks config) hash tx mn s = Panicked <->
  relevant_swap tx mn (opportunity_mode (mev config)) = Panicked \/
  relevant_swap tx mn (opportunity_mode (mev config)) = Done None /\ sample_due config tx = true /\
    U64_MAX < tx_gas tx.
Proof.
  unfold decode_step, mbind at 1, EvalM_bind at 1, lift_panic at 1.
  destruct (relevant_swap tx mn _) as [[signal|]|] eqn:R; [| |by split; [left|]].
  - split; [|by intros [?|(? & _)]]. unfold selector_reason, decode_reject_selector_reason.
    destruct (tx_selector_done avx2 tx) as (found & -> & _). cbn.
    by destruct (is_partial_decode signal), (_ <? _)%f64.
  - destruct (rejected_is_diagnosed (with_locks locks config) tx hash mn _
                (opportunity_mode (mev (with_locks locks config))) R) as [d D].
    assert (N : exists name, aggregator_name_from_tx avx2 tx = Done name).
    { unfold aggregator_name_from_tx. destruct (tx_selector_done avx2 tx) as ([sel|] & -> & _); by eexists. }
    assert (W : exists why, decode_reject_selector_reason avx2 tx = Done why).
    { unfold decode_reject_selector_reason. destruct (tx_selector_done avx2 tx) as (found & -> & _). by eexists. }
    destruct N as [name N], W as [why W].
    destruct (rejection_sample_spec (with_locks locks config) tx hash d) as [(P & U & G)|(sample & P & U & _)].
    all: unfold rejected_step, selector_reason, mbind, EvalM_bind, lift_panic, funnel, reason, note_, log;
      rewrite D, N, W, P; destruct name.
    1,2: split; [by right|done].
    all: destruct sample; (split; [done|by intros [?|(_ & Q & ?)]; [|specialize (U Q); lia]]).
Qed.
End DecodeStage.

(** ** Concrete transactions *)

Definition v2_args (amount : Z) : Bytes := concat (DecodeProps.word <$> [amount; 0; 160; 9; 100; 2; 11; 12]).
Definition rejected_tx (input : Bytes) : Transaction :=
  {| tx_hash := 500; tx_nonce := 0; tx_from := 2; tx_to := Some 0x07964f135f276412b3182a3b2407b8dd45000000;
     tx_value := 0; tx_gas_price := Some (20 * 10 ^ 9); tx_gas := 21000; tx_input := input;
     tx_max_priority_fee_per_gas := None; tx_max_fee_per_gas := None; tx_chain_id := None; tx_block_number := None |}.

(** A swap worth one ether, where two are asked for. *)
Lemma diagnosis_names_the_cause_witness :
  let tx := rejected_tx (SWAP_EXACT_TOKENS_FOR_TOKENS ++ v2_args 5)%list in
  exists d, @diagnose_decode_reject sample_host lookup_config tx 500 (2 * 10 ^ 18) Conservative = Done d /\
    dr_reason d = "amount_in_below_min" /\ 10 ^ 18 < 2 * 10 ^ 18.
Proof.
  cbv zeta. set (tx := rejected_tx _).
  destruct (@diagnosis_names_the_cause sample_host lookup_config SWAP_EXACT_TOKENS_FOR_TOKENS tx 500 (2 * 10 ^ 18)
              Conservative) as (decoded & d & E & D & Q & _); [vm_compute; reflexivity..|].
  exists d. split; [exact D|]. split; [|lia]. rewrite Q. vm_compute in E. injection E as <-. vm_compute. reflexivity.
Defined.

(** The same amount sent to the universal router: too small, but called an invalid path. *)
Definition universal_input (amount : Z) : Bytes :=
  (UNIVERSAL_ROUTER_EXECUTE_NO_DEADLINE
   ++ concat (DecodeProps.word <$> [64; 128; 1; 0x08 * 2 ^ 248; 1; 32; 256; 9; amount; 0; 160; 0; 2; 11; 12]))%list.
Lemma small_universal_swap_is_called_invalid :
  let tx := rejected_tx (universal_input 5) in
  @decode_relevant_swap (@abi_decode sample_host) (@display_f64 sample_host) (@parse_ether sample_host)
    (monitored_tokens lookup_config) false tx (2 * 10 ^ 18) Conservative = Done None /\
  (exists signal, @decoding sample_host lookup_config UNIVERSAL_ROUTER_EXECUTE_NO_DEADLINE tx = Done (Some signal) /\
     @notional_of sample_host lookup_config signal = Some (10 ^ 18)) /\
  exists d, @diagnose_decode_reject sample_host lookup_config tx 500 (2 * 10 ^ 18) Conservative = Done d /\
    dr_reason d = "universal_router_path_invalid".
Proof.
  cbv zeta. split_and!; [vm_compute; reflexivity|eexists; split; vm_compute; reflexivity|].
  eexists; split; vm_compute; reflexivity.
Qed.
