(* ===== verification/AmountFacts.v ===== *)
(** * Amounts are not negative

    The law that the ABI decoder yields no negative [uint], and what follows
    from it: whatever is decoded, its amount is a number of wei. *)
From S2P Require Import Prelude F64 Text Ethers Config.
From S2P Require Import Calldata AbiRef Decode DecodeFacts.
#[local] Open Scope Z_scope.

Fixpoint token_unsigned (t : Token) : bool :=
  match t with
  | TUint n => 0 <=? n
  | TArray l | TFixedArray l | TTuple l => forallb token_unsigned l
  | _ => true
  end.
Abbreviation all_unsigned ts := (forallb token_unsigned ts = true).
Class AbiUnsigned (abi_decode : list ParamType -> Bytes -> option (list Token)) : Prop :=
  decoded_unsigned ps data ts : abi_decode ps data = Some ts -> all_unsigned ts.

(** ** The reference decoder *)

Lemma word_at_nonneg data offset w : word_at data offset = Some w -> 0 <= w.
Proof.
  unfold word_at. destruct (_ <? _)%nat; [done|]. intros [= <-]. unfold from_big_endian.
  generalize (slice data offset (offset + 32)). intros l.
  assert (G : forall acc, 0 <= acc -> 0 <= foldl (fun acc b => acc * 256 + b) acc ((fun b => b mod 256) <$> l)).
  { induction l as [|b l IH]; intros acc A; [done|]. simpl. apply IH.
    pose proof (Z.mod_pos_bound b 256 ltac:(lia)). lia. }
  by apply G.
Qed.

Definition unsigned_decoder (f : decoder) : Prop :=
  forall data offset t e, f data offset = Some (t, e) -> token_unsigned t = true.
Lemma decode_seq_unsigned fs : Forall unsigned_decoder fs -> forall data offset ts e,
  decode_seq fs data offset = Some (ts, e) -> all_unsigned ts.
Proof.
  induction 1 as [|f fs F _ IH]; intros data offset ts e H; [by injection H as <- _|].
  cbn [decode_seq] in H. apply bind_Some in H as ([t o] & H1 & H).
  apply bind_Some in H as ([ts' o'] & H2 & H). injection H as <- _. simpl.
  apply F in H1. rewrite H1. by eapply IH.
Qed.
Lemma decode_param_unsigned : forall p, unsigned_decoder (decode_param p).
Proof.
  fix IH 1. intros p data offset t e.
  assert (R : forall q n, unsigned_decoder (decode_param q) -> Forall unsigned_decoder (replicate n (decode_param q)))
    by (intros; by apply Forall_replicate).
  destruct p as [| |n|n| | |p|n|p n|ps]; cbn [decode_param]; cbv zeta; intros H;
    try (repeat case_match; repeat (apply bind_Some in H as (? & ? & H)); repeat case_match; simplify_eq; simpl;
         try apply Z.leb_le; eauto using word_at_nonneg; done).
  - apply bind_Some in H as (s & _ & H). apply bind_Some in H as (len & _ & H).
    destruct (_ <? _)%nat; [done|]. apply bind_Some in H as ([ts o] & H1 & H). injection H as <- _. simpl.
    eapply decode_seq_unsigned; [apply R, IH|exact H1].
  - destruct (is_dynamic p); repeat (apply bind_Some in H as ([? ?] & ? & H) || apply bind_Some in H as (? & ? & H));
      injection H as <- _; simpl; (eapply decode_seq_unsigned; [apply R, IH|eassumption]).
  - assert (F : Forall unsigned_decoder (map decode_param ps)).
    { clear - IH. induction ps as [|p ps IHps]; simpl; constructor; [apply IH|exact IHps]. }
    clear IH. destruct (existsb is_dynamic ps);
      repeat (apply bind_Some in H as ([? ?] & ? & H) || apply bind_Some in H as (? & ? & H));
      injection H as <- _; simpl; (eapply decode_seq_unsigned; [exact F|eassumption]).
Qed.
#[export] Instance ref_decode_unsigned : AbiUnsigned ref_decode.
Proof.
  intros ps data ts H. apply fmap_Some in H as ([ts' e] & H & ->).
  eapply decode_seq_unsigned; [|exact H]. apply Forall_fmap, Forall_true. intros p. apply decode_param_unsigned.
Qed.

(** ** What is decoded *)

Lemma unsigned_lookup ts i t : all_unsigned ts -> ts !! i = Some t -> token_unsigned t = true.
Proof.
  intros U L. rewrite forallb_forall in U. apply U. apply list_elem_of_In. by eapply list_elem_of_lookup_2.
Qed.
Lemma at_uint_nonneg ts i n : all_unsigned ts -> at_ token_as_uint ts i = Some n -> 0 <= n.
Proof.
  intros U (t & L & F)%at_inv. pose proof (unsigned_lookup _ _ _ U L) as T.
  destruct t; try done. injection F as <-. by apply Z.leb_le.
Qed.
Lemma at_tuple_unsigned ts i l : all_unsigned ts -> at_ token_as_tuple ts i = Some l -> all_unsigned l.
Proof.
  intros U (t & L & F)%at_inv. pose proof (unsigned_lookup _ _ _ U L) as T. destruct t; try done. by injection F as <-.
Qed.
Lemma at_array_unsigned ts i l : all_unsigned ts -> at_ token_as_array ts i = Some l -> all_unsigned l.
Proof.
  intros U (t & L & F)%at_inv. pose proof (unsigned_lookup _ _ _ U L) as T. destruct t; try done. by injection F as <-.
Qed.
Lemma min_by_elem {A} (cmp : A -> A -> comparison) l m : min_by cmp l = Some m -> m ∈ l.
Proof.
  destruct l as [|x l]; [done|]. intros [= <-]. revert x. induction l as [|y l IH]; intros x; [by left|].
  simpl. specialize (IH (match cmp x y with Gt => y | _ => x end)).
  apply elem_of_cons in IH as [->|IH]; [|by right; right]. destruct (cmp x y); (by left) || (right; by left).
Qed.
Lemma hint_nonneg args n : amount_hint_from_calldata args = Some n -> 0 <= n.
Proof.
  unfold amount_hint_from_calldata. intros H.
  assert (E : n ∈ omap (fun word => let value := from_big_endian word in
      if (10000 <=? value) && (value <=? 10 ^ 24) then Some value else None) (words args)) by (by eapply min_by_elem).
  apply list_elem_of_omap in E as (w & _ & E). cbv zeta in E. destruct (_ && _) eqn:B; [|done].
  injection E as <-. apply andb_true_iff in B as [B%Z.leb_le _]. lia.
Qed.
Lemma amount_or_hint_nonneg value args : 0 <= amount_or_hint value args.
Proof.
  unfold amount_or_hint. destruct (0 <? value) eqn:V; [apply Z.ltb_lt in V; lia|].
  destruct (amount_hint_from_calldata args) eqn:H; simpl; [by eapply hint_nonneg|lia].
Qed.

Definition paying (s : SwapSignal) : Prop := 0 <= sw_amount_in s.

(** The binds of a decoder, with what each token says. *)
Ltac unsigned_steps :=
  repeat match goal with
  | H : mbind _ _ = Some _ |- _ => apply bind_Some in H as (? & ? & H)
  | H : (if ?b then _ else _) = Some _ |- _ => destruct b eqn:?; try discriminate H
  | H : Some _ = Some _ |- _ => injection H as <-
  end.
Ltac unsigned :=
  unsigned_steps; unfold paying; simpl;
  eauto using at_uint_nonneg, at_tuple_unsigned, decoded_unsigned, amount_or_hint_nonneg.

Section Amounts.
Context (abi_decode : list ParamType -> Bytes -> option (list Token)) `{!AbiUnsigned abi_decode}.
Context (display_f64 : f64 -> string) (parse_ether : string -> string + U256).
Context (monitored : list MonitoredTokenConfig).

(** *** The universal router *)

Definition hop_pays (hop : UniversalRouterHop) : Prop := forall n, hop_amount_in hop = Some n -> 0 <= n.
Lemma v2_hops_pay input exact_out depth : Forall hop_pays (universal_router_v2_hops abi_decode input exact_out depth).
Proof.
  unfold universal_router_v2_hops. case_match eqn:E; [|constructor]. destruct p as [decoded path].
  apply bind_Some in E as (ts & D & E). apply bind_Some in E as (? & _ & [= -> ->]).
  apply Forall_fmap, Forall_true. intros [a b] n. simpl. destruct exact_out; eauto using at_uint_nonneg, decoded_unsigned.
Qed.
Lemma v3_hops_pay input exact_out depth : Forall hop_pays (universal_router_v3_hops abi_decode input exact_out depth).
Proof.
  unfold universal_router_v3_hops. case_match eqn:E; [|constructor]. destruct p as [decoded path].
  apply bind_Some in E as (ts & D & E). apply bind_Some in E as (? & _ & [= -> ->]). cbv zeta.
  destruct exact_out; apply Forall_fmap, Forall_true; intros s n; simpl; eauto using at_uint_nonneg, decoded_unsigned.
Qed.
Lemma graph_pays levels : forall commands inputs depth graph,
  Forall hop_pays (graph_hops graph) ->
  Forall hop_pays (graph_hops (collect_universal_router_graph abi_decode levels commands inputs depth graph)).
Proof.
  induction levels as [|levels IH]; intros commands inputs depth graph G; [exact G|].
  cbn [collect_universal_router_graph]. revert inputs graph G.
  assert (S : forall hops g, Forall hop_pays hops -> Forall hop_pays (graph_hops g) ->
            Forall hop_pays (graph_hops (graph_swap hops g))).
  { intros hops g A B. apply Forall_app. by split. }
  induction commands as [|c commands IHc]; intros inputs graph G; [exact G|]. cbv zeta.
  destruct inputs as [|t inputs]; [exact G|].
  destruct t; apply IHc; try exact G.
  repeat match goal with
  | |- Forall _ (graph_hops (if ?b then _ else _)) => destruct b
  | |- Forall _ (graph_hops (graph_swap _ _)) => apply S; auto using v2_hops_pay, v3_hops_pay
  | |- Forall _ (graph_hops (match ?m with _ => _ end)) => destruct m as [[]|]
  end; try exact G. by apply IH.
Qed.
Lemma parts_pay levels sel router : forall commands inputs,
  Forall paying (decode_universal_router_parts abi_decode levels sel router commands inputs).
Proof.
  induction levels as [|levels IH]; intros commands inputs; [constructor|].
  cbn [decode_universal_router_parts]. revert inputs.
  induction commands as [|c commands IHc]; intros [|t inputs]; try by constructor.
  destruct t; try apply IHc. apply Forall_app. split; [|apply IHc]. cbv zeta.
  repeat match goal with |- Forall _ (if ?b then _ else _) => destruct b end; try constructor.
  1-4: apply option_list_sat; intros s H;
    unfold decode_universal_router_v3_exact_in, decode_universal_router_v3_exact_out,
      decode_universal_router_v2_exact_in, decode_universal_router_v2_exact_out in H; unsigned.
  destruct (decode_universal_router_sub_plan abi_decode b) as [[sc si]|]; [apply IH|constructor].
Qed.
Lemma candidates_pay sel router args :
  Forall paying (decode_universal_router_swap_candidates abi_decode sel router args).
Proof.
  unfold decode_universal_router_swap_candidates.
  destruct (decode_plan abi_decode args) as [[commands inputs]|]; [|constructor].
  destruct (decode_universal_router_parts _ _ _ _ _ _) as [|s l] eqn:E; [|rewrite <- E; apply parts_pay].
  apply omap_sat. intros hop I s H. unfold universal_router_hop_to_signal in H. unsigned_steps; unfold paying; simpl;
    (eapply (proj1 (Forall_forall _ _) (graph_pays LEVELS commands inputs 0 empty_graph ltac:(constructor))); eassumption).
Qed.
Lemma universal_pays sel router args :
  option_sat paying (or_else
    (decode_universal_router_swap_for_monitored abi_decode display_f64 parse_ether monitored sel router args)
    (decode_universal_router_swap abi_decode sel router args)).
Proof.
  pose proof (candidates_pay sel router args) as C. apply option_or_else_sat; intros s H.
  - unfold decode_universal_router_swap_for_monitored in H. apply max_by_elem in H.
    apply list_elem_of_omap in H as (x & X & H). unsigned_steps. exact (proj1 (Forall_forall _ _) C x X).
  - unfold decode_universal_router_swap in H. apply head_Some in H as (l & H). rewrite H in C.
    by apply Forall_cons in C as [C _].
Qed.

(** *** The other decoders *)

Lemma partial_pays sel router value args c source :
  option_sat paying (decode_partial_swap_from_monitored_tokens monitored sel router value args c source).
Proof.
  intros s. unfold decode_partial_swap_from_monitored_tokens.
  destruct (partial_path_from_monitored_tokens monitored args) as [|a [|b l]]; try done.
  destruct (a =? b); [done|]. intros [= <-]. apply amount_or_hint_nonneg.
Qed.
Lemma single_values_pay sel router values i j c source : all_unsigned values ->
  outcome_sat paying (decode_v3_exact_input_single_values sel router values i j c source).
Proof.
  intros U s. unfold decode_v3_exact_input_single_values.
  destruct (at_ token_as_address values 0); [|done]. destruct (at_ token_as_address values 1); [|done].
  cbn [opt obind]. destruct (at_ token_as_uint values 2) as [fee|]; [|done]. cbn [opt obind].
  destruct (as_u32 fee); [|done]. cbn. destruct (at_ token_as_uint values i) eqn:A; [|done].
  intros [= <-]. by eapply at_uint_nonneg.
Qed.
Lemma single_pays sel router args :
  outcome_sat paying (decode_v3_exact_input_single_with_deadline abi_decode sel router args) /\
  outcome_sat paying (decode_v3_exact_input_single_no_deadline abi_decode sel router args).
Proof.
  unfold decode_v3_exact_input_single_with_deadline, decode_v3_exact_input_single_no_deadline.
  split; intros s; (destruct (abi_decode _ args) as [ts|] eqn:D; [|done]); cbn [opt obind];
    (destruct (at_ token_as_tuple ts 0) as [values|] eqn:T; [|done]); cbn [opt obind];
    apply single_values_pay; eauto using at_tuple_unsigned, decoded_unsigned.
Qed.
Lemma direct_pays sel router value args : 0 <= value ->
  option_sat paying (decode_eth_for_tokens abi_decode sel router value args) /\
  option_sat paying (decode_tokens_for abi_decode sel router args) /\
  option_sat paying (decode_algebra_exact_input_single abi_decode sel router args) /\
  option_sat paying (decode_v3_exact_input abi_decode sel router args) /\
  option_sat paying (decode_zero_ex_sell_to_uniswap abi_decode sel router args) /\
  option_sat paying (decode_transit_v5_v3_partial abi_decode monitored sel router value args) /\
  option_sat paying (decode_transit_v5_v2_partial abi_decode monitored sel router value args) /\
  option_sat paying (decode_swap_exact_eth_for_token_partial abi_decode monitored sel router value args).
Proof.
  intros V. split_and!; intros s H;
    unfold decode_eth_for_tokens, decode_tokens_for, decode_algebra_exact_input_single, decode_v3_exact_input,
      decode_zero_ex_sell_to_uniswap, decode_transit_v5_v3_partial, decode_transit_v5_v2_partial,
      decode_swap_exact_eth_for_token_partial in H; cbv zeta in H; unsigned.
  destruct (0 <? value); lia.
Qed.

(** *** Calls inside calls *)

Create HintDb pays.
Section Rec.
Context (rec : Bytes -> Address -> U256 -> Bytes -> outcome (option SwapSignal)).
Context (Hrec : forall sel router value args, 0 <= value -> outcome_sat paying (rec sel router value args)).

Lemma nested_pays router value input : 0 <= value ->
  outcome_sat paying (decode_nested_swap_from_calldata monitored rec router value input).
Proof.
  intros V. apply first_call_sat. intros i _ s. unfold nested_at. destruct (negb _); [done|].
  destruct (rec _ router value _) as [[x|]|] eqn:R; try done. cbn [obind opt].
  destruct (path_contains_monitored_token _ _); [|done]. intros [= <-]. by eapply Hrec.
Qed.
Lemma call_of_bytes_pays router value call : 0 <= value -> outcome_sat paying (call_of_bytes rec router value call).
Proof.
  intros V s. unfold call_of_bytes. destruct (token_as_bytes call) as [c|]; [|done]. cbn [opt obind].
  destruct (split_call c) as [x|]; [|done]. by apply Hrec.
Qed.
Lemma call_of_tuple_pays call : token_unsigned call = true -> outcome_sat paying (call_of_tuple rec call).
Proof.
  intros U s. unfold call_of_tuple. destruct (token_as_tuple call) as [parts|] eqn:T; [|done]. cbn [opt obind].
  assert (P : all_unsigned parts) by (by destruct call; try done; injection T as ->).
  destruct (at_ token_as_address parts 0) as [t|]; [|done]. cbn [opt obind].
  destruct (at_ token_as_bytes parts 2) as [c|]; [|done]. cbn [opt obind].
  destruct (split_call c) as [x|]; [|done]. apply Hrec.
  destruct (at_ token_as_uint parts 1) eqn:A; simpl; [by eapply at_uint_nonneg|done].
Qed.
Lemma batch_unsigned args call : call ∈ batch_calls abi_decode args -> token_unsigned call = true.
Proof.
  unfold batch_calls. destruct (abi_decode BATCH_PARAMS args) as [ts|] eqn:D; [|by intros ?%elem_of_nil].
  simpl. destruct (at_ token_as_array ts 0) as [l|] eqn:A; [|by intros ?%elem_of_nil]. simpl. intros I.
  pose proof (at_array_unsigned _ _ _ (decoded_unsigned _ _ _ D) A) as U. rewrite forallb_forall in U.
  by apply U, list_elem_of_In.
Qed.
#[local] Hint Resolve nested_pays call_of_bytes_pays call_of_tuple_pays first_call_sat opt_sat or_else_sat
  option_or_else_sat partial_pays batch_unsigned : pays.

Lemma relabelled_pays sel c source m : outcome_sat paying m -> outcome_sat paying (relabelled sel c source m).
Proof. by apply relabelled_sat. Qed.
#[local] Hint Resolve relabelled_pays : pays.

Lemma aggregator_pays sel router value args : 0 <= value ->
  outcome_sat paying (decode_known_aggregator_partial abi_decode monitored rec sel router value args).
Proof.
  intros V. unfold decode_known_aggregator_partial, decode_private_searcher_fingerprint.
  destruct (direct_pays sel router value args V) as (_ & _ & _ & _ & _ & ? & ? & ?).
  repeat match goal with |- outcome_sat _ (if ?b then _ else _) => destruct b end; auto 6 with pays. done.
Qed.
Lemma safe_call_pays args target value c : safe_call abi_decode args = Some (target, value, c) -> 0 <= value.
Proof. unfold safe_call. intros H. unsigned_steps. simplify_eq. eauto using at_uint_nonneg, decoded_unsigned. Qed.

Lemma body_pays sel router value args : 0 <= value ->
  outcome_sat paying (decode_swap_signal_body abi_decode display_f64 parse_ether monitored rec sel router value args).
Proof.
  intros V. destruct (direct_pays sel router value args V) as (? & ? & ? & ? & ? & _).
  destruct (single_pays sel router args). pose proof (universal_pays sel router args).
  unfold decode_swap_signal_body, decode_private_swap_wrapper.
  repeat match goal with |- outcome_sat _ (if ?b then _ else _) => destruct b end; auto using aggregator_pays with pays.
  - intros s. unfold decode_safe_exec_transaction_swap.
    destruct (safe_call abi_decode args) as [[[t v] c]|] eqn:S; [|done]. cbn [opt obind].
    apply safe_call_pays in S. apply or_else_sat; [by apply Hrec|]. apply opt_sat.
    unfold decode_safe_inner_aggregator_partial.
    repeat match goal with |- option_sat _ (if ?b then _ else _) => destruct b end; auto with pays. done.
  - intros s. unfold decode_multicall_nested_swap.
    destruct (multicall_calls abi_decode sel args) as [calls|]; [|done]. cbn [opt obind]. apply or_else_sat; auto with pays.
  - unfold decode_batch_execute_nested_swap. apply or_else_sat; eauto 6 with pays.
Qed.
End Rec.

Lemma levels_pay levels : forall sel router value args, 0 <= value ->
  outcome_sat paying (decode_levels abi_decode display_f64 parse_ether monitored levels sel router value args).
Proof. induction levels as [|n IH]; intros; [done|]. by apply body_pays. Qed.

(** A relevant swap sells no negative amount, when the value of its transaction is
    not negative. *)
Lemma relevant_swap_pays avx2 tx mn mode s : 0 <= tx_value tx ->
  decode_relevant_swap abi_decode display_f64 parse_ether monitored avx2 tx mn mode = Done (Some s) ->
  0 <= sw_amount_in s.
Proof.
  intros V H. unfold decode_relevant_swap in H.
  destruct (tx_selector avx2 tx) as [[sel|]|]; try done. cbn [obind] in H.
  destruct (tx_to tx) as [router|]; [|done]. cbn [obind opt] in H.
  destruct (decode_swap_signal _ _ _ _ sel router _ _) as [[x|]|] eqn:D; try done. cbn [obind] in H.
  apply levels_pay in D; [|done]. destruct (or_else _ _); [|done]. cbn [obind opt] in H.
  destruct (_ <? 2)%nat; [done|]. destruct (negb _ && _); [done|]. by injection H as <-.
Qed.
End Amounts.
