(* ===== verification/MainLoop.v ===== *)
(** * The loop of the runtime ([run] in [mev/runtime.rs])

    How the parts are wired: the feeds into the queue of lookups, its workers into
    the queue of candidates, their evaluation into the batch, the best of the
    batch into the executor. The queues have their capacities, a send into a full
    one waits, and with it the task that sends: a worker, or the loop itself. A
    step is one arm of the loop, one task of a worker, or something else in the
    program that changes what is shared: the pause, the mode and the thresholds,
    the endpoints, the policy. Steps come in any order. A task of a worker is one step,
    but for the mode and the thresholds: each time it reads their locks it finds there
    what the dashboard may have written meanwhile, so the step has, for each reading,
    anything. A worker whose task panics is gone, and what it leaves behind is any
    state that keeps the pool cache as the task could have. Latencies and the
    events of the loop itself are left out. *)
From S2P Require Import Prelude F64 Text Ethers Config Rpc Pnl Budget Guard PoolCache Opportunity Adaptive Executor EnvVars.
From S2P Require Import ConfigEnv Intake Batch Routes Evaluate Lookup.
#[local] Open Scope string_scope.
#[local] Open Scope Z_scope.

Definition EVAL_QUEUE_CAPACITY : nat := Z.to_nat 512.
Definition LOOKUP_DECODE_WORKERS_MAX : nat := 6.
Definition EVAL_WORKERS_MAX : nat := 4.

(** A worker is idle, gone, or waits with what it has to send. *)
Record Runtime := {
  ru_config : Config;                                   (* with the mode and the thresholds of now *)
  ru_paused : bool;
  ru_seen : SeenTxs;
  ru_backpressure : PendingLookupBackpressure;
  ru_waiting : option PendingHashTask;                  (* what the loop waits to send *)
  ru_lookups : list PendingHashTask;
  ru_lookup_idle : nat;
  ru_decoded : list LookupDecodedCandidate;             (* what lookup workers wait to send *)
  ru_evals : list LookupDecodedCandidate;
  ru_eval_idle : nat;
  ru_evaluated : list PendingExecutionCandidate;        (* what evaluation workers wait to send *)
  ru_ready : list PendingExecutionCandidate;
  ru_batcher : MicroBatcher;
  ru_tasks : EvalState;                                 (* endpoints, pool cache, policy, counters *)
  ru_engine : Engine;                                   (* its endpoints and policy are those of the tasks *)
  ru_events : list Event;
  ru_stopped : bool }.
#[export] Instance Runtime_eta : RecordEta Runtime :=
  fields Build_Runtime
    <&> ru_config <&> ru_paused <&> ru_seen <&> ru_backpressure <&> ru_waiting <&> ru_lookups <&> ru_lookup_idle
    <&> ru_decoded <&> ru_evals <&> ru_eval_idle <&> ru_evaluated <&> ru_ready <&> ru_batcher <&> ru_tasks
    <&> ru_engine <&> ru_events <&> ru_stopped.

Definition listening (r : Runtime) : Prop := ru_stopped r = false /\ ru_waiting r = None.
Definition free_slots (r : Runtime) : nat := (LOOKUP_DECODE_QUEUE_CAPACITY - length (ru_lookups r))%nat.
Definition world_of (r : Runtime) : Rpc.World := rt_world (es_route (ru_tasks r)).
Definition with_world (w : Rpc.World) (s : EvalState) : EvalState := s <[ es_route ::= (es_route s) <[ rt_world ::= w ]> ]>.
Definition stop (r : Runtime) : Runtime := r <[ ru_stopped ::= true ]>.

(** ** The scan arm *)

Definition intake_of (r : Runtime) : Intake :=
  {| seen := ru_seen r; backpressure := ru_backpressure r; intake_world := world_of r |}.
Definition after_scan (i : Intake) (events : list Event) (r : Runtime) : Runtime :=
  r <[ ru_seen ::= seen i ]> <[ ru_backpressure ::= backpressure i ]>
    <[ ru_tasks ::= with_world (intake_world i) (ru_tasks r) ]> <[ ru_events ::= (ru_events r ++ events)%list ]>.
(** [lookup_decode_tx.send(task).await]. *)
Definition enqueue (task : option PendingHashTask) (r : Runtime) : Runtime :=
  match task with
  | None => r
  | Some task =>
      if (length (ru_lookups r) <? LOOKUP_DECODE_QUEUE_CAPACITY)%nat
      then r <[ ru_lookups ::= (ru_lookups r ++ [task])%list ]>
      else r <[ ru_waiting ::= Some task ]>
  end.

(** ** The workers *)

Definition lookup_done (s : EvalState) (result : option LookupDecodedCandidate) (r : Runtime) : Runtime :=
  let r := r <[ ru_tasks ::= s ]> in
  match result with
  | Some c => r <[ ru_lookup_idle ::= (ru_lookup_idle r - 1)%nat ]> <[ ru_decoded ::= (ru_decoded r ++ [c])%list ]>
  | None => r
  end.
Definition eval_done (s : EvalState) (result : option PendingExecutionCandidate) (r : Runtime) : Runtime :=
  let r := r <[ ru_tasks ::= s ]> in
  match result with
  | Some q => r <[ ru_eval_idle ::= (ru_eval_idle r - 1)%nat ]> <[ ru_evaluated ::= (ru_evaluated r ++ [q])%list ]>
  | None => r
  end.

(** ** Into the executor *)

Definition engine_of (policy : AdaptivePolicy) (r : Runtime) : Engine :=
  (ru_engine r) <[ Executor.world ::= world_of r ]> <[ Executor.adaptive ::= policy ]>.
Definition after_handle (e : Engine) (r : Runtime) : Runtime :=
  r <[ ru_engine ::= e ]>
    <[ ru_tasks ::= with_world (Executor.world e) (ru_tasks r) <[ es_adaptive ::= Some (Executor.adaptive e) ]> ]>.

Section Run.
Context {network_ : Endpoints} {host : Host} {around : Surroundings} {out : Outside}.

(** [executor.handle(best.opportunity).await] and the [?]: an error ends the loop. *)
Inductive handed : option PendingExecutionCandidate -> Runtime -> Runtime -> Prop :=
| handed_none r : handed None r r
| handed_done best policy e r :
    es_adaptive (ru_tasks r) = Some policy ->
    handle (ru_config r) (pc_opportunity best) (engine_of policy r) = Done (e, inr tt) ->
    handed (Some best) r (after_handle e r)
| handed_error best policy e err r :
    es_adaptive (ru_tasks r) = Some policy ->
    handle (ru_config r) (pc_opportunity best) (engine_of policy r) = Done (e, inl err) ->
    handed (Some best) r (stop (after_handle e r))
| handed_panicked best policy r :
    es_adaptive (ru_tasks r) = Some policy ->
    handle (ru_config r) (pc_opportunity best) (engine_of policy r) = Panicked ->
    handed (Some best) r (stop r).

(** What a task that panicked may have changed: a lookup does not touch the pools,
    an evaluation may have stored the pairs it fetched; neither panics while it
    holds the policy. *)
Definition lookup_leaves (s s' : EvalState) : Prop :=
  rt_cache (es_route s') = rt_cache (es_route s) /\ (is_Some (es_adaptive s) -> is_Some (es_adaptive s')).
Definition fetched_pair (pair : Address) (pool : CachedV2Pool) : Prop :=
  exists handle t0 t1 r0 r1, fetch_v2 (Chain := chain_of handle) pair = Some (t0, t1, (r0, r1)) /\
    c2_token0 pool = t0 /\ c2_token1 pool = t1 /\ c2_reserve0 pool = r0 /\ c2_reserve1 pool = r1.
Definition evaluation_leaves (s s' : EvalState) : Prop :=
  (forall pair e, v2_pools (rt_cache (es_route s')) !! pair = Some e ->
     v2_pools (rt_cache (es_route s)) !! pair = Some e \/ fetched_pair pair (data e)) /\
  (is_Some (es_adaptive s) -> is_Some (es_adaptive s')).

(** ** The steps *)

Inductive Label :=
| Scanned (item : PendingMempoolItem) (task : option PendingHashTask)
| PassedOn (task : PendingHashTask)
| LookupSkipped (task : PendingHashTask)
| LookedUp (task : PendingHashTask) (result : option LookupDecodedCandidate)
| LookupPanicked (task : PendingHashTask)
| DecodedSent (c : LookupDecodedCandidate)
| EvalSkipped (c : LookupDecodedCandidate)
| Evaluated (locks : EvalRead -> Locks) (c : LookupDecodedCandidate) (result : option PendingExecutionCandidate)
| EvalPanicked (c : LookupDecodedCandidate)
| ReadySent (q : PendingExecutionCandidate)
| ReadyRefused (q : PendingExecutionCandidate)
| Batched (q : PendingExecutionCandidate) (best : option PendingExecutionCandidate)
| Ticked (best : option PendingExecutionCandidate)
| LoopPanicked
| Elsewhere.

Context (min_large_swap_wei min_profit_wei : U256).
(** The configuration at each of the readings of a task. *)
Definition readings {Read} (r : Runtime) (locks : Read -> Locks) (read : Read) : Config :=
  with_locks (locks read) (ru_config r).
Abbreviation lookup_task r locks task :=
  (lookup_reading (readings r locks) task (ru_tasks r)).
Abbreviation eval_task r locks c :=
  (evaluation_reading (readings r locks) c min_large_swap_wei min_profit_wei (ru_tasks r)).

Inductive step : Runtime -> Label -> Runtime -> Prop :=
| step_scan item i task events r :
    listening r ->
    scan_item Routes.env Routes.clk avx2 (ru_config r) (ru_paused r) (free_slots r) item (intake_of r)
      = Done (i, task, events) ->
    step r (Scanned item task) (enqueue task (after_scan i events r))
| step_scan_panics item r :
    listening r ->
    scan_item Routes.env Routes.clk avx2 (ru_config r) (ru_paused r) (free_slots r) item (intake_of r) = Panicked ->
    step r LoopPanicked (stop r)
| step_admit task r :
    ru_stopped r = false -> ru_waiting r = Some task -> (0 < free_slots r)%nat ->
    step r (PassedOn task) (r <[ ru_waiting ::= None ]> <[ ru_lookups ::= (ru_lookups r ++ [task])%list ]>)
| step_lookup_skips task rest r :
    ru_lookups r = task :: rest -> (0 < ru_lookup_idle r)%nat -> ru_paused r = true ->
    step r (LookupSkipped task) (r <[ ru_lookups ::= rest ]>)
| step_lookup task locks rest s result r :
    ru_lookups r = task :: rest -> (0 < ru_lookup_idle r)%nat -> ru_paused r = false ->
    lookup_task r locks task = Done (s, result) ->
    step r (LookedUp task result) (lookup_done s result (r <[ ru_lookups ::= rest ]>))
| step_lookup_panics task locks rest s r :
    ru_lookups r = task :: rest -> (0 < ru_lookup_idle r)%nat -> ru_paused r = false ->
    lookup_task r locks task = Panicked -> lookup_leaves (ru_tasks r) s ->
    step r (LookupPanicked task)
      (r <[ ru_lookups ::= rest ]> <[ ru_lookup_idle ::= (ru_lookup_idle r - 1)%nat ]> <[ ru_tasks ::= s ]>)
| step_send_decoded i c r :
    ru_decoded r !! i = Some c -> (length (ru_evals r) < EVAL_QUEUE_CAPACITY)%nat ->
    step r (DecodedSent c)
      (r <[ ru_decoded ::= delete i (ru_decoded r) ]> <[ ru_evals ::= (ru_evals r ++ [c])%list ]>
         <[ ru_lookup_idle ::= S (ru_lookup_idle r) ]>)
| step_eval_skips c rest r :
    ru_evals r = c :: rest -> (0 < ru_eval_idle r)%nat -> ru_paused r = true ->
    step r (EvalSkipped c) (r <[ ru_evals ::= rest ]>)
| step_eval c locks rest s result r :
    ru_evals r = c :: rest -> (0 < ru_eval_idle r)%nat -> ru_paused r = false ->
    eval_task r locks c = Done (s, result) ->
    step r (Evaluated locks c result) (eval_done s result (r <[ ru_evals ::= rest ]>))
| step_eval_panics c locks rest s r :
    ru_evals r = c :: rest -> (0 < ru_eval_idle r)%nat -> ru_paused r = false ->
    eval_task r locks c = Panicked -> evaluation_leaves (ru_tasks r) s ->
    step r (EvalPanicked c)
      (r <[ ru_evals ::= rest ]> <[ ru_eval_idle ::= (ru_eval_idle r - 1)%nat ]> <[ ru_tasks ::= s ]>)
| step_send_ready i q r :
    ru_evaluated r !! i = Some q -> ru_stopped r = false -> (length (ru_ready r) < EVAL_QUEUE_CAPACITY)%nat ->
    step r (ReadySent q)
      (r <[ ru_evaluated ::= delete i (ru_evaluated r) ]> <[ ru_ready ::= (ru_ready r ++ [q])%list ]>
         <[ ru_eval_idle ::= S (ru_eval_idle r) ]>)
| step_refused i q r :
    (* the receiver went with the loop: the worker ends *)
    ru_evaluated r !! i = Some q -> ru_stopped r = true ->
    step r (ReadyRefused q) (r <[ ru_evaluated ::= delete i (ru_evaluated r) ]>)
| step_ready q rest pushed tested drained batcher best r r' :
    listening r -> ru_ready r = q :: rest ->
    batch_step (ru_batcher r) (Ready q pushed tested drained) = (batcher, best) ->
    handed best (r <[ ru_ready ::= rest ]> <[ ru_batcher ::= batcher ]>) r' ->
    step r (Batched q best) r'
| step_tick tested drained batcher best r r' :
    listening r ->
    batch_step (ru_batcher r) (FlushTick tested drained) = (batcher, best) ->
    handed best (r <[ ru_batcher ::= batcher ]>) r' ->
    step r (Ticked best) r'
| step_elsewhere paused locks w policy r :
    (is_Some (es_adaptive (ru_tasks r)) -> is_Some policy) ->
    step r Elsewhere
      (r <[ ru_paused ::= paused ]> <[ ru_config ::= with_locks locks (ru_config r) ]>
         <[ ru_tasks ::= with_world w (ru_tasks r) <[ es_adaptive ::= policy ]> ]>).

(** An evaluation under which the mode was changed as [torn] says. *)
Definition torn_evaluation (l : Label) : Prop :=
  match l with
  | Evaluated locks _ _ => torn (fun read => default Conservative (lk_mode (locks read)))
  | _ => False
  end.

(** The steps of a run, one after another. *)
Inductive steps : Runtime -> list Label -> Runtime -> Prop :=
| steps_nil r : steps r [] r
| steps_cons r l r1 ls r2 : step r l r1 -> steps r1 ls r2 -> steps r (l :: ls) r2.
End Run.

(** ** The start of [run] *)

Section Start.
Context {host : Host}.

(** [worker_count]. *)
Definition worker_count (env_name : string) (max_workers : nat) : nat :=
  match env env_name ≫= (fun value => parse_u64 (trim value)) with
  | Some parsed => Z.to_nat (Z.max 1 (Z.min parsed (Z.of_nat max_workers)))
  | None => Nat.max max_workers 1
  end.

(** [profiles] is what the storage answers to [outcome_profiles(3, 256)]; the clock is
    read for the back-pressure. *)
Definition start (config : Config) (w : Rpc.World) (profiles : string + list HistoricalOutcomeProfile)
    : outcome (string + (U256 * U256 * Runtime)) :=
  if bool_decide (ConfigEnv.mempool_ws_urls_of env config = []) then
    Done (inl "fee extraction runtime requires MEMPOOL websocket URL")
  else
    match parse_ether (display_f64 (effective_min_large_swap_eth (mev config))),
          parse_ether (display_f64 (effective_min_net_profit_eth (mev config))) with
    | inl err, _ => Done (inl err)
    | inr _, inl err => Done (inl err)
    | inr min_large_swap_wei, inr min_profit_wei =>
        let policy := AdaptivePolicy_new config in
        let policy := match profiles with inr l => apply_historical_profiles policy l | inl _ => policy end in
        match now_ clk w with
        | Panicked => Panicked
        | Done (w, now) =>
            Done (inr (min_large_swap_wei, min_profit_wei,
              {| ru_config := config; ru_paused := false; ru_seen := SeenTxs_new;
                 ru_backpressure := PendingLookupBackpressure_new now; ru_waiting := None; ru_lookups := [];
                 ru_lookup_idle := worker_count "MEV_LOOKUP_DECODE_WORKERS" LOOKUP_DECODE_WORKERS_MAX;
                 ru_decoded := []; ru_evals := [];
                 ru_eval_idle := worker_count "MEV_EVAL_WORKERS" EVAL_WORKERS_MAX;
                 ru_evaluated := []; ru_ready := []; ru_batcher := MicroBatcher_default;
                 ru_tasks := {| es_route := {| rt_world := w;
                                               rt_cache := PoolCache.new (pool_state_cache_ttl_ms (mev config)) |};
                                es_adaptive := Some policy; es_replay_counts := ∅; es_small := None; es_trace := [] |};
                 ru_engine := {| Executor.world := w; pnl := PnlTracker_default; Executor.adaptive := policy;
                                 last_treasury_signal := None; capital_budget := CapitalBudget_new;
                                 execution_guard := ExecutionGuard_default; trace := [] |};
                 ru_events := []; ru_stopped := false |}))
        end
    end.
End Start.
