(* ===== verification/LoopBooks.v ===== *)
(** * The books of the loop

    Every queue of the loop holds what was sent into it and not yet taken: nothing
    is lost between the parts and nothing taken twice; the queues, the batch and
    the workers keep to their numbers. *)
From S2P Require Import Prelude F64 Text Ethers Config Rpc PoolCache Opportunity Adaptive Executor.
From S2P Require Import Intake IntakeFacts Batch BatchFacts Routes Evaluate Lookup MainLoop.
#[local] Open Scope nat_scope.

(** ** What a step sends and takes *)

Definition sent (l : Label) : option PendingHashTask := match l with Scanned _ task => task | _ => None end.
Definition taken (l : Label) : option PendingHashTask :=
  match l with LookupSkipped task | LookedUp task _ | LookupPanicked task => Some task | _ => None end.
Definition decoded (l : Label) : option LookupDecodedCandidate := match l with LookedUp _ c => c | _ => None end.
Definition examined (l : Label) : option LookupDecodedCandidate :=
  match l with EvalSkipped c | Evaluated _ c _ | EvalPanicked c => Some c | _ => None end.
Definition evaluated (l : Label) : option PendingExecutionCandidate := match l with Evaluated _ _ q => q | _ => None end.
Definition batched (l : Label) : option PendingExecutionCandidate := match l with Batched q _ => Some q | _ => None end.
Definition refused (l : Label) : option PendingExecutionCandidate := match l with ReadyRefused q => Some q | _ => None end.
(** What the loop hands to the executor in a step. *)
Definition handed_over (l : Label) : option PendingExecutionCandidate :=
  match l with Batched _ best | Ticked best => best | _ => None end.
Definition lookup_lost (l : Label) : option PendingHashTask := match l with LookupPanicked t => Some t | _ => None end.
Definition eval_lost (l : Label) : option LookupDecodedCandidate := match l with EvalPanicked c => Some c | _ => None end.

(** The books of a run with so many workers. *)
Record books (lookup_workers eval_workers : nat) (ls : list Label) (r : Runtime) : Prop := {
  bk_tasks : omap sent ls = omap taken ls ++ ru_lookups r ++ option_list (ru_waiting r);
  bk_decoded : omap decoded ls ≡ₚ omap examined ls ++ ru_evals r ++ ru_decoded r;
  bk_evaluated : omap evaluated ls ≡ₚ omap batched ls ++ omap refused ls ++ ru_ready r ++ ru_evaluated r;
  bk_batched : omap batched ls ≡ₚ omap handed_over ls ++ candidates (ru_batcher r);
  bk_lookups : length (ru_lookups r) <= LOOKUP_DECODE_QUEUE_CAPACITY;
  bk_evals : length (ru_evals r) <= EVAL_QUEUE_CAPACITY;
  bk_ready : length (ru_ready r) <= EVAL_QUEUE_CAPACITY;
  bk_batch : length (candidates (ru_batcher r)) < MICROBATCH_MAX_CANDIDATES;
  bk_lookup_workers : ru_lookup_idle r + length (ru_decoded r) + length (omap lookup_lost ls) = lookup_workers;
  bk_eval_workers :
    ru_eval_idle r + length (ru_evaluated r) + length (omap eval_lost ls) + length (omap refused ls) = eval_workers }.

(** What a run that started starts from. *)
Ltac started H :=
  unfold start in H; destruct (bool_decide _); [discriminate H|];
  destruct (parse_ether _); [discriminate H|]; destruct (parse_ether _); [discriminate H|];
  destruct (now_ _ _) as [[? ?]|]; [|discriminate H]; injection H as <- <- <-.

Section Books.
Context {network_ : Endpoints} {host : Host} {around : Surroundings} {out : Outside}.
Context (min_large_swap_wei min_profit_wei : U256).
Abbreviation step := (step min_large_swap_wei min_profit_wei).
Abbreviation steps := (steps min_large_swap_wei min_profit_wei).

(** The executor touches nothing but its own state and what is shared with the tasks. *)
Lemma handed_keeps best r r' : handed best r r' ->
  ru_lookups r' = ru_lookups r /\ ru_waiting r' = ru_waiting r /\ ru_lookup_idle r' = ru_lookup_idle r /\
  ru_decoded r' = ru_decoded r /\ ru_evals r' = ru_evals r /\ ru_eval_idle r' = ru_eval_idle r /\
  ru_evaluated r' = ru_evaluated r /\ ru_ready r' = ru_ready r /\ ru_batcher r' = ru_batcher r.
Proof. intros H. by inversion H. Qed.

(** Moving one entry on. *)
Lemma grows {A} (l a b : list A) x : l ≡ₚ a ++ b -> l ++ [x] ≡ₚ a ++ b ++ [x].
Proof. intros ->. by rewrite app_assoc. Qed.
Lemma moves_on {A} (l a b c : list A) i x : c !! i = Some x -> l ≡ₚ a ++ b ++ c -> l ≡ₚ a ++ (b ++ [x]) ++ delete i c.
Proof.
  intros E ->. rewrite (delete_Permutation c i x E) at 1. rewrite <- app_assoc. done.
Qed.
Lemma is_taken {A} (l a c : list A) x b : l ≡ₚ a ++ (x :: b) ++ c -> l ≡ₚ (a ++ [x]) ++ b ++ c.
Proof. intros ->. by rewrite <- !app_assoc. Qed.

Ltac books := split; simpl; rewrite ?omap_app, ?app_nil_r; simpl; rewrite ?length_app, ?app_nil_r; simpl; try done; try lia.

Lemma books_step n m ls r l r' : step r l r' -> books n m ls r -> books n m (ls ++ [l]) r'.
Proof.
  intros S [T D V B L1 L2 L3 L4 W1 W2].
  destruct S.
  - unfold enqueue. destruct H as [_ H]. rewrite H in T. simpl in T. rewrite app_nil_r in T. destruct task as [t|]; simpl.
    + destruct (_ <? _) eqn:F; [apply Nat.ltb_lt in F|]; books.
      * rewrite H. simpl. rewrite T, app_nil_r. by rewrite app_assoc.
      * by rewrite T, <- app_assoc.
    + books. rewrite H. by rewrite T, app_nil_r.
  - books.
  - unfold free_slots in *. rewrite H0 in T. books.
  - rewrite H in *. simpl in *. books. by rewrite T, <- app_assoc.
  - rewrite H in *. unfold lookup_done. destruct result as [c|]; simpl in *; books.
    + by rewrite T, <- app_assoc.
    + by rewrite (app_assoc (ru_evals r)), app_assoc, D, app_assoc.
    + by rewrite T, <- app_assoc.
  - rewrite H in *. simpl in *. books. by rewrite T, <- app_assoc.
  - assert (P := lookup_lt_Some _ _ _ H). books; [by apply moves_on|]. rewrite length_delete by eauto. lia.
  - rewrite H in *. simpl in *. books. by apply is_taken.
  - rewrite H in *. unfold eval_done. destruct result as [q|]; simpl in *; books; try by apply is_taken.
    by rewrite !app_assoc, V, !app_assoc.
  - rewrite H in *. simpl in *. books. by apply is_taken.
  - assert (P := lookup_lt_Some _ _ _ H). books.
    + rewrite app_assoc. apply moves_on; [done|]. by rewrite <- app_assoc.
    + rewrite length_delete by eauto. lia.
  - assert (P := lookup_lt_Some _ _ _ H). books.
    + rewrite V, (delete_Permutation (ru_evaluated r) i q H) at 1. solve_Permutation.
    + rewrite length_delete by eauto. lia.
  - pose proof (batch_step_perm _ _ _ _ H1) as P. pose proof (batch_step_short _ _ _ _ L4 H1) as Q. simpl in P.
    destruct (handed_keeps _ _ _ H2) as (E1 & E2 & E3 & E4 & E5 & E6 & E7 & E8 & E9). simpl in E1, E2, E3, E4, E5, E6, E7, E8, E9.
    rewrite H0 in V, L3. simpl in L3.
    books; rewrite ?E1, ?E2, ?E3, ?E4, ?E5, ?E6, ?E7, ?E8, ?E9; try done; try lia.
    + rewrite V. solve_Permutation.
    + rewrite B, <- app_assoc, <- P. destruct best; simpl; by rewrite <- ?app_assoc.
  - pose proof (batch_step_perm _ _ _ _ H0) as P. pose proof (batch_step_short _ _ _ _ L4 H0) as Q.
    destruct (handed_keeps _ _ _ H1) as (E1 & E2 & E3 & E4 & E5 & E6 & E7 & E8 & E9). simpl in E1, E2, E3, E4, E5, E6, E7, E8, E9.
    simpl in P. rewrite app_nil_r in P.
    books; rewrite ?E1, ?E2, ?E3, ?E4, ?E5, ?E6, ?E7, ?E8, ?E9; try done; try lia.
    rewrite B, <- P. destruct best; simpl; by rewrite <- ?app_assoc.
  - books.
Qed.

Lemma books_steps n m ls r ls' r' : steps r ls' r' -> books n m ls r -> books n m (ls ++ ls') r'.
Proof.
  intros S. revert ls. induction S as [r|r l r1 ls' r2 S _ IH]; intros ls B; [by rewrite app_nil_r|].
  replace (ls ++ l :: ls') with ((ls ++ [l]) ++ ls') by by rewrite <- app_assoc.
  apply IH. by eapply books_step.
Qed.

Lemma start_books config w profiles m1 m2 r : start config w profiles = Done (inr (m1, m2, r)) ->
  books (ru_lookup_idle r) (ru_eval_idle r) [] r.
Proof.
  intros H. started H.
  split; simpl; try done; unfold MICROBATCH_MAX_CANDIDATES; lia.
Qed.

(** ** Each transaction once *)

Definition scans (l : Label) : option PendingMempoolItem := match l with Scanned item _ => Some item | _ => None end.
(** As long as the window of hashes has not moved, the tasks sent have hashes of their own. *)
Record fresh_tasks (ls : list Label) (r : Runtime) : Prop := {
  fr_seen : seen_inv (ru_seen r);
  fr_length : length (seen_order (ru_seen r)) <= length (omap scans ls);
  fr_nodup : NoDup (task_hash <$> omap sent ls);
  fr_known : forall t, t ∈ omap sent ls -> task_hash t ∈ seen_order (ru_seen r) }.

Lemma seen_elsewhere r l r' : step r l r' -> scans l = None -> ru_seen r' = ru_seen r /\ sent l = None.
Proof.
  intros S N. destruct S; try done; try (by unfold lookup_done, eval_done; case_match).
  all: split; [|done]; match goal with H : handed _ _ _ |- _ => by inversion H end.
Qed.
Lemma fresh_step ls r l r' : step r l r' -> length (omap scans ls) < SEEN_CAPACITY ->
  fresh_tasks ls r -> fresh_tasks (ls ++ [l]) r'.
Proof.
  intros S L [I Le N K]. destruct (scans l) as [item'|] eqn:E.
  - destruct S; try done. injection E as <-.
    destruct (scan_item_seen _ _ _ _ _ _ _ (intake_of r) _ _ _ I H0) as [I' C].
    assert (Q : ru_seen (enqueue task (after_scan i events r)) = seen i) by (unfold enqueue; by repeat case_match).
    destruct C as [[C ->]|[C T]]; simpl in C.
    + split; rewrite ?Q, ?omap_app; simpl; rewrite ?app_nil_r; try done; [rewrite length_app; simpl; rewrite C; lia|].
      intros t M. rewrite C. by apply K.
    + apply window_mark_grows in C as [C O]; [|unfold SEEN_CAPACITY in *; simpl in *; lia].
      split; rewrite ?Q, ?omap_app; try done.
      * rewrite C, !length_app. simpl in *. lia.
      * simpl. destruct task as [t|]; simpl; [|by rewrite app_nil_r]. rewrite fmap_app. apply NoDup_app.
        split_and!; [done| |apply NoDup_singleton]. intros h (t' & -> & M)%list_elem_of_fmap.
        cbn. intros Q'%list_elem_of_singleton. apply O. rewrite (T t eq_refl) in Q'. rewrite <- Q'. by apply K.
      * rewrite C. simpl. intros t [M|M]%elem_of_app; [apply elem_of_app; left; by apply K|].
        destruct task as [t'|]; simpl in M; [|by apply elem_of_nil in M]. apply list_elem_of_singleton in M. subst.
        rewrite (T t' eq_refl). apply elem_of_app. right. by left.
  - destruct (seen_elsewhere _ _ _ S E) as [Q N'].
    split; rewrite ?Q, ?omap_app; simpl; rewrite ?E, ?N'; simpl; rewrite ?app_nil_r; done.
Qed.
Lemma fresh_steps ls r ls' r' : steps r ls' r' -> length (omap scans (ls ++ ls')) <= SEEN_CAPACITY ->
  fresh_tasks ls r -> fresh_tasks (ls ++ ls') r'.
Proof.
  intros S. revert ls. induction S as [r|r l r1 ls' r2 S _ IH]; intros ls L F; [by rewrite app_nil_r|].
  assert (E : ls ++ l :: ls' = (ls ++ [l]) ++ ls') by by rewrite <- app_assoc. rewrite E in *.
  apply IH; [done|]. destruct (scans l) as [item|] eqn:Q.
  - eapply fresh_step; [done| |done]. rewrite !omap_app, !length_app in L. simpl in L. rewrite Q in L. simpl in L. lia.
  - destruct F as [I Le N K]. destruct (seen_elsewhere _ _ _ S Q) as [Q' N'].
    split; rewrite ?Q', ?omap_app; simpl; rewrite ?Q, ?N'; simpl; rewrite ?app_nil_r; done.
Qed.
Lemma start_fresh config w profiles m1 m2 r : start config w profiles = Done (inr (m1, m2, r)) -> fresh_tasks [] r.
Proof.
  intros H. started H.
  split; simpl; [apply seen_new_inv|done|constructor|by intros t ?%elem_of_nil].
Qed.

(** ** A loop without lookup workers *)

(** What the loop itself does in a step. *)
Definition arm (l : Label) : bool :=
  match l with Scanned _ _ | PassedOn _ | Batched _ _ | Ticked _ | LoopPanicked => true | _ => false end.
Definition deserted (r : Runtime) : Prop := ru_lookup_idle r = 0 /\ ru_decoded r = [].

#[local] Opaque LOOKUP_DECODE_QUEUE_CAPACITY.
Lemma deserted_step r l r' : step r l r' -> deserted r ->
  deserted r' /\ taken l = None /\ decoded l = None /\
  ru_lookups r' ++ option_list (ru_waiting r') = ru_lookups r ++ option_list (ru_waiting r) ++ option_list (sent l) /\
  (is_Some (ru_waiting r) -> free_slots r = 0 ->
     arm l = false /\ ru_waiting r' = ru_waiting r /\ ru_lookups r' = ru_lookups r).
Proof.
  intros S [I D]. destruct S; try match goal with L : listening _ |- _ => destruct L as [_ L] end;
    try lia; try (by rewrite D in H).
  - rewrite H. unfold enqueue. destruct task as [t|]; [destruct (_ <? _)|]; simpl; rewrite ?app_nil_r;
      split_and!; try done; try (split; done); try (by intros [? ?]); by rewrite H, ?app_nil_r.
  - split_and!; try done; simpl; [by rewrite app_nil_r|]. rewrite H. by intros [? ?].
  - split_and!; try done; simpl; [rewrite H0; simpl; by rewrite app_nil_r|]. lia.
  - split_and!; try done; simpl. by rewrite app_nil_r.
  - unfold eval_done. destruct result; split_and!; try done; simpl; by rewrite app_nil_r.
  - split_and!; try done; simpl. by rewrite app_nil_r.
  - split_and!; try done; simpl. by rewrite app_nil_r.
  - split_and!; try done; simpl. by rewrite app_nil_r.
  - destruct (handed_keeps _ _ _ H2) as (E1 & E2 & E3 & E4 & _). unfold deserted. rewrite E1, E2, E3, E4. simpl.
    split_and!; try done; [by rewrite app_nil_r|rewrite H; by intros [? ?]].
  - destruct (handed_keeps _ _ _ H1) as (E1 & E2 & E3 & E4 & _). unfold deserted. rewrite E1, E2, E3, E4. simpl.
    split_and!; try done; [by rewrite app_nil_r|rewrite H; by intros [? ?]].
  - split_and!; try done; simpl. by rewrite app_nil_r.
Qed.
Lemma deserted_steps r ls r' : steps r ls r' -> deserted r ->
  omap taken ls = [] /\ omap decoded ls = [] /\
  ru_lookups r' ++ option_list (ru_waiting r') = ru_lookups r ++ option_list (ru_waiting r) ++ omap sent ls /\
  (is_Some (ru_waiting r) -> free_slots r = 0 -> Forall (fun l => arm l = false) ls).
Proof.
  induction 1 as [r|r l r1 ls r2 S _ IH]; intros D; [by rewrite app_nil_r|].
  destruct (deserted_step _ _ _ S D) as (D1 & T & C & Q & A). destruct (IH D1) as (Ts & Cs & Qs & As).
  split_and!; simpl.
  - by rewrite T.
  - by rewrite C.
  - rewrite Qs, app_assoc, Q. rewrite <- !app_assoc. by destruct (sent l).
  - intros W F. destruct (A W F) as (A1 & W1 & F1). constructor; [done|]. apply As; [by rewrite W1|unfold free_slots; by rewrite F1].
Qed.
End Books.
