(* ===== verification/MainLoopFacts.v ===== *)
(** * Lemmas on the loop of the runtime

    What every step keeps: well-formed pools, candidates of unsigned numbers and,
    with them, an executor that is never called; the books of the queues. *)
From S2P Require Import Prelude F64 Text Ethers Config Rpc PoolCache Opportunity Adaptive Executor Calldata Decode EnvVars.
From S2P Require Import Intake Batch BatchFacts Routes RouteFacts Evaluate EvaluateFacts Lookup LookupProps AmountFacts MainLoop LoopBooks.
#[local] Open Scope Z_scope.

(** ** Numbers of unsigned types *)

Definition tx_typed (tx : Transaction) : Prop := 0 <= tx_value tx /\ 0 <= victim_gas_price tx.
Definition task_typed (t : PendingHashTask) : Prop := forall tx, task_pending_tx t = Some tx -> tx_typed tx.
Definition candidate_typed (c : LookupDecodedCandidate) : Prop :=
  0 <= ld_gas_price c /\ 0 <= sw_amount_in (ld_signal c).
Definition config_typed (config : Config) : Prop :=
  0 <= gas_safety_margin_bps (mev config) /\ 0 <= max_gas_per_tx (mev config).
Definition item_typed (item : PendingMempoolItem) : Prop :=
  match item with ItemHash _ => True | ItemFull tx => tx_typed tx end.
Definition label_typed (l : Label) : Prop := match l with Scanned item _ => item_typed item | _ => True end.

Section Facts.
Context {network_ : Endpoints} {host : Host} {around : Surroundings} {out : Outside}.

Lemma scanned_typed config paused free item i i' task events :
  item_typed item -> scan_item Routes.env Routes.clk avx2 config paused free item i = Done (i', task, events) ->
  forall t, task = Some t -> task_typed t.
Proof.
  intros T H t E. subst task. unfold scan_item in H. destruct paused; [done|].
  destruct (mark_seen_tx _ _) as [s fresh]. destruct fresh; [|done]. simpl in H. destruct item as [h|tx].
  - destruct (should_enqueue _ _ _ _ _ _) as [[w [[bp allowed] evs]]|]; [|done].
    destruct allowed; simplify_eq. by intros ?.
  - destruct (pre_decode_tx_gate _ _ _ tx) as [[why|]|]; simpl in H; [| |done].
    + by destruct (decode_reject_selector_reason _ tx).
    + simplify_eq. by intros ? [= <-].
Qed.

(** ** The tasks of the workers *)

Section Tasks.
Context (config : LookupRead -> Config).

Lemma ends_world {A} (m : RpcM A) : ends (fun _ => True) (on_route (on_world m)).
Proof. apply ends_route, yields_world. Qed.
Lemma ends_small_budget : ends (fun _ => True) small_budget_step.
Proof.
  intros s s' r W H. unfold small_budget_step in H.
  destruct ((now ≫= _) s) as [[s1 [[opened t]|]]|] eqn:E; [| |done];
    (assert (W1 : state_ok s1) by
      (eapply (ends_bind (fun _ => True) (fun _ => True) now); [apply ends_now| |exact W|exact E];
       intros ? _; eapply ends_bind; [apply ends_now|]; intros ? _; by apply ends_ret)).
  - destruct (allow_small_scavenger_candidate _ _). by injection H as <- <-.
  - by injection H as <- <-.
Qed.
#[local] Hint Resolve ends_world ends_small_budget : tasks.
Lemma lookup_ends task : ends (fun _ => True) (lookup_reading config task).
Proof.
  unfold lookup_reading, find_transaction, gate_step, selector_reason, decode_step, context_step,
    lane_step, block_step.
  repeat ends_step.
Qed.

Lemma lookup_decodes task s s' c : lookup_reading config task s = Done (s', Some c) ->
  (task_pending_tx task = Some (ld_tx c) \/ exists h hash, query_transaction h hash = inr (Some (ld_tx c))) /\
  ld_gas_price c = victim_gas_price (ld_tx c) /\
  exists mn, decode_relevant_swap abi_decode display_f64 parse_ether (monitored_tokens (config AtDecode)) avx2 (ld_tx c) mn
               (opportunity_mode (mev (config AtDecode))) = Done (Some (ld_signal c)).
Proof.
  unfold lookup_reading. intros H. invert_task H. subst c.
  apply find_transaction_some in E0. apply decode_step_some in E2 as [D _]. split_and!; [|done|by eexists].
  destruct (task_pending_tx task) as [pending|]; [left; by rewrite E0|right].
  destruct E0 as [h E0]. by exists h, (task_hash task).
Qed.
End Tasks.

(** ** An executor that is never called *)

Context (min_large_swap_wei min_profit_wei : U256).
Context (CO : forall handle, chain_ok (chain_of handle)) `{!AbiUnsigned abi_decode}.
Context (QT : forall handle hash tx, query_transaction handle hash = inr (Some tx) -> tx_typed tx).
Abbreviation step := (step min_large_swap_wei min_profit_wei).
Abbreviation steps := (steps min_large_swap_wei min_profit_wei).

Record dormant (e : Engine) (r : Runtime) : Prop := {
  dm_pools : state_ok (ru_tasks r);
  dm_tasks : Forall task_typed (ru_lookups r);
  dm_waiting : forall t, ru_waiting r = Some t -> task_typed t;
  dm_decoded : Forall candidate_typed (ru_decoded r);
  dm_evals : Forall candidate_typed (ru_evals r);
  dm_config : config_typed (ru_config r);
  dm_evaluated : ru_evaluated r = [];
  dm_ready : ru_ready r = [];
  dm_batch : candidates (ru_batcher r) = [];
  dm_engine : ru_engine r = e }.

Lemma lookup_typed config task s s' c : task_typed task ->
  lookup_reading config task s = Done (s', Some c) -> candidate_typed c.
Proof.
  intros T H. apply lookup_decodes in H as (F & G & mn & D).
  assert (X : tx_typed (ld_tx c)) by (destruct F as [F|(h & hash & F)]; [by apply T|by eapply QT]).
  destruct X as [V P]. split; [by rewrite G|]. by eapply relevant_swap_pays.
Qed.

Lemma evaluation_leaves_ok s s' : state_ok s -> evaluation_leaves s s' -> state_ok s'.
Proof.
  intros W [L _] pair e E. apply L in E as [E|(handle & t0 & t1 & r0 & r1 & F & T0 & T1 & R0 & R1)]; [by apply W in E|].
  apply CO in F as (U0 & U1 & D). subst. split; simpl; done.
Qed.

Lemma idle_batch b e b' best : received [e] = [] -> candidates b = [] -> batch_step b e = (b', best) ->
  best = None /\ candidates b' = [].
Proof.
  intros R C H. apply batch_step_perm in H. rewrite C, R in H. simpl in H. apply Permutation_nil_r in H.
  by apply app_eq_nil in H as [H ->]; destruct best.
Qed.

(** The field of the goal that a step changes, from what is known of the others. *)
Ltac dormant := split; simpl; try done; eauto.

Lemma dormant_scan e item i task events r : dormant e r -> item_typed item ->
  scan_item Routes.env Routes.clk avx2 (ru_config r) (ru_paused r) (free_slots r) item (intake_of r)
    = Done (i, task, events) ->
  dormant e (enqueue task (after_scan i events r)).
Proof.
  intros [P K W C V G E R B N] T S. pose proof (scanned_typed _ _ _ _ _ _ _ _ T S) as KT.
  destruct task as [t|]; simpl; [|dormant]. specialize (KT t eq_refl).
  destruct (_ <? _)%nat; dormant; [apply Forall_app; auto|by intros ? [= <-]].
Qed.
Lemma dormant_lookup e task locks rest s result r : dormant e r -> ru_lookups r = task :: rest ->
  lookup_reading (readings r locks) task (ru_tasks r) = Done (s, result) ->
  dormant e (lookup_done s result (r <[ ru_lookups ::= rest ]>)).
Proof.
  intros [P K W C V G E R B N] Q H. rewrite Q in K. apply Forall_cons in K as [KT K].
  assert (P' : state_ok s) by by destruct (lookup_ends _ _ _ _ _ P H).
  destruct result as [c|]; simpl; dormant. apply Forall_app. split; [done|]. constructor; [|done].
  by eapply lookup_typed.
Qed.
Lemma dormant_eval e c locks rest s result r : dormant e r -> ru_evals r = c :: rest ->
  ~ torn_evaluation (Evaluated locks c result) ->
  evaluation_reading (readings r locks) c min_large_swap_wei min_profit_wei (ru_tasks r) = Done (s, result) ->
  result = None /\ dormant e (eval_done s result (r <[ ru_evals ::= rest ]>)).
Proof.
  intros [P K W C V G E R B N] Q NT H. rewrite Q in V. apply Forall_cons in V as [[VG VA] V].
  assert (U : forall handle, unsigned (readings r locks (AtBuilder handle)) (ld_gas_price c))
    by (intros handle; destruct G as [G1 G2]; exact (conj G1 (conj G2 VG))).
  destruct (evaluation_ends_torn (readings r locks) CO c _ _ U VA _ _ _ P H) as [P' F].
  destruct result as [q|]; [by destruct NT; apply (F q)|]. split; [done|]. simpl. dormant.
Qed.
Lemma dormant_handed e best r r' : handed best r r' -> best = None -> dormant e r -> dormant e r'.
Proof. intros H ->. by inversion H. Qed.

Lemma dormant_step e r l r' : step r l r' -> label_typed l -> ~ torn_evaluation l -> dormant e r -> dormant e r' /\ handed_over l = None.
Proof.
  intros S T NT D. pose proof D as [P K W C V G E R B N].
  destruct S; simpl in T; try (split; [|done]).
  - by eapply dormant_scan.
  - dormant.
  - dormant. apply Forall_app. auto.
  - dormant. rewrite H in K. by apply Forall_cons in K as [_ K].
  - by eapply dormant_lookup.
  - rewrite H in K. apply Forall_cons in K as [_ K]. dormant. destruct H3 as [L _]. unfold state_ok. by rewrite L.
  - dormant; [by apply Forall_delete|]. apply Forall_app. split; [done|]. constructor; [|done]. exact (Forall_lookup_1 _ _ _ _ C H).
  - dormant. rewrite H in V. by apply Forall_cons in V as [_ V].
  - by destruct (dormant_eval _ _ _ _ _ _ _ D H NT H2).
  - rewrite H in V. apply Forall_cons in V as [_ V]. dormant. by eapply evaluation_leaves_ok.
  - by rewrite E in H.
  - by rewrite E in H.
  - by rewrite R in H0.
  - destruct (idle_batch _ (FlushTick tested drained) _ _ eq_refl B H0) as [-> B']. split; [|done]. eapply dormant_handed; [done..|]. dormant.
  - dormant.
Qed.

Lemma dormant_steps e r ls r' : steps r ls r' -> Forall label_typed ls ->
  Forall (fun l => ~ torn_evaluation l) ls -> dormant e r ->
  dormant e r' /\ Forall (fun l => handed_over l = None) ls.
Proof.
  induction 1 as [r|r l r1 ls r2 S _ IH]; intros T NT D; [by split|].
  apply Forall_cons in T as [T Ts]. apply Forall_cons in NT as [NT NTs].
  destruct (dormant_step _ _ _ _ S T NT D) as [D1 N]. destruct (IH Ts NTs D1) as [D2 Ns]. split; [done|by constructor].
Qed.
End Facts.
