(* ===== verification/LoopTurns.v ===== *)
(** * Turns of the loop

    A scheduler: which step is taken is decided by a turn, so that a run is
    computed; every turn is a step of the loop. *)
From S2P Require Import Prelude F64 Text Ethers Config Rpc PoolCache Opportunity Adaptive Executor.
From S2P Require Import Intake Batch Routes Evaluate Lookup MainLoop.
#[local] Open Scope Z_scope.

Section Scheduler.
Context {network_ : Endpoints} {host : Host} {around : Surroundings} {out : Outside}.

(** Who takes the next turn. A task that panics leaves what it found. *)
Inductive Turn :=
| Scan (item : PendingMempoolItem)
| LookupTurn
| SendDecoded
| EvalTurn (locks : EvalRead -> Locks)
| SendReady
| Receive (pushed tested drained : Instant)
| Tick (tested drained : Instant).

Definition hand (best : option PendingExecutionCandidate) (r : Runtime) : option Runtime :=
  match best with
  | None => Some r
  | Some best =>
      policy ← es_adaptive (ru_tasks r);
      Some match handle (ru_config r) (pc_opportunity best) (engine_of policy r) with
           | Done (e, inr tt) => after_handle e r
           | Done (e, inl _) => stop (after_handle e r)
           | Panicked => stop r
           end
  end.
Definition can_listen (r : Runtime) : bool :=
  negb (ru_stopped r) && match ru_waiting r with None => true | Some _ => false end.
Definition take_turn (min_swap min_profit : U256) (turn : Turn) (r : Runtime) : option (Label * Runtime) :=
  match turn with
  | Scan item =>
      if can_listen r then
        match scan_item Routes.env Routes.clk avx2 (ru_config r) (ru_paused r) (free_slots r) item (intake_of r) with
        | Done (i, task, events) => Some (Scanned item task, enqueue task (after_scan i events r))
        | Panicked => Some (LoopPanicked, stop r)
        end
      else None
  | LookupTurn =>
      match ru_lookups r with
      | task :: rest =>
          if (0 <? ru_lookup_idle r)%nat then
            if ru_paused r then Some (LookupSkipped task, r <[ ru_lookups ::= rest ]>)
            else
              match lookup_reading (readings r (fun _ => locks_of (ru_config r))) task (ru_tasks r) with
              | Done (s, result) => Some (LookedUp task result, lookup_done s result (r <[ ru_lookups ::= rest ]>))
              | Panicked =>
                  Some (LookupPanicked task,
                        r <[ ru_lookups ::= rest ]> <[ ru_lookup_idle ::= (ru_lookup_idle r - 1)%nat ]>
                          <[ ru_tasks ::= ru_tasks r ]>)
              end
          else None
      | [] => None
      end
  | SendDecoded =>
      match ru_decoded r !! 0%nat with
      | Some c =>
          if (length (ru_evals r) <? EVAL_QUEUE_CAPACITY)%nat then
            Some (DecodedSent c,
                  r <[ ru_decoded ::= delete 0%nat (ru_decoded r) ]> <[ ru_evals ::= (ru_evals r ++ [c])%list ]>
                    <[ ru_lookup_idle ::= S (ru_lookup_idle r) ]>)
          else None
      | None => None
      end
  | EvalTurn locks =>
      match ru_evals r with
      | c :: rest =>
          if (0 <? ru_eval_idle r)%nat then
            if ru_paused r then Some (EvalSkipped c, r <[ ru_evals ::= rest ]>)
            else
              match evaluation_reading (readings r locks) c min_swap min_profit (ru_tasks r) with
              | Done (s, result) => Some (Evaluated locks c result, eval_done s result (r <[ ru_evals ::= rest ]>))
              | Panicked =>
                  Some (EvalPanicked c,
                        r <[ ru_evals ::= rest ]> <[ ru_eval_idle ::= (ru_eval_idle r - 1)%nat ]>
                          <[ ru_tasks ::= ru_tasks r ]>)
              end
          else None
      | [] => None
      end
  | SendReady =>
      match ru_evaluated r !! 0%nat with
      | Some q =>
          if negb (ru_stopped r) && (length (ru_ready r) <? EVAL_QUEUE_CAPACITY)%nat then
            Some (ReadySent q,
                  r <[ ru_evaluated ::= delete 0%nat (ru_evaluated r) ]> <[ ru_ready ::= (ru_ready r ++ [q])%list ]>
                    <[ ru_eval_idle ::= S (ru_eval_idle r) ]>)
          else None
      | None => None
      end
  | Receive pushed tested drained =>
      match ru_ready r with
      | q :: rest =>
          if can_listen r then
            let '(batcher, best) := batch_step (ru_batcher r) (Ready q pushed tested drained) in
            r' ← hand best (r <[ ru_ready ::= rest ]> <[ ru_batcher ::= batcher ]>); Some (Batched q best, r')
          else None
      | [] => None
      end
  | Tick tested drained =>
      if can_listen r then
        let '(batcher, best) := batch_step (ru_batcher r) (FlushTick tested drained) in
        r' ← hand best (r <[ ru_batcher ::= batcher ]>); Some (Ticked best, r')
      else None
  end.
Fixpoint take_turns (min_swap min_profit : U256) (turns : list Turn) (r : Runtime) : option (list Label * Runtime) :=
  match turns with
  | [] => Some ([], r)
  | turn :: turns =>
      '(l, r) ← take_turn min_swap min_profit turn r;
      '(ls, r) ← take_turns min_swap min_profit turns r; Some (l :: ls, r)
  end.

Lemma can_listen_true r : can_listen r = true -> listening r.
Proof. unfold can_listen, listening. destruct (ru_stopped r), (ru_waiting r); done. Qed.
Lemma hand_handed best r r' : hand best r = Some r' -> handed best r r'.
Proof.
  unfold hand. destruct best as [best|]; [|by intros [= <-]; constructor].
  destruct (es_adaptive (ru_tasks r)) as [policy|] eqn:P; [|done]. simpl. intros [= <-].
  destruct (handle _ _ _) as [[e [err|[]]]|] eqn:H.
  - by eapply handed_error.
  - by eapply handed_done.
  - by eapply handed_panicked.
Qed.
Lemma turn_step min_swap min_profit turn r l r' :
  take_turn min_swap min_profit turn r = Some (l, r') -> step min_swap min_profit r l r'.
Proof.
  destruct turn as [item| | |locks| |pushed tested drained|tested drained]; cbn [take_turn].
  - destruct (can_listen r) eqn:L; [|done]. apply can_listen_true in L.
    destruct (scan_item _ _ _ _ _ _ _ _) as [[[i task] events]|] eqn:S; intros [= <- <-].
    + by apply step_scan.
    + by eapply step_scan_panics.
  - destruct (ru_lookups r) as [|task rest] eqn:Q; [done|]. destruct (_ <? _)%nat eqn:I; [|done].
    apply Nat.ltb_lt in I. destruct (ru_paused r) eqn:P; [intros [= <- <-]; by apply step_lookup_skips|].
    destruct (lookup_reading _ _ _) as [[s result]|] eqn:T; intros [= <- <-].
    + by eapply step_lookup.
    + by eapply step_lookup_panics.
  - destruct (ru_decoded r !! 0%nat) as [c|] eqn:Q; [|done]. destruct (_ <? _)%nat eqn:I; [|done].
    apply Nat.ltb_lt in I. intros [= <- <-]. by apply step_send_decoded.
  - destruct (ru_evals r) as [|c rest] eqn:Q; [done|]. destruct (_ <? _)%nat eqn:I; [|done].
    apply Nat.ltb_lt in I. destruct (ru_paused r) eqn:P; [intros [= <- <-]; by apply step_eval_skips|].
    destruct (evaluation_reading _ _ _ _ _) as [[s result]|] eqn:T; intros [= <- <-].
    + by eapply step_eval.
    + eapply step_eval_panics; try done. split; [by left|done].
  - destruct (ru_evaluated r !! 0%nat) as [q|] eqn:Q; [|done]. destruct (ru_stopped r) eqn:St; [done|].
    destruct (_ <? _)%nat eqn:I; [|done]. apply Nat.ltb_lt in I. intros [= <- <-]. by apply step_send_ready.
  - destruct (ru_ready r) as [|q rest] eqn:Q; [done|]. destruct (can_listen r) eqn:L; [|done].
    apply can_listen_true in L. destruct (batch_step _ _) as [batcher best] eqn:B.
    destruct (hand _ _) as [r1|] eqn:H; [|done]. intros [= <- <-].
    eapply step_ready; [done|exact Q|exact B|by apply hand_handed].
  - destruct (can_listen r) eqn:L; [|done]. apply can_listen_true in L.
    destruct (batch_step _ _) as [batcher best] eqn:B. destruct (hand _ _) as [r1|] eqn:H; [|done].
    intros [= <- <-]. eapply step_tick; [done|exact B|by apply hand_handed].
Qed.
Lemma turns_steps min_swap min_profit turns : forall r ls r',
  take_turns min_swap min_profit turns r = Some (ls, r') -> steps min_swap min_profit r ls r'.
Proof.
  induction turns as [|turn turns IH]; intros r ls r' H; [injection H as <- <-; constructor|].
  cbn [take_turns] in H. apply bind_Some in H as ([l r1] & T & H). apply bind_Some in H as ([ls1 r2] & Ts & H).
  injection H as <- <-. econstructor; [by eapply turn_step|by apply IH].
Qed.
End Scheduler.
