(* ===== verification/MainLoopProps.v ===== *)
(** * Properties of the loop of the runtime

    What a whole run does: the books of its queues, what becomes of it when the
    workers that look transactions up are gone, and when it submits anything. *)
From S2P Require Import RpcFacts ExecutorFacts ExecutorProps AbiRef.
From S2P Require Import Prelude F64 Text Ethers Config Rpc PoolCache Opportunity Adaptive Executor Calldata Decode EnvVars.
From S2P Require Import Intake Batch Routes RouteFacts Evaluate EvaluateProps Lookup LookupProps DecodeProps AmountFacts.
From S2P Require Import MainLoop LoopBooks MainLoopFacts LoopTurns.
#[local] Open Scope Z_scope.

Section Run.
Context {network_ : Endpoints} {host : Host} {around : Surroundings} {out : Outside}.

(** C5: a run of the whole loop calls the executor only if the mode is changed under an
    evaluation: if no evaluation looks for its route in the scavenger mode and is then
    gated in another, then whatever the feeds announce, whatever the endpoints answer
    and the rest of the program does to the pause, the endpoints and the policy between
    the tasks of the workers, and to the mode and the thresholds also at each of the
    points at which a task reads their locks, in whatever order the workers and the arms of the loop take
    their turns, and whichever of them panic, no arm hands an opportunity over; the
    budget, the guards and the profit and loss stay what they were at the start, and
    nothing is sent. ([a_torn_evaluation_submits] is a run with such an evaluation.) *)
Theorem submission_needs_a_torn_evaluation config w profiles min_swap min_profit r0 ls r :
  (forall handle, chain_ok (chain_of handle)) -> AbiUnsigned abi_decode ->
  (forall handle hash tx, query_transaction handle hash = inr (Some tx) -> tx_typed tx) ->
  config_typed config -> Forall label_typed ls ->
  start config w profiles = Done (inr (min_swap, min_profit, r0)) -> steps min_swap min_profit r0 ls r ->
  Forall (fun l => ~ torn_evaluation l) ls ->
  Forall (fun l => handed_over l = None) ls /\ ru_engine r = ru_engine r0 /\ Executor.trace (ru_engine r) = [].
Proof.
  intros CO AU QT CT T St S NT.
  assert (D : dormant (ru_engine r0) r0 /\ Executor.trace (ru_engine r0) = []).
  { started St. split; [|done]. split; simpl; done || apply new_cache_ok. }
  destruct D as [D Tr]. destruct (dormant_steps _ _ CO QT _ _ _ _ S T NT D) as [D' N].
  rewrite (dm_engine _ _ D'). split_and!; done.
Qed.

(** C13: the books of a run: the queue of lookups, in its order, and the loop that
    waits to send hold the tasks that were sent and not yet taken; the candidates
    decoded wait to be sent or evaluated, those evaluated to be sent, refused or
    batched, those batched to be handed over, each exactly once; the queues keep to
    their capacities, the batch is never full between two arms, every worker idles,
    waits to send or has panicked; and while no more than 8192 items were scanned
    no transaction is looked up twice. *)
Theorem run_keeps_its_books config w profiles min_swap min_profit r0 ls r :
  start config w profiles = Done (inr (min_swap, min_profit, r0)) -> steps min_swap min_profit r0 ls r ->
  (1 <= ru_lookup_idle r0 <= LOOKUP_DECODE_WORKERS_MAX)%nat /\ (1 <= ru_eval_idle r0 <= EVAL_WORKERS_MAX)%nat /\
  books (ru_lookup_idle r0) (ru_eval_idle r0) ls r /\
  ((length (omap scans ls) <= SEEN_CAPACITY)%nat -> NoDup (task_hash <$> omap taken ls)).
Proof.
  intros St S. pose proof (books_steps _ _ _ _ _ _ _ _ S (start_books _ _ _ _ _ _ St)) as B.
  assert (W : forall name n, (1 <= n)%nat -> (1 <= worker_count name n <= n)%nat).
  { intros name n N. unfold worker_count. destruct (_ ≫= _); lia. }
  split_and!; try (started St; apply W; unfold LOOKUP_DECODE_WORKERS_MAX, EVAL_WORKERS_MAX; lia); [exact B|].
  intros L. pose proof (fresh_steps _ _ [] _ _ _ S L (start_fresh _ _ _ _ _ _ St)) as [_ _ N _].
  simpl in N, B. rewrite (bk_tasks _ _ _ _ B), !fmap_app in N. by apply NoDup_app in N as [N _].
Qed.

(** C14: a worker whose task panics does not come back: once as many lookups have
    panicked as there are workers, no task is taken from the queue and nothing
    decoded any more; at most 8193 further tasks are sent; and when the loop waits
    for a place in the full queue it waits for good: it scans nothing, receives
    nothing and flushes no batch. *)
Theorem lookups_end_with_their_workers config w profiles min_swap min_profit r0 ls r ls' r' :
  start config w profiles = Done (inr (min_swap, min_profit, r0)) -> steps min_swap min_profit r0 ls r ->
  length (omap lookup_lost ls) = ru_lookup_idle r0 -> steps min_swap min_profit r ls' r' ->
  omap taken ls' = [] /\ omap decoded ls' = [] /\
  (length (omap sent ls') <= S LOOKUP_DECODE_QUEUE_CAPACITY)%nat /\
  (is_Some (ru_waiting r) -> free_slots r = 0%nat -> Forall (fun l => arm l = false) ls').
Proof.
  intros St S L S'. pose proof (books_steps _ _ _ _ _ _ _ _ S (start_books _ _ _ _ _ _ St)) as B. simpl in B.
  assert (D : deserted r).
  { pose proof (bk_lookup_workers _ _ _ _ B) as W. rewrite L in W.
    split; [lia|]. apply length_zero_iff_nil. lia. }
  pose proof (bk_lookups _ _ _ _ (books_steps _ _ _ _ _ _ _ _ S' B)) as C.
  destruct (deserted_steps _ _ _ _ _ S' D) as (T & E & Q & A). split_and!; [done..| |exact A].
  apply (f_equal length) in Q. rewrite !length_app in Q. clear A.
  assert (X : (length (option_list (ru_waiting r')) <= 1)%nat) by (destruct (ru_waiting r'); simpl; lia).
  lia.
Qed.
End Run.


(** ** Concrete runs *)

(** One lookup worker. *)
Definition single_worker (name : string) : option string :=
  if string_eqb name "MEV_LOOKUP_DECODE_WORKERS" then Some "1"%string else None.
Definition loop_host : Host :=
  {| ln := fun x => (x - 1)%f64; Routes.powf := fun x _ => x; debug_address := fun _ => "0x"%string;
     debug_hash := fun _ => "0x"%string; display_f64 := fun _ => "1"%string;
     fmt_prec := fun _ _ => "edge"%string; debug_state := fun _ => ""%string;
     to_json := fun _ => None; from_json := fun _ => None;
     parse_ether := fun s => inr (if string_eqb s "edge" then 10 ^ 9 else 10 ^ 18);
     Routes.env := single_worker; keccak256 := fun _ => replicate 32 7; abi_encode := tree_encode;
     abi_decode := ref_decode; abi_error := fun _ _ => "invalid data"%string;
     Routes.clk := fun n => Z.of_nat (Nat.min n 1000) * 10 ^ 6; avx2 := false |}.
#[local] Existing Instances sample_endpoints loop_host answering sample_outside.

Definition loop_config : Config := lookup_config <[ mempool_ws_urls ::= ["wss://feed"%string] ]>.
Definition loop_world : Rpc.World := {| fleet := RpcFacts.sample_fleet; tick := 10 |}.
Definition loop_run (turns : list Turn) : option (U256 * U256 * Runtime * (list Label * Runtime)) :=
  match start loop_config loop_world (inl "none"%string) with
  | Done (inr (min_swap, min_profit, r0)) =>
      run ← take_turns min_swap min_profit turns r0; Some (min_swap, min_profit, r0, run)
  | _ => None
  end.
Lemma loop_run_inv turns m1 m2 r0 ls r : loop_run turns = Some (m1, m2, r0, (ls, r)) ->
  start loop_config loop_world (inl "none"%string) = Done (inr (m1, m2, r0)) /\ steps m1 m2 r0 ls r.
Proof.
  unfold loop_run. destruct (start _ _ _) as [[err|[[a b] r1]]|] eqn:S; [done| |done].
  intros ([ls' r'] & T & [= <- <- <- <- <-])%bind_Some. split; [done|by eapply turns_steps].
Qed.

(** A hash is announced, looked up, decoded, evaluated and rejected; the batch is
    then flushed. *)
Definition locked (mode : OpportunityMode) : Locks := {| lk_mode := Some mode; lk_thresholds := None |}.
Definition one_hash : list Turn :=
  [Scan (ItemHash 500); LookupTurn; SendDecoded; EvalTurn (fun _ => locked Scavenger); Tick 0 (10 ^ 9)].
Definition passed (ls : list Label) : bool :=
  match ls with
  | [Scanned _ (Some _); LookedUp _ (Some _); DecodedSent _; Evaluated _ _ None; Ticked None] => true
  | _ => false
  end.
Definition hashes_only (ls : list Label) : bool :=
  forallb (fun l => match l with Scanned (ItemFull _) _ => false | _ => true end) ls.
Lemma hashes_typed ls : hashes_only ls = true -> Forall label_typed ls.
Proof.
  intros H. apply Forall_forall. intros l I. unfold hashes_only in H. rewrite forallb_forall in H.
  specialize (H l (proj1 (list_elem_of_In _ _) I)). destruct l as [[h|tx] task| | | | | | | | | | | | | |]; done.
Qed.
Definition gated_in_scavenger (ls : list Label) : bool :=
  forallb (fun l => match l with
                    | Evaluated locks _ _ => bool_decide (lk_mode (locks AtBranch) = Some Scavenger)
                    | _ => true end) ls.
Lemma scavenger_untorn ls : gated_in_scavenger ls = true -> Forall (fun l => ~ torn_evaluation l) ls.
Proof.
  intros H. apply Forall_forall. intros l I. unfold gated_in_scavenger in H. rewrite forallb_forall in H.
  specialize (H l (proj1 (list_elem_of_In _ _) I)). destruct l; try by intros [].
  apply bool_decide_eq_true in H. intros [N _]. by rewrite H in N.
Qed.
Lemma queries_typed handle hash tx : query_transaction handle hash = inr (Some tx) -> tx_typed tx.
Proof.
  unfold query_transaction, answering. destruct (h_id handle =? 0)%nat; [|done]. intros [= <-].
  split; vm_compute; discriminate.
Qed.

Lemma submission_needs_a_torn_evaluation_witness :
  match loop_run one_hash with
  | Some (_, _, r0, (ls, r)) => passed ls = true /\ ru_engine r = ru_engine r0 /\ Executor.trace (ru_engine r) = []
  | None => False
  end.
Proof.
  assert (V : match loop_run one_hash with
    | Some (_, _, _, (ls, _)) => passed ls = true /\ hashes_only ls = true /\ gated_in_scavenger ls = true
    | None => False end) by (vm_compute; split_and!; reflexivity).
  destruct (loop_run one_hash) as [[[[m1 m2] r0] [ls r]]|] eqn:R; [|exact V]. destruct V as (V & O & G).
  apply loop_run_inv in R as [St S]. split; [exact V|].
  destruct (submission_needs_a_torn_evaluation loop_config loop_world (inl "none"%string) m1 m2 r0 ls r) as (_ & E & Tr);
    [|exact ref_decode_unsigned|exact queries_typed| | |exact St|exact S| |by split].
  - intros handle. apply sample_chain_ok.
  - split; vm_compute; discriminate.
  - by apply hashes_typed.
  - by apply scavenger_untorn.
Defined.

Lemma run_keeps_its_books_witness :
  match loop_run one_hash with
  | Some (_, _, r0, (ls, r)) => passed ls = true /\ omap sent ls = omap taken ls ++ ru_lookups r ++ option_list (ru_waiting r)
  | None => False
  end.
Proof.
  assert (V : match loop_run one_hash with Some (_, _, _, (ls, _)) => passed ls = true | None => False end)
    by (vm_compute; reflexivity).
  destruct (loop_run one_hash) as [[[[m1 m2] r0] [ls r]]|] eqn:R; [|exact V].
  apply loop_run_inv in R as [St S]. split; [exact V|].
  destruct (run_keeps_its_books loop_config loop_world (inl "none"%string) m1 m2 r0 ls r St S) as (_ & _ & B & _).
  exact (bk_tasks _ _ _ _ B).
Defined.

(** A transaction whose fee does not fit panics the only worker; the next hash stays
    in the queue. *)
Definition wide_tx : Transaction :=
  {| tx_hash := 600; tx_nonce := 0; tx_from := 2; tx_to := Some 9; tx_value := 5;
     tx_gas_price := Some (20 * 10 ^ 9); tx_gas := 21000;
     tx_input := (V3_EXACT_INPUT_SINGLE ++ single_args (2 ^ 32))%list; tx_max_priority_fee_per_gas := None;
     tx_max_fee_per_gas := None; tx_chain_id := None; tx_block_number := None |}.
Definition panicking : list Turn := [Scan (ItemFull wide_tx); LookupTurn].
Lemma lookups_end_with_their_workers_witness :
  match loop_run panicking with
  | Some (m1, m2, r0, (ls, r)) =>
      match take_turns m1 m2 [Scan (ItemHash 500); Tick 0 (10 ^ 9)] r with
      | Some (ls', r') => length (ru_lookups r') = 1%nat /\ omap taken ls' = []
      | None => False
      end
  | None => False
  end.
Proof.
  assert (V : match loop_run panicking with
    | Some (m1, m2, r0, (ls, r)) =>
        length (omap lookup_lost ls) = ru_lookup_idle r0 /\
        match take_turns m1 m2 [Scan (ItemHash 500); Tick 0 (10 ^ 9)] r with
        | Some (ls', r') => length (ru_lookups r') = 1%nat | None => False end
    | None => False end) by (vm_compute; split; reflexivity).
  destruct (loop_run panicking) as [[[[m1 m2] r0] [ls r]]|] eqn:R; [|exact V].
  destruct V as [L V]. apply loop_run_inv in R as [St S].
  destruct (take_turns m1 m2 _ r) as [[ls' r']|] eqn:T; [|exact V]. apply turns_steps in T. split; [exact V|].
  exact (proj1 (lookups_end_with_their_workers loop_config loop_world (inl "none"%string) m1 m2 r0 ls r ls' r' St S L T)).
Defined.

(** *** The mode is changed under an evaluation

    The tokens 1, 2 and 3 trade in a triangle that pays; the scavenger mode finds it,
    and the conservative mode, which has no test of the signature, passes the payload
    on: the executor signs it and submits a bundle. *)

Definition triangle_reserves (pair : Address) : option (Address * Address * (U256 * U256)) :=
  if pair =? 7 then Some (1, 2, (PayloadProps.eth 1000, PayloadProps.eth 1000))
  else if pair =? 8 then Some (2, 3, (PayloadProps.eth 1000, PayloadProps.eth 1000))
  else if pair =? 9 then Some (1, 3, (PayloadProps.eth 1200, PayloadProps.eth 1000))
  else None.
Definition triangle_endpoints : Endpoints :=
  {| chain_of := fun _ => {| router_factory := fun _ => Some 11; get_pair := fun _ a b => inr (pair_of a b);
                             get_pool := fun _ _ _ _ => inr 0; fetch_v2 := triangle_reserves; fetch_v3 := fun _ => None |};
     completion_order := fun hs => hs; join_error := "joined"%string |}.
(** Amounts below a hundredth are a finney, others an ether. *)
Definition triangle_host : Host :=
  {| ln := fun x => (x - 1)%f64; Routes.powf := fun x _ => x; debug_address := fun _ => "0x"%string;
     debug_hash := fun _ => "0x"%string; display_f64 := fun x => (if (x <? 0.01)%f64 then "small" else "1")%string;
     fmt_prec := fun _ _ => "edge"%string; debug_state := fun _ => ""%string;
     to_json := fun _ => None; from_json := fun _ => None;
     parse_ether := fun s => inr (if string_eqb s "edge" then 10 ^ 9 else if string_eqb s "small" then 10 ^ 15 else 10 ^ 18);
     Routes.env := fun _ => None; keccak256 := fun _ => replicate 32 7; abi_encode := tree_encode;
     abi_decode := ref_decode; abi_error := fun _ _ => "invalid data"%string;
     Routes.clk := fun n => Z.of_nat (Nat.min n 1000) * 10 ^ 6; avx2 := false |}.
Definition triangle_tx : Transaction :=
  {| tx_hash := 500; tx_nonce := 1; tx_from := 40; tx_to := Some 31; tx_value := 0;
     tx_gas_price := Some (20 * 10 ^ 9); tx_gas := 300000;
     tx_input := (SWAP_EXACT_TOKENS_FOR_TOKENS
                  ++ concat (DecodeProps.word <$> [5 * 10 ^ 18; 0; 160; 9; 100; 2; 1; 2]))%list;
     tx_max_priority_fee_per_gas := None; tx_max_fee_per_gas := None; tx_chain_id := None; tx_block_number := None |}.
Definition sending_config : Config :=
  let config := sample_config Scavenger true (flip PayloadProps.token 1.0%f64 <$> [1; 2; 3]) in
  config <[ mev ::= (mev config) <[ max_gas_price_gwei ::= None ]> ]> <[ mempool_ws_urls ::= ["wss://feed"%string] ]>.
(** The dashboard writes the lock while the payload is validated. *)
Definition changed (read : EvalRead) : Locks :=
  locked match read with AtEconomic | AtEvm | AtBranch | AtGates => Conservative | _ => Scavenger end.
Definition torn_turns : list Turn :=
  [Scan (ItemFull triangle_tx); LookupTurn; SendDecoded; EvalTurn changed; SendReady; Receive 0 0 0;
   Tick (10 ^ 9) (10 ^ 9)].
Definition torn_run : option (U256 * U256 * Runtime * (list Label * Runtime)) :=
  match start (host := triangle_host) sending_config loop_world (inl "none"%string) with
  | Done (inr (min_swap, min_profit, r0)) =>
      run ← take_turns (network_ := triangle_endpoints) (host := triangle_host) min_swap min_profit torn_turns r0;
      Some (min_swap, min_profit, r0, run)
  | _ => None
  end.

Lemma a_torn_evaluation_submits :
  exists m1 m2 r0 ls r locks c q,
    start (host := triangle_host) sending_config loop_world (inl "none"%string) = Done (inr (m1, m2, r0)) /\
    steps (network_ := triangle_endpoints) (host := triangle_host) m1 m2 r0 ls r /\
    Evaluated locks c (Some q) ∈ ls /\ torn_evaluation (Evaluated locks c (Some q)) /\
    filter submission (Executor.trace (ru_engine r)) =
      [SendBundle "relay" {| bundle_block := 101; bundle_transactions := [Revertible triangle_tx; Ours [5]] |}].
Proof.
  assert (V : match torn_run with
    | Some (_, _, _, (ls, r)) =>
        match ls with
        | [_; _; _; Evaluated locks _ (Some _); _; _; _] => lk_mode (locks AtBranch) = Some Conservative /\
            forall handle, lk_mode (locks (AtRoute handle)) = Some Scavenger
        | _ => False
        end /\
        filter submission (Executor.trace (ru_engine r)) =
          [SendBundle "relay" {| bundle_block := 101; bundle_transactions := [Revertible triangle_tx; Ours [5]] |}]
    | None => False end) by (vm_compute; split; [split|]; reflexivity).
  unfold torn_run in V. destruct (start _ _ _) as [[err|[[m1 m2] r0]]|]; [destruct V| |destruct V].
  destruct (take_turns m1 m2 torn_turns r0) as [[ls r]|] eqn:T; [|destruct V]. apply turns_steps in T.
  destruct V as [V F]. destruct ls as [|a [|b [|d [|l ls]]]]; try (by destruct V).
  destruct l as [| | | | | | |locks c result| | | | | | |]; try (by destruct V).
  destruct ls as [|g [|h [|i [|j ls]]]]; try (by destruct result, V).
  destruct result as [q|]; [|by destruct V]. destruct V as [V1 V2].
  exists m1, m2, r0. eexists _, r, locks, c, q. split; [done|]. split; [exact T|].
  split; [do 3 right; left|]. split; [|exact F]. split; [by rewrite V1|].
  exists {| h_id := 0; h_name := ""; h_url := "" |}. by rewrite V2.
Qed.
