(* ===== verification/Replay.v ===== *)
(** * The replay harness ([replay.rs])

    Recorded transactions run through the stages of the runtime on a fork: what
    each case is counted as, the books of a run, the search for a tuning, and the
    variables it recommends. A run threads the clock and the pool cache, the
    transactions sent to the fork, the policy, the report and its rows. The fork,
    the file of cases and the parsers of libraries are the class [ReplayNode]:
    what the fork answers is a function of what was sent to it. Counters wrap at
    64 bits as in the release build. What is printed, and the directories made for
    the files, are left out. *)
From S2P Require Import Prelude F64 Text Ethers Config PoolCache AmmV2 AmmV3 Simulator Pnl Payload.
From S2P Require Import Opportunity Rpc Adaptive Executor Calldata Decode Gates Intake Routes ConfigEnv.
#[local] Open Scope Z_scope.
#[local] Open Scope string_scope.
#[local] Open Scope Z_scope.

(** ** Cases and reports *)

Record ReplayInputCase := {
  case_tx_hash : option string;
  case_to : string;
  case_input : string;
  case_value_wei : option string;
  case_gas_price_wei : option string;
  case_max_fee_per_gas_wei : option string;
  case_lookup_latency_ms : option f64;
  case_hour_utc : option u8;
  known_outcome : option string;
  case_realized_profit_eth : option f64 }.

Record ReplayTuning := {
  threshold_multiplier : f64;
  priority_shift : f64;
  toxicity_shift : f64;
  gas_extra_bps : u64 }.
Definition ReplayTuning_default : ReplayTuning :=
  {| threshold_multiplier := 1.0; priority_shift := 0.0; toxicity_shift := 0.0; gas_extra_bps := 0 |}.

Record ToxicityReplayKey := {
  tk_router : string;
  tk_pair : string;
  tk_hour_utc : u8 }.
#[export] Instance ToxicityReplayKey_eq_dec : EqDecision ToxicityReplayKey.
Proof. solve_decision. Defined.
#[export] Instance ToxicityReplayKey_countable : Countable ToxicityReplayKey :=
  inj_countable' (fun k => (tk_router k, tk_pair k, tk_hour_utc k))
    (fun '(r, p, h) => {| tk_router := r; tk_pair := p; tk_hour_utc := h |})
    (fun k => match k with Build_ToxicityReplayKey _ _ _ => eq_refl end).

Record ToxicityReplayStats := {
  tx_samples : u64;
  tx_rejected : u64;
  tx_executed : u64;
  profitable_labels : u64;
  tx_false_positive : u64;
  tx_false_negative : u64;
  tx_expected_profit_wei : U256;
  tx_realized_profit_eth : f64;
  last_stage : string }.
#[export] Instance ToxicityReplayStats_eta : RecordEta ToxicityReplayStats :=
  fields Build_ToxicityReplayStats <&> tx_samples <&> tx_rejected <&> tx_executed <&> profitable_labels
    <&> tx_false_positive <&> tx_false_negative <&> tx_expected_profit_wei <&> tx_realized_profit_eth
    <&> last_stage.
Definition ToxicityReplayStats_default : ToxicityReplayStats :=
  {| tx_samples := 0; tx_rejected := 0; tx_executed := 0; profitable_labels := 0; tx_false_positive := 0;
     tx_false_negative := 0; tx_expected_profit_wei := 0; tx_realized_profit_eth := 0.0; last_stage := "" |}.

Record ReplayLatencyTrace := {
  decode_swap_us : option u64;
  context_signal_us : option u64;
  fast_preflight_us : option u64;
  adaptive_preflight_us : option u64;
  payload_build_us : option u64;
  ev_gate_us : option u64;
  quality_gate_us : option u64;
  adaptive_quote_us : option u64;
  total_internal_us : option u64 }.
#[export] Instance ReplayLatencyTrace_eta : RecordEta ReplayLatencyTrace :=
  fields Build_ReplayLatencyTrace <&> decode_swap_us <&> context_signal_us <&> fast_preflight_us
    <&> adaptive_preflight_us <&> payload_build_us <&> ev_gate_us <&> quality_gate_us <&> adaptive_quote_us
    <&> total_internal_us.
Definition ReplayLatencyTrace_default : ReplayLatencyTrace :=
  Build_ReplayLatencyTrace None None None None None None None None None.

Record ReplayReport := {
  rr_total : u64;
  rr_decoded : u64;
  fast_preflight_pass : u64;
  adaptive_preflight_pass : u64;
  payload_built : u64;
  ev_gate_pass : u64;
  quality_gate_pass : u64;
  adaptive_quote_pass : u64;
  execute_candidates : u64;
  true_positive : u64;
  false_positive : u64;
  true_negative : u64;
  false_negative : u64;
  fork_execution_attempts : u64;
  fork_execution_success : u64;
  fork_execution_reverts : u64;
  fork_realized_profit_eth : f64;
  estimated_gas_avoided_wei : U256;
  rr_expected_profit_wei : U256;
  rr_realized_profit_eth : f64;
  reasons : gmap string u64;
  latency : gmap string (list u64);
  toxicity : gmap ToxicityReplayKey ToxicityReplayStats }.
#[export] Instance ReplayReport_eta : RecordEta ReplayReport :=
  fields Build_ReplayReport <&> rr_total <&> rr_decoded <&> fast_preflight_pass <&> adaptive_preflight_pass
    <&> payload_built <&> ev_gate_pass <&> quality_gate_pass <&> adaptive_quote_pass <&> execute_candidates
    <&> true_positive <&> false_positive <&> true_negative <&> false_negative <&> fork_execution_attempts
    <&> fork_execution_success <&> fork_execution_reverts <&> fork_realized_profit_eth
    <&> estimated_gas_avoided_wei <&> rr_expected_profit_wei <&> rr_realized_profit_eth <&> reasons
    <&> latency <&> toxicity.
Definition ReplayReport_default : ReplayReport :=
  Build_ReplayReport 0 0 0 0 0 0 0 0 0 0 0 0 0 0 0 0 0.0 0 0 0.0 ∅ ∅ ∅.

Record ReplayDecisionRow := {
  row_tx_hash : string;
  row_stage : string;
  row_decision : string;
  row_reason : string;
  row_expected_profit_eth : f64;
  row_ev_real_usd : f64;
  row_threshold_usd : f64;
  row_total_latency_us : u64 }.

Record ReplayRunOutput := {
  report : ReplayReport;
  decision_rows : list ReplayDecisionRow }.

Record ReplayTuningResult := {
  best_threshold_multiplier : f64;
  best_priority_shift : f64;
  best_toxicity_shift : f64;
  best_gas_extra_bps : u64;
  objective_score : f64;
  tr_realized_profit_eth : f64;
  tr_execute_candidates : u64;
  tr_false_positive : u64;
  tr_false_negative : u64;
  tr_capture_ratio : f64 }.

(** ** The books *)

(** [+= 1]. *)
Definition incr (n : u64) : u64 := wrap64 (n + 1).

Definition is_positive_outcome (outcome : string) : bool :=
  one_of outcome ["included_success"; "execute"; "profitable"].
Definition profitable (case : ReplayInputCase) : bool :=
  match known_outcome case with Some o => is_positive_outcome o | None => false end
  || (default 0.0 (case_realized_profit_eth case) >? 0.0)%f64.

Definition bump (key : string) (r : ReplayReport) : ReplayReport :=
  r <[ reasons ::= <[key := incr (default 0 (reasons r !! key))]> (reasons r) ]>.
Definition reason_key (stage reason : string) : string := stage +:+ ":" +:+ reason.
Definition bump_reason (stage reason : string) : ReplayReport -> ReplayReport := bump (reason_key stage reason).

Definition observe_labeled_outcome (executed : bool) (case : ReplayInputCase) (r : ReplayReport)
  : ReplayReport :=
  match executed, profitable case with
  | true, true => r <[ true_positive ::= incr (true_positive r) ]>
  | true, false => r <[ false_positive ::= incr (false_positive r) ]>
  | false, true => r <[ false_negative ::= incr (false_negative r) ]>
  | false, false => r <[ true_negative ::= incr (true_negative r) ]>
  end.

Definition push_latency (stage : string) (duration_us : option u64) (m : gmap string (list u64))
  : gmap string (list u64) :=
  match duration_us with
  | Some us => <[stage := (default [] (m !! stage) ++ [us])%list]> m
  | None => m
  end.
Definition observe_trace (trace : ReplayLatencyTrace) (m : gmap string (list u64)) : gmap string (list u64) :=
  foldl (fun m '(stage, us) => push_latency stage us m) m
    [("decode_swap", decode_swap_us trace); ("context_signal", context_signal_us trace);
     ("fast_preflight", fast_preflight_us trace); ("adaptive_preflight", adaptive_preflight_us trace);
     ("payload_build", payload_build_us trace); ("ev_gate", ev_gate_us trace);
     ("quality_gate", quality_gate_us trace); ("adaptive_quote", adaptive_quote_us trace);
     ("total_internal", total_internal_us trace)].
Definition observe_latency (trace : ReplayLatencyTrace) (r : ReplayReport) : ReplayReport :=
  r <[ latency ::= observe_trace trace (latency r) ]>.

Definition observe_reject_gas (gas_price : U256) (gas_limit : u64) (r : ReplayReport) : ReplayReport :=
  r <[ estimated_gas_avoided_wei ::=
         u256_sadd (estimated_gas_avoided_wei r) (u256_smul gas_price gas_limit) ]>.
Definition observe_expected_profit (wei : U256) (r : ReplayReport) : ReplayReport :=
  r <[ rr_expected_profit_wei ::= u256_sadd (rr_expected_profit_wei r) wei ]>.
Definition observe_realized (case : ReplayInputCase) (r : ReplayReport) : ReplayReport :=
  r <[ rr_realized_profit_eth ::=
         (rr_realized_profit_eth r + default 0.0 (case_realized_profit_eth case))%f64 ]>.

(** [ToxicityReplayStats::observe]. *)
Definition observe_stats (executed : bool) (case : ReplayInputCase) (expected_profit_wei : option U256)
    (stage : string) (s : ToxicityReplayStats) : ToxicityReplayStats :=
  let s := s <[ tx_samples ::= incr (tx_samples s) ]> <[ last_stage ::= stage ]> in
  let won := profitable case in
  let s := if won then s <[ profitable_labels ::= incr (profitable_labels s) ]> else s in
  if executed then
    let s := s <[ tx_executed ::= incr (tx_executed s) ]>
               <[ tx_expected_profit_wei ::=
                    u256_sadd (tx_expected_profit_wei s) (default 0 expected_profit_wei) ]>
               <[ tx_realized_profit_eth ::=
                    (tx_realized_profit_eth s + default 0.0 (case_realized_profit_eth case))%f64 ]> in
    if won then s else s <[ tx_false_positive ::= incr (tx_false_positive s) ]>
  else
    let s := s <[ tx_rejected ::= incr (tx_rejected s) ]> in
    if won then s <[ tx_false_negative ::= incr (tx_false_negative s) ]> else s.
Definition toxicity_score (s : ToxicityReplayStats) : f64 :=
  if tx_samples s =? 0 then 0.0%f64
  else
    let sample := f64_of_Z (tx_samples s) in
    let rate n := (f64_of_Z n / sample)%f64 in
    let realized_capture :=
      if 0 <? tx_expected_profit_wei s then
        fclamp_in (tx_realized_profit_eth s / wei_to_eth_f64 (tx_expected_profit_wei s))%f64 0.0 1.25
      else 0.0%f64 in
    fclamp01 (rate (tx_rejected s) * 0.35 + rate (tx_false_positive s) * 0.30
              + rate (tx_false_negative s) * 0.20 + fclamp01 (1.0 - realized_capture) * 0.15)%f64.
Definition observe_key (key : ToxicityReplayKey) (executed : bool) (case : ReplayInputCase)
    (expected_profit_wei : option U256) (stage : string) (r : ReplayReport) : ReplayReport :=
  r <[ toxicity ::= <[key := observe_stats executed case expected_profit_wei stage
                               (default ToxicityReplayStats_default (toxicity r !! key))]> (toxicity r) ]>.

Definition case_name (case : ReplayInputCase) : string := default "synthetic" (case_tx_hash case).
Definition reject_row (case : ReplayInputCase) (stage reason : string) : ReplayDecisionRow :=
  {| row_tx_hash := case_name case; row_stage := stage; row_decision := "reject"; row_reason := reason;
     row_expected_profit_eth := 0.0; row_ev_real_usd := 0.0; row_threshold_usd := 0.0;
     row_total_latency_us := 0 |}.
Definition execute_row (case : ReplayInputCase) (expected_profit_wei : U256) (quote : AdaptiveQuote)
    (total_latency_us : u64) : ReplayDecisionRow :=
  {| row_tx_hash := case_name case; row_stage := "adaptive"; row_decision := "execute";
     row_reason := "passed"; row_expected_profit_eth := wei_to_eth_f64 expected_profit_wei;
     row_ev_real_usd := ev_real_usd quote; row_threshold_usd := threshold_dynamic_usd quote;
     row_total_latency_us := total_latency_us |}.

(** ** Latencies *)

Record LatencySnapshot := {
  ls_samples : nat;
  avg_us : u64;
  p50_us : u64;
  p95_us : u64;
  max_us : u64 }.
Definition percentile_us (sorted : list u64) (percentile : f64) : u64 :=
  match sorted with
  | [] => 0
  | _ =>
      let top := (length sorted - 1)%nat in
      let index := f64_as_usize (fround (f64_of_nat top * percentile)%f64) in
      default 0 (sorted !! Nat.min index top)
  end.
Definition latency_snapshot (samples : list u64) : LatencySnapshot :=
  let ordered := merge_sort Z.le samples in
  let count := Nat.max (length ordered) 1 in
  let sum := foldr Z.add 0 ordered in
  {| ls_samples := length samples; avg_us := sum / Z.of_nat count mod 2 ^ 64;
     p50_us := percentile_us ordered 0.50; p95_us := percentile_us ordered 0.95;
     max_us := default 0 (last ordered) |}.
Definition percent (numerator denominator : u64) : f64 :=
  if denominator =? 0 then 0.0%f64 else (f64_of_Z numerator * 100.0 / f64_of_Z denominator)%f64.

(** ** Tuning *)

Definition from_report (tuning : ReplayTuning) (r : ReplayReport) : ReplayTuningResult :=
  {| best_threshold_multiplier := threshold_multiplier tuning; best_priority_shift := priority_shift tuning;
     best_toxicity_shift := toxicity_shift tuning; best_gas_extra_bps := gas_extra_bps tuning;
     objective_score :=
       (rr_realized_profit_eth r - f64_of_Z (false_positive r) * 0.0025
        - f64_of_Z (false_negative r) * 0.0015 - f64_of_Z (execute_candidates r) * 0.0002
        - f64_of_Z (gas_extra_bps tuning) * 0.0000015)%f64;
     tr_realized_profit_eth := rr_realized_profit_eth r; tr_execute_candidates := execute_candidates r;
     tr_false_positive := false_positive r; tr_false_negative := false_negative r;
     tr_capture_ratio :=
       if rr_expected_profit_wei r =? 0 then 0.0%f64
       else (rr_realized_profit_eth r / fmax (wei_to_eth_f64 (rr_expected_profit_wei r)) 1e-12)%f64 |}.

Definition tuned_context_signal (base : ContextSignal) (tuning : ReplayTuning) : ContextSignal :=
  {| priority_score := fclamp01 (priority_score base + priority_shift tuning)%f64;
     Adaptive.toxicity_score := fclamp01 (Adaptive.toxicity_score base + toxicity_shift tuning)%f64;
     cs_samples := cs_samples base |}.
Definition should_execute_with_tuning (quote : AdaptiveQuote) (tuning : ReplayTuning) : bool :=
  let adjusted_threshold :=
    (threshold_dynamic_usd quote * fmax (threshold_multiplier tuning) 0.01)%f64 in
  let threshold_pass := (ev_real_usd quote >? adjusted_threshold)%f64 in
  if should_execute quote then threshold_pass
  else match reject_reason quote with
       | Some why => string_eqb why "ev_real_below_threshold" && threshold_pass
       | None => false
       end.

(** [tuning.gas_extra_bps] on top of the price. *)
Definition tuned_gas_price (gas_price : U256) (tuning : ReplayTuning) : U256 :=
  u256_smul gas_price (wrap64 (10000 + gas_extra_bps tuning)) / 10000.

(** ** What a run uses *)

Class ReplayNode := {
  rn_exp : f64 -> f64;
  rn_ln_1p : f64 -> f64;
  utc_hour : u8;
  (* the file of cases, its JSON and the parsers of the library of numbers *)
  read_to_string : string -> string + string;
  parse_cases : string -> string + list ReplayInputCase;
  parse_case : string -> string + ReplayInputCase;
  parse_h256 : string -> string + H256;
  parse_address : string -> string + Address;
  hex_decode : string -> string + Bytes;
  u256_from_hex : string -> option U256;
  u256_from_dec : string -> option U256;
  wallet_address : string -> string + Address;
  sign_with_wallet : TypedTransaction -> string + Bytes;
  (* the fork: the provider of a URL, and its answers after the transactions sent *)
  connect : string -> string + unit;
  fork_block_number : string + u64;
  fork_chain_id : string + U256;
  fork_chain : list Bytes -> Chain;
  fork_nonce : list Bytes -> Address -> string + U256;
  fork_balance : list Bytes -> Address -> Address -> option u64 -> string + U256;
  fork_send : list Bytes -> Bytes -> string + H256;
  fork_receipt : list Bytes -> H256 -> string + option TransactionReceipt;
  (* the past outcomes in storage *)
  outcome_profiles : string + list HistoricalOutcomeProfile }.

Record ReplayShared := {
  sh_route : RouteState;
  sent : list Bytes }.
#[export] Instance ReplayShared_eta : RecordEta ReplayShared :=
  fields Build_ReplayShared <&> sh_route <&> sent.

Record ReplayRun := {
  shared : ReplayShared;
  model : option AdaptivePolicy;
  books : ReplayReport;
  trace : ReplayLatencyTrace;
  rows : list ReplayDecisionRow }.
#[export] Instance ReplayRun_eta : RecordEta ReplayRun :=
  fields Build_ReplayRun <&> shared <&> model <&> books <&> trace <&> rows.

(** A step goes on with a value, moves on to the next case ([None]), ends the
    run with an error, or panics. *)
Definition RunM (A : Type) : Type := ReplayRun -> outcome (string + (ReplayRun * option A)).
#[export] Instance RunM_ret : MRet RunM := fun A a s => Done (inr (s, Some a)).
#[export] Instance RunM_bind : MBind RunM := fun A B f m s =>
  match m s with
  | Done (inr (s, Some a)) => f a s
  | Done (inr (s, None)) => Done (inr (s, None))
  | Done (inl e) => Done (inl e)
  | Panicked => Panicked
  end.
Definition continue_ {A} : RunM A := fun s => Done (inr (s, None)).
Definition fail_ {A} (e : string) : RunM A := fun _ => Done (inl e).
Definition of_res {A} (r : string + A) : RunM A := match r with inl e => fail_ e | inr a => mret a end.
Definition of_panic {A} (m : outcome A) : RunM A := fun s =>
  match m with Done a => Done (inr (s, Some a)) | Panicked => Panicked end.
Definition modify (f : ReplayRun -> ReplayRun) : RunM unit := fun s => Done (inr (f s, Some tt)).
Definition gets {A} (f : ReplayRun -> A) : RunM A := fun s => Done (inr (s, Some (f s))).
Definition book (f : ReplayReport -> ReplayReport) : RunM unit :=
  modify (fun s => s <[ books ::= f (books s) ]>).
Definition on_shared {A} (m : RouteM A) : RunM A := fun s =>
  match m (sh_route (shared s)) with
  | Done (r, a) => Done (inr (s <[ shared ::= (shared s) <[ sh_route ::= r ]> ]>, Some a))
  | Panicked => Panicked
  end.
Definition push_row (row : ReplayDecisionRow) : RunM unit :=
  modify (fun s => s <[ rows ::= (rows s ++ [row])%list ]>).

(** ** Cases as transactions *)

(** [trim_start_matches("0x")]: every leading one. *)
Fixpoint trim_0x (s : string) : string :=
  match s with
  | String "0" (String "x" t) => trim_0x t
  | _ => s
  end.
Definition trim_start : string -> string := trim_start_by is_whitespace.

(** ** Variables *)

Section Env.
Context (env : string -> option string).

Definition flag (name : string) : bool := eq_ignore_ascii_case (trim (default "" (env name))) "true".
Definition env_usize (name : string) (def : nat) : nat := default def (v ← env name; parse_usize (trim v)).
Definition env_grid {A} (parse : string -> option A) (name : string) (defaults : list A) : list A :=
  match env name with
  | Some value =>
      match omap (fun item => parse (trim item)) (split "," value) with
      | [] => defaults
      | values => values
      end
  | None => defaults
  end.
Definition env_f64_grid : string -> list f64 -> list f64 := env_grid parse_f64.
Definition env_u64_grid : string -> list u64 -> list u64 := env_grid parse_u64.

Definition replay_tuning_grid : list ReplayTuning :=
  let threshold_multipliers :=
    env_f64_grid "REPLAY_TUNE_THRESHOLD_MULTIPLIERS" [0.90; 1.00; 1.10]%f64 in
  let priority_shifts := env_f64_grid "REPLAY_TUNE_PRIORITY_SHIFTS" [-0.05; 0.0; 0.05]%f64 in
  let toxicity_shifts := env_f64_grid "REPLAY_TUNE_TOXICITY_SHIFTS" [-0.05; 0.0; 0.05]%f64 in
  let gas_extra_bps := env_u64_grid "REPLAY_TUNE_GAS_EXTRA_BPS" [0; 500; 1000; 2000] in
  let grid :=
    t ← threshold_multipliers; p ← priority_shifts; x ← toxicity_shifts; g ← gas_extra_bps;
    [{| threshold_multiplier := t; priority_shift := p; toxicity_shift := x; gas_extra_bps := g |}] in
  match grid with [] => [ReplayTuning_default] | _ => grid end.
End Env.

(** [{:.2}]: the nearest hundredth, ties to even. *)
Definition digit_char (d : Z) : ascii := ascii_of_N (Z.to_N (48 + d)).
Definition show_hundredths (neg : bool) (n : Z) : string :=
  (if neg then "-" else "") +:+ show_Z (n / 100)
  +:+ String "." (String (digit_char (n / 10 mod 10)) (String (digit_char (n mod 10)) "")).
Definition hundredths (m : positive) (e : Z) : Z :=
  if 0 <=? e then Zpos m * 2 ^ e * 100 else round_ratio_half_even (Zpos m * 100) (2 ^ (- e)).
Definition fmt_2 (x : f64) : string :=
  match x with
  | S754_zero s => show_hundredths s 0
  | S754_infinity s => if s then "-inf" else "inf"
  | S754_nan => "NaN"
  | S754_finite s m e => show_hundredths s (hundredths m e)
  end.

(** The variables of a tuning, in the order of their names, and the file of them. *)
Definition recommended_env (best : ReplayTuningResult) : list (string * string) :=
  [("REPLAY_TUNE_GAS_EXTRA_BPS", show_Z (best_gas_extra_bps best));
   ("REPLAY_TUNE_PRIORITY_SHIFTS", fmt_2 (best_priority_shift best));
   ("REPLAY_TUNE_THRESHOLD_MULTIPLIERS", fmt_2 (best_threshold_multiplier best));
   ("REPLAY_TUNE_TOXICITY_SHIFTS", fmt_2 (best_toxicity_shift best))].
Definition env_file (recommended : list (string * string)) : string :=
  foldl (fun out '(key, value) => out +:+ key +:+ "=" +:+ value +:+ String LF "") "" recommended.

Section Replay.
Context {host : Host} {node : ReplayNode}.

Definition parse_u256 (value : option string) : option U256 :=
  value ← value;
  let value := trim value in
  if string_eqb value "" then None
  else match strip_prefix value "0x" with
       | Some hex => u256_from_hex hex
       | None => u256_from_dec value
       end.

Definition replay_transaction (case : ReplayInputCase) (fallback_nonce : u64) : string + Transaction :=
  match match case_tx_hash case with Some h => parse_h256 h | None => inr fallback_nonce end with
  | inl e => inl e
  | inr hash =>
      match parse_address (case_to case) with
      | inl e => inl e
      | inr to =>
          match hex_decode (trim_0x (case_input case)) with
          | inl e => inl e
          | inr input =>
              inr {| tx_hash := hash; tx_nonce := fallback_nonce; tx_from := 0; tx_to := Some to;
                     tx_value := default 0 (parse_u256 (case_value_wei case));
                     tx_gas_price := parse_u256 (case_gas_price_wei case); tx_gas := 300000;
                     tx_input := input; tx_max_priority_fee_per_gas := None;
                     tx_max_fee_per_gas := parse_u256 (case_max_fee_per_gas_wei case);
                     tx_chain_id := None; tx_block_number := None |}
          end
      end
  end.

(** An array, or a case on each line that is not blank. *)
Fixpoint parse_lines (ls : list string) : string + list ReplayInputCase :=
  match ls with
  | [] => inr []
  | l :: ls =>
      match parse_case l with
      | inl e => inl e
      | inr c => match parse_lines ls with inl e => inl e | inr cs => inr (c :: cs) end
      end
  end.
Definition load_replay_cases (path : string) (limit : nat) : string + list ReplayInputCase :=
  match read_to_string path with
  | inl e => inl e
  | inr raw =>
      if starts_with (trim_start raw) "[" then
        match parse_cases raw with inl e => inl e | inr items => inr (take limit items) end
      else parse_lines (take limit (filter (fun l => negb (string_eqb (trim l) "")) (lines raw)))
  end.

(** ** Steps of a case *)

Context (config : Config).

Definition clock : RunM Instant := on_shared (on_world (now_ clk)).
Definition elapsed_us (t started : Instant) : u64 := Z.min (elapsed t started / 1000) U64_MAX.
(** A field of the trace set to the time since [started]. *)
Definition mark (set : option u64 -> ReplayLatencyTrace -> ReplayLatencyTrace) (started : Instant) : RunM unit :=
  t ← clock; modify (fun s => s <[ trace ::= set (Some (elapsed_us t started)) (trace s) ]>).
Definition set_total (v : option u64) (t : ReplayLatencyTrace) : ReplayLatencyTrace :=
  t <[ total_internal_us ::= v ]>.
(** The end of every case: the total, and the trace into the summary. *)
Definition close_trace (case_started : Instant) : RunM unit :=
  mark set_total case_started;; modify (fun s => s <[ books ::= observe_latency (trace s) (books s) ]>).
(** A case that leaves without a label. *)
Definition leave {A} (case_started : Instant) (key : string) : RunM A :=
  book (bump key);; close_trace case_started;; continue_.

Definition path_end (signal : SwapSignal) : outcome Address :=
  match sw_path signal with
  | [] => Panicked
  | first :: _ => Done (default first (last (sw_path signal)))
  end.
(** The pair of a rejection is the last token of the path. *)
Definition observe_toxicity_reject (signal : SwapSignal) (hour_utc : u8) (case : ReplayInputCase)
    (stage : string) : RunM unit :=
  pair ← of_panic (path_end signal);
  book (observe_key {| tk_router := debug_address (sw_router signal); tk_pair := debug_address pair;
                       tk_hour_utc := hour_utc |} false case None stage).
Definition observe_toxicity_execute (signal : SwapSignal) (pair : Address) (hour_utc : u8)
    (case : ReplayInputCase) (expected_profit_wei : U256) : RunM unit :=
  book (observe_key {| tk_router := debug_address (sw_router signal); tk_pair := debug_address pair;
                       tk_hour_utc := hour_utc |} true case (Some expected_profit_wei) "execute").

(** What a stage does when it rejects: the label, the gas saved, the reason, the
    context, the latencies ([marked] is the stage's own) and a row. *)
Record Rejection := {
  rj_stage : string;
  rj_reason : string;
  rj_key : string;
  rj_gas_limit : u64 }.
Definition reject {A} (case_started : Instant) (case : ReplayInputCase) (signal : SwapSignal) (hour_utc : u8)
    (gas_price : U256) (r : Rejection) (marked : RunM unit) : RunM A :=
  book (observe_labeled_outcome false case);;
  book (observe_reject_gas gas_price (rj_gas_limit r));;
  book (bump (rj_key r));;
  observe_toxicity_reject signal hour_utc case (rj_stage r);;
  marked;;
  close_trace case_started;;
  push_row (reject_row case (rj_stage r) (rj_reason r));;
  continue_.

Definition context_step (signal : SwapSignal) (hour_utc : u8) (tuning : ReplayTuning) : RunM ContextSignal :=
  policy ← gets model;
  mret (tuned_context_signal
          match policy with
          | Some m => context_signal m (sw_router signal) hour_utc
          | None => {| priority_score := 0.50; Adaptive.toxicity_score := 0.50; cs_samples := 0 |}
          end tuning).

(** The policy learns the latency and the flow, then scores the case. *)
Definition preflight_step (case_started : Instant) (cluster : ClusterKey) (signal : SwapSignal)
    (gas_price : U256) (lookup_latency_ms : f64) : RunM PreflightQuote :=
  policy ← gets model;
  match policy with
  | None => leave case_started "adaptive_lock_error"
  | Some m =>
      t ← clock;
      let m := observe_candidate_flow t (observe_lookup_latency m lookup_latency_ms) cluster
                 (sw_notional_wei signal) gas_price in
      t ← clock;
      let '(m, preflight) :=
        preflight_score rn_exp rn_ln_1p t m
          {| pi_cluster := cluster; pi_notional_eth := wei_to_eth_f64 (sw_notional_wei signal);
             pi_gas_price_wei := gas_price; pi_path_len := length (sw_path signal) |} in
      modify (fun s => s <[ model ::= Some m ]>);;
      mret preflight
  end.

Definition relay_paths : list string :=
  match builder_relays config with [] => ["rpc://" +:+ network config] | relays => relays end.
(** The policy reads the clock once per relay. *)
Definition quote_step (case_started : Instant) (input : AdaptiveQuoteInput) : RunM AdaptiveQuote :=
  policy ← gets model;
  w ← gets (fun s => rt_world (sh_route (shared s)));
  match policy with
  | None => leave case_started "adaptive_lock_error"
  | Some m =>
      let '(m, quote) :=
        quote_for_relays rn_exp rn_ln_1p (fun i => clk (tick w + i)%nat) m input relay_paths in
      modify (fun s => s <[ model ::= Some m ]>);;
      on_shared (on_world (fun w => Done (w <[ tick ::= (tick w + length relay_paths)%nat ]>, tt)));;
      mret quote
  end.

Definition build_step (signal : SwapSignal) (gas_price : U256) (context : ContextSignal) (block : u64)
  : RunM (string + ExecutionPayload) :=
  history ← gets (fun s => sent (shared s));
  built ← on_shared (build_payload (chain := fork_chain history) config config signal gas_price context block);
  of_panic built.

(** ** Execution on the fork *)

Record ForkExecutionOutcome := {
  fo_tx_hash : H256;
  fo_success : bool;
  fo_gas_used : u64;
  fo_realized_profit_eth : f64 }.

(** A legacy transaction. *)
Definition replay_transaction_request (wallet : Address) (payload : ExecutionPayload) (nonce gas_price : U256)
  : TypedTransaction :=
  {| tt_to := ep_target_contract payload; tt_data := ep_calldata payload; tt_value := ep_value payload;
     tt_gas := ep_gas_limit payload; tt_fees := Legacy gas_price; tt_nonce := nonce; tt_from := wallet;
     tt_chain_id := None |}.
Definition fork_profit (payload : ExecutionPayload) (balance_delta : U256) : f64 :=
  match token_metadata config (ep_profit_token payload) with
  | Some meta => (f64_of_Z balance_delta / fpowi 10 (mt_decimals meta) * mt_price_eth meta)%f64
  | None => wei_to_eth_f64 balance_delta
  end.
Definition attempt {A} (r : string + A) : RunM (string + A) := mret r.
Definition try_run {A B} (m : RunM (string + A)) (f : A -> RunM (string + B)) : RunM (string + B) :=
  r ← m; match r with inl e => mret (inl e) | inr a => f a end.
Notation "x <-e m ;; k" := (try_run m (fun x => k))
  (at level 100, m at next level, right associativity) : rt_scope.
Definition on_fork {A} (ask : list Bytes -> string + A) : RunM (string + A) :=
  gets (fun s => ask (sent (shared s))).
Definition send_raw (raw : Bytes) : RunM (string + H256) :=
  answer ← gets (fun s => fork_send (sent (shared s)) raw);
  modify (fun s => s <[ shared ::= (shared s) <[ sent ::= (sent (shared s) ++ [raw])%list ]> ]>);;
  mret answer.
Definition ok_or_run {A} (o : option A) (e : string) : RunM (string + A) :=
  mret match o with Some a => inr a | None => inl e end.

Definition execute_payload_on_fork (payload : ExecutionPayload) (gas_price : U256)
  : RunM (string + ForkExecutionOutcome) :=
  from <-e attempt (wallet_address (executor_private_key config));;
  nonce <-e on_fork (fun h => fork_nonce h from);;
  raw <-e attempt (sign_with_wallet (replay_transaction_request from payload nonce gas_price));;
  let balance h := fork_balance h (ep_profit_token payload) (ep_profit_recipient payload) in
  pre <-e on_fork (fun h => balance h None);;
  tx_hash <-e send_raw raw;;
  receipt <-e on_fork (fun h => fork_receipt h tx_hash);;
  receipt <-e ok_or_run receipt (cat ["fork transaction "; debug_hash tx_hash; " was not mined"]);;
  block <-e ok_or_run (tr_block_number receipt)
              (cat ["fork transaction "; debug_hash tx_hash; " missing block number"]);;
  post <-e on_fork (fun h => balance h (Some block));;
  let gas_paid_wei := u256_smul (default gas_price (tr_effective_gas_price receipt))
                        (default 0 (tr_gas_used receipt)) in
  gas_used ← of_panic (as_u64 (default 0 (tr_gas_used receipt)));
  mret (inr {| fo_tx_hash := tx_hash; fo_success := bool_decide (tr_status receipt = Some 1); fo_gas_used := gas_used;
               fo_realized_profit_eth :=
                 (fork_profit payload (sat_sub post pre) - wei_to_eth_f64 gas_paid_wei)%f64 |}).

Definition fork_step (payload : ExecutionPayload) (gas_price : U256) : RunM unit :=
  if negb (flag env "REPLAY_EXECUTE_ON_FORK") then mret tt
  else
    book (fun r => r <[ fork_execution_attempts ::= incr (fork_execution_attempts r) ]>);;
    answer ← execute_payload_on_fork payload gas_price;
    match answer with
    | inr outcome =>
        (if fo_success outcome then
           book (fun r => r <[ fork_execution_success ::= incr (fork_execution_success r) ]>)
         else book (fun r => r <[ fork_execution_reverts ::= incr (fork_execution_reverts r) ]>));;
        book (fun r => r <[ fork_realized_profit_eth ::=
                              (fork_realized_profit_eth r + fo_realized_profit_eth outcome)%f64 ]>);;
        if negb (fo_success outcome) && flag env "REPLAY_FORK_HARD_FAIL" then
          fail_ (cat ["Tenderly fork execution reverted tx="; debug_hash (fo_tx_hash outcome)])
        else mret tt
    | inl e =>
        book (fun r => r <[ fork_execution_reverts ::= incr (fork_execution_reverts r) ]>);;
        if flag env "REPLAY_FORK_HARD_FAIL" then fail_ e else mret tt
    end.

(** ** A case *)

Section Case.
Context (replay_block : u64) (min_large_swap_wei min_profit_wei : U256) (tuning : ReplayTuning).

(** What the first stages establish. *)
Record Decoded := {
  dc_started : Instant;
  dc_tx : Transaction;
  dc_signal : SwapSignal;
  dc_hour : u8;
  dc_context : ContextSignal;
  dc_gas_price : U256 }.

Definition decode_stage (index : u64) (case : ReplayInputCase) : RunM Decoded :=
  case_started ← clock;
  modify (fun s => s <[ trace ::= ReplayLatencyTrace_default ]>);;
  book (fun r => r <[ rr_total ::= incr (rr_total r) ]>);;
  tx ← of_res (replay_transaction case index);
  decode_started ← clock;
  decoded ← of_panic (decode_relevant_swap abi_decode display_f64 parse_ether (monitored_tokens config)
                        avx2 tx min_large_swap_wei (opportunity_mode (mev config)));
  match decoded with
  | None => leave case_started "decode_reject"
  | Some signal =>
      book (fun r => r <[ rr_decoded ::= incr (rr_decoded r) ]>);;
      mark (fun v t => t <[ decode_swap_us ::= v ]>) decode_started;;
      let hour_utc := default utc_hour (case_hour_utc case) in
      context_started ← clock;
      context ← context_step signal hour_utc tuning;
      mark (fun v t => t <[ context_signal_us ::= v ]>) context_started;;
      let gas_price := default 0 (match tx_max_fee_per_gas tx with
                                  | Some fee => Some fee
                                  | None => tx_gas_price tx
                                  end) in
      if gas_price =? 0 then leave case_started "missing_gas"
      else mret {| dc_started := case_started; dc_tx := tx; dc_signal := signal; dc_hour := hour_utc;
                   dc_context := context; dc_gas_price := gas_price |}
  end.

Definition reject_case {A} (d : Decoded) (case : ReplayInputCase) (stage reason key : string)
    (gas_limit : u64) (marked : RunM unit) : RunM A :=
  reject (dc_started d) case (dc_signal d) (dc_hour d) (dc_gas_price d)
    {| rj_stage := stage; rj_reason := reason; rj_key := key; rj_gas_limit := gas_limit |} marked.

Definition fast_stage (case : ReplayInputCase) (d : Decoded) : RunM unit :=
  fast_started ← clock;
  let fast_gate := fast_preflight_gate (dc_signal d) (dc_gas_price d) min_large_swap_wei config
                     (dc_context d) in
  mark (fun v t => t <[ fast_preflight_us ::= v ]>) fast_started;;
  if negb (fp_should_continue fast_gate) then
    let why := default "reject" (fp_reject_reason fast_gate) in
    reject_case d case "fast_preflight" why (reason_key "fast_preflight" why) (estimated_exec_gas config)
      (mret tt)
  else book (fun r => r <[ fast_preflight_pass ::= incr (fast_preflight_pass r) ]>).

Definition cluster_of_signal (signal : SwapSignal) : outcome ClusterKey :=
  match sw_path signal with
  | [] => Panicked
  | first :: _ =>
      Done {| ck_router := sw_router signal; ck_token_in := first;
              ck_token_out := default first (last (sw_path signal)); ck_selector := sw_selector signal |}
  end.
Definition lookup_latency (case : ReplayInputCase) : f64 := default 75.0%f64 (case_lookup_latency_ms case).

Definition preflight_stage (case : ReplayInputCase) (d : Decoded) : RunM ClusterKey :=
  cluster ← of_panic (cluster_of_signal (dc_signal d));
  started ← clock;
  preflight ← preflight_step (dc_started d) cluster (dc_signal d) (dc_gas_price d) (lookup_latency case);
  mark (fun v t => t <[ adaptive_preflight_us ::= v ]>) started;;
  if negb (should_continue preflight) then
    let why := default "reject" (pq_reject_reason preflight) in
    reject_case d case "preflight" why (reason_key "preflight" why) (estimated_exec_gas config) (mret tt)
  else
    book (fun r => r <[ adaptive_preflight_pass ::= incr (adaptive_preflight_pass r) ]>);;
    mret cluster.

Definition payload_stage (case : ReplayInputCase) (d : Decoded) : RunM ExecutionPayload :=
  started ← clock;
  built ← build_step (dc_signal d) (dc_gas_price d) (dc_context d) replay_block;
  let marked := mark (fun v t => t <[ payload_build_us ::= v ]>) started in
  match built with
  | inl _ =>
      reject_case d case "payload" "payload_build_reject" "payload_build_reject" (estimated_exec_gas config)
        marked
  | inr payload =>
      marked;;
      book (fun r => observe_expected_profit (ep_expected_profit_wei payload)
                       (r <[ payload_built ::= incr (payload_built r) ]>));;
      mret payload
  end.

Definition ev_stage (case : ReplayInputCase) (d : Decoded) (payload : ExecutionPayload) : RunM unit :=
  started ← clock;
  let marked := mark (fun v t => t <[ ev_gate_us ::= v ]>) started in
  if negb (passes_ev_gate display_f64 parse_ether config payload (dc_signal d)
             (f64_as_u64 (lookup_latency case) * millis) min_profit_wei) then
    reject_case d case "ev_gate" "ev_gate_reject" "ev_gate_reject" (ep_gas_limit payload) marked
  else marked;; book (fun r => r <[ ev_gate_pass ::= incr (ev_gate_pass r) ]>).

Definition quality_stage (case : ReplayInputCase) (d : Decoded) (payload : ExecutionPayload) : RunM U256 :=
  let cost := safety_gas_cost config payload (tuned_gas_price (dc_gas_price d) tuning) in
  started ← clock;
  let marked := mark (fun v t => t <[ quality_gate_us ::= v ]>) started in
  if negb (passes_quality_gate config payload cost) then
    reject_case d case "quality_gate" "quality_gate_reject" "quality_gate_reject" (ep_gas_limit payload) marked
  else
    marked;; book (fun r => r <[ quality_gate_pass ::= incr (quality_gate_pass r) ]>);; mret cost.

Definition quote_stage (case : ReplayInputCase) (d : Decoded) (cluster : ClusterKey)
    (payload : ExecutionPayload) (execution_cost_wei : U256) : RunM AdaptiveQuote :=
  started ← clock;
  quote ← quote_step (dc_started d)
    {| qi_cluster := cluster; qi_pair := ep_pair payload; qi_hour_utc := dc_hour d;
       qi_context_priority_score := priority_score (dc_context d);
       qi_context_toxicity_score := Adaptive.toxicity_score (dc_context d);
       qi_expected_profit_wei := ep_expected_profit_wei payload; qi_execution_cost_wei := execution_cost_wei;
       qi_gas_price_wei := tuned_gas_price (dc_gas_price d) tuning;
       qi_lookup_latency_ms := lookup_latency case;
       qi_notional_eth := wei_to_eth_f64 (sw_notional_wei (dc_signal d));
       qi_price_impact_bps := ep_price_impact_bps payload; relay_pressure_override := None |};
  mark (fun v t => t <[ adaptive_quote_us ::= v ]>) started;;
  if negb (should_execute_with_tuning quote tuning) then
    let why := default "reject" (reject_reason quote) in
    reject_case d case "adaptive" why (reason_key "adaptive" why) (ep_gas_limit payload) (mret tt)
  else mret quote.

Definition execute_stage (case : ReplayInputCase) (d : Decoded) (payload : ExecutionPayload)
    (quote : AdaptiveQuote) : RunM unit :=
  book (fun r => r <[ execute_candidates ::= incr (execute_candidates r) ]>
                   <[ adaptive_quote_pass ::= incr (adaptive_quote_pass r) ]>);;
  fork_step payload (tuned_gas_price (dc_gas_price d) tuning);;
  book (fun r => observe_realized case (observe_labeled_outcome true case r));;
  observe_toxicity_execute (dc_signal d) (ep_pair payload) (dc_hour d) case (ep_expected_profit_wei payload);;
  close_trace (dc_started d);;
  total ← gets (fun s => default 0 (total_internal_us (trace s)));
  push_row (execute_row case (ep_expected_profit_wei payload) quote total).

Definition run_case (index : u64) (case : ReplayInputCase) : RunM unit :=
  d ← decode_stage index case;
  fast_stage case d;;
  cluster ← preflight_stage case d;
  payload ← payload_stage case d;
  ev_stage case d payload;;
  cost ← quality_stage case d payload;
  quote ← quote_stage case d cluster payload cost;
  execute_stage case d payload quote.

Fixpoint run_cases (index : nat) (cases : list ReplayInputCase) (s : ReplayRun)
  : outcome (string + ReplayRun) :=
  match cases with
  | [] => Done (inr s)
  | case :: cases =>
      match run_case (Z.of_nat index) case s with
      | Done (inr (s, _)) => run_cases (S index) cases s
      | Done (inl e) => Done (inl e)
      | Panicked => Panicked
      end
  end.
End Case.

(** A run starts from a policy of its own and empty books. *)
Definition start_run (profiles : list HistoricalOutcomeProfile) (shared : ReplayShared) : ReplayRun :=
  {| shared := shared; model := Some (apply_historical_profiles (AdaptivePolicy_new config) profiles);
     books := ReplayReport_default; trace := ReplayLatencyTrace_default; rows := [] |}.
Definition run_replay_cases (replay_block : u64) (cases : list ReplayInputCase)
    (profiles : list HistoricalOutcomeProfile) (min_large_swap_wei min_profit_wei : U256)
    (tuning : ReplayTuning) (shared : ReplayShared) : outcome (string + (ReplayShared * ReplayRunOutput)) :=
  match run_cases replay_block min_large_swap_wei min_profit_wei tuning 0 cases (start_run profiles shared) with
  | Done (inr s) => Done (inr (Replay.shared s, {| report := books s; decision_rows := rows s |}))
  | Done (inl e) => Done (inl e)
  | Panicked => Panicked
  end.

(** ** The search *)

(** Each tuning is run in turn; a strictly better score takes over. *)
Definition better (candidate : ReplayTuningResult * ReplayRunOutput)
    (best : option (ReplayTuningResult * ReplayRunOutput)) : option (ReplayTuningResult * ReplayRunOutput) :=
  match best with
  | Some b => if (objective_score (fst candidate) >? objective_score (fst b))%f64 then Some candidate else best
  | None => Some candidate
  end.
Fixpoint tune (run : ReplayTuning -> ReplayShared -> outcome (string + (ReplayShared * ReplayRunOutput)))
    (grid : list ReplayTuning) (shared : ReplayShared) (candidates : list ReplayTuningResult)
    (best : option (ReplayTuningResult * ReplayRunOutput))
  : outcome (string + (ReplayShared * list ReplayTuningResult * option (ReplayTuningResult * ReplayRunOutput))) :=
  match grid with
  | [] => Done (inr (shared, candidates, best))
  | tuning :: grid =>
      match run tuning shared with
      | Done (inr (shared, out)) =>
          let candidate := from_report tuning (report out) in
          tune run grid shared (candidates ++ [candidate])%list (better (candidate, out) best)
      | Done (inl e) => Done (inl e)
      | Panicked => Panicked
      end
  end.

Record HarnessOutput := {
  selected : ReplayRunOutput;
  tuned : option (ReplayTuningResult * list ReplayTuningResult);
  applied : option (string * string) }.

Definition auto_apply_env_path : option string := nonempty env "REPLAY_AUTO_TUNE_APPLY_PATH".
(** The file written, when the tuning is applied. *)
Definition maybe_apply_recommended_env (recommended : list (string * string)) : option (string * string) :=
  if negb (flag env "REPLAY_AUTO_TUNE_APPLY") then None
  else Some (default "exports/replay_auto_tune.env" auto_apply_env_path, env_file recommended).

Definition ether_of (x : f64) : string + U256 := parse_ether (display_f64 x).
(** What is asked before a case is run. *)
Definition prepare_harness
  : outcome (string + (u64 * list ReplayInputCase * list HistoricalOutcomeProfile * U256 * U256)) :=
  fork_url <-r of_result (match fork_rpc_url env config with
                          | Some url => inr url
                          | None => inl (cat ["missing Tenderly fork URL for network "; network config])
                          end);;
  input_path <-r of_result (match env "REPLAY_INPUT_PATH" with
                            | Some path => inr path
                            | None => inl "RUN_REPLAY_HARNESS=true requires REPLAY_INPUT_PATH"
                            end);;
  let replay_limit := Nat.max (env_usize env "REPLAY_LIMIT" 500) 1 in
  _ <-r of_result (connect fork_url);;
  replay_block <-r of_result fork_block_number;;
  remote <-r of_result fork_chain_id;;
  remote_chain_id <-r of_outcome (as_u64 remote);;
  if negb (remote_chain_id =? chain_id config) then
    fail (cat ["fork chainId mismatch: config="; show_Z (chain_id config); " remote=";
               show_Z remote_chain_id; " url="; fork_url])
  else
    min_large_swap_wei <-r of_result (ether_of (min_large_swap_eth (mev config)));;
    min_profit_wei <-r of_result (ether_of (min_net_profit_eth (mev config)));;
    cases <-r of_result (load_replay_cases input_path replay_limit);;
    profiles <-r of_result outcome_profiles;;
    ok (replay_block, cases, profiles, min_large_swap_wei, min_profit_wei).

(** [None]: the harness is not asked for. *)
Definition maybe_run_replay_harness (shared : ReplayShared) : outcome (string + option HarnessOutput) :=
  if negb (flag env "RUN_REPLAY_HARNESS") then ok None
  else
    prepared <-r prepare_harness;;
    let '(replay_block, cases, profiles, min_large_swap_wei, min_profit_wei) := prepared in
    let run := run_replay_cases replay_block cases profiles min_large_swap_wei min_profit_wei in
    if flag env "REPLAY_AUTO_TUNE" then
      found <-r tune run (replay_tuning_grid env) shared [] None;;
      let '(_, candidates, best) := found in
      best <-r ok_or best "replay auto-tune produced no candidates";;
      ok (Some {| selected := snd best; tuned := Some (fst best, candidates);
                  applied := maybe_apply_recommended_env (recommended_env (fst best)) |})
    else
      done <-r run ReplayTuning_default shared;;
      ok (Some {| selected := snd done; tuned := None; applied := None |}).
End Replay.
