(* ===== verification/ReplayFacts.v ===== *)
(** * Triples for a run of the replay harness

    [runs P m Q C]: from a state in [P] the step [m] goes on in [Q], or moves on
    to the next case in [C]. The books of a run are counted against a list of
    verdicts, one per case: how many stages it passed, its label, and the reason
    it was counted under. *)
From S2P Require Import Prelude F64 Text Ethers Config Simulator Pnl Payload Opportunity Rpc Adaptive Executor.
From S2P Require Import Calldata Decode Gates Routes ConfigEnv Replay.
#[local] Open Scope Z_scope.
#[local] Open Scope string_scope.
#[local] Open Scope Z_scope.

(** ** Triples *)

Definition runs {A} (P : ReplayRun -> Prop) (m : RunM A) (Q : A -> ReplayRun -> Prop)
    (C : ReplayRun -> Prop) : Prop :=
  forall s, P s ->
  match m s with
  | Done (inr (s', Some a)) => Q a s'
  | Done (inr (s', None)) => C s'
  | _ => True
  end.

Lemma run_ret {A} (P : ReplayRun -> Prop) (a : A) (Q : A -> ReplayRun -> Prop) C :
  (forall s, P s -> Q a s) -> runs P (mret a) Q C.
Proof. intros H s Ps; apply H, Ps. Qed.
Lemma run_bind {A B} P (m : RunM A) (f : A -> RunM B) Q R C :
  runs P m Q C -> (forall a, runs (Q a) (f a) R C) -> runs P (m ≫= f) R C.
Proof.
  intros Hm Hf s Ps. specialize (Hm s Ps). unfold mbind, RunM_bind.
  destruct (m s) as [[e|[s' [a|]]]|]; try done. by apply Hf.
Qed.
Lemma run_pre {A} (P P' : ReplayRun -> Prop) (m : RunM A) Q C :
  (forall s, P' s -> P s) -> runs P m Q C -> runs P' m Q C.
Proof. intros H T s Ps. by apply T, H. Qed.
Lemma run_continue {A} (P C : ReplayRun -> Prop) (Q : A -> ReplayRun -> Prop) :
  (forall s, P s -> C s) -> runs P continue_ Q C.
Proof. intros H s Ps; apply H, Ps. Qed.
Lemma run_fail {A} P e (Q : A -> ReplayRun -> Prop) C : runs P (fail_ e) Q C.
Proof. by intros s _. Qed.
Lemma run_modify (P C : ReplayRun -> Prop) f (Q : unit -> ReplayRun -> Prop) :
  (forall s, P s -> Q tt (f s)) -> runs P (modify f) Q C.
Proof. intros H s Ps; apply H, Ps. Qed.
Lemma run_gets {A} (P C : ReplayRun -> Prop) (f : ReplayRun -> A) (Q : A -> ReplayRun -> Prop) :
  (forall s, P s -> Q (f s) s) -> runs P (gets f) Q C.
Proof. intros H s Ps; apply H, Ps. Qed.
Lemma run_res {A} P (r : string + A) (Q : A -> ReplayRun -> Prop) C :
  (forall a s, r = inr a -> P s -> Q a s) -> runs P (of_res r) Q C.
Proof. intros H s Ps. destruct r as [e|a]; [done|by apply H]. Qed.
Lemma run_panic {A} P (m : outcome A) (Q : A -> ReplayRun -> Prop) C :
  (forall a s, m = Done a -> P s -> Q a s) -> runs P (of_panic m) Q C.
Proof. intros H s Ps. unfold of_panic. destruct m as [a|]; [by apply H|done]. Qed.

(** A predicate of the counters and the rows only: what a step does with the
    clock, the pools and the trace does not matter to it. *)
Record Ledger := {
  lg_books : ReplayReport;
  lg_rows : nat;
  lg_model : bool }.
Definition ledger (s : ReplayRun) : Ledger :=
  {| lg_books := (books s) <[ latency ::= ∅ ]> <[ toxicity ::= ∅ ]>; lg_rows := length (rows s);
     lg_model := bool_decide (is_Some (model s)) |}.
Definition over (P : Ledger -> Prop) (s : ReplayRun) : Prop := P (ledger s).

Lemma run_quiet {A} (P : Ledger -> Prop) (m : RouteM A) C : runs (over P) (on_shared m) (fun _ => over P) C.
Proof. intros s Ps. unfold on_shared. destruct (m _) as [[r a]|]; [|done]. exact Ps. Qed.
Lemma run_clock `{Host} (P : Ledger -> Prop) C : runs (over P) clock (fun _ => over P) C.
Proof. apply run_quiet. Qed.
Lemma run_mark `{Host} (P : Ledger -> Prop) set started C : runs (over P) (mark set started) (fun _ => over P) C.
Proof.
  eapply run_bind; [apply run_clock|]. intros t. apply run_modify. intros s Ps. exact Ps.
Qed.
Lemma run_close_trace `{Host} (P : Ledger -> Prop) started C :
  runs (over P) (close_trace started) (fun _ => over P) C.
Proof.
  eapply run_bind; [apply run_mark|]. intros ?. apply run_modify. intros s Ps. exact Ps.
Qed.
Lemma run_trace (P : Ledger -> Prop) f C :
  runs (over P) (modify (fun s => s <[ trace ::= f s ]>)) (fun _ => over P) C.
Proof. apply run_modify. intros s Ps. exact Ps. Qed.
Lemma run_look {A} (P C : ReplayRun -> Prop) (f : ReplayRun -> A) : runs P (gets f) (fun _ => P) C.
Proof. by apply run_gets. Qed.
Lemma run_value {A} (P C : ReplayRun -> Prop) (m : outcome A) : runs P (of_panic m) (fun _ => P) C.
Proof. by apply run_panic. Qed.
(** A change of the books. *)
Definition booked (f : ReplayReport -> ReplayReport) (l : Ledger) : Ledger :=
  {| lg_books := f (lg_books l); lg_rows := lg_rows l; lg_model := lg_model l |}.
Definition counters_only (f : ReplayReport -> ReplayReport) : Prop :=
  forall r, (f r) <[ latency ::= ∅ ]> <[ toxicity ::= ∅ ]> = f (r <[ latency ::= ∅ ]> <[ toxicity ::= ∅ ]>).
Lemma run_book (P Q : Ledger -> Prop) f C :
  counters_only f -> (forall l, P l -> Q (booked f l)) ->
  runs (over P) (book f) (fun _ => over Q) C.
Proof.
  intros F H. apply run_modify. intros s Ps. unfold over.
  replace (ledger (s <[ books ::= f (books s) ]>)) with (booked f (ledger s)) by (unfold ledger, booked; f_equal; symmetry; apply F).
  by apply H.
Qed.
Lemma run_toxicity (P : Ledger -> Prop) key executed case wei stage C :
  runs (over P) (book (observe_key key executed case wei stage)) (fun _ => over P) C.
Proof. apply run_modify. intros s Ps. exact Ps. Qed.
Lemma run_row (P Q : Ledger -> Prop) row C :
  (forall l, P l -> Q {| lg_books := lg_books l; lg_rows := S (lg_rows l); lg_model := lg_model l |}) ->
  runs (over P) (push_row row) (fun _ => over Q) C.
Proof.
  intros H. apply run_modify. intros s Ps. specialize (H _ Ps).
  unfold over, ledger in *. cbn in *. by rewrite length_app, Nat.add_1_r.
Qed.

(** ** Verdicts *)

(** The stages a case passed: read (1), decoded (2), the fast gate (3), the
    preflight (4), the payload (5), the EV gate (6), the quality gate (7), the
    policy (8). *)
Record Verdict := {
  v_level : nat;
  v_label : option bool;
  v_reason : option string }.

Definition tally (f : Verdict -> bool) (vs : list Verdict) : Z := foldr (fun v n => Z.b2z (f v) + n) 0 vs.
Lemma tally_snoc f vs v : tally f (vs ++ [v])%list = tally f vs + Z.b2z (f v).
Proof. unfold tally. induction vs as [|w vs IH]; simpl in *; lia. Qed.
Lemma tally_nonneg f vs : 0 <= tally f vs.
Proof. unfold tally. induction vs as [|w vs IH]; simpl in *; [done|]. destruct (f w); simpl; lia. Qed.

Definition reached (j : nat) (v : Verdict) : bool := (j <=? v_level v)%nat.
Definition labelled (executed won : bool) (v : Verdict) : bool :=
  eqb executed (reached 8 v) && match v_label v with Some w => eqb won w | None => false end.
Definition has_label (v : Verdict) : bool := match v_label v with Some _ => true | None => false end.
Definition given (key : string) (v : Verdict) : bool :=
  match v_reason v with Some k => string_eqb key k | None => false end.

(** The counter of stage [j] when the current case has passed [k]. *)
Definition passed (j : nat) (vs : list Verdict) (k : nat) : u64 :=
  wrap64 (tally (reached j) vs + Z.b2z (j <=? k)%nat).

(** The books of the cases in [vs], with one more under way at [k] ([0]: none). *)
Record in_books (vs : list Verdict) (k : nat) (l : Ledger) : Prop := {
  ib_total : rr_total (lg_books l) = passed 1 vs k;
  ib_decoded : rr_decoded (lg_books l) = passed 2 vs k;
  ib_fast : fast_preflight_pass (lg_books l) = passed 3 vs k;
  ib_preflight : adaptive_preflight_pass (lg_books l) = passed 4 vs k;
  ib_payload : payload_built (lg_books l) = passed 5 vs k;
  ib_ev : ev_gate_pass (lg_books l) = passed 6 vs k;
  ib_quality : quality_gate_pass (lg_books l) = passed 7 vs k;
  ib_quote : adaptive_quote_pass (lg_books l) = passed 8 vs k;
  ib_execute : execute_candidates (lg_books l) = passed 8 vs k;
  ib_tp : true_positive (lg_books l) = wrap64 (tally (labelled true true) vs);
  ib_fp : false_positive (lg_books l) = wrap64 (tally (labelled true false) vs);
  ib_fn : false_negative (lg_books l) = wrap64 (tally (labelled false true) vs);
  ib_tn : true_negative (lg_books l) = wrap64 (tally (labelled false false) vs);
  ib_reasons : forall key, default 0 (reasons (lg_books l) !! key) = wrap64 (tally (given key) vs);
  ib_rows : Z.of_nat (lg_rows l) = tally has_label vs;
  ib_model : lg_model l = true }.

Lemma incr_wrap n : incr (wrap64 n) = wrap64 (n + 1).
Proof. unfold incr, wrap64. by rewrite Zplus_mod_idemp_l. Qed.
Lemma passed_close j vs v : (1 <= j)%nat -> passed j (vs ++ [v])%list 0 = passed j vs (v_level v).
Proof.
  intros H. unfold passed. rewrite tally_snoc. unfold reached at 2.
  replace (j <=? 0)%nat with false by (symmetry; apply Nat.leb_gt; lia). simpl. f_equal; lia.
Qed.
Lemma passed_next vs k : passed (S k) vs (S k) = incr (passed (S k) vs k).
Proof.
  unfold passed. rewrite incr_wrap, Nat.leb_refl. replace (S k <=? k)%nat with false by (symmetry; apply Nat.leb_gt; lia).
  simpl. f_equal; lia.
Qed.
Lemma passed_other j vs k : j <> S k -> passed j vs (S k) = passed j vs k.
Proof.
  intros H. unfold passed. do 2 f_equal. f_equal.
  destruct (Nat.leb_spec j (S k)), (Nat.leb_spec j k); try done; lia.
Qed.

(** The counter of each stage. *)
Definition count_stage (k : nat) (r : ReplayReport) : ReplayReport :=
  match k with
  | 1%nat => r <[ rr_total ::= incr (rr_total r) ]>
  | 2%nat => r <[ rr_decoded ::= incr (rr_decoded r) ]>
  | 3%nat => r <[ fast_preflight_pass ::= incr (fast_preflight_pass r) ]>
  | 4%nat => r <[ adaptive_preflight_pass ::= incr (adaptive_preflight_pass r) ]>
  | 5%nat => r <[ payload_built ::= incr (payload_built r) ]>
  | 6%nat => r <[ ev_gate_pass ::= incr (ev_gate_pass r) ]>
  | 7%nat => r <[ quality_gate_pass ::= incr (quality_gate_pass r) ]>
  | 8%nat => r <[ execute_candidates ::= incr (execute_candidates r) ]>
               <[ adaptive_quote_pass ::= incr (adaptive_quote_pass r) ]>
  | _ => r
  end.

Lemma in_books_pass vs k l : (k <= 7)%nat -> in_books vs k l -> in_books vs (S k) (booked (count_stage (S k)) l).
Proof.
  intros H []. do 8 (destruct k as [|k]; [constructor; simpl; first [rewrite passed_next | rewrite passed_other by done | idtac]; congruence|]).
  lia.
Qed.

(** What else a step writes in the books leaves the counters alone. *)
Definition no_counter (f : ReplayReport -> ReplayReport) : Prop :=
  forall vs k l, in_books vs k l -> in_books vs k (booked f l).

Lemma labelled_some ex won k w r :
  labelled ex won {| v_level := k; v_label := Some w; v_reason := r |} = eqb ex (8 <=? k)%nat && eqb won w.
Proof. done. Qed.
Lemma labelled_none ex won k r :
  labelled ex won {| v_level := k; v_label := None; v_reason := r |} = false.
Proof. apply andb_false_r. Qed.
Lemma has_label_none k r : has_label {| v_level := k; v_label := None; v_reason := r |} = false.
Proof. done. Qed.
Lemma has_label_some k w r : has_label {| v_level := k; v_label := Some w; v_reason := r |} = true.
Proof. done. Qed.
Lemma given_none key k w : given key {| v_level := k; v_label := w; v_reason := None |} = false.
Proof. done. Qed.
Lemma given_some key k w r :
  given key {| v_level := k; v_label := w; v_reason := Some r |} = string_eqb key r.
Proof. done. Qed.

(** A case ends without a label, or with one and a row; then its reason is counted. *)
Lemma in_books_end k vs l :
  (1 <= k)%nat -> in_books vs k l ->
  in_books (vs ++ [{| v_level := k; v_label := None; v_reason := None |}])%list 0 l.
Proof.
  intros K []. constructor; rewrite ?passed_close by lia; try done.
  all: intros; rewrite tally_snoc, ?labelled_none, ?has_label_none, ?given_none; cbn [Z.b2z];
    by rewrite Z.add_0_r.
Qed.
Definition with_row (l : Ledger) : Ledger :=
  {| lg_books := lg_books l; lg_rows := S (lg_rows l); lg_model := lg_model l |}.
Lemma in_books_label executed case vs k l :
  (1 <= k)%nat -> executed = (8 <=? k)%nat -> in_books vs k l ->
  in_books (vs ++ [{| v_level := k; v_label := Some (profitable case); v_reason := None |}])%list 0
    (with_row (booked (observe_labeled_outcome executed case) l)).
Proof.
  intros K E []. unfold observe_labeled_outcome.
  constructor; destruct executed, (profitable case); simpl; rewrite ?passed_close by lia; simpl; try done.
  all: intros; rewrite ?Nat2Z.inj_succ, ?tally_snoc, ?labelled_some, ?has_label_some, ?given_none, <- ?E; simpl;
    rewrite ?ib_tp0, ?ib_fp0, ?ib_fn0, ?ib_tn0, ?ib_reasons0, ?incr_wrap, ?Z.add_0_r; try done.
  all: lia.
Qed.
Lemma in_books_bump key k w vs l :
  in_books (vs ++ [{| v_level := k; v_label := w; v_reason := None |}])%list 0 l ->
  in_books (vs ++ [{| v_level := k; v_label := w; v_reason := Some key |}])%list 0 (booked (bump key) l).
Proof.
  intros []. constructor; simpl; unfold passed in *; rewrite tally_snoc in *; try done.
  intros key'. specialize (ib_reasons0 key'). rewrite tally_snoc, given_none in ib_reasons0.
  rewrite tally_snoc, given_some. cbn [Z.b2z] in ib_reasons0. rewrite Z.add_0_r in ib_reasons0.
  destruct (decide (key = key')) as [<-|D].
  - rewrite lookup_insert_eq. simpl. etrans; [exact (f_equal incr ib_reasons0)|].
    by rewrite incr_wrap, (proj2 (string_eqb_eq key key) eq_refl).
  - rewrite lookup_insert_ne by done. etrans; [exact ib_reasons0|].
    rewrite (proj2 (string_eqb_neq key' key)) by congruence. simpl. by rewrite Z.add_0_r.
Qed.
Lemma in_books_gas gas_price gas_limit : no_counter (observe_reject_gas gas_price gas_limit).
Proof. intros vs k l []. by constructor. Qed.

Section Stages.
Context {host : Host} {node : ReplayNode}.
Context (config : Config).
Context (replay_block : u64) (min_large_swap_wei min_profit_wei : U256) (tuning : ReplayTuning).

Abbreviation at_ vs k := (over (in_books vs k)).

(** ** What a case that is executed passed *)

Definition decoded_as (index : u64) (case : ReplayInputCase) (d : Decoded) : Prop :=
  replay_transaction case index = inr (dc_tx d) /\
  decode_relevant_swap abi_decode display_f64 parse_ether (monitored_tokens config) avx2 (dc_tx d)
    min_large_swap_wei (opportunity_mode (mev config)) = Done (Some (dc_signal d)) /\
  dc_gas_price d =
    default 0 (match tx_max_fee_per_gas (dc_tx d) with Some fee => Some fee | None => tx_gas_price (dc_tx d) end) /\
  dc_gas_price d <> 0.
Definition continued (case : ReplayInputCase) (d : Decoded) (cluster : ClusterKey) : Prop :=
  cluster_of_signal (dc_signal d) = Done cluster /\
  exists m t, should_continue (preflight_score rn_exp rn_ln_1p t m
    {| pi_cluster := cluster; pi_notional_eth := wei_to_eth_f64 (sw_notional_wei (dc_signal d));
       pi_gas_price_wei := dc_gas_price d; pi_path_len := length (sw_path (dc_signal d)) |}).2 = true.
Definition built_as (d : Decoded) (payload : ExecutionPayload) : Prop :=
  exists history r r', build_payload (chain := fork_chain history) config config (dc_signal d) (dc_gas_price d)
    (dc_context d) replay_block r = Done (r', Done (inr payload)).
Definition tuned_cost (d : Decoded) (payload : ExecutionPayload) : U256 :=
  safety_gas_cost config payload (tuned_gas_price (dc_gas_price d) tuning).
Definition policy_input (case : ReplayInputCase) (d : Decoded) (cluster : ClusterKey)
    (payload : ExecutionPayload) : AdaptiveQuoteInput :=
  {| qi_cluster := cluster; qi_pair := ep_pair payload; qi_hour_utc := dc_hour d;
     qi_context_priority_score := priority_score (dc_context d);
     qi_context_toxicity_score := Adaptive.toxicity_score (dc_context d);
     qi_expected_profit_wei := ep_expected_profit_wei payload;
     qi_execution_cost_wei := tuned_cost d payload;
     qi_gas_price_wei := tuned_gas_price (dc_gas_price d) tuning;
     qi_lookup_latency_ms := lookup_latency case;
     qi_notional_eth := wei_to_eth_f64 (sw_notional_wei (dc_signal d));
     qi_price_impact_bps := ep_price_impact_bps payload; relay_pressure_override := None |}.
Definition policy_accepts (input : AdaptiveQuoteInput) (quote : AdaptiveQuote) : Prop :=
  should_execute_with_tuning quote tuning = true /\
  exists m ck, quote = (quote_for_relays rn_exp rn_ln_1p ck m input (relay_paths config)).2.

Record accepted (index : u64) (case : ReplayInputCase) (d : Decoded) (cluster : ClusterKey)
    (payload : ExecutionPayload) (quote : AdaptiveQuote) : Prop := {
  ac_decoded : decoded_as index case d;
  ac_fast : fp_should_continue (fast_preflight_gate (dc_signal d) (dc_gas_price d) min_large_swap_wei config
                                  (dc_context d)) = true;
  ac_preflight : continued case d cluster;
  ac_payload : built_as d payload;
  ac_ev : passes_ev_gate display_f64 parse_ether config payload (dc_signal d)
            (f64_as_u64 (lookup_latency case) * millis) min_profit_wei = true;
  ac_quality : passes_quality_gate config payload (tuned_cost d payload) = true;
  ac_policy : policy_accepts (policy_input case d cluster payload) quote }.

Record judged (index : u64) (case : ReplayInputCase) (v : Verdict) : Prop := {
  jd_level : (1 <= v_level v <= 8)%nat;
  jd_label : (v_label v = None /\ (v_level v <= 2)%nat) \/
             (v_label v = Some (profitable case) /\ (2 <= v_level v)%nat);
  jd_reason : is_Some (v_reason v) <-> (v_level v < 8)%nat;
  jd_executed : v_level v = 8%nat -> exists d cluster payload quote, accepted index case d cluster payload quote }.

(** The books are closed with a verdict on the case. *)
Definition closed (index : u64) (case : ReplayInputCase) (vs : list Verdict) (s : ReplayRun) : Prop :=
  exists v, judged index case v /\ at_ (vs ++ [v])%list 0%nat s.

Lemma run_pure {A} (F : Prop) P (m : RunM A) Q C :
  (F -> runs P m Q C) -> runs (fun s => F /\ P s) m Q C.
Proof. intros H s [Hf Ps]. by apply H. Qed.
Lemma run_over_pre {A} (P P' : Ledger -> Prop) (m : RunM A) Q C :
  (forall l, P' l -> P l) -> runs (over P) m Q C -> runs (over P') m Q C.
Proof. intros H. apply run_pre. intros s. apply H. Qed.

Lemma run_leave {A} index case vs k started key (Q : A -> ReplayRun -> Prop) :
  (1 <= k <= 2)%nat -> runs (at_ vs k) (leave started key) Q (closed index case vs).
Proof.
  intros K.
  set (v := {| v_level := k; v_label := None; v_reason := Some key |}).
  eapply run_bind; [eapply (run_book _ (in_books (vs ++ [v])%list 0)); [done|]|intros ?].
  - intros l I. apply in_books_bump. apply (in_books_end k); [lia|exact I].
  - eapply run_bind; [apply run_close_trace|intros ?]. apply run_continue. intros s S.
    exists v. split; [|exact S]. constructor; simpl; [lia|left; split; [done|lia]| |lia].
    split; [lia|by eexists].
Qed.

(** A rejection at [k]; [marked] only reads the clock. *)
Definition silent {A} (m : RunM A) : Prop := forall P C, runs (over P) m (fun _ => over P) C.
Lemma silent_ret {A} (a : A) : silent (mret a).
Proof. intros P C. by apply run_ret. Qed.
Lemma silent_mark set started : silent (mark set started).
Proof. intros P C. apply run_mark. Qed.

Lemma run_reject {A} index case vs k d stage why key gas_limit marked (Q : A -> ReplayRun -> Prop) :
  (2 <= k <= 7)%nat -> silent marked ->
  runs (at_ vs k) (reject_case d case stage why key gas_limit marked) Q (closed index case vs).
Proof.
  intros K S.
  set (v := {| v_level := k; v_label := Some (profitable case); v_reason := Some key |}).
  set (done_ := in_books (vs ++ [v])%list 0).
  assert (R : forall l, in_books vs k l -> done_ (with_row (booked (bump key)
            (booked (observe_reject_gas (dc_gas_price d) gas_limit)
               (booked (observe_labeled_outcome false case) l))))).
  { intros l I. change (in_books (vs ++ [v])%list 0 (booked (bump key)
      (booked (observe_reject_gas (dc_gas_price d) gas_limit)
         (with_row (booked (observe_labeled_outcome false case) l))))).
    apply in_books_bump, in_books_gas, in_books_label; [lia| |done]. symmetry. apply Nat.leb_gt. lia. }
  unfold reject_case, reject. cbn [rj_gas_limit rj_key rj_stage rj_reason].
  eapply run_bind; [eapply (run_book _ (fun l => done_ (with_row (booked (bump key)
    (booked (observe_reject_gas (dc_gas_price d) gas_limit) l))))); [|exact R]|intros ?].
  { intros r. unfold observe_labeled_outcome. by destruct (profitable case). }
  eapply run_bind; [eapply (run_book _ (fun l => done_ (with_row (booked (bump key) l)))); [done|]; by intros|intros ?].
  eapply run_bind; [eapply (run_book _ (fun l => done_ (with_row l))); [done|]; by intros|intros ?].
  eapply run_bind; [|intros ?].
  { eapply run_bind; [apply run_value|intros ?]. apply run_toxicity. }
  eapply run_bind; [apply S|intros ?].
  eapply run_bind; [apply run_close_trace|intros ?].
  eapply run_bind; [eapply (run_row _ done_); by intros|intros ?]. apply run_continue. intros s I.
  exists v. split; [|exact I]. constructor; simpl; [lia|right; split; [done|lia]| |lia].
  split; [lia|by eexists].
Qed.

(** ** The stages *)

Lemma run_passed vs k f C :
  (k <= 7)%nat -> counters_only f ->
  (forall l, in_books vs (S k) (booked (count_stage (S k)) l) -> in_books vs (S k) (booked f l)) ->
  runs (at_ vs k) (book f) (fun _ => at_ vs (S k)) C.
Proof. intros K F H. apply run_book; [done|]. intros l I. by apply H, in_books_pass. Qed.

Lemma decode_stage_ok index case vs :
  runs (at_ vs 0) (decode_stage config min_large_swap_wei tuning index case)
    (fun d s => decoded_as index case d /\ at_ vs 2 s) (closed index case vs).
Proof.
  unfold decode_stage.
  eapply run_bind; [apply run_clock|intros started].
  eapply run_bind; [apply run_trace|intros ?].
  eapply run_bind; [by apply run_passed; [lia|..]|intros ?].
  eapply (run_bind _ _ _ (fun tx s => replay_transaction case index = inr tx /\ at_ vs 1 s));
    [by apply run_res|intros tx]. apply run_pure; intros Htx.
  eapply run_bind; [apply run_clock|intros decode_started].
  eapply (run_bind _ _ _ (fun decoded s => decode_relevant_swap abi_decode display_f64 parse_ether
     (monitored_tokens config) avx2 tx min_large_swap_wei (opportunity_mode (mev config)) = Done decoded /\ at_ vs 1 s));
    [by apply run_panic|intros decoded]. apply run_pure; intros Hdec.
  destruct decoded as [signal|]; [|apply run_leave; lia].
  eapply run_bind; [by apply run_passed; [lia|..]|intros ?].
  eapply run_bind; [apply run_mark|intros ?].
  eapply run_bind; [apply run_clock|intros context_started].
  eapply run_bind; [|intros context].
  { unfold context_step. eapply run_bind; [apply run_look|intros ?]. apply run_ret with (Q := fun _ => at_ vs 2). by intros. }
  eapply run_bind; [apply run_mark|intros ?].
  case_match eqn:G; [apply run_leave; lia|]. apply run_ret. intros s S. split; [|exact S].
  apply Z.eqb_neq in G. by split_and!.
Qed.

Lemma fast_stage_ok index case vs d :
  runs (at_ vs 2) (fast_stage config min_large_swap_wei case d)
    (fun _ s => fp_should_continue (fast_preflight_gate (dc_signal d) (dc_gas_price d) min_large_swap_wei config
                  (dc_context d)) = true /\ at_ vs 3 s) (closed index case vs).
Proof.
  unfold fast_stage. eapply run_bind; [apply run_clock|intros started]. cbv zeta.
  eapply run_bind; [apply run_mark|intros ?].
  destruct (fp_should_continue _) eqn:E; simpl; [|apply run_reject; [lia|apply silent_ret]].
  eapply run_pre; [|eapply run_book with (Q := fun l => true = true /\ in_books vs 3 l)]; [intros s S; exact S|done|].
  intros l I. split; [done|]. exact (in_books_pass vs 2 l ltac:(lia) I).
Qed.

(** A stage that is passed with a fact. *)
Lemma run_passed_with {A} (F : A -> Prop) vs k f (a : A) C :
  (k <= 7)%nat -> counters_only f -> F a ->
  (forall l, in_books vs (S k) (booked (count_stage (S k)) l) -> in_books vs (S k) (booked f l)) ->
  runs (at_ vs k) (book f;; mret a) (fun a s => F a /\ at_ vs (S k) s) C.
Proof.
  intros K Cf Fa H. eapply run_bind; [by apply run_passed|intros ?]. by apply run_ret.
Qed.

Lemma preflight_stage_ok index case vs d :
  runs (at_ vs 3) (preflight_stage config case d)
    (fun cluster s => continued case d cluster /\ at_ vs 4 s) (closed index case vs).
Proof.
  unfold preflight_stage.
  eapply (run_bind _ _ _ (fun cluster s => cluster_of_signal (dc_signal d) = Done cluster /\ at_ vs 3 s));
    [by apply run_panic|intros cluster]. apply run_pure; intros Hc.
  eapply run_bind; [apply run_clock|intros started].
  eapply (run_bind _ _ _ (fun p s => (exists m t, p = (preflight_score rn_exp rn_ln_1p t m
    {| pi_cluster := cluster; pi_notional_eth := wei_to_eth_f64 (sw_notional_wei (dc_signal d));
       pi_gas_price_wei := dc_gas_price d; pi_path_len := length (sw_path (dc_signal d)) |}).2) /\ at_ vs 3 s)).
  { unfold preflight_step.
    eapply (run_bind _ _ _ (fun m s => is_Some m /\ at_ vs 3 s)).
    { apply run_gets. intros s S. split; [|exact S]. exact (proj1 (bool_decide_eq_true _) (ib_model _ _ _ S)). }
    intros m. apply run_pure. intros [m' ->].
    do 2 (eapply run_bind; [apply run_clock|intros ?]).
    destruct (preflight_score _ _ _ _ _) as [m p] eqn:E.
    eapply run_bind; [apply run_modify with (Q := fun _ => at_ vs 3); intros s []; by constructor|intros ?].
    apply run_ret. intros s S. split; [|exact S]. eexists _, _. by rewrite E. }
  intros p. apply run_pure. intros (m & t & Hp).
  eapply run_bind; [apply run_mark|intros ?].
  destruct (should_continue p) eqn:E; simpl; [|apply run_reject; [lia|apply silent_ret]].
  apply run_passed_with; [lia|done| |done]. split; [done|]. exists m, t. by rewrite <- Hp.
Qed.

Lemma payload_stage_ok index case vs d :
  runs (at_ vs 4) (payload_stage config replay_block case d)
    (fun payload s => built_as d payload /\ at_ vs 5 s) (closed index case vs).
Proof.
  unfold payload_stage. eapply run_bind; [apply run_clock|intros started].
  eapply (run_bind _ _ _ (fun b s => (forall p, b = inr p -> built_as d p) /\ at_ vs 4 s)).
  { unfold build_step. eapply run_bind; [apply run_look|intros history].
    intros s S. unfold mbind, RunM_bind, on_shared.
    destruct (build_payload _ _ _ _ _ _ _) as [[r b]|] eqn:E; [|done]. destruct b as [b|]; [|done]. simpl.
    split; [|exact S]. intros p ->. by eexists _, _, _. }
  intros [e|p]; apply run_pure; intros H; [apply run_reject; [lia|apply silent_mark]|].
  eapply run_bind; [apply run_mark|intros ?]. apply run_passed_with; [lia|done|by apply H|].
  intros l []. by constructor.
Qed.

Lemma ev_stage_ok index case vs d payload :
  runs (at_ vs 5) (ev_stage config min_profit_wei case d payload)
    (fun _ s => passes_ev_gate display_f64 parse_ether config payload (dc_signal d)
       (f64_as_u64 (lookup_latency case) * millis) min_profit_wei = true /\ at_ vs 6 s) (closed index case vs).
Proof.
  unfold ev_stage. eapply run_bind; [apply run_clock|intros started]. cbv zeta.
  destruct (passes_ev_gate _ _ _ _ _ _ _); simpl; [|apply run_reject; [lia|apply silent_mark]].
  eapply run_bind; [apply run_mark|intros ?].
  apply run_book with (P := in_books vs 5) (Q := fun l => true = true /\ in_books vs 6 l); [done|].
  intros l I. split; [done|]. exact (in_books_pass vs 5 l ltac:(lia) I).
Qed.

Lemma quality_stage_ok index case vs d payload :
  runs (at_ vs 6) (quality_stage config tuning case d payload)
    (fun cost s => (passes_quality_gate config payload (tuned_cost d payload) = true /\
                    cost = tuned_cost d payload) /\ at_ vs 7 s) (closed index case vs).
Proof.
  unfold quality_stage. cbv zeta. eapply run_bind; [apply run_clock|intros started].
  fold (tuned_cost d payload).
  destruct (passes_quality_gate _ _ _) eqn:E; simpl; [|apply run_reject; [lia|apply silent_mark]].
  eapply run_bind; [apply run_mark|intros ?]. by apply run_passed_with; [lia|..].
Qed.

Lemma quote_stage_ok index case vs d cluster payload :
  runs (at_ vs 7) (quote_stage config tuning case d cluster payload (tuned_cost d payload))
    (fun quote s => policy_accepts (policy_input case d cluster payload) quote /\ at_ vs 7 s)
    (closed index case vs).
Proof.
  unfold quote_stage. eapply run_bind; [apply run_clock|intros started].
  fold (policy_input case d cluster payload).
  eapply (run_bind _ _ _ (fun q s => (exists m ck, q = (quote_for_relays rn_exp rn_ln_1p ck m
    (policy_input case d cluster payload) (relay_paths config)).2) /\ at_ vs 7 s)).
  { unfold quote_step.
    eapply (run_bind _ _ _ (fun m s => is_Some m /\ at_ vs 7 s)).
    { apply run_gets. intros s S. split; [|exact S]. exact (proj1 (bool_decide_eq_true _) (ib_model _ _ _ S)). }
    intros m. apply run_pure. intros [m' ->].
    eapply run_bind; [apply run_look|intros w].
    destruct (quote_for_relays _ _ _ _ _ _) as [m q] eqn:E.
    eapply run_bind; [apply run_modify with (Q := fun _ => at_ vs 7); intros s []; by constructor|intros ?].
    eapply run_bind; [apply run_quiet|intros ?].
    apply run_ret. intros s S. split; [|exact S]. eexists _, _. by rewrite E. }
  intros q. apply run_pure. intros Hq. eapply run_bind; [apply run_mark|intros ?].
  destruct (should_execute_with_tuning q tuning) eqn:E; simpl; [|apply run_reject; [lia|apply silent_ret]].
  apply run_ret. intros s S. by split.
Qed.

(** *** The fork *)

Lemma silent_bind {A B} (m : RunM A) (f : A -> RunM B) :
  silent m -> (forall a, silent (f a)) -> silent (m ≫= f).
Proof. intros Hm Hf P C. eapply run_bind; [apply Hm|intros a; apply Hf]. Qed.
Lemma silent_gets {A} (f : ReplayRun -> A) : silent (gets f).
Proof. intros P C. apply run_look. Qed.
Lemma silent_value {A} (m : outcome A) : silent (of_panic m).
Proof. intros P C. apply run_value. Qed.
Lemma silent_try {A B} (m : RunM (string + A)) (f : A -> RunM (string + B)) :
  silent m -> (forall a, silent (f a)) -> silent (try_run m f).
Proof. intros Hm Hf. apply silent_bind; [done|]. intros [e|a]; [apply silent_ret|apply Hf]. Qed.
Lemma silent_send raw : silent (send_raw raw).
Proof.
  apply silent_bind; [apply silent_gets|intros a]. apply silent_bind; [|intros ?; apply silent_ret].
  intros P C. apply run_modify. intros s Ps. exact Ps.
Qed.
Lemma silent_fork payload gas_price : silent (execute_payload_on_fork config payload gas_price).
Proof.
  unfold execute_payload_on_fork, attempt, on_fork, ok_or_run.
  repeat first [apply silent_try; [first [apply silent_ret|apply silent_gets|apply silent_send]|intros ?]
               |apply silent_bind; [apply silent_value|intros ?]|apply silent_ret].
Qed.
Lemma run_uncounted vs k f C :
  counters_only f -> no_counter f -> runs (at_ vs k) (book f) (fun _ => at_ vs k) C.
Proof. intros F N. apply run_book; [done|]. intros l. apply N. Qed.
Ltac uncounted := apply run_uncounted; [done|intros ? ? ? []; by constructor].
Lemma fork_step_ok vs k payload gas_price C :
  runs (at_ vs k) (fork_step config payload gas_price) (fun _ => at_ vs k) C.
Proof.
  unfold fork_step. case_match; [by apply run_ret|].
  eapply run_bind; [uncounted|intros ?]. eapply run_bind; [apply silent_fork|intros [e|o]].
  - eapply run_bind; [uncounted|intros ?]. case_match; [apply run_fail|by apply run_ret].
  - eapply (run_bind _ _ _ (fun _ => at_ vs k)); [by case_match; uncounted|intros ?].
    eapply run_bind; [uncounted|intros ?]. case_match; [apply run_fail|by apply run_ret].
Qed.

(** *** Execution *)

Lemma execute_stage_ok index case vs d cluster payload quote C :
  accepted index case d cluster payload quote ->
  runs (at_ vs 7) (execute_stage config tuning case d payload quote) (fun _ => closed index case vs) C.
Proof.
  intros Acc. unfold execute_stage.
  set (v := {| v_level := 8; v_label := Some (profitable case); v_reason := None |}).
  eapply run_bind; [by apply run_passed; [lia|..]|intros ?].
  eapply run_bind; [apply fork_step_ok|intros ?].
  eapply run_bind; [eapply (run_book _ (fun l => in_books (vs ++ [v])%list 0 (with_row l)))|intros ?].
  { intros r. unfold observe_labeled_outcome. by destruct (profitable case). }
  { intros l I. destruct (in_books_label true case vs 8 l ltac:(lia) eq_refl I).
    destruct (profitable case); by constructor. }
  eapply run_bind; [apply run_toxicity|intros ?]. eapply run_bind; [apply run_close_trace|intros ?].
  eapply run_bind; [apply run_look|intros total].
  apply run_modify. intros s S. exists v. split.
  - constructor; simpl; [lia|right; split; [done|lia]| |by intros; eexists _, _, _, _].
    split; [by intros [? ?]|lia].
  - unfold over, ledger in *. cbn in *. rewrite length_app, Nat.add_1_r. exact S.
Qed.

Lemma run_case_ok index case vs :
  runs (at_ vs 0) (run_case config replay_block min_large_swap_wei min_profit_wei tuning index case)
    (fun _ => closed index case vs) (closed index case vs).
Proof.
  unfold run_case.
  eapply run_bind; [apply decode_stage_ok|intros d]. apply run_pure; intros Hd.
  eapply run_bind; [apply fast_stage_ok|intros ?]. apply run_pure; intros Hf.
  eapply run_bind; [apply preflight_stage_ok|intros cluster]. apply run_pure; intros Hc.
  eapply run_bind; [apply payload_stage_ok|intros payload]. apply run_pure; intros Hp.
  eapply run_bind; [apply ev_stage_ok|intros ?]. apply run_pure; intros He.
  eapply run_bind; [apply quality_stage_ok|intros cost]. apply run_pure; intros [Hq ->].
  eapply run_bind; [apply quote_stage_ok|intros quote]. apply run_pure; intros Ha.
  eapply execute_stage_ok. by constructor.
Qed.

(** ** A run *)

Inductive verdicts : nat -> list ReplayInputCase -> list Verdict -> Prop :=
| verdicts_nil index : verdicts index [] []
| verdicts_cons index case cases v vs :
    judged (Z.of_nat index) case v -> verdicts (S index) cases vs ->
    verdicts index (case :: cases) (v :: vs).

Lemma run_cases_ok cases : forall index vs s s',
  at_ vs 0%nat s ->
  run_cases config replay_block min_large_swap_wei min_profit_wei tuning index cases s = Done (inr s') ->
  exists ws, verdicts index cases ws /\ at_ (vs ++ ws)%list 0%nat s'.
Proof.
  induction cases as [|case cases IH]; intros index vs s s' A H; simpl in H.
  - injection H as <-. exists []. split; [constructor|by rewrite app_nil_r].
  - pose proof (run_case_ok (Z.of_nat index) case vs s A) as R.
    destruct (run_case _ _ _ _ _ _ _ s) as [[e|[s1 r]]|]; try done.
    assert (closed (Z.of_nat index) case vs s1) as (v & J & B) by by destruct r.
    destruct (IH _ _ _ _ B H) as (ws & V & W). exists (v :: ws). split; [by constructor|].
    by rewrite <- app_assoc in W.
Qed.
Lemma start_run_at profiles shared : at_ [] 0%nat (start_run config profiles shared).
Proof. by constructor. Qed.
End Stages.
