(* ===== verification/TextFacts.v ===== *)
(** * Facts about text

    Strings all of whose characters satisfy a test, what trimming and splitting do
    to them, and the decimal digits [show_Z] prints, read back by the parsers. *)
From S2P Require Import Prelude F64 Text.
#[local] Open Scope string_scope.
#[local] Open Scope Z_scope.

(** ** Characters *)

Fixpoint all_chars (p : ascii -> bool) (s : string) : bool :=
  match s with "" => true | String c t => p c && all_chars p t end.

Lemma app_empty s : s +:+ "" = s.
Proof. induction s as [|c s IH]; [done|exact (f_equal (String c) IH)]. Qed.
Lemma app_string_assoc s t u : s +:+ (t +:+ u) = (s +:+ t) +:+ u.
Proof. induction s as [|c s IH]; [done|exact (f_equal (String c) IH)]. Qed.
Lemma all_chars_app p s t : all_chars p (s +:+ t) = all_chars p s && all_chars p t.
Proof. induction s as [|c s IH]; simpl; [done|]. by rewrite IH, andb_assoc. Qed.
Lemma all_chars_impl (p q : ascii -> bool) s :
  (forall c, p c = true -> q c = true) -> all_chars p s = true -> all_chars q s = true.
Proof.
  intros H. induction s as [|c s IH]; simpl; [done|]. intros [A B]%andb_true_iff.
  by rewrite (H c A), IH.
Qed.

Lemma trim_end_by_all p s : all_chars (negb ∘ p) s = true -> trim_end_by p s = s.
Proof.
  induction s as [|c s IH]; simpl; [done|]. intros [A B]%andb_true_iff.
  rewrite (IH B). apply negb_true_iff in A. rewrite A. by destruct s.
Qed.
Lemma trim_all s : all_chars (negb ∘ is_whitespace) s = true -> trim s = s.
Proof.
  intros H. unfold trim, trim_by. rewrite trim_end_by_all; destruct s as [|c s]; try done; simpl in *;
    apply andb_true_iff in H as [A B]; apply negb_true_iff in A; rewrite A; simpl; by rewrite ?A, ?B.
Qed.

Lemma split_app sep s t :
  all_chars (fun c => negb (Ascii.eqb c sep)) s = true -> split sep (s +:+ String sep t) = s :: split sep t.
Proof.
  induction s as [|c s IH]; simpl; [by rewrite Ascii.eqb_refl|]. intros [A B]%andb_true_iff.
  apply negb_true_iff in A. by rewrite A, (IH B).
Qed.
Lemma split_all sep s : all_chars (fun c => negb (Ascii.eqb c sep)) s = true -> split sep s = [s].
Proof.
  induction s as [|c s IH]; simpl; [done|]. intros [A B]%andb_true_iff.
  apply negb_true_iff in A. by rewrite A, (IH B).
Qed.
Lemma split_once_app sep s t :
  all_chars (fun c => negb (Ascii.eqb c sep)) s = true -> split_once sep (s +:+ String sep t) = Some (s, t).
Proof.
  induction s as [|c s IH]; simpl; [by rewrite Ascii.eqb_refl|]. intros [A B]%andb_true_iff.
  apply negb_true_iff in A. by rewrite A, (IH B).
Qed.

(** ** Decimal digits *)

Lemma pretty_N_go_app x s t : pretty_N_go x s +:+ t = pretty_N_go x (s +:+ t).
Proof.
  revert s. induction (N.lt_wf_0 x) as [x _ IH]; intros s.
  assert (x = 0 \/ 0 < x)%N as [->|P] by lia; [by rewrite !pretty_N_go_0|].
  rewrite !(pretty_N_go_step x) by done. rewrite IH by (apply N.div_lt; lia). done.
Qed.
Lemma digit_pretty x : (x < 10)%N -> digit (pretty_N_char x) = Some (Z.of_N x).
Proof.
  intros H. destruct x as [|p]; [done|].
  do 4 (destruct p as [p|p|]; try done; try lia).
Qed.

(** What reads digits one by one reads [pretty_N_go] as its number. *)
Lemma digits_acc_pretty x s acc :
  exists k, 0 <= k /\ digits_acc (pretty_N_go x s) acc = digits_acc s (acc * 10 ^ k + Z.of_N x).
Proof.
  revert s acc. induction (N.lt_wf_0 x) as [x _ IH]; intros s acc.
  assert (x = 0 \/ 0 < x)%N as [->|P] by lia.
  { exists 0. split; [done|]. rewrite pretty_N_go_0. f_equal. simpl. lia. }
  rewrite pretty_N_go_step by done. destruct (IH (x / 10)%N (N.div_lt x 10 P ltac:(lia)) (String (pretty_N_char (x mod 10)) s) acc)
    as (k & K & ->). exists (k + 1). split; [lia|]. cbn [digits_acc].
  rewrite digit_pretty by (apply N.mod_lt; lia). cbn [mbind option_bind]. f_equal.
  rewrite N2Z.inj_div, N2Z.inj_mod, Z.pow_add_r by lia.
  pose proof (Z.div_mod (Z.of_N x) 10). change (Z.of_N 10) with 10. change (10 ^ 1) with 10. lia.
Qed.
Lemma take_digits_pretty x s acc len :
  exists k, take_digits (pretty_N_go x s) acc len = take_digits s (acc * 10 ^ Z.of_nat k + Z.of_N x) (len + k).
Proof.
  revert s acc len. induction (N.lt_wf_0 x) as [x _ IH]; intros s acc len.
  assert (x = 0 \/ 0 < x)%N as [->|P] by lia.
  { exists 0%nat. rewrite pretty_N_go_0, Nat.add_0_r. f_equal. simpl. lia. }
  rewrite pretty_N_go_step by done.
  destruct (IH (x / 10)%N (N.div_lt x 10 P ltac:(lia)) (String (pretty_N_char (x mod 10)) s) acc len) as (k & ->).
  exists (S k). cbn [take_digits].
  rewrite digit_pretty by (apply N.mod_lt; lia).
  rewrite N2Z.inj_div, N2Z.inj_mod, Nat2Z.inj_succ, Z.pow_succ_r by lia.
  pose proof (Z.div_mod (Z.of_N x) 10). change (Z.of_N 10) with 10. f_equal; lia.
Qed.

(** [show_Z] of a number that is not negative: digits, the first of them a digit. *)
Lemma show_Z_N n : 0 <= n -> show_Z n = pretty (Z.to_N n).
Proof. intros H. unfold show_Z. by destruct n. Qed.
Lemma all_chars_pretty_go p x s :
  (forall y, p (pretty_N_char y) = true) -> all_chars p s = true -> all_chars p (pretty_N_go x s) = true.
Proof.
  intros H. revert s. induction (N.lt_wf_0 x) as [x _ IH]; intros s S.
  assert (x = 0 \/ 0 < x)%N as [->|P] by lia; [by rewrite pretty_N_go_0|].
  rewrite pretty_N_go_step by done. apply IH; [apply N.div_lt; lia|]. simpl. by rewrite H, S.
Qed.
Lemma all_chars_show p n :
  0 <= n -> (forall y, p (pretty_N_char y) = true) -> all_chars p (show_Z n) = true.
Proof.
  intros H P. rewrite show_Z_N by done. unfold pretty, pretty_N. case_decide; [exact (andb_true_intro (conj (P 0%N) eq_refl))|].
  by apply all_chars_pretty_go.
Qed.
Lemma pretty_go_first x s : (0 < x)%N -> exists y t, (y < 10)%N /\ pretty_N_go x s = String (pretty_N_char y) t.
Proof.
  revert s. induction (N.lt_wf_0 x) as [x _ IH]; intros s P. rewrite pretty_N_go_step by done.
  destruct (N.eq_0_gt_0_cases (x / 10)) as [->|Q].
  - rewrite pretty_N_go_0. eexists _, _. split; [|done]. apply N.mod_lt; lia.
  - apply IH; [apply N.div_lt; lia|done].
Qed.
Lemma show_Z_first n : 0 <= n -> exists y t, (y < 10)%N /\ show_Z n = String (pretty_N_char y) t.
Proof.
  intros H. rewrite show_Z_N by done. unfold pretty, pretty_N. case_decide; [by exists 0%N, ""|].
  apply pretty_go_first. lia.
Qed.

(** Reading back what was printed. *)
Lemma take_digits_show n s :
  0 <= n -> exists k, take_digits (show_Z n +:+ s) 0 0 = take_digits s n (S k).
Proof.
  intros H. rewrite show_Z_N by done. unfold pretty, pretty_N. case_decide as D.
  { exists 0%nat. simpl. do 2 f_equal. lia. }
  assert (0 < Z.to_N n)%N as P by lia. rewrite pretty_N_go_step by done. rewrite pretty_N_go_app.
  change (String (pretty_N_char (Z.to_N n mod 10)) "" +:+ s) with (String (pretty_N_char (Z.to_N n mod 10)) s).
  destruct (take_digits_pretty (Z.to_N n / 10) (String (pretty_N_char (Z.to_N n mod 10)) s) 0 0) as (k & ->).
  exists k. cbn [take_digits]. rewrite digit_pretty by (apply N.mod_lt; lia).
  rewrite N2Z.inj_div, N2Z.inj_mod, Z2N.id by lia.
  pose proof (Z.div_mod n 10). change (Z.of_N 10) with 10. f_equal; lia.
Qed.
Lemma parse_show mx n : 0 <= n <= mx -> parse_uint mx (show_Z n) = Some n.
Proof.
  intros [H M]. unfold parse_uint. destruct (show_Z_first n H) as (y & t & Y & E).
  assert (D : digits_acc (show_Z n) 0 = Some n).
  { rewrite show_Z_N by done. unfold pretty, pretty_N. case_decide as C; [simpl; f_equal; lia|].
    destruct (digits_acc_pretty (Z.to_N n) "" 0) as (k & K & ->). simpl. f_equal. lia. }
  assert (all_digits (match show_Z n with String "+" t => t | _ => show_Z n end) = Some n) as ->.
  { rewrite E in D |- *. clear E. destruct y as [|p]; [exact D|].
    do 4 (destruct p as [p|p|]; try exact D; try lia). }
  simpl. by rewrite (proj2 (Z.leb_le n mx) M).
Qed.
