(* ===== verification/ReplayProps.v ===== *)
(** * Properties of the replay harness

    The books of a run against its verdicts, the choice of a tuning, and what the
    file of the chosen tuning does to the next start ([ConfigEnv]). *)
From S2P Require Import Prelude F64 Text Ethers Config Simulator Pnl Payload Opportunity Rpc Adaptive Executor.
From S2P Require Import Calldata Decode Gates Routes ConfigEnv TextFacts Replay ReplayFacts.
From S2P Require RpcFacts PoolCache PayloadProps EvaluateProps.
#[local] Open Scope Z_scope.
#[local] Open Scope string_scope.
#[local] Open Scope Z_scope.

(** ** The books *)

(** The report and the number of rows are those of the verdicts. *)
Definition balanced (vs : list Verdict) (out : ReplayRunOutput) : Prop :=
  in_books vs 0 {| lg_books := report out; lg_rows := length (decision_rows out); lg_model := true |}.

Section Books.
Context {host : Host} {node : ReplayNode}.
Context (config : Config).

(** C29: a run judges every case once: its report counts exactly the verdicts, each
    counter of a stage the cases that passed it, each label and each reason the
    cases given it, modulo 64 bits; and a case counted as executed was decoded,
    passed the fast gate, the preflight, the EV gate and the quality gate at the
    tuned cost, had a payload built for it, and was accepted by the policy as
    tuned. *)
Theorem replay_counts_its_verdicts block cases profiles mn mp tuning shared shared' out :
  run_replay_cases config block cases profiles mn mp tuning shared = Done (inr (shared', out)) ->
  exists vs, verdicts config block mn mp tuning 0 cases vs /\ balanced vs out.
Proof.
  unfold run_replay_cases. intros H.
  destruct (run_cases _ _ _ _ _ _ _ _) as [[e|s]|] eqn:E; try done. injection H as <- <-.
  destruct (run_cases_ok config block mn mp tuning cases 0 [] _ s (start_run_at config profiles shared) E)
    as (vs & V & B).
  exists vs. split; [exact V|]. destruct B. by constructor.
Qed.
End Books.

Lemma tally_le f g vs : (forall v, f v = true -> g v = true) -> tally f vs <= tally g vs.
Proof.
  intros H. induction vs as [|v vs IH]; simpl; [done|]. specialize (H v).
  destruct (f v), (g v); simpl; lia.
Qed.
Lemma tally_length f vs : tally f vs <= Z.of_nat (length vs).
Proof. induction vs as [|v vs IH]; simpl length; [done|]. rewrite Nat2Z.inj_succ. simpl. destruct (f v); simpl; lia. Qed.
Lemma tally_all f vs : Forall (fun v => f v = true) vs -> tally f vs = Z.of_nat (length vs).
Proof.
  induction 1 as [|v vs F _ IH]; simpl length; [done|]. rewrite Nat2Z.inj_succ. simpl. rewrite F. simpl. lia.
Qed.
Lemma tally_sum f g h vs :
  Forall (fun v => Z.b2z (h v) = Z.b2z (f v) + Z.b2z (g v)) vs -> tally h vs = tally f vs + tally g vs.
Proof. induction 1 as [|v vs F _ IH]; simpl; [done|]. lia. Qed.
Lemma reached_mono i j v : (i <= j)%nat -> reached j v = true -> reached i v = true.
Proof. unfold reached. intros L H. apply Nat.leb_le in H. apply Nat.leb_le. lia. Qed.
Lemma wrap64_small n : 0 <= n < 2 ^ 64 -> wrap64 n = n.
Proof. apply Z.mod_small. Qed.

Section Balance.
Context {host : Host} {node : ReplayNode}.
Context (config : Config) (block : u64) (mn mp : U256) (tuning : ReplayTuning).

Lemma verdicts_length index cases vs :
  verdicts config block mn mp tuning index cases vs -> length vs = length cases.
Proof. induction 1; simpl; congruence. Qed.
Lemma verdicts_forall (P : Verdict -> Prop) index cases vs :
  (forall i c v, judged config block mn mp tuning i c v -> P v) ->
  verdicts config block mn mp tuning index cases vs -> Forall P vs.
Proof. intros H; induction 1; constructor; eauto. Qed.

Lemma judged_reads i c v : judged config block mn mp tuning i c v -> reached 1 v = true.
Proof. intros []. unfold reached. apply Nat.leb_le. lia. Qed.
Lemma judged_executed i c v :
  judged config block mn mp tuning i c v ->
  Z.b2z (reached 8 v) = Z.b2z (labelled true true v) + Z.b2z (labelled true false v).
Proof.
  intros []. unfold labelled, reached in *. destruct (Nat.leb_spec 8 (v_level v)); simpl; [|lia].
  destruct jd_label as [[_ ?]|[-> _]]; [lia|]. by destruct (profitable c).
Qed.
Lemma judged_labelled i c v :
  judged config block mn mp tuning i c v ->
  Z.b2z (has_label v) =
    Z.b2z (reached 8 v) + Z.b2z (labelled false true v || labelled false false v).
Proof.
  intros []. unfold labelled, has_label, reached in *. destruct jd_label as [[-> ?]|[-> _]].
  - destruct (Nat.leb_spec 8 (v_level v)); [lia|done].
  - by destruct (8 <=? v_level v)%nat, (profitable c).
Qed.
Lemma labelled_two v :
  Z.b2z (labelled false true v || labelled false false v) =
    Z.b2z (labelled false true v) + Z.b2z (labelled false false v).
Proof. unfold labelled. by destruct (reached 8 v), (v_label v) as [[]|]. Qed.

(** The report of a run of fewer than 2^64 cases balances: every case is counted
    once in the total, no stage lets more through than the one before, the true and
    false positives are the executed cases, and the four labels together are the
    rows written. *)
Theorem replay_report_balances cases profiles shared shared' out :
  Z.of_nat (length cases) < 2 ^ 64 ->
  run_replay_cases config block cases profiles mn mp tuning shared = Done (inr (shared', out)) ->
  let r := report out in
  rr_total r = Z.of_nat (length cases) /\
  true_positive r + false_positive r = execute_candidates r /\
  true_positive r + false_positive r + true_negative r + false_negative r =
    Z.of_nat (length (decision_rows out)) /\
  adaptive_quote_pass r = execute_candidates r /\
  execute_candidates r <= quality_gate_pass r <= ev_gate_pass r /\
  ev_gate_pass r <= payload_built r <= adaptive_preflight_pass r /\
  adaptive_preflight_pass r <= fast_preflight_pass r <= rr_decoded r /\
  rr_decoded r <= rr_total r.
Proof.
  intros N H. cbv zeta. apply replay_counts_its_verdicts in H as (vs & V & []). simpl in *.
  pose proof (verdicts_length _ _ _ V) as L.
  assert (W : forall f, wrap64 (tally f vs) = tally f vs).
  { intros f. pose proof (tally_nonneg f vs). pose proof (tally_length f vs). apply wrap64_small. lia. }
  assert (P : forall j, (1 <= j)%nat -> passed j vs 0 = tally (reached j) vs).
  { intros j J. unfold passed. replace (j <=? 0)%nat with false by (symmetry; apply Nat.leb_gt; lia).
    simpl. rewrite Z.add_0_r. apply W. }
  rewrite P in * by lia. rewrite W in *.
  pose proof (tally_all _ _ (verdicts_forall _ _ _ _ judged_reads V)).
  pose proof (tally_sum _ _ _ _ (verdicts_forall _ _ _ _ judged_executed V)).
  pose proof (tally_sum _ _ _ _ (verdicts_forall _ _ _ _ judged_labelled V)).
  pose proof (tally_sum _ _ _ vs (proj2 (Forall_forall _ vs) (fun v _ => labelled_two v))).
  assert (M : forall i j, (i <= j)%nat -> tally (reached j) vs <= tally (reached i) vs).
  { intros i j J. apply tally_le. intros v. by apply reached_mono. }
  pose proof (M 1 2 ltac:(lia))%nat. pose proof (M 2 3 ltac:(lia))%nat. pose proof (M 3 4 ltac:(lia))%nat.
  pose proof (M 4 5 ltac:(lia))%nat. pose proof (M 5 6 ltac:(lia))%nat. pose proof (M 6 7 ltac:(lia))%nat.
  pose proof (M 7 8 ltac:(lia))%nat. rewrite L in *. lia.
Qed.
End Balance.

(** ** The search *)

Definition beats (c b : ReplayTuningResult) : bool := (objective_score c >? objective_score b)%f64.
Definition best_among (cs : list ReplayTuningResult) (best : option (ReplayTuningResult * ReplayRunOutput)) : Prop :=
  match best with
  | Some (b, _) => b ∈ cs /\ Forall (fun c => beats c b = false) cs
  | None => cs = []
  end.
Definition tuned_in (ts : list ReplayTuning) (best : option (ReplayTuningResult * ReplayRunOutput)) : Prop :=
  match best with
  | Some (b, out) => exists t, t ∈ ts /\ b = from_report t (report out)
  | None => True
  end.
Lemma better_best cs c out best : best_among cs best -> best_among (cs ++ [c])%list (better (c, out) best).
Proof.
  unfold better. destruct best as [[b o]|]; simpl; [intros [F1 F2]|intros ->].
  - case_match eqn:E; simpl; (split; [set_solver|]); apply Forall_app; split; try done.
    + eapply Forall_impl; [exact F2|]. simpl. intros c' Hc. unfold beats in *.
      destruct (flt (objective_score c) (objective_score c')) eqn:X; [|reflexivity]. rewrite (flt_trans _ _ _ E X) in Hc; discriminate.
    + apply Forall_singleton, flt_irrefl.
    + by apply Forall_singleton.
  - split; [set_solver|]. apply Forall_singleton, flt_irrefl.
Qed.
Lemma better_tuned ts t out best :
  tuned_in ts best -> tuned_in (ts ++ [t])%list (better (from_report t (report out), out) best).
Proof.
  assert (exists t', t' ∈ (ts ++ [t])%list /\ from_report t (report out) = from_report t' (report out)).
  { exists t. split; [set_solver|done]. }
  unfold better. destruct best as [[b o]|]; [|done]. intros (t' & T & ->). case_match; [done|].
  exists t'. split; [apply elem_of_app; by left|done].
Qed.
Lemma tune_spec run grid : forall ts shared candidates best shared' candidates' best',
  tune run grid shared candidates best = Done (inr (shared', candidates', best')) ->
  best_among candidates best -> tuned_in ts best -> length candidates = length ts ->
  best_among candidates' best' /\ tuned_in (ts ++ grid)%list best' /\
  length candidates' = length (ts ++ grid)%list.
Proof.
  induction grid as [|t grid IH]; intros ts shared candidates best shared' candidates' best' H F G L; simpl in H.
  - injection H as <- <- <-. by rewrite app_nil_r.
  - destruct (run t shared) as [[e|[sh out]]|]; try done.
    apply (IH (ts ++ [t])%list) in H; [by rewrite <- app_assoc in H|by apply better_best|by apply better_tuned|].
    rewrite !length_app. simpl. lia.
Qed.
Lemma replay_tuning_grid_nonempty env : replay_tuning_grid env <> [].
Proof. unfold replay_tuning_grid. by case_match. Qed.

(** An auto-tuned harness selects a run of the grid: the tuning it reports is one
    of the grid with the figures of the selected run, one candidate was run for
    each point, and no candidate has a higher objective. It never fails for want
    of candidates. *)
Theorem harness_selects_the_best {host : Host} {node : ReplayNode} config shared out :
  maybe_run_replay_harness config shared = Done (inr (Some out)) ->
  match tuned out with
  | Some (best, candidates) =>
      (exists t, t ∈ replay_tuning_grid env /\ best = from_report t (report (selected out))) /\
      length candidates = length (replay_tuning_grid env) /\ best ∈ candidates /\
      Forall (fun c => beats c best = false) candidates
  | None => flag env "REPLAY_AUTO_TUNE" = false /\ applied out = None
  end.
Proof.
  unfold maybe_run_replay_harness. intros H. case_match; [done|].
  destruct prepare_harness as [[e|[[[[block cases] profiles] mn] mp]]|]; try done. simpl in H.
  destruct (flag env "REPLAY_AUTO_TUNE") eqn:T.
  - destruct (tune _ _ _ _ _) as [[e|[[sh cs] best]]|] eqn:E; try done. simpl in H.
    destruct best as [[best run]|]; [|done]. injection H as <-. simpl.
    apply (tune_spec _ _ []) in E as ([B1 B2] & (t & I & Et) & L); [|done..]. simpl in *.
    split_and!; try done. by exists t.
  - destruct (run_replay_cases _ _ _ _ _ _ _ _) as [[e|[sh o]]|]; try done. injection H as <-. done.
Qed.

(** ** The file of the tuning *)

(** A float as it is read back from two decimals. *)
Definition in_hundredths (x : f64) : f64 :=
  match x with
  | S754_zero s => S754_zero s
  | S754_finite s m e => f64_scaled s (hundredths m e) (-2)
  | _ => x
  end.

Lemma digit_digit_char d : 0 <= d < 10 -> digit (digit_char d) = Some d.
Proof.
  intros H. assert (d = 0 \/ d = 1 \/ d = 2 \/ d = 3 \/ d = 4 \/ d = 5 \/ d = 6 \/ d = 7 \/ d = 8 \/ d = 9) as C by lia.
  by repeat destruct C as [->|C]; [..|subst d].
Qed.
Lemma parse_body_hundredths neg n :
  0 <= n ->
  parse_f64_body neg (show_Z (n / 100) +:+ String "." (String (digit_char (n / 10 mod 10))
                        (String (digit_char (n mod 10)) ""))) = Some (f64_scaled neg n (-2)).
Proof.
  intros H. assert (Q : 0 <= n / 100) by (apply Z.div_pos; lia).
  set (frac := String "." _). destruct (take_digits_show (n / 100) frac Q) as (k & T).
  set (word := to_lower (show_Z (n / 100) +:+ frac)).
  assert (L : string_eqb word "inf" = false /\ string_eqb word "infinity" = false /\ string_eqb word "nan" = false).
  { subst word. destruct (show_Z_first _ Q) as (y & t & Y & ->).
    destruct y as [|p]; [done|]. do 4 try (destruct p as [p|p|]; try done; try lia). }
  destruct L as (L1 & L2 & L3).
  unfold parse_f64_body. fold word. rewrite L1, L2, L3. simpl orb. cbv iota. rewrite T. subst frac.
  cbn [take_digits]. change (digit ".") with (@None Z). cbv iota beta zeta.
  cbn [take_digits]. rewrite !digit_digit_char by (apply Z.mod_pos_bound; lia). cbv iota beta zeta.
  replace (((n / 100 * 10 + n / 10 mod 10) * 10 + n mod 10)) with n; [reflexivity|].
  pose proof (Z.div_mod n 10 ltac:(lia)). pose proof (Z.div_mod (n / 10) 10 ltac:(lia)).
  rewrite Z.div_div in * by lia. change (10 * 10) with 100 in *. lia.
Qed.
Lemma hundredths_nonneg m e : 0 <= hundredths m e.
Proof.
  unfold hundredths. destruct (Z.leb_spec 0 e); [auto with zarith|].
  unfold round_ratio_half_even. assert (0 <= Z.pos m * 100 / 2 ^ (- e)) by (apply Z.div_pos; [lia|apply Z.pow_pos_nonneg; lia]).
  repeat case_match; lia.
Qed.
Lemma parse_hundredths neg n :
  0 <= n -> parse_f64 (show_hundredths neg n) = Some (f64_scaled neg n (-2)).
Proof.
  intros H. pose proof (parse_body_hundredths neg n H) as B. unfold show_hundredths. destruct neg; [exact B|].
  change ("" +:+ ?s) with s. assert (Q : 0 <= n / 100) by (apply Z.div_pos; lia).
  destruct (show_Z_first _ Q) as (y & t & Y & E). rewrite E in B |- *. unfold parse_f64.
  destruct y as [|p]; [exact B|]. do 4 (destruct p as [p|p|]; try exact B; try lia).
Qed.
Lemma parse_fmt_2 x : parse_f64 (fmt_2 x) = Some (in_hundredths x).
Proof.
  destruct x as [s|s| |s m e]; [by destruct s|by destruct s|done|].
  cbn [fmt_2 in_hundredths]. apply parse_hundredths, hundredths_nonneg.
Qed.

(** The characters of the values. *)
Definition value_char (c : ascii) : bool :=
  negb (is_whitespace c) && negb (Ascii.eqb c ",").
Lemma value_digit y : value_char (pretty_N_char y) = true.
Proof. unfold pretty_N_char. by repeat case_match. Qed.
Lemma value_digit_char d : 0 <= d < 10 -> value_char (digit_char d) = true.
Proof.
  intros H. assert (d = 0 \/ d = 1 \/ d = 2 \/ d = 3 \/ d = 4 \/ d = 5 \/ d = 6 \/ d = 7 \/ d = 8 \/ d = 9) as C by lia.
  by repeat destruct C as [->|C]; [..|subst d].
Qed.
Lemma value_show n : 0 <= n -> all_chars value_char (show_Z n) = true.
Proof. intros H. apply all_chars_show; [done|apply value_digit]. Qed.
Lemma value_hundredths neg n : 0 <= n -> all_chars value_char (show_hundredths neg n) = true.
Proof.
  intros H. unfold show_hundredths. rewrite !all_chars_app, value_show by (apply Z.div_pos; lia).
  cbn [all_chars]. rewrite !value_digit_char by (apply Z.mod_pos_bound; lia). by destruct neg.
Qed.
Lemma value_fmt_2 x : all_chars value_char (fmt_2 x) = true.
Proof.
  destruct x as [s|s| |s m e]; [by destruct s|by destruct s|done|]. apply value_hundredths, hundredths_nonneg.
Qed.

(** A line of the file sets its variable. *)
Definition line_char (c : ascii) : bool := negb (is_whitespace c).
Lemma value_line s : all_chars value_char s = true -> all_chars line_char s = true.
Proof. apply all_chars_impl. intros c. unfold value_char, line_char. by intros [A _]%andb_true_iff. Qed.
Lemma line_no_lf s : all_chars line_char s = true -> all_chars (fun c => negb (Ascii.eqb c LF)) s = true.
Proof.
  apply all_chars_impl. intros c H. destruct (Ascii.eqb_spec c LF) as [->|]; [by vm_compute in H|done].
Qed.
Definition key_ok (key : string) : bool :=
  all_chars (fun c => line_char c && negb (Ascii.eqb c "=")) key && negb (starts_with key "#")
  && negb (string_eqb key "").
Lemma key_parts key :
  key_ok key = true -> all_chars line_char key = true /\ all_chars (fun c => negb (Ascii.eqb c "=")) key = true /\
  starts_with key "#" = false /\ string_eqb key "" = false.
Proof.
  intros [[A B%negb_true_iff]%andb_true_iff C%negb_true_iff]%andb_true_iff. split_and!; try done;
    (eapply all_chars_impl; [|exact A]); by intros c [? ?]%andb_true_iff.
Qed.
Lemma apply_line_set env key value :
  key_ok key = true -> all_chars value_char value = true -> value <> "" ->
  apply_line env (key +:+ "=" +:+ value) = set_var env key value.
Proof.
  intros (K & E & S & N)%key_parts V%value_line Ne. unfold apply_line.
  assert (A : all_chars line_char (key +:+ "=" +:+ value) = true) by (by rewrite !all_chars_app, K, V).
  rewrite trim_all by exact A. change ("=" +:+ value) with (String "=" value).
  rewrite split_once_app by done. rewrite !trim_all by done.
  replace (string_eqb (key +:+ String "=" value) "") with false by (by destruct key).
  replace (starts_with (key +:+ String "=" value) "#") with false.
  2: { destruct key as [|c key]; [done|]. simpl in *. by destruct (Ascii.eqb "#" c), key. }
  simpl orb. cbv iota. rewrite N. apply string_eqb_neq in Ne. by rewrite Ne.
Qed.

Definition line_of (kv : string * string) : string := fst kv +:+ "=" +:+ snd kv.
Lemma env_file_lines l :
  Forall (fun kv => all_chars line_char (line_of kv) = true) l ->
  split LF (env_file l) = ((line_of <$> l) ++ [""])%list.
Proof.
  intros H.
  assert (E : forall out, foldl (fun out '(key, value) => out +:+ key +:+ "=" +:+ value +:+ String LF "") out l
                = out +:+ foldr (fun kv t => line_of kv +:+ String LF t) "" l).
  { clear H. induction l as [|[k v] l IH]; intros out; simpl; [by rewrite app_empty|].
    rewrite IH. unfold line_of. simpl fst. simpl snd. by rewrite <- !app_string_assoc. }
  unfold env_file. rewrite E. clear E.
  change ("" +:+ ?t) with t. induction H as [|kv l A _ IH]; [done|]. cbn [foldr].
  by rewrite split_app, IH by (by apply line_no_lf).
Qed.
Definition set_vars (env : Env) (l : list (string * string)) : Env :=
  foldl (fun env kv => set_var env (fst kv) (snd kv)) env l.
Definition pair_ok (kv : string * string) : Prop :=
  key_ok (fst kv) = true /\ all_chars value_char (snd kv) = true /\ snd kv <> "".
Lemma apply_env_file env l :
  Forall pair_ok l -> foldl apply_line env (split LF (env_file l)) = set_vars env l.
Proof.
  intros H. rewrite env_file_lines.
  2: { eapply Forall_impl; [exact H|]. intros [k v] ((K & _)%key_parts & V%value_line & _). unfold line_of.
       simpl in *. by rewrite !all_chars_app, K, V. }
  rewrite foldl_app. change (foldl apply_line env (line_of <$> l) = set_vars env l).
  revert env. induction H as [|[k v] l (K & V & N) _ IH]; intros env; [done|].
  change (foldl apply_line (apply_line env (k +:+ "=" +:+ v)) (line_of <$> l) = set_vars (set_var env k v) l).
  by rewrite apply_line_set, IH.
Qed.

Lemma recommended_ok best : is_u64 (best_gas_extra_bps best) -> Forall pair_ok (recommended_env best).
Proof.
  intros [G _]. assert (F : forall x, fmt_2 x <> "").
  { intros x E. pose proof (parse_fmt_2 x) as P. by rewrite E in P. }
  repeat constructor; simpl; try apply value_fmt_2; try apply F; try by apply value_show.
  intros E. destruct (show_Z_first _ G) as (y & t & _ & X). by rewrite X in E.
Qed.
Lemma grid_of_one {A} (parse : string -> option A) env name defaults v a :
  env name = Some v -> all_chars value_char v = true -> parse v = Some a -> env_grid env parse name defaults = [a].
Proof.
  intros E V P. unfold env_grid. rewrite E, split_all; simpl.
  - rewrite trim_all; [by rewrite P|]. by apply value_line.
  - eapply all_chars_impl; [|exact V]. intros c. unfold value_char. by intros [_ ?]%andb_true_iff.
Qed.

(** C30: the file an auto-tuned run writes, read at the next start, sets exactly the
    four variables of the tuning, and leaves the next search a single candidate:
    the tuning, its floats cut to hundredths. *)
Theorem tuned_file_pins_the_grid best env read_file :
  is_u64 (best_gas_extra_bps best) ->
  env_flag env "REPLAY_AUTO_TUNE_USE_IN_RUNTIME" = true ->
  read_file (tuned_path env) = Some (inr (env_file (recommended_env best))) ->
  exists env', apply_replay_tuned_runtime_env read_file env = inr env' /\
    replay_tuning_grid env' =
      [{| threshold_multiplier := in_hundredths (best_threshold_multiplier best);
          priority_shift := in_hundredths (best_priority_shift best);
          toxicity_shift := in_hundredths (best_toxicity_shift best);
          gas_extra_bps := best_gas_extra_bps best |}] /\
    (forall name, name ∉ (recommended_env best).*1 -> env' name = env name).
Proof.
  intros G F R. unfold apply_replay_tuned_runtime_env. rewrite F, R. simpl negb. cbv iota.
  exists (set_vars env (recommended_env best)). split; [|split].
  - f_equal. by apply apply_env_file, recommended_ok.
  - unfold replay_tuning_grid, env_f64_grid, env_u64_grid.
    rewrite (grid_of_one _ _ "REPLAY_TUNE_THRESHOLD_MULTIPLIERS" _ _ _ eq_refl (value_fmt_2 _) (parse_fmt_2 _)).
    rewrite (grid_of_one _ _ "REPLAY_TUNE_PRIORITY_SHIFTS" _ _ _ eq_refl (value_fmt_2 _) (parse_fmt_2 _)).
    rewrite (grid_of_one _ _ "REPLAY_TUNE_TOXICITY_SHIFTS" _ _ _ eq_refl (value_fmt_2 _) (parse_fmt_2 _)).
    rewrite (grid_of_one _ _ "REPLAY_TUNE_GAS_EXTRA_BPS" _ _ _ eq_refl (value_show _ (proj1 G)) (parse_show U64_MAX _ G)).
    done.
  - intros name N. simpl in N. unfold set_vars, set_var. simpl.
    repeat (rewrite (proj2 (string_eqb_neq name _)) by set_solver). done.
Qed.

(** ** A concrete run

    The triangle of [EvaluateProps], in the scavenger mode: a swap at a low gas
    price is executed, one at a high price is rejected by the preflight; the
    others have no swap, or no gas price. *)

Definition swap_input : Bytes :=
  (SWAP_EXACT_TOKENS_FOR_TOKENS
   ++ concat (to_big_endian 32 <$> [PayloadProps.eth 5; 0; 160; 40; 9; 2; 1; 2]))%list.
Definition a_case (input gas : string) : ReplayInputCase :=
  {| case_tx_hash := None; case_to := "31"; case_input := input; case_value_wei := None;
     case_gas_price_wei := Some gas; case_max_fee_per_gas_wei := None;
     case_lookup_latency_ms := Some 5.0%f64; case_hour_utc := Some 12;
     known_outcome := Some "profitable"; case_realized_profit_eth := Some 0.01%f64 |}.
Definition sample_cases : list ReplayInputCase :=
  [a_case "swap" "20000000"; a_case "none" "1"; a_case "swap" "20000000000"; a_case "swap" "0"].
Definition sample_node : ReplayNode :=
  {| rn_exp := fun x => (1 + x)%f64; rn_ln_1p := fun x => x; utc_hour := 12;
     read_to_string := fun _ => inr "[cases]"; parse_cases := fun _ => inr sample_cases;
     parse_case := fun _ => inl "json"; parse_h256 := fun _ => inr 500;
     parse_address := fun s => match parse_u64 s with Some a => inr a | None => inl "address" end;
     hex_decode := fun s => inr (if string_eqb s "swap" then swap_input else []);
     u256_from_hex := fun _ => None; u256_from_dec := parse_uint U256_MAX;
     wallet_address := fun _ => inr 40; sign_with_wallet := fun _ => inr [1];
     connect := fun _ => inr tt; fork_block_number := inr 100; fork_chain_id := inr 1;
     fork_chain := fun _ => EvaluateProps.sample_chain; fork_nonce := fun _ _ => inr 0;
     fork_balance := fun _ _ _ _ => inr 0; fork_send := fun _ _ => inr 7;
     fork_receipt := fun _ _ => inr None; outcome_profiles := inr [] |}.
Definition sample_shared : ReplayShared :=
  {| sh_route := {| rt_world := {| fleet := RpcFacts.sample_fleet; tick := 10 |};
                    rt_cache := PoolCache.new 500 |}; sent := [] |}.
Abbreviation sample_run :=
  (@run_replay_cases EvaluateProps.sample_host sample_node (EvaluateProps.sample_runtime Scavenger) 100
     sample_cases [] (10 ^ 18) 1 ReplayTuning_default sample_shared).

Lemma replay_counts_its_verdicts_witness :
  exists shared out vs, sample_run = Done (inr (shared, out)) /\
    @verdicts EvaluateProps.sample_host sample_node (EvaluateProps.sample_runtime Scavenger) 100
      (10 ^ 18) 1 ReplayTuning_default 0 sample_cases vs /\
    balanced vs out /\ execute_candidates (report out) = 1 /\ rr_decoded (report out) = 3.
Proof.
  assert (V : match sample_run with
              | Done (inr (_, out)) => execute_candidates (report out) = 1 /\ rr_decoded (report out) = 3
              | _ => False
              end) by (vm_compute; split; reflexivity).
  destruct (@run_replay_cases _ _ _ _ _ _ _ _ _ _) as [[e|[shared out]]|] eqn:E; [destruct V| |destruct V].
  destruct (replay_counts_its_verdicts _ _ _ _ _ _ _ _ _ _ E) as (vs & J & B).
  exists shared, out, vs. split; [reflexivity|]. split; [exact J|]. split; [exact B|exact V].
Defined.

Lemma replay_report_balances_witness :
  exists shared out, sample_run = Done (inr (shared, out)) /\
    rr_total (report out) = 4 /\
    true_positive (report out) + false_positive (report out) = execute_candidates (report out).
Proof.
  assert (V : match sample_run with Done (inr _) => True | _ => False end) by (vm_compute; exact I).
  destruct (@run_replay_cases _ _ _ _ _ _ _ _ _ _) as [[e|[shared out]]|] eqn:E; [destruct V| |destruct V].
  exists shared, out. split; [reflexivity|].
  assert (N : Z.of_nat (length sample_cases) < 2 ^ 64) by (vm_compute; reflexivity).
  destruct (replay_report_balances _ _ _ _ _ _ _ _ _ _ N E) as (T & P & _). split; [exact T|exact P].
Defined.

Definition harness_env (name : string) : option string :=
  if one_of name ["RUN_REPLAY_HARNESS"; "REPLAY_AUTO_TUNE"; "REPLAY_AUTO_TUNE_APPLY";
                  "REPLAY_AUTO_TUNE_USE_IN_RUNTIME"] then Some "true"
  else if one_of name ["REPLAY_TUNE_PRIORITY_SHIFTS"; "REPLAY_TUNE_TOXICITY_SHIFTS"] then Some "0"
  else if string_eqb name "REPLAY_TUNE_GAS_EXTRA_BPS" then Some "500"
  else if string_eqb name "TENDERLY_FORK_URL_ETHEREUM" then Some "http://fork"
  else if string_eqb name "REPLAY_INPUT_PATH" then Some "cases.json"
  else None.
Definition harness_host : Host :=
  let h := EvaluateProps.sample_host in
  {| ln := @ln h; powf := @powf h; debug_address := @debug_address h; debug_hash := @debug_hash h;
     display_f64 := @display_f64 h; fmt_prec := @fmt_prec h; debug_state := @debug_state h;
     to_json := @to_json h; from_json := @from_json h; parse_ether := @parse_ether h; env := harness_env;
     keccak256 := @keccak256 h; abi_encode := @abi_encode h; abi_decode := @abi_decode h;
     abi_error := @abi_error h; clk := @clk h;
     avx2 := false |}.
Abbreviation sample_harness :=
  (@maybe_run_replay_harness harness_host sample_node (EvaluateProps.sample_runtime Scavenger) sample_shared).

(** Three thresholds, one run each. *)
Lemma harness_selects_the_best_witness :
  exists out best candidates, sample_harness = Done (inr (Some out)) /\
    tuned out = Some (best, candidates) /\ length candidates = 3%nat /\ best ∈ candidates.
Proof.
  assert (V : match sample_harness with
              | Done (inr (Some out)) => match tuned out with Some _ => True | None => False end
              | _ => False
              end) by (vm_compute; exact I).
  destruct (@maybe_run_replay_harness _ _ _ _) as [[e|[out|]]|] eqn:E; [destruct V| |destruct V..].
  pose proof (harness_selects_the_best _ _ _ E) as S.
  destruct (tuned out) as [[best candidates]|] eqn:T; [|destruct V].
  destruct S as (_ & L & M & _). exists out, best, candidates.
  split; [reflexivity|]. split; [exact T|]. split; [exact L|exact M].
Defined.

Definition sample_best : ReplayTuningResult :=
  from_report {| threshold_multiplier := 0.875; priority_shift := -0.125; toxicity_shift := 0.0;
                 gas_extra_bps := 500 |} ReplayReport_default.
(** 0.875 is read back as 0.88. *)
Lemma tuned_file_pins_the_grid_witness :
  exists env', apply_replay_tuned_runtime_env (fun _ => Some (inr (env_file (recommended_env sample_best))))
                 harness_env = inr env' /\
    replay_tuning_grid env' =
      [{| threshold_multiplier := 0.88; priority_shift := -0.12; toxicity_shift := 0.0; gas_extra_bps := 500 |}] /\
    env' "REPLAY_AUTO_TUNE" = Some "true".
Proof.
  destruct (tuned_file_pins_the_grid sample_best harness_env
              (fun _ => Some (inr (env_file (recommended_env sample_best)))))
    as (env' & A & G & O).
  - split; vm_compute; discriminate.
  - reflexivity.
  - reflexivity.
  - exists env'. split; [exact A|]. split.
    + rewrite G. vm_compute. reflexivity.
    + rewrite O; [reflexivity|]. apply (bool_decide_unpack _). vm_compute. exact I.
Defined.

(** With a lower threshold the harness executes a quote that the policy rejects,
    whatever the tests that come after the threshold would have said. *)
Lemma lowered_threshold_skips_the_other_tests :
  quote_decision 0.95 1.0 0.0 1.0 1.0 1.0 Toxic = (false, Some "ev_real_below_threshold") /\
  forall q, should_execute q = false -> reject_reason q = Some "ev_real_below_threshold" ->
    ev_real_usd q = 0.95%f64 -> threshold_dynamic_usd q = 1.0%f64 ->
    should_execute_with_tuning q {| threshold_multiplier := 0.90; priority_shift := 0.0;
                                    toxicity_shift := 0.0; gas_extra_bps := 0 |} = true.
Proof.
  split; [reflexivity|]. intros q E R V T. unfold should_execute_with_tuning. rewrite E, R, V, T. reflexivity.
Qed.
