(* ===== verification/Storage.v ===== *)
(** * Storage ([storage.rs])

    The tables the runtime writes and the dashboard reads. A table with a primary
    key is a finite map from the columns of the key, the others are the list of
    their rows in the order of their ids. A statement is a function of the tables
    that may be refused; its text is read as SQL, and what the database decides
    alone is the class [Database]: which statements it answers and with which
    message it refuses one, integers beyond 64 bits, sums and averages of floats,
    the collation of text, and the order of rows that no [ORDER BY] fixes. Both
    backends run the same statements except where [is_postgres] is asked. The
    schemas and the connection are left out. *)
From S2P Require Import Prelude F64 Text Ethers Adaptive.
#[local] Open Scope string_scope.
#[local] Open Scope Z_scope.

(** ** The database and the clock *)

Definition in_i64 (n : Z) : Prop := - 2 ^ 63 <= n < 2 ^ 63.
(** [as i64], and an integer column read back with [.max(0) as u64]. *)
Definition as_i64 (n : Z) : Z := (n + 2 ^ 63) mod 2 ^ 64 - 2 ^ 63.
Definition column_u64 (n : Z) : u64 := Z.max n 0.

(** [str::parse::<i64>]. *)
Definition parse_i64 (s : string) : option Z :=
  match s with
  | String c t =>
      if Ascii.eqb c "-" then n ← all_digits t; if n <=? 2 ^ 63 then Some (- n) else None
      else parse_uint (2 ^ 63 - 1) s
  | EmptyString => None
  end.

Class Database := {
  is_postgres : bool;
  answers : nat -> bool;
  refusal : nat -> string;
  storable : f64 -> bool;
  int_add : Z -> Z -> option Z;
  int_sum : list Z -> option Z;
  real_sum : list f64 -> f64;
  real_avg : list f64 -> f64;
  int_avg : list Z -> f64;
  text_lt : string -> string -> bool;
  text_as_int : string -> option Z;
  parse_address : string -> option Address;
  bare_row : forall {A : Type}, list A -> option A;
  listing : forall {K V : Type} `{Countable K}, gmap K V -> list (K * V);
  int_add_exact : forall a b c, int_add a b = Some c -> c = a + b;
  int_add_spec : forall a b, in_i64 (a + b) -> int_add a b = Some (a + b);
  int_sum_spec : forall l, Forall (Z.le 0) l -> in_i64 (foldr Z.add 0 l) -> int_sum l = Some (foldr Z.add 0 l);
  listing_perm : forall {K V : Type} `{Countable K} (m : gmap K V), listing m ≡ₚ map_to_list m }.

(** The laws are the documented ones: an integer addition is exact or refused, an
    aggregate over small integers is their sum, a table is listed row by row. *)

(** [Utc::now()] is the time in nanoseconds; [chrono] renders it. *)
Class Chrono := {
  rfc3339 : Z -> string;
  bucket_minute : Z -> string }.

(** A statement's [MAX] of texts, and the order of [REAL]s. *)
Definition text_max `{Database} (a b : string) : string := if text_lt a b then b else a.
Definition real_cmp (a b : f64) : comparison :=
  if flt a b then Lt else if flt b a then Gt else Eq.
(** [ORDER BY a, b, ...] *)
Definition then_by {A} (c d : A -> A -> comparison) (x y : A) : comparison :=
  match c x y with Eq => d x y | o => o end.
Definition desc {A B} (cmp : B -> B -> comparison) (f : A -> B) (x y : A) : comparison := cmp (f y) (f x).
Definition asc {A B} (cmp : B -> B -> comparison) (f : A -> B) (x y : A) : comparison := cmp (f x) (f y).
Definition select {A} (order : A -> A -> comparison) (limit : nat) (rows : list A) : list A :=
  take limit (sort_by order rows).

(** [INSERT ... ON CONFLICT (key) DO UPDATE]. *)
Definition upsert {K V} `{Countable K} (k : K) (row : V) (update : V -> option V) (m : gmap K V) :
  option (gmap K V) :=
  match m !! k with
  | None => Some (<[k := row]> m)
  | Some old => new ← update old; Some (<[k := new]> m)
  end.
Definition check (b : bool) : option unit := if b then Some tt else None.

(** The rows of each group of a [GROUP BY]. *)
Definition group_by {A K} `{Countable K} (key : A -> K) (rows : list A) : gmap K (list A) :=
  foldr (fun row m => <[key row := row :: default [] (m !! key row)]> m) ∅ rows.

(** ** Records of the dashboard that storage reads and writes *)

Record DashboardEvent := {
  ev_at : string;
  ev_level : string;
  ev_message : string }.

Record RelaySnapshot := {
  rl_relay : string;
  rl_score : f64;
  rl_pressure : f64;
  rl_accept_rate : f64;
  rl_inclusion_rate : f64;
  rl_accepted : u64;
  rl_submit_failed : u64;
  rl_included_success : u64;
  rl_included_revert : u64;
  rl_not_included_timeout : u64;
  rl_submit_latency_ms : f64;
  rl_finalization_latency_ms : f64 }.
#[export] Instance RelaySnapshot_eta : RecordEta RelaySnapshot :=
  fields Build_RelaySnapshot <&> rl_relay <&> rl_score <&> rl_pressure <&> rl_accept_rate <&> rl_inclusion_rate
    <&> rl_accepted <&> rl_submit_failed <&> rl_included_success <&> rl_included_revert
    <&> rl_not_included_timeout <&> rl_submit_latency_ms <&> rl_finalization_latency_ms.

Record TreasurySnapshot := {
  tr_at : string;
  tr_executor_address : string;
  tr_vault_address : string;
  tr_profit_address : string;
  tr_balance_eth : f64;
  tr_min_buffer_eth : f64;
  tr_target_buffer_eth : f64;
  tr_max_buffer_eth : f64;
  tr_action : string;
  tr_recommended_amount_eth : f64;
  tr_status : string;
  tr_note : string }.

Record ExecutionOutcomeSnapshot := {
  oc_at : string;
  oc_relay : string;
  oc_target_block : u64;
  oc_pair : string;
  oc_router : string;
  oc_token_in : string;
  oc_token_out : string;
  oc_victim_tx : string;
  oc_outcome : string;
  oc_expected_profit_eth : f64;
  oc_realized_profit_eth : f64;
  oc_gas_used : u64;
  oc_submit_latency_ms : f64;
  oc_finalization_latency_ms : f64 }.

Record ToxicitySnapshot := {
  tx_hour_utc : u8;
  tx_pair : string;
  tx_router : string;
  tx_samples : u64;
  tx_success_rate : f64;
  tx_miss_rate : f64;
  tx_revert_rate : f64;
  tx_realized_capture : f64;
  tx_toxicity_score : f64 }.

Record UnsupportedSelectorRecord := {
  us_target : string;
  us_selector : string;
  us_inner_selector : string;
  us_token_hints : string;
  us_input_bytes : u64;
  us_sample_tx : string;
  us_sample_calldata_prefix : string;
  us_route_hint : string }.

Record SelectorPerformanceSnapshot := {
  sp_selector : string;
  sp_target : string;
  sp_decode_source : string;
  sp_partial_signal : u64;
  sp_payload_built : u64;
  sp_payload_reject : u64;
  sp_confidence_reject : u64;
  sp_ev_gate_pass : u64;
  sp_ev_gate_reject : u64;
  sp_execution_ready : u64;
  sp_submit_attempted : u64;
  sp_total : u64;
  sp_avg_confidence : f64;
  sp_avg_gas_gwei : f64;
  sp_built_rate_pct : f64;
  sp_reject_rate_pct : f64;
  sp_classification : string;
  sp_last_seen : string }.

Record SelectorPoolPerformanceSnapshot := {
  pp_selector : string;
  pp_target : string;
  pp_token_pair : string;
  pp_pool : string;
  pp_dex_kind : string;
  pp_fee_tier : u32;
  pp_pool_found : u64;
  pp_pool_missing : u64;
  pp_payload_built : u64;
  pp_shadow_ev_positive : u64;
  pp_shadow_ev_negative : u64;
  pp_partial_entered_payload_builder : u64;
  pp_partial_pool_discovery_attempted : u64;
  pp_partial_pool_found : u64;
  pp_partial_pool_missing : u64;
  pp_partial_shadow_ev_positive : u64;
  pp_partial_shadow_ev_negative : u64;
  pp_partial_replay_candidate_created : u64;
  pp_partial_replay_candidate_rejected : u64;
  pp_total : u64;
  pp_avg_expected_profit : f64;
  pp_avg_liquidity : f64;
  pp_avg_gas_gwei : f64;
  pp_classification : string;
  pp_last_seen : string }.

Record ReplayCandidateRecord := {
  cr_tx_hash : string;
  cr_selector : string;
  cr_target : string;
  cr_pool : string;
  cr_path : string;
  cr_amount_in : string;
  cr_amount_out_min : string;
  cr_gas_gwei : f64;
  cr_block_number : u64;
  cr_expected_profit : f64;
  cr_confidence : f64;
  cr_decode_source : string;
  cr_status : string;
  cr_detail : string }.

Record SelectorReplayScoreSnapshot := {
  rs_selector : string;
  rs_target : string;
  rs_pool : string;
  rs_replay_cases : u64;
  rs_replay_success_count : u64;
  rs_replay_revert_count : u64;
  rs_avg_expected_profit : f64;
  rs_avg_simulated_profit : f64;
  rs_avg_gas_used : f64;
  rs_success_rate_pct : f64;
  rs_revert_rate_pct : f64;
  rs_recommendation : string;
  rs_last_seen : string }.

(** ** Rows *)

Record TelemetryRow := {
  tm_at : string;
  tm_stage : string;
  tm_duration_ms : Z;
  tm_wallet : option string;
  tm_note : option string }.

Record ResidualRow := {
  re_wallet : string;
  re_asset_class : string;
  re_detections : Z;
  re_successful_sweeps : Z;
  re_detected_profit_wei : string;
  re_realized_profit_wei : string;
  re_last_seen_at : string }.

Record RelayRow := {
  rm_network : string;
  rm_last_seen_at : string;
  rm_accepted : Z;
  rm_submit_failed : Z;
  rm_included_success : Z;
  rm_included_revert : Z;
  rm_not_included_timeout : Z;
  rm_submit_latency_ms : f64;
  rm_finalization_latency_ms : f64;
  rm_score : f64;
  rm_pressure : f64;
  rm_accept_rate : f64;
  rm_inclusion_rate : f64 }.

Record UnsupportedRow := {
  un_input_bytes : Z;
  un_count : Z;
  un_first_seen : string;
  un_last_seen : string;
  un_sample_tx : string;
  un_sample_calldata_prefix : string;
  un_route_hint : string }.

Record LatencyRow := {
  lr_samples : Z;
  lr_total_ms : Z;
  lr_max_ms : Z;
  lr_last_ms : Z }.

Record SelectorRow := {
  sr_count : Z;
  sr_confidence_sum : f64;
  sr_gas_gwei_sum : f64;
  sr_last_seen : string }.

Record PoolRow := {
  pr_pool_found_count : Z;
  pr_pool_missing_count : Z;
  pr_payload_built_count : Z;
  pr_shadow_ev_positive_count : Z;
  pr_shadow_ev_negative_count : Z;
  pr_partial_entered_payload_builder_count : Z;
  pr_partial_pool_discovery_attempted_count : Z;
  pr_partial_pool_found_count : Z;
  pr_partial_pool_missing_count : Z;
  pr_partial_shadow_ev_positive_count : Z;
  pr_partial_shadow_ev_negative_count : Z;
  pr_partial_replay_candidate_created_count : Z;
  pr_partial_replay_candidate_rejected_count : Z;
  pr_expected_profit_sum : f64;
  pr_liquidity_sum : f64;
  pr_gas_gwei_sum : f64;
  pr_samples : Z;
  pr_last_seen : string }.

Record CandidateRow := {
  ca_path : string;
  ca_amount_in : string;
  ca_amount_out_min : string;
  ca_gas_gwei : f64;
  ca_block_number : Z;
  ca_expected_profit : f64;
  ca_confidence : f64;
  ca_decode_source : string;
  ca_status : string;
  ca_detail : string;
  ca_created_at : string;
  ca_updated_at : string }.
#[export] Instance CandidateRow_eta : RecordEta CandidateRow :=
  fields Build_CandidateRow <&> ca_path <&> ca_amount_in <&> ca_amount_out_min <&> ca_gas_gwei <&> ca_block_number
    <&> ca_expected_profit <&> ca_confidence <&> ca_decode_source <&> ca_status <&> ca_detail <&> ca_created_at
    <&> ca_updated_at.

Record ReplayScoreRow := {
  sc_replay_cases : Z;
  sc_replay_success_count : Z;
  sc_replay_revert_count : Z;
  sc_expected_profit_sum : f64;
  sc_simulated_profit_sum : f64;
  sc_gas_used_sum : f64;
  sc_last_seen : string }.

Definition RollupKey : Type := string * string * string.                     (* network, bucket, stage *)
Definition ReasonKey : Type := string * string * string * string.            (* network, bucket, stage, reason *)
Definition SelectorKey : Type := string * string * string * string * string * string.
                                         (* network, bucket, selector, target, decode_source, stage *)
Definition PoolKey : Type := string * string * string * string * string * string * string * Z.
                                         (* network, bucket, selector, target, token_pair, pool, dex_kind, fee_tier *)

Record Tables := {
  events : list DashboardEvent;
  sweeps : list string;
  telemetry : list TelemetryRow;
  wallet_residual_stats : list ResidualRow;
  relay_metrics : gmap string RelayRow;
  treasury_rebalance : list (string * TreasurySnapshot);
  execution_outcomes_table : list (string * ExecutionOutcomeSnapshot);
  unsupported_selectors : gmap (string * string * string * string * string) UnsupportedRow;
  latency_rollups : gmap RollupKey LatencyRow;
  funnel_rollups : gmap RollupKey Z;
  reject_reason_rollups : gmap ReasonKey Z;
  selector_performance_rollups : gmap SelectorKey SelectorRow;
  selector_pool_performance_rollups : gmap PoolKey PoolRow;
  replay_candidates : gmap (string * string * string * string * string) CandidateRow;
  selector_replay_scores_table : gmap (string * string * string * string) ReplayScoreRow }.
#[export] Instance Tables_eta : RecordEta Tables :=
  fields Build_Tables <&> events <&> sweeps <&> telemetry <&> wallet_residual_stats <&> relay_metrics
    <&> treasury_rebalance <&> execution_outcomes_table <&> unsupported_selectors <&> latency_rollups
    <&> funnel_rollups <&> reject_reason_rollups <&> selector_performance_rollups
    <&> selector_pool_performance_rollups <&> replay_candidates <&> selector_replay_scores_table.
Definition Tables_empty : Tables := Build_Tables [] [] [] [] ∅ [] [] ∅ ∅ ∅ ∅ ∅ ∅ ∅ ∅.

Record Storage := {
  network : string;
  statements : nat;
  tables : Tables }.
#[export] Instance Storage_eta : RecordEta Storage := fields Build_Storage <&> network <&> statements <&> tables.

(** What the dashboard gathers on a pool between two flushes. *)
Record PendingSelectorPoolPerformanceRollup := {
  bp_bucket : string;
  bp_selector : string;
  bp_target : string;
  bp_token_pair : string;
  bp_pool : string;
  bp_dex_kind : string;
  bp_fee_tier : u32;
  bp_pool_found_count : u64;
  bp_pool_missing_count : u64;
  bp_payload_built_count : u64;
  bp_shadow_ev_positive_count : u64;
  bp_shadow_ev_negative_count : u64;
  bp_partial_entered_payload_builder_count : u64;
  bp_partial_pool_discovery_attempted_count : u64;
  bp_partial_pool_found_count : u64;
  bp_partial_pool_missing_count : u64;
  bp_partial_shadow_ev_positive_count : u64;
  bp_partial_shadow_ev_negative_count : u64;
  bp_partial_replay_candidate_created_count : u64;
  bp_partial_replay_candidate_rejected_count : u64;
  bp_expected_profit_sum : f64;
  bp_liquidity_sum : f64;
  bp_gas_gwei_sum : f64;
  bp_samples : u64 }.
#[export] Instance PendingSelectorPoolPerformanceRollup_eta : RecordEta PendingSelectorPoolPerformanceRollup :=
  fields Build_PendingSelectorPoolPerformanceRollup <&> bp_bucket <&> bp_selector <&> bp_target <&> bp_token_pair
    <&> bp_pool <&> bp_dex_kind <&> bp_fee_tier
    <&> bp_pool_found_count    <&> bp_pool_missing_count
    <&> bp_payload_built_count    <&> bp_shadow_ev_positive_count
    <&> bp_shadow_ev_negative_count    <&> bp_partial_entered_payload_builder_count
    <&> bp_partial_pool_discovery_attempted_count    <&> bp_partial_pool_found_count
    <&> bp_partial_pool_missing_count    <&> bp_partial_shadow_ev_positive_count
    <&> bp_partial_shadow_ev_negative_count    <&> bp_partial_replay_candidate_created_count
    <&> bp_partial_replay_candidate_rejected_count
    <&> bp_expected_profit_sum <&> bp_liquidity_sum <&> bp_gas_gwei_sum <&> bp_samples.

(** ** Statements *)

Definition StorageM (A : Type) : Type := Storage -> Storage * A.
#[export] Instance StorageM_ret : MRet StorageM := fun A a s => (s, a).
#[export] Instance StorageM_bind : MBind StorageM := fun A B f m s => let '(s, a) := m s in f a s.
(** The [?] operator on [Result<_, Box<dyn Error>>]. *)
Definition and_then {A B} (m : StorageM (string + A)) (f : A -> StorageM (string + B)) : StorageM (string + B) :=
  r ← m; match r with inl e => mret (inl e) | inr a => f a end.

Section Operations.
Context `{Database, Chrono}.
Context (env : string -> option string).

Definition statement {A} (f : Tables -> option (Tables * A)) : StorageM (string + A) := fun s =>
  let s' := s <[ statements ::= S (statements s) ]> in
  let refused := inl (refusal (statements s)) in
  if answers (statements s) then
    match f (tables s) with Some (t, a) => (s' <[ tables ::= t ]>, inr a) | None => (s', refused) end
  else (s', refused).
Definition execute (f : Tables -> option Tables) : StorageM (string + unit) :=
  statement (fun t => t' ← f t; Some (t', tt)).
Definition query {A} (f : Tables -> option A) : StorageM (string + A) :=
  statement (fun t => a ← f t; Some (t, a)).
(** [let _ = conn.execute(...)] *)
Definition write (f : Tables -> option Tables) : StorageM unit := _ ← execute f; mret tt.

(** ** Writes *)

Definition log_event (now : Z) (level message : string) : StorageM unit :=
  write (fun t => Some (t <[ events ::= (events t ++ [{| ev_at := rfc3339 now; ev_level := level; ev_message := message |}])%list ]>)).

Definition clear_events : StorageM (string + unit) :=
  execute (fun t => Some (t <[ events ::= [] ]>)).

Definition runtime_retention_hours (env_name : string) (default_hours : Z) : Z :=
  clampZ 1 (24 * 30) (default default_hours (value ← env env_name; parse_i64 (trim value))).
Definition runtime_retention_days (env_name : string) (default_days : Z) : Z :=
  clampZ 1 365 (default default_days (value ← env env_name; parse_i64 (trim value))).

Definition kept_rows {K V} `{Countable K} (drop : K -> V -> bool) (m : gmap K V) : gmap K V :=
  filter (fun kv => drop kv.1 kv.2 = false) m.
Definition prune_events (cutoff : string) (t : Tables) : Tables :=
  t <[ events ::= filter (fun row => text_lt (ev_at row) cutoff = false) (events t) ]>.
Definition prune_telemetry (cutoff : string) (t : Tables) : Tables :=
  t <[ telemetry ::= filter (fun row => text_lt (tm_at row) cutoff = false) (telemetry t) ]>.
Definition prune_latency (cutoff : string) (t : Tables) : Tables :=
  t <[ latency_rollups ::= kept_rows (fun '(_, bucket, _) _ => text_lt bucket cutoff) (latency_rollups t) ]>.
Definition prune_funnel (cutoff : string) (t : Tables) : Tables :=
  t <[ funnel_rollups ::= kept_rows (fun '(_, bucket, _) _ => text_lt bucket cutoff) (funnel_rollups t) ]>.
Definition prune_reasons (cutoff : string) (t : Tables) : Tables :=
  t <[ reject_reason_rollups ::=
         kept_rows (fun '(_, bucket, _, _) _ => text_lt bucket cutoff) (reject_reason_rollups t) ]>.
Definition prune_selectors (cutoff : string) (t : Tables) : Tables :=
  t <[ selector_performance_rollups ::=
         kept_rows (fun '(_, bucket, _, _, _, _) _ => text_lt bucket cutoff) (selector_performance_rollups t) ]>.
Definition prune_pools (cutoff : string) (t : Tables) : Tables :=
  t <[ selector_pool_performance_rollups ::=
         kept_rows (fun '(_, bucket, _, _, _, _, _, _) _ => text_lt bucket cutoff)
           (selector_pool_performance_rollups t) ]>.
Definition prune_candidates (cutoff : string) (t : Tables) : Tables :=
  t <[ replay_candidates ::=
         kept_rows (fun _ row => text_lt (ca_created_at row) cutoff
                                 && one_of (ca_status row) ["queued"; "deferred"; "replay_candidate"])
           (replay_candidates t) ]>.

Definition HOUR : Z := 3600 * secs.
(** The time is read for each cutoff. *)
Definition prune_runtime_tables (events_now telemetry_now rollup_now : Z) : StorageM (string + unit) :=
  let events_cutoff := rfc3339 (events_now - runtime_retention_hours "STORAGE_EVENTS_RETENTION_HOURS" 24 * HOUR) in
  let telemetry_cutoff := rfc3339 (telemetry_now - runtime_retention_hours "STORAGE_TELEMETRY_RETENTION_HOURS" 6 * HOUR) in
  let rollup_cutoff := rfc3339 (rollup_now - runtime_retention_days "STORAGE_ROLLUP_RETENTION_DAYS" 14 * 24 * HOUR) in
  let delete f := execute (fun t => Some (f t)) in
  and_then (delete (prune_events events_cutoff)) (fun _ =>
  and_then (delete (prune_telemetry telemetry_cutoff)) (fun _ =>
  and_then (delete (prune_latency rollup_cutoff)) (fun _ =>
  and_then (delete (prune_funnel rollup_cutoff)) (fun _ =>
  and_then (delete (prune_reasons rollup_cutoff)) (fun _ =>
  and_then (delete (prune_selectors rollup_cutoff)) (fun _ =>
  and_then (delete (prune_pools rollup_cutoff)) (fun _ =>
  delete (prune_candidates rollup_cutoff)))))))).

Definition log_telemetry (now : Z) (stage : string) (duration_ms : Z) (wallet note : option string) : StorageM unit :=
  write (fun t =>
    Some (t <[ telemetry ::= (telemetry t ++ [{| tm_at := rfc3339 now; tm_stage := stage;
                                                tm_duration_ms := as_i64 duration_ms; tm_wallet := wallet;
                                                tm_note := note |}])%list ]>)).

Definition record_unsupported_selector (now : Z) (record : UnsupportedSelectorRecord) : StorageM unit := fun s =>
  let seen := rfc3339 now in
  let row first n :=
    {| un_input_bytes := as_i64 (us_input_bytes record); un_count := n; un_first_seen := first;
       un_last_seen := seen; un_sample_tx := us_sample_tx record;
       un_sample_calldata_prefix := us_sample_calldata_prefix record; un_route_hint := us_route_hint record |} in
  write (fun t =>
    m ← upsert (network s, us_target record, us_selector record, us_inner_selector record, us_token_hints record)
          (row seen 1) (fun old => n ← int_add (un_count old) 1; Some (row (un_first_seen old) n))
          (unsupported_selectors t);
    Some (t <[ unsupported_selectors ::= m ]>)) s.

Definition record_latency_rollup (bucket stage : string) (samples total_ms max_ms last_ms : Z) : StorageM unit :=
  fun s =>
  let new := {| lr_samples := as_i64 samples; lr_total_ms := as_i64 total_ms; lr_max_ms := as_i64 max_ms;
                lr_last_ms := as_i64 last_ms |} in
  let update old :=
    n ← int_add (lr_samples old) (lr_samples new);
    total ← int_add (lr_total_ms old) (lr_total_ms new);
    Some {| lr_samples := n; lr_total_ms := total; lr_max_ms := Z.max (lr_max_ms old) (lr_max_ms new);
            lr_last_ms := lr_last_ms new |} in
  write (fun t =>
    m ← upsert (network s, bucket, stage) new update (latency_rollups t);
    Some (t <[ latency_rollups ::= m ]>)) s.

Definition record_funnel_rollup (bucket stage : string) (count : u64) : StorageM unit := fun s =>
  write (fun t =>
    m ← upsert (network s, bucket, stage) (as_i64 count) (fun old => int_add old (as_i64 count)) (funnel_rollups t);
    Some (t <[ funnel_rollups ::= m ]>)) s.

Definition record_reject_reason_rollup (bucket stage reason : string) (count : u64) : StorageM unit := fun s =>
  write (fun t =>
    m ← upsert (network s, bucket, stage, reason) (as_i64 count) (fun old => int_add old (as_i64 count))
          (reject_reason_rollups t);
    Some (t <[ reject_reason_rollups ::= m ]>)) s.

Definition record_selector_performance_rollup (now : Z) (bucket selector target decode_source stage : string)
    (count : u64) (confidence_sum gas_gwei_sum : f64) : StorageM unit := fun s =>
  let new := {| sr_count := as_i64 count; sr_confidence_sum := confidence_sum; sr_gas_gwei_sum := gas_gwei_sum;
                sr_last_seen := rfc3339 now |} in
  let update old :=
    n ← int_add (sr_count old) (sr_count new);
    Some {| sr_count := n; sr_confidence_sum := (sr_confidence_sum old + confidence_sum)%f64;
            sr_gas_gwei_sum := (sr_gas_gwei_sum old + gas_gwei_sum)%f64; sr_last_seen := sr_last_seen new |} in
  write (fun t =>
    _ ← check (storable confidence_sum && storable gas_gwei_sum);
    m ← upsert (network s, bucket, selector, target, decode_source, stage) new update
          (selector_performance_rollups t);
    Some (t <[ selector_performance_rollups ::= m ]>)) s.

Definition pool_row (now : Z) (p : PendingSelectorPoolPerformanceRollup) : PoolRow :=
  {| pr_pool_found_count := as_i64 (bp_pool_found_count p);
     pr_pool_missing_count := as_i64 (bp_pool_missing_count p);
     pr_payload_built_count := as_i64 (bp_payload_built_count p);
     pr_shadow_ev_positive_count := as_i64 (bp_shadow_ev_positive_count p);
     pr_shadow_ev_negative_count := as_i64 (bp_shadow_ev_negative_count p);
     pr_partial_entered_payload_builder_count := as_i64 (bp_partial_entered_payload_builder_count p);
     pr_partial_pool_discovery_attempted_count := as_i64 (bp_partial_pool_discovery_attempted_count p);
     pr_partial_pool_found_count := as_i64 (bp_partial_pool_found_count p);
     pr_partial_pool_missing_count := as_i64 (bp_partial_pool_missing_count p);
     pr_partial_shadow_ev_positive_count := as_i64 (bp_partial_shadow_ev_positive_count p);
     pr_partial_shadow_ev_negative_count := as_i64 (bp_partial_shadow_ev_negative_count p);
     pr_partial_replay_candidate_created_count := as_i64 (bp_partial_replay_candidate_created_count p);
     pr_partial_replay_candidate_rejected_count := as_i64 (bp_partial_replay_candidate_rejected_count p);
     pr_expected_profit_sum := bp_expected_profit_sum p;
     pr_liquidity_sum := bp_liquidity_sum p;
     pr_gas_gwei_sum := bp_gas_gwei_sum p;
     pr_samples := as_i64 (bp_samples p);
     pr_last_seen := rfc3339 now |}.
(** The sums of [DO UPDATE SET]. *)
Definition merge_pool_rows (old new : PoolRow) : option PoolRow :=
  c0 ← int_add (pr_pool_found_count old) (pr_pool_found_count new);
  c1 ← int_add (pr_pool_missing_count old) (pr_pool_missing_count new);
  c2 ← int_add (pr_payload_built_count old) (pr_payload_built_count new);
  c3 ← int_add (pr_shadow_ev_positive_count old) (pr_shadow_ev_positive_count new);
  c4 ← int_add (pr_shadow_ev_negative_count old) (pr_shadow_ev_negative_count new);
  c5 ← int_add (pr_partial_entered_payload_builder_count old) (pr_partial_entered_payload_builder_count new);
  c6 ← int_add (pr_partial_pool_discovery_attempted_count old) (pr_partial_pool_discovery_attempted_count new);
  c7 ← int_add (pr_partial_pool_found_count old) (pr_partial_pool_found_count new);
  c8 ← int_add (pr_partial_pool_missing_count old) (pr_partial_pool_missing_count new);
  c9 ← int_add (pr_partial_shadow_ev_positive_count old) (pr_partial_shadow_ev_positive_count new);
  c10 ← int_add (pr_partial_shadow_ev_negative_count old) (pr_partial_shadow_ev_negative_count new);
  c11 ← int_add (pr_partial_replay_candidate_created_count old) (pr_partial_replay_candidate_created_count new);
  c12 ← int_add (pr_partial_replay_candidate_rejected_count old) (pr_partial_replay_candidate_rejected_count new);
  n ← int_add (pr_samples old) (pr_samples new);
  Some {| pr_pool_found_count := c0;
          pr_pool_missing_count := c1;
          pr_payload_built_count := c2;
          pr_shadow_ev_positive_count := c3;
          pr_shadow_ev_negative_count := c4;
          pr_partial_entered_payload_builder_count := c5;
          pr_partial_pool_discovery_attempted_count := c6;
          pr_partial_pool_found_count := c7;
          pr_partial_pool_missing_count := c8;
          pr_partial_shadow_ev_positive_count := c9;
          pr_partial_shadow_ev_negative_count := c10;
          pr_partial_replay_candidate_created_count := c11;
          pr_partial_replay_candidate_rejected_count := c12;
          pr_expected_profit_sum := (pr_expected_profit_sum old + pr_expected_profit_sum new)%f64;
          pr_liquidity_sum := (pr_liquidity_sum old + pr_liquidity_sum new)%f64;
          pr_gas_gwei_sum := (pr_gas_gwei_sum old + pr_gas_gwei_sum new)%f64;
          pr_samples := n;
          pr_last_seen := pr_last_seen new |}.
Definition record_selector_pool_performance_rollup (now : Z) (p : PendingSelectorPoolPerformanceRollup) : StorageM unit :=
  fun s =>
  let new := pool_row now p in
  write (fun t =>
    _ ← check (storable (bp_expected_profit_sum p) && storable (bp_liquidity_sum p) && storable (bp_gas_gwei_sum p));
    m ← upsert (network s, bp_bucket p, bp_selector p, bp_target p, bp_token_pair p, bp_pool p, bp_dex_kind p,
                bp_fee_tier p)
          new (fun old => merge_pool_rows old new) (selector_pool_performance_rollups t);
    Some (t <[ selector_pool_performance_rollups ::= m ]>)) s.

Definition record_replay_candidate (now : Z) (record : ReplayCandidateRecord) : StorageM unit := fun s =>
  let at_ := rfc3339 now in
  let new := {| ca_path := cr_path record; ca_amount_in := cr_amount_in record;
                ca_amount_out_min := cr_amount_out_min record; ca_gas_gwei := cr_gas_gwei record;
                ca_block_number := as_i64 (cr_block_number record);
                ca_expected_profit := cr_expected_profit record; ca_confidence := cr_confidence record;
                ca_decode_source := cr_decode_source record; ca_status := cr_status record;
                ca_detail := cr_detail record; ca_created_at := at_; ca_updated_at := at_ |} in
  let update old :=
    Some (old <[ ca_status ::= ca_status new ]> <[ ca_detail ::= ca_detail new ]>
              <[ ca_expected_profit ::= ca_expected_profit new ]> <[ ca_confidence ::= ca_confidence new ]>
              <[ ca_gas_gwei ::= ca_gas_gwei new ]> <[ ca_updated_at ::= ca_updated_at new ]>) in
  write (fun t =>
    _ ← check (storable (cr_gas_gwei record) && storable (cr_expected_profit record)
               && storable (cr_confidence record));
    m ← upsert (network s, cr_tx_hash record, cr_selector record, cr_target record, cr_pool record) new update
          (replay_candidates t);
    Some (t <[ replay_candidates ::= m ]>)) s.

Definition record_selector_replay_score (now : Z) (selector target pool : string) (success reverted : bool)
    (expected_profit simulated_profit gas_used : f64) : StorageM unit := fun s =>
  let new := {| sc_replay_cases := 1; sc_replay_success_count := if success then 1 else 0;
                sc_replay_revert_count := if reverted then 1 else 0;
                sc_expected_profit_sum := expected_profit; sc_simulated_profit_sum := simulated_profit;
                sc_gas_used_sum := gas_used; sc_last_seen := rfc3339 now |} in
  let update old :=
    cases ← int_add (sc_replay_cases old) 1;
    successes ← int_add (sc_replay_success_count old) (sc_replay_success_count new);
    reverts ← int_add (sc_replay_revert_count old) (sc_replay_revert_count new);
    Some {| sc_replay_cases := cases; sc_replay_success_count := successes; sc_replay_revert_count := reverts;
            sc_expected_profit_sum := (sc_expected_profit_sum old + expected_profit)%f64;
            sc_simulated_profit_sum := (sc_simulated_profit_sum old + simulated_profit)%f64;
            sc_gas_used_sum := (sc_gas_used_sum old + gas_used)%f64; sc_last_seen := sc_last_seen new |} in
  write (fun t =>
    _ ← check (storable expected_profit && storable simulated_profit && storable gas_used);
    m ← upsert (network s, selector, target, pool) new update (selector_replay_scores_table t);
    Some (t <[ selector_replay_scores_table ::= m ]>)) s.

Definition scoped_relay (network relay : string) : string := network +:+ "::" +:+ relay.

(** [CASE WHEN excluded.x > 0 AND x > 0 THEN ... END] *)
Definition smoothed (old new : f64) : f64 :=
  if flt 0.0 new && flt 0.0 old then (old * 0.8 + new * 0.2)%f64 else if flt 0.0 new then new else old.
Definition kept_unless_positive (old new : f64) : f64 := if flt 0.0 new then new else old.
Definition merge_relay_rows (old new : RelayRow) : option RelayRow :=
  accepted ← int_add (rm_accepted old) (rm_accepted new);
  submit_failed ← int_add (rm_submit_failed old) (rm_submit_failed new);
  included_success ← int_add (rm_included_success old) (rm_included_success new);
  included_revert ← int_add (rm_included_revert old) (rm_included_revert new);
  not_included_timeout ← int_add (rm_not_included_timeout old) (rm_not_included_timeout new);
  Some {| rm_network := rm_network new; rm_last_seen_at := rm_last_seen_at new;
          rm_accepted := accepted; rm_submit_failed := submit_failed; rm_included_success := included_success;
          rm_included_revert := included_revert; rm_not_included_timeout := not_included_timeout;
          rm_submit_latency_ms := smoothed (rm_submit_latency_ms old) (rm_submit_latency_ms new);
          rm_finalization_latency_ms := smoothed (rm_finalization_latency_ms old) (rm_finalization_latency_ms new);
          rm_score := kept_unless_positive (rm_score old) (rm_score new);
          rm_pressure := kept_unless_positive (rm_pressure old) (rm_pressure new);
          rm_accept_rate := kept_unless_positive (rm_accept_rate old) (rm_accept_rate new);
          rm_inclusion_rate := kept_unless_positive (rm_inclusion_rate old) (rm_inclusion_rate new) |}.
Definition record_relay_outcome (now : Z) (relay : string)
    (accepted submit_failed included_success included_revert not_included_timeout : u64)
    (submit_latency_ms finalization_latency_ms score pressure accept_rate inclusion_rate : option f64) :
    StorageM unit := fun s =>
  let or_0 := default (0.0)%f64 in
  let new := {| rm_network := network s; rm_last_seen_at := rfc3339 now; rm_accepted := as_i64 accepted;
                rm_submit_failed := as_i64 submit_failed; rm_included_success := as_i64 included_success;
                rm_included_revert := as_i64 included_revert;
                rm_not_included_timeout := as_i64 not_included_timeout;
                rm_submit_latency_ms := or_0 submit_latency_ms;
                rm_finalization_latency_ms := or_0 finalization_latency_ms; rm_score := or_0 score;
                rm_pressure := or_0 pressure; rm_accept_rate := or_0 accept_rate;
                rm_inclusion_rate := or_0 inclusion_rate |} in
  write (fun t =>
    _ ← check (forallb (fun x => storable (or_0 x))
                 [submit_latency_ms; finalization_latency_ms; score; pressure; accept_rate; inclusion_rate]);
    m ← upsert (scoped_relay (network s) relay) new (fun old => merge_relay_rows old new) (relay_metrics t);
    Some (t <[ relay_metrics ::= m ]>)) s.

Definition record_treasury_recommendation (now : Z) (executor_address vault_address profit_address : string)
    (balance_eth min_buffer_eth target_buffer_eth max_buffer_eth : f64) (action : string)
    (recommended_amount_eth : f64) (status note : string) : StorageM unit := fun s =>
  write (fun t =>
    _ ← check (forallb storable [balance_eth; min_buffer_eth; target_buffer_eth; max_buffer_eth;
                                 recommended_amount_eth]);
    let row := {| tr_at := rfc3339 now; tr_executor_address := executor_address;
                  tr_vault_address := vault_address; tr_profit_address := profit_address;
                  tr_balance_eth := balance_eth; tr_min_buffer_eth := min_buffer_eth;
                  tr_target_buffer_eth := target_buffer_eth; tr_max_buffer_eth := max_buffer_eth;
                  tr_action := action; tr_recommended_amount_eth := recommended_amount_eth;
                  tr_status := status; tr_note := note |} in
    Some (t <[ treasury_rebalance ::= (treasury_rebalance t ++ [(network s, row)])%list ]>)) s.

Definition record_execution_outcome (now : Z) (relay : string) (target_block : u64)
    (pair router token_in token_out victim_tx outcome : string) (expected_profit_eth realized_profit_eth : f64)
    (gas_used : u64) (submit_latency_ms finalization_latency_ms : f64) : StorageM unit := fun s =>
  write (fun t =>
    _ ← check (forallb storable [expected_profit_eth; realized_profit_eth; submit_latency_ms;
                                 finalization_latency_ms]);
    let row := {| oc_at := rfc3339 now; oc_relay := relay; oc_target_block := as_i64 target_block;
                  oc_pair := pair; oc_router := router; oc_token_in := token_in; oc_token_out := token_out;
                  oc_victim_tx := victim_tx; oc_outcome := outcome;
                  oc_expected_profit_eth := expected_profit_eth; oc_realized_profit_eth := realized_profit_eth;
                  oc_gas_used := as_i64 gas_used; oc_submit_latency_ms := submit_latency_ms;
                  oc_finalization_latency_ms := finalization_latency_ms |} in
    Some (t <[ execution_outcomes_table ::= (execution_outcomes_table t ++ [(network s, row)])%list ]>)) s.

(** ** Queries *)

(** An integer column read as [u64]: [rusqlite] refuses a negative one, the
    [as u64] of the other backend wraps. *)
Definition get_u64 (n : Z) : option u64 :=
  if is_postgres then Some (n mod 2 ^ 64) else if n <? 0 then None else Some n.

Definition percent (part total : u64) : f64 :=
  if total =? 0 then 0.0%f64 else (f64_of_Z part / f64_of_Z total * 100.0)%f64.
Definition mean (sum : f64) (n : u64) : f64 := if n =? 0 then 0.0%f64 else (sum / f64_of_Z n)%f64.

Definition build_selector_performance_snapshot (selector target decode_source : string)
    (partial_signal payload_built payload_reject confidence_reject ev_gate_pass ev_gate_reject execution_ready
     submit_attempted total : u64) (confidence_sum gas_gwei_sum : f64) (last_seen : string) :
    SelectorPerformanceSnapshot :=
  let avg_confidence := mean confidence_sum total in
  let avg_gas_gwei := mean gas_gwei_sum total in
  let built_rate_pct := percent payload_built total in
  let reject_rate_pct := percent (u64_sadd payload_reject confidence_reject) total in
  let classification :=
    if (0 <? payload_built) && (built_rate_pct >=? 5.0)%f64 then "good"
    else if (u64_sadd payload_built payload_reject <? confidence_reject) && (3 <=? confidence_reject) then "noisy"
    else if (avg_gas_gwei >=? 500.0)%f64 && (payload_built =? 0) then "expensive"
    else if (3 <=? partial_signal) && (payload_built =? 0) then "promising"
    else "watch" in
  {| sp_selector := selector; sp_target := target; sp_decode_source := decode_source;
     sp_partial_signal := partial_signal; sp_payload_built := payload_built; sp_payload_reject := payload_reject;
     sp_confidence_reject := confidence_reject; sp_ev_gate_pass := ev_gate_pass;
     sp_ev_gate_reject := ev_gate_reject; sp_execution_ready := execution_ready;
     sp_submit_attempted := submit_attempted; sp_total := total; sp_avg_confidence := avg_confidence;
     sp_avg_gas_gwei := avg_gas_gwei; sp_built_rate_pct := built_rate_pct;
     sp_reject_rate_pct := reject_rate_pct; sp_classification := classification; sp_last_seen := last_seen |}.

(** Of the sums, [pool_found] to [total], and what they are classified as. *)
Definition build_selector_pool_performance_snapshot (selector target token_pair pool dex_kind : string)
    (fee_tier : u32)
    (pool_found pool_missing payload_built shadow_ev_positive shadow_ev_negative partial_entered_payload_builder
     partial_pool_discovery_attempted partial_pool_found partial_pool_missing partial_shadow_ev_positive
     partial_shadow_ev_negative partial_replay_candidate_created partial_replay_candidate_rejected total : u64)
    (expected_profit_sum liquidity_sum gas_gwei_sum : f64) (last_seen : string) :
    SelectorPoolPerformanceSnapshot :=
  let v3_shadow_ev_unverified := eq_ignore_ascii_case dex_kind "v3" && (partial_replay_candidate_created =? 0) in
  let trusted_shadow_ev_positive := if v3_shadow_ev_unverified then 0 else shadow_ev_positive in
  let trusted_expected_profit_sum := if v3_shadow_ev_unverified then 0.0%f64 else expected_profit_sum in
  let profit_samples := Z.max trusted_shadow_ev_positive 1 in
  let avg_expected_profit :=
    if trusted_shadow_ev_positive =? 0 then 0.0%f64
    else (trusted_expected_profit_sum / f64_of_Z profit_samples)%f64 in
  let avg_liquidity := mean liquidity_sum total in
  let avg_gas_gwei := mean gas_gwei_sum total in
  let classification :=
    if v3_shadow_ev_unverified && (0 <? shadow_ev_positive) then "v3_shadow_ev_unverified"
    else if 0 <? shadow_ev_positive then "evolve_decoder"
    else if 0 <? payload_built then "pool_real_payload_ready"
    else if (0 <? pool_found) && (0 <? shadow_ev_negative) then "pool_real_no_edge"
    else if (0 <? pool_found) && (pool_missing =? 0) then "pool_real_watch"
    else if pool_found <? pool_missing then "pool_missing_or_wrong_path"
    else "watch" in
  {| pp_selector := selector; pp_target := target; pp_token_pair := token_pair; pp_pool := pool;
     pp_dex_kind := dex_kind; pp_fee_tier := fee_tier; pp_pool_found := pool_found;
     pp_pool_missing := pool_missing; pp_payload_built := payload_built;
     pp_shadow_ev_positive := shadow_ev_positive; pp_shadow_ev_negative := shadow_ev_negative;
     pp_partial_entered_payload_builder := partial_entered_payload_builder;
     pp_partial_pool_discovery_attempted := partial_pool_discovery_attempted;
     pp_partial_pool_found := partial_pool_found; pp_partial_pool_missing := partial_pool_missing;
     pp_partial_shadow_ev_positive := partial_shadow_ev_positive;
     pp_partial_shadow_ev_negative := partial_shadow_ev_negative;
     pp_partial_replay_candidate_created := partial_replay_candidate_created;
     pp_partial_replay_candidate_rejected := partial_replay_candidate_rejected;
     pp_total := total; pp_avg_expected_profit := avg_expected_profit; pp_avg_liquidity := avg_liquidity;
     pp_avg_gas_gwei := avg_gas_gwei; pp_classification := classification; pp_last_seen := last_seen |}.

Definition build_selector_replay_score_snapshot (selector target pool : string)
    (replay_cases replay_success_count replay_revert_count : u64)
    (expected_profit_sum simulated_profit_sum gas_used_sum : f64) (last_seen : string) :
    SelectorReplayScoreSnapshot :=
  let success_rate_pct := percent replay_success_count replay_cases in
  let revert_rate_pct := percent replay_revert_count replay_cases in
  let recommendation :=
    if (3 <=? replay_cases) && (success_rate_pct >=? 70.0)%f64 && (revert_rate_pct <=? 20.0)%f64 then "canary_ready"
    else if (3 <=? replay_cases) && (revert_rate_pct >? 20.0)%f64 then "reject_revert"
    else if 0 <? replay_success_count then "replay_more"
    else "watch" in
  {| rs_selector := selector; rs_target := target; rs_pool := pool; rs_replay_cases := replay_cases;
     rs_replay_success_count := replay_success_count; rs_replay_revert_count := replay_revert_count;
     rs_avg_expected_profit := mean expected_profit_sum replay_cases;
     rs_avg_simulated_profit := mean simulated_profit_sum replay_cases;
     rs_avg_gas_used := mean gas_used_sum replay_cases; rs_success_rate_pct := success_rate_pct;
     rs_revert_rate_pct := revert_rate_pct; rs_recommendation := recommendation; rs_last_seen := last_seen |}.

(** *** Scores of selectors *)

Definition max_text {A} (f : A -> string) (rows : list A) : string :=
  match rows with [] => "" | row :: rows => foldl (fun acc r => text_max acc (f r)) (f row) rows end.
(** [NULL]s are the smallest values for SQLite, the largest for Postgres. *)
Definition null_cmp (a b : option f64) : comparison :=
  match a, b with
  | Some a, Some b => real_cmp a b
  | None, None => Eq
  | None, Some _ => if is_postgres then Gt else Lt
  | Some _, None => if is_postgres then Lt else Gt
  end.

(** A row of the grouped query: the sums by stage, the number and the sums. *)
Record SelectorGroup := {
  sg_key : string * string * string;
  sg_partial_signal : Z;
  sg_payload_built : Z;
  sg_shadow_payload_built : Z;
  sg_payload_reject : Z;
  sg_confidence_reject : Z;
  sg_ev_gate_pass : Z;
  sg_ev_gate_reject : Z;
  sg_execution_ready : Z;
  sg_submit_attempted : Z;
  sg_total : Z;
  sg_confidence_sum : f64;
  sg_gas_gwei_sum : f64;
  sg_last_seen : string;
  sg_confidence_order : option f64 }.
Definition selector_group (group : (string * string * string) * list (SelectorKey * SelectorRow)) :
    option SelectorGroup :=
  let '(key, rows) := group in
  let sum_of stage :=
    int_sum ((fun row : SelectorKey * SelectorRow =>
                if string_eqb row.1.2 stage then sr_count row.2 else 0) <$> rows) in
  partial_signal ← sum_of "partial_signal";
  payload_built ← sum_of "payload_built";
  shadow_payload_built ← sum_of "shadow_payload_built";
  payload_reject ← sum_of "payload_reject";
  confidence_reject ← sum_of "confidence_reject";
  ev_gate_pass ← sum_of "ev_gate_pass";
  ev_gate_reject ← sum_of "ev_gate_reject";
  execution_ready ← sum_of "execution_ready";
  submit_attempted ← sum_of "submit_attempted";
  total ← int_sum ((fun row => sr_count row.2) <$> rows);
  let confidence_sum := real_sum ((fun row => sr_confidence_sum row.2) <$> rows) in
  (* inside an expression SQLite takes the column of the table, not the sum of that name *)
  let ordered_sum :=
    if is_postgres then confidence_sum
    else default confidence_sum ((fun row => sr_confidence_sum row.2) <$> bare_row rows) in
  Some {| sg_key := key; sg_partial_signal := partial_signal; sg_payload_built := payload_built;
          sg_shadow_payload_built := shadow_payload_built; sg_payload_reject := payload_reject;
          sg_confidence_reject := confidence_reject; sg_ev_gate_pass := ev_gate_pass;
          sg_ev_gate_reject := ev_gate_reject; sg_execution_ready := execution_ready;
          sg_submit_attempted := submit_attempted; sg_total := total; sg_confidence_sum := confidence_sum;
          sg_gas_gwei_sum := real_sum ((fun row => sr_gas_gwei_sum row.2) <$> rows);
          sg_last_seen := max_text (fun row => sr_last_seen row.2) rows;
          sg_confidence_order := if total =? 0 then None else Some (ordered_sum / f64_of_Z total)%f64 |}.
Definition selector_order : SelectorGroup -> SelectorGroup -> comparison :=
  then_by (desc Z.compare sg_payload_built)
    (then_by (desc Z.compare sg_shadow_payload_built)
       (then_by (desc null_cmp sg_confidence_order) (desc Z.compare sg_payload_reject))).
Definition selector_snapshot (g : SelectorGroup) : SelectorPerformanceSnapshot :=
  let '(selector, target, decode_source) := sg_key g in
  build_selector_performance_snapshot selector target decode_source
    (column_u64 (sg_partial_signal g)) (column_u64 (as_i64 (sg_payload_built g + sg_shadow_payload_built g)))
    (column_u64 (sg_payload_reject g)) (column_u64 (sg_confidence_reject g)) (column_u64 (sg_ev_gate_pass g))
    (column_u64 (sg_ev_gate_reject g)) (column_u64 (sg_execution_ready g)) (column_u64 (sg_submit_attempted g))
    (column_u64 (sg_total g)) (sg_confidence_sum g) (sg_gas_gwei_sum g) (sg_last_seen g).
Definition selector_performance_scores (limit : nat) : StorageM (string + list SelectorPerformanceSnapshot) :=
  query (fun t =>
    let groups := group_by (fun '((_, _, selector, target, source, _), _) => (selector, target, source))
                    (listing (selector_performance_rollups t)) in
    rows ← mapM selector_group (listing groups);
    Some (selector_snapshot <$> select selector_order limit rows)).

(** *** Scores of pools *)

Record PoolGroup := {
  pg_key : string * string * string * string * string * Z;
  pg_pool_found : Z;
  pg_pool_missing : Z;
  pg_payload_built : Z;
  pg_shadow_ev_positive : Z;
  pg_shadow_ev_negative : Z;
  pg_partial_entered_payload_builder : Z;
  pg_partial_pool_discovery_attempted : Z;
  pg_partial_pool_found : Z;
  pg_partial_pool_missing : Z;
  pg_partial_shadow_ev_positive : Z;
  pg_partial_shadow_ev_negative : Z;
  pg_partial_replay_candidate_created : Z;
  pg_partial_replay_candidate_rejected : Z;
  pg_total : Z;
  pg_expected_profit_sum : f64;
  pg_liquidity_sum : f64;
  pg_gas_gwei_sum : f64;
  pg_last_seen : string }.
Definition pool_group (group : (string * string * string * string * string * Z) * list (PoolKey * PoolRow)) :
    option PoolGroup :=
  let rows := group.2.*2 in
  let sum_of (column : PoolRow -> Z) := int_sum (column <$> rows) in
  c0 ← sum_of pr_pool_found_count;
  c1 ← sum_of pr_pool_missing_count;
  c2 ← sum_of pr_payload_built_count;
  c3 ← sum_of pr_shadow_ev_positive_count;
  c4 ← sum_of pr_shadow_ev_negative_count;
  c5 ← sum_of pr_partial_entered_payload_builder_count;
  c6 ← sum_of pr_partial_pool_discovery_attempted_count;
  c7 ← sum_of pr_partial_pool_found_count;
  c8 ← sum_of pr_partial_pool_missing_count;
  c9 ← sum_of pr_partial_shadow_ev_positive_count;
  c10 ← sum_of pr_partial_shadow_ev_negative_count;
  c11 ← sum_of pr_partial_replay_candidate_created_count;
  c12 ← sum_of pr_partial_replay_candidate_rejected_count;
  total ← sum_of pr_samples;
  Some {| pg_key := group.1;
          pg_pool_found := c0;
          pg_pool_missing := c1;
          pg_payload_built := c2;
          pg_shadow_ev_positive := c3;
          pg_shadow_ev_negative := c4;
          pg_partial_entered_payload_builder := c5;
          pg_partial_pool_discovery_attempted := c6;
          pg_partial_pool_found := c7;
          pg_partial_pool_missing := c8;
          pg_partial_shadow_ev_positive := c9;
          pg_partial_shadow_ev_negative := c10;
          pg_partial_replay_candidate_created := c11;
          pg_partial_replay_candidate_rejected := c12;
          pg_total := total; pg_expected_profit_sum := real_sum (pr_expected_profit_sum <$> rows);
          pg_liquidity_sum := real_sum (pr_liquidity_sum <$> rows);
          pg_gas_gwei_sum := real_sum (pr_gas_gwei_sum <$> rows); pg_last_seen := max_text pr_last_seen rows |}.
Definition pool_order : PoolGroup -> PoolGroup -> comparison :=
  then_by (desc Z.compare pg_shadow_ev_positive)
    (then_by (desc Z.compare pg_payload_built)
       (then_by (desc Z.compare pg_pool_found) (asc Z.compare pg_pool_missing))).
Definition pool_snapshot (g : PoolGroup) : SelectorPoolPerformanceSnapshot :=
  let '(selector, target, token_pair, pool, dex_kind, fee_tier) := pg_key g in
  build_selector_pool_performance_snapshot selector target token_pair pool dex_kind (column_u64 fee_tier mod 2 ^ 32)
    (column_u64 (pg_pool_found g)) (column_u64 (pg_pool_missing g)) (column_u64 (pg_payload_built g))
    (column_u64 (pg_shadow_ev_positive g)) (column_u64 (pg_shadow_ev_negative g)) (column_u64 (pg_partial_entered_payload_builder g))
    (column_u64 (pg_partial_pool_discovery_attempted g)) (column_u64 (pg_partial_pool_found g)) (column_u64 (pg_partial_pool_missing g))
    (column_u64 (pg_partial_shadow_ev_positive g)) (column_u64 (pg_partial_shadow_ev_negative g)) (column_u64 (pg_partial_replay_candidate_created g))
    (column_u64 (pg_partial_replay_candidate_rejected g))
    (column_u64 (pg_total g)) (pg_expected_profit_sum g) (pg_liquidity_sum g) (pg_gas_gwei_sum g) (pg_last_seen g).
Definition selector_pool_performance_scores (limit : nat) : StorageM (string + list SelectorPoolPerformanceSnapshot) :=
  query (fun t =>
    let groups :=
      group_by (fun '((_, _, selector, target, token_pair, pool, dex_kind, fee_tier), _) =>
                  (selector, target, token_pair, pool, dex_kind, fee_tier))
        (listing (selector_pool_performance_rollups t)) in
    rows ← mapM pool_group (listing groups);
    Some (pool_snapshot <$> select pool_order limit rows)).

(** *** The other tables *)

Definition selector_replay_scores (limit : nat) : StorageM (string + list SelectorReplayScoreSnapshot) :=
  query (fun t =>
    let order : _ * ReplayScoreRow -> _ * ReplayScoreRow -> comparison :=
      then_by (desc Z.compare (fun kr => sc_replay_success_count kr.2))
        (then_by (desc Z.compare (fun kr => sc_replay_cases kr.2))
           (desc real_cmp (fun kr => sc_expected_profit_sum kr.2))) in
    Some ((fun '((_, selector, target, pool), row) =>
             build_selector_replay_score_snapshot selector target pool
               (column_u64 (sc_replay_cases row)) (column_u64 (sc_replay_success_count row))
               (column_u64 (sc_replay_revert_count row)) (sc_expected_profit_sum row)
               (sc_simulated_profit_sum row) (sc_gas_used_sum row) (sc_last_seen row))
          <$> select order limit (listing (selector_replay_scores_table t)))).

Definition recent_events (limit : nat) : StorageM (string + list DashboardEvent) :=
  query (fun t => Some (take limit (rev (events t)))).

Definition count_status (status : string) (l : list string) : Z :=
  Z.of_nat (length (filter (fun s => s = status) l)).
Definition sweep_counts : StorageM (string + u64 * u64 * u64) :=
  if is_postgres then
    query (fun t => Some (Z.of_nat (length (sweeps t)), count_status "success" (sweeps t),
                          count_status "failed" (sweeps t)))
  else
    and_then (query (fun t => Some (Z.of_nat (length (sweeps t))))) (fun attempted =>
    and_then (query (fun t => Some (count_status "success" (sweeps t)))) (fun succeeded =>
    and_then (query (fun t => Some (count_status "failed" (sweeps t)))) (fun failed =>
    mret (inr (attempted, succeeded, failed))))).

(** [as u128] of an [i64] extends its sign; of a float it saturates. *)
Definition i64_as_u128 (n : Z) : Z := n mod 2 ^ 128.
Definition f64_as_u128 : f64 -> Z := f64_as_int 0 (2 ^ 128 - 1).
Definition Summary : Type := gmap string (u64 * Z * Z * Z).         (* samples, last, average, maximum *)
Definition stage_summary (rows : list TelemetryRow) : u64 * Z * Z * Z :=
  let durations := tm_duration_ms <$> rows in
  (Z.of_nat (length rows), 0, f64_as_u128 (int_avg durations),
   i64_as_u128 (match durations with [] => 0 | d :: ds => foldl Z.max d ds end)).
Definition latest_of (stage : string) (rows : list TelemetryRow) : option Z :=
  tm_duration_ms <$> last (filter (fun row => tm_stage row = stage) rows).
Definition summarize (kept : TelemetryRow -> bool) : StorageM (string + Summary) :=
  let rows t := filter (fun row => kept row = true) (telemetry t) in
  and_then (query (fun t => Some (stage_summary <$> group_by tm_stage (rows t)))) (fun summary : Summary =>
  and_then (query (fun t => Some (rows t))) (fun latest =>
  mret (inr (map_imap (fun stage '(samples, last_ms, avg_ms, max_ms) =>
                         Some (samples, default last_ms (i64_as_u128 <$> latest_of stage latest), avg_ms, max_ms))
               summary)))).
Definition telemetry_summary : StorageM (string + Summary) := summarize (fun _ => true).
Definition telemetry_window_summary (now : Z) (window_secs : Z) : StorageM (string + Summary) :=
  let cutoff := rfc3339 (now - Z.max window_secs 1 * secs) in
  summarize (fun row => negb (text_lt (tm_at row) cutoff)).

Definition top_wallet_residuals (limit : nat) :
    StorageM (string + list (string * string * u64 * u64 * string * string * string)) :=
  query (fun t =>
    rows ← mapM (fun row => profit ← text_as_int (re_detected_profit_wei row); Some (profit, row))
             (wallet_residual_stats t);
    let order := then_by (desc Z.compare fst) (desc Z.compare (fun kr : Z * ResidualRow => re_detections kr.2)) in
    mapM (fun '(_, row) =>
            detections ← get_u64 (re_detections row);
            successful_sweeps ← get_u64 (re_successful_sweeps row);
            Some (re_wallet row, re_asset_class row, detections, successful_sweeps, re_detected_profit_wei row,
                  re_realized_profit_wei row, re_last_seen_at row))
      (select order limit rows)).

(** What follows the first [::]. *)
Fixpoint after_scope (relay : string) : option string :=
  match relay with
  | String ":" (String ":" value) => Some value
  | String _ rest => after_scope rest
  | EmptyString => None
  end.
Definition unscoped_relay (relay : string) : string := default relay (after_scope relay).

Definition relay_rankings (limit : nat) : StorageM (string + list RelaySnapshot) := fun s =>
  let order : string * RelayRow -> string * RelayRow -> comparison :=
    then_by (asc real_cmp (fun kr => rm_score kr.2))
      (then_by (desc Z.compare (fun kr => rm_included_success kr.2))
         (desc real_cmp (fun kr => rm_accept_rate kr.2))) in
  query (fun t =>
    mapM (fun '(relay, row) =>
            accepted ← get_u64 (rm_accepted row);
            submit_failed ← get_u64 (rm_submit_failed row);
            included_success ← get_u64 (rm_included_success row);
            included_revert ← get_u64 (rm_included_revert row);
            not_included_timeout ← get_u64 (rm_not_included_timeout row);
            Some {| rl_relay := unscoped_relay relay; rl_score := rm_score row; rl_pressure := rm_pressure row;
                    rl_accept_rate := rm_accept_rate row; rl_inclusion_rate := rm_inclusion_rate row;
                    rl_accepted := accepted; rl_submit_failed := submit_failed;
                    rl_included_success := included_success; rl_included_revert := included_revert;
                    rl_not_included_timeout := not_included_timeout;
                    rl_submit_latency_ms := rm_submit_latency_ms row;
                    rl_finalization_latency_ms := rm_finalization_latency_ms row |})
      (select order limit (filter (fun kr => rm_network kr.2 = network s) (listing (relay_metrics t))))) s.

Definition treasury_rebalance_trail (limit : nat) : StorageM (string + list TreasurySnapshot) := fun s =>
  query (fun t => Some (take limit (filter (fun row => row.1 = network s) (rev (treasury_rebalance t))).*2)) s.

Definition execution_outcomes (limit : nat) : StorageM (string + list ExecutionOutcomeSnapshot) := fun s =>
  query (fun t =>
    mapM (fun row =>
            target_block ← get_u64 (oc_target_block row);
            gas_used ← get_u64 (oc_gas_used row);
            Some {| oc_at := oc_at row; oc_relay := oc_relay row; oc_target_block := target_block;
                    oc_pair := oc_pair row; oc_router := oc_router row; oc_token_in := oc_token_in row;
                    oc_token_out := oc_token_out row; oc_victim_tx := oc_victim_tx row;
                    oc_outcome := oc_outcome row; oc_expected_profit_eth := oc_expected_profit_eth row;
                    oc_realized_profit_eth := oc_realized_profit_eth row; oc_gas_used := gas_used;
                    oc_submit_latency_ms := oc_submit_latency_ms row;
                    oc_finalization_latency_ms := oc_finalization_latency_ms row |})
      (take limit (filter (fun row => row.1 = network s) (rev (execution_outcomes_table t))).*2)) s.

(** *** Profiles of outcomes *)

Record OutcomeGroup := {
  og_hour_utc : Z;
  og_pair : string;
  og_router : string;
  og_samples : Z;
  og_success_rate : f64;
  og_miss_rate : f64;
  og_revert_rate : f64;
  og_realized_capture : f64 }.
Definition outcome_group (group : (Z * string * string) * list ExecutionOutcomeSnapshot) : OutcomeGroup :=
  let '((hour_utc, pair_, router), rows) := group in
  let rate outcome :=
    real_avg ((fun row => if string_eqb (oc_outcome row) outcome then 1.0%f64 else 0.0%f64) <$> rows) in
  let capture row :=
    if flt 0.0 (oc_expected_profit_eth row) then
      fmin (fmax (oc_realized_profit_eth row / oc_expected_profit_eth row) 0.0) 1.25
    else 0.0%f64 in
  {| og_hour_utc := hour_utc; og_pair := pair_; og_router := router; og_samples := Z.of_nat (length rows);
     og_success_rate := rate "included_success"; og_miss_rate := rate "accepted_not_included";
     og_revert_rate := rate "included_revert"; og_realized_capture := real_avg (capture <$> rows) |}.
Definition outcome_groups (network : string) (t : Tables) : option (list OutcomeGroup) :=
  rows ← mapM (fun row : string * ExecutionOutcomeSnapshot =>
                 hour ← text_as_int (String.substring 11 2 (oc_at row.2)); Some (hour, row.2))
           (filter (fun row => row.1 = network) (execution_outcomes_table t));
  let groups := group_by (fun '(hour, row) => (hour, oc_pair row, oc_router row)) rows in
  Some ((fun '(key, rows) => outcome_group (key, rows.*2)) <$> listing groups).

Definition outcome_profiles (min_samples : u64) (limit : nat) : StorageM (string + list HistoricalOutcomeProfile) :=
  fun s =>
  query (fun t =>
    groups ← outcome_groups (network s) t;
    let profiles :=
      (fun g => {| hp_hour_utc := og_hour_utc g mod 256; hp_pair := default 0 (parse_address (og_pair g));
                   hp_router := default 0 (parse_address (og_router g)); hp_samples := og_samples g;
                   hp_success_rate := og_success_rate g; hp_accepted_not_included_rate := og_miss_rate g;
                   hp_revert_rate := og_revert_rate g; hp_realized_capture := og_realized_capture g |})
      <$> select (desc Z.compare og_samples) limit
            (filter (fun g => as_i64 min_samples <= og_samples g) groups) in
    Some (filter (fun p => hp_pair p <> 0 /\ hp_router p <> 0) profiles)) s.

(** The score shown, and the expression SQLite orders by. *)
Definition toxicity_score (success_rate miss_rate revert_rate realized_capture : f64) : f64 :=
  fclamp01 (fclamp01 (1.0 - success_rate) * 0.30 + fclamp01 miss_rate * 0.30 + fclamp01 revert_rate * 0.25
            + fclamp01 (1.0 - realized_capture) * 0.15)%f64.
Definition toxicity_rank (g : OutcomeGroup) : f64 :=
  ((1.0 - og_success_rate g) * 0.30 + og_miss_rate g * 0.30 + og_revert_rate g * 0.25
   + (1.0 - og_realized_capture g) * 0.15)%f64.
Definition toxicity_profiles (limit : nat) : StorageM (string + list ToxicitySnapshot) := fun s =>
  query (fun t =>
    groups ← outcome_groups (network s) t;
    let order := if is_postgres then desc Z.compare og_samples
                 else then_by (desc real_cmp toxicity_rank) (desc Z.compare og_samples) in
    Some ((fun g =>
             {| tx_hour_utc := og_hour_utc g mod 256; tx_pair := og_pair g; tx_router := og_router g;
                tx_samples := og_samples g; tx_success_rate := og_success_rate g; tx_miss_rate := og_miss_rate g;
                tx_revert_rate := og_revert_rate g; tx_realized_capture := og_realized_capture g;
                tx_toxicity_score := toxicity_score (og_success_rate g) (og_miss_rate g) (og_revert_rate g)
                                       (og_realized_capture g) |})
          <$> select order limit groups)) s.

Definition database_table_counts : StorageM (string + list (string * u64)) :=
  let count table (rows : Tables -> nat) := query (fun t => Some (table, Z.of_nat (rows t))) in
  let counts :=
    [count "events" (fun t => length (events t));
     count "telemetry" (fun t => length (telemetry t));
     count "sweeps" (fun t => length (sweeps t));
     count "wallet_residual_stats" (fun t => length (wallet_residual_stats t));
     count "relay_metrics" (fun t => size (relay_metrics t));
     count "treasury_rebalance" (fun t => length (treasury_rebalance t));
     count "execution_outcomes" (fun t => length (execution_outcomes_table t));
     count "unsupported_selectors" (fun t => size (unsupported_selectors t));
     count "latency_rollups" (fun t => size (latency_rollups t));
     count "funnel_rollups" (fun t => size (funnel_rollups t));
     count "reject_reason_rollups" (fun t => size (reject_reason_rollups t));
     count "selector_performance_rollups" (fun t => size (selector_performance_rollups t));
     count "selector_pool_performance_rollups" (fun t => size (selector_pool_performance_rollups t));
     count "replay_candidates" (fun t => size (replay_candidates t));
     count "selector_replay_scores" (fun t => size (selector_replay_scores_table t))] in
  foldr (fun one rest => and_then one (fun c => and_then rest (fun cs => mret (inr (c :: cs)))))
    (mret (inr [])) counts.
End Operations.

(** ** Exports *)

(** [{:.n}]: the exact decimal expansion, rounded to even. *)
Definition digits_of (n : nat) (v : Z) : string :=
  let fraction := show_Z (v mod 10 ^ Z.of_nat n) in
  show_Z (v / 10 ^ Z.of_nat n) +:+ "."
  +:+ String.concat "" (replicate (n - String.length fraction) "0") +:+ fraction.
Definition fmt_fixed (n : nat) (x : f64) : string :=
  let signed (s : bool) v := (if s then "-" else "") +:+ digits_of n v in
  match x with
  | S754_zero s => signed s 0
  | S754_infinity s => if s then "-inf" else "inf"
  | S754_nan => "NaN"
  | S754_finite s m e =>
      signed s (if 0 <=? e then Zpos m * 2 ^ e * 10 ^ Z.of_nat n
                else round_ratio_half_even (Zpos m * 10 ^ Z.of_nat n) (2 ^ (- e)))
  end.

(** The quote character doubled, between quotes. *)
Definition QUOTE : ascii := ascii_of_nat 34.
Fixpoint double_quotes (s : string) : string :=
  match s with
  | "" => ""
  | String c t => if Ascii.eqb c QUOTE then String c (String c (double_quotes t)) else String c (double_quotes t)
  end.
Definition csv_field (value : string) : string :=
  String QUOTE (double_quotes value +:+ String QUOTE "").

Definition csv_line (profile : ToxicitySnapshot) : string :=
  String.concat ","
    [csv_field (tx_router profile); csv_field (tx_pair profile); show_Z (tx_hour_utc profile);
     fmt_fixed 6 (tx_revert_rate profile); show_Z (tx_samples profile); fmt_fixed 6 (tx_success_rate profile);
     fmt_fixed 6 (tx_miss_rate profile); fmt_fixed 6 (tx_realized_capture profile);
     fmt_fixed 6 (tx_toxicity_score profile)] +:+ String (ascii_of_nat 10) "".
Definition toxicity_profiles_csv (profiles : list ToxicitySnapshot) : string :=
  foldl (fun out profile => out +:+ csv_line profile)
    ("router,pair,hour,revert_rate,samples,success_rate,miss_rate,realized_capture,toxicity_score"
     +:+ String (ascii_of_nat 10) "")
    profiles.

Record RealizedVsExpectedRow := {
  rv_snapshot : ExecutionOutcomeSnapshot;
  rv_delta_profit_eth : f64;
  rv_capture_ratio : f64 }.
Definition F64_EPSILON : f64 := Eval vm_compute in f64_of_ratio false 1 (2 ^ 52).
Definition from_snapshot (snapshot : ExecutionOutcomeSnapshot) : RealizedVsExpectedRow :=
  {| rv_snapshot := snapshot;
     rv_delta_profit_eth := (oc_realized_profit_eth snapshot - oc_expected_profit_eth snapshot)%f64;
     rv_capture_ratio :=
       if fle (fabs (oc_expected_profit_eth snapshot)) F64_EPSILON then 0.0%f64
       else (oc_realized_profit_eth snapshot / oc_expected_profit_eth snapshot)%f64 |}.
