(* ===== verification/Telemetry.v ===== *)
(** * The telemetry file ([dashboard.rs])

    What [FileTelemetry] appends to [edge-shadow.jsonl] and how it rotates the
    file. The files are a map from paths to contents; every operation on them is
    numbered, and [Files] says which ones succeed. A write leaves its whole line
    or nothing. The rendering of a record as JSON is a parameter. *)
From S2P Require Import Prelude F64 Text.
#[local] Open Scope string_scope.
#[local] Open Scope Z_scope.

Class Files := { io_ok : nat -> bool }.

Record EdgeSampleSnapshot := {
  es_observed_at : string;
  es_victim_tx : string;
  es_selector : string;
  es_status : string;
  es_reason : string;
  es_route_kind : string;
  es_path : list string;
  es_hops : u64;
  es_impacted_pools : list string;
  es_slippage_window_score : f64;
  es_pool_imbalance_score : f64;
  es_cross_dex_deviation_bps : Z;
  es_gas_estimate : u64;
  es_simulated_extraction_native : f64;
  es_aggregator_type : string;
  es_route_complexity : u64;
  es_split_ratio_bps : u64;
  es_dex_sequence : list string;
  es_route_inefficiency_score : f64;
  es_liquidity_distortion_score : f64;
  es_hop_profitability_rank : list string;
  es_best_size_bps : u64;
  es_amount_in_wei : string;
  es_amount_out_wei : string;
  es_gross_edge_wei : string;
  es_gross_edge_native : f64;
  es_repayment_wei : string;
  es_repayment_native : f64;
  es_price_impact_bps : u64;
  es_self_slippage_bps : u64;
  es_pool : string;
  es_factory : string;
  es_router : string;
  es_token_in : string;
  es_token_out : string }.

Inductive TelemetryLine :=
| LineEdgeSample (sample : EdgeSampleSnapshot)
| LineEvent (level message : string)
| LineLatency (stage : string) (duration_ms : Z) (wallet note : option string).

Record FileTelemetry := {
  ft_enabled : bool;
  ft_dir : string;
  ft_max_bytes : u64;
  ft_keep_files : nat;
  ft_decode_reject_sample_rate : u64;
  ft_edge_samples_seen : u64;
  ft_seen_decode_reject_keys : gset string;
  ft_files : gmap string string;
  ft_operations : nat }.
#[export] Instance FileTelemetry_eta : RecordEta FileTelemetry :=
  fields Build_FileTelemetry <&> ft_enabled <&> ft_dir <&> ft_max_bytes <&> ft_keep_files
    <&> ft_decode_reject_sample_rate <&> ft_edge_samples_seen <&> ft_seen_decode_reject_keys <&> ft_files
    <&> ft_operations.

(** ** The environment *)

Section Env.
Context (env : string -> option string).

Definition env_bool (name : string) (default_ : bool) : bool :=
  default default_
    (value ← env name;
     let value := to_lower (trim value) in
     if one_of value ["1"; "true"; "yes"; "on"] then Some true
     else if one_of value ["0"; "false"; "no"; "off"] then Some false
     else None).
Definition env_u64 (name : string) (default_ : u64) : u64 :=
  default default_ (value ← env name; parse_u64 (trim value)).

Definition storage_events_enabled : bool := env_bool "STORAGE_EVENTS_ENABLED" false.
Definition storage_telemetry_enabled : bool := env_bool "STORAGE_TELEMETRY_ENABLED" false.
Definition storage_rollups_enabled : bool := env_bool "STORAGE_ROLLUPS_ENABLED" true.
Definition file_latency_enabled : bool := env_bool "MEV_FILE_LATENCY_TELEMETRY_ENABLED" false.

Definition from_env (files : gmap string string) : FileTelemetry :=
  let enabled := env_bool "MEV_FILE_TELEMETRY_ENABLED" false in
  let dir := default "logs" (env "MEV_FILE_TELEMETRY_DIR") in
  let max_mb := Z.max (env_u64 "MEV_FILE_TELEMETRY_MAX_MB" 25) 1 in
  let keep_files := clampZ 1 100 (env_u64 "MEV_FILE_TELEMETRY_KEEP_FILES" 5) in
  let decode_reject_sample_rate := Z.max (env_u64 "MEV_DECODE_REJECT_SAMPLE_RATE" 20) 1 in
  {| ft_enabled := enabled; ft_dir := dir; ft_max_bytes := u64_smul max_mb (1024 * 1024);
     ft_keep_files := Z.to_nat keep_files; ft_decode_reject_sample_rate := decode_reject_sample_rate;
     ft_edge_samples_seen := 0; ft_seen_decode_reject_keys := ∅; ft_files := files; ft_operations := 0 |}.
End Env.

(** ** Files *)

(** [PathBuf::from(dir).join(...)], and [with_extension] on the result. *)
Definition in_dir (dir name : string) : string :=
  if String.eqb dir "" then name else if ends_with dir "/" then dir +:+ name else dir +:+ "/" +:+ name.
Definition path (self : FileTelemetry) : string := in_dir (ft_dir self) "edge-shadow.jsonl".
Definition rotated_path (self : FileTelemetry) (idx : nat) : string :=
  in_dir (ft_dir self) ("edge-shadow." +:+ show_nat idx +:+ ".jsonl").

Section Telemetry.
Context `{Files}.
Context (to_json : Z -> TelemetryLine -> string).

(** One operation on the files; [None] is its failure. *)
Definition operation (f : gmap string string -> option (gmap string string)) (self : FileTelemetry) :
    FileTelemetry * bool :=
  let self' := self <[ ft_operations ::= S (ft_operations self) ]> in
  if io_ok (ft_operations self) then
    match f (ft_files self) with Some m => (self' <[ ft_files ::= m ]>, true) | None => (self', false) end
  else (self', false).
Definition rename (from to : string) (m : gmap string string) : option (gmap string string) :=
  content ← m !! from; Some (<[to := content]> (delete from m)).
Definition remove_file (from : string) (m : gmap string string) : option (gmap string string) :=
  _ ← m !! from; Some (delete from m).
Definition exists_ (name : string) (self : FileTelemetry) : bool := bool_decide (is_Some (ft_files self !! name)).

(** [for idx in (1..=keep_files).rev()]. *)
Fixpoint shift_files (idx : nat) (self : FileTelemetry) : FileTelemetry :=
  match idx with
  | O => self
  | S below =>
      let from := rotated_path self idx in
      let to := rotated_path self (idx + 1) in
      let self :=
        if exists_ from self then
          if (idx =? ft_keep_files self)%nat then (operation (remove_file from) self).1
          else (operation (rename from to) self).1
        else self in
      shift_files below self
  end.
Definition rotate_if_needed (self : FileTelemetry) : FileTelemetry :=
  match ft_files self !! path self with
  | None => self
  | Some content =>
      if Z.of_nat (String.length content) <? ft_max_bytes self then self
      else
        let self := shift_files (ft_keep_files self) self in
        (operation (rename (path self) (rotated_path self 1)) self).1
  end.

(** The directory created, the file rotated, opened and appended to. *)
Definition write_json_line (record : string) (self : FileTelemetry) : FileTelemetry :=
  let '(self, created) := operation Some self in
  if negb created then self
  else
    let self := rotate_if_needed self in
    (operation (fun m => Some (<[path self := default "" (m !! path self)
                                              +:+ record +:+ String (ascii_of_nat 10) ""]> m)) self).1.

Definition should_write_edge_sample (sample : EdgeSampleSnapshot) (self : FileTelemetry) : FileTelemetry * bool :=
  if negb (string_eqb (es_status sample) "decode_reject") then (self, true)
  else
    let key := es_selector sample +:+ "|" +:+ es_reason sample in
    let seen := u64_sadd (ft_edge_samples_seen self) 1 in
    let self' := self <[ ft_edge_samples_seen ::= seen ]>
                      <[ ft_seen_decode_reject_keys ::= {[ key ]} ∪ ft_seen_decode_reject_keys self ]> in
    if bool_decide (key ∉ ft_seen_decode_reject_keys self) then (self', true)
    else (self', seen mod ft_decode_reject_sample_rate self =? 0).

(** [now] is the time of the record. *)
Definition record_edge_sample (now : Z) (sample : EdgeSampleSnapshot) (self : FileTelemetry) : FileTelemetry :=
  if negb (ft_enabled self) then self
  else
    let '(self, wanted) := should_write_edge_sample sample self in
    if negb wanted then self else write_json_line (to_json now (LineEdgeSample sample)) self.
Definition record_event (now : Z) (level message : string) (self : FileTelemetry) : FileTelemetry :=
  if negb (ft_enabled self) then self else write_json_line (to_json now (LineEvent level message)) self.
Definition record_latency (env : string -> option string) (now : Z) (stage : string) (duration_ms : Z)
    (wallet note : option string) (self : FileTelemetry) : FileTelemetry :=
  if negb (ft_enabled self) || negb (file_latency_enabled env) then self
  else write_json_line (to_json now (LineLatency stage duration_ms wallet note)) self.
End Telemetry.
