(* ===== verification/TelemetryFacts.v ===== *)
(** * The telemetry file keeps a suffix of what is written

    When the operations on the files succeed, the current file and the rotated
    ones hold together, oldest first, all that was written but for what whole
    files at the old end held. *)
From S2P Require Import Prelude F64 Text Storage Telemetry.
#[local] Open Scope string_scope.
#[local] Open Scope Z_scope.

(** ** Names *)

Lemma append_inj_l s t t' : s +:+ t = s +:+ t' -> t = t'.
Proof. induction s as [|c s IH]; [done|]. intros E. apply IH. by injection E. Qed.
Lemma length_append s t : String.length (s +:+ t) = (String.length s + String.length t)%nat.
Proof. induction s as [|c s IH]; simpl; [done|by rewrite IH]. Qed.
Lemma append_assoc s t u : (s +:+ t) +:+ u = s +:+ (t +:+ u).
Proof. induction s as [|c s IH]; [done|]. change (String c ((s +:+ t) +:+ u) = String c (s +:+ (t +:+ u))). by rewrite IH. Qed.
Lemma append_nil s : s +:+ "" = s.
Proof. induction s as [|c s IH]; [done|]. change (String c (s +:+ "") = String c s). by rewrite IH. Qed.
Lemma append_inj_r s s' t : s +:+ t = s' +:+ t -> s = s'.
Proof.
  revert s'. induction s as [|c s IH]; intros [|c' s'] E; [done| | |].
  - apply (f_equal String.length) in E. rewrite !length_append in E. simpl in E. lia.
  - apply (f_equal String.length) in E. rewrite !length_append in E. simpl in E. lia.
  - injection E as -> E. by rewrite (IH s').
Qed.
Lemma in_dir_inj dir a b : in_dir dir a = in_dir dir b -> a = b.
Proof.
  unfold in_dir. destruct (String.eqb dir ""), (ends_with dir "/"); try done; intros E; apply append_inj_l in E; [done|].
  by injection E.
Qed.

(** The current file, and behind it the rotated ones. *)
Definition file_name (self : FileTelemetry) (i : nat) : string :=
  match i with O => path self | S _ => rotated_path self i end.
Lemma file_name_inj self i j : file_name self i = file_name self j -> i = j.
Proof.
  assert (L : forall n, path self <> rotated_path self n).
  { intros n E%in_dir_inj. apply (f_equal String.length) in E.
    change ("edge-shadow.jsonl") with ("edge-shadow." +:+ "jsonl") in E. rewrite !length_append in E. simpl in E. lia. }
  destruct i as [|i], j as [|j]; [done|by intros E%L|by intros E%eq_sym%L|].
  intros E%in_dir_inj. apply append_inj_l, append_inj_r in E. unfold show_nat in E. by apply (inj pretty) in E.
Qed.

Section Rotation.
Context `{Files} (works : forall n, io_ok n = true).

(** What a step on the files keeps. *)
Definition same_settings (self self' : FileTelemetry) : Prop :=
  ft_dir self' = ft_dir self /\ ft_max_bytes self' = ft_max_bytes self /\ ft_keep_files self' = ft_keep_files self.
Lemma same_name self self' i : same_settings self self' -> file_name self' i = file_name self i.
Proof. intros (D & _). unfold file_name, path, rotated_path. by rewrite D. Qed.
Lemma operation_works f self : exists self',
  same_settings self self' /\ ft_files self' = default (ft_files self) (f (ft_files self)) /\
  operation f self = (self', match f (ft_files self) with Some _ => true | None => false end).
Proof.
  unfold operation. rewrite works. exists (self <[ ft_operations ::= S (ft_operations self) ]>
    <[ ft_files ::= default (ft_files self) (f (ft_files self)) ]>). by destruct (f (ft_files self)).
Qed.

(** The [i]-th file behind the current one. *)
Definition file_at (self : FileTelemetry) (i : nat) : option string := ft_files self !! file_name self i.

(** One file moves to the next place, or is removed. *)
Lemma shift_one self b : let idx := S b in (idx <= ft_keep_files self)%nat ->
  (idx < ft_keep_files self -> file_at self (S idx) = None)%nat ->
  exists self', same_settings self self' /\
    shift_files idx self = shift_files b self' /\
    file_at self' idx = None /\
    ((idx < ft_keep_files self)%nat -> file_at self' (S idx) = file_at self idx) /\
    forall i, i <> idx -> i <> S idx -> file_at self' i = file_at self i.
Proof.
  intros idx L Hole.
  assert (U : shift_files idx self = shift_files b
    (if exists_ (file_name self idx) self then
       if (idx =? ft_keep_files self)%nat then (operation (remove_file (file_name self idx)) self).1
       else (operation (rename (file_name self idx) (file_name self (S idx))) self).1
     else self)).
  { unfold idx, file_name. cbn [shift_files]. by replace (S b + 1)%nat with (S (S b)) by lia. }
  rewrite U. clear U. unfold exists_. fold (file_at self idx). destruct (file_at self idx) as [c|] eqn:E.
  2: { exists self. rewrite bool_decide_false by (by intros [? ?]). by split_and!. }
  rewrite bool_decide_true by eauto. destruct (Nat.eqb_spec idx (ft_keep_files self)) as [K|K].
  - destruct (operation_works (remove_file (file_name self idx)) self) as (self' & S' & F & ->).
    unfold file_at in E.
    unfold remove_file in F. rewrite E in F. change (ft_files self' = delete (file_name self idx) (ft_files self)) in F.
    exists self'. split; [done|]. split; [done|]. unfold file_at. rewrite F. split_and!.
    + rewrite (same_name _ _ _ S'). apply lookup_delete_eq.
    + lia.
    + intros i N1 N2. rewrite (same_name _ _ _ S'). apply lookup_delete_ne. by intros Q%file_name_inj.
  - destruct (operation_works (rename (file_name self idx) (file_name self (S idx))) self) as (self' & S' & F & ->).
    unfold file_at in E. unfold rename in F. rewrite E in F.
    change (ft_files self' = <[file_name self (S idx):=c]> (delete (file_name self idx) (ft_files self))) in F.
    exists self'. split; [done|]. split; [done|]. unfold file_at. rewrite F. split_and!.
    + rewrite (same_name _ _ _ S'), lookup_insert_ne by (intros Q%file_name_inj; lia). apply lookup_delete_eq.
    + intros _. rewrite (same_name _ _ _ S'). apply lookup_insert_eq.
    + intros i N1 N2. rewrite (same_name _ _ _ S'), lookup_insert_ne, lookup_delete_ne; [done|by intros Q%file_name_inj..].
Qed.
Lemma shift_spec m self : (m <= ft_keep_files self)%nat -> (m < ft_keep_files self -> file_at self (S m) = None)%nat ->
  let self' := shift_files m self in
  same_settings self self' /\ ((1 <= m)%nat -> file_at self' 1 = None) /\
  (forall i, (1 <= i <= m)%nat -> (i < ft_keep_files self)%nat -> file_at self' (S i) = file_at self i) /\
  (forall i, i = 0%nat \/ (S m < i)%nat -> file_at self' i = file_at self i).
Proof.
  revert self. induction m as [|b IH]; intros self L Hole; [by split_and!; intros; try lia|]. cbv zeta.
  destruct (shift_one self b L Hole) as (s1 & S1 & -> & N1 & M1 & O1).
  assert (K1 : ft_keep_files s1 = ft_keep_files self) by apply S1.
  destruct (IH s1) as (S2 & H1 & M2 & O2); [lia|intros _; exact N1|].
  split; [destruct S1 as (? & ? & ?), S2 as (? & ? & ?); split_and!; congruence|]. split_and!.
  - intros _. destruct b as [|b]; [simpl; exact N1|apply H1; lia].
  - intros i I1 I2. destruct (decide (i = S b)) as [->|N].
    + rewrite O2 by lia. apply M1. lia.
    + rewrite M2 by lia. apply O1; lia.
  - intros i I. rewrite O2 by lia. apply O1; lia.
Qed.

(** ** What the files hold together *)

Definition content (self : FileTelemetry) (i : nat) : string := default "" (file_at self i).
(** The files up to the [n]-th, oldest first. *)
Fixpoint joined (at_ : nat -> string) (n : nat) : string :=
  match n with O => at_ O | S m => at_ (S m) +:+ joined at_ m end.
Definition kept_text (self : FileTelemetry) : string := joined (content self) (ft_keep_files self).
Definition size (s : string) : Z := Z.of_nat (String.length s).

Lemma joined_shift at_ at' n : at' 0%nat = "" -> (forall i, (i < n)%nat -> at' (S i) = at_ i) -> (1 <= n)%nat ->
  joined at' n = joined at_ (pred n).
Proof.
  intros Z. induction n as [|n IH]; intros S L; [lia|]. simpl pred. cbn [joined]. rewrite S by lia.
  destruct n as [|n]; [cbn [joined]; rewrite Z; apply append_nil|]. rewrite IH by (lia || (intros i ?; apply S; lia)). done.
Qed.
Lemma joined_append at_ at' line n : at' 0%nat = at_ 0%nat +:+ line -> (forall i, at' (S i) = at_ (S i)) ->
  joined at' n = joined at_ n +:+ line.
Proof. intros E S. induction n as [|n IH]; cbn [joined]; [done|]. by rewrite S, IH, append_assoc. Qed.
Lemma joined_last at_ n : (1 <= n)%nat -> joined at_ n = at_ n +:+ joined at_ (pred n).
Proof. destruct n; [lia|done]. Qed.

(** The invariant: [written] is what was dropped and what is kept; the rotated
    files are full and without a gap, and something is dropped only behind them. *)
Record holds (bound : Z) (written : string) (self : FileTelemetry) : Prop := {
  h_keep : (1 <= ft_keep_files self)%nat;
  h_max : 0 < ft_max_bytes self;
  h_small : forall i, (i <= ft_keep_files self)%nat -> size (content self i) < ft_max_bytes self + bound;
  h_full : forall i c, (1 <= i <= ft_keep_files self)%nat -> file_at self i = Some c -> ft_max_bytes self <= size c;
  h_gap : forall i, (1 <= i)%nat -> (i < ft_keep_files self)%nat -> is_Some (file_at self (S i)) -> is_Some (file_at self i);
  h_text : exists dropped, written = dropped +:+ kept_text self
             /\ (dropped <> "" -> is_Some (file_at self (ft_keep_files self))) }.

Lemma holds_ext bound written self self' :
  same_settings self self' -> ft_files self' = ft_files self -> holds bound written self -> holds bound written self'.
Proof.
  intros S F [K M Sm Fu G T].
  assert (A : forall i, file_at self' i = file_at self i) by (intros i; unfold file_at; by rewrite F, (same_name _ _ _ S)).
  assert (C : forall i, content self' i = content self i) by (intros i; unfold content; by rewrite A).
  destruct S as (D & M' & K'). split; rewrite ?M', ?K'; try done.
  - intros i. rewrite C. apply Sm.
  - intros i c I. rewrite A. by apply Fu.
  - intros i. rewrite !A. apply G.
  - assert (X : kept_text self' = kept_text self).
    { unfold kept_text. rewrite K'. generalize (ft_keep_files self). intros n. induction n as [|n IH]; cbn [joined]; by rewrite C, ?IH. }
    rewrite X, A. exact T.
Qed.

Lemma rotated_holds bound written self s c0 : 0 <= bound -> same_settings self s ->
  (forall i, (i < ft_keep_files self)%nat -> file_at s (S i) = file_at self i) -> file_at s 0 = None ->
  file_at self 0 = Some c0 -> ft_max_bytes self <= size c0 -> holds bound written self -> holds bound written s.
Proof.
  intros B (D & M' & K') A A0 E0 L [K M Sm Fu G (dropped & T & Dr)].
  assert (C0 : content s 0 = "") by (unfold content; by rewrite A0).
  assert (C : forall i, (i < ft_keep_files self)%nat -> content s (S i) = content self i) by (intros i I; unfold content; by rewrite A).
  split; rewrite ?M', ?K'; try done.
  - intros [|i] I; [rewrite C0; change (size "") with 0; lia|]. rewrite C by lia. apply Sm. lia.
  - intros [|i] c I; [lia|]. rewrite A by lia. destruct i as [|i]; [rewrite E0; by intros [= <-]|]. apply Fu. lia.
  - intros [|i] I1 I2; [lia|]. rewrite !A by lia. destruct i as [|i]; [rewrite E0; eauto|]. apply G; lia.
  - exists (dropped +:+ content self (ft_keep_files self)). unfold kept_text in *.
    rewrite K', (joined_shift (content self)) by done. rewrite append_assoc, <- joined_last by done. split; [done|].
    intros N. replace (ft_keep_files self) with (S (pred (ft_keep_files self))) by lia. rewrite A by lia.
    destruct (pred (ft_keep_files self)) as [|k] eqn:P; [rewrite E0; eauto|].
    apply G; [lia|lia|]. replace (S (S k)) with (ft_keep_files self) by lia.
    destruct (decide (dropped = "")) as [->|Nd]; [|by apply Dr].
    unfold content in N. destruct (file_at self (ft_keep_files self)); [eauto|done].
Qed.

(** Rotating leaves the current file short. *)
Lemma rotate_holds bound written self : 0 <= bound -> holds bound written self ->
  holds bound written (rotate_if_needed self) /\ size (content (rotate_if_needed self) 0) < ft_max_bytes (rotate_if_needed self)
  /\ same_settings self (rotate_if_needed self).
Proof.
  intros B Ho. pose proof Ho as [K M Sm Fu G (dropped & T & D)]. unfold rotate_if_needed.
  change (ft_files self !! path self) with (file_at self 0).
  destruct (file_at self 0) as [c0|] eqn:E0.
  2: { split_and!; [done| |by split_and!]. unfold content. by rewrite E0. }
  destruct (Z.ltb_spec (Z.of_nat (String.length c0)) (ft_max_bytes self)) as [L|L].
  { split_and!; [done| |by split_and!]. unfold content. by rewrite E0. }
  cbv zeta. destruct (shift_spec (ft_keep_files self) self ltac:(lia) ltac:(lia)) as (S1 & H1 & M1 & O1).
  set (s1 := shift_files (ft_keep_files self) self) in *.
  destruct (operation_works (rename (file_name s1 0) (file_name s1 1)) s1) as (s2 & S2 & F2 & E2).
  change (rename (path s1) (rotated_path s1 1)) with (rename (file_name s1 0) (file_name s1 1)). rewrite E2. cbn [fst].
  assert (Q0 : file_at s1 0 = Some c0) by (rewrite O1 by lia; done).
  unfold rename in F2. unfold file_at in Q0. rewrite Q0 in F2.
  change (ft_files s2 = <[file_name s1 1:=c0]> (delete (file_name s1 0) (ft_files s1))) in F2.
  assert (SS : same_settings self s2).
  { destruct S1 as (? & ? & ?), S2 as (? & ? & ?). split_and!; congruence. }
  assert (A0 : file_at s2 0 = None).
  { unfold file_at. rewrite F2, (same_name _ _ _ S2), lookup_insert_ne by (intros Q%file_name_inj; lia). apply lookup_delete_eq. }
  assert (A1 : file_at s2 1 = file_at self 0).
  { rewrite E0. unfold file_at. rewrite F2, (same_name _ _ _ S2). apply lookup_insert_eq. }
  assert (AS : forall i, (2 <= i)%nat -> file_at s2 i = file_at s1 i).
  { intros i I. unfold file_at. rewrite F2, (same_name _ _ _ S2), lookup_insert_ne, lookup_delete_ne; [done|intros Q%file_name_inj; lia..]. }
  assert (A : forall i, (i < ft_keep_files self)%nat -> file_at s2 (S i) = file_at self i).
  { intros [|i] I; [done|]. rewrite AS by lia. apply M1; lia. }
  split_and!; [|unfold content; rewrite A0; by destruct SS as (_ & -> & _)|exact SS].
  by eapply rotated_holds.
Qed.

Definition newline : string := String (ascii_of_nat 10) "".
Lemma write_holds bound written line self : size line < bound -> holds bound written self ->
  holds bound (written +:+ line +:+ newline) (write_json_line line self) /\ same_settings self (write_json_line line self).
Proof.
  intros B Ho. assert (0 <= bound) by (unfold size in B; lia). unfold write_json_line.
  destruct (operation_works Some self) as (s1 & S1 & F1 & ->). simpl in F1. cbn [negb].
  apply (holds_ext _ _ _ _ S1 F1) in Ho. destruct (rotate_holds _ _ _ ltac:(done) Ho) as (H2 & L2 & S2).
  set (s2 := rotate_if_needed s1) in *.
  set (append := fun m : gmap string string => Some (<[path s2:=default "" (m !! path s2) +:+ line +:+ newline]> m)).
  destruct (operation_works append s2) as (s3 & S3 & F3 & E3).
  change (operation _ s2) with (operation append s2). rewrite E3. cbn [fst]. simpl in F3.
  assert (SS : same_settings self s3).
  { destruct S1 as (? & ? & ?), S2 as (? & ? & ?), S3 as (? & ? & ?). split_and!; congruence. }
  split; [|exact SS].
  assert (A0 : content s3 0 = content s2 0 +:+ (line +:+ newline)).
  { unfold content, file_at. rewrite F3, (same_name _ _ _ S3). by rewrite lookup_insert_eq. }
  assert (AS : forall i, file_at s3 (S i) = file_at s2 (S i)).
  { intros i. unfold file_at. rewrite F3, (same_name _ _ _ S3).
    rewrite lookup_insert_ne; [done|]. change (path s2) with (file_name s2 0). by intros Q%file_name_inj. }
  assert (CS : forall i, content s3 (S i) = content s2 (S i)) by (intros i; unfold content; by rewrite AS).
  destruct H2 as [K M Sm Fu G (dropped & T & D)]. destruct S3 as (_ & M' & K').
  split; rewrite ?M', ?K'; try done.
  - intros [|i] I; [|rewrite CS; by apply Sm]. rewrite A0. unfold size in *. rewrite !length_append. simpl. lia.
  - intros [|i] c I; [lia|]. rewrite AS. by apply Fu.
  - intros [|i] I; [lia|]. rewrite !AS. by apply G.
  - exists dropped. destruct (ft_keep_files s2) as [|k] eqn:Kk; [lia|]. rewrite AS. split; [|exact D].
    rewrite T, append_assoc. f_equal. unfold kept_text. rewrite K'.
    rewrite Kk. symmetry. by apply joined_append.
Qed.

(** The lines written, one after another. *)
Definition written_text (lines : list string) : string := foldl (fun text line => text +:+ line +:+ newline) "" lines.

(** C40: as long as every operation on the files succeeds, the telemetry file keeps the
    end of what is written: with a directory that holds none of its files at the
    start, whatever lines are written, all of them are, in their order, what was
    dropped and then the rotated files from the oldest to the current one; something
    is dropped only when all the rotated files that are kept hold the configured bytes
    or more; and no file exceeds them by more than a line. (An operation that fails is
    not tried again: see [failed_append_is_lost].) *)
Theorem telemetry_keeps_the_end env files lines bound :
  let self := from_env env files in
  let self' := foldl (fun self line => write_json_line line self) self lines in
  (forall i, files !! file_name self i = None) -> Forall (fun line => size line < bound) lines -> 0 <= bound ->
  (exists dropped, written_text lines = dropped +:+ kept_text self' /\
     (dropped = "" \/ forall i, (1 <= i <= ft_keep_files self')%nat -> ft_max_bytes self' <= size (content self' i))) /\
  forall i, (i <= ft_keep_files self')%nat -> size (content self' i) < ft_max_bytes self' + bound.
Proof.
  intros self self' None_ F B.
  assert (Ho : holds bound "" self).
  { assert (A : forall i, file_at self i = None) by done.
    assert (C : forall i, content self i = "") by (intros i; unfold content; by rewrite A).
    assert (M : 0 < ft_max_bytes self).
    { unfold self, from_env. simpl. unfold u64_smul, sat_mul, U64_MAX. lia. }
    assert (K : (1 <= ft_keep_files self)%nat).
    { unfold self, from_env. cbv zeta. cbn [ft_keep_files].
      generalize (env_u64 env "MEV_FILE_TELEMETRY_KEEP_FILES" 5). intros n. unfold clampZ. lia. }
    split; [exact K|done|intros i _; rewrite C; change (size "") with 0; lia| | |].
    - intros i c _. by rewrite A.
    - intros i _ _. rewrite A. by intros [? ?].
    - exists "". split; [|done]. unfold kept_text. generalize (ft_keep_files self). intros n.
      induction n as [|n IH]; cbn [joined]; rewrite C; [done|exact IH]. }
  assert (Hf : holds bound (written_text lines) self').
  { unfold self', written_text. clear self' None_. revert Ho. generalize self, "". clear self. induction F as [|line lines L _ IH]; intros self w Ho; [done|].
    simpl. apply IH. by apply write_holds. }
  destruct Hf as [K M Sm Fu G (dropped & T & D)]. split; [|exact Sm]. exists dropped. split; [exact T|].
  destruct (decide (dropped = "")) as [->|N]; [by left|right]. specialize (D N).
  assert (A : forall n i, (i + n = ft_keep_files self')%nat -> (1 <= i)%nat -> is_Some (file_at self' i)).
  { induction n as [|n IH]; intros i E I; [by replace i with (ft_keep_files self') by lia|]. apply G; [done|lia|]. apply IH; lia. }
  intros i I. destruct (A (ft_keep_files self' - i)%nat i) as [c E]; [lia..|]. unfold content. rewrite E. by apply (Fu i).
Qed.
End Rotation.

(** The line of an append that fails is not written later. *)
Example failed_append_is_lost :
  let second_fails := {| io_ok := fun n => negb (n =? 1)%nat |} in
  let write line self := @write_json_line second_fails line self in
  let self := write "[]" (write "{}" (from_env (fun _ => None) ∅)) in
  kept_text self = "[]" +:+ newline.
Proof. vm_compute. reflexivity. Qed.

Lemma telemetry_keeps_the_end_witness :
  let files_work := {| io_ok := fun _ => true |} in
  let self := foldl (fun self line => @write_json_line files_work line self) (from_env (fun _ => None) ∅) ["{}"; "[]"] in
  exists dropped, written_text ["{}"; "[]"] = dropped +:+ kept_text self /\ size (content self 0) < ft_max_bytes self + 3.
Proof.
  intros files_work self.
  destruct (@telemetry_keeps_the_end files_work (fun _ => eq_refl) (fun _ => None) ∅ ["{}"; "[]"] 3) as [(dropped & T & _) S].
  - intros i. apply lookup_empty.
  - repeat constructor.
  - lia.
  - exists dropped. split; [exact T|apply (S 0%nat); lia].
Defined.
