(* ===== verification/Dashboard.v ===== *)
(** * The dashboard's state ([dashboard.rs])

    What the dashboard shows and how an observation changes it: events, counters
    of the funnel, reasons of rejection, samples, unsupported selectors, latencies,
    relays, the observer's window; and the figures computed from them. The handle
    that shares this state with the storage is [DashboardHandle]. A list grows at
    the end the source pushes to. *)
From S2P Require Import Prelude F64 Text Rpc PayloadErrors Storage Telemetry.
#[local] Open Scope string_scope.
#[local] Open Scope Z_scope.

(** ** Snapshots *)

Record WalletSnapshot := {
  wl_role : string;
  wl_address : string;
  wl_balance_eth : string;
  wl_rpc : string;
  wl_status : string;
  wl_note : string }.

Record WalletResidualSnapshot := {
  wr_wallet : string;
  wr_asset_class : string;
  wr_detections : u64;
  wr_successful_sweeps : u64;
  wr_detected_profit_eth : string;
  wr_realized_profit_eth : string;
  wr_residual_score : u64;
  wr_last_seen_at : string }.

Record RejectReasonSnapshot := {
  rr_stage : string;
  rr_reason : string;
  rr_count : u64 }.
#[export] Instance RejectReasonSnapshot_eta : RecordEta RejectReasonSnapshot :=
  fields Build_RejectReasonSnapshot <&> rr_stage <&> rr_reason <&> rr_count.

Record RejectBreakdownSnapshot := {
  rb_category : string;
  rb_count : u64;
  rb_pct : f64;
  rb_top_reason : string }.

Record OpportunityFunnelSnapshot := {
  fn_pending_hashes_received : u64;
  fn_tx_lookup_success : u64;
  fn_tx_lookup_miss : u64;
  fn_tx_lookup_throttled : u64;
  fn_decode_pass : u64;
  fn_decode_reject : u64;
  fn_partial_signal : u64;
  fn_block_lookup_success : u64;
  fn_block_lookup_fail : u64;
  fn_fast_preflight_pass : u64;
  fn_fast_preflight_reject : u64;
  fn_adaptive_preflight_pass : u64;
  fn_adaptive_preflight_reject : u64;
  fn_payload_built : u64;
  fn_shadow_payload_built : u64;
  fn_payload_reject : u64;
  fn_payload_to_quote_pass : u64;
  fn_payload_to_quote_reject : u64;
  fn_ev_gate_pass : u64;
  fn_ev_gate_reject : u64;
  fn_adaptive_quote_candidate : u64;
  fn_adaptive_quote_pass : u64;
  fn_adaptive_quote_reject : u64;
  fn_adaptive_quote_error : u64;
  fn_execution_ready_candidate : u64;
  fn_execution_ready : u64;
  fn_execution_ready_reject : u64;
  fn_submit_attempted : u64;
  fn_submit_succeeded : u64;
  fn_submit_failed : u64 }.
#[export] Instance OpportunityFunnelSnapshot_eta : RecordEta OpportunityFunnelSnapshot :=
  fields Build_OpportunityFunnelSnapshot
    <&> fn_pending_hashes_received <&> fn_tx_lookup_success <&> fn_tx_lookup_miss
    <&> fn_tx_lookup_throttled <&> fn_decode_pass <&> fn_decode_reject <&> fn_partial_signal
    <&> fn_block_lookup_success <&> fn_block_lookup_fail <&> fn_fast_preflight_pass
    <&> fn_fast_preflight_reject <&> fn_adaptive_preflight_pass <&> fn_adaptive_preflight_reject
    <&> fn_payload_built <&> fn_shadow_payload_built <&> fn_payload_reject <&> fn_payload_to_quote_pass
    <&> fn_payload_to_quote_reject <&> fn_ev_gate_pass <&> fn_ev_gate_reject
    <&> fn_adaptive_quote_candidate <&> fn_adaptive_quote_pass <&> fn_adaptive_quote_reject
    <&> fn_adaptive_quote_error <&> fn_execution_ready_candidate <&> fn_execution_ready
    <&> fn_execution_ready_reject <&> fn_submit_attempted <&> fn_submit_succeeded <&> fn_submit_failed.

Definition OpportunityFunnelSnapshot_default : OpportunityFunnelSnapshot :=
  Build_OpportunityFunnelSnapshot 0 0 0 0 0 0 0 0 0 0 0 0 0 0 0 0 0 0 0 0 0 0 0 0 0 0 0 0 0 0.

Record UnsupportedSelectorSnapshot := {
  un_selector : string;
  un_target : string;
  un_monitored_token_hint : string;
  un_input_bytes : u64;
  un_count : u64;
  un_first_seen : string;
  un_last_seen : string;
  un_sample_tx : string;
  un_sample_reason : string }.
#[export] Instance UnsupportedSelectorSnapshot_eta : RecordEta UnsupportedSelectorSnapshot :=
  fields Build_UnsupportedSelectorSnapshot
    <&> un_selector <&> un_target <&> un_monitored_token_hint <&> un_input_bytes <&> un_count
    <&> un_first_seen <&> un_last_seen <&> un_sample_tx <&> un_sample_reason.

Record EdgeTelemetrySnapshot := {
  et_sample_count : u64;
  et_payload_ready_count : u64;
  et_blocked_count : u64;
  et_last_sample : option EdgeSampleSnapshot;
  et_samples : list EdgeSampleSnapshot;
  et_unsupported_selectors : list UnsupportedSelectorSnapshot }.
#[export] Instance EdgeTelemetrySnapshot_eta : RecordEta EdgeTelemetrySnapshot :=
  fields Build_EdgeTelemetrySnapshot <&> et_sample_count <&> et_payload_ready_count <&> et_blocked_count <&> et_last_sample
    <&> et_samples <&> et_unsupported_selectors.

Definition EdgeTelemetrySnapshot_default : EdgeTelemetrySnapshot := Build_EdgeTelemetrySnapshot 0 0 0 None [] [].

(** A report, and the last completed one it carries, which carries none itself. *)
Inductive ScavengerObserverReport := {
  so_status : string;
  so_phase : string;
  so_rpc_capacity_limited : bool;
  so_observed_secs : u64;
  so_sample_count : u64;
  so_healthy_rpc_now : u64;
  so_active_rpc_now : u64;
  so_disabled_rpc_now : u64;
  so_penalized_rpc_now : u64;
  so_avg_healthy_rpc : f64;
  so_max_block_age_secs : u64;
  so_pending_delta : u64;
  so_lookup_ok_delta : u64;
  so_lookup_miss_delta : u64;
  so_lookup_shed_delta : u64;
  so_decode_pass_delta : u64;
  so_block_fail_delta : u64;
  so_payload_reject_delta : u64;
  so_edge_samples_delta : u64;
  so_lookup_hit_rate_pct : f64;
  so_shed_rate_pct : f64;
  so_decode_pass_rate_pct : f64;
  so_block_fail_rate_pct : f64;
  so_recommendation : string;
  so_notes : list string;
  so_last_completed : option ScavengerObserverReport }.

Definition ScavengerObserverReport_default : ScavengerObserverReport :=
  Build_ScavengerObserverReport "" "" false 0 0 0 0 0 0 0.0 0 0 0 0 0 0 0 0 0 0.0 0.0 0.0 0.0 "" [] None.

Record ScavengerObserverSample := {
  sm_observed_at : Instant;
  sm_funnel : OpportunityFunnelSnapshot;
  sm_edge_sample_count : u64;
  sm_healthy_rpc : u64;
  sm_active_rpc : u64;
  sm_disabled_rpc : u64;
  sm_penalized_rpc : u64;
  sm_max_block_age_secs : u64 }.

Record ScavengerObserver := {
  ob_samples : list ScavengerObserverSample;
  ob_current_started_at : option Instant;
  ob_last_completed : option ScavengerObserverReport }.
#[export] Instance ScavengerObserver_eta : RecordEta ScavengerObserver :=
  fields Build_ScavengerObserver <&> ob_samples <&> ob_current_started_at <&> ob_last_completed.

Definition ScavengerObserver_default : ScavengerObserver := Build_ScavengerObserver [] None None.

Record LatencyMetric := {
  lm_stage : string;
  lm_samples : u64;
  lm_last_ms : option Z;
  lm_avg_ms : option Z;
  lm_max_ms : option Z }.
#[export] Instance LatencyMetric_eta : RecordEta LatencyMetric :=
  fields Build_LatencyMetric <&> lm_stage <&> lm_samples <&> lm_last_ms <&> lm_avg_ms <&> lm_max_ms.

Record LatencyRiskSnapshot := {
  lk_updated_at : string;
  lk_window_secs : u64;
  lk_sample_count : u64;
  lk_hot_path_avg_ms : Z;
  lk_hot_path_max_ms : Z;
  lk_monitor_avg_ms : Z;
  lk_rpc_avg_ms : Z;
  lk_score : f64;
  lk_level : string;
  lk_bottleneck_stage : string }.

Record DashboardState := {
  ds_runtime_mode : string;
  ds_market_regime : string;
  ds_allow_send : bool;
  ds_runtime_paused : bool;
  ds_network : string;
  ds_native_asset_symbol : string;
  ds_control_address : string;
  ds_vault_address : string;
  ds_executor_address : string;
  ds_profit_address : string;
  ds_min_candidate_eth : string;
  ds_min_net_profit_eth : string;
  ds_min_profit_usd : string;
  ds_min_liquidity_eth : string;
  ds_executor_min_buffer_eth : string;
  ds_executor_target_buffer_eth : string;
  ds_executor_max_buffer_eth : string;
  ds_executor_balance_eth : option string;
  ds_executor_buffer_status : string;
  ds_treasury_action : string;
  ds_treasury_recommended_amount_eth : string;
  ds_treasury_status : string;
  ds_treasury_note : string;
  ds_private_relay_only : bool;
  ds_opportunity_mode : string;
  ds_scan_interval_ms : u64;
  ds_wallet_count : nat;
  ds_total_keys_read : nat;
  ds_duplicate_keys : nat;
  ds_invalid_keys : nat;
  ds_last_scan_at : option string;
  ds_last_scan_duration_ms : option Z;
  ds_sweeps_attempted : u64;
  ds_sweeps_succeeded : u64;
  ds_sweeps_failed : u64;
  ds_hot_wallets : list WalletSnapshot;
  ds_top_residual_wallets : list WalletResidualSnapshot;
  ds_rpc_endpoints : list RpcEndpointSnapshot;
  ds_recent_events : list DashboardEvent;
  ds_latency_metrics : list LatencyMetric;
  ds_latency_risk : LatencyRiskSnapshot;
  ds_opportunity_funnel : OpportunityFunnelSnapshot;
  ds_edge_telemetry : EdgeTelemetrySnapshot;
  ds_selector_scores : list SelectorPerformanceSnapshot;
  ds_selector_pool_scores : list SelectorPoolPerformanceSnapshot;
  ds_selector_replay_scores : list SelectorReplayScoreSnapshot;
  ds_scavenger_observer : ScavengerObserverReport;
  ds_reject_reasons : list RejectReasonSnapshot;
  ds_reject_breakdown : list RejectBreakdownSnapshot;
  ds_relay_rankings : list RelaySnapshot;
  ds_toxicity_profiles : list ToxicitySnapshot;
  ds_treasury_rebalance_trail : list TreasurySnapshot;
  ds_execution_outcomes : list ExecutionOutcomeSnapshot }.
#[export] Instance DashboardState_eta : RecordEta DashboardState :=
  fields Build_DashboardState
    <&> ds_runtime_mode <&> ds_market_regime <&> ds_allow_send <&> ds_runtime_paused <&> ds_network
    <&> ds_native_asset_symbol <&> ds_control_address <&> ds_vault_address <&> ds_executor_address
    <&> ds_profit_address <&> ds_min_candidate_eth <&> ds_min_net_profit_eth <&> ds_min_profit_usd
    <&> ds_min_liquidity_eth <&> ds_executor_min_buffer_eth <&> ds_executor_target_buffer_eth
    <&> ds_executor_max_buffer_eth <&> ds_executor_balance_eth <&> ds_executor_buffer_status
    <&> ds_treasury_action <&> ds_treasury_recommended_amount_eth <&> ds_treasury_status
    <&> ds_treasury_note <&> ds_private_relay_only <&> ds_opportunity_mode <&> ds_scan_interval_ms
    <&> ds_wallet_count <&> ds_total_keys_read <&> ds_duplicate_keys <&> ds_invalid_keys
    <&> ds_last_scan_at <&> ds_last_scan_duration_ms <&> ds_sweeps_attempted <&> ds_sweeps_succeeded
    <&> ds_sweeps_failed <&> ds_hot_wallets <&> ds_top_residual_wallets <&> ds_rpc_endpoints
    <&> ds_recent_events <&> ds_latency_metrics <&> ds_latency_risk <&> ds_opportunity_funnel
    <&> ds_edge_telemetry <&> ds_selector_scores <&> ds_selector_pool_scores
    <&> ds_selector_replay_scores <&> ds_scavenger_observer <&> ds_reject_reasons
    <&> ds_reject_breakdown <&> ds_relay_rankings <&> ds_toxicity_profiles
    <&> ds_treasury_rebalance_trail <&> ds_execution_outcomes.

(** ** Events *)

Definition push_event (at_ level message : string) (queue : list DashboardEvent) : list DashboardEvent :=
  take 50 ({| ev_at := at_; ev_level := level; ev_message := message |} :: queue).

(** ** The funnel *)

Definition bump (n : u64) : u64 := u64_sadd n 1.
Definition count_stage (stage : string) (funnel : OpportunityFunnelSnapshot) : OpportunityFunnelSnapshot :=
  if string_eqb stage "pending_hashes_received" then
    funnel <[ fn_pending_hashes_received ::= bump (fn_pending_hashes_received funnel) ]>
  else if string_eqb stage "tx_lookup_success" then
    funnel <[ fn_tx_lookup_success ::= bump (fn_tx_lookup_success funnel) ]>
  else if string_eqb stage "tx_lookup_miss" then
    funnel <[ fn_tx_lookup_miss ::= bump (fn_tx_lookup_miss funnel) ]>
  else if string_eqb stage "tx_lookup_throttled" then
    funnel <[ fn_tx_lookup_throttled ::= bump (fn_tx_lookup_throttled funnel) ]>
  else if string_eqb stage "decode_pass" then
    funnel <[ fn_decode_pass ::= bump (fn_decode_pass funnel) ]>
  else if string_eqb stage "decode_reject" then
    funnel <[ fn_decode_reject ::= bump (fn_decode_reject funnel) ]>
  else if string_eqb stage "partial_signal" then
    funnel <[ fn_partial_signal ::= bump (fn_partial_signal funnel) ]>
  else if string_eqb stage "block_lookup_success" then
    funnel <[ fn_block_lookup_success ::= bump (fn_block_lookup_success funnel) ]>
  else if string_eqb stage "block_lookup_fail" then
    funnel <[ fn_block_lookup_fail ::= bump (fn_block_lookup_fail funnel) ]>
  else if string_eqb stage "fast_preflight_pass" then
    funnel <[ fn_fast_preflight_pass ::= bump (fn_fast_preflight_pass funnel) ]>
  else if string_eqb stage "fast_preflight_reject" then
    funnel <[ fn_fast_preflight_reject ::= bump (fn_fast_preflight_reject funnel) ]>
  else if string_eqb stage "adaptive_preflight_pass" then
    funnel <[ fn_adaptive_preflight_pass ::= bump (fn_adaptive_preflight_pass funnel) ]>
  else if string_eqb stage "adaptive_preflight_reject" then
    funnel <[ fn_adaptive_preflight_reject ::= bump (fn_adaptive_preflight_reject funnel) ]>
  else if string_eqb stage "payload_built" then
    funnel <[ fn_payload_built ::= bump (fn_payload_built funnel) ]>
  else if string_eqb stage "shadow_payload_built" then
    funnel <[ fn_shadow_payload_built ::= bump (fn_shadow_payload_built funnel) ]>
  else if string_eqb stage "payload_reject" then
    funnel <[ fn_payload_reject ::= bump (fn_payload_reject funnel) ]>
  else if string_eqb stage "payload_to_quote_pass" then
    funnel <[ fn_payload_to_quote_pass ::= bump (fn_payload_to_quote_pass funnel) ]>
  else if string_eqb stage "payload_to_quote_reject" then
    funnel <[ fn_payload_to_quote_reject ::= bump (fn_payload_to_quote_reject funnel) ]>
  else if string_eqb stage "ev_gate_pass" then
    funnel <[ fn_ev_gate_pass ::= bump (fn_ev_gate_pass funnel) ]>
  else if string_eqb stage "ev_gate_reject" then
    funnel <[ fn_ev_gate_reject ::= bump (fn_ev_gate_reject funnel) ]>
  else if string_eqb stage "adaptive_quote_candidate" then
    funnel <[ fn_adaptive_quote_candidate ::= bump (fn_adaptive_quote_candidate funnel) ]>
  else if string_eqb stage "adaptive_quote_pass" then
    funnel <[ fn_adaptive_quote_pass ::= bump (fn_adaptive_quote_pass funnel) ]>
  else if string_eqb stage "adaptive_quote_reject" then
    funnel <[ fn_adaptive_quote_reject ::= bump (fn_adaptive_quote_reject funnel) ]>
  else if string_eqb stage "adaptive_quote_error" then
    funnel <[ fn_adaptive_quote_error ::= bump (fn_adaptive_quote_error funnel) ]>
  else if string_eqb stage "execution_ready_candidate" then
    funnel <[ fn_execution_ready_candidate ::= bump (fn_execution_ready_candidate funnel) ]>
  else if string_eqb stage "execution_ready" then
    funnel <[ fn_execution_ready ::= bump (fn_execution_ready funnel) ]>
  else if string_eqb stage "execution_ready_reject" then
    funnel <[ fn_execution_ready_reject ::= bump (fn_execution_ready_reject funnel) ]>
  else if string_eqb stage "submit_attempted" then
    funnel <[ fn_submit_attempted ::= bump (fn_submit_attempted funnel) ]>
  else if string_eqb stage "submit_succeeded" then
    funnel <[ fn_submit_succeeded ::= bump (fn_submit_succeeded funnel) ]>
  else if string_eqb stage "submit_failed" then
    funnel <[ fn_submit_failed ::= bump (fn_submit_failed funnel) ]>
  else funnel.

(** ** Reasons of rejection *)

(** [iter_mut().find(p)] and the update of what it finds. *)
Fixpoint update_first {A} (p : A -> bool) (f : A -> A) (l : list A) : option (list A) :=
  match l with
  | [] => None
  | x :: l => if p x then Some (f x :: l) else cons x <$> update_first p f l
  end.

Definition by_count_desc {A} (count : A -> Z) (left right : A) : comparison := Z.compare (count right) (count left).
Definition count_reason (stage reason : string) (reasons : list RejectReasonSnapshot) : list RejectReasonSnapshot :=
  let counted :=
    match update_first (fun entry => string_eqb (rr_stage entry) stage && string_eqb (rr_reason entry) reason)
            (fun entry => entry <[ rr_count ::= bump (rr_count entry) ]>) reasons with
    | Some updated => updated
    | None => (reasons ++ [{| rr_stage := stage; rr_reason := reason; rr_count := 1 |}])%list
    end in
  take 8 (sort_by (by_count_desc rr_count) counted).

Definition reject_breakdown_category (stage reason : string) : string :=
  let haystack := to_lower (stage +:+ " " +:+ reason) in
  let has := contains haystack in
  if has "gas_price_cap" || has "adaptive_cap" || has "gas price" || has "gas_too_high" || has "gas_limit" then
    "gas_cap"
  else if has "economic_no_positive_gross_edge" || has "no_positive" || has "no positive" || has "gross_edge"
          || has "edge_below" || has "profit_below" then "economic_no_edge"
  else if has "price_impact" || has "impact too high" || has "impact_above" then "price_impact"
  else if has "decode" || has "selector" then "decode_fail"
  else if has "adaptive" || has "quote" then "adaptive_quote"
  else if has "submit" || has "relay" || has "rpc_submit" then "submit"
  else if has "preflight" then "preflight"
  else "other".

(** Of a category: its count, its top reason and the count of that. *)
Definition Bucket : Type := u64 * string * u64.
Definition add_to_bucket (buckets : gmap string Bucket) (reason : RejectReasonSnapshot) : gmap string Bucket :=
  let category := reject_breakdown_category (rr_stage reason) (rr_reason reason) in
  let '(count, top, top_count) := default (0, "", 0) (buckets !! category) in
  let count := u64_sadd count (rr_count reason) in
  <[category := if top_count <=? rr_count reason
                then (count, rr_stage reason +:+ ":" +:+ rr_reason reason, rr_count reason)
                else (count, top, top_count)]> buckets.
Definition build_reject_breakdown `{Database} (reasons : list RejectReasonSnapshot) : list RejectBreakdownSnapshot :=
  let buckets := listing (foldl add_to_bucket ∅ reasons) in
  let total := Z.max (wrap64 (foldr Z.add 0 ((fun kv : string * Bucket => kv.2.1.1) <$> buckets))) 1 in
  let rows :=
    (fun '(category, (count, top_reason, _)) =>
       {| rb_category := category; rb_count := count;
          rb_pct := (f64_of_Z count / f64_of_Z total * 100.0)%f64; rb_top_reason := top_reason |}) <$> buckets in
  take 8 (sort_by (by_count_desc rb_count) rows).

(** ** Unsupported selectors *)

Definition strip_prefix (prefix s : string) : option string :=
  if starts_with s prefix then Some (String.substring (String.length prefix) (String.length s) s) else None.
Definition find_map {A B} (f : A -> option B) (l : list A) : option B := head (omap f l).
Definition reason_field (reason key : string) : option string :=
  value ← find_map (strip_prefix (key +:+ "=")) (split_whitespace reason);
  let value := trim_by (fun c => existsb (Ascii.eqb c) [","; ";"; ")"; "("]%char) value in
  if String.eqb value "" then None else Some value.

Definition compact_dashboard_text (value : string) (max_chars : nat) : string :=
  String.substring 0 max_chars value +:+ (if (max_chars <? String.length value)%nat then "..." else "").

Definition by_count_then_selector (left right : UnsupportedSelectorSnapshot) : comparison :=
  then_by (by_count_desc un_count) (fun l r => String.compare (un_selector l) (un_selector r)) left right.
Definition or_else {A} (a b : option A) : option A := match a with Some _ => a | None => b end.

(** The fields of an unsupported call read from its sample. *)
Definition unsupported_call (sample : EdgeSampleSnapshot) : option UnsupportedSelectorRecord :=
  if negb (string_eqb (es_status sample) "decode_reject") then None
  else
    let reason := to_lower (es_reason sample) in
    if negb (contains reason "selector_unsupported") && negb (contains reason "unsupported selector") then None
    else
      let field := reason_field (es_reason sample) in
      let hint := String.concat "," (take 6 (es_path sample)) in
      Some {| us_target := default (es_router sample) (or_else (field "target") (field "to"));
              us_selector := if String.eqb (trim (es_selector sample)) "" then "unknown" else es_selector sample;
              us_inner_selector := default "" (or_else (field "inner_selector") (field "inner"));
              us_token_hints := if String.eqb hint "" then "unknown" else hint;
              us_input_bytes := default (u64_sadd (u64_smul (es_route_complexity sample) 128) 4)
                                  (value ← field "input_bytes"; parse_u64 value);
              us_sample_tx := es_victim_tx sample;
              us_sample_calldata_prefix := default "unknown" (field "calldata_prefix");
              us_route_hint := String.concat " | " (take 4 (es_hop_profitability_rank sample)) |}.
Definition list_unsupported (sample : EdgeSampleSnapshot) (call : UnsupportedSelectorRecord)
    (l : list UnsupportedSelectorSnapshot) : list UnsupportedSelectorSnapshot :=
  let now := es_observed_at sample in
  let again existing :=
    let existing :=
      existing <[ un_count ::= bump (un_count existing) ]> <[ un_last_seen ::= now ]>
               <[ un_sample_tx ::= es_victim_tx sample ]>
               <[ un_sample_reason ::= compact_dashboard_text (es_reason sample) 180 ]> in
    let existing :=
      if string_eqb (un_monitored_token_hint existing) "unknown" && negb (string_eqb (us_token_hints call) "unknown")
      then existing <[ un_monitored_token_hint ::= us_token_hints call ]> else existing in
    if un_input_bytes existing =? 0 then existing <[ un_input_bytes ::= us_input_bytes call ]> else existing in
  let listed :=
    match update_first (fun item => string_eqb (un_selector item) (us_selector call)
                                    && string_eqb (un_target item) (us_target call)) again l with
    | Some updated => updated
    | None => (l ++ [{| un_selector := us_selector call; un_target := us_target call;
                       un_monitored_token_hint := us_token_hints call; un_input_bytes := us_input_bytes call;
                       un_count := 1; un_first_seen := now; un_last_seen := now;
                       un_sample_tx := es_victim_tx sample;
                       un_sample_reason := compact_dashboard_text (es_reason sample) 180 |}])%list
    end in
  take 20 (sort_by by_count_then_selector listed).
Definition record_unsupported_selector (telemetry : EdgeTelemetrySnapshot) (sample : EdgeSampleSnapshot) :
    EdgeTelemetrySnapshot * option UnsupportedSelectorRecord :=
  match unsupported_call sample with
  | None => (telemetry, None)
  | Some call =>
      (telemetry <[ et_unsupported_selectors ::=
                      list_unsupported sample call (et_unsupported_selectors telemetry) ]>, Some call)
  end.

(** What [record_edge_sample] does to the telemetry. *)
Definition add_sample (snapshot : EdgeSampleSnapshot) (telemetry : EdgeTelemetrySnapshot) : EdgeTelemetrySnapshot :=
  let telemetry := telemetry <[ et_sample_count ::= bump (et_sample_count telemetry) ]> in
  let telemetry :=
    if string_eqb (es_status snapshot) "payload_built" then
      telemetry <[ et_payload_ready_count ::= bump (et_payload_ready_count telemetry) ]>
    else telemetry <[ et_blocked_count ::= bump (et_blocked_count telemetry) ]> in
  telemetry <[ et_last_sample ::= Some snapshot ]>
            <[ et_samples ::= take 50 (snapshot :: et_samples telemetry) ]>.

(** ** Latencies *)

Definition wrap128 (x : Z) : Z := x mod 2 ^ 128.
Definition U128_MAX : Z := Eval cbv in 2 ^ 128 - 1.
Definition upsert_latency_metric (stage : string) (duration_ms : Z) (metrics : list LatencyMetric) :
    list LatencyMetric :=
  let update metric :=
    let n := bump (lm_samples metric) in
    metric <[ lm_samples ::= n ]>
           <[ lm_last_ms ::= Some duration_ms ]>
           <[ lm_avg_ms ::= Some match lm_avg_ms metric with
                                 | Some previous => wrap128 (wrap128 (previous * (n - 1)) + duration_ms) / n
                                 | None => duration_ms
                                 end ]>
           <[ lm_max_ms ::= Some (Z.max (default duration_ms (lm_max_ms metric)) duration_ms) ]> in
  match update_first (fun metric => string_eqb (lm_stage metric) stage) update metrics with
  | Some updated => updated
  | None => (metrics ++ [{| lm_stage := stage; lm_samples := 1; lm_last_ms := Some duration_ms;
                           lm_avg_ms := Some duration_ms; lm_max_ms := Some duration_ms |}])%list
  end.

Definition build_latency_metrics (summary : Summary) : list LatencyMetric :=
  (fun stage =>
     match summary !! stage with
     | Some (samples, last_ms, avg_ms, max_ms) =>
         {| lm_stage := stage; lm_samples := samples; lm_last_ms := Some last_ms; lm_avg_ms := Some avg_ms;
            lm_max_ms := Some max_ms |}
     | None => {| lm_stage := stage; lm_samples := 0; lm_last_ms := None; lm_avg_ms := None; lm_max_ms := None |}
     end)
  <$> ["block_fetch"; "scan_cycle"; "enqueue_latency"; "queue_wait"; "tx_prepare"; "bundle_attempt"].

Definition is_hot_path_latency_stage (stage : string) : bool :=
  one_of stage ["decode"; "fast_preflight"; "adaptive_preflight"; "payload_build"; "quote"; "fee_pending_lookup";
                "tx_prepare"; "bundle_attempt"].
Definition pressure (value budget : f64) : f64 :=
  if (value <=? 0.0)%f64 || (budget <=? 0.0)%f64 then 0.0%f64
  else (fclamp_in (value / budget - 0.5) 0.0 1.5 / 1.5)%f64.

(** The variables of the loop over the summary. *)
Record RiskSums := {
  sum_sample_count : u64;
  sum_hot_weighted : Z;
  sum_hot_samples : u64;
  sum_hot_max_ms : Z;
  sum_monitor_weighted : Z;
  sum_monitor_samples : u64;
  sum_bottleneck_stage : string;
  sum_bottleneck_ms : Z }.
#[export] Instance RiskSums_eta : RecordEta RiskSums :=
  fields Build_RiskSums <&> sum_sample_count <&> sum_hot_weighted <&> sum_hot_samples <&> sum_hot_max_ms
    <&> sum_monitor_weighted <&> sum_monitor_samples <&> sum_bottleneck_stage <&> sum_bottleneck_ms.
Definition u128_sadd := sat_add U128_MAX.
Definition u128_smul := sat_mul U128_MAX.
Definition add_stage (acc : RiskSums) (entry : string * (u64 * Z * Z * Z)) : RiskSums :=
  let '(stage, (samples, _, avg_ms, max_ms)) := entry in
  let acc := acc <[ sum_sample_count ::= u64_sadd (sum_sample_count acc) samples ]> in
  let acc := if sum_bottleneck_ms acc <? max_ms
             then acc <[ sum_bottleneck_ms ::= max_ms ]> <[ sum_bottleneck_stage ::= stage ]> else acc in
  if is_hot_path_latency_stage stage then
    acc <[ sum_hot_weighted ::= u128_sadd (sum_hot_weighted acc) (u128_smul avg_ms samples) ]>
        <[ sum_hot_samples ::= u64_sadd (sum_hot_samples acc) samples ]>
        <[ sum_hot_max_ms ::= Z.max (sum_hot_max_ms acc) max_ms ]>
  else
    acc <[ sum_monitor_weighted ::= u128_sadd (sum_monitor_weighted acc) (u128_smul avg_ms samples) ]>
        <[ sum_monitor_samples ::= u64_sadd (sum_monitor_samples acc) samples ]>.
Definition average_of (weighted samples : Z) : Z := if samples =? 0 then 0 else weighted / samples.
Definition build_latency_risk `{Database} (at_ : string) (summary : Summary)
    (rpc_endpoints : list RpcEndpointSnapshot) : LatencyRiskSnapshot :=
  let sums := foldl add_stage (Build_RiskSums 0 0 0 0 0 0 "none" 0) (listing summary) in
  let rpc_latencies := omap s_avg_latency_ms (filter (fun endpoint => s_disabled endpoint = false) rpc_endpoints) in
  let rpc_avg_ms :=
    match rpc_latencies with
    | [] => 0
    | _ => wrap128 (foldr Z.add 0 rpc_latencies) / Z.of_nat (length rpc_latencies)
    end in
  let hot_path_avg_ms := average_of (sum_hot_weighted sums) (sum_hot_samples sums) in
  let monitor_avg_ms := average_of (sum_monitor_weighted sums) (sum_monitor_samples sums) in
  let hot_pressure := pressure (f64_of_Z hot_path_avg_ms) 250.0 in
  let tail_pressure := pressure (f64_of_Z (sum_hot_max_ms sums)) 750.0 in
  let rpc_pressure := pressure (f64_of_Z rpc_avg_ms) 350.0 in
  let monitor_pressure := (pressure (f64_of_Z monitor_avg_ms) 700.0 * 0.5)%f64 in
  let score := fclamp01 (hot_pressure * 0.40 + tail_pressure * 0.25 + rpc_pressure * 0.25
                         + monitor_pressure * 0.10)%f64 in
  let level := if (score >=? 0.75)%f64 then "BREACH" else if (score >=? 0.45)%f64 then "WARN" else "OK" in
  {| lk_updated_at := at_; lk_window_secs := 300; lk_sample_count := sum_sample_count sums;
     lk_hot_path_avg_ms := hot_path_avg_ms; lk_hot_path_max_ms := sum_hot_max_ms sums;
     lk_monitor_avg_ms := monitor_avg_ms; lk_rpc_avg_ms := rpc_avg_ms; lk_score := score; lk_level := level;
     lk_bottleneck_stage := sum_bottleneck_stage sums |}.

(** ** Relays *)

Record RelaySnapshotUpdate := {
  ru_relay : string;
  ru_accepted : bool;
  ru_submit_failed : bool;
  ru_included_success : bool;
  ru_included_revert : bool;
  ru_not_included_timeout : bool;
  ru_submit_latency_ms : option f64;
  ru_finalization_latency_ms : option f64;
  ru_score : option f64;
  ru_pressure : option f64;
  ru_accept_rate : option f64;
  ru_inclusion_rate : option f64 }.
Definition u64_of_bool (b : bool) : u64 := if b then 1 else 0.
Definition upsert_relay_snapshot (update : RelaySnapshotUpdate) (relays : list RelaySnapshot) : list RelaySnapshot :=
  let smooth old new :=
    match new with
    | Some value => if (old <=? 0.0)%f64 then value else (old * 0.8 + value * 0.2)%f64
    | None => old
    end in
  let change entry :=
    {| rl_relay := rl_relay entry; rl_score := default (rl_score entry) (ru_score update);
       rl_pressure := default (rl_pressure entry) (ru_pressure update);
       rl_accept_rate := default (rl_accept_rate entry) (ru_accept_rate update);
       rl_inclusion_rate := default (rl_inclusion_rate entry) (ru_inclusion_rate update);
       rl_accepted := u64_sadd (rl_accepted entry) (u64_of_bool (ru_accepted update));
       rl_submit_failed := u64_sadd (rl_submit_failed entry) (u64_of_bool (ru_submit_failed update));
       rl_included_success := u64_sadd (rl_included_success entry) (u64_of_bool (ru_included_success update));
       rl_included_revert := u64_sadd (rl_included_revert entry) (u64_of_bool (ru_included_revert update));
       rl_not_included_timeout :=
         u64_sadd (rl_not_included_timeout entry) (u64_of_bool (ru_not_included_timeout update));
       rl_submit_latency_ms := smooth (rl_submit_latency_ms entry) (ru_submit_latency_ms update);
       rl_finalization_latency_ms := smooth (rl_finalization_latency_ms entry) (ru_finalization_latency_ms update) |} in
  let or_0 := default (0.0)%f64 in
  let upserted :=
    match update_first (fun entry => string_eqb (rl_relay entry) (ru_relay update)) change relays with
    | Some updated => updated
    | None =>
        (relays ++ [{| rl_relay := ru_relay update; rl_score := or_0 (ru_score update);
                      rl_pressure := or_0 (ru_pressure update); rl_accept_rate := or_0 (ru_accept_rate update);
                      rl_inclusion_rate := or_0 (ru_inclusion_rate update);
                      rl_accepted := u64_of_bool (ru_accepted update);
                      rl_submit_failed := u64_of_bool (ru_submit_failed update);
                      rl_included_success := u64_of_bool (ru_included_success update);
                      rl_included_revert := u64_of_bool (ru_included_revert update);
                      rl_not_included_timeout := u64_of_bool (ru_not_included_timeout update);
                      rl_submit_latency_ms := or_0 (ru_submit_latency_ms update);
                      rl_finalization_latency_ms := or_0 (ru_finalization_latency_ms update) |}])%list
    end in
  take 12 (sort_by (fun left right => total_cmp (rl_score left) (rl_score right)) upserted).

(** ** The observer's window *)

Definition delta (current previous : u64) : u64 := sat_sub current previous.
Definition pct (part total : u64) : f64 :=
  if total =? 0 then 0.0%f64 else (f64_of_Z part / f64_of_Z total * 100.0)%f64.
Definition wei_str_to_eth (value : string) : f64 := (default 0.0 (parse_f64 value) / 1e18)%f64.

(** The phases of the report and its notes, from the figures of the window. *)
Definition scavenger_status (observed_secs : u64) (last_healthy : u64) (avg_healthy_rpc block_fail_rate_pct
    lookup_hit_rate_pct : f64) (edge_samples_delta decode_pass_delta : u64) : string :=
  if (15 * 60 <=? observed_secs) && (1 <=? last_healthy) && (avg_healthy_rpc >=? 1.0)%f64
     && (block_fail_rate_pct <=? 5.0)%f64 && (lookup_hit_rate_pct >=? 15.0)%f64 && (0 <? edge_samples_delta)
  then "READY"
  else if observed_secs <? 15 * 60 then "WARMING"
  else if (1 <=? last_healthy) && (block_fail_rate_pct <=? 10.0)%f64 && (lookup_hit_rate_pct >=? 10.0)%f64
          && (0 <? decode_pass_delta) then "WATCH"
  else "NOT_READY".
Definition scavenger_recommendation (status : string) : string :=
  if string_eqb status "READY" then
    "current cycle stable for contract deploy test; keep low capital and fanout=1"
  else if string_eqb status "WATCH" then
    "current cycle improved; continue one more clean 15m cycle before live execution"
  else if string_eqb status "WARMING" then "new clean 15m cycle running; wait for this cycle to close"
  else "do not deploy live execution yet; reduce lookup budget or disable degraded rpc".
Definition note_if (b : bool) (note : string) : list string := if b then [note] else [].
Definition scavenger_notes (observed_secs last_healthy : u64) (avg_healthy_rpc : f64) (last_penalized : u64)
    (block_fail_rate_pct shed_rate_pct : f64) (pending_delta : u64) (rpc_capacity_limited : bool)
    (decode_pass_delta lookup_ok_delta edge_samples_delta : u64) : list string :=
  (note_if (observed_secs <? 15 * 60)
     ("warming up current cycle: " +:+ show_Z observed_secs +:+ "s observed, target 900s")
   ++ note_if (last_healthy =? 0) "no healthy rpc at last sample"
   ++ note_if (avg_healthy_rpc <? 1.0)%f64 "average healthy rpc below 1.0"
   ++ note_if (0 <? last_penalized) (show_Z last_penalized +:+ " rpc in cooldown/rate-limit")
   ++ note_if (block_fail_rate_pct >? 5.0)%f64
        ("block lookup fail rate high: " +:+ fmt_fixed 1 block_fail_rate_pct +:+ "%")
   ++ note_if ((shed_rate_pct <? 25.0)%f64 && (1000 <? pending_delta))
        "shed rate low for high pending flow; rpc may be over-reading"
   ++ note_if rpc_capacity_limited
        "rpc_capacity_limited=true: pending shed is budget admission, not an RPC failure"
   ++ note_if ((decode_pass_delta =? 0) && (200 <? lookup_ok_delta))
        "lookup ok but decode pass zero; parser/scope may be too narrow"
   ++ note_if ((edge_samples_delta =? 0) && (0 <? decode_pass_delta))
        "decode passes without edge samples; payload instrumentation gap")%list.

(** [samples] is not empty: [first] and [last] are its ends. *)
Definition scavenger_report_of (first last : ScavengerObserverSample) (samples : list ScavengerObserverSample)
    (phase : string) (last_completed : option ScavengerObserverReport) : ScavengerObserverReport :=
  let observed_secs := elapsed_secs (sm_observed_at last) (sm_observed_at first) in
  let sample_count := Z.of_nat (length samples) in
  let avg_healthy_rpc :=
    (fsum ((fun sample => f64_of_Z (sm_healthy_rpc sample)) <$> samples) / f64_of_Z sample_count)%f64 in
  let max_block_age_secs := foldr Z.max 0 (sm_max_block_age_secs <$> samples) in
  let since (f : OpportunityFunnelSnapshot -> u64) := delta (f (sm_funnel last)) (f (sm_funnel first)) in
  let pending_delta := since fn_pending_hashes_received in
  let lookup_ok_delta := since fn_tx_lookup_success in
  let lookup_miss_delta := since fn_tx_lookup_miss in
  let lookup_shed_delta := since fn_tx_lookup_throttled in
  let decode_pass_delta := since fn_decode_pass in
  let block_fail_delta := since fn_block_lookup_fail in
  let payload_reject_delta := since fn_payload_reject in
  let edge_samples_delta := delta (sm_edge_sample_count last) (sm_edge_sample_count first) in
  let lookup_attempts := u64_sadd lookup_ok_delta lookup_miss_delta in
  let lookup_hit_rate_pct := pct lookup_ok_delta lookup_attempts in
  let shed_rate_pct := pct lookup_shed_delta pending_delta in
  let decode_pass_rate_pct := pct decode_pass_delta lookup_ok_delta in
  let block_total := u64_sadd (since fn_block_lookup_success) block_fail_delta in
  let block_fail_rate_pct := pct block_fail_delta block_total in
  let rpc_capacity_limited :=
    (0 <? lookup_shed_delta) && (0 <? pending_delta) && (1 <=? sm_healthy_rpc last)
    && (sm_penalized_rpc last =? 0) && (max_block_age_secs <=? 15) && (block_fail_rate_pct <=? 5.0)%f64 in
  let status := scavenger_status observed_secs (sm_healthy_rpc last) avg_healthy_rpc block_fail_rate_pct
                  lookup_hit_rate_pct edge_samples_delta decode_pass_delta in
  {| so_status := status; so_phase := phase; so_rpc_capacity_limited := rpc_capacity_limited;
     so_observed_secs := observed_secs; so_sample_count := sample_count;
     so_healthy_rpc_now := sm_healthy_rpc last; so_active_rpc_now := sm_active_rpc last;
     so_disabled_rpc_now := sm_disabled_rpc last; so_penalized_rpc_now := sm_penalized_rpc last;
     so_avg_healthy_rpc := avg_healthy_rpc; so_max_block_age_secs := max_block_age_secs;
     so_pending_delta := pending_delta; so_lookup_ok_delta := lookup_ok_delta;
     so_lookup_miss_delta := lookup_miss_delta; so_lookup_shed_delta := lookup_shed_delta;
     so_decode_pass_delta := decode_pass_delta; so_block_fail_delta := block_fail_delta;
     so_payload_reject_delta := payload_reject_delta; so_edge_samples_delta := edge_samples_delta;
     so_lookup_hit_rate_pct := lookup_hit_rate_pct; so_shed_rate_pct := shed_rate_pct;
     so_decode_pass_rate_pct := decode_pass_rate_pct; so_block_fail_rate_pct := block_fail_rate_pct;
     so_recommendation := scavenger_recommendation status;
     so_notes := scavenger_notes observed_secs (sm_healthy_rpc last) avg_healthy_rpc (sm_penalized_rpc last)
                   block_fail_rate_pct shed_rate_pct pending_delta rpc_capacity_limited decode_pass_delta
                   lookup_ok_delta edge_samples_delta;
     so_last_completed := last_completed |}.
Definition build_scavenger_report (samples : list ScavengerObserverSample) (phase : string)
    (last_completed : option ScavengerObserverReport) : ScavengerObserverReport :=
  match head samples, last samples with
  | Some first, Some latest => scavenger_report_of first latest samples phase last_completed
  | _, _ => Build_ScavengerObserverReport "" phase false 0 0 0 0 0 0 0.0 0 0 0 0 0 0 0 0 0 0.0 0.0 0.0 0.0 "" []
              last_completed
  end.

(** What the observer takes from the state at [now]. *)
Definition count_endpoints (p : RpcEndpointSnapshot -> bool) (endpoints : list RpcEndpointSnapshot) : u64 :=
  Z.of_nat (length (filter (fun endpoint => p endpoint = true) endpoints)).
Definition observe (now : Instant) (state : DashboardState) : ScavengerObserverSample :=
  let endpoints := ds_rpc_endpoints state in
  {| sm_observed_at := now; sm_funnel := ds_opportunity_funnel state;
     sm_edge_sample_count := et_sample_count (ds_edge_telemetry state);
     sm_healthy_rpc :=
       count_endpoints (fun e => negb (s_disabled e) && (s_cooldown_remaining_secs e =? 0)
                                 && (s_rate_limit_failures e =? 0) && (s_failures e =? 0)) endpoints;
     sm_active_rpc := count_endpoints (fun e => negb (s_disabled e)) endpoints;
     sm_disabled_rpc := count_endpoints s_disabled endpoints;
     sm_penalized_rpc :=
       count_endpoints (fun e => negb (s_disabled e) && ((0 <? s_cooldown_remaining_secs e)
                                                         || (0 <? s_rate_limit_failures e))) endpoints;
     sm_max_block_age_secs :=
       foldr Z.max 0 (omap s_block_age_secs (filter (fun e => s_disabled e = false) endpoints)) |}.

Definition WINDOW : Z := Eval cbv in 15 * 60 * secs.
Definition push (now : Instant) (state : DashboardState) (self : ScavengerObserver) : ScavengerObserver :=
  let started := default now (ob_current_started_at self) in
  let sample := observe now state in
  let samples := (ob_samples self ++ [sample])%list in
  if (WINDOW <=? elapsed now started) && (2 <=? length samples)%nat then
    {| ob_samples := [sample]; ob_current_started_at := Some now;
       ob_last_completed := Some (build_scavenger_report samples "completed" None) |}
  else {| ob_samples := samples; ob_current_started_at := Some started; ob_last_completed := ob_last_completed self |}.
Definition report (self : ScavengerObserver) : ScavengerObserverReport :=
  build_scavenger_report (ob_samples self) "current" (ob_last_completed self).
