(* ===== verification/DashboardHandle.v ===== *)
(** * The dashboard's handle ([dashboard.rs])

    The handle every part of the runtime reports to: the state it shows, the
    storage, the endpoints, the mode and the thresholds it shares with the
    configuration, the writes it has gathered since the last flush, the observer
    and the telemetry file; the operations of the runtime on it, the flush, the
    snapshot, and the requests of the server. The maps of gathered writes have
    the source's textual keys. The locks of the state and of the gathered writes
    are never poisoned, since nothing panics while it holds one. Database
    downloads and the static pages are left out. *)
From S2P Require Import Prelude F64 Text Ethers Config ConfigEnv Rpc Payload Storage Telemetry Dashboard.
#[local] Open Scope string_scope.
#[local] Open Scope Z_scope.

(** ** Gathered writes *)

Record PendingLatency := {
  pl_stage : string;
  pl_duration_ms : Z;
  pl_wallet : option string;
  pl_note : option string }.

Record PendingLatencyRollup := {
  lt_bucket : string;
  lt_stage : string;
  lt_samples : u64;
  lt_total_ms : Z;
  lt_max_ms : Z;
  lt_last_ms : Z }.
#[export] Instance PendingLatencyRollup_eta : RecordEta PendingLatencyRollup :=
  fields Build_PendingLatencyRollup <&> lt_bucket <&> lt_stage <&> lt_samples <&> lt_total_ms <&> lt_max_ms <&> lt_last_ms.

Record PendingCounterRollup := {
  ct_bucket : string;
  ct_stage : string;
  ct_count : u64 }.
#[export] Instance PendingCounterRollup_eta : RecordEta PendingCounterRollup :=
  fields Build_PendingCounterRollup <&> ct_bucket <&> ct_stage <&> ct_count.

Record PendingRejectReasonRollup := {
  rj_bucket : string;
  rj_stage : string;
  rj_reason : string;
  rj_count : u64 }.
#[export] Instance PendingRejectReasonRollup_eta : RecordEta PendingRejectReasonRollup :=
  fields Build_PendingRejectReasonRollup <&> rj_bucket <&> rj_stage <&> rj_reason <&> rj_count.

Record PendingSelectorPerformanceRollup := {
  sl_bucket : string;
  sl_selector : string;
  sl_target : string;
  sl_decode_source : string;
  sl_stage : string;
  sl_count : u64;
  sl_confidence_sum : f64;
  sl_gas_gwei_sum : f64 }.
#[export] Instance PendingSelectorPerformanceRollup_eta : RecordEta PendingSelectorPerformanceRollup :=
  fields Build_PendingSelectorPerformanceRollup
    <&> sl_bucket <&> sl_selector <&> sl_target <&> sl_decode_source <&> sl_stage <&> sl_count
    <&> sl_confidence_sum <&> sl_gas_gwei_sum.

Record PendingRelayUpdate := {
  pu_name : string;
  pu_n_accepted : u64;
  pu_n_submit_failed : u64;
  pu_n_included_success : u64;
  pu_n_included_revert : u64;
  pu_n_not_included_timeout : u64;
  pu_latency_submit : option f64;
  pu_latency_finalization : option f64;
  pu_n_score : option f64;
  pu_n_pressure : option f64;
  pu_n_accept_rate : option f64;
  pu_n_inclusion_rate : option f64 }.

(** The same fields wait to be written. *)
Record TreasuryRecommendationUpdate := {
  tu_executor_address : string;
  tu_vault_address : string;
  tu_profit_address : string;
  tu_balance_eth : f64;
  tu_min_buffer_eth : f64;
  tu_target_buffer_eth : f64;
  tu_max_buffer_eth : f64;
  tu_action : string;
  tu_recommended_amount_eth : f64;
  tu_status : string;
  tu_note : string }.

Definition PendingTreasuryUpdate : Type := TreasuryRecommendationUpdate.

Record ExecutionOutcomeUpdate := {
  ou_relay : string;
  ou_target_block : u64;
  ou_pair : string;
  ou_router : string;
  ou_token_in : string;
  ou_token_out : string;
  ou_victim_tx : string;
  ou_outcome : string;
  ou_expected_profit_eth : f64;
  ou_realized_profit_eth : f64;
  ou_gas_used : u64;
  ou_submit_latency_ms : f64;
  ou_finalization_latency_ms : f64 }.

Definition PendingExecutionOutcome : Type := ExecutionOutcomeUpdate.

Record PendingStorageWrites := {
  pw_events : list (string * string);
  pw_latencies : list PendingLatency;
  pw_latency_rollups : gmap string PendingLatencyRollup;
  pw_funnel_rollups : gmap string PendingCounterRollup;
  pw_reject_reason_rollups : gmap string PendingRejectReasonRollup;
  pw_selector_performance_rollups : gmap string PendingSelectorPerformanceRollup;
  pw_selector_pool_performance_rollups : gmap string PendingSelectorPoolPerformanceRollup;
  pw_relay_updates : list PendingRelayUpdate;
  pw_treasury_updates : list PendingTreasuryUpdate;
  pw_execution_outcomes : list PendingExecutionOutcome;
  pw_unsupported_selectors : list UnsupportedSelectorRecord }.
#[export] Instance PendingStorageWrites_eta : RecordEta PendingStorageWrites :=
  fields Build_PendingStorageWrites
    <&> pw_events <&> pw_latencies <&> pw_latency_rollups <&> pw_funnel_rollups
    <&> pw_reject_reason_rollups <&> pw_selector_performance_rollups
    <&> pw_selector_pool_performance_rollups <&> pw_relay_updates <&> pw_treasury_updates
    <&> pw_execution_outcomes <&> pw_unsupported_selectors.

Definition PendingStorageWrites_default : PendingStorageWrites :=
  Build_PendingStorageWrites [] [] ∅ ∅ ∅ ∅ ∅ [] [] [] [].

Record DashboardHandle := {
  dh_inner : DashboardState;
  dh_storage : Storage;
  dh_rpc : World;
  dh_opportunity_mode : option OpportunityMode;
  dh_runtime_thresholds : option OpportunityThresholds;
  dh_runtime_paused : bool;
  dh_pending : PendingStorageWrites;
  dh_observer : ScavengerObserver;
  dh_last_storage_prune : Instant;
  dh_file_telemetry : FileTelemetry;
  dh_readings : nat }.
#[export] Instance DashboardHandle_eta : RecordEta DashboardHandle :=
  fields Build_DashboardHandle
    <&> dh_inner <&> dh_storage <&> dh_rpc <&> dh_opportunity_mode <&> dh_runtime_thresholds
    <&> dh_runtime_paused <&> dh_pending <&> dh_observer <&> dh_last_storage_prune
    <&> dh_file_telemetry <&> dh_readings.

(** What the rest of the program reads of its configuration. *)
Definition shared_config (self : DashboardHandle) (config : Config) : Config :=
  config <[ mev ::= (mev config) <[ opportunity_mode_lock ::= dh_opportunity_mode self ]>
                                 <[ runtime_thresholds_lock ::= dh_runtime_thresholds self ]> ]>.

(** ** Computations *)

(** The readings of both clocks, in their order; the renderings. *)
Class Panel := {
  utc_clock : nat -> Z;
  instant_clock : nat -> Instant;
  rpc_clock : nat -> Instant;
  variables : string -> option string;
  display_f64 : f64 -> string;
  debug_address : Address -> string;
  json_text : Z -> TelemetryLine -> string }.

Definition DashM (A : Type) : Type := DashboardHandle -> outcome (DashboardHandle * A).
#[export] Instance DashM_ret : MRet DashM := fun A a h => Done (h, a).
#[export] Instance DashM_bind : MBind DashM := fun A B f m h =>
  match m h with Done (h, a) => f a h | Panicked => Panicked end.
Definition skip : DashM unit := mret tt.
Definition get {A} (f : DashboardHandle -> A) : DashM A := fun h => Done (h, f h).
Definition on_inner (f : DashboardState -> DashboardState) : DashM unit := fun h =>
  Done (h <[ dh_inner ::= f (dh_inner h) ]>, tt).
Definition on_pending (f : PendingStorageWrites -> PendingStorageWrites) : DashM unit := fun h =>
  Done (h <[ dh_pending ::= f (dh_pending h) ]>, tt).
Definition on_file (f : FileTelemetry -> FileTelemetry) : DashM unit := fun h =>
  Done (h <[ dh_file_telemetry ::= f (dh_file_telemetry h) ]>, tt).
Definition on_observer (f : ScavengerObserver -> ScavengerObserver) : DashM unit := fun h =>
  Done (h <[ dh_observer ::= f (dh_observer h) ]>, tt).
Definition on_prune (now : Instant) : DashM unit := fun h => Done (h <[ dh_last_storage_prune ::= now ]>, tt).
Definition in_storage {A} (m : StorageM A) : DashM A := fun h =>
  let '(s, a) := m (dh_storage h) in Done (h <[ dh_storage ::= s ]>, a).
Definition in_fleet {A} (m : RpcM A) : DashM A := fun h =>
  match m (dh_rpc h) with
  | Done (w, a) => Done (h <[ dh_rpc ::= w ]>, a)
  | Panicked => Panicked
  end.
Fixpoint for_each {A} (f : A -> DashM unit) (l : list A) : DashM unit :=
  match l with [] => skip | x :: l => f x;; for_each f l end.

Section Handle.
Context `{Database, Chrono, Files, Panel}.

Definition reading {A} (clock : nat -> A) : DashM A := fun h =>
  Done (h <[ dh_readings ::= S (dh_readings h) ]>, clock (dh_readings h)).
Definition utc_now : DashM Z := reading utc_clock.
Definition instant_now : DashM Instant := reading instant_clock.
Definition telemetry_bucket_minute : DashM string := now ← utc_now; mret (bucket_minute now).

(** ** What the runtime reports *)

Definition runtime_paused : DashM bool := get dh_runtime_paused.
Definition set_runtime_paused (paused : bool) : DashM unit := fun h =>
  (on_inner (fun state => state <[ ds_runtime_paused ::= paused ]>)) (h <[ dh_runtime_paused ::= paused ]>).

Definition event (level message : string) : DashM unit :=
  on_pending (fun p => p <[ pw_events ::= (pw_events p ++ [(level, message)])%list ]>);;
  now ← utc_now;
  on_file (record_event json_text now level message);;
  at_ ← utc_now;
  on_inner (fun state => state <[ ds_recent_events ::=
                                    push_event (rfc3339 at_) level message (ds_recent_events state) ]>).

Definition clear_events : DashM (string + unit) :=
  on_pending (fun p => p <[ pw_events ::= [] ]>);;
  r ← in_storage Storage.clear_events;
  match r with
  | inl e => mret (inl e)
  | inr _ => on_inner (fun state => state <[ ds_recent_events ::= [] ]>);; mret (inr tt)
  end.

(** [pending.rollups.entry(key).or_insert_with(new)] and the update of the entry. *)
Definition gather {V} (key : string) (new : V) (update : V -> V) (m : gmap string V) : gmap string V :=
  <[key := update (default new (m !! key))]> m.

Definition gather_latency (bucket stage : string) (duration_ms : Z) (p : PendingStorageWrites) : PendingStorageWrites :=
  p <[ pw_latency_rollups ::=
         gather (bucket +:+ "|" +:+ stage)
           {| lt_bucket := bucket; lt_stage := stage; lt_samples := 0; lt_total_ms := 0; lt_max_ms := 0;
              lt_last_ms := 0 |}
           (fun entry => entry <[ lt_samples ::= bump (lt_samples entry) ]>
                               <[ lt_total_ms ::= u128_sadd (lt_total_ms entry) duration_ms ]>
                               <[ lt_max_ms ::= Z.max (lt_max_ms entry) duration_ms ]>
                               <[ lt_last_ms ::= duration_ms ]>)
           (pw_latency_rollups p) ]>.
Definition record_latency (stage : string) (duration_ms : Z) (wallet note : option string) : DashM unit :=
  (if storage_telemetry_enabled variables then
     on_pending (fun p => p <[ pw_latencies ::=
                                 (pw_latencies p ++ [{| pl_stage := stage; pl_duration_ms := duration_ms;
                                                        pl_wallet := wallet; pl_note := note |}])%list ]>)
   else skip);;
  (if storage_rollups_enabled variables then
     bucket ← telemetry_bucket_minute; on_pending (gather_latency bucket stage duration_ms)
   else skip);;
  now ← utc_now;
  on_file (Telemetry.record_latency json_text variables now stage duration_ms wallet note);;
  on_inner (fun state => state <[ ds_latency_metrics ::=
                                    upsert_latency_metric stage duration_ms (ds_latency_metrics state) ]>).

Definition set_market_regime (regime : string) : DashM unit :=
  on_inner (fun state => state <[ ds_market_regime ::= regime ]>).

Definition gather_reason (bucket stage reason : string) (p : PendingStorageWrites) : PendingStorageWrites :=
  p <[ pw_reject_reason_rollups ::=
         gather (bucket +:+ "|" +:+ stage +:+ "|" +:+ reason)
           {| rj_bucket := bucket; rj_stage := stage; rj_reason := reason; rj_count := 0 |}
           (fun entry => entry <[ rj_count ::= bump (rj_count entry) ]>) (pw_reject_reason_rollups p) ]>.
Definition record_reject_reason (stage reason : string) : DashM unit :=
  (if storage_rollups_enabled variables then
     bucket ← telemetry_bucket_minute; on_pending (gather_reason bucket stage reason)
   else skip);;
  on_inner (fun state => state <[ ds_reject_reasons ::= count_reason stage reason (ds_reject_reasons state) ]>).

Definition gather_selector (bucket selector target decode_source stage : string) (confidence gas_gwei : f64)
    (p : PendingStorageWrites) : PendingStorageWrites :=
  p <[ pw_selector_performance_rollups ::=
         gather (bucket +:+ "|" +:+ selector +:+ "|" +:+ target +:+ "|" +:+ decode_source +:+ "|" +:+ stage)
           {| sl_bucket := bucket; sl_selector := selector; sl_target := target; sl_decode_source := decode_source;
              sl_stage := stage; sl_count := 0; sl_confidence_sum := 0.0; sl_gas_gwei_sum := 0.0 |}
           (fun entry => entry <[ sl_count ::= bump (sl_count entry) ]>
                               <[ sl_confidence_sum ::= (sl_confidence_sum entry + fclamp01 confidence)%f64 ]>
                               <[ sl_gas_gwei_sum ::= (sl_gas_gwei_sum entry + fmax gas_gwei 0.0)%f64 ]>)
           (pw_selector_performance_rollups p) ]>.
Definition record_selector_performance (selector target decode_source stage : string) (confidence gas_gwei : f64) :
    DashM unit :=
  if storage_rollups_enabled variables then
    bucket ← telemetry_bucket_minute;
    on_pending (gather_selector bucket selector target decode_source stage confidence gas_gwei)
  else skip.

Definition count_pool_stage (stage : string) (entry : PendingSelectorPoolPerformanceRollup) :
    PendingSelectorPoolPerformanceRollup :=
  if string_eqb stage "pool_found" then entry <[ bp_pool_found_count ::= bump (bp_pool_found_count entry) ]>
  else if string_eqb stage "pool_missing" then
    entry <[ bp_pool_missing_count ::= bump (bp_pool_missing_count entry) ]>
  else if one_of stage ["payload_built"; "shadow_payload_built"] then
    entry <[ bp_payload_built_count ::= bump (bp_payload_built_count entry) ]>
  else if string_eqb stage "shadow_ev_positive" then
    entry <[ bp_shadow_ev_positive_count ::= bump (bp_shadow_ev_positive_count entry) ]>
  else if string_eqb stage "shadow_ev_negative" then
    entry <[ bp_shadow_ev_negative_count ::= bump (bp_shadow_ev_negative_count entry) ]>
  else if string_eqb stage "partial_entered_payload_builder" then
    entry <[ bp_partial_entered_payload_builder_count ::= bump (bp_partial_entered_payload_builder_count entry) ]>
  else if string_eqb stage "partial_pool_discovery_attempted" then
    entry <[ bp_partial_pool_discovery_attempted_count ::= bump (bp_partial_pool_discovery_attempted_count entry) ]>
  else if string_eqb stage "partial_pool_found" then
    entry <[ bp_partial_pool_found_count ::= bump (bp_partial_pool_found_count entry) ]>
          <[ bp_pool_found_count ::= bump (bp_pool_found_count entry) ]>
  else if string_eqb stage "partial_pool_missing" then
    entry <[ bp_partial_pool_missing_count ::= bump (bp_partial_pool_missing_count entry) ]>
          <[ bp_pool_missing_count ::= bump (bp_pool_missing_count entry) ]>
  else if string_eqb stage "partial_shadow_ev_positive" then
    entry <[ bp_partial_shadow_ev_positive_count ::= bump (bp_partial_shadow_ev_positive_count entry) ]>
          <[ bp_shadow_ev_positive_count ::= bump (bp_shadow_ev_positive_count entry) ]>
  else if string_eqb stage "partial_shadow_ev_negative" then
    entry <[ bp_partial_shadow_ev_negative_count ::= bump (bp_partial_shadow_ev_negative_count entry) ]>
          <[ bp_shadow_ev_negative_count ::= bump (bp_shadow_ev_negative_count entry) ]>
  else if string_eqb stage "partial_replay_candidate_created" then
    entry <[ bp_partial_replay_candidate_created_count ::= bump (bp_partial_replay_candidate_created_count entry) ]>
  else if string_eqb stage "partial_replay_candidate_rejected" then
    entry <[ bp_partial_replay_candidate_rejected_count ::= bump (bp_partial_replay_candidate_rejected_count entry) ]>
  else entry.
Definition gather_pool (bucket selector target token_pair pool dex_kind : string) (fee_tier : u32) (stage : string)
    (expected_profit liquidity gas_gwei : f64) (p : PendingStorageWrites) : PendingStorageWrites :=
  p <[ pw_selector_pool_performance_rollups ::=
         gather (String.concat "|" [bucket; selector; target; token_pair; pool; dex_kind; show_Z fee_tier])
           (Build_PendingSelectorPoolPerformanceRollup bucket selector target token_pair pool dex_kind fee_tier
              0 0 0 0 0 0 0 0 0 0 0 0 0 0.0 0.0 0.0 0)
           (fun entry =>
              let entry := count_pool_stage stage entry in
              let entry :=
                if one_of stage ["shadow_ev_positive"; "partial_shadow_ev_positive"] then
                  entry <[ bp_expected_profit_sum ::= (bp_expected_profit_sum entry + fmax expected_profit 0.0)%f64 ]>
                else entry in
              entry <[ bp_liquidity_sum ::= (bp_liquidity_sum entry + fmax liquidity 0.0)%f64 ]>
                    <[ bp_gas_gwei_sum ::= (bp_gas_gwei_sum entry + fmax gas_gwei 0.0)%f64 ]>
                    <[ bp_samples ::= bump (bp_samples entry) ]>)
           (pw_selector_pool_performance_rollups p) ]>.
Definition record_selector_pool_performance (selector target token_pair pool dex_kind : string) (fee_tier : u32)
    (stage : string) (expected_profit liquidity gas_gwei : f64) : DashM unit :=
  if storage_rollups_enabled variables then
    bucket ← telemetry_bucket_minute;
    on_pending (gather_pool bucket selector target token_pair pool dex_kind fee_tier stage expected_profit liquidity
                  gas_gwei)
  else skip.

Definition gather_funnel (bucket stage : string) (p : PendingStorageWrites) : PendingStorageWrites :=
  p <[ pw_funnel_rollups ::=
         gather (bucket +:+ "|" +:+ stage) {| ct_bucket := bucket; ct_stage := stage; ct_count := 0 |}
           (fun entry => entry <[ ct_count ::= bump (ct_count entry) ]>) (pw_funnel_rollups p) ]>.
Definition record_opportunity_funnel (stage : string) : DashM unit :=
  (if storage_rollups_enabled variables then
     bucket ← telemetry_bucket_minute; on_pending (gather_funnel bucket stage)
   else skip);;
  on_inner (fun state => state <[ ds_opportunity_funnel ::= count_stage stage (ds_opportunity_funnel state) ]>).

Definition edge_snapshot (observed_at : string) (sample : EdgeMetadata) : EdgeSampleSnapshot :=
  {| es_observed_at := observed_at;
     es_victim_tx := em_victim_tx sample; es_selector := em_selector sample; es_status := em_status sample;
     es_reason := em_reason sample; es_route_kind := em_route_kind sample; es_path := em_path sample;
     es_hops := em_hops sample; es_impacted_pools := em_impacted_pools sample;
     es_slippage_window_score := em_slippage_window_score sample;
     es_pool_imbalance_score := em_pool_imbalance_score sample;
     es_cross_dex_deviation_bps := em_cross_dex_deviation_bps sample;
     es_gas_estimate := em_gas_estimate sample;
     es_simulated_extraction_native := em_simulated_extraction_native sample;
     es_aggregator_type := em_aggregator_type sample; es_route_complexity := em_route_complexity sample;
     es_split_ratio_bps := em_split_ratio_bps sample; es_dex_sequence := em_dex_sequence sample;
     es_route_inefficiency_score := em_route_inefficiency_score sample;
     es_liquidity_distortion_score := em_liquidity_distortion_score sample;
     es_hop_profitability_rank := em_hop_profitability_rank sample;
     es_best_size_bps := em_best_size_bps sample; es_amount_in_wei := em_amount_in_wei sample;
     es_amount_out_wei := em_amount_out_wei sample; es_gross_edge_wei := em_gross_edge_wei sample;
     es_gross_edge_native := em_gross_edge_native sample; es_repayment_wei := em_repayment_wei sample;
     es_repayment_native := em_repayment_native sample; es_price_impact_bps := em_price_impact_bps sample;
     es_self_slippage_bps := em_self_slippage_bps sample; es_pool := em_pool sample;
     es_factory := em_factory sample; es_router := em_router sample; es_token_in := em_token_in sample;
     es_token_out := em_token_out sample |}.
Definition record_edge_sample (sample : EdgeMetadata) : DashM unit :=
  now ← utc_now;
  let snapshot := edge_snapshot (rfc3339 now) sample in
  on_inner (fun state => state <[ ds_edge_telemetry ::= add_sample snapshot (ds_edge_telemetry state) ]>);;
  telemetry ← get (fun h => ds_edge_telemetry (dh_inner h));
  let '(telemetry, unsupported_selector) := record_unsupported_selector telemetry snapshot in
  on_inner (fun state => state <[ ds_edge_telemetry ::= telemetry ]>);;
  let sample_count := et_sample_count telemetry in
  (if (sample_count <=? 3) || (sample_count mod 25 =? 0) then
     at_ ← utc_now;
     on_inner (fun state => state <[ ds_recent_events ::=
                 push_event (rfc3339 at_) "info" ("edge telemetry sample recorded count=" +:+ show_Z sample_count)
                   (ds_recent_events state) ]>)
   else skip);;
  (match unsupported_selector with
   | Some record =>
       on_pending (fun p => p <[ pw_unsupported_selectors ::= (pw_unsupported_selectors p ++ [record])%list ]>)
   | None => skip
   end);;
  written ← utc_now;
  on_file (Telemetry.record_edge_sample json_text written snapshot).

Definition set_relay_rankings (relays : list RelaySnapshot) : DashM unit :=
  on_inner (fun state => state <[ ds_relay_rankings ::= relays ]>).

Definition pending_relay (update : RelaySnapshotUpdate) : PendingRelayUpdate :=
  {| pu_name := ru_relay update; pu_n_accepted := u64_of_bool (ru_accepted update);
     pu_n_submit_failed := u64_of_bool (ru_submit_failed update);
     pu_n_included_success := u64_of_bool (ru_included_success update);
     pu_n_included_revert := u64_of_bool (ru_included_revert update);
     pu_n_not_included_timeout := u64_of_bool (ru_not_included_timeout update);
     pu_latency_submit := ru_submit_latency_ms update;
     pu_latency_finalization := ru_finalization_latency_ms update; pu_n_score := ru_score update;
     pu_n_pressure := ru_pressure update; pu_n_accept_rate := ru_accept_rate update;
     pu_n_inclusion_rate := ru_inclusion_rate update |}.
Definition record_relay_outcome (update : RelaySnapshotUpdate) : DashM unit :=
  on_pending (fun p => p <[ pw_relay_updates ::= (pw_relay_updates p ++ [pending_relay update])%list ]>);;
  on_inner (fun state => state <[ ds_relay_rankings ::= upsert_relay_snapshot update (ds_relay_rankings state) ]>).

Definition set_executor_balance (balance_eth : f64) (status : string) : DashM unit :=
  on_inner (fun state => state <[ ds_executor_balance_eth ::= Some (fmt_fixed 6 balance_eth) ]>
                               <[ ds_executor_buffer_status ::= status ]>).
Definition set_hot_wallets (wallets : list WalletSnapshot) : DashM unit :=
  on_inner (fun state => state <[ ds_hot_wallets ::= wallets ]>).

Definition treasury_snapshot (at_ : string) (update : TreasuryRecommendationUpdate) : TreasurySnapshot :=
  {| tr_at := at_; tr_executor_address := tu_executor_address update;
     tr_vault_address := tu_vault_address update; tr_profit_address := tu_profit_address update;
     tr_balance_eth := tu_balance_eth update; tr_min_buffer_eth := tu_min_buffer_eth update;
     tr_target_buffer_eth := tu_target_buffer_eth update; tr_max_buffer_eth := tu_max_buffer_eth update;
     tr_action := tu_action update; tr_recommended_amount_eth := tu_recommended_amount_eth update;
     tr_status := tu_status update; tr_note := tu_note update |}.
Definition record_treasury_recommendation (update : TreasuryRecommendationUpdate) : DashM unit :=
  on_pending (fun p => p <[ pw_treasury_updates ::= (pw_treasury_updates p ++ [update])%list ]>);;
  at_ ← utc_now;
  on_inner (fun state =>
    state <[ ds_treasury_action ::= tu_action update ]>
          <[ ds_treasury_recommended_amount_eth ::= fmt_fixed 6 (tu_recommended_amount_eth update) ]>
          <[ ds_treasury_status ::= tu_status update ]>
          <[ ds_treasury_note ::= tu_note update ]>
          <[ ds_treasury_rebalance_trail ::=
               take 12 (treasury_snapshot (rfc3339 at_) update :: ds_treasury_rebalance_trail state) ]>).

Definition outcome_snapshot (at_ : string) (update : ExecutionOutcomeUpdate) : ExecutionOutcomeSnapshot :=
  {| oc_at := at_; oc_relay := ou_relay update; oc_target_block := ou_target_block update;
     oc_pair := ou_pair update; oc_router := ou_router update; oc_token_in := ou_token_in update;
     oc_token_out := ou_token_out update; oc_victim_tx := ou_victim_tx update; oc_outcome := ou_outcome update;
     oc_expected_profit_eth := ou_expected_profit_eth update;
     oc_realized_profit_eth := ou_realized_profit_eth update; oc_gas_used := ou_gas_used update;
     oc_submit_latency_ms := ou_submit_latency_ms update;
     oc_finalization_latency_ms := ou_finalization_latency_ms update |}.
Definition record_execution_outcome (update : ExecutionOutcomeUpdate) : DashM unit :=
  on_pending (fun p => p <[ pw_execution_outcomes ::= (pw_execution_outcomes p ++ [update])%list ]>);;
  at_ ← utc_now;
  on_inner (fun state => state <[ ds_execution_outcomes ::=
                                    take 12 (outcome_snapshot (rfc3339 at_) update :: ds_execution_outcomes state) ]>).

(** ** The flush *)

(** A write of the storage that reads the time. *)
Definition stamped (f : Z -> StorageM unit) : DashM unit := now ← utc_now; in_storage (f now).

Definition flush_events (pending : PendingStorageWrites) : DashM unit :=
  (if storage_events_enabled variables then
     for_each (fun '(level, message) => stamped (fun now => log_event now level message)) (pw_events pending)
   else skip);;
  (if storage_telemetry_enabled variables then
     for_each (fun l => stamped (fun now => log_telemetry now (pl_stage l) (pl_duration_ms l) (pl_wallet l) (pl_note l)))
       (pw_latencies pending)
   else skip).
Definition flush_rollups (pending : PendingStorageWrites) : DashM unit :=
  for_each (fun l => in_storage (record_latency_rollup (lt_bucket l) (lt_stage l) (lt_samples l) (lt_total_ms l)
                                   (lt_max_ms l) (lt_last_ms l)))
    (listing (pw_latency_rollups pending)).*2;;
  for_each (fun f => in_storage (record_funnel_rollup (ct_bucket f) (ct_stage f) (ct_count f)))
    (listing (pw_funnel_rollups pending)).*2;;
  for_each (fun r => in_storage (record_reject_reason_rollup (rj_bucket r) (rj_stage r) (rj_reason r) (rj_count r)))
    (listing (pw_reject_reason_rollups pending)).*2;;
  for_each (fun s => stamped (fun now =>
              record_selector_performance_rollup now (sl_bucket s) (sl_selector s) (sl_target s) (sl_decode_source s)
                (sl_stage s) (sl_count s) (sl_confidence_sum s) (sl_gas_gwei_sum s)))
    (listing (pw_selector_performance_rollups pending)).*2;;
  for_each (fun p => stamped (fun now => record_selector_pool_performance_rollup now p))
    (listing (pw_selector_pool_performance_rollups pending)).*2.
Definition flush_relays (pending : PendingStorageWrites) : DashM unit :=
  for_each (fun r => stamped (fun now =>
              Storage.record_relay_outcome now (pu_name r) (pu_n_accepted r) (pu_n_submit_failed r)
                (pu_n_included_success r) (pu_n_included_revert r) (pu_n_not_included_timeout r)
                (pu_latency_submit r) (pu_latency_finalization r) (pu_n_score r) (pu_n_pressure r)
                (pu_n_accept_rate r) (pu_n_inclusion_rate r)))
    (pw_relay_updates pending).
Definition flush_prune : DashM unit :=
  last_prune ← get dh_last_storage_prune;
  now ← instant_now;
  if 60 * secs <=? elapsed now last_prune then
    events_now ← utc_now;
    telemetry_now ← utc_now;
    _ ← (rollup_now ← utc_now; in_storage (prune_runtime_tables variables events_now telemetry_now rollup_now));
    later ← instant_now;
    on_prune later
  else skip.
Definition flush_outcomes (pending : PendingStorageWrites) : DashM unit :=
  for_each (fun t => stamped (fun now =>
              Storage.record_treasury_recommendation now (tu_executor_address t) (tu_vault_address t)
                (tu_profit_address t) (tu_balance_eth t) (tu_min_buffer_eth t) (tu_target_buffer_eth t)
                (tu_max_buffer_eth t) (tu_action t) (tu_recommended_amount_eth t) (tu_status t) (tu_note t)))
    (pw_treasury_updates pending);;
  for_each (fun o => stamped (fun now =>
              Storage.record_execution_outcome now (ou_relay o) (ou_target_block o) (ou_pair o) (ou_router o)
                (ou_token_in o) (ou_token_out o) (ou_victim_tx o) (ou_outcome o) (ou_expected_profit_eth o)
                (ou_realized_profit_eth o) (ou_gas_used o) (ou_submit_latency_ms o)
                (ou_finalization_latency_ms o)))
    (pw_execution_outcomes pending);;
  for_each (fun u => stamped (fun now => Storage.record_unsupported_selector now u))
    (pw_unsupported_selectors pending).
Definition flush_pending (pending : PendingStorageWrites) : DashM unit :=
  flush_events pending;;
  flush_rollups pending;;
  flush_relays pending;;
  flush_prune;;
  flush_outcomes pending.
Definition flush_storage_buffers : DashM unit :=
  pending ← get dh_pending;
  on_pending (fun _ => PendingStorageWrites_default);;
  flush_pending pending.

(** ** The snapshot *)

Definition residual_snapshot (row : string * string * u64 * u64 * string * string * string) : WalletResidualSnapshot :=
  let '(wallet, asset_class, detections, successful_sweeps, detected_wei, realized_wei, last_seen_at) := row in
  let detected := wei_str_to_eth detected_wei in
  let realized := wei_str_to_eth realized_wei in
  let score := u64_sadd (u64_sadd (u64_smul detections 100) (u64_smul successful_sweeps 250))
                 (f64_as_u64 (detected * 10000.0)%f64) in
  {| wr_wallet := wallet; wr_asset_class := asset_class; wr_detections := detections;
     wr_successful_sweeps := successful_sweeps; wr_detected_profit_eth := fmt_fixed 6 detected;
     wr_realized_profit_eth := fmt_fixed 6 realized; wr_residual_score := score; wr_last_seen_at := last_seen_at |}.

(** [if let Ok(value) = self.storage...] and [unwrap_or_default]. *)
Definition refreshed {A} (m : StorageM (string + A)) (set : A -> DashboardState -> DashboardState)
    (state : DashboardState) : DashM DashboardState :=
  r ← in_storage m; mret (match r with inr a => set a state | inl _ => state end).
Definition or_default {A} (d : A) (m : StorageM (string + A)) : StorageM A :=
  r ← m; mret (match r with inr a => a | inl _ => d end).

Definition show_thresholds (thresholds : OpportunityThresholds) (state : DashboardState) : DashboardState :=
  state <[ ds_min_candidate_eth ::= display_f64 (th_min_large_swap_eth thresholds) ]>
        <[ ds_min_net_profit_eth ::= display_f64 (th_min_net_profit_eth thresholds) ]>
        <[ ds_min_profit_usd ::= display_f64 (th_min_profit_usd thresholds) ]>
        <[ ds_min_liquidity_eth ::= display_f64 (th_min_liquidity_eth thresholds) ]>.
Definition mode_text (mode : option OpportunityMode) : string :=
  match mode with Some mode => mode_as_str mode | None => "conservative" end.

Definition observe_scavenger_window (state : DashboardState) : DashM ScavengerObserverReport :=
  now ← instant_now;
  on_observer (push now state);;
  get (fun h => report (dh_observer h)).

Definition refresh_tables (state : DashboardState) : DashM DashboardState :=
  state ← refreshed (toxicity_profiles 12) (fun v s => s <[ ds_toxicity_profiles ::= v ]>) state;
  state ← refreshed (relay_rankings 12) (fun v s => s <[ ds_relay_rankings ::= v ]>) state;
  state ← refreshed (top_wallet_residuals 10)
            (fun v s => s <[ ds_top_residual_wallets ::= residual_snapshot <$> v ]>) state;
  state ← refreshed (treasury_rebalance_trail 12) (fun v s => s <[ ds_treasury_rebalance_trail ::= v ]>) state;
  state ← refreshed (execution_outcomes 12) (fun v s => s <[ ds_execution_outcomes ::= v ]>) state;
  state ← refreshed (selector_performance_scores 12) (fun v s => s <[ ds_selector_scores ::= v ]>) state;
  state ← refreshed (selector_pool_performance_scores 12) (fun v s => s <[ ds_selector_pool_scores ::= v ]>) state;
  refreshed (selector_replay_scores 12) (fun v s => s <[ ds_selector_replay_scores ::= v ]>) state.

Definition snapshot : DashM DashboardState :=
  state ← get dh_inner;
  paused ← get dh_runtime_paused;
  endpoints ← in_fleet (Rpc.snapshot rpc_clock);
  let state := state <[ ds_runtime_paused ::= paused ]> <[ ds_rpc_endpoints ::= endpoints ]> in
  state ← refresh_tables state;
  mode ← get dh_opportunity_mode;
  thresholds ← get dh_runtime_thresholds;
  let state := state <[ ds_opportunity_mode ::= mode_text mode ]> in
  let state := match thresholds with Some t => show_thresholds t state | None => state end in
  now ← utc_now;
  summary ← in_storage (or_default ∅ (telemetry_window_summary now 300));
  at_ ← utc_now;
  let state := state <[ ds_latency_risk ::= build_latency_risk (rfc3339 at_) summary (ds_rpc_endpoints state) ]>
                     <[ ds_reject_breakdown ::= build_reject_breakdown (ds_reject_reasons state) ]> in
  observed ← observe_scavenger_window state;
  mret (state <[ ds_scavenger_observer ::= observed ]>).

(** ** Requests of the server *)

Record RpcControlResponse := {
  rc_ok : bool;
  rc_message : string;
  rc_rpc_endpoints : list RpcEndpointSnapshot }.
Record OpportunityThresholdRequest := {
  rq_min_large_swap_eth : option f64;
  rq_min_net_profit_eth : option f64;
  rq_min_profit_usd : option f64;
  rq_min_liquidity_eth : option f64 }.
Record DatabaseStatusResponse := {
  db_ok : bool;
  db_storage_backend : string;
  db_database_url_configured : bool;
  db_downloadable : list string;
  db_table_counts : list (string * u64);
  db_recent_execution_outcomes : list ExecutionOutcomeSnapshot;
  db_recent_treasury : list TreasurySnapshot;
  db_toxicity_profiles : list ToxicitySnapshot }.

(** A response: its status code and its body. *)
Definition OK : Z := 200.
Definition BAD_REQUEST : Z := 400.
Definition NOT_FOUND : Z := 404.
Definition INTERNAL_SERVER_ERROR : Z := 500.

Definition set_rpc_enabled (endpoint_id : usize) (enabled : bool) (reason : option string) :
    DashM (Z * RpcControlResponse) :=
  r ← in_fleet (set_endpoint_enabled rpc_clock endpoint_id enabled reason);
  match r with
  | inr _ =>
      let status := if enabled then "enabled" else "disabled" in
      event "warn" ("rpc endpoint " +:+ show_nat endpoint_id +:+ " " +:+ status +:+ " from dashboard");;
      endpoints ← in_fleet (Rpc.snapshot rpc_clock);
      mret (OK, {| rc_ok := true; rc_message := "rpc endpoint " +:+ show_nat endpoint_id +:+ " " +:+ status;
                   rc_rpc_endpoints := endpoints |})
  | inl message =>
      endpoints ← in_fleet (Rpc.snapshot rpc_clock);
      mret (NOT_FOUND, {| rc_ok := false; rc_message := message; rc_rpc_endpoints := endpoints |})
  end.

Definition only_getblock : DashM (Z * RpcControlResponse) :=
  disabled ← in_fleet (keep_only_getblock_enabled rpc_clock);
  event "warn" ("getblock-only mode enabled from dashboard; disabled " +:+ show_nat disabled +:+ " rpc endpoints");;
  endpoints ← in_fleet (Rpc.snapshot rpc_clock);
  mret (OK, {| rc_ok := true;
               rc_message := "getblock-only mode enabled; disabled " +:+ show_nat disabled +:+ " rpc endpoints";
               rc_rpc_endpoints := endpoints |}).

Definition clear_events_request : DashM (Z * (bool * string)) :=
  r ← clear_events;
  mret match r with
       | inr _ => (OK, (true, "events feed cleared"))
       | inl err => (INTERNAL_SERVER_ERROR, (false, err))
       end.

Definition pause_request (paused : bool) : DashM (Z * (bool * bool * string)) :=
  set_runtime_paused paused;;
  let action := if paused then "paused" else "resumed" in
  event "warn" ("runtime " +:+ action +:+ " from dashboard");;
  mret (OK, (true, paused, "runtime " +:+ action)).

(** [None] stays a poisoned lock. *)
Definition write_mode (mode : OpportunityMode) : DashM unit := fun h =>
  Done (h <[ dh_opportunity_mode ::= (fun _ => mode) <$> dh_opportunity_mode h ]>, tt).
Definition write_thresholds (thresholds : OpportunityThresholds) : DashM unit := fun h =>
  Done (h <[ dh_runtime_thresholds ::= (fun _ => thresholds) <$> dh_runtime_thresholds h ]>, tt).

Definition mode_error (e : ConfigError) : string :=
  match e with UnsupportedOpportunityMode other => "unsupported opportunity mode: " +:+ other | _ => "" end.
Definition set_opportunity_mode (mode : string) : DashM (Z * (bool * string * string)) :=
  match parse_opportunity_mode mode with
  | inr parsed =>
      write_mode parsed;;
      on_inner (fun state => state <[ ds_opportunity_mode ::= mode_as_str parsed ]>);;
      event "warn" ("opportunity mode switched to " +:+ mode_as_str parsed);;
      mret (OK, (true, mode_as_str parsed, "opportunity mode set to " +:+ mode_as_str parsed))
  | inl err =>
      mode ← get dh_opportunity_mode;
      mret (BAD_REQUEST, (false, mode_text mode, mode_error err))
  end.

Definition default_thresholds : OpportunityThresholds :=
  {| th_min_large_swap_eth := 25.0; th_min_net_profit_eth := 0.0025; th_min_profit_usd := 2.0;
     th_min_liquidity_eth := 25.0 |}.
Definition set_opportunity_thresholds (request : OpportunityThresholdRequest) :
    DashM (Z * (bool * string * OpportunityThresholds)) :=
  lock ← get dh_runtime_thresholds;
  let current := default default_thresholds lock in
  let next := {| th_min_large_swap_eth := default (th_min_large_swap_eth current) (rq_min_large_swap_eth request);
                 th_min_net_profit_eth := default (th_min_net_profit_eth current) (rq_min_net_profit_eth request);
                 th_min_profit_usd := default (th_min_profit_usd current) (rq_min_profit_usd request);
                 th_min_liquidity_eth := default (th_min_liquidity_eth current) (rq_min_liquidity_eth request) |} in
  if (th_min_large_swap_eth next <=? 0.0)%f64 || (th_min_net_profit_eth next <=? 0.0)%f64
     || (th_min_profit_usd next <=? 0.0)%f64 || (th_min_liquidity_eth next <=? 0.0)%f64
  then mret (BAD_REQUEST, (false, "threshold values must be positive", current))
  else
    write_thresholds next;;
    on_inner (show_thresholds next);;
    event "warn" ("opportunity thresholds updated min_swap=" +:+ fmt_fixed 6 (th_min_large_swap_eth next)
                  +:+ " min_profit=" +:+ fmt_fixed 8 (th_min_net_profit_eth next)
                  +:+ " min_usd=" +:+ fmt_fixed 4 (th_min_profit_usd next)
                  +:+ " min_liquidity=" +:+ fmt_fixed 6 (th_min_liquidity_eth next));;
    mret (OK, (true, "opportunity thresholds updated", next)).

Definition database_status : DashM DatabaseStatusResponse :=
  table_counts ← in_storage (or_default [] database_table_counts);
  recent_execution_outcomes ← in_storage (or_default [] (execution_outcomes 12));
  recent_treasury ← in_storage (or_default [] (treasury_rebalance_trail 12));
  toxicity_profiles ← in_storage (or_default [] (toxicity_profiles 12));
  mret {| db_ok := true; db_storage_backend := if is_postgres then "postgres" else "sqlite";
          db_database_url_configured :=
            default false ((fun value => negb (String.eqb (trim value) "")) <$> variables "DATABASE_URL");
          db_downloadable := ["toxicity_profiles.csv"; "realized_vs_expected.json"];
          db_table_counts := table_counts; db_recent_execution_outcomes := recent_execution_outcomes;
          db_recent_treasury := recent_treasury; db_toxicity_profiles := toxicity_profiles |}.

(** ** The handle at the start *)

Definition treasury_signal (trail : list TreasurySnapshot) : string * string * string * string :=
  match trail with
  | entry :: _ => (tr_action entry, fmt_fixed 6 (tr_recommended_amount_eth entry), tr_status entry, tr_note entry)
  | [] => ("hold", "0.000000", "unknown", "no treasury signals yet")
  end.
Definition initial_state (config : Config) (wallet_count total_keys_read duplicate_keys invalid_keys : nat)
    (counts : u64 * u64 * u64) (residuals : list WalletResidualSnapshot) (endpoints : list RpcEndpointSnapshot)
    (recent : list DashboardEvent) (metrics : list LatencyMetric) (risk : LatencyRiskSnapshot)
    (selectors : list SelectorPerformanceSnapshot) (pools : list SelectorPoolPerformanceSnapshot)
    (replays : list SelectorReplayScoreSnapshot) (relays : list RelaySnapshot) (toxicity : list ToxicitySnapshot)
    (trail : list TreasurySnapshot) (outcomes : list ExecutionOutcomeSnapshot) : DashboardState :=
  let thresholds := Config.runtime_thresholds (mev config) in
  let '(action, amount, status, note) := treasury_signal trail in
  {| ds_runtime_mode := "fee-extraction"; ds_market_regime := "normal"; ds_allow_send := allow_send config;
     ds_runtime_paused := false; ds_network := Config.network config;
     ds_native_asset_symbol := native_asset_symbol config;
     ds_control_address := debug_address (control_address config);
     ds_vault_address := debug_address (vault_address config);
     ds_executor_address := debug_address (executor_address config);
     ds_profit_address := debug_address (profit_address config);
     ds_min_candidate_eth := display_f64 (th_min_large_swap_eth thresholds);
     ds_min_net_profit_eth := display_f64 (th_min_net_profit_eth thresholds);
     ds_min_profit_usd := display_f64 (th_min_profit_usd thresholds);
     ds_min_liquidity_eth := display_f64 (th_min_liquidity_eth thresholds);
     ds_executor_min_buffer_eth := fmt_fixed 4 (executor_min_buffer_eth (mev config));
     ds_executor_target_buffer_eth := fmt_fixed 4 (executor_target_buffer_eth (mev config));
     ds_executor_max_buffer_eth := fmt_fixed 4 (executor_max_buffer_eth (mev config));
     ds_executor_balance_eth := None; ds_executor_buffer_status := "unknown"; ds_treasury_action := action;
     ds_treasury_recommended_amount_eth := amount; ds_treasury_status := status; ds_treasury_note := note;
     ds_private_relay_only := true;
     ds_opportunity_mode := mode_as_str (Config.opportunity_mode (mev config));
     ds_scan_interval_ms := max_pending_age_ms (mev config); ds_wallet_count := wallet_count;
     ds_total_keys_read := total_keys_read; ds_duplicate_keys := duplicate_keys; ds_invalid_keys := invalid_keys;
     ds_last_scan_at := None; ds_last_scan_duration_ms := None; ds_sweeps_attempted := counts.1.1;
     ds_sweeps_succeeded := counts.1.2; ds_sweeps_failed := counts.2; ds_hot_wallets := [];
     ds_top_residual_wallets := residuals; ds_rpc_endpoints := endpoints; ds_recent_events := recent;
     ds_latency_metrics := metrics; ds_latency_risk := risk;
     ds_opportunity_funnel := OpportunityFunnelSnapshot_default;
     ds_edge_telemetry := EdgeTelemetrySnapshot_default; ds_selector_scores := selectors;
     ds_selector_pool_scores := pools; ds_selector_replay_scores := replays;
     ds_scavenger_observer := ScavengerObserverReport_default; ds_reject_reasons := []; ds_reject_breakdown := [];
     ds_relay_rankings := relays; ds_toxicity_profiles := toxicity; ds_treasury_rebalance_trail := trail;
     ds_execution_outcomes := outcomes |}.

(** [start] is the first reading of the clock of instants, [now] of the other. *)
Definition new (config : Config) (wallet_count total_keys_read duplicate_keys invalid_keys : nat)
    (storage : Storage) (rpc : World) (files : gmap string string) (start : Instant) (now : Z) :
    outcome DashboardHandle :=
  let '(storage, recent) := or_default [] (recent_events 50) storage in
  let '(storage, counts) := or_default (0, 0, 0) sweep_counts storage in
  let '(storage, summary) := or_default ∅ telemetry_summary storage in
  let '(storage, recent_summary) := or_default ∅ (telemetry_window_summary now 300) storage in
  match Rpc.snapshot rpc_clock rpc with
  | Panicked => Panicked
  | Done (rpc, measured) =>
      let '(storage, residuals) := or_default [] (top_wallet_residuals 10) storage in
      let '(storage, relays) := or_default [] (relay_rankings 12) storage in
      let '(storage, toxicity) := or_default [] (toxicity_profiles 12) storage in
      let '(storage, trail) := or_default [] (treasury_rebalance_trail 12) storage in
      let '(storage, outcomes) := or_default [] (execution_outcomes 12) storage in
      match Rpc.snapshot rpc_clock rpc with
      | Panicked => Panicked
      | Done (rpc, endpoints) =>
          let '(storage, selectors) := or_default [] (selector_performance_scores 12) storage in
          let '(storage, pools) := or_default [] (selector_pool_performance_scores 12) storage in
          let '(storage, replays) := or_default [] (selector_replay_scores 12) storage in
          Done {| dh_inner :=
                    initial_state config wallet_count total_keys_read duplicate_keys invalid_keys counts
                      (residual_snapshot <$> residuals) endpoints recent (build_latency_metrics summary)
                      (build_latency_risk (rfc3339 now) recent_summary measured) selectors pools replays relays
                      toxicity trail outcomes;
                  dh_storage := storage; dh_rpc := rpc;
                  dh_opportunity_mode := opportunity_mode_lock (mev config);
                  dh_runtime_thresholds := runtime_thresholds_lock (mev config); dh_runtime_paused := false;
                  dh_pending := PendingStorageWrites_default; dh_observer := ScavengerObserver_default;
                  dh_last_storage_prune := start - 120 * secs;
                  dh_file_telemetry := from_env variables files; dh_readings := 0 |}
      end
  end.
End Handle.
