(* ===== verification/DashboardFacts.v ===== *)
(** * Facts about the dashboard

    The calls on the handle as commands; what a command leaves alone, by one
    predicate closed under the ways commands are built; and the flow of counts
    from a report through the gathered writes to a table. *)
From S2P Require Import Prelude F64 Text TextFacts Ethers Config ConfigEnv Rpc Payload Storage Telemetry Dashboard DashboardHandle.
#[local] Open Scope string_scope.
#[local] Open Scope Z_scope.

(** ** Commands *)

Inductive Command :=
| Event (level message : string)
| ClearEvents
| Latency (stage : string) (duration_ms : Z) (wallet note : option string)
| MarketRegime (regime : string)
| Reason (stage reason : string)
| SelectorStage (selector target decode_source stage : string) (confidence gas_gwei : f64)
| PoolStage (selector target token_pair pool dex_kind : string) (fee_tier : u32) (stage : string)
    (expected_profit liquidity gas_gwei : f64)
| Funnel (stage : string)
| EdgeSample (sample : EdgeMetadata)
| RelayRankings (relays : list RelaySnapshot)
| RelayOutcome (update : RelaySnapshotUpdate)
| ExecutorBalance (balance_eth : f64) (status : string)
| HotWallets (wallets : list WalletSnapshot)
| Treasury (update : TreasuryRecommendationUpdate)
| Outcome (update : ExecutionOutcomeUpdate)
| SetPaused (paused : bool)
| Flush
| Snapshot
| RpcEnabled (endpoint_id : usize) (enabled : bool) (reason : option string)
| OnlyGetblock
| ClearEventsRequest
| Pause (paused : bool)
| Mode (mode : string)
| Thresholds (request : OpportunityThresholdRequest)
| DatabaseStatus.

Section Commands.
Context `{Database, Chrono, Files, Panel}.

Definition ignore {A} (m : DashM A) : DashM unit := _ ← m; skip.
Definition perform (c : Command) : DashM unit :=
  match c with
  | Event level message => event level message
  | ClearEvents => ignore clear_events
  | Latency stage duration_ms wallet note => record_latency stage duration_ms wallet note
  | MarketRegime regime => set_market_regime regime
  | Reason stage reason => record_reject_reason stage reason
  | SelectorStage selector target source stage confidence gas =>
      record_selector_performance selector target source stage confidence gas
  | PoolStage selector target token_pair pool dex_kind fee_tier stage profit liquidity gas =>
      record_selector_pool_performance selector target token_pair pool dex_kind fee_tier stage profit liquidity gas
  | Funnel stage => record_opportunity_funnel stage
  | EdgeSample sample => record_edge_sample sample
  | RelayRankings relays => set_relay_rankings relays
  | RelayOutcome update => record_relay_outcome update
  | ExecutorBalance balance_eth status => set_executor_balance balance_eth status
  | HotWallets wallets => set_hot_wallets wallets
  | Treasury update => record_treasury_recommendation update
  | Outcome update => record_execution_outcome update
  | SetPaused paused => set_runtime_paused paused
  | Flush => flush_storage_buffers
  | Snapshot => ignore snapshot
  | RpcEnabled endpoint_id enabled reason => ignore (set_rpc_enabled endpoint_id enabled reason)
  | OnlyGetblock => ignore only_getblock
  | ClearEventsRequest => ignore clear_events_request
  | Pause paused => ignore (pause_request paused)
  | Mode mode => ignore (set_opportunity_mode mode)
  | Thresholds request => ignore (set_opportunity_thresholds request)
  | DatabaseStatus => ignore database_status
  end.

(** [stepped h h']: one command takes the handle from [h] to [h']. *)
Definition stepped (h h' : DashboardHandle) : Prop := exists c, perform c h = Done (h', tt).

(** ** Frames *)

(** [m] does not change what [view] sees, and readings of the clocks only go
    forward; on the storage, what [v] sees of the tables. *)
Definition later (h h' : DashboardHandle) : Prop := (dh_readings h <= dh_readings h')%nat.
Definition frame {T A} (view : DashboardHandle -> T) (m : DashM A) : Prop :=
  forall h h' a, m h = Done (h', a) -> view h' = view h /\ later h h'.
Definition table_frame {T A} (v : Tables -> T) (m : StorageM A) : Prop :=
  forall s, v (tables (m s).1) = v (tables s) /\ network (m s).1 = network s.
End Commands.

Section Frames.
Context {T : Type} (view : DashboardHandle -> T).

Lemma frame_ret {A} (a : A) : frame view (mret a).
Proof. intros h h' b [= <- <-]. by split; [|unfold later]. Qed.
Lemma frame_bind {A B} (m : DashM A) (f : A -> DashM B) :
  frame view m -> (forall a, frame view (f a)) -> frame view (m ≫= f).
Proof.
  intros M F h h' b E. unfold mbind, DashM_bind in E.
  destruct (m h) as [[h1 a]|] eqn:E1; [|done].
  destruct (F _ _ _ _ E) as [-> L2], (M _ _ _ E1) as [-> L1]. split; [done|]. unfold later in *. lia.
Qed.
Lemma frame_for_each {A} (f : A -> DashM unit) l : (forall a, frame view (f a)) -> frame view (for_each f l).
Proof. intros F. induction l; simpl; [apply frame_ret|by apply frame_bind]. Qed.
Lemma frame_ignore {A} (m : DashM A) : frame view m -> frame view (ignore m).
Proof. intros M. apply frame_bind; [done|]. intros _. apply frame_ret. Qed.

(** One operation, on a part the view does not look at. *)
Lemma frame_op {A} (g : DashboardHandle -> DashboardHandle) (v : DashboardHandle -> A) :
  (forall h, view (g h) = view h) -> (forall h, later h (g h)) -> frame view (fun h => Done (g h, v h)).
Proof. intros V L h h' b [= <- <-]. auto. Qed.
Lemma frame_fleet {A} (m : RpcM A) : (forall h s, view (h <[ dh_rpc ::= s ]>) = view h) -> frame view (in_fleet m).
Proof.
  intros V h h' b E. unfold in_fleet in E. destruct (m (dh_rpc h)) as [[w a]|]; [|done].
  injection E as <- <-. split; [apply V|]. by unfold later.
Qed.
Lemma frame_tables {X A} (v : Tables -> X) (m : StorageM A) :
  (forall h s, v (tables s) = v (tables (dh_storage h)) -> network s = network (dh_storage h) ->
               view (h <[ dh_storage ::= s ]>) = view h) ->
  table_frame v m -> frame view (in_storage m).
Proof.
  intros V M h h' b E. unfold in_storage in E. specialize (M (dh_storage h)).
  destruct (m (dh_storage h)) as [s a]. injection E as <- <-. split; [apply V; apply M|]. by unfold later.
Qed.
Lemma frame_storage {A} (m : StorageM A) :
  (forall h s, view (h <[ dh_storage ::= s ]>) = view h) -> frame view (in_storage m).
Proof.
  intros V h h' b E. unfold in_storage in E. destruct (m (dh_storage h)) as [s a]. injection E as <- <-.
  split; [apply V|]. by unfold later.
Qed.
End Frames.

Section TableFrames.
Context `{Database, Chrono} {T : Type} (v : Tables -> T).

Lemma table_frame_ret {A} (a : A) : table_frame v (mret a).
Proof. done. Qed.
Lemma table_frame_bind {A B} (m : StorageM A) (f : A -> StorageM B) :
  table_frame v m -> (forall a, table_frame v (f a)) -> table_frame v (m ≫= f).
Proof.
  intros M F s. unfold mbind, StorageM_bind. specialize (M s). destruct (m s) as [s1 a]. simpl in M.
  destruct (F a s1) as [-> ->]. done.
Qed.
Lemma table_frame_and_then {A B} (m : StorageM (string + A)) (f : A -> StorageM (string + B)) :
  table_frame v m -> (forall a, table_frame v (f a)) -> table_frame v (and_then m f).
Proof. intros M F. apply table_frame_bind; [done|]. intros [e|a]; [done|apply F]. Qed.
Lemma table_frame_statement {A} (f : Tables -> option (Tables * A)) :
  (forall t t' a, f t = Some (t', a) -> v t' = v t) -> table_frame v (statement f).
Proof.
  intros F s. unfold statement. destruct (answers _); [|done].
  destruct (f (tables s)) as [[t a]|] eqn:E; [|done]. simpl. split; [by apply (F _ _ a)|done].
Qed.
Lemma table_frame_execute (f : Tables -> option Tables) :
  (forall t t', f t = Some t' -> v t' = v t) -> table_frame v (execute f).
Proof.
  intros F. apply table_frame_statement. intros t t' [] E. destruct (f t) as [t''|] eqn:E'; [|done].
  injection E as <-. auto.
Qed.
Lemma table_frame_write (f : Tables -> option Tables) :
  (forall t t', f t = Some t' -> v t' = v t) -> table_frame v (write f).
Proof. intros F. apply table_frame_bind; [by apply table_frame_execute|]. intros _. done. Qed.
Lemma table_frame_query {A} (f : Tables -> option A) : table_frame v (query f).
Proof.
  apply table_frame_statement. intros t t' a E. destruct (f t); [|done]. by injection E as <- <-.
Qed.
Lemma table_frame_or_default {A} (d : A) (m : StorageM (string + A)) : table_frame v m -> table_frame v (or_default d m).
Proof. intros M. apply table_frame_bind; [done|]. intros r. done. Qed.
End TableFrames.

(** ** Counts

    A counter: reports are gathered in a map with textual keys, whose entries
    carry the key and the count, and are added to the rows of a table. *)

Section Counter.
Context `{Database} {K V : Type} `{Countable K} (ekey : V -> K) (ecount : V -> Z) (text : K -> string).
Context (good : K -> Prop).
Hypothesis text_inj : forall k k', good k -> good k' -> text k = text k' -> k = k'.

Definition stored (t : gmap K Z) (k : K) : Z := default 0 (t !! k).
Definition gathered (m : gmap string V) (k : K) : Z :=
  match m !! text k with Some v => if decide (ekey v = k) then ecount v else 0 | None => 0 end.
(** The key of an entry is the text of what it carries. *)
Definition keyed (m : gmap string V) : Prop :=
  map_Forall (fun s v => s = text (ekey v) /\ good (ekey v) /\ 0 <= ecount v) m.

Lemma keyed_empty : keyed ∅.
Proof. apply map_Forall_empty. Qed.
Lemma gathered_empty k : gathered ∅ k = 0.
Proof. unfold gathered. by rewrite lookup_empty. Qed.
Lemma gathered_nonneg m k : keyed m -> 0 <= gathered m k.
Proof.
  intros W. unfold gathered. destruct (m !! text k) as [v|] eqn:E; [|done].
  destruct (decide _); [|done]. by destruct (W _ _ E) as (_ & _ & C).
Qed.

Section Gather.
Context (k : K) (new : V) (update : V -> V).
Hypothesis (new_key : ekey new = k) (new_count : ecount new = 0).
Hypothesis (update_key : forall v, ekey (update v) = ekey v).
Hypothesis (update_count : forall v, ecount (update v) = bump (ecount v)).

Lemma entry_of m : keyed m -> good k ->
  exists v, default new (m !! text k) = v /\ ekey v = k /\ 0 <= ecount v /\ gathered m k = ecount v.
Proof.
  intros W G. unfold gathered. destruct (m !! text k) as [v|] eqn:E; simpl.
  - destruct (W _ _ E) as (T & G' & C). apply text_inj in T; [|done..].
    exists v. rewrite decide_True by done. done.
  - exists new. rewrite new_count. done.
Qed.
Lemma keyed_gather m : keyed m -> good k -> keyed (gather (text k) new update m).
Proof.
  intros W G. destruct (entry_of m W G) as (v & E & Kv & C & _). unfold gather. rewrite E.
  apply map_Forall_insert_2; [|done]. rewrite update_key, update_count, Kv. split_and!; [done..|].
  unfold bump. by apply sat_add_nonneg.
Qed.
Lemma gathered_gather m k' : keyed m -> good k ->
  gathered (gather (text k) new update m) k' = if decide (k' = k) then bump (gathered m k) else gathered m k'.
Proof.
  intros W G. destruct (entry_of m W G) as (v & E & Kv & _ & Cv).
  rewrite Cv. unfold gathered, gather. rewrite E. destruct (decide (k' = k)) as [->|N].
  - rewrite lookup_insert_eq, decide_True by congruence. apply update_count.
  - destruct (decide (text k' = text k)) as [T|T].
    + rewrite T, lookup_insert_eq, decide_False by congruence.
      destruct (m !! text k) as [w|] eqn:E'; [|done]. simpl in E. subst w. by rewrite decide_False by congruence.
    + by rewrite lookup_insert_ne by congruence.
Qed.
End Gather.

(** What a list of entries adds to [k]. *)
Definition listed (l : list V) (k : K) : Z :=
  foldr (fun v acc => (if decide (ekey v = k) then ecount v else 0) + acc) 0 l.
#[local] Instance listed_perm : Proper ((≡ₚ) ==> eq ==> eq) listed.
Proof.
  intros l l' P k _ <-. unfold listed. induction P; simpl; [done|by rewrite IHP|lia|congruence].
Qed.
Lemma listed_gathered m k : keyed m -> good k -> listed (listing m).*2 k = gathered m k.
Proof.
  intros W G. rewrite listing_perm. revert W. induction m as [|s v m N IH] using map_ind; intros W.
  { by rewrite map_to_list_empty, gathered_empty. }
  apply map_Forall_insert_1_1 in W as W'; apply map_Forall_insert_1_2 in W as W2; [|done].
  destruct W' as (-> & Gv & _). rewrite map_to_list_insert by done.
  change (listed _ k) with ((if decide (ekey v = k) then ecount v else 0) + listed (map_to_list m).*2 k). rewrite (IH W2).
  unfold gathered. destruct (decide (ekey v = k)) as [<-|NE].
  - rewrite lookup_insert_eq, N, decide_True by done. lia.
  - rewrite lookup_insert_ne; [done|]. intros T. by apply NE, text_inj.
Qed.

(** An upsert adds its count, or nothing when it is refused. *)
Lemma upsert_stored k c t t' k' :
  upsert k c (fun old => int_add old c) t = Some t' ->
  stored t' k' = stored t k' + if decide (k' = k) then c else 0.
Proof.
  unfold upsert, stored. intros U. destruct (t !! k) as [old|] eqn:E.
  - destruct (int_add old c) as [n|] eqn:A; [|done]. apply int_add_exact in A as ->. injection U as <-.
    destruct (decide (k' = k)) as [->|N]; [rewrite lookup_insert_eq, E|rewrite lookup_insert_ne by done]; simpl; lia.
  - injection U as <-.
    destruct (decide (k' = k)) as [->|N]; [rewrite lookup_insert_eq, E|rewrite lookup_insert_ne by done]; simpl; lia.
Qed.
Lemma upsert_succeeds k c t : in_i64 (stored t k + c) -> is_Some (upsert k c (fun old => int_add old c) t).
Proof.
  unfold upsert, stored. intros I. destruct (t !! k) as [old|] eqn:E; [|eauto].
  simpl in I. rewrite int_add_spec by done. simpl. eauto.
Qed.
End Counter.

(** *** From the handle to a table *)

Section Moves.
Context `{Database, Chrono, Files, Panel} {K : Type} `{Countable K} (tbl : Tables -> gmap K Z) (net : string).
(** The rows in question, and those the retention keeps. *)
Context (good kept : K -> Prop) (horizon : nat).

Definition on_table (h : DashboardHandle) : gmap K Z := tbl (tables (dh_storage h)).
Definition all_answer : Prop := forall n, answers n = true.
Definition in_net (h : DashboardHandle) : Prop :=
  network (dh_storage h) = net /\ forall k, good k -> 0 <= stored (on_table h) k.
(** [m] adds at most [c k] to row [k], and exactly that when it can, up to the
    [horizon]-th reading of the clocks. *)
Definition moves {A} (c : K -> Z) (m : DashM A) : Prop :=
  forall h h' a, in_net h -> m h = Done (h', a) ->
    in_net h' /\ dh_pending h' = dh_pending h /\ later h h' /\
    forall k, good k ->
      stored (on_table h') k <= stored (on_table h) k + c k /\
      (kept k -> all_answer -> (dh_readings h' <= horizon)%nat -> stored (on_table h) k + c k < 2 ^ 63 ->
       stored (on_table h') k = stored (on_table h) k + c k).

Definition quiet (h : DashboardHandle) : gmap K Z * string * PendingStorageWrites :=
  (on_table h, network (dh_storage h), dh_pending h).
Lemma moves_frame {A} (m : DashM A) : frame quiet m -> moves (fun _ => 0) m.
Proof.
  intros F h h' a [N P] E. destruct (F _ _ _ E) as [Q L]. injection Q as T N' W. unfold in_net. rewrite T, N'.
  split_and!; [done..|]. intros k _. lia.
Qed.
Lemma moves_conseq {A} c c' (m : DashM A) : moves c m -> (forall k, good k -> c k = c' k) -> moves c' m.
Proof.
  intros M E h h' a N D. destruct (M _ _ _ N D) as (N' & P & T & C). split_and!; [done..|].
  intros k G. rewrite <- E by done. auto.
Qed.
Lemma moves_bind {A B} c d (m : DashM A) (f : A -> DashM B) :
  (forall k, good k -> 0 <= d k) -> moves c m -> (forall a, moves d (f a)) ->
  moves (fun k => c k + d k) (m ≫= f).
Proof.
  intros D M F h h' b N E. unfold mbind, DashM_bind in E. destruct (m h) as [[h1 a]|] eqn:E1; [|done].
  destruct (M _ _ _ N E1) as (N1 & P1 & T1 & C1). destruct (F _ _ _ _ N1 E) as (N2 & P2 & T2 & C2). unfold later in *.
  split_and!; [apply N2..|congruence|lia|]. intros k G. specialize (D k G).
  destruct (C1 k G) as [L1 X1], (C2 k G) as [L2 X2]. split; [lia|]. intros K1 A1 R1 I.
  specialize (X1 K1 A1 ltac:(lia) ltac:(lia)). specialize (X2 K1 A1 R1 ltac:(lia)). lia.
Qed.
Lemma moves_then {A B} d (m : DashM A) (f : A -> DashM B) :
  (forall k, good k -> 0 <= d k) -> frame quiet m -> (forall a, moves d (f a)) -> moves d (m ≫= f).
Proof.
  intros D M F. eapply moves_conseq; [apply moves_bind; [exact D|by apply moves_frame|exact F]|].
  intros k _. simpl. lia.
Qed.

Lemma moves_before {A B} c (m : DashM A) (f : A -> DashM B) :
  moves c m -> (forall a, moves (fun _ => 0) (f a)) -> moves c (m ≫= f).
Proof.
  intros M F. eapply moves_conseq; [apply moves_bind with (d := fun _ => 0); [done|exact M|exact F]|].
  intros k _. simpl. lia.
Qed.

(** A statement that upserts a count. *)
Definition adds (k : K) (c : Z) (m : StorageM unit) : Prop :=
  forall s, network s = net ->
    network (m s).1 = net /\
    let upserted := upsert k c (fun old => int_add old c) (tbl (tables s)) in
    (tbl (tables (m s).1) = tbl (tables s) \/ upserted = Some (tbl (tables (m s).1))) /\
    (answers (statements s) = true -> is_Some upserted -> upserted = Some (tbl (tables (m s).1))).
Lemma in_storage_inv {A} (m : StorageM A) h h' a :
  in_storage m h = Done (h', a) ->
  on_table h' = tbl (tables (m (dh_storage h)).1) /\ network (dh_storage h') = network (m (dh_storage h)).1
  /\ dh_pending h' = dh_pending h /\ later h h'.
Proof.
  unfold in_storage. destruct (m (dh_storage h)) as [s b]. intros [= <- <-]. split_and!; [done..|]. by unfold later.
Qed.
Lemma moves_adds k0 c m : 0 <= c -> adds k0 c m ->
  moves (fun k => if decide (k = k0) then c else 0) (in_storage m).
Proof.
  intros C A h h' [] [N P] E. apply in_storage_inv in E as (T & N' & W & R). specialize (A (dh_storage h) N).
  destruct A as (N2 & O & X). unfold in_net. rewrite T, N'. revert N2 O X.
  generalize (tbl (tables (m (dh_storage h)).1)) as t'. intros t' N2 O X.
  assert (B : forall k, stored t' k = stored (on_table h) k
                \/ stored t' k = stored (on_table h) k + if decide (k = k0) then c else 0).
  { intros k. destruct O as [->|U]; [by left|right]. exact (upsert_stored _ _ _ _ k U). }
  split_and!; [done| |done..|].
  - intros k G. specialize (P k G). destruct (B k) as [-> | ->]; [done|]. destruct (decide (k = k0)); lia.
  - intros k G. split.
    + destruct (B k) as [-> | ->]; destruct (decide (k = k0)); lia.
    + intros _ A1 _ I. destruct (decide (k = k0)) as [->|NE].
      * assert (U : is_Some (upsert k0 c (fun old => int_add old c) (on_table h))).
        { apply upsert_succeeds. specialize (P k0 G). split; lia. }
        specialize (X (A1 _) U). by rewrite (upsert_stored _ _ _ _ k0 X), decide_True.
      * destruct (B k) as [-> | ->]; rewrite ?decide_False by done; lia.
Qed.

Lemma moves_for_each {V} (ekey : V -> K) (ecount : V -> Z) (body : V -> StorageM unit) l :
  (forall v, v ∈ l -> 0 <= ecount v /\ adds (ekey v) (ecount v) (body v)) ->
  moves (listed ekey ecount l) (for_each (fun v => in_storage (body v)) l).
Proof.
  assert (NN : forall l k, (forall v, v ∈ l -> 0 <= ecount v) -> 0 <= listed ekey ecount l k).
  { intros l' k. induction l' as [|v l' IH]; intros F; [done|].
    assert (0 <= ecount v) by (apply F; left). specialize (IH (fun w Hw => F w (list_elem_of_further _ _ _ Hw))).
    change (0 <= (if decide (ekey v = k) then ecount v else 0) + listed ekey ecount l' k).
    destruct (decide _); lia. }
  induction l as [|v l IH]; intros F.
  { apply moves_frame, frame_ret. }
  destruct (F v ltac:(left)) as [C A].
  eapply moves_conseq; [apply moves_bind with (d := listed ekey ecount l); [|by apply moves_adds|]|].
  - intros k _. apply NN. intros w Hw. apply F. by right.
  - intros _. apply IH. intros w Hw. apply F. by right.
  - intros k _. unfold listed at 2. simpl.
    fold (listed ekey ecount l k). by destruct (decide (k = ekey v)), (decide (ekey v = k)); try congruence.
Qed.

(** A statement that only deletes rows, and none that is kept when [sure]. *)
Definition deletes {A} (sure : Prop) (m : StorageM A) : Prop :=
  forall s, network (m s).1 = network s /\
    forall k, tbl (tables (m s).1) !! k = tbl (tables s) !! k \/ tbl (tables (m s).1) !! k = None /\ (sure -> ~ kept k).
Lemma deletes_frame {A} sure (m : StorageM A) : table_frame tbl m -> deletes sure m.
Proof. intros F s. destruct (F s) as [-> ->]. auto. Qed.
Lemma deletes_and_then {A B} sure (m : StorageM (string + A)) (f : A -> StorageM (string + B)) :
  deletes sure m -> (forall a, deletes sure (f a)) -> deletes sure (and_then m f).
Proof.
  intros M F s. unfold and_then, mbind, StorageM_bind. specialize (M s).
  destruct (m s) as [s1 [e|a]]; simpl in M; [exact M|].
  destruct (F a s1) as [N D], M as [N1 D1]. rewrite N. split; [done|]. intros k.
  simpl in *. destruct (D k) as [-> | [-> ?]]; [|by right]. apply D1.
Qed.
Lemma deletes_execute sure (f : Tables -> Tables) :
  (forall t k, tbl (f t) !! k = tbl t !! k \/ tbl (f t) !! k = None /\ (sure -> ~ kept k)) ->
  deletes sure (execute (fun t => Some (f t))).
Proof.
  intros F s. unfold execute, statement. destruct (answers _); simpl; [|auto]. split; [done|]. apply F.
Qed.
Lemma moves_deletes {A} (f : Z -> StorageM A) :
  (forall i, deletes (i < horizon)%nat (f (utc_clock i))) -> moves (fun _ => 0) (now ← utc_now; in_storage (f now)).
Proof.
  intros D h h' a [N P] E. unfold utc_now, mbind, DashM_bind, reading in E.
  apply in_storage_inv in E as (T & N' & W & R). specialize (D (dh_readings h) (dh_storage h)).
  destruct D as [N2 D]. unfold in_net, later in *. simpl in T, N', W, R. rewrite T, N'. revert D.
  generalize (tbl (tables (f (utc_clock (dh_readings h)) (dh_storage h)).1)) as t'. intros t' D.
  assert (B : forall k, good k -> stored t' k <= stored (on_table h) k /\ 0 <= stored t' k
                /\ (kept k -> (dh_readings h < horizon)%nat -> stored t' k = stored (on_table h) k)).
  { intros k G. specialize (P k G). unfold stored, on_table in *.
    destruct (D k) as [-> | [-> NK]]; [done|]. split_and!; [done|done|tauto]. }
  split_and!; [congruence| |done|lia|].
  - intros k G. by destruct (B k G) as (_ & ? & _).
  - intros k G. destruct (B k G) as (L & _ & X). split; [lia|]. intros Kk _ Hh _. rewrite X by (done || lia). lia.
Qed.
End Moves.

(** ** Automation

    [table_frame] and [frame] follow the structure of a computation; what is left
    is a statement about one assignment. *)

Ltac head_of m := match m with ?f _ => head_of f | _ => m end.
Ltac table_frame_step :=
  lazymatch goal with
  | |- table_frame _ (mret _) => apply table_frame_ret
  | |- table_frame _ (and_then _ _) => apply table_frame_and_then; [|intros ?]
  | |- table_frame _ (or_default _ _) => apply table_frame_or_default
  | |- table_frame _ (query _) => apply table_frame_query
  | |- table_frame _ (write _) => apply table_frame_write; intros ? ? ?; simplify_option_eq; done
  | |- table_frame _ (execute _) => apply table_frame_execute; intros ? ? ?; simplify_option_eq; done
  | |- table_frame _ (_ ≫= _) => apply table_frame_bind; [|intros ?]
  | |- table_frame _ (if ?b then _ else _) => destruct b
  | |- table_frame _ (match ?x with _ => _ end) => destruct x
  | |- table_frame ?v (fun s => _) =>
      let s := fresh "s" in
      intros s; cbv beta;
      lazymatch goal with
      | |- context [write ?f s] =>
          refine (table_frame_write v f _ s); intros ? ? ?; simplify_option_eq; done
      | |- context [query ?f s] => exact (table_frame_query v f s)
      end
  | |- table_frame _ ?m => let f := head_of m in unfold f; cbv zeta; cbn [foldr]
  end.
Ltac table_frame := repeat table_frame_step.

(** [at_storage] closes the frame of a statement. *)
Ltac frame_step at_storage :=
  lazymatch goal with
  | |- frame _ (mret _) => apply frame_ret
  | |- frame _ (ignore _) => apply frame_ignore
  | |- frame _ (for_each _ _) => apply frame_for_each; intros ?
  | |- frame _ (_ ≫= _) => apply frame_bind; [|intros ?]
  | |- frame _ (if ?b then _ else _) => destruct b
  | |- frame _ (let '(_, _) := ?x in _) => destruct x
  | |- frame _ (match ?x with _ => _ end) => destruct x
  | |- frame _ (in_fleet _) => apply frame_fleet; done
  | |- frame _ (in_storage _) => first [apply frame_storage; done | at_storage]
  | |- frame _ (fun h => _) => apply frame_op; [done|intros ?; unfold later; simpl; lia]
  | |- frame _ ?m => let f := head_of m in unfold f; cbv zeta
  end.
Ltac frame_with at_storage := repeat frame_step at_storage.
Ltac frame := frame_with idtac.

(** A statement that leaves the table alone. *)
Ltac quiet_storage :=
  lazymatch goal with
  | |- frame (quiet ?tbl) _ =>
      apply frame_tables with (v := tbl); [unfold quiet, on_table; simpl; intros ? ? -> ->; done|table_frame]
  end.
Ltac quiet := frame_with ltac:(idtac; quiet_storage).

(** ** The ledger of a counter

    A table and the map that is gathered for it hold together what was reported:
    never more, and exactly that on the rows the retention keeps when the database
    answers. *)

Section Ledger.
Context `{Database, Chrono, Files, Panel} {K V : Type} `{Countable K}.
Context (pend : PendingStorageWrites -> gmap string V) (tbl : Tables -> gmap K Z) (net : string).
Context (ekey : V -> K) (ecount : V -> Z) (text : K -> string) (good kept : K -> Prop) (horizon : nat).
Hypothesis text_inj : forall k k', good k -> good k' -> text k = text k' -> k = k'.
Hypothesis pend_default : pend PendingStorageWrites_default = ∅.

Definition waiting (h : DashboardHandle) (k : K) : Z := gathered ekey ecount text (pend (dh_pending h)) k.
Definition balanced (L : K -> Z) (h : DashboardHandle) : Prop :=
  in_net tbl net good h /\ keyed ekey ecount text good (pend (dh_pending h)) /\
  forall k, good k ->
    stored (on_table tbl h) k + waiting h k <= L k /\
    (kept k -> all_answer -> (dh_readings h <= horizon)%nat -> stored (on_table tbl h) k + waiting h k = L k).

(** What a command that concerns neither sees. *)
Definition ledger (h : DashboardHandle) : gmap K Z * string * gmap string V :=
  (on_table tbl h, network (dh_storage h), pend (dh_pending h)).
Lemma balanced_ext L h h' : ledger h' = ledger h -> later h h' -> balanced L h -> balanced L h'.
Proof.
  intros E R (N & W & B). injection E as T N' P. unfold balanced, in_net, waiting, later in *. rewrite T, N', P.
  split_and!; [apply N..|done|]. intros k G. destruct (B k G) as [L1 X1]. split; [done|]. intros K1 A1 R1. apply X1; [done..|lia].
Qed.
Lemma balanced_conseq L L' h : (forall k, good k -> L k = L' k) -> balanced L h -> balanced L' h.
Proof.
  intros E (N & W & B). split_and!; [done..|]. intros k G. rewrite <- E by done. by apply B.
Qed.
Lemma balanced_start h :
  network (dh_storage h) = net -> dh_pending h = PendingStorageWrites_default ->
  (forall k, good k -> 0 <= stored (on_table tbl h) k) -> balanced (stored (on_table tbl h)) h.
Proof.
  intros N P S. unfold balanced, waiting. rewrite P, pend_default. split_and!; [done|apply keyed_empty|].
  intros k G. rewrite gathered_empty. lia.
Qed.
Lemma balanced_frame {A} L (m : DashM A) h h' a :
  frame ledger m -> balanced L h -> m h = Done (h', a) -> balanced L h'.
Proof.
  intros F B E. destruct (F _ _ _ E) as [Vw R]. by eapply balanced_ext.
Qed.

Lemma balanced_gather L h k new update f :
  ekey new = k -> ecount new = 0 -> (forall v, ekey (update v) = ekey v) ->
  (forall v, ecount (update v) = bump (ecount v)) ->
  pend (f (dh_pending h)) = gather (text k) new update (pend (dh_pending h)) ->
  good k -> L k < 2 ^ 63 -> balanced L h ->
  balanced (fun k' => L k' + if decide (k' = k) then 1 else 0) (h <[ dh_pending ::= f (dh_pending h) ]>).
Proof.
  intros NK NC UK UC F G LT (N & W & B). unfold balanced, waiting. split_and!; [done| |].
  - simpl. rewrite F. by eapply keyed_gather.
  - intros k' G'. simpl. rewrite F. erewrite gathered_gather; [|eassumption..].
    destruct (B k' G') as [L1 X1]. unfold waiting in L1, X1. unfold on_table in *.
    cbn [dh_storage] in *. destruct (decide (k' = k)) as [->|NE]; [|rewrite !Z.add_0_r; done].
    assert (0 <= stored (tbl (tables (dh_storage h))) k) by by apply N.
    assert (0 <= gathered ekey ecount text (pend (dh_pending h)) k) by by eapply gathered_nonneg.
    unfold bump. rewrite sat_add_small by (unfold U64_MAX; lia). split; [lia|]. intros K1 A1 R1. specialize (X1 K1 A1 R1). lia.
Qed.

Lemma balanced_flush L h h' :
  (forall k, good k -> L k < 2 ^ 63) ->
  (forall p, (forall s v, pend p !! s = Some v -> ecount v < 2 ^ 63) -> keyed ekey ecount text good (pend p) ->
             moves tbl net good kept horizon (gathered ekey ecount text (pend p)) (flush_pending p)) ->
  balanced L h -> flush_storage_buffers h = Done (h', tt) -> balanced L h'.
Proof.
  intros LT M (N & W & B) E.
  set (p := dh_pending h) in *.
  assert (E' : flush_pending p (h <[ dh_pending ::= PendingStorageWrites_default ]>) = Done (h', tt)) by exact E.
  assert (S : forall s v, pend p !! s = Some v -> ecount v < 2 ^ 63).
  { intros s v Hv. destruct (W _ _ Hv) as (-> & G & C). specialize (LT _ G). destruct (B _ G) as [L1 _].
    unfold waiting, gathered in L1. fold p in L1. rewrite Hv, decide_True in L1 by done.
    assert (0 <= stored (on_table tbl h) (ekey v)) by by apply N. lia. }
  set (h1 := h <[ dh_pending ::= PendingStorageWrites_default ]>) in E'.
  assert (N1 : in_net tbl net good h1) by exact N.
  assert (T1 : on_table tbl h1 = on_table tbl h) by done.
  destruct (M p S W _ _ _ N1 E') as (N' & P & R & C). rewrite T1 in C. unfold later in R. simpl in R.
  unfold balanced, waiting. rewrite P. simpl. rewrite pend_default. split_and!; [done|apply keyed_empty|].
  intros k G. rewrite gathered_empty. destruct (C k G) as [L1 X1], (B k G) as [L2 X2].
  unfold waiting in L2, X2. fold p in L2, X2.
  specialize (LT k G). split; [lia|]. intros K1 A1 R1. specialize (X2 K1 A1 ltac:(lia)). rewrite X1; lia || done.
Qed.
End Ledger.

Ltac ledger_storage :=
  lazymatch goal with
  | |- frame (ledger ?pend ?tbl) _ =>
      apply frame_tables with (v := tbl); [unfold ledger, on_table; simpl; intros ? ? -> ->; done|table_frame]
  end.
Ltac ledger_frame := frame_with ltac:(idtac; ledger_storage).
