(* ===== verification/DashboardShown.v ===== *)
(** * What the dashboard shows

    Sorted and cut lists with one entry per key, the invariant of the state, that
    every command keeps it, and that every command ends. *)
From S2P Require Import Prelude F64 Text TextFacts Ethers Config ConfigEnv Rpc RpcFacts Payload Storage Telemetry Dashboard DashboardHandle DashboardFacts.
#[local] Open Scope string_scope.
#[local] Open Scope Z_scope.

(** ** Lists in order and without repetition *)

Definition falls {A} (count : A -> Z) (l : list A) : Prop := sorted_keys (fun x => - count x) l.
Lemma falls_nil {A} (count : A -> Z) : falls count [].
Proof. intros i j x y _ Hi. by rewrite lookup_nil in Hi. Qed.
Lemma falls_take {A} (count : A -> Z) n l : falls count l -> falls count (take n l).
Proof.
  intros S i j x y L Hi Hj. apply lookup_take_Some in Hi as [Hi _], Hj as [Hj _]. by apply (S i j).
Qed.
Section Falls.
Context {A : Type} (count : A -> Z) (cmp : A -> A -> comparison).
Hypothesis below : forall x y, cmp x y <> Gt -> count y <= count x.
Hypothesis above : forall x y, cmp x y = Gt -> count x <= count y.

Lemma insert_by_falls x l : falls count l -> falls count (insert_by cmp x l).
Proof.
  unfold falls. induction l as [|y l IH]; intros S; simpl.
  { apply sorted_keys_cons. split; [|done]. intros z Hz. inversion Hz. }
  pose proof S as [F Sl]%sorted_keys_cons. destruct (cmp x y) eqn:E.
  3: { apply above in E. apply sorted_keys_cons. split; [|by apply IH]. intros z Hz. rewrite insert_by_perm in Hz.
       apply elem_of_cons in Hz as [->|Hz]; [lia|by apply F]. }
  1,2: assert (count y <= count x) by (apply below; congruence); apply sorted_keys_cons; split; [|done];
    intros z [->|Hz]%elem_of_cons; [lia|]; specialize (F z Hz); lia.
Qed.
Lemma sort_by_falls l : falls count (sort_by cmp l).
Proof.
  induction l as [|x l IH]; simpl; [|by apply insert_by_falls].
  intros i j y z _ Hi. by rewrite lookup_nil in Hi.
Qed.
End Falls.

Lemma sort_by_count {A} (count : A -> Z) l : falls count (sort_by (by_count_desc count) l).
Proof.
  apply sort_by_falls; intros x y; unfold by_count_desc; destruct (Z.compare_spec (count y) (count x)); intros; try lia; done.
Qed.
Lemma sort_by_count_then_selector l : falls un_count (sort_by by_count_then_selector l).
Proof.
  apply sort_by_falls; intros x y; unfold by_count_then_selector, then_by, by_count_desc;
    destruct (Z.compare_spec (un_count y) (un_count x)); intros; try lia; done.
Qed.

Lemma update_first_keys {A B} (key : A -> B) p f (l l' : list A) :
  (forall x, key (f x) = key x) -> update_first p f l = Some l' -> key <$> l' = key <$> l.
Proof.
  intros K. revert l'. induction l as [|x l IH]; intros l' E; simpl in E; [done|].
  destruct (p x); [injection E as <-; csimpl; by rewrite K|].
  destruct (update_first p f l) as [l1|]; [|done]. injection E as <-. csimpl. by rewrite (IH l1).
Qed.
Lemma update_first_None {A} p f (l : list A) : update_first p f l = None -> forall x, x ∈ l -> p x = false.
Proof.
  induction l as [|y l IH]; intros E x Hx; [by apply elem_of_nil in Hx|]. simpl in E.
  destruct (p y) eqn:Py; [done|]. destruct (update_first p f l); [done|].
  apply elem_of_cons in Hx as [->|Hx]; [done|by apply IH].
Qed.
(** Updating the entry of a key, or adding one, keeps the keys apart. *)
Lemma upserted_keys {A B} (key : A -> B) (p : A -> bool) f x l :
  (forall y, key (f y) = key y) -> (forall y, key y = key x -> p y = true) -> NoDup (key <$> l) ->
  NoDup (key <$> match update_first p f l with Some l' => l' | None => (l ++ [x])%list end).
Proof.
  intros K P N. destruct (update_first p f l) as [l'|] eqn:E; [by rewrite (update_first_keys key _ _ _ _ K E)|].
  rewrite fmap_app. apply NoDup_app. split_and!; [done| |apply NoDup_singleton].
  intros k [y [-> Hy]]%list_elem_of_fmap Hk. apply list_elem_of_singleton in Hk.
  pose proof (update_first_None _ _ _ E y Hy). by rewrite (P y Hk) in *.
Qed.
Lemma cut_keys {A B} (key : A -> B) n cmp (l : list A) : NoDup (key <$> l) -> NoDup (key <$> take n (sort_by cmp l)).
Proof.
  intros N. rewrite <- (sort_by_perm cmp l), <- (take_drop n (sort_by cmp l)) in N. rewrite fmap_app in N.
  by apply NoDup_app in N as (? & _).
Qed.

Record telemetry_ok (t : EdgeTelemetrySnapshot) : Prop := {
  tel_length : (length (et_samples t) <= 50)%nat;
  tel_last : et_last_sample t = head (et_samples t);
  tel_count : et_sample_count t = Z.min (et_payload_ready_count t + et_blocked_count t) U64_MAX;
  tel_ready : 0 <= et_payload_ready_count t <= U64_MAX;
  tel_blocked : 0 <= et_blocked_count t <= U64_MAX;
  tel_selectors : (length (et_unsupported_selectors t) <= 20)%nat;
  tel_order : falls un_count (et_unsupported_selectors t);
  tel_keys : NoDup ((fun u => (un_selector u, un_target u)) <$> et_unsupported_selectors t) }.
Record reasons_ok (l : list RejectReasonSnapshot) : Prop := {
  rea_length : (length l <= 8)%nat;
  rea_order : falls rr_count l;
  rea_counts : Forall (fun r => 1 <= rr_count r) l;
  rea_keys : NoDup ((fun r => (rr_stage r, rr_reason r)) <$> l) }.
Record state_ok (s : DashboardState) : Prop := {
  sok_events : (length (ds_recent_events s) <= 50)%nat;
  sok_telemetry : telemetry_ok (ds_edge_telemetry s);
  sok_reasons : reasons_ok (ds_reject_reasons s);
  sok_metrics : NoDup (lm_stage <$> ds_latency_metrics s);
  sok_trail : (length (ds_treasury_rebalance_trail s) <= 12)%nat;
  sok_signal : (ds_treasury_action s, ds_treasury_recommended_amount_eth s, ds_treasury_status s, ds_treasury_note s)
               = treasury_signal (ds_treasury_rebalance_trail s);
  sok_outcomes : (length (ds_execution_outcomes s) <= 12)%nat }.

(** *** Each update keeps its part *)

Lemma push_event_length at_ level message l : (length (push_event at_ level message l) <= 50)%nat.
Proof. unfold push_event. rewrite length_take. lia. Qed.
Lemma take_length_le {A} n (l : list A) : (length (take n l) <= n)%nat.
Proof. rewrite length_take. lia. Qed.
Lemma string_eqb_true s s' : string_eqb s s' = true -> s = s'.
Proof. apply String.eqb_eq. Qed.
Lemma string_eqb_same s : string_eqb s s = true.
Proof. apply String.eqb_refl. Qed.

Lemma update_first_Forall {A} (Q : A -> Prop) p f (l l' : list A) :
  (forall x, Q x -> Q (f x)) -> Forall Q l -> update_first p f l = Some l' -> Forall Q l'.
Proof.
  intros F. revert l'. induction l as [|x l IH]; intros l' Ql E; simpl in E; [done|].
  apply Forall_cons in Ql as [Qx Ql]. destruct (p x); [injection E as <-; constructor; auto|].
  destruct (update_first p f l) as [l1|]; [|done]. injection E as <-. constructor; [done|]. by apply IH.
Qed.
Lemma cut_Forall {A} (Q : A -> Prop) n cmp (l : list A) : Forall Q l -> Forall Q (take n (sort_by cmp l)).
Proof. intros F. apply Forall_take. by rewrite sort_by_perm. Qed.
Lemma bump_positive n : 1 <= n -> 1 <= bump n.
Proof. unfold bump, u64_sadd, sat_add, U64_MAX. lia. Qed.
Lemma count_reason_ok stage reason l : reasons_ok l -> reasons_ok (count_reason stage reason l).
Proof.
  intros [L O C K]. unfold count_reason. cbv zeta. split.
  - apply take_length_le.
  - apply falls_take, sort_by_count.
  - apply cut_Forall. destruct (update_first _ _ l) as [l'|] eqn:E; [|apply Forall_app; split; [done|by constructor]].
    eapply update_first_Forall; [|exact C|exact E]. intros x. by apply bump_positive.
  - apply cut_keys. apply upserted_keys; [done| |done].
    intros y Hy. injection Hy as -> ->. simpl. by rewrite !string_eqb_same.
Qed.

Lemma bump_split a b : 0 <= a <= U64_MAX -> 0 <= b <= U64_MAX ->
  bump (Z.min (a + b) U64_MAX) = Z.min (bump a + b) U64_MAX /\ 0 <= bump a <= U64_MAX.
Proof. unfold bump, u64_sadd, sat_add, U64_MAX. lia. Qed.
Lemma add_sample_ok s t : telemetry_ok t -> telemetry_ok (add_sample s t).
Proof.
  intros [L La C R B S O K]. unfold add_sample. cbv zeta.
  destruct (bump_split _ _ R B) as [C1 R1], (bump_split _ _ B R) as [C2 R2].
  destruct (string_eqb _ _); simpl; (split; simpl; [rewrite length_take; lia|done| |done..]); rewrite C; [done|].
  by rewrite (Z.add_comm (et_payload_ready_count t)), C2, Z.add_comm.
Qed.
Lemma list_unsupported_ok sample call l :
  NoDup ((fun u => (un_selector u, un_target u)) <$> l) ->
  let l' := list_unsupported sample call l in
  (length l' <= 20)%nat /\ falls un_count l' /\ NoDup ((fun u => (un_selector u, un_target u)) <$> l').
Proof.
  intros K. unfold list_unsupported. cbv zeta. split_and!; [apply take_length_le|apply falls_take, sort_by_count_then_selector|].
  apply cut_keys, upserted_keys; [|intros y Hy; injection Hy as -> ->; simpl; by rewrite !string_eqb_same|done].
  intros y. simpl. repeat case_match; done.
Qed.
Lemma record_unsupported_ok t sample : telemetry_ok t -> telemetry_ok (record_unsupported_selector t sample).1.
Proof.
  intros T. unfold record_unsupported_selector. destruct (unsupported_call sample) as [call|]; [|done].
  destruct T as [L La C R B S O K]. destruct (list_unsupported_ok sample call _ K) as (S' & O' & K').
  by split.
Qed.
Lemma upsert_latency_keys stage duration_ms l :
  NoDup (lm_stage <$> l) -> NoDup (lm_stage <$> upsert_latency_metric stage duration_ms l).
Proof.
  intros K. unfold upsert_latency_metric. cbv zeta. apply upserted_keys; [done| |done].
  intros y ->. apply string_eqb_same.
Qed.

(** *** Every command keeps the invariant *)

Definition keeps {A} (P : DashboardState -> Prop) (m : DashM A) : Prop :=
  forall h h' a, P (dh_inner h) -> m h = Done (h', a) -> P (dh_inner h').
Section Keeps.
Context (P : DashboardState -> Prop).

Lemma keeps_frame {A} (m : DashM A) : frame dh_inner m -> keeps P m.
Proof. intros F h h' a Ph E. by destruct (F _ _ _ E) as [-> _]. Qed.
Lemma keeps_bind {A B} (m : DashM A) (f : A -> DashM B) : keeps P m -> (forall a, keeps P (f a)) -> keeps P (m ≫= f).
Proof.
  intros M F h h' b Ph E. unfold mbind, DashM_bind in E. destruct (m h) as [[h1 a]|] eqn:E1; [|done].
  exact (F a _ _ _ (M _ _ _ Ph E1) E).
Qed.
Lemma keeps_inner f : (forall s, P s -> P (f s)) -> keeps P (on_inner f).
Proof. intros F h h' b Ph [= <- <-]. by apply F. Qed.
Lemma keeps_get {A B} (g : DashboardHandle -> A) (k : A -> DashM B) :
  (forall h, P (dh_inner h) -> keeps P (k (g h))) -> keeps P (get g ≫= k).
Proof. intros K h h' b Ph E. exact (K h Ph _ _ _ Ph E). Qed.
Lemma keeps_paused b : (forall s, P s -> P (s <[ ds_runtime_paused ::= b ]>)) -> keeps P (set_runtime_paused b).
Proof. intros F h h' c Ph [= <- <-]. by apply F. Qed.
End Keeps.
Ltac keeps_step :=
  lazymatch goal with
  | |- keeps _ (ignore _) => apply keeps_bind; [|intros ?]
  | |- keeps _ (on_inner _) => apply keeps_inner; intros ? ?
  | |- keeps _ (set_runtime_paused _) => apply keeps_paused; intros ? ?
  | |- keeps _ (if ?b then _ else _) => destruct b
  | |- keeps _ (match ?x with _ => _ end) => destruct x
  | |- keeps _ ?m =>
      first [apply keeps_frame; solve [frame] | apply keeps_bind; [|intros ?]
            | let f := head_of m in unfold f; cbv zeta]
  end.
Ltac keeps := repeat keeps_step.

Section StateOk.
Context `{Database, Chrono, Files, Panel}.

(** One field of the state after another. *)
Ltac part := match goal with I : state_ok _ |- state_ok _ => destruct I; split; try done end.

Lemma record_edge_sample_keeps sample : keeps state_ok (record_edge_sample sample).
Proof.
  unfold record_edge_sample. apply keeps_bind; [keeps|]. intros now. cbv zeta.
  apply keeps_bind; [keeps; part; by apply add_sample_ok|]. intros _. apply keeps_get. intros h I.
  pose proof (record_unsupported_ok _ (edge_snapshot (rfc3339 now) sample) (sok_telemetry _ I)) as T.
  destruct (record_unsupported_selector _ _) as [t u].
  keeps; part. apply push_event_length.
Qed.
Lemma event_keeps level message : keeps state_ok (event level message).
Proof. keeps; part. apply push_event_length. Qed.
#[local] Hint Resolve event_keeps : core.

Lemma perform_keeps c : keeps state_ok (perform c).
Proof.
  destruct c; cbn [perform]; unfold set_rpc_enabled, only_getblock, pause_request, set_opportunity_mode, set_opportunity_thresholds;
    try apply record_edge_sample_keeps; keeps; try (by apply event_keeps).
  all: part.
  all: try apply take_length_le.
  all: simpl; first [by apply upsert_latency_keys | by apply count_reason_ok | lia].
Qed.

Lemma reachable_keeps h h' : state_ok (dh_inner h) -> rtc stepped h h' -> state_ok (dh_inner h').
Proof. intros I R. induction R as [|h h1 h' [c E] _ IH]; [done|]. apply IH. exact (perform_keeps c _ _ _ I E). Qed.

(** What is read at the start. *)
Lemma or_default_result {A} (Q : A -> Prop) d (m : StorageM (string + A)) s s' a :
  Q d -> (forall s s' a, m s = (s', inr a) -> Q a) -> or_default d m s = (s', a) -> Q a.
Proof.
  intros D M E. unfold or_default, mbind, StorageM_bind in E. destruct (m s) as [s1 [e|x]] eqn:E1; injection E as _ <-;
    [done|by apply (M _ _ _ E1)].
Qed.
Lemma query_result {A} (f : Tables -> option A) s s' a : query f s = (s', inr a) -> f (tables s) = Some a.
Proof.
  unfold query, statement. destruct (answers _); [|done]. destruct (f (tables s)) as [x|]; simpl; [|done].
  by intros [= _ ->].
Qed.
Lemma recent_events_length s s' l : recent_events 50 s = (s', inr l) -> (length l <= 50)%nat.
Proof. intros E%query_result. injection E as <-. apply take_length_le. Qed.
Lemma treasury_trail_length s s' l : treasury_rebalance_trail 12 s = (s', inr l) -> (length l <= 12)%nat.
Proof. intros E%query_result. injection E as <-. apply take_length_le. Qed.
Lemma execution_outcomes_length s s' l : execution_outcomes 12 s = (s', inr l) -> (length l <= 12)%nat.
Proof. intros E%query_result. apply length_mapM in E. rewrite <- E. apply take_length_le. Qed.
Lemma fmap_stage (f : string -> LatencyMetric) (l : list string) : (forall s, lm_stage (f s) = s) -> lm_stage <$> (f <$> l) = l.
Proof. intros F. induction l as [|s l IH]; csimpl; [done|by rewrite F, IH]. Qed.
Lemma build_latency_metrics_keys summary : NoDup (lm_stage <$> build_latency_metrics summary).
Proof.
  unfold build_latency_metrics. rewrite fmap_stage; [|intros stage; by repeat case_match].
  apply (bool_decide_unpack _). vm_compute. done.
Qed.

Lemma initial_state_ok config wallets keys dups invalid counts residuals endpoints recent metrics risk selectors pools
    replays relays toxicity trail outcomes :
  (length recent <= 50)%nat -> NoDup (lm_stage <$> metrics) -> (length trail <= 12)%nat -> (length outcomes <= 12)%nat ->
  state_ok (initial_state config wallets keys dups invalid counts residuals endpoints recent metrics risk selectors
              pools replays relays toxicity trail outcomes).
Proof.
  intros R M T O. unfold initial_state. cbv zeta. destruct (treasury_signal trail) as [[[action amount] status] note] eqn:E.
  split; simpl; try done.
  - split; simpl; try done; try (unfold U64_MAX; lia); auto using falls_nil, NoDup_nil_2.
  - split; simpl; [lia|apply falls_nil|by constructor|apply NoDup_nil_2].
Qed.
Lemma new_keeps config wallets keys dups invalid storage rpc files start now h :
  new config wallets keys dups invalid storage rpc files start now = Done h -> state_ok (dh_inner h).
Proof.
  unfold new. intros E. repeat (case_match; try done). injection E as <-.
  repeat match goal with
         | Q : or_default _ (recent_events _) _ = _ |- _ =>
             apply (or_default_result (fun l => length l <= 50)%nat) in Q; [|simpl; lia|exact recent_events_length]
         | Q : or_default _ (treasury_rebalance_trail _) _ = _ |- _ =>
             apply (or_default_result (fun l => length l <= 12)%nat) in Q; [|simpl; lia|exact treasury_trail_length]
         | Q : or_default _ (execution_outcomes _) _ = _ |- _ =>
             apply (or_default_result (fun l => length l <= 12)%nat) in Q; [|simpl; lia|exact execution_outcomes_length]
         end.
  apply initial_state_ok; [done|apply build_latency_metrics_keys|done..].
Qed.
End StateOk.

(** ** Every command ends *)

Definition total {A} (m : DashM A) : Prop := forall h, exists h' a, m h = Done (h', a).
Lemma total_bind {A B} (m : DashM A) (f : A -> DashM B) : total m -> (forall a, total (f a)) -> total (m ≫= f).
Proof.
  intros M F h. destruct (M h) as (h1 & a & E). destruct (F a h1) as (h2 & b & E2).
  exists h2, b. unfold mbind, DashM_bind. by rewrite E.
Qed.
Lemma total_step {A} (g : DashboardHandle -> DashboardHandle) (v : DashboardHandle -> A) :
  total (fun h => Done (g h, v h)).
Proof. intros h. by eexists _, _. Qed.
Lemma total_storage {A} (m : StorageM A) : total (in_storage m).
Proof. intros h. unfold in_storage. destruct (m (dh_storage h)) as [s a]. by eexists _, _. Qed.
Lemma total_for_each {A} (f : A -> DashM unit) l : (forall a, total (f a)) -> total (for_each f l).
Proof. intros F. induction l; simpl; [apply total_step with (g := fun h => h)|by apply total_bind]. Qed.

(** The fleet keeps its endpoints, and reads none beyond them. *)
Definition sized (n : nat) (w : World) : Prop := length (endpoints (fleet w)) = n.
Definition steady {A} (m : RpcM A) : Prop := forall n, triple (sized n) m (fun _ => sized n).
Lemma total_fleet {A} (m : RpcM A) : steady m -> total (in_fleet m).
Proof.
  intros S h. specialize (S _ (dh_rpc h) eq_refl). unfold in_fleet.
  destruct (m (dh_rpc h)) as [[w a]|]; [by eexists _, _|done].
Qed.
Lemma sized_now n clk : triple (sized n) (now_ clk) (fun _ => sized n).
Proof. intros w S. exact S. Qed.
Lemma sized_refs n : triple (sized n) all_refs (fun rs w => rs = seq 0 n /\ sized n w).
Proof. intros w S. split; [|exact S]. by rewrite <- S. Qed.
Lemma sized_get_endpoint n r : (r < n)%nat -> triple (sized n) (get_endpoint r) (fun _ => sized n).
Proof.
  intros L w S. unfold get_endpoint, mbind, RpcM_bind, get_fleet, lift. simpl.
  destruct (endpoints (fleet w) !! r) as [e|] eqn:E; [exact S|].
  apply lookup_ge_None in E. unfold sized in S. lia.
Qed.
Lemma sized_set_state n r st : triple (sized n) (set_state r st) (fun _ => sized n).
Proof. intros w S. unfold sized in *. simpl. by rewrite length_alter. Qed.
Lemma sized_filter_mapM {A B} n (f : A -> RpcM (option B)) l :
  (forall x, x ∈ l -> triple (sized n) (f x) (fun _ => sized n)) -> triple (sized n) (filter_mapM f l) (fun _ => sized n).
Proof.
  induction l as [|x l IH]; intros F; simpl; [by apply triple_ret|].
  eapply triple_bind; [apply F; left|]. intros y.
  eapply triple_bind; [apply IH; intros z Hz; apply F; by right|]. intros ys. by apply triple_ret.
Qed.
Lemma sized_invalidate n clk : triple (sized n) (invalidate_score_cache clk) (fun _ => sized n).
Proof. intros w S. exact S. Qed.
Lemma steady_snapshot clk : steady (Rpc.snapshot clk).
Proof.
  intros n. unfold Rpc.snapshot. eapply triple_bind; [apply sized_now|]. intros now.
  eapply triple_bind; [apply sized_refs|]. intros refs. apply triple_prop. intros ->.
  apply sized_filter_mapM. intros r Hr%elem_of_seq. unfold snapshot_endpoint.
  eapply triple_bind; [apply sized_get_endpoint; lia|]. intros e. cbv zeta.
  eapply triple_bind; [apply sized_set_state|]. intros ?.
  eapply triple_bind with (R := fun _ => sized n); [|intros age; by apply triple_ret].
  unfold block_age. destruct (last_block_at _); [|by apply triple_ret].
  eapply triple_bind; [apply sized_now|]. intros t. by apply triple_ret.
Qed.
Lemma steady_keep_only_getblock clk : steady (keep_only_getblock_enabled clk).
Proof.
  intros n. unfold keep_only_getblock_enabled. eapply triple_bind; [apply sized_refs|]. intros refs.
  apply triple_prop. intros ->. cbv zeta.
  eapply triple_bind; [apply sized_filter_mapM|intros off].
  - intros r Hr%elem_of_seq. eapply triple_bind; [apply sized_get_endpoint; lia|]. intros e.
    repeat case_match; try (by apply triple_ret); (eapply triple_bind; [apply sized_set_state|]; intros ?; by apply triple_ret).
  - eapply triple_bind; [apply sized_invalidate|]. intros ?. by apply triple_ret.
Qed.
Lemma steady_set_enabled clk i on reason : steady (set_endpoint_enabled clk i on reason).
Proof.
  intros n. unfold set_endpoint_enabled. eapply triple_bind with (R := fun o w => (forall r, o = Some r -> r < n)%nat /\ sized n w).
  { intros w S. simpl. split; [|exact S]. intros r (e & L & _)%position_Some. unfold sized in S.
    by apply lookup_lt_Some in L; rewrite S in L. }
  intros o. apply triple_prop. intros L. destruct o as [r|]; [|by apply triple_ret].
  eapply triple_bind; [by apply sized_get_endpoint, L|]. intros e.
  eapply triple_bind; [apply sized_set_state|]. intros ?.
  eapply triple_bind; [apply sized_invalidate|]. intros ?. by apply triple_ret.
Qed.

Section Total.
Context `{Database, Chrono, Files, Panel}.

Lemma perform_total c : total (perform c).
Proof.
  destruct c; cbn [perform].
  all: repeat
    lazymatch goal with
    | |- total (if ?b then _ else _) => destruct b
    | |- total (match ?x with _ => _ end) => destruct x
    | |- total (for_each _ _) => apply total_for_each; intros ?
    | |- total (_ ≫= _) => apply total_bind; [|intros ?]
    | |- total (in_storage _) => apply total_storage
    | |- total (in_fleet _) =>
        apply total_fleet; first [apply steady_snapshot | apply steady_keep_only_getblock | apply steady_set_enabled]
    | |- total (fun h => _) => intros ?; by eexists _, _
    | |- total ?m => let f := head_of m in unfold f; cbv zeta
    end.
Qed.
End Total.
