(* ===== verification/DashboardSample.v ===== *)
(** * A dashboard for concrete runs

    A database in memory that answers every statement, with integers of 64 bits
    and text ordered by its bytes; clocks that advance twenty seconds a reading,
    and a handle on them. *)
From S2P Require Import Prelude F64 Text Ethers Config ConfigEnv Rpc RpcFacts Payload Storage Telemetry Dashboard DashboardHandle DashboardFacts.
#[local] Open Scope string_scope.
#[local] Open Scope Z_scope.

Definition within_i64 (n : Z) : option Z := if (- 2 ^ 63 <=? n) && (n <? 2 ^ 63) then Some n else None.
Lemma within_i64_spec n : in_i64 n -> within_i64 n = Some n.
Proof. intros [L U]. unfold within_i64. apply Z.leb_le in L as ->. by apply Z.ltb_lt in U as ->. Qed.
Lemma within_i64_exact n c : within_i64 n = Some c -> c = n.
Proof. unfold within_i64. destruct (_ && _); [by intros [= ->]|done]. Qed.

Definition in_memory : Database := {|
  is_postgres := false; answers := fun _ => true; refusal := fun _ => "refused"; storable := fun _ => true;
  int_add := fun a b => within_i64 (a + b); int_sum := fun l => within_i64 (foldr Z.add 0 l);
  real_sum := fsum; real_avg := fun l => (fsum l / f64_of_Z (Z.of_nat (length l)))%f64;
  int_avg := fun l => (f64_of_Z (foldr Z.add 0%Z l) / f64_of_Z (Z.of_nat (length l)))%f64;
  text_lt := fun a b => match String.compare a b with Lt => true | _ => false end;
  text_as_int := parse_i64; parse_address := fun _ => None; bare_row := fun A l => head l;
  listing := fun K V _ _ m => map_to_list m;
  int_add_exact := fun a b c => within_i64_exact (a + b) c; int_add_spec := fun a b => within_i64_spec (a + b);
  int_sum_spec := fun l _ => within_i64_spec (foldr Z.add 0 l);
  listing_perm := fun K V _ _ m => Permutation_refl (map_to_list m) |}.
Definition by_number : Chrono := {| rfc3339 := show_Z; bucket_minute := fun t => show_Z (Z.max 0 (t / (60 * secs))) |}.
Definition working_files : Files := {| io_ok := fun _ => true |}.
Definition steady_clocks : Panel := {|
  utc_clock := fun i => Z.of_nat i * 20 * secs; instant_clock := fun i => Z.of_nat i * 20 * secs;
  rpc_clock := fun i => Z.of_nat i * 20 * secs; variables := fun _ => None; display_f64 := fmt_fixed 4;
  debug_address := show_Z; json_text := fun _ _ => "{}" |}.

Definition sample_storage : Storage := {| network := "ethereum"; statements := 0; tables := Tables_empty |}.
Definition sample_world : World := {| fleet := sample_fleet; tick := 10 |}.
Abbreviation sample_new :=
  (@new in_memory by_number steady_clocks (Config.sample_config Aggressive true []) 1 1 0 0 sample_storage sample_world
     ∅ 0 0).
