(* ===== verification/DashboardProps.v ===== *)
(** * Properties of the dashboard and its storage *)
From S2P Require Import Prelude F64 Text TextFacts Ethers Config ConfigEnv Rpc Payload Storage Telemetry Dashboard DashboardHandle DashboardFacts DashboardShown DashboardSample.
#[local] Open Scope string_scope.
#[local] Open Scope Z_scope.

(** ** Reports reach the tables *)

Definition no_bar (s : string) : Prop := all_chars (fun c => negb (Ascii.eqb c "|"%char)) s = true.
Lemma bar_inj b b' s s' : no_bar b -> no_bar b' -> b +:+ "|" +:+ s = b' +:+ "|" +:+ s' -> b = b' /\ s = s'.
Proof.
  intros B B' E.
  change (b +:+ String "|" s = b' +:+ String "|" s') in E.
  apply (f_equal (split_once "|"%char)) in E. rewrite !split_once_app in E by done. by injection E.
Qed.

Section Reports.
Context `{Database, Chrono, Files, Panel}.

(** A report that is counted by the minute, with the network it is from. *)
Inductive Report :=
| FunnelReport (k : RollupKey)
| ReasonReport (k : ReasonKey).
#[export] Instance Report_eq_dec : EqDecision Report.
Proof. solve_decision. Defined.
Definition minute (h : DashboardHandle) : string := bucket_minute (utc_clock (dh_readings h)).
Definition report_of (h : DashboardHandle) (c : Command) : list Report :=
  if storage_rollups_enabled variables then
    match c with
    | Funnel stage => [FunnelReport (network (dh_storage h), minute h, stage)]
    | Reason stage reason => [ReasonReport (network (dh_storage h), minute h, stage, reason)]
    | _ => []
    end
  else [].
(** Commands one after another, and what they report. *)
Fixpoint run (cs : list Command) (h : DashboardHandle) : outcome (DashboardHandle * list Report) :=
  match cs with
  | [] => Done (h, [])
  | c :: cs =>
      match perform c h with
      | Panicked => Panicked
      | Done (h', _) =>
          match run cs h' with
          | Panicked => Panicked
          | Done (h'', log) => Done (h'', (report_of h c ++ log)%list)
          end
      end
  end.
Definition times (r : Report) (log : list Report) : Z := Z.of_nat (length (filter (fun r' => r' = r) log)).

(** *** The two counters *)

Context (net : string) (horizon : nat).
Definition funnel_text : RollupKey -> string := fun '(_, bucket, stage) => bucket +:+ "|" +:+ stage.
Definition funnel_key (v : PendingCounterRollup) : RollupKey := (net, ct_bucket v, ct_stage v).
Definition funnel_good (k : RollupKey) : Prop := k.1.1 = net /\ no_bar k.1.2.
Definition rollup_cutoff (now : Z) : string :=
  rfc3339 (now - runtime_retention_days variables "STORAGE_ROLLUP_RETENTION_DAYS" 14 * 24 * HOUR).
(** No flush up to the [horizon]-th reading finds the minute too old. *)
Definition unpruned (horizon : nat) (bucket : string) : Prop :=
  forall i, (i < horizon)%nat ->
    text_lt bucket (rollup_cutoff (utc_clock i)) = false.
Abbreviation funnel_balanced :=
  (balanced pw_funnel_rollups funnel_rollups net funnel_key ct_count funnel_text funnel_good
     (fun k : RollupKey => unpruned horizon k.1.2) horizon).

Definition reason_text : ReasonKey -> string := fun '(_, bucket, stage, reason) => bucket +:+ "|" +:+ stage +:+ "|" +:+ reason.
Definition reason_key (v : PendingRejectReasonRollup) : ReasonKey := (net, rj_bucket v, rj_stage v, rj_reason v).
Definition reason_good (k : ReasonKey) : Prop := k.1.1.1 = net /\ no_bar k.1.1.2 /\ no_bar k.1.2.
Abbreviation reason_balanced :=
  (balanced pw_reject_reason_rollups reject_reason_rollups net reason_key rj_count reason_text reason_good
     (fun k : ReasonKey => unpruned horizon k.1.1.2) horizon).

Lemma funnel_text_inj k k' : funnel_good k -> funnel_good k' -> funnel_text k = funnel_text k' -> k = k'.
Proof.
  destruct k as [[n b] s], k' as [[n' b'] s']. intros [N B] [N' B'] E. simpl in *. subst.
  by destruct (bar_inj _ _ _ _ B B' E) as [-> ->].
Qed.
Lemma reason_text_inj k k' : reason_good k -> reason_good k' -> reason_text k = reason_text k' -> k = k'.
Proof.
  destruct k as [[[n b] s] r], k' as [[[n' b'] s'] r']. intros (N & B & S) (N' & B' & S') E. simpl in *. subst.
  destruct (bar_inj _ _ _ _ B B' E) as [-> E']. by destruct (bar_inj _ _ _ _ S S' E') as [-> ->].
Qed.

Lemma funnel_frame c : c <> Flush -> (forall s, c <> Funnel s) ->
  frame (ledger pw_funnel_rollups funnel_rollups) (perform c).
Proof. intros F N. destruct c; try done; try (exfalso; exact (N _ eq_refl)); cbn [perform]; ledger_frame. Qed.
Lemma reason_frame c : c <> Flush -> (forall s r, c <> Reason s r) ->
  frame (ledger pw_reject_reason_rollups reject_reason_rollups) (perform c).
Proof. intros F N. destruct c; try done; try (exfalso; exact (N _ _ eq_refl)); cbn [perform]; ledger_frame. Qed.

(** *** One command *)

Context (bucket_bar : forall n, no_bar (bucket_minute n)).

Lemma times_cons r r' log : times r (r' :: log) = (if decide (r' = r) then 1 else 0) + times r log.
Proof. unfold times. rewrite filter_cons. case_decide; simpl; lia. Qed.
Lemma times_app r l l' : times r (l ++ l') = times r l + times r l'.
Proof. unfold times. rewrite filter_app, length_app. lia. Qed.
Lemma times_nonneg r l : 0 <= times r l.
Proof. unfold times. lia. Qed.
Lemma times_le r l : times r l <= Z.of_nat (length l).
Proof. unfold times. pose proof (length_filter (fun r' => r' = r) l). lia. Qed.
Lemma report_of_length h c : (length (report_of h c) <= 1)%nat.
Proof. unfold report_of. destruct (storage_rollups_enabled _), c; simpl; lia. Qed.

(** *** The flush *)

Lemma as_i64_small n : 0 <= n < 2 ^ 63 -> as_i64 n = n.
Proof. intros N. unfold as_i64. rewrite Z.mod_small; lia. Qed.

Lemma funnel_adds bucket stage count : 0 <= count < 2 ^ 63 ->
  adds funnel_rollups net (net, bucket, stage) count (record_funnel_rollup bucket stage count).
Proof.
  intros C s N. unfold record_funnel_rollup, write, execute, statement, mbind, StorageM_bind. rewrite N, as_i64_small by done.
  destruct (answers _); simpl; [|split_and!; auto; done].
  destruct (upsert _ _ _ _) as [m|] eqn:E; simpl; split_and!; auto. intros _ [? [=]].
Qed.
Lemma reason_adds bucket stage reason count : 0 <= count < 2 ^ 63 ->
  adds reject_reason_rollups net (net, bucket, stage, reason) count
    (record_reject_reason_rollup bucket stage reason count).
Proof.
  intros C s N. unfold record_reject_reason_rollup, write, execute, statement, mbind, StorageM_bind.
  rewrite N, as_i64_small by done.
  destruct (answers _); simpl; [|split_and!; auto; done].
  destruct (upsert _ _ _ _) as [m|] eqn:E; simpl; split_and!; auto. intros _ [? [=]].
Qed.

Lemma kept_rows_lookup {K V} `{Countable K} (drop : K -> V -> bool) (m : gmap K V) k (kept : Prop) :
  (forall v, kept -> drop k v = false) ->
  kept_rows drop m !! k = m !! k \/ kept_rows drop m !! k = None /\ ~ kept.
Proof.
  intros D. unfold kept_rows. rewrite map_lookup_filter. destruct (m !! k) as [v|] eqn:E; simpl; [|by left].
  destruct (drop k v) eqn:Dk; [|left; done]. right. split; [done|]. intros Kp. by rewrite D in Dk.
Qed.
Lemma funnel_prune a b i :
  deletes funnel_rollups (fun k : RollupKey => unpruned horizon k.1.2) (i < horizon)%nat
    (prune_runtime_tables variables a b (utc_clock i)).
Proof.
  unfold prune_runtime_tables. cbv zeta.
  repeat (apply deletes_and_then; [|intros _]); try solve [apply deletes_frame; table_frame].
  apply deletes_execute. intros t' [[n m] s]. simpl.
  destruct (kept_rows_lookup (fun '(_, bucket, _) (_ : Z) => text_lt bucket (rollup_cutoff (utc_clock i)))
              (funnel_rollups t') (n, m, s)
              (unpruned horizon m /\ (i < horizon)%nat)) as [E | [E N]]; [intros _ [U L]; by apply U|by left|right].
  split; [exact E|tauto].
Qed.
Lemma reason_prune a b i :
  deletes reject_reason_rollups (fun k : ReasonKey => unpruned horizon k.1.1.2) (i < horizon)%nat
    (prune_runtime_tables variables a b (utc_clock i)).
Proof.
  unfold prune_runtime_tables. cbv zeta.
  repeat (apply deletes_and_then; [|intros _]); try solve [apply deletes_frame; table_frame].
  apply deletes_execute. intros t' [[[n m] s] r]. simpl.
  destruct (kept_rows_lookup (fun '(_, bucket, _, _) (_ : Z) => text_lt bucket (rollup_cutoff (utc_clock i)))
              (reject_reason_rollups t') (n, m, s, r)
              (unpruned horizon m /\ (i < horizon)%nat)) as [E | [E N]]; [intros _ [U L]; by apply U|by left|right].
  split; [exact E|tauto].
Qed.

(** The rollups of a flush, around the table in question. *)
Lemma moves_flush {K} `{Countable K} (tbl : Tables -> gmap K Z) good kept c p :
  (forall k, good k -> 0 <= c k) ->
  frame (quiet tbl) (flush_events p) -> moves tbl net good kept horizon c (flush_rollups p) ->
  frame (quiet tbl) (flush_relays p) ->
  (forall a b i, deletes tbl kept (i < horizon)%nat (prune_runtime_tables variables a b (utc_clock i))) ->
  frame (quiet tbl) (flush_outcomes p) -> moves tbl net good kept horizon c (flush_pending p).
Proof.
  intros C F1 M F2 D F3. unfold flush_pending. apply moves_then; [done..|]. intros _.
  apply moves_before; [exact M|]. intros _.
  apply moves_then; [done..|]. intros _.
  apply moves_before; [|intros _; by apply moves_frame].
  unfold flush_prune. apply moves_then; [done|by quiet|]. intros last. apply moves_then; [done|by quiet|]. intros now.
  destruct (_ <=? _); [|by apply moves_frame, frame_ret].
  apply moves_then; [done|by quiet|]. intros a. apply moves_then; [done|by quiet|]. intros b.
  apply moves_before.
  - apply moves_deletes, D.
  - intros _. apply moves_frame. by quiet.
Qed.

Lemma funnel_flush p :
  (forall s v, pw_funnel_rollups p !! s = Some v -> ct_count v < 2 ^ 63) ->
  keyed funnel_key ct_count funnel_text funnel_good (pw_funnel_rollups p) ->
  moves funnel_rollups net funnel_good (fun k : RollupKey => unpruned horizon k.1.2) horizon
    (gathered funnel_key ct_count funnel_text (pw_funnel_rollups p)) (flush_pending p).
Proof.
  intros S W.
  apply moves_flush; [intros k _; by eapply gathered_nonneg|by quiet| |by quiet|apply funnel_prune|by quiet].
  unfold flush_rollups. apply moves_then; [intros k _; by eapply gathered_nonneg|by quiet|]. intros _.
  apply moves_before; [|intros _; apply moves_frame; by quiet].
  eapply moves_conseq; [apply moves_for_each with (ekey := funnel_key) (ecount := ct_count)|].
  - intros v [[s w] [-> Hv]]%list_elem_of_fmap. rewrite listing_perm in Hv. apply elem_of_map_to_list in Hv. simpl.
    destruct (W _ _ Hv) as (_ & _ & C). specialize (S _ _ Hv). split; [done|by apply funnel_adds].
  - intros k G. rewrite (listed_gathered _ _ _ _ funnel_text_inj) by done. done.
Qed.
Lemma reason_flush p :
  (forall s v, pw_reject_reason_rollups p !! s = Some v -> rj_count v < 2 ^ 63) ->
  keyed reason_key rj_count reason_text reason_good (pw_reject_reason_rollups p) ->
  moves reject_reason_rollups net reason_good (fun k : ReasonKey => unpruned horizon k.1.1.2) horizon
    (gathered reason_key rj_count reason_text (pw_reject_reason_rollups p)) (flush_pending p).
Proof.
  intros S W.
  apply moves_flush; [intros k _; by eapply gathered_nonneg|by quiet| |by quiet|apply reason_prune|by quiet].
  unfold flush_rollups. do 2 (apply moves_then; [intros k _; by eapply gathered_nonneg|by quiet|]; intros _).
  apply moves_before; [|intros _; apply moves_frame; by quiet].
  eapply moves_conseq; [apply moves_for_each with (ekey := reason_key) (ecount := rj_count)|].
  - intros v [[s w] [-> Hv]]%list_elem_of_fmap. rewrite listing_perm in Hv. apply elem_of_map_to_list in Hv. simpl.
    destruct (W _ _ Hv) as (_ & _ & C). specialize (S _ _ Hv). split; [done|by apply reason_adds].
  - intros k G. rewrite (listed_gathered _ _ _ _ reason_text_inj) by done. done.
Qed.

(** *** One command, and many *)

Lemma flush_or_funnel c : c = Flush \/ (exists stage, c = Funnel stage) \/ c <> Flush /\ forall s, c <> Funnel s.
Proof. destruct c; eauto; right; right; done. Qed.
Lemma flush_or_reason c :
  c = Flush \/ (exists stage reason, c = Reason stage reason) \/ c <> Flush /\ forall s r, c <> Reason s r.
Proof. destruct c; eauto; right; right; done. Qed.
(** The stage of a reported reason; the program's own names have no bar. *)
Definition stage_ok (c : Command) : Prop := match c with Reason stage _ => no_bar stage | _ => True end.
Lemma no_report r h : times r (report_of h Flush) = 0.
Proof. unfold report_of. by destruct (storage_rollups_enabled _). Qed.
Lemma times_other r log : r ∉ log -> times r log = 0.
Proof.
  intros N. induction log as [|r' log IH]; [done|]. apply not_elem_of_cons in N as [N1 N2].
  rewrite times_cons, decide_False, IH by congruence. done.
Qed.
Lemma funnel_only c h k : (forall s, c <> Funnel s) -> FunnelReport k ∉ report_of h c.
Proof.
  intros N. unfold report_of. destruct (storage_rollups_enabled _), c; try (exfalso; exact (N _ eq_refl)); apply not_elem_of_nil || (intros ?%list_elem_of_singleton; done).
Qed.
Lemma reason_only c h k : (forall s r, c <> Reason s r) -> ReasonReport k ∉ report_of h c.
Proof.
  intros N. unfold report_of. destruct (storage_rollups_enabled _), c; try (exfalso; exact (N _ _ eq_refl)); apply not_elem_of_nil || (intros ?%list_elem_of_singleton; done).
Qed.

Lemma funnel_step c h h' L :
  (forall k, funnel_good k -> L k < 2 ^ 63) -> funnel_balanced L h -> perform c h = Done (h', tt) ->
  funnel_balanced (fun k => L k + times (FunnelReport k) (report_of h c)) h'.
Proof.
  intros LT B E. destruct (flush_or_funnel c) as [-> | [(stage & ->) | [NF NR]]].
  - eapply balanced_conseq; [|eapply balanced_flush; [done|exact LT|exact funnel_flush|exact B|exact E]].
    intros k _. by rewrite no_report, Z.add_0_r.
  - cbn [perform] in E. unfold record_opportunity_funnel, report_of in *. cbv zeta in *.
    destruct (storage_rollups_enabled _).
    2: { injection E as <-. eapply balanced_conseq; [|eapply balanced_ext; [done|unfold later; done|exact B]].
        intros k _. symmetry. apply Z.add_0_r. }
    injection E as <-. pose proof B as [[N _] _].
    assert (G : funnel_good ((net, minute h, stage) : RollupKey)) by (split_and!; done || apply bucket_bar).
    eapply balanced_conseq; cycle 1.
    { eapply balanced_ext with (h := h <[ dh_pending ::= gather_funnel (minute h) stage (dh_pending h) ]>); [done|by apply Nat.le_succ_diag_r|].
      eapply balanced_gather with (k := ((net, minute h, stage) : RollupKey)); cycle 5; [reflexivity|exact G|by apply LT|exact B|apply funnel_text_inj|done..]. }
    intros k _. simpl. rewrite N. apply (f_equal (Z.add (L k))). rewrite times_cons. change (times _ []) with 0.
    rewrite Z.add_0_r. by destruct (decide (k = _)), (decide (FunnelReport _ = _)); try congruence.
  - eapply balanced_conseq; [|eapply balanced_frame; [by apply funnel_frame|exact B|exact E]].
    intros k _. rewrite times_other; [by rewrite Z.add_0_r|]. by apply funnel_only.
Qed.
Lemma reason_step c h h' L :
  (forall k, reason_good k -> L k < 2 ^ 63) -> reason_balanced L h -> perform c h = Done (h', tt) -> stage_ok c ->
  reason_balanced (fun k => L k + times (ReasonReport k) (report_of h c)) h'.
Proof.
  intros LT B E O. destruct (flush_or_reason c) as [-> | [(stage & reason & ->) | [NF NR]]].
  - eapply balanced_conseq; [|eapply balanced_flush; [done|exact LT|exact reason_flush|exact B|exact E]].
    intros k _. by rewrite no_report, Z.add_0_r.
  - cbn [perform] in E. unfold record_reject_reason, report_of in *. cbv zeta in *.
    destruct (storage_rollups_enabled _).
    2: { injection E as <-. eapply balanced_conseq; [|eapply balanced_ext; [done|unfold later; done|exact B]].
        intros k _. symmetry. apply Z.add_0_r. }
    injection E as <-. pose proof B as [[N _] _].
    assert (G : reason_good ((net, minute h, stage, reason) : ReasonKey)) by (split_and!; done || apply bucket_bar).
    eapply balanced_conseq; cycle 1.
    { eapply balanced_ext with (h := h <[ dh_pending ::= gather_reason (minute h) stage reason (dh_pending h) ]>); [done|by apply Nat.le_succ_diag_r|].
      eapply balanced_gather with (k := ((net, minute h, stage, reason) : ReasonKey)); cycle 5; [reflexivity|exact G|by apply LT|exact B|apply reason_text_inj|done..]. }
    intros k _. simpl. rewrite N. apply (f_equal (Z.add (L k))). rewrite times_cons. change (times _ []) with 0.
    rewrite Z.add_0_r. by destruct (decide (k = _)), (decide (ReasonReport _ = _)); try congruence.
  - eapply balanced_conseq; [|eapply balanced_frame; [by apply reason_frame|exact B|exact E]].
    intros k _. rewrite times_other; [by rewrite Z.add_0_r|]. by apply reason_only.
Qed.

Lemma run_balances {K} (P : (K -> Z) -> DashboardHandle -> Prop) (S : K -> Report) (good : K -> Prop) (ok : Command -> Prop) :
  (forall c h h' L, ok c -> (forall k, good k -> L k < 2 ^ 63) -> P L h -> perform c h = Done (h', tt) ->
                    P (fun k => L k + times (S k) (report_of h c)) h') ->
  (forall L L' h, (forall k, good k -> L k = L' k) -> P L h -> P L' h) ->
  forall cs h h' log L, Forall ok cs -> (forall k, good k -> L k + Z.of_nat (length cs) < 2 ^ 63) -> P L h ->
    run cs h = Done (h', log) -> P (fun k => L k + times (S k) log) h'.
Proof.
  intros Step Ext. induction cs as [|c cs IH]; intros h h' log L O LT B E; simpl in E.
  { injection E as <- <-. eapply Ext; [|exact B]. intros k _. symmetry. apply Z.add_0_r. }
  apply Forall_cons in O as [O1 O].
  destruct (perform c h) as [[h1 []]|] eqn:E1; [|done]. destruct (run cs h1) as [[h2 log2]|] eqn:E2; [|done].
  injection E as <- <-. eapply Ext; [|eapply IH; [exact O| |eapply Step; [exact O1| |exact B|exact E1]|exact E2]].
  - intros k _. rewrite times_app. lia.
  - intros k G. specialize (LT k G). simpl in LT. pose proof (times_le (S k) (report_of h c)).
    pose proof (report_of_length h c). lia.
  - intros k G. specialize (LT k G). lia.
Qed.

Lemma run_funnel cs h h' log L : Forall stage_ok cs ->
  (forall k, funnel_good k -> L k + Z.of_nat (length cs) < 2 ^ 63) -> funnel_balanced L h ->
  run cs h = Done (h', log) -> funnel_balanced (fun k => L k + times (FunnelReport k) log) h'.
Proof.
  apply (run_balances (fun L h => funnel_balanced L h) FunnelReport funnel_good stage_ok).
  - intros c h1 h2 L1 _ LT B E. exact (funnel_step c h1 h2 L1 LT B E).
  - intros L1 L2 h1 E B. exact (balanced_conseq _ _ _ _ _ _ _ _ _ L1 L2 h1 E B).
Qed.
Lemma run_reason cs h h' log L : Forall stage_ok cs ->
  (forall k, reason_good k -> L k + Z.of_nat (length cs) < 2 ^ 63) -> reason_balanced L h ->
  run cs h = Done (h', log) -> reason_balanced (fun k => L k + times (ReasonReport k) log) h'.
Proof.
  apply (run_balances (fun L h => reason_balanced L h) ReasonReport reason_good stage_ok).
  - intros c h1 h2 L1 O LT B E. exact (reason_step c h1 h2 L1 LT B E O).
  - intros L1 L2 h1 E B. exact (balanced_conseq _ _ _ _ _ _ _ _ _ L1 L2 h1 E B).
Qed.
End Reports.

Section Totals.
Context `{Database, Chrono, Files, Panel}.

Lemma run_total cs h : exists h' log, run cs h = Done (h', log).
Proof.
  revert h. induction cs as [|c cs IH]; intros h; simpl; [by eexists _, _|].
  destruct (perform_total c h) as (h1 & [] & ->). destruct (IH h1) as (h2 & log & ->). by eexists _, _.
Qed.
Lemma run_steps cs h h' log : run cs h = Done (h', log) -> rtc stepped h h'.
Proof.
  revert h log. induction cs as [|c cs IH]; intros h log E; simpl in E; [injection E as <- <-; constructor|].
  destruct (perform c h) as [[h1 []]|] eqn:E1; [|done]. destruct (run cs h1) as [[h2 log2]|] eqn:E2; [|done].
  injection E as <- <-. eapply rtc_l; [by exists c|by eapply IH].
Qed.
Lemma flush_empties h h' : perform Flush h = Done (h', tt) -> dh_pending h' = PendingStorageWrites_default.
Proof.
  intros E. set (p := dh_pending h) in *.
  change (flush_pending p (h <[ dh_pending ::= PendingStorageWrites_default ]>) = Done (h', tt)) in E.
  assert (F : frame dh_pending (flush_pending p)) by frame. by destruct (F _ _ _ E) as [-> _].
Qed.
Lemma run_ends_flushed cs h h' log :
  run cs h = Done (h', log) -> last cs = Some Flush -> dh_pending h' = PendingStorageWrites_default.
Proof.
  revert h log. induction cs as [|c cs IH]; intros h log E L; [done|]. simpl in E.
  destruct (perform c h) as [[h1 []]|] eqn:E1; [|done]. destruct (run cs h1) as [[h2 log2]|] eqn:E2; [|done].
  injection E as <- <-. destruct cs as [|c' cs]; [|by eapply IH].
  injection L as ->. injection E2 as <- <-. by eapply flush_empties.
Qed.

(** C34: any sequence of calls on a fresh handle ends, and flushing empties the
    buffers; per minute and stage of the funnel, and per reason of rejection, the
    table and the writes gathered for it hold together no more than what was there
    and what was reported since; and exactly that, when the database answers and
    no flush found the minute too old: what is taken from the buffers is neither
    lost nor written twice. *)
Theorem reports_reach_the_tables cs h0 :
  let net := network (dh_storage h0) in
  let funnel (h : DashboardHandle) k := stored (funnel_rollups (tables (dh_storage h))) k in
  let reasons (h : DashboardHandle) k := stored (reject_reason_rollups (tables (dh_storage h))) k in
  (forall n, no_bar (bucket_minute n)) -> Forall stage_ok cs ->
  dh_pending h0 = PendingStorageWrites_default ->
  (forall k, 0 <= funnel h0 k /\ funnel h0 k + Z.of_nat (length cs) < 2 ^ 63) ->
  (forall k, 0 <= reasons h0 k /\ reasons h0 k + Z.of_nat (length cs) < 2 ^ 63) ->
  exists h log, run cs h0 = Done (h, log) /\
    (last cs = Some Flush -> dh_pending h = PendingStorageWrites_default) /\
    forall bucket stage reason, no_bar bucket -> no_bar stage ->
      let k := (net, bucket, stage) in
      let held := funnel h k + waiting pw_funnel_rollups (funnel_key net) ct_count funnel_text h k in
      let k' := (net, bucket, stage, reason) in
      let held' := reasons h k' + waiting pw_reject_reason_rollups (reason_key net) rj_count reason_text h k' in
      (held <= funnel h0 k + times (FunnelReport k) log /\ held' <= reasons h0 k' + times (ReasonReport k') log) /\
      (all_answer -> unpruned (dh_readings h) bucket ->
       held = funnel h0 k + times (FunnelReport k) log /\ held' = reasons h0 k' + times (ReasonReport k') log).
Proof.
  intros net funnel reasons BB SO P0 F0 R0. destruct (run_total cs h0) as (h & log & E).
  exists h, log. split; [exact E|]. split; [by eapply run_ends_flushed|]. intros bucket stage reason B S. cbv zeta.
  destruct (run_funnel net (dh_readings h) BB cs h0 h log (funnel h0) SO) as (_ & _ & BF);
    [intros k _; by apply F0| |exact E|].
  { apply balanced_start; [done..|exact P0|intros k _; by apply F0]. }
  destruct (run_reason net (dh_readings h) BB cs h0 h log (reasons h0) SO) as (_ & _ & BR);
    [intros k _; by apply R0| |exact E|].
  { apply balanced_start; [done..|exact P0|intros k _; by apply R0]. }
  destruct (BF (net, bucket, stage)) as [F1 F2]; [done|].
  destruct (BR (net, bucket, stage, reason)) as [R1 R2]; [done|].
  split; [split; [exact F1|exact R1]|]. intros A U. split; [exact (F2 U A (le_n _))|exact (R2 U A (le_n _))].
Qed.

(** C35: what the dashboard holds, whatever is called on a handle from [new]: at
    most fifty events, twelve entries of the treasury's trail and twelve outcomes;
    the treasury's signal is that of the head of the trail; the samples are at most
    fifty, headed by the last, and counted once, as ready or as blocked; at most
    twenty unsupported selectors and eight reasons, falling by their counts, and
    like the metrics one for each key. *)
Theorem dashboard_state_ok config wallets keys dups invalid storage rpc files start now h0 h :
  new config wallets keys dups invalid storage rpc files start now = Done h0 -> rtc stepped h0 h ->
  state_ok (dh_inner h).
Proof. intros E R. eapply reachable_keeps; [by eapply new_keeps|exact R]. Qed.
End Totals.

(** ** A concrete run *)

#[local] Existing Instances in_memory by_number working_files steady_clocks.

Lemma no_bar_minute n : no_bar (bucket_minute n).
Proof. apply all_chars_show; [apply Z.le_max_l|]. intros y. unfold pretty_N_char. by repeat case_match. Qed.

Definition sample_commands : list Command :=
  [Funnel "decode_pass"; Reason "decode" "bad"; Flush; Funnel "decode_pass"; Flush].
(** The handle at the start and what the commands make of it. *)
Definition sample_run (cs : list Command) : option (DashboardHandle * DashboardHandle * list Report) :=
  match sample_new with
  | Done h0 => match run cs h0 with Done (h, log) => Some (h0, h, log) | Panicked => None end
  | Panicked => None
  end.
Lemma sample_run_inv cs h0 h log :
  sample_run cs = Some (h0, h, log) -> sample_new = Done h0 /\ run cs h0 = Done (h, log).
Proof.
  unfold sample_run. destruct sample_new as [h1|]; [|done]. destruct (run cs h1) as [[h2 l]|] eqn:E; [|done].
  intros [= <- <- <-]. done.
Qed.

Lemma reports_reach_the_tables_witness :
  match sample_run sample_commands with
  | Some (h0, h, log) =>
      dh_pending h = PendingStorageWrites_default /\
      stored (funnel_rollups (tables (dh_storage h))) ("ethereum", "0", "decode_pass") = 1
  | None => False
  end.
Proof.
  assert (V : match sample_run sample_commands with
    | Some (h0, h, log) => dh_pending h0 = PendingStorageWrites_default /\ network (dh_storage h0) = "ethereum"
        /\ funnel_rollups (tables (dh_storage h0)) = ∅ /\ reject_reason_rollups (tables (dh_storage h0)) = ∅
        /\ dh_readings h = 9%nat /\ times (FunnelReport ("ethereum", "0", "decode_pass")) log = 1
    | None => False end) by (vm_compute; split_and!; reflexivity).
  destruct (sample_run sample_commands) as [[[h0 h] log]|] eqn:R; [|done].
  destruct V as (P & N & F & Re & I & T). apply sample_run_inv in R as [_ R].
  destruct (reports_reach_the_tables sample_commands h0) as (h' & log' & R' & D & B); [exact no_bar_minute| |exact P|..].
  - repeat constructor.
  - intros k. rewrite F. unfold stored. rewrite lookup_empty. simpl. lia.
  - intros k. rewrite Re. unfold stored. rewrite lookup_empty. simpl. lia.
  - rewrite R in R'. injection R' as <- <-. specialize (D eq_refl). split; [exact D|].
    destruct (B "0" "decode_pass" "") as [_ X]; [done..|]. destruct X as [X _].
    + intros n. done.
    + intros i L. rewrite I in L. do 9 (destruct i as [|i]; [by vm_compute|]). lia.
    + rewrite N, F in X. unfold waiting in X. rewrite D in X. rewrite T in X.
      unfold stored at 2 in X. rewrite lookup_empty in X. simpl in X. rewrite Z.add_0_r in X. exact X.
Defined.

Lemma dashboard_state_ok_witness :
  match sample_run sample_commands with Some (_, h, _) => state_ok (dh_inner h) | None => False end.
Proof.
  assert (V : match sample_run sample_commands with Some _ => True | None => False end) by (vm_compute; exact I).
  destruct (sample_run sample_commands) as [[[h0 h] log]|] eqn:R; [|exact V].
  apply sample_run_inv in R as [E R]. apply run_steps in R.
  exact (dashboard_state_ok _ _ _ _ _ _ _ _ _ _ h0 h E R).
Defined.
