(* ===== verification/DashboardFigures.v ===== *)
(** * The figures of the dashboard

    The metrics of latencies over any durations, the breakdown of the reasons of
    rejection, and which reasons are shown. *)
From S2P Require Import Prelude F64 Text TextFacts Rpc Payload Storage Telemetry Dashboard DashboardHandle DashboardFacts DashboardShown DashboardSample DashboardProps.
#[local] Open Scope string_scope.
#[local] Open Scope Z_scope.

(** ** Latencies *)

Definition total_of (ds : list Z) : Z := foldr Z.add 0 ds.
#[export] Instance total_of_perm : Proper ((≡ₚ) ==> eq) total_of.
Proof. intros l l' P. unfold total_of. induction P; simpl; lia. Qed.
Definition greatest (ds : list Z) : Z := foldr Z.max 0 ds.
(** The metrics after durations of one stage, from none. *)
Definition measured (stage : string) (ds : list Z) : list LatencyMetric :=
  foldl (fun metrics d => upsert_latency_metric stage d metrics) [] ds.

Lemma total_of_snoc ds d : total_of (ds ++ [d]) = total_of ds + d.
Proof. unfold total_of. induction ds; simpl; lia. Qed.
Lemma greatest_snoc ds d : 0 <= d -> greatest (ds ++ [d]) = Z.max (greatest ds) d.
Proof. unfold greatest. intros D. induction ds; simpl; lia. Qed.
Lemma greatest_bounds ds : Forall (fun d => 0 <= d <= U64_MAX) ds -> 0 <= greatest ds <= U64_MAX.
Proof. unfold greatest. induction 1; simpl; [unfold U64_MAX|]; lia. Qed.

(** The metric of [ds]: its average is below the mean by less than half the
    number of samples. *)
Definition metric_of (stage : string) (ds : list Z) (avg : Z) : LatencyMetric :=
  {| lm_stage := stage; lm_samples := Z.of_nat (length ds); lm_last_ms := last ds; lm_avg_ms := Some avg;
     lm_max_ms := Some (greatest ds) |}.
Definition near_mean (ds : list Z) (avg : Z) : Prop :=
  let n := Z.of_nat (length ds) in
  0 <= avg <= greatest ds /\ avg * n <= total_of ds /\ 2 * (total_of ds - avg * n) <= n * (n - 1).

Lemma measured_snoc stage ds d : measured stage (ds ++ [d]) = upsert_latency_metric stage d (measured stage ds).
Proof. unfold measured. by rewrite foldl_app. Qed.
Lemma upsert_metric stage ds d avg :
  ds <> [] -> Forall (fun d => 0 <= d <= U64_MAX) (ds ++ [d]) -> Z.of_nat (length ds) < U64_MAX ->
  0 <= avg <= greatest ds ->
  upsert_latency_metric stage d [metric_of stage ds avg]
  = [metric_of stage (ds ++ [d]) ((avg * Z.of_nat (length ds) + d) / (Z.of_nat (length ds) + 1))].
Proof.
  intros N F S A. apply Forall_app in F as [F Fd]. apply Forall_cons in Fd as [D _].
  pose proof (greatest_bounds ds F) as G.
  unfold upsert_latency_metric. simpl. rewrite string_eqb_same. simpl. f_equal. unfold metric_of.
  assert (B : bump (Z.of_nat (length ds)) = Z.of_nat (length ds) + 1).
  { unfold bump, u64_sadd. apply sat_add_small; lia. }
  rewrite B, greatest_snoc, last_snoc, length_app by lia. simpl.
  f_equal; try lia. f_equal. unfold wrap128. replace (Z.of_nat (length ds) + 1 - 1) with (Z.of_nat (length ds)) by lia.
  rewrite (Z.mod_small (avg * _)), Z.mod_small; [done| |]; unfold U64_MAX in *; nia.
Qed.

Lemma near_mean_snoc ds d avg :
  Forall (fun d => 0 <= d <= U64_MAX) (ds ++ [d]) -> ds <> [] -> near_mean ds avg ->
  near_mean (ds ++ [d]) ((avg * Z.of_nat (length ds) + d) / (Z.of_nat (length ds) + 1)).
Proof.
  intros F N (A & L & U). apply Forall_app in F as [F Fd]. apply Forall_cons in Fd as [D _].
  assert (0 < Z.of_nat (length ds)) by (destruct ds; [done|simpl; lia]).
  unfold near_mean. cbv zeta. rewrite total_of_snoc, greatest_snoc, length_app by lia. simpl.
  replace (Z.of_nat (length ds + 1)) with (Z.of_nat (length ds) + 1) by lia.
  set (n := Z.of_nat (length ds)) in *.
  pose proof (Z.div_mod (avg * n + d) (n + 1) ltac:(lia)) as E.
  pose proof (Z.mod_pos_bound (avg * n + d) (n + 1) ltac:(lia)) as M.
  set (q := (avg * n + d) / (n + 1)) in *. split; [|nia]. split; [apply Z.div_pos; nia|].
  apply Z.div_le_upper_bound; nia.
Qed.

(** After any durations of a stage the metric counts them, and gives the last
    and the greatest; the average is never above the mean, and below it by less
    than half the number of samples, since each division drops its remainder. So it
    sticks: after [n] samples, a duration that is less than [n + 1] above the
    average does not raise it. *)
Theorem latency_averages_stick stage ds :
  ds <> [] -> Forall (fun d => 0 <= d <= U64_MAX) ds -> Z.of_nat (length ds) < U64_MAX ->
  exists avg, measured stage ds = [metric_of stage ds avg] /\ near_mean ds avg /\
    forall d, 0 <= d <= U64_MAX -> d < avg + Z.of_nat (length ds) + 1 ->
      exists avg', measured stage (ds ++ [d]) = [metric_of stage (ds ++ [d]) avg'] /\ avg' <= avg.
Proof.
  induction ds as [|d ds IH] using rev_ind; [done|]. intros _ F S.
  assert (X : exists avg, measured stage (ds ++ [d]) = [metric_of stage (ds ++ [d]) avg] /\ near_mean (ds ++ [d]) avg).
  { apply Forall_app in F as F'; destruct F' as [F1 Fd]. apply Forall_cons in Fd as [D _]. rewrite length_app in S. simpl in S.
    destruct (decide (ds = [])) as [->|N].
    - exists d. split.
      + unfold measured, metric_of, upsert_latency_metric, greatest. simpl. repeat f_equal. lia.
      + unfold near_mean, greatest, total_of. simpl. lia.
    - destruct IH as (avg & E & B & _); [done..|lia|]. eexists. split.
      + rewrite measured_snoc, E. apply upsert_metric; [done..|lia|apply B].
      + by apply near_mean_snoc. }
  destruct X as (avg & E & B). exists avg. split_and!; [done..|]. intros e D L.
  eexists. split.
  - rewrite measured_snoc, E. apply upsert_metric; [by destruct ds| |done|apply B].
    apply Forall_app. split; [done|]. by constructor.
  - set (n := Z.of_nat _) in *. assert (0 <= n) by lia. apply Z.lt_succ_r. apply Z.div_lt_upper_bound; nia.
Qed.
Lemma latency_averages_stick_witness :
  exists avg, measured "quote" [3; 9] = [metric_of "quote" [3; 9] avg] /\ near_mean [3; 9] avg /\
    forall d, 0 <= d <= U64_MAX -> d < avg + 2 + 1 ->
      exists avg', measured "quote" [3; 9; d] = [metric_of "quote" [3; 9; d] avg'] /\ avg' <= avg.
Proof.
  apply (latency_averages_stick "quote" [3; 9]); [done| |vm_compute; done].
  repeat constructor; vm_compute; congruence.
Defined.

(** ** The reasons shown *)

Section Shown.
Context {A : Type} (count : A -> Z).

(** What counts no more than the others goes behind them, and a list that falls
    is its own sorting. *)
Lemma insert_by_behind x l y : count y <= count x ->
  insert_by (by_count_desc count) x (l ++ [y]) = (insert_by (by_count_desc count) x l ++ [y])%list.
Proof.
  intros C. induction l as [|z l IH]; simpl.
  - unfold by_count_desc. by destruct (Z.compare_spec (count y) (count x)); try lia.
  - destruct (by_count_desc count x z); [done..|]. simpl. by rewrite IH.
Qed.
Lemma sort_by_behind l y : Forall (fun x => count y <= count x) l ->
  sort_by (by_count_desc count) (l ++ [y]) = (sort_by (by_count_desc count) l ++ [y])%list.
Proof. induction 1 as [|x l C _ IH]; simpl; [done|]. by rewrite IH, insert_by_behind. Qed.
Lemma sort_falls l : falls count l -> sort_by (by_count_desc count) l = l.
Proof.
  unfold falls. induction l as [|x l IH]; [done|]. intros [F S]%sorted_keys_cons. simpl. rewrite IH by done.
  destruct l as [|y l]; [done|]. simpl. specialize (F y ltac:(left)). simpl in F.
  unfold by_count_desc. by destruct (Z.compare_spec (count y) (count x)); try lia.
Qed.
End Shown.

Definition reason_name (r : RejectReasonSnapshot) : string * string := (rr_stage r, rr_reason r).
Lemma update_first_Some {A} p f (l l' : list A) : update_first p f l = Some l' -> exists x, x ∈ l /\ p x = true.
Proof.
  revert l'. induction l as [|x l IH]; intros l' E; simpl in E; [done|]. destruct (p x) eqn:Px; [exists x; split; [left|done]|].
  destruct (update_first p f l) as [l1|]; [|done]. destruct (IH l1 eq_refl) as (y & Hy & Py). exists y. split; [by right|done].
Qed.
Lemma full_reasons_stay stage reason l : reasons_ok l -> length l = 8%nat ->
  reason_name <$> count_reason stage reason l ≡ₚ reason_name <$> l
  /\ ((stage, reason) ∉ reason_name <$> l -> count_reason stage reason l = l).
Proof.
  intros [L O C K] E. unfold count_reason. cbv zeta. destruct (update_first _ _ l) as [l'|] eqn:U.
  - assert (K' : reason_name <$> l' = reason_name <$> l) by by eapply update_first_keys; [|exact U].
    assert (length l' = 8%nat) by (rewrite <- E, <- (length_fmap reason_name l), <- K', length_fmap; done).
    rewrite take_ge by (rewrite sort_by_perm; lia). split; [by rewrite sort_by_perm, K'|].
    intros N. apply update_first_Some in U as (x & Hx & P). apply andb_true_iff in P as [P1 P2].
    apply string_eqb_true in P1, P2. exfalso. apply N. apply list_elem_of_fmap. exists x. split; [|done].
    unfold reason_name. congruence.
  - rewrite sort_by_behind by (eapply Forall_impl; [exact C|]; simpl; lia).
    rewrite sort_falls by done. by rewrite take_app_length' by done.
Qed.

Section Full.
Context `{Database, Chrono, Files, Panel}.
Definition reasons_shown (h : DashboardHandle) : list RejectReasonSnapshot := ds_reject_reasons (dh_inner h).

Lemma reasons_frame c : (forall stage reason, c <> Reason stage reason) -> frame reasons_shown (perform c).
Proof. intros N. destruct c; try (exfalso; exact (N _ _ eq_refl)); cbn [perform]; frame. Qed.
Lemma full_reasons_step h h' : state_ok (dh_inner h) -> length (reasons_shown h) = 8%nat -> stepped h h' ->
  reason_name <$> reasons_shown h' ≡ₚ reason_name <$> reasons_shown h.
Proof.
  intros I L [c E].
  assert (C : (exists stage reason, c = Reason stage reason) \/ forall stage reason, c <> Reason stage reason)
    by (destruct c; eauto; by right).
  destruct C as [(stage & reason & ->)|N]; [|by destruct (reasons_frame c N _ _ _ E) as [-> _]].
  cbn [perform] in E. unfold record_reject_reason in E.
  assert (E' : reasons_shown h' = count_reason stage reason (reasons_shown h)).
  { destruct (storage_rollups_enabled _); by injection E as <-. }
  rewrite E'. by apply full_reasons_stay; [apply I|].
Qed.

(** Once the dashboard shows eight reasons of rejection, it shows these eight
    for good: whatever is called, and however often another reason is reported,
    which counts from one at each report and is cut off again. *)
Theorem eight_reasons_for_good config wallets keys dups invalid storage rpc files start now h0 h h' :
  new config wallets keys dups invalid storage rpc files start now = Done h0 ->
  rtc stepped h0 h -> length (reasons_shown h) = 8%nat -> rtc stepped h h' ->
  reason_name <$> reasons_shown h' ≡ₚ reason_name <$> reasons_shown h /\
  forall stage reason, (stage, reason) ∉ reason_name <$> reasons_shown h ->
    count_reason stage reason (reasons_shown h') = reasons_shown h'.
Proof.
  intros E R L R'. apply new_keeps in E. apply reachable_keeps in R; [|done].
  assert (P : state_ok (dh_inner h') /\ reason_name <$> reasons_shown h' ≡ₚ reason_name <$> reasons_shown h).
  { induction R' as [h|h h1 h' S _ IH]; [done|].
    pose proof (full_reasons_step _ _ R L S) as P1. destruct S as [c E1].
    destruct IH as [I P]; [exact (perform_keeps c _ _ _ R E1)| |].
    - rewrite <- (length_fmap reason_name), P1, length_fmap. exact L.
    - split; [done|]. by rewrite P. }
  destruct P as [I P]. split; [done|]. intros stage reason N. apply full_reasons_stay; [apply I| |by rewrite P].
  by rewrite <- (length_fmap reason_name), P, length_fmap.
Qed.
End Full.

(** ** The breakdown *)

Definition category_of (r : RejectReasonSnapshot) : string := reject_breakdown_category (rr_stage r) (rr_reason r).
Definition in_category (c : string) (l : list RejectReasonSnapshot) : list RejectReasonSnapshot :=
  filter (fun r => category_of r = c) l.
Definition counted (l : list RejectReasonSnapshot) : Z := total_of (rr_count <$> l).
Definition categories : list string :=
  ["gas_cap"; "economic_no_edge"; "price_impact"; "decode_fail"; "adaptive_quote"; "submit"; "preflight"; "other"].
Lemma category_of_listed r : category_of r ∈ categories.
Proof. unfold category_of, reject_breakdown_category. cbv zeta. repeat case_match; unfold categories; set_solver. Qed.

(** A bucket of the reasons [l] of its category: their count, and one of the
    greatest count. *)
Definition bucket_ok (l : list RejectReasonSnapshot) (b : Bucket) : Prop :=
  b.1.1 = counted l /\
  exists r, r ∈ l /\ b.1.2 = rr_stage r +:+ ":" +:+ rr_reason r /\ b.2 = rr_count r
            /\ Forall (fun r' => rr_count r' <= rr_count r) l.
Lemma in_category_snoc c l r :
  in_category c (l ++ [r]) = (in_category c l ++ if decide (category_of r = c) then [r] else [])%list.
Proof. unfold in_category. rewrite filter_app, filter_cons. by case_decide. Qed.
Lemma counted_app l l' : counted (l ++ l') = counted l + counted l'.
Proof. unfold counted, total_of. induction l as [|x l IH]; csimpl; [done|]. rewrite IH. lia. Qed.
Lemma counted_nonneg l : Forall (fun r => 0 <= rr_count r) l -> 0 <= counted l.
Proof. unfold counted, total_of. induction 1; csimpl; lia. Qed.
Lemma counted_category c l : Forall (fun r => 0 <= rr_count r) l -> 0 <= counted (in_category c l) <= counted l.
Proof.
  unfold in_category. induction 1 as [|r l P _ IH]; [done|]. rewrite filter_cons.
  unfold counted, total_of in *. case_decide; csimpl; lia.
Qed.

Lemma buckets_spec l c :
  Forall (fun r => 0 <= rr_count r) l -> counted l <= U64_MAX ->
  match foldl add_to_bucket ∅ l !! c with
  | None => in_category c l = []
  | Some b => bucket_ok (in_category c l) b
  end.
Proof.
  induction l as [|r l IH] using rev_ind; intros P M; [done|].
  apply Forall_app in P as [P Pr]. apply Forall_cons in Pr as [Pr _]. rewrite counted_app in M.
  assert (counted [r] = rr_count r) as R by (unfold counted, total_of; simpl; lia).
  rewrite foldl_app. simpl. specialize (IH P ltac:(lia)). set (m := foldl add_to_bucket ∅ l) in *. unfold add_to_bucket.
  change (reject_breakdown_category (rr_stage r) (rr_reason r)) with (category_of r).
  rewrite in_category_snoc. destruct (decide (category_of r = c)) as [->|N].
  2: { destruct (default _ _) as [[count top] top_count]. rewrite lookup_insert_ne, app_nil_r by done. exact IH. }
  pose proof (counted_category c l P) as B.
  destruct (m !! c) as [[[count top] top_count]|]; simpl in *; rewrite lookup_insert_eq.
  - destruct IH as (C & r0 & Hr0 & T & K & G). simpl in *. subst.
    assert (S : u64_sadd (counted (in_category c l)) (rr_count r) = counted (in_category c l ++ [r])).
    { rewrite counted_app, R. apply sat_add_small. lia. }
    rewrite S. destruct (Z.leb_spec (rr_count r0) (rr_count r)); (split; [done|]); simpl.
    + exists r. split_and!; [set_solver|done..|]. apply Forall_app. split; [|by constructor].
      eapply Forall_impl; [exact G|]. simpl. lia.
    + exists r0. split_and!; [set_solver|done..|]. apply Forall_app. split; [done|]. constructor; [lia|constructor].
  - rewrite IH. assert (S : u64_sadd 0 (rr_count r) = rr_count r) by (apply (sat_add_small _ 0); lia). rewrite S.
    apply Z.leb_le in Pr as ->. split; [done|]. exists r. split_and!; [set_solver|done..|by constructor].
Qed.

(** The rows of the breakdown, before they are sorted. *)
Definition row_of (total : Z) (kv : string * Bucket) : RejectBreakdownSnapshot :=
  {| rb_category := kv.1; rb_count := kv.2.1.1; rb_pct := (f64_of_Z kv.2.1.1 / f64_of_Z total * 100.0)%f64;
     rb_top_reason := kv.2.1.2 |}.

Section Breakdown.
Context `{Database}.

Lemma breakdown_rows l :
  exists total, build_reject_breakdown l = take 8 (sort_by (by_count_desc rb_count) (row_of total <$> listing (foldl add_to_bucket ∅ l))).
Proof.
  unfold build_reject_breakdown. cbv zeta. eexists. do 2 f_equal. apply list_fmap_ext.
  intros _ [category [[count top] k]] _. done.
Qed.
Lemma bucket_dom l : dom (foldl add_to_bucket ∅ l) ⊆ (list_to_set categories : gset string).
Proof.
  induction l as [|r l IH] using rev_ind; [set_solver|]. rewrite foldl_app. simpl.
  set (m := foldl add_to_bucket ∅ l) in *. unfold add_to_bucket.
  destruct (default _ _) as [[count top] k]. rewrite dom_insert. pose proof (category_of_listed r) as C.
  unfold category_of in C. set_solver.
Qed.
Lemma breakdown_size l : (length (listing (foldl add_to_bucket ∅ l)) <= 8)%nat.
Proof.
  rewrite listing_perm. rewrite length_map_to_list. rewrite <- size_dom.
  etransitivity; [apply subseteq_size, bucket_dom|]. vm_compute. lia.
Qed.
Lemma breakdown_perm l : exists total, build_reject_breakdown l ≡ₚ row_of total <$> map_to_list (foldl add_to_bucket ∅ l).
Proof.
  destruct (breakdown_rows l) as [total E]. exists total. rewrite E.
  rewrite take_ge by (rewrite sort_by_perm, length_fmap; apply breakdown_size).
  by rewrite sort_by_perm, listing_perm.
Qed.
Lemma in_category_other c c' l :
  in_category c' (filter (fun r => category_of r <> c) l) = if decide (c' = c) then [] else in_category c' l.
Proof.
  unfold in_category. induction l as [|r l IH]; [by case_decide|].
  rewrite !filter_cons. destruct (decide (category_of r <> c)) as [E|E].
  - rewrite filter_cons, IH. by repeat case_decide; try congruence.
  - apply dec_stable in E. rewrite IH. by repeat case_decide; try congruence.
Qed.
Lemma counted_split (m : gmap string Bucket) l :
  (forall c, match m !! c with None => in_category c l = [] | Some b => bucket_ok (in_category c l) b end) ->
  total_of ((fun kv : string * Bucket => kv.2.1.1) <$> map_to_list m) = counted l.
Proof.
  revert l. induction m as [|c b m N IH] using map_ind; intros l S.
  - rewrite map_to_list_empty. destruct l as [|r l]; [done|]. specialize (S (category_of r)).
    unfold in_category in S. rewrite lookup_empty, filter_cons, decide_True in S by done. done.
  - rewrite map_to_list_insert by done. change (total_of (_ <$> (c, b) :: map_to_list m))
      with (b.1.1 + total_of ((fun kv : string * Bucket => kv.2.1.1) <$> map_to_list m)).
    rewrite (IH (filter (fun r => category_of r <> c) l)).
    + pose proof (S c) as Sc. rewrite lookup_insert_eq in Sc. destruct Sc as [-> _].
      unfold counted, in_category, total_of. clear. induction l as [|r l IH]; [done|].
      rewrite !filter_cons. destruct (decide (category_of r = c)) as [E|E], (decide (category_of r <> c)); try done;
        csimpl; lia.
    + intros c'. specialize (S c'). rewrite in_category_other. case_decide as D; [by rewrite D, N|].
      by rewrite lookup_insert_ne in S by congruence.
Qed.
Lemma bucket_of_row l c b : Forall (fun r => 0 <= rr_count r) l -> counted l <= U64_MAX ->
  (c, b) ∈ map_to_list (foldl add_to_bucket ∅ l) -> bucket_ok (in_category c l) b.
Proof. intros P M Hb%elem_of_map_to_list. pose proof (buckets_spec l c P M) as S. by rewrite Hb in S. Qed.

(** The breakdown accounts for every reason shown: its rows are of different
    categories and fall by their counts, the counts sum to those of all reasons, a
    row counts the reasons of its category and names one of the greatest count,
    and no category that occurs is cut off. *)
Theorem breakdown_accounts l :
  Forall (fun r => 0 <= rr_count r) l -> counted l <= U64_MAX ->
  let rows := build_reject_breakdown l in
  falls rb_count rows /\ NoDup (rb_category <$> rows) /\ total_of (rb_count <$> rows) = counted l /\
  (forall row, row ∈ rows ->
     let reasons := in_category (rb_category row) l in
     rb_count row = counted reasons /\
     exists r, r ∈ reasons /\ rb_top_reason row = rr_stage r +:+ ":" +:+ rr_reason r
               /\ Forall (fun r' => rr_count r' <= rr_count r) reasons) /\
  (forall r, r ∈ l -> exists row, row ∈ rows /\ rb_category row = category_of r).
Proof.
  intros P M rows. destruct (breakdown_perm l) as [total E]. fold rows in E.
  set (m := foldl add_to_bucket ∅ l) in *. split_and!.
  - unfold rows. destruct (breakdown_rows l) as [t ->]. apply falls_take, sort_by_count.
  - rewrite E, <- list_fmap_compose. apply NoDup_fst_map_to_list.
  - rewrite E, <- list_fmap_compose. apply (counted_split m). intros c. by apply buckets_spec.
  - intros row Hr. rewrite E in Hr. apply list_elem_of_fmap in Hr as ([c b] & -> & Hb). simpl.
    destruct (bucket_of_row l c b P M Hb) as [C (r & Hr & T & _ & G)]. eauto.
  - intros r Hr. destruct (m !! category_of r) as [b|] eqn:Hb.
    + exists (row_of total (category_of r, b)). split; [|done]. rewrite E. apply list_elem_of_fmap_2, elem_of_map_to_list, Hb.
    + pose proof (buckets_spec l (category_of r) P M) as S. fold m in S. rewrite Hb in S.
      assert (r ∈ in_category (category_of r) l) by by apply list_elem_of_filter. rewrite S in *. set_solver.
Qed.
End Breakdown.

(** ** Concrete runs *)

#[local] Existing Instances in_memory by_number working_files steady_clocks.

Definition eight_reports : list Command := (fun i => Reason "preflight" (show_nat i)) <$> seq 0 8.
Lemma eight_reasons_for_good_witness :
  match sample_run eight_reports with
  | Some (_, h, _) =>
      length (reasons_shown h) = 8%nat /\
      match run (repeat (Reason "submit" "reverted") 20) h with
      | Done (h', _) => reason_name <$> reasons_shown h' ≡ₚ reason_name <$> reasons_shown h
      | Panicked => False
      end
  | None => False
  end.
Proof.
  assert (V : match sample_run eight_reports with
    | Some (_, h, _) => length (reasons_shown h) = 8%nat
    | None => False end) by (vm_compute; reflexivity).
  destruct (sample_run eight_reports) as [[[h0 h] log]|] eqn:R; [|exact V]. split; [exact V|].
  apply sample_run_inv in R as [E R]. apply run_steps in R.
  destruct (run_total (repeat (Reason "submit" "reverted") 20) h) as (h' & log' & R'). rewrite R'.
  exact (proj1 (eight_reasons_for_good _ _ _ _ _ _ _ _ _ _ h0 h h' E R V (run_steps _ _ _ _ R'))).
Defined.

Definition sample_reasons : list RejectReasonSnapshot :=
  [ {| rr_stage := "preflight"; rr_reason := "gas_price_cap"; rr_count := 7 |};
    {| rr_stage := "decode"; rr_reason := "selector_unsupported"; rr_count := 5 |};
    {| rr_stage := "preflight"; rr_reason := "gas_limit"; rr_count := 9 |} ].
Lemma breakdown_accounts_witness :
  total_of (rb_count <$> build_reject_breakdown sample_reasons) = 21 /\
  exists row, row ∈ build_reject_breakdown sample_reasons /\ rb_category row = "gas_cap" /\ rb_count row = 16
              /\ rb_top_reason row = "preflight:gas_limit".
Proof.
  destruct (breakdown_accounts sample_reasons) as (_ & _ & T & R & C);
    [repeat constructor; vm_compute; congruence|vm_compute; congruence|].
  split; [exact T|]. destruct (C {| rr_stage := "preflight"; rr_reason := "gas_limit"; rr_count := 9 |}) as (row & Hr & Cr).
  { apply list_elem_of_further, list_elem_of_further, list_elem_of_here. }
  assert (K : category_of {| rr_stage := "preflight"; rr_reason := "gas_limit"; rr_count := 9 |} = "gas_cap") by (vm_compute; reflexivity).
  assert (L : in_category "gas_cap" sample_reasons =
    [ {| rr_stage := "preflight"; rr_reason := "gas_price_cap"; rr_count := 7 |};
      {| rr_stage := "preflight"; rr_reason := "gas_limit"; rr_count := 9 |} ]) by (vm_compute; reflexivity).
  rewrite K in Cr. exists row. split; [exact Hr|]. destruct (R row Hr) as (N & r & I & Tr & G). rewrite Cr, L in N, I, G.
  rewrite Cr.
  split_and!; [reflexivity|exact N|]. rewrite Tr.
  apply Forall_cons in G as [_ G]. apply Forall_cons in G as [G _]. simpl in G.
  apply elem_of_cons in I as [->|I]; [simpl in G; lia|]. by apply list_elem_of_singleton in I as ->.
Defined.
