(* ===== verification/DashboardControl.v ===== *)
(** * The control plane and the observer

    What requests of the server do to the mode and the thresholds the runtime
    reads, and what the observer's reports can say. *)
From S2P Require Import Prelude F64 Text Ethers Config ConfigEnv Rpc RpcFacts Payload Storage Telemetry Dashboard DashboardHandle DashboardFacts DashboardShown DashboardSample DashboardProps.
#[local] Open Scope string_scope.
#[local] Open Scope Z_scope.

(** ** Thresholds and mode *)

Definition values (t : OpportunityThresholds) : list f64 :=
  [th_min_large_swap_eth t; th_min_net_profit_eth t; th_min_profit_usd t; th_min_liquidity_eth t].
Definition positive (t : OpportunityThresholds) : Prop := Forall (fun x => (0.0 <? x)%f64 = true) (values t).
(** What the code's comparisons with zero let pass: a NaN too. *)
Definition acceptable (t : OpportunityThresholds) : bool :=
  forallb (fun x => (0.0 <? x)%f64 || is_nan x) (values t).
(** A request without a NaN, as every request that was parsed from JSON is. *)
Definition numbers (request : OpportunityThresholdRequest) : Prop :=
  Forall (fun o => forall x, o = Some x -> is_nan x = false)
    [rq_min_large_swap_eth request; rq_min_net_profit_eth request; rq_min_profit_usd request;
     rq_min_liquidity_eth request].
(** The thresholds a request asks for. *)
Definition asked (request : OpportunityThresholdRequest) (current : OpportunityThresholds) : OpportunityThresholds :=
  {| th_min_large_swap_eth := default (th_min_large_swap_eth current) (rq_min_large_swap_eth request);
     th_min_net_profit_eth := default (th_min_net_profit_eth current) (rq_min_net_profit_eth request);
     th_min_profit_usd := default (th_min_profit_usd current) (rq_min_profit_usd request);
     th_min_liquidity_eth := default (th_min_liquidity_eth current) (rq_min_liquidity_eth request) |}.

Lemma not_above_zero x : negb (x <=? 0.0)%f64 = (0.0 <? x)%f64 || is_nan x.
Proof.
  destruct (is_nan x) eqn:N; [|rewrite orb_false_r, (fle_flt x 0.0 N eq_refl); by destruct (0.0 <? x)%f64].
  rewrite orb_true_r. destruct (x <=? 0.0)%f64 eqn:L; [|done]. apply fle_not_nan in L as [L _]. congruence.
Qed.
Lemma asked_positive request t :
  numbers request -> positive t -> acceptable (asked request t) = true -> positive (asked request t).
Proof.
  intros N P A. unfold acceptable in A. rewrite forallb_forall in A.
  assert (X : forall x, x ∈ values (asked request t) -> is_nan x = false -> (0.0 <? x)%f64 = true).
  { intros x I Nx. specialize (A x (proj1 (list_elem_of_In _ _) I)). by rewrite Nx, orb_false_r in A. }
  assert (D : forall o x, (forall y, o = Some y -> is_nan y = false) -> (0.0 <? x)%f64 = true ->
                          is_nan (default x o) = false).
  { intros [y|] x O L; [by apply O|]. simpl. by destruct x. }
  unfold numbers, positive, values in *. rewrite !Forall_cons in N. rewrite !Forall_cons in P. rewrite !Forall_cons.
  destruct N as (N1 & N2 & N3 & N4 & _), P as (P1 & P2 & P3 & P4 & _).
  split_and!; [apply X; [simpl; set_solver|by apply D]..|constructor].
Qed.

Section Control.
Context `{Database, Chrono, Files, Panel} (config : Config).

(** What the runtime reads. *)
Definition mode_read (h : DashboardHandle) : OpportunityMode := Config.opportunity_mode (mev (shared_config h config)).
Definition thresholds_read (h : DashboardHandle) : OpportunityThresholds :=
  Config.runtime_thresholds (mev (shared_config h config)).

Lemma event_total level message h :
  exists h', event level message h = Done (h', tt) /\ dh_opportunity_mode h' = dh_opportunity_mode h
             /\ dh_runtime_thresholds h' = dh_runtime_thresholds h.
Proof.
  destruct (perform_total (Event level message) h) as (h' & [] & E). exists h'. split; [exact E|].
  assert (F : frame (fun h => (dh_opportunity_mode h, dh_runtime_thresholds h)) (event level message)) by frame.
  destruct (F _ _ _ E) as [Q _]. by injection Q.
Qed.

Lemma thresholds_request request h t : dh_runtime_thresholds h = Some t ->
  exists h' status ok message t',
    set_opportunity_thresholds request h = Done (h', (status, (ok, message, t'))) /\
    if acceptable (asked request t)
    then status = OK /\ ok = true /\ t' = asked request t /\ dh_runtime_thresholds h' = Some (asked request t)
         /\ dh_opportunity_mode h' = dh_opportunity_mode h
    else status = BAD_REQUEST /\ ok = false /\ t' = t /\ h' = h.
Proof.
  intros T. unfold set_opportunity_thresholds. unfold mbind at 1, DashM_bind at 1, get. rewrite T. cbv zeta.
  change (default default_thresholds (Some t)) with t. fold (asked request t). set (next := asked request t).
  assert (C : (th_min_large_swap_eth next <=? 0.0)%f64 || (th_min_net_profit_eth next <=? 0.0)%f64
              || (th_min_profit_usd next <=? 0.0)%f64 || (th_min_liquidity_eth next <=? 0.0)%f64 = negb (acceptable next)).
  { unfold acceptable, values. cbn [forallb]. rewrite <- !not_above_zero. by do 4 destruct (_ <=? _)%f64. }
  rewrite C. destruct (acceptable next); cbn [negb].
  - unfold mbind, DashM_bind, write_thresholds, on_inner. cbv beta iota.
    match goal with |- context [event ?l ?m ?g] => destruct (event_total l m g) as (h' & -> & M & R) end.
    eexists h', _, _, _, _. split; [reflexivity|]. rewrite M, R. simpl. by rewrite T.
  - by eexists h, _, _, _, _.
Qed.
Lemma mode_request mode h m : dh_opportunity_mode h = Some m ->
  exists h' status ok message m',
    set_opportunity_mode mode h = Done (h', (status, (ok, m', message))) /\
    match parse_opportunity_mode mode with
    | inr asked => status = OK /\ ok = true /\ m' = mode_as_str asked /\ dh_opportunity_mode h' = Some asked
                   /\ dh_runtime_thresholds h' = dh_runtime_thresholds h
    | inl _ => status = BAD_REQUEST /\ ok = false /\ m' = mode_as_str m /\ h' = h
    end.
Proof.
  intros M. unfold set_opportunity_mode. destruct (parse_opportunity_mode mode) as [e|asked].
  - unfold mbind, DashM_bind, get. rewrite M. by eexists h, _, _, _, _.
  - unfold mbind, DashM_bind, write_mode, on_inner. cbv iota beta.
    match goal with |- context [event ?l ?m ?g] => destruct (event_total l m g) as (h' & -> & M' & R) end.
    eexists h', _, _, _, _. split; [reflexivity|]. rewrite M', R. simpl. by rewrite M.
Qed.

Lemma thresholds_frame c : (forall request, c <> Thresholds request) -> frame dh_runtime_thresholds (perform c).
Proof. intros N. destruct c; try (exfalso; exact (N _ eq_refl)); cbn [perform]; frame. Qed.
Lemma mode_frame c : (forall mode, c <> Mode mode) -> frame dh_opportunity_mode (perform c).
Proof. intros N. destruct c; try (exfalso; exact (N _ eq_refl)); cbn [perform]; frame. Qed.

(** The locks hold thresholds of which [P] holds, and a mode. *)
Definition locks_hold (P : OpportunityThresholds -> Prop) (h : DashboardHandle) : Prop :=
  (exists t, dh_runtime_thresholds h = Some t /\ P t) /\ is_Some (dh_opportunity_mode h).
Definition locks_ok : DashboardHandle -> Prop := locks_hold (fun t => acceptable t = true).
(** A step that is no request for a threshold that is a NaN. *)
Definition stepped_by_numbers (h h' : DashboardHandle) : Prop :=
  exists c, (forall request, c = Thresholds request -> numbers request) /\ perform c h = Done (h', tt).
Lemma ignore_inv {A} (m : DashM A) h h' : ignore m h = Done (h', tt) -> exists a, m h = Done (h', a).
Proof.
  unfold ignore, mbind, DashM_bind. destruct (m h) as [[h1 a]|]; [|done]. intros [= ->]. by exists a.
Qed.
Lemma locks_step (P : OpportunityThresholds -> Prop) c h h' :
  (forall request t, c = Thresholds request -> P t -> acceptable (asked request t) = true -> P (asked request t)) ->
  locks_hold P h -> perform c h = Done (h', tt) -> locks_hold P h'.
Proof.
  intros K [(t & T & Pt) [m M]] E. split.
  - assert (C : (exists request, c = Thresholds request) \/ forall request, c <> Thresholds request)
      by (destruct c; eauto; by right).
    destruct C as [[request ->]|N]; [|destruct (thresholds_frame c N _ _ _ E) as [-> _]; eauto].
    apply ignore_inv in E as [a E]. destruct (thresholds_request request h t T) as (h1 & s & ok & msg & t' & E' & R).
    rewrite E in E'. injection E' as -> ->. destruct (acceptable (asked request t)) eqn:A.
    + destruct R as (_ & _ & _ & -> & _). eauto.
    + destruct R as (_ & _ & _ & ->). eauto.
  - assert (C : (exists mode, c = Mode mode) \/ forall mode, c <> Mode mode) by (destruct c; eauto; by right).
    destruct C as [[mode ->]|N]; [|destruct (mode_frame c N _ _ _ E) as [-> _]; by exists m].
    apply ignore_inv in E as [a E]. destruct (mode_request mode h m M) as (h1 & s & ok & msg & t' & E' & R).
    rewrite E in E'. injection E' as -> ->. destruct (parse_opportunity_mode mode) as [e|asked].
    + destruct R as (_ & _ & _ & ->). by exists m.
    + destruct R as (_ & _ & _ & -> & _). eauto.
Qed.
Lemma locks_reachable h h' : locks_ok h -> rtc stepped h h' -> locks_ok h'.
Proof. intros L R. induction R as [|h h1 h2 [c E] _ IH]; [done|]. by eapply IH, locks_step. Qed.
Lemma positive_reachable h h' : locks_hold positive h -> rtc stepped_by_numbers h h' -> locks_hold positive h'.
Proof.
  intros L R. induction R as [|h h1 h2 (c & N & E) _ IH]; [done|]. eapply IH, locks_step; [|exact L|exact E].
  intros request t C. by apply asked_positive, N.
Qed.

(** C36: a request for thresholds answers with those it asks for, the others kept, and
    the runtime reads them from then on, when each of them is positive or a NaN, which
    the code's comparisons let pass; otherwise it changes nothing. So whatever is
    called, the thresholds the runtime reads stay positive or NaN, and as long as no
    request asks for a NaN those that were positive stay positive. A request for a
    mode is the mode read when its text names one, and otherwise changes nothing.
    Neither touches what the other is about. *)
Theorem requests_take_effect_or_nothing h0 h :
  locks_ok h0 -> rtc stepped h0 h ->
  acceptable (thresholds_read h) = true /\
  (positive (thresholds_read h0) -> rtc stepped_by_numbers h0 h -> positive (thresholds_read h)) /\
  (forall request, exists h' status ok message t,
     set_opportunity_thresholds request h = Done (h', (status, (ok, message, t))) /\
     if acceptable (asked request (thresholds_read h))
     then status = OK /\ ok = true /\ t = asked request (thresholds_read h) /\ thresholds_read h' = t
          /\ mode_read h' = mode_read h
     else status = BAD_REQUEST /\ ok = false /\ t = thresholds_read h /\ h' = h) /\
  (forall mode, exists h' status ok message m,
     set_opportunity_mode mode h = Done (h', (status, (ok, m, message))) /\
     match parse_opportunity_mode mode with
     | inr asked => status = OK /\ ok = true /\ m = mode_as_str asked /\ mode_read h' = asked
                    /\ thresholds_read h' = thresholds_read h
     | inl _ => status = BAD_REQUEST /\ ok = false /\ m = mode_as_str (mode_read h) /\ h' = h
     end).
Proof.
  intros L R. destruct (locks_reachable _ _ L R) as [(t & T & A) [m M]].
  assert (MR : forall g, mode_read g = default Conservative (dh_opportunity_mode g)) by done.
  assert (Tt : forall g u, dh_runtime_thresholds g = Some u -> thresholds_read g = u) by
    (intros g u E; unfold thresholds_read, Config.runtime_thresholds, shared_config; simpl; by rewrite E).
  rewrite (Tt _ _ T). split_and!; [done| | |].
  - destruct L as [(t0 & T0 & _) M0]. rewrite (Tt _ _ T0). intros P N.
    destruct (positive_reachable h0 h) as [(t' & T' & P') _]; [by split; [exists t0|]|exact N|].
    rewrite T in T'. by injection T' as ->.
  - intros request. destruct (thresholds_request request h t T) as (h' & status & ok & message & t' & E & C).
    exists h', status, ok, message, t'. split; [exact E|]. destruct (acceptable (asked request t)); [|done].
    destruct C as (-> & -> & -> & T' & M'). by rewrite (Tt _ _ T'), !MR, M'.
  - intros mode. destruct (mode_request mode h m M) as (h' & status & ok & message & m' & E & C).
    exists h', status, ok, message, m'. split; [exact E|]. destruct (parse_opportunity_mode mode) as [e|asked].
    + by rewrite MR, M.
    + destruct C as (-> & -> & -> & M' & T'). rewrite MR, M'. rewrite T in T'. by rewrite (Tt _ _ T').
Qed.
End Control.

(** ** The observer's reports *)

(** What a closed window reports. *)
Definition closed (r : ScavengerObserverReport) : Prop :=
  so_phase r = "completed" /\ so_status r ∈ ["READY"; "WATCH"; "NOT_READY"] /\ 15 * 60 <= so_observed_secs r /\
  2 <= so_sample_count r /\ so_last_completed r = None.
(** A window begins with its first sample, and its last one is within it. *)
Definition watching (ob : ScavengerObserver) : Prop :=
  (forall r, ob_last_completed ob = Some r -> closed r) /\
  match ob_samples ob with
  | [] => ob_current_started_at ob = None
  | first :: rest =>
      ob_current_started_at ob = Some (sm_observed_at first) /\
      exists latest, last (first :: rest) = Some latest /\ elapsed (sm_observed_at latest) (sm_observed_at first) < WINDOW
  end.

Lemma status_warming observed healthy avg fail hit edge decode :
  observed < 15 * 60 -> scavenger_status observed healthy avg fail hit edge decode = "WARMING".
Proof. intros O. unfold scavenger_status. by rewrite (proj2 (Z.leb_gt _ _) O), (proj2 (Z.ltb_lt _ _) O). Qed.
Lemma status_closed observed healthy avg fail hit edge decode :
  15 * 60 <= observed -> scavenger_status observed healthy avg fail hit edge decode ∈ ["READY"; "WATCH"; "NOT_READY"].
Proof.
  intros O. unfold scavenger_status. rewrite (proj2 (Z.ltb_ge _ _) O).
  repeat case_match; rewrite !elem_of_cons; auto.
Qed.
Lemma elapsed_nonneg a b : 0 <= elapsed a b.
Proof. unfold elapsed. lia. Qed.

Lemma push_watching now state ob : watching ob -> watching (push now state ob) /\ ob_samples (push now state ob) <> [].
Proof.
  intros [C S]. unfold push. cbv zeta.
  assert (W0 : elapsed now now < WINDOW) by (unfold elapsed, WINDOW; rewrite Z.sub_diag; simpl; lia).
  destruct (ob_samples ob) as [|first rest] eqn:E.
  - rewrite S. rewrite andb_false_r. split; [|done]. split; [exact C|]. simpl. eauto.
  - destruct S as [-> _]. simpl default. destruct ((WINDOW <=? _) && _) eqn:B; (split; [|by destruct rest]).
    + apply andb_true_iff in B as [B%Z.leb_le L%Nat.leb_le]. split; [|simpl; eauto].
      intros r [= <-]. unfold build_scavenger_report.
      replace (last _) with (Some (observe now state)) by (symmetry; exact (last_snoc _ (first :: rest))).
      change (head ((first :: rest) ++ [observe now state])) with (Some first). cbv iota beta.
      assert (O : 15 * 60 <= elapsed_secs now (sm_observed_at first)).
      { unfold elapsed_secs. apply Z.div_le_lower_bound; [by unfold secs|]. unfold WINDOW, secs in *. lia. }
      split_and!; [done| |exact O| |done].
      * unfold scavenger_report_of. cbv zeta. cbn [so_status]. by apply status_closed.
      * simpl. simpl in L. lia.
    + split; [exact C|]. simpl. split; [done|]. exists (observe now state). split; [exact (last_snoc _ (first :: rest))|].
      apply andb_false_iff in B as [B%Z.leb_gt|B]; [exact B|]. apply Nat.leb_gt in B. simpl in B. rewrite length_app in B. simpl in B. lia.
Qed.
Lemma watching_report ob : watching ob -> ob_samples ob <> [] ->
  so_status (report ob) = "WARMING" /\ so_phase (report ob) = "current" /\ so_last_completed (report ob) = ob_last_completed ob.
Proof.
  intros [C S] N. unfold report, build_scavenger_report. destruct (ob_samples ob) as [|first rest]; [done|].
  destruct S as [_ (latest & L & W)]. rewrite L. simpl head. cbv iota beta. split_and!; [|done..].
  unfold scavenger_report_of. cbv zeta. cbn [so_status]. apply status_warming.
  unfold elapsed_secs. apply Z.div_lt_upper_bound; [by unfold secs|]. unfold WINDOW, secs in *. lia.
Qed.

Section Observer.
Context `{Database, Chrono, Files, Panel}.

Lemma dash_bind_inv {A B} (m : DashM A) (f : A -> DashM B) h h' b :
  (m ≫= f) h = Done (h', b) -> exists h1 a, m h = Done (h1, a) /\ f a h1 = Done (h', b).
Proof. unfold mbind, DashM_bind. destruct (m h) as [[h1 a]|]; [eauto|done]. Qed.
(** A prefix that leaves the observer alone. *)
Definition observes (m : DashM DashboardState) : Prop :=
  forall h h' s, watching (dh_observer h) -> m h = Done (h', s) ->
    watching (dh_observer h') /\ ob_samples (dh_observer h') <> [] /\ ds_scavenger_observer s = report (dh_observer h').
Lemma observes_bind {A} (m : DashM A) f : frame dh_observer m -> (forall a, observes (f a)) -> observes (m ≫= f).
Proof.
  intros F O h h' s W (h1 & a & E1 & E2)%dash_bind_inv. eapply O; [|exact E2]. by destruct (F _ _ _ E1) as [-> _].
Qed.
Lemma snapshot_observes : observes snapshot.
Proof.
  unfold snapshot.
  repeat lazymatch goal with
    | |- observes (observe_scavenger_window _ ≫= _) => fail
    | |- observes (_ ≫= _) => apply observes_bind; [solve [frame]|intros ?; cbv zeta]
    end.
  intros h h' s W (h1 & o & E1 & E2)%dash_bind_inv. injection E2 as <- <-.
  unfold observe_scavenger_window in E1. apply dash_bind_inv in E1 as (h2 & now & E1 & E2).
  injection E1 as <- <-. apply dash_bind_inv in E2 as (h3 & [] & E1 & E2). injection E1 as <-. injection E2 as <- <-.
  simpl. match goal with |- context [push ?n ?st ?ob] => destruct (push_watching n st ob W) end. auto.
Qed.
Lemma observer_frame c : c <> Snapshot -> frame dh_observer (perform c).
Proof. intros N. destruct c; try done; cbn [perform]; frame. Qed.
Lemma watching_step h h' : watching (dh_observer h) -> stepped h h' -> watching (dh_observer h').
Proof.
  intros W [c E]. assert (C : c = Snapshot \/ c <> Snapshot) by (destruct c; auto).
  destruct C as [->|N]; [|by destruct (observer_frame c N _ _ _ E) as [-> _]].
  apply ignore_inv in E as [s E]. by destruct (snapshot_observes _ _ _ W E) as [W' _].
Qed.
Lemma new_observer config wallets keys dups invalid storage rpc files start now h :
  new config wallets keys dups invalid storage rpc files start now = Done h -> dh_observer h = ScavengerObserver_default.
Proof. unfold new. intros E. repeat (case_match; try done). by injection E as <-. Qed.

(** The report the dashboard shows as the current one is always warming up: its
    window is closed by the very sample that would complete it, so it says to wait
    for the cycle to close and never to deploy or not; the verdict is in the last
    completed report it carries, which is never warming up, and observed at least
    two samples over at least fifteen minutes. Every snapshot returns. *)
Theorem current_report_is_warming config wallets keys dups invalid storage rpc files start now h0 h :
  new config wallets keys dups invalid storage rpc files start now = Done h0 -> rtc stepped h0 h ->
  exists h' s, snapshot h = Done (h', s) /\
    so_status (ds_scavenger_observer s) = "WARMING" /\ so_phase (ds_scavenger_observer s) = "current" /\
    forall r, so_last_completed (ds_scavenger_observer s) = Some r -> closed r.
Proof.
  intros E R. apply new_observer in E.
  assert (W : watching (dh_observer h)).
  { assert (W0 : watching (dh_observer h0)) by by rewrite E. clear E. induction R; [done|]. by eapply IHR, watching_step. }
  destruct (perform_total Snapshot h) as (h' & [] & P). apply ignore_inv in P as [s P].
  exists h', s. split; [exact P|]. destruct (snapshot_observes _ _ _ W P) as (W' & N & ->).
  destruct (watching_report _ W' N) as (-> & -> & ->). split_and!; [done..|]. apply W'.
Qed.
End Observer.

(** ** Concrete runs *)

#[local] Existing Instances in_memory by_number working_files steady_clocks.

Definition some_thresholds (swap profit usd liquidity : option f64) : OpportunityThresholdRequest :=
  {| rq_min_large_swap_eth := swap; rq_min_net_profit_eth := profit; rq_min_profit_usd := usd;
     rq_min_liquidity_eth := liquidity |}.
Lemma requests_take_effect_or_nothing_witness :
  match sample_run [Mode "aggressive"] with
  | Some (_, h, _) =>
      let config := Config.sample_config Aggressive true [] in
      let h := h <[ dh_runtime_thresholds ::= Some default_thresholds ]> in
      (exists h' body, set_opportunity_thresholds (some_thresholds (Some 5.0) None None None)%f64 h = Done (h', (OK, body))
         /\ th_min_large_swap_eth (thresholds_read config h') = 5.0%f64) /\
      (exists h' body, set_opportunity_thresholds (some_thresholds None None None (Some 0.0))%f64 h
         = Done (h', (BAD_REQUEST, body)) /\ h' = h) /\
      (exists h' body, set_opportunity_mode "Farelo" h = Done (h', (OK, body)) /\ mode_read config h' = Scavenger)
  | None => False
  end.
Proof.
  assert (V : match sample_run [Mode "aggressive"] with
    | Some (_, h, _) => dh_opportunity_mode h = Some Aggressive | None => False end) by (vm_compute; reflexivity).
  destruct (sample_run _) as [[[h0 h] log]|] eqn:R; [|exact V]. cbv zeta.
  set (h1 := h <[ dh_runtime_thresholds ::= Some default_thresholds ]>).
  assert (T : thresholds_read (Config.sample_config Aggressive true []) h1 = default_thresholds) by reflexivity.
  destruct (requests_take_effect_or_nothing (Config.sample_config Aggressive true []) h1 h1) as (_ & _ & X & Y);
    [split; [exists default_thresholds; split; [reflexivity|vm_compute; reflexivity]|by exists Aggressive]|constructor|].
  rewrite T in X. split_and!.
  - destruct (X (some_thresholds (Some 5.0) None None None)%f64) as (h' & status & ok & message & t & E & C).
    destruct C as (-> & _ & -> & T' & _). exists h'. eexists. split; [exact E|]. rewrite T'. reflexivity.
  - destruct (X (some_thresholds None None None (Some 0.0))%f64) as (h' & status & ok & message & t & E & C).
    destruct C as (-> & _ & _ & ->). exists h1. eexists. split; [exact E|done].
  - destruct (Y "Farelo") as (h' & status & ok & message & m & E & C).
    destruct C as (-> & _ & _ & M & _). exists h'. eexists. split; [exact E|exact M].
Defined.

Lemma current_report_is_warming_witness :
  match sample_run [Funnel "decode_pass"; Snapshot; Flush] with
  | Some (_, h, _) =>
      exists h' s, snapshot h = Done (h', s) /\ so_status (ds_scavenger_observer s) = "WARMING"
  | None => False
  end.
Proof.
  assert (V : match sample_run [Funnel "decode_pass"; Snapshot; Flush] with Some _ => True | None => False end)
    by (vm_compute; exact I).
  destruct (sample_run _) as [[[h0 h] log]|] eqn:R; [|exact V].
  apply sample_run_inv in R as [E R]. apply run_steps in R.
  destruct (current_report_is_warming _ _ _ _ _ _ _ _ _ _ h0 h E R) as (h' & s & S & W & _).
  exists h', s. split; [exact S|exact W].
Defined.
