(* ===== verification/UnsupportedCalls.v ===== *)
(** * From a rejected transaction to the table of unsupported selectors

    The dashboard reads the fields of an unsupported call back out of the text its
    sample carries. The words of that text, and what is read from them. *)
From S2P Require Import PayloadProps EvaluateProps LookupProps Storage Telemetry Dashboard DashboardHandle.
From S2P Require Import Prelude F64 Text TextFacts Ethers Config Simulator Payload Calldata Decode.
From S2P Require Import EnvVars Intake PayloadErrors Gates Batch Routes Diagnosis DiagnosisProps.
#[local] Open Scope string_scope.
#[local] Open Scope Z_scope.

(** ** Words *)

Definition nonspace (c : ascii) : bool := negb (is_whitespace c).
Definition bracket (c : ascii) : bool := existsb (Ascii.eqb c) [","; ";"; ")"; "("]%char.
(** No blank, and nothing the reader of a field strips. *)
Definition plain_char (c : ascii) : bool := nonspace c && negb (bracket c).
Abbreviation plain := (all_chars plain_char).
Abbreviation solid := (all_chars nonspace).

Lemma plain_solid s : plain s = true -> solid s = true.
Proof. apply all_chars_impl. by intros c [? _]%andb_true_iff. Qed.
Lemma plain_unbracketed s : plain s = true -> all_chars (negb ∘ bracket) s = true.
Proof. apply all_chars_impl. by intros c [_ ?]%andb_true_iff. Qed.

Lemma words_acc_app acc w s : solid w = true -> words_acc acc (w +:+ s) = words_acc (acc +:+ w) s.
Proof.
  revert acc. induction w as [|c w IH]; intros acc H; simpl in H |- *; [by rewrite app_empty|].
  apply andb_true_iff in H as [C H]. apply negb_true_iff in C. rewrite C, (IH _ H). f_equal.
  by rewrite <- app_string_assoc.
Qed.
Lemma words_cons w rest :
  solid w = true -> w <> "" -> split_whitespace (w +:+ String " " rest) = w :: split_whitespace rest.
Proof.
  intros S N. unfold split_whitespace. rewrite (words_acc_app _ _ _ S). change ("" +:+ w) with w.
  cbn [words_acc]. unfold string_eqb. by rewrite (proj2 (String.eqb_neq w "") N).
Qed.
Lemma words_one w : solid w = true -> w <> "" -> split_whitespace w = [w].
Proof.
  intros S N. unfold split_whitespace. rewrite <- (app_empty w) at 1. rewrite (words_acc_app _ _ _ S).
  change ("" +:+ w) with w. cbn [words_acc]. unfold string_eqb. by rewrite (proj2 (String.eqb_neq w "") N).
Qed.

(** ** What a reader of a field strips *)

Lemma trim_start_kept p s : (forall c t, s = String c t -> p c = false) -> trim_start_by p s = s.
Proof. intros H. destruct s as [|c s]; [done|]. simpl. by rewrite (H c s eq_refl). Qed.
Lemma trim_end_app p s t : trim_end_by p t = t -> t <> "" -> trim_end_by p (s +:+ t) = s +:+ t.
Proof.
  intros H N. induction s as [|c s IH]; [done|].
  change (trim_end_by p (String c (s +:+ t)) = String c (s +:+ t)). cbn [trim_end_by]. rewrite IH.
  destruct (s +:+ t) eqn:E; [|done]. destruct s; [by simpl in E|done].
Qed.
Lemma trim_end_drop p s c : p c = true -> trim_end_by p s = s -> trim_end_by p (s +:+ String c "") = s.
Proof.
  intros C. induction s as [|x s IH]; [intros _; change (trim_end_by p (String c "") = ""); cbn; by rewrite C|].
  change (String x s +:+ String c "") with (String x (s +:+ String c "")). cbn [trim_end_by].
  destruct s as [|y s].
  - change (trim_end_by p ("" +:+ String c "")) with (trim_end_by p (String c "")). cbn. rewrite C. by destruct (p x).
  - intros H. assert (K : trim_end_by p (String y s) = String y s).
    { destruct (trim_end_by p (String y s)) eqn:E; [by destruct (p x)|congruence]. }
    by rewrite (IH K).
Qed.
Lemma trim_by_all p s : all_chars (negb ∘ p) s = true -> trim_by p s = s.
Proof.
  intros H. unfold trim_by. rewrite trim_start_kept; [by apply trim_end_by_all|].
  intros c t ->. simpl in H. apply andb_true_iff in H as [C _]. by apply negb_true_iff in C.
Qed.

(** ** Text the program prints *)

Lemma hex_digit_plain n : 0 <= n < 16 -> plain_char (hex_digit n) = true.
Proof.
  intros H. assert (F : Forall (fun n => plain_char (hex_digit n) = true) (seqZ 0 16)) by by repeat constructor.
  rewrite Forall_forall in F. apply F, elem_of_seqZ. lia.
Qed.
Lemma hex_byte_plain b : is_u8 b -> plain (hex_byte b) = true.
Proof.
  intros H. unfold hex_byte. cbn [all_chars].
  rewrite !hex_digit_plain; [done|apply Z.mod_pos_bound; lia|].
  split; [apply Z.div_pos; [apply H|lia]|apply Z.div_lt_upper_bound; [lia|apply H]].
Qed.
Lemma concat_plain (p : ascii -> bool) sep l :
  all_chars p sep = true -> Forall (fun s => all_chars p s = true) l -> all_chars p (String.concat sep l) = true.
Proof.
  intros S F. induction F as [|x l X F IH]; [done|]. destruct l as [|y l]; [done|].
  change (all_chars p (x +:+ (sep +:+ String.concat sep (y :: l))) = true).
  by rewrite !all_chars_app, X, S, IH.
Qed.
Lemma hex_bytes_plain (l : Bytes) : Forall is_u8 l -> plain (String.concat "" (hex_byte <$> l)) = true.
Proof.
  intros F. apply concat_plain; [done|]. apply Forall_fmap. eapply Forall_impl; [exact F|]. exact hex_byte_plain.
Qed.
Lemma prefix_plain input : Forall is_u8 input -> plain (calldata_prefix_hex input) = true.
Proof. intros F. unfold calldata_prefix_hex. rewrite all_chars_app, hex_bytes_plain; [done|by apply Forall_take]. Qed.
Lemma selector_plain sel : Forall is_u8 sel -> plain (selector_hex sel) = true.
Proof. intros F. unfold selector_hex. rewrite all_chars_app, hex_bytes_plain; [done|by apply Forall_take]. Qed.

Lemma show_nat_Z n : show_nat n = show_Z (Z.of_nat n).
Proof. rewrite show_Z_N by lia. unfold show_nat, pretty, pretty_nat. f_equal. lia. Qed.
Lemma pretty_char_plain y : plain_char (pretty_N_char y) = true.
Proof. by destruct y as [|p]; [|do 4 (destruct p as [p|p|]; try done)]. Qed.
Lemma show_nat_plain n : plain (show_nat n) = true.
Proof. rewrite show_nat_Z. apply all_chars_show; [lia|apply pretty_char_plain]. Qed.
Lemma show_nat_nonempty n : show_nat n <> "".
Proof. rewrite show_nat_Z. destruct (show_Z_first (Z.of_nat n)) as (y & t & _ & ->); [lia|done]. Qed.

(** ** The targets *)

(** How [Debug] prints addresses and hashes: digits, without blanks. *)
Class PlainDebug (host : Host) : Prop := {
  address_plain a : plain (debug_address a) = true;
  address_nonempty a : debug_address a <> "";
  hash_plain h : plain (debug_hash h) = true }.

(** A target as the table shows it: a label has lost its closing bracket. *)
Definition shown_target `{Host} (address : option Address) : string :=
  match address with
  | None => "unknown"
  | Some a =>
      match known_target_label a with
      | Some label => debug_address a +:+ "(" +:+ label
      | None => debug_address a
      end
  end.

Lemma label_plain a label : known_target_label a = Some label -> plain label = true /\ label <> "".
Proof.
  unfold known_target_label. intros H.
  repeat match type of H with (if ?b then _ else _) = _ => destruct b; [by injection H as <-|] end. done.
Qed.

Section Target.
Context {host : Host} `{!PlainDebug host}.
Lemma target_solid address : solid (format_target address) = true.
Proof.
  unfold format_target. destruct address as [a|]; [|done].
  pose proof (plain_solid _ (address_plain a)) as P.
  destruct (known_target_label a) as [label|] eqn:L; [|done]. apply label_plain in L as [L _].
  by rewrite !all_chars_app, P, (plain_solid _ L).
Qed.
Lemma target_read address : trim_by bracket (format_target address) = shown_target address.
Proof.
  unfold format_target, shown_target. destruct address as [a|]; [|done].
  pose proof (plain_unbracketed _ (address_plain a)) as P.
  destruct (known_target_label a) as [label|] eqn:L; [|by apply trim_by_all]. apply label_plain in L as [L N].
  unfold trim_by. rewrite trim_start_kept.
  - rewrite !app_string_assoc. apply (trim_end_drop bracket _ ")"%char); [done|]. rewrite <- app_string_assoc.
    apply trim_end_app; [|done]. apply (trim_end_app bracket "(" label); [|done].
    by apply trim_end_by_all, plain_unbracketed.
  - intros c t E. destruct (debug_address a) as [|x s] eqn:D; [by apply address_nonempty in D|].
    injection E as -> _. simpl in P. apply andb_true_iff in P as [P _]. by apply negb_true_iff in P.
Qed.
Lemma shown_nonempty address : shown_target address <> "".
Proof.
  unfold shown_target. destruct address as [a|]; [|done]. pose proof (address_nonempty a).
  destruct (known_target_label a); [|done]. by destruct (debug_address a).
Qed.
Lemma short_hash_plain h : plain (hash_text h) = true.
Proof.
  unfold hash_text, short_hash. destruct (_ <=? _)%nat; [apply hash_plain|].
  assert (S : forall n m s, plain s = true -> plain (substring n m s) = true).
  { clear. intros n m s. revert n m. induction s as [|c s IH]; intros n m H; destruct n, m; try done;
      simpl in H |- *; apply andb_true_iff in H as [C H]; try (by apply IH). by rewrite C, IH. }
  by rewrite !all_chars_app, !S by apply hash_plain.
Qed.
End Target.

(** ** The fields *)

Lemma substring_rest (p s : string) n : (String.length s <= n)%nat -> substring (String.length p) n (p +:+ s) = s.
Proof.
  intros L. induction p as [|c p IH]; [|exact IH]. simpl. revert n L. induction s as [|c s IH]; intros [|n] L; simpl in L |- *;
    try done; [lia|]. by rewrite IH by lia.
Qed.
Lemma prefix_stripped (p s : string) : Dashboard.strip_prefix p (p +:+ s) = Some s.
Proof.
  unfold Dashboard.strip_prefix. rewrite starts_with_app. f_equal. apply substring_rest.
  induction p as [|c p IH]; [done|].
  change (String.length s <= S (String.length (p +:+ s)))%nat. lia.
Qed.

(** The words of an unsupported call's sample. *)
Definition unsupported_words (tx sel target hint bytes prefix : string) : list string :=
  ["selector_unsupported"; "tx=" +:+ tx; "selector=" +:+ sel; "to=" +:+ target; "monitored_token_hint=" +:+ hint;
   "input_bytes=" +:+ bytes; "calldata_prefix=" +:+ prefix].
Lemma unsupported_text tx sel target hint bytes prefix :
  solid tx = true -> solid sel = true -> solid target = true -> solid hint = true -> solid bytes = true ->
  solid prefix = true ->
  split_whitespace
    ("selector_unsupported" +:+ " " +:+ "tx=" +:+ tx +:+ " selector=" +:+ sel +:+ " to=" +:+ target
     +:+ " monitored_token_hint=" +:+ hint +:+ " input_bytes=" +:+ bytes +:+ " calldata_prefix=" +:+ prefix)
  = unsupported_words tx sel target hint bytes prefix.
Proof.
  intros. unfold unsupported_words.
  assert (A : forall w v u rest, solid w = true -> w <> "" -> solid v = true ->
    split_whitespace (w +:+ v +:+ String " " u +:+ rest) = (w +:+ v) :: split_whitespace (u +:+ rest)).
  { intros w v u rest W N V. change (String " " u +:+ rest) with (String " " (u +:+ rest)).
    rewrite app_string_assoc. apply words_cons; [by rewrite all_chars_app, W, V|]. by destruct w. }
  change ("selector_unsupported" +:+ " " +:+ ?r) with ("selector_unsupported" +:+ String " " r).
  rewrite words_cons by done. do 5 rewrite A by done.
  by rewrite words_one by (done || by rewrite all_chars_app; apply andb_true_intro).
Qed.
Lemma field_of_words reason tx sel target hint bytes prefix :
  split_whitespace reason = unsupported_words tx sel target hint bytes prefix ->
  let read value := let value := trim_by bracket value in if String.eqb value "" then None else Some value in
  reason_field reason "target" = None /\ reason_field reason "to" = read target /\
  reason_field reason "inner_selector" = None /\ reason_field reason "inner" = None /\
  reason_field reason "input_bytes" = read bytes /\ reason_field reason "calldata_prefix" = read prefix.
Proof.
  intros W. unfold reason_field, find_map. rewrite W. set (words := unsupported_words _ _ _ _ _ _).
  assert (N : forall key, key = "target=" \/ key = "inner_selector=" \/ key = "inner=" ->
    head (omap (Dashboard.strip_prefix key) words) = None) by by intros key [->|[->| ->]].
  assert (S : forall key value l1 l2, words = (l1 ++ (key +:+ value) :: l2)%list ->
    omap (Dashboard.strip_prefix key) l1 = [] -> head (omap (Dashboard.strip_prefix key) words) = Some value).
  { intros key value l1 l2 -> E. rewrite omap_app, E. cbn. by rewrite prefix_stripped. }
  split_and!; rewrite ?N by tauto; try done.
  - change ("to" +:+ "=") with "to=". by rewrite (S "to=" target (take 3 words) (drop 4 words)).
  - change ("input_bytes" +:+ "=") with "input_bytes=". by rewrite (S "input_bytes=" bytes (take 5 words) (drop 6 words)).
  - change ("calldata_prefix" +:+ "=") with "calldata_prefix=". by rewrite (S "calldata_prefix=" prefix (take 6 words) []).
Qed.

(** ** The table *)

Lemma gate_passed `{Host} config tx sel :
  tx_selector avx2 tx = Done (Some sel) -> pre_decode_tx_gate env avx2 config tx = Done None ->
  unsupported_reason tx sel = "selector_unsupported".
Proof.
  intros S. unfold pre_decode_tx_gate, pre_decode_tx_gate_with_cap, unsupported_reason. rewrite S. cbn [obind opt].
  destruct (_ || _); [done|]. destruct (is_private_mev_executor_noise _ _); [done|].
  destruct (is_sel sel CONTEXT_WRAP_SELECTOR); [done|].
  destruct (is_context_only_or_helper_selector sel); [done|].
  by destruct (is_sel sel SELECTOR_NOISE_00000008).
Qed.

Lemma universal_supported sel : sel_in sel SUPPORTED_SELECTORS = false -> sel_in sel UNIVERSAL_SELECTORS = false.
Proof.
  intros S. apply not_true_iff_false. intros U. apply not_true_iff_false in S. apply S.
  apply sel_in_elem in U. apply sel_in_elem. unfold UNIVERSAL_SELECTORS, SUPPORTED_SELECTORS in *. set_solver.
Qed.
Lemma name_universal sel name :
  sel_in sel UNIVERSAL_SELECTORS = false -> aggregator_name sel = Some name ->
  string_eqb name "universal_router" = false.
Proof.
  unfold aggregator_name. fold UNIVERSAL_SELECTORS. intros ->.
  repeat match goal with |- (if ?b then _ else _) = _ -> _ => destruct b; [by intros [= <-]|] end. done.
Qed.

(** The sample of a call whose selector has no decoder. *)
Lemma unsupported_sample `{Host} config tx hash sel d sample :
  tx_selector avx2 tx = Done (Some sel) -> sel_in sel SUPPORTED_SELECTORS = false ->
  (exists hint, dr_hints d = [hint]) -> rejection_sample config tx hash d = Done (Some sample) ->
  em_status sample = "decode_reject" /\ em_reason sample = dr_reason d +:+ " " +:+ dr_detail d /\
  em_selector sample = selector_hex sel /\ em_victim_tx sample = hash_text hash /\
  em_path sample = monitored_token_path_hint config (tx_input tx) /\ em_hop_profitability_rank sample = dr_hints d.
Proof.
  intros S U [hint D]. apply universal_supported in U.
  unfold rejection_sample, aggregator_name_from_tx, aggregator_intelligence_sample, decode_reject_edge_sample.
  rewrite S. cbn [obind opt mbind outcome_bind default]. destruct (aggregator_name sel) as [name|] eqn:A.
  - pose proof (name_universal _ _ U A) as X. unfold aggregator_route_intel. rewrite X. cbn [andb].
    destruct (as_u64 _); [|done]. intros [= <-]. unfold relabelled_sample. rewrite D. by split_and!.
  - destruct (monitored_token_path_hint _ _); [done|]. destruct (as_u64 _); [|done]. intros [= <-]. cbn. rewrite D.
    by split_and!.
Qed.

Section Listed.
Context {host : Host} `{!PlainDebug host}.
Context (config : Config).

Lemma hint_solid input : solid (hint_or_none (monitored_token_path_hint config input)) = true.
Proof.
  unfold hint_or_none. set (hint := monitored_token_path_hint config input).
  assert (F : Forall (fun s => solid s = true) hint).
  { apply Forall_fmap, Forall_true. intros a. apply plain_solid, address_plain. }
  destruct hint; [done|]. by apply concat_plain.
Qed.
Lemma hint_shown input :
  let hint := monitored_token_path_hint config input in
  (let text := String.concat "," (take 6 hint) in if String.eqb text "" then "unknown" else text)
  = match hint with [] => "unknown" | _ => String.concat "," hint end.
Proof.
  cbv zeta. rewrite take_ge.
  - unfold monitored_token_path_hint. destruct (monitored_token_addresses_in_input _ _) as [|a l]; [done|].
    change (debug_address <$> a :: l) with (debug_address a :: (debug_address <$> l)).
    destruct (String.eqb_spec (String.concat "," (debug_address a :: (debug_address <$> l))) "") as [E|]; [|done].
    exfalso. apply (address_nonempty a). simpl in E. destruct (debug_address <$> l), (debug_address a); done.
  - unfold monitored_token_path_hint, monitored_token_addresses_in_input. rewrite length_fmap, length_take. lia.
Qed.
Lemma trim_selector sel : (String.eqb (trim (selector_hex sel)) "") = false.
Proof.
  unfold selector_hex. set (rest := String.concat "" _). unfold trim, trim_by.
  change (trim_start_by is_whitespace ("0x" +:+ rest)) with (String "0" (String "x" rest)). cbn [trim_end_by].
  by destruct (trim_end_by is_whitespace rest).
Qed.

(** C37: what the dashboard reads out of the text of an unsupported call is the call:
    its target, but for the bracket that closes a label; its selector, no inner
    one; the monitored tokens in its calldata, the number of its bytes and the
    first 96 of them; and the hint of the diagnosis. *)
Theorem unsupported_calls_are_read_back tx hash sel mn mode d sample observed_at :
  tx_selector avx2 tx = Done (Some sel) -> sel_in sel SUPPORTED_SELECTORS = false ->
  pre_decode_tx_gate env avx2 config tx = Done None ->
  Forall is_u8 (tx_input tx) -> Forall is_u8 sel -> Z.of_nat (length (tx_input tx)) <= U64_MAX ->
  diagnose_decode_reject config tx hash mn mode = Done d -> rejection_sample config tx hash d = Done (Some sample) ->
  unsupported_call (edge_snapshot observed_at sample) =
    Some {| us_target := shown_target (tx_to tx); us_selector := selector_hex sel; us_inner_selector := "";
            us_token_hints := match monitored_token_path_hint config (tx_input tx) with
                              | [] => "unknown"
                              | hint => String.concat "," hint
                              end;
            us_input_bytes := Z.of_nat (length (tx_input tx)); us_sample_tx := hash_text hash;
            us_sample_calldata_prefix := calldata_prefix_hex (tx_input tx);
            us_route_hint := "unsupported selector " +:+ selector_hex sel +:+ " target=" +:+ format_target (tx_to tx) |}.
Proof.
  intros S U G B8 S8 L D R. unfold diagnose_decode_reject in D. rewrite S in D. cbn [mbind outcome_bind] in D.
  rewrite (universal_supported _ U), U in D. cbn [negb] in D. injection D as <-.
  unfold diagnose_unsupported in R. rewrite (gate_passed _ _ _ S G) in R.
  apply unsupported_sample with (sel := sel) in R as (St & Re & Se & Vi & Pa & Ra); [|done|done|by eexists].
  unfold unsupported_call, edge_snapshot. cbn [es_status es_reason es_path es_selector es_victim_tx es_router
    es_route_complexity es_hop_profitability_rank]. rewrite St, Se, Vi, Pa, Ra. cbn [string_eqb negb].
  rewrite hint_shown, trim_selector.
  pose proof (unsupported_text (hash_text hash) (selector_hex sel) (format_target (tx_to tx))
    (hint_or_none (monitored_token_path_hint config (tx_input tx))) (show_nat (length (tx_input tx)))
    (calldata_prefix_hex (tx_input tx)) (plain_solid _ (short_hash_plain _)) (plain_solid _ (selector_plain _ S8))
    (target_solid _) (hint_solid _) (plain_solid _ (show_nat_plain _)) (plain_solid _ (prefix_plain _ B8))) as W.
  cbn [dr_reason dr_detail dr_hints diagnostic] in Re. rewrite <- Re in W.
  destruct (field_of_words _ _ _ _ _ _ _ W) as (F1 & F2 & F3 & F4 & F5 & F6). cbv zeta in F2, F5, F6.
  rewrite target_read in F2. rewrite trim_by_all in F5 by apply plain_unbracketed, show_nat_plain.
  rewrite trim_by_all in F6 by by apply plain_unbracketed, prefix_plain.
  rewrite (proj2 (String.eqb_neq _ _) (shown_nonempty _)) in F2.
  rewrite (proj2 (String.eqb_neq _ _) (show_nat_nonempty _)) in F5.
  assert (C : contains (to_lower (em_reason sample)) "selector_unsupported" = true).
  { rewrite Re. match goal with |- contains (to_lower (_ +:+ ?r)) _ = _ =>
      change (to_lower ("selector_unsupported" +:+ r)) with ("selector_unsupported" +:+ to_lower r) end.
    set (text := _ +:+ _). assert (P : starts_with text "selector_unsupported" = true) by apply starts_with_app.
    destruct text; [done|]. cbn [contains]. by rewrite P. }
  rewrite C, F1, F2, F3, F4, F5, F6. cbn [negb andb or_else Dashboard.or_else default from_option id mbind option_bind].
  change (string_eqb "decode_reject" "decode_reject") with true. cbn [negb].
  rewrite show_nat_Z. unfold parse_u64. rewrite parse_show by lia. by destruct (monitored_token_path_hint config (tx_input tx)).
Qed.
End Listed.

#[local] Instance sample_debug : PlainDebug sample_host.
Proof. by split. Qed.
Lemma unsupported_calls_are_read_back_witness :
  let tx := rejected_tx ([0x12; 0x34; 0x56; 0x78] ++ DecodeProps.word 11)%list in
  exists d sample, @diagnose_decode_reject sample_host lookup_config tx 500 0 Scavenger = Done d /\
    @rejection_sample sample_host lookup_config tx 500 d = Done (Some sample) /\
    (us_target <$> unsupported_call (edge_snapshot "" sample)) = Some "0x(transit_swap_router_v5" /\
    (us_input_bytes <$> unsupported_call (edge_snapshot "" sample)) = Some 36.
Proof.
  cbv zeta. set (tx := rejected_tx _).
  assert (D : exists d, @diagnose_decode_reject sample_host lookup_config tx 500 0 Scavenger = Done d)
    by (eexists; vm_compute; reflexivity).
  destruct D as [d D].
  assert (R : exists sample, @rejection_sample sample_host lookup_config tx 500 d = Done (Some sample)).
  { vm_compute in D. injection D as <-. eexists. vm_compute. reflexivity. }
  destruct R as [sample R]. exists d, sample. split; [exact D|]. split; [exact R|].
  rewrite (@unsupported_calls_are_read_back sample_host sample_debug lookup_config tx 500 [0x12; 0x34; 0x56; 0x78] 0
             Scavenger d sample ""); [by split|vm_compute; reflexivity..| | | |exact D|exact R].
  - repeat (apply Forall_cons; split; [vm_compute; split; congruence|]). apply Forall_nil. exact I.
  - repeat (apply Forall_cons; split; [vm_compute; split; congruence|]). apply Forall_nil. exact I.
  - vm_compute. congruence.
Defined.
