(* ===== verification/Wallets.v ===== *)
(** * Wallet files ([wallets.rs])

    The private keys of a file, one per line or a JSON list: blanks are skipped,
    what is no key is invalid, a key seen before is a duplicate, and the others
    are parsed. Reading files, JSON and the parser of keys are parameters. *)
From S2P Require Import Prelude Text Executor.
From Stdlib Require Import Sorted Permutation.
#[local] Open Scope string_scope.
#[local] Open Scope Z_scope.

(** [fs::read_to_string]. *)
Inductive FileRead := Contents (s : string) | NotFound | ReadError (e : string).

Record LoadedWallets (W : Type) := {
  lw_wallets : list W;
  total_read : nat;
  unique : nat;
  duplicates : nat;
  invalid : nat }.
Arguments lw_wallets {W} _.
Arguments total_read {W} _.
Arguments unique {W} _.
Arguments duplicates {W} _.
Arguments invalid {W} _.

Definition is_hexdigit (c : ascii) : bool :=
  let n := ascii_code c in
  ((48 <=? n)%N && (n <=? 57)%N) || ((65 <=? n)%N && (n <=? 70)%N) || ((97 <=? n)%N && (n <=? 102)%N).
Fixpoint all_hex (s : string) : bool :=
  match s with "" => true | String c s => is_hexdigit c && all_hex s end.

(** The digits with one prefix [0x], in lower case. *)
Definition normalize_private_key (value : string) : option string :=
  let trimmed := default (trim value) (strip_prefix (trim value) "0x") in
  if negb (String.length trimmed =? 64)%nat || negb (all_hex trimmed) then None
  else Some ("0x" +:+ to_lower trimmed).

Section Load.
Context {W : Type} (parse_wallet : Z -> string -> option W) (parse_json : string -> string + list string).
Context (read_to_string : string -> FileRead) (extension : string -> option string).

(** What both loops carry. *)
Record Loading := {
  seen : gset string;
  wallets : list W;
  dups : nat;
  bad : nat }.
Definition nothing_loaded : Loading := {| seen := ∅; wallets := []; dups := 0; bad := 0 |}.
Definition add_bad (l : Loading) : Loading :=
  {| seen := seen l; wallets := wallets l; dups := dups l; bad := S (bad l) |}.
Definition load_key (chain_id : Z) (l : Loading) (key : string) : Loading :=
  match normalize_private_key key with
  | None => add_bad l
  | Some normalized =>
      if bool_decide (normalized ∈ seen l) then
        {| seen := seen l; wallets := wallets l; dups := S (dups l); bad := bad l |}
      else
        let l := {| seen := {[normalized]} ∪ seen l; wallets := wallets l; dups := dups l; bad := bad l |} in
        match parse_wallet chain_id normalized with
        | Some wallet => {| seen := seen l; wallets := wallets l ++ [wallet]; dups := dups l; bad := bad l |}
        | None => add_bad l
        end
  end.

Definition empty_wallets : LoadedWallets W :=
  {| lw_wallets := []; total_read := 0; unique := 0; duplicates := 0; invalid := 0 |}.

(** The text file counts the lines it reads. *)
Definition load_line (chain_id : Z) (counted : nat * Loading) (line : string) : nat * Loading :=
  let trimmed := trim line in
  if String.eqb trimmed "" then counted else (S counted.1, load_key chain_id counted.2 trimmed).
Definition load_from_keys_txt (path : string) (chain_id : Z) : string + LoadedWallets W :=
  match read_to_string path with
  | NotFound => inr empty_wallets
  | ReadError e => inl e
  | Contents content =>
      let '(read, l) := foldl (load_line chain_id) (0%nat, nothing_loaded) (lines content) in
      inr {| lw_wallets := wallets l; total_read := read; unique := length (wallets l);
             duplicates := dups l; invalid := bad l |}
  end.

Definition load_from_json (path : string) (chain_id : Z) : string + LoadedWallets W :=
  match read_to_string path with
  | NotFound => inr empty_wallets
  | ReadError e => inl e
  | Contents content =>
      match parse_json content with
      | inl e => inl e
      | inr entries =>
          let l := foldl (load_key chain_id) nothing_loaded entries in
          inr {| lw_wallets := wallets l; total_read := length (wallets l) + dups l + bad l;
                 unique := length (wallets l); duplicates := dups l; invalid := bad l |}
      end
  end.

Definition load_wallets (path : string) (chain_id : Z) : string + LoadedWallets W :=
  if bool_decide (extension path = Some "json") then load_from_json path chain_id
  else load_from_keys_txt path chain_id.
End Load.

(** ** What is loaded *)

(** The first occurrence of every key that is not in [known]. *)
Fixpoint first_of (known : gset string) (keys : list string) : list string :=
  match keys with
  | [] => []
  | key :: keys =>
      if bool_decide (key ∈ known) then first_of known keys else key :: first_of ({[key]} ∪ known) keys
  end.

Lemma first_of_known known keys key : key ∈ first_of known keys -> (key ∉ known) /\ key ∈ keys.
Proof.
  revert known. induction keys as [|k keys IH]; intros known; simpl; [by intros ?%elem_of_nil|].
  case_bool_decide as K.
  - intros [? ?]%IH. set_solver.
  - intros [->|[? ?]%IH]%elem_of_cons; set_solver.
Qed.
Lemma first_of_NoDup known keys : NoDup (first_of known keys).
Proof.
  revert known. induction keys as [|k keys IH]; intros known; simpl; [constructor|].
  case_bool_decide; [apply IH|]. constructor; [|apply IH]. intros [N _]%first_of_known. set_solver.
Qed.
Lemma first_of_all keys known key : key ∈ keys -> key ∉ known -> key ∈ first_of known keys.
Proof.
  revert known. induction keys as [|k keys IH]; intros known; simpl; [by intros ?%elem_of_nil|].
  intros [->|I]%elem_of_cons N; case_bool_decide; [done|by left|by apply IH|].
  destruct (decide (key = k)) as [->|D]; [by left|]. right. apply IH; set_solver.
Qed.
Lemma first_of_length known keys : (length (first_of known keys) <= length keys)%nat.
Proof.
  revert known. induction keys as [|k keys IH]; intros known; simpl; [done|].
  case_bool_decide; simpl; [pose proof (IH known)|pose proof (IH ({[k]} ∪ known))]; lia.
Qed.
Lemma omap_length {A B} (f : A -> option B) l : (length (omap f l) <= length l)%nat.
Proof. induction l as [|x l IH]; csimpl; [done|]. destruct (f x); csimpl; lia. Qed.

Lemma all_hex_lower s : all_hex (to_lower s) = all_hex s.
Proof.
  induction s as [|c s IH]; [done|]. cbn [to_lower all_hex]. rewrite IH. f_equal.
  destruct c as [[] [] [] [] [] [] [] []]; reflexivity.
Qed.
Lemma to_lower_length s : String.length (to_lower s) = String.length s.
Proof. induction s as [|c s IH]; [done|]. cbn. by rewrite IH. Qed.
Lemma to_lower_idem s : to_lower (to_lower s) = to_lower s.
Proof.
  induction s as [|c s IH]; [done|]. cbn [to_lower]. rewrite IH. f_equal.
  destruct c as [[] [] [] [] [] [] [] []]; reflexivity.
Qed.

Section Loaded.
Context {W : Type} (parse_wallet : Z -> string -> option W).
Abbreviation load_key := (load_key parse_wallet).

(** The report a list of keys deserves. *)
Definition wallet_report (chain_id : Z) (keys : list string) : LoadedWallets W :=
  let normalized := omap normalize_private_key keys in
  let distinct := first_of ∅ normalized in
  let loaded := omap (parse_wallet chain_id) distinct in
  {| lw_wallets := loaded; total_read := length keys; unique := length loaded;
     duplicates := length normalized - length distinct;
     invalid := (length keys - length normalized) + (length distinct - length loaded) |}.

Lemma load_keys chain_id keys l0 :
  let l := foldl (load_key chain_id) l0 keys in
  let normalized := omap normalize_private_key keys in
  let distinct := first_of (seen l0) normalized in
  let loaded := omap (parse_wallet chain_id) distinct in
  wallets l = (wallets l0 ++ loaded)%list /\
  (dups l + length distinct = dups l0 + length normalized)%nat /\
  (bad l + length normalized + length loaded = bad l0 + length keys + length distinct)%nat.
Proof.
  revert l0. induction keys as [|key keys IH]; intros l0.
  { cbn. rewrite app_nil_r. split_and!; [done|lia|lia]. }
  cbn [foldl]. destruct (IH (load_key chain_id l0 key)) as (I1 & I2 & I3). cbv zeta. rewrite I1.
  remember (load_key chain_id l0 key) as l1 eqn:E. set (final := foldl _ l1 keys) in *. clearbody final. clear IH I1.
  unfold Wallets.load_key in E. csimpl. destruct (normalize_private_key key) as [k|]; csimpl.
  2: { subst l1. cbn in *. split_and!; [done|lia|lia]. }
  case_bool_decide as K; csimpl; [subst l1; cbn in *; split_and!; [done|lia|lia]|].
  destruct (parse_wallet chain_id k) as [wallet|]; subst l1; cbn in *; split_and!; try done; try lia.
  by rewrite <- app_assoc.
Qed.

(** The keys of a text file: its lines, trimmed, without the blank ones. *)
Definition keys_of (content : string) : list string :=
  filter (fun key => key <> "") (trim <$> lines content).
Lemma load_lines chain_id ls n l0 :
  foldl (load_line parse_wallet chain_id) (n, l0) ls =
  let keys := filter (fun key => key <> "") (trim <$> ls) in
  ((n + length keys)%nat, foldl (load_key chain_id) l0 keys).
Proof.
  revert n l0. induction ls as [|line ls IH]; intros n l0; [cbn; by rewrite Nat.add_0_r|].
  cbn [foldl]. unfold load_line at 2. rewrite fmap_cons, filter_cons. cbn [fst snd].
  destruct (String.eqb_spec (trim line) "") as [E|E].
  - rewrite decide_False by tauto. apply IH.
  - rewrite decide_True by done. rewrite IH. cbn. f_equal. lia.
Qed.

Context (parse_json : string -> string + list string) (read_to_string : string -> FileRead).

(** C39: the text file and the JSON file load the same from the same keys: every key
    is a wallet, a duplicate or invalid, the wallets are those of the distinct
    normalized keys, in the order of their first occurrence; a normalized key is
    [0x] and 64 lower-case digits, so that two spellings of one key are one. *)
Theorem wallet_files_agree path chain_id content :
  read_to_string path = Contents content ->
  load_from_keys_txt parse_wallet read_to_string path chain_id = inr (wallet_report chain_id (keys_of content)) /\
  (forall keys, parse_json content = inr keys ->
     load_from_json parse_wallet parse_json read_to_string path chain_id = inr (wallet_report chain_id keys)) /\
  (forall keys, let report := wallet_report chain_id keys in
     (unique report + duplicates report + invalid report = total_read report)%nat /\
     exists distinct, NoDup distinct /\ lw_wallets report = omap (parse_wallet chain_id) distinct /\
       (forall k, k ∈ distinct <-> exists key, key ∈ keys /\ normalize_private_key key = Some k) /\
       Forall (fun k => exists digits, k = "0x" +:+ digits /\ String.length digits = 64%nat /\
                 all_hex digits = true /\ to_lower digits = digits) distinct).
Proof.
  intros R.
  assert (A : forall keys, let normalized := omap normalize_private_key keys in
    let distinct := first_of ∅ normalized in
    (length (omap (parse_wallet chain_id) distinct) <= length distinct <= length normalized)%nat
    /\ (length normalized <= length keys)%nat).
  { intros keys. cbv zeta. split; [split; [apply omap_length|apply first_of_length]|apply omap_length]. }
  assert (F : forall keys, let l := foldl (load_key chain_id) nothing_loaded keys in
    let report := wallet_report chain_id keys in
    wallets l = lw_wallets report /\ dups l = duplicates report /\ bad l = invalid report).
  { intros keys. pose proof (A keys) as L. pose proof (load_keys chain_id keys nothing_loaded) as K.
    cbv zeta in K, L |- *. cbn [seen wallets dups bad nothing_loaded app] in K. cbn [lw_wallets duplicates invalid wallet_report].
    destruct K as (-> & K2 & K3). split_and!; [done|lia|lia]. }
  split_and!.
  - unfold load_from_keys_txt. rewrite R, load_lines. cbv beta iota zeta. fold (keys_of content). destruct (F (keys_of content)) as (-> & -> & ->). done.
  - intros keys J. unfold load_from_json. rewrite R, J. cbv beta iota zeta. destruct (F keys) as (-> & -> & ->).
    pose proof (A keys) as L. cbv zeta in L. f_equal. unfold wallet_report. cbn. f_equal. lia.
  - intros keys. pose proof (A keys) as L. cbv zeta in L |- *. split; [cbn; lia|].
    exists (first_of ∅ (omap normalize_private_key keys)). split; [apply first_of_NoDup|]. split; [done|].
    assert (M : forall k, k ∈ first_of ∅ (omap normalize_private_key keys) <->
      exists key, key ∈ keys /\ normalize_private_key key = Some k).
    { intros k. rewrite <- list_elem_of_omap. split; [by intros [_ ?]%first_of_known|].
      intros I. apply first_of_all; [done|set_solver]. }
    split; [exact M|]. apply Forall_forall. intros k (key & _ & N)%M. unfold normalize_private_key in N.
    destruct (_ =? 64)%nat eqn:L64; [|done]. destruct (all_hex _) eqn:X; [|done]. injection N as <-.
    eexists. split_and!; [done|rewrite to_lower_length; by apply Nat.eqb_eq|by rewrite all_hex_lower|apply to_lower_idem].
Qed.
End Loaded.

(** One key spelled twice, one line that is none. *)
Definition sample_key (prefix : string) : string :=
  prefix +:+ "00000000000000000000000000000000000000000000000000000000000000aB".
Definition sample_file : string :=
  sample_key "0x" +:+ String LF (sample_key "  ") +:+ String LF "" +:+ String LF "nothing" +:+ String LF "".
Lemma wallet_files_agree_witness :
  load_from_keys_txt (fun _ key => Some key) (fun _ => Contents sample_file) "keys.txt" 137 =
    inr {| lw_wallets := ["0x00000000000000000000000000000000000000000000000000000000000000ab"];
           total_read := 3; unique := 1; duplicates := 1; invalid := 1 |}.
Proof.
  destruct (wallet_files_agree (fun _ key => Some key) (fun _ => inl "") (fun _ => Contents sample_file) "keys.txt" 137
              sample_file eq_refl) as (T & _). rewrite T. vm_compute. reflexivity.
Defined.
