(* ===== verification/Pinning.v ===== *)
(** * Thread pinning ([mev/execution/pinning.rs])

    Which core a role or a worker of the load test asks for. The cores the
    system reports, and whether a thread can be moved, are parameters. *)
From S2P Require Import Prelude.
#[local] Open Scope Z_scope.

Record ThreadPinningConfig := {
  network_core : usize;
  decode_core : usize;
  eval_core : usize;
  exec_core : usize;
  numa_node : usize }.

Record PinResult := {
  requested_core : usize;
  current_core : option usize;
  pr_numa_node : usize;
  success : bool }.

Inductive ThreadRole := Network | Decode | Eval | Executor.

Section Pinning.
(** [core_affinity::get_core_ids], [available_parallelism], the success of
    [set_for_current] and [sched_getcpu] after it. *)
Context (core_ids : option (list usize)) (parallelism : option usize).
Context (set_for_current : usize -> bool) (sched_getcpu : usize -> Z).

Definition fallback_count : usize := Nat.max (default 1%nat parallelism) 1.
Definition cores : list usize :=
  match default [] core_ids with [] => seq 0 fallback_count | detected => detected end.
(** [cores[index % cores.len()]]: no remainder by zero, no index past the end. *)
Definition pick (index : nat) : outcome usize :=
  match length cores with
  | O => Panicked
  | n => match cores !! (index mod n)%nat with Some c => Done c | None => Panicked end
  end.
Definition auto_detect : outcome ThreadPinningConfig :=
  n <-! pick 0;; d <-! pick 1;; e <-! pick 2;; x <-! pick 3;;
  Done {| network_core := n; decode_core := d; eval_core := e; exec_core := x; numa_node := 0 |}.

Definition current_cpu_core_id (moved_to : usize) : option usize :=
  let current := sched_getcpu moved_to in
  if 0 <=? current then Some (Z.to_nat current) else None.
Definition pin (numa_node requested : usize) : PinResult :=
  {| requested_core := requested; current_core := current_cpu_core_id requested;
     pr_numa_node := numa_node; success := set_for_current requested |}.

Definition core_of_role (self : ThreadPinningConfig) (role : ThreadRole) : usize :=
  match role with
  | Network => network_core self
  | Decode => decode_core self
  | Eval => eval_core self
  | Executor => exec_core self
  end.
Definition pin_current_thread (self : ThreadPinningConfig) (role : ThreadRole) : PinResult :=
  pin (numa_node self) (core_of_role self role).

Definition pin_runtime_load_worker (self : ThreadPinningConfig) (worker_id : usize) : PinResult :=
  pin (numa_node self)
    match default [] core_ids with
    | [] => eval_core self
    | ids => default (eval_core self) (ids !! (worker_id mod length ids)%nat)
    end.

(** ** Every core asked for is one the system has *)

Lemma pick_in index : exists c, pick index = Done c /\ c ∈ cores.
Proof.
  unfold pick. assert (0 < length cores)%nat as L.
  { unfold cores, fallback_count. destruct (default [] core_ids); [|simpl; lia]. rewrite length_seq. lia. }
  destruct (length cores) as [|n] eqn:E; [lia|].
  destruct (lookup_lt_is_Some_2 cores (index mod S n)) as [c C].
  { rewrite E. apply Nat.mod_upper_bound. lia. }
  rewrite C. exists c. split; [done|]. by eapply list_elem_of_lookup_2.
Qed.
Lemma auto_detect_cores : exists self, auto_detect = Done self /\ forall role, core_of_role self role ∈ cores.
Proof.
  unfold auto_detect. destruct (pick_in 0) as (n & -> & N), (pick_in 1) as (d & -> & D),
    (pick_in 2) as (e & -> & E), (pick_in 3) as (x & -> & X).
  eexists. split; [reflexivity|]. by intros [].
Qed.
Lemma worker_core self worker_id :
  auto_detect = Done self -> requested_core (pin_runtime_load_worker self worker_id) ∈ cores.
Proof.
  intros A. destruct auto_detect_cores as (self' & A' & R). rewrite A in A'. injection A' as <-.
  unfold pin_runtime_load_worker, pin. cbn [requested_core]. pose proof (R Eval) as E.
  unfold cores in *. destruct (default [] core_ids) as [|c ids] eqn:I; [exact E|].
  destruct (lookup_lt_is_Some_2 (c :: ids) (worker_id mod length (c :: ids))) as [x X].
  { apply Nat.mod_upper_bound. simpl. lia. }
  rewrite X. by eapply list_elem_of_lookup_2.
Qed.
End Pinning.
