(* ===== verification/LoadTest.v ===== *)
(** * The load test ([benchmark.rs])

    Synthetic swaps driven through the hot gate (decoding, the fast gate, the
    policy's preflight and quote) by several workers, and the report of what they
    counted and how long it took. The numbers of the host, the codec and the
    clocks of the workers are parameters. *)
From S2P Require Import Prelude F64 Text Ethers Config PoolCache Opportunity Adaptive Calldata Decode Gates.
From S2P Require Import Pnl Routes ConfigEnv EnvVars.
From Stdlib Require Import SpecFloat.
#[local] Open Scope string_scope.
#[local] Open Scope Z_scope.

(** ** Scenarios *)

Inductive RuntimeLoadProfile := Baseline | Adversarial.
#[export] Instance RuntimeLoadProfile_eq_dec : EqDecision RuntimeLoadProfile.
Proof. solve_decision. Defined.
Definition profile_as_str (self : RuntimeLoadProfile) : string :=
  match self with Baseline => "baseline" | Adversarial => "adversarial" end.

Inductive RuntimeLoadScenario :=
| Valid | MalformedCalldata | UnknownSelector | SmallNotional | ToxicGas | LongPath | ClusterBurst.
#[export] Instance RuntimeLoadScenario_eq_dec : EqDecision RuntimeLoadScenario.
Proof. solve_decision. Defined.
Definition scenario_as_str (self : RuntimeLoadScenario) : string :=
  match self with
  | Valid => "valid"
  | MalformedCalldata => "malformed_calldata"
  | UnknownSelector => "unknown_selector"
  | SmallNotional => "small_notional"
  | ToxicGas => "toxic_gas"
  | LongPath => "long_path"
  | ClusterBurst => "cluster_burst"
  end.

Definition runtime_load_scenario (index : Z) (profile : RuntimeLoadProfile) : RuntimeLoadScenario :=
  match profile with
  | Baseline => Valid
  | Adversarial =>
      match index mod 12 with
      | 0 => MalformedCalldata
      | 1 => UnknownSelector
      | 2 | 3 => SmallNotional
      | 4 | 5 => ToxicGas
      | 6 | 7 => LongPath
      | 8 | 9 => ClusterBurst
      | _ => Valid
      end
  end.
Definition scenario_gas_price (base : U256) (scenario : RuntimeLoadScenario) : U256 :=
  match scenario with ToxicGas => u256_smul base 4 | _ => base end.

Section Environment.
Context (env : string -> option string).
Definition env_u64 (name : string) (def : Z) : Z := default def (env_parsed env parse_u64 name).
Definition env_usize (name : string) (def : Z) : Z := default def (env_parsed env parse_u64 name).
Definition runtime_load_profile : RuntimeLoadProfile :=
  let explicit := to_lower (trim (default "" (env "RUNTIME_LOAD_TEST_PROFILE"))) in
  if string_eqb explicit "adversarial" || env_flag env "RUNTIME_LOAD_TEST_ADVERSARIAL" then Adversarial
  else Baseline.
Definition runtime_load_gas_price_wei (network : string) : U256 :=
  let default_gwei :=
    if string_eqb network "arbitrum" then 1
    else if string_eqb network "polygon" then 80
    else if string_eqb network "bsc" then 3
    else 25 in
  u256_smul (env_u64 "RUNTIME_LOAD_TEST_GAS_PRICE_GWEI" default_gwei) 1000000000.
End Environment.

(** ** Synthetic transactions *)

Section Synthetic.
Context (abi_encode : list Token -> Bytes).
Context (worker_id index : Z) (router : Address) (gas_price_wei : U256) (chain_id : u64).

Definition synthetic_raw_tx (input : Bytes) (value : U256) : Transaction :=
  {| tx_hash := Z.lor (wrap64 (Z.shiftl worker_id 32)) index; tx_nonce := index;
     tx_from := wrap64 (0x9000 + worker_id); tx_to := Some router; tx_value := value;
     tx_gas_price := Some gas_price_wei; tx_gas := 240000; tx_input := input;
     tx_max_priority_fee_per_gas := None; tx_max_fee_per_gas := None;
     tx_chain_id := Some chain_id; tx_block_number := None |}.

Definition size_mult (min_size_mult : Z) : Z := min_size_mult + wrap64 (worker_id + index) mod 5.
Definition hop_token (hop : nat) : Address :=
  0x3000 + wrap64 (worker_id + index + Z.of_nat hop) mod 8192.
Definition synthetic_path (token_in token_out : Address) (path_len : nat) : list Address :=
  ([token_in] ++ (hop_token <$> seq 1 (path_len - 1 - 1)) ++ [token_out])%list.
Definition synthetic_v2_eth_swap_tx (token_in token_out recipient : Address) (base_value_wei : U256)
    (min_size_mult : Z) (path_len : nat) : Transaction :=
  synthetic_raw_tx
    ([0x7f; 0xf3; 0x6a; 0xb5] ++
     abi_encode [TUint 0; TArray (TAddress <$> synthetic_path token_in token_out path_len);
                 TAddress recipient; TUint 4102444800])%list
    (u256_smul base_value_wei (size_mult min_size_mult)).

Definition synthetic_runtime_tx (scenario : RuntimeLoadScenario) (token_in token_out recipient : Address)
    (min_large_swap_wei : U256) : Transaction :=
  let swap := synthetic_v2_eth_swap_tx token_in in
  match scenario with
  | MalformedCalldata => synthetic_raw_tx [0x7f; 0xf3] min_large_swap_wei
  | UnknownSelector => synthetic_raw_tx [0xde; 0xad; 0xbe; 0xef; 0; 1; 2; 3] min_large_swap_wei
  | SmallNotional => swap token_out recipient (min_large_swap_wei / 10) 1 2%nat
  | LongPath => swap token_out recipient min_large_swap_wei 1 8%nat
  | ClusterBurst => swap 0x2bad recipient min_large_swap_wei 3 2%nat
  | ToxicGas | Valid => swap token_out recipient min_large_swap_wei 3 2%nat
  end.
End Synthetic.

(** ** Reports *)

(** The nine counters that a worker, a scenario and the whole test have. *)
Record RuntimeLoadCaseStats := {
  processed : Z;
  decoded : Z;
  decode_reject : Z;
  fast_pass : Z;
  fast_rejected : Z;
  adaptive_preflight_pass : Z;
  adaptive_preflight_reject : Z;
  quote_pass : Z;
  quote_reject : Z }.
#[export] Instance RuntimeLoadCaseStats_eta : RecordEta RuntimeLoadCaseStats :=
  fields Build_RuntimeLoadCaseStats <&> processed <&> decoded <&> decode_reject <&> fast_pass
    <&> fast_rejected <&> adaptive_preflight_pass <&> adaptive_preflight_reject <&> quote_pass
    <&> quote_reject.
Definition no_cases : RuntimeLoadCaseStats := Build_RuntimeLoadCaseStats 0 0 0 0 0 0 0 0 0.
Definition merge_case_stats (target source : RuntimeLoadCaseStats) : RuntimeLoadCaseStats :=
  {| processed := processed target + processed source;
     decoded := decoded target + decoded source;
     decode_reject := decode_reject target + decode_reject source;
     fast_pass := fast_pass target + fast_pass source;
     fast_rejected := fast_rejected target + fast_rejected source;
     adaptive_preflight_pass := adaptive_preflight_pass target + adaptive_preflight_pass source;
     adaptive_preflight_reject := adaptive_preflight_reject target + adaptive_preflight_reject source;
     quote_pass := quote_pass target + quote_pass source;
     quote_reject := quote_reject target + quote_reject source |}.
Definition rejects (stats : RuntimeLoadCaseStats) : Z :=
  decode_reject stats + fast_rejected stats + adaptive_preflight_reject stats + quote_reject stats.

Record RuntimeLoadSamples := {
  decode_us : list u64;
  fast_preflight_us : list u64;
  adaptive_preflight_us : list u64;
  adaptive_quote_us : list u64;
  total_hot_gate_us : list u64 }.
#[export] Instance RuntimeLoadSamples_eta : RecordEta RuntimeLoadSamples :=
  fields Build_RuntimeLoadSamples <&> decode_us <&> fast_preflight_us <&> adaptive_preflight_us
    <&> adaptive_quote_us <&> total_hot_gate_us.
Definition no_samples : RuntimeLoadSamples := Build_RuntimeLoadSamples [] [] [] [] [].

Record RuntimeLoadWorkerReport := {
  wr_stats : RuntimeLoadCaseStats;
  pinning_enabled : bool;
  wr_scenarios : gmap string RuntimeLoadCaseStats;
  wr_samples : RuntimeLoadSamples }.
#[export] Instance RuntimeLoadWorkerReport_eta : RecordEta RuntimeLoadWorkerReport :=
  fields Build_RuntimeLoadWorkerReport <&> wr_stats <&> pinning_enabled <&> wr_scenarios <&> wr_samples.
Definition worker_report (pinned : bool) : RuntimeLoadWorkerReport :=
  {| wr_stats := no_cases; pinning_enabled := pinned; wr_scenarios := ∅; wr_samples := no_samples |}.

(** [report.f += 1; report.scenario_mut(scenario).f += 1]. *)
Definition count_case (scenario : RuntimeLoadScenario) (incr : RuntimeLoadCaseStats -> RuntimeLoadCaseStats)
    (r : RuntimeLoadWorkerReport) : RuntimeLoadWorkerReport :=
  let key := scenario_as_str scenario in
  r <[ wr_stats ::= incr (wr_stats r) ]>
    <[ wr_scenarios ::= <[key := incr (default no_cases (wr_scenarios r !! key))]> (wr_scenarios r) ]>.

(** Latencies of a stage: the count, the average and the ranks of the sorted values. *)
Record LatencyUsSummary := {
  us_count : nat;
  us_avg : f64;
  us_min : u64;
  us_p50 : u64;
  us_p95 : u64;
  us_p99 : u64;
  us_max : u64 }.
Definition no_latency : LatencyUsSummary := Build_LatencyUsSummary 0 0%f64 0 0 0 0 0.
Definition rank_of (len percentile : nat) : nat := ((len - 1) * percentile / 100)%nat.
Definition percentile_u64 (values : list u64) (percentile : nat) : u64 :=
  match values with [] => 0 | _ => default 0 (values !! rank_of (length values) percentile) end.
Definition summarize_us (values : list u64) : LatencyUsSummary :=
  match values with
  | [] => no_latency
  | _ =>
      let sorted := merge_sort Z.le values in
      {| us_count := length sorted;
         us_avg := (fsum (f64_of_Z <$> sorted) / f64_of_nat (length sorted))%f64;
         us_min := default 0 (head sorted); us_p50 := percentile_u64 sorted 50;
         us_p95 := percentile_u64 sorted 95; us_p99 := percentile_u64 sorted 99;
         us_max := default 0 (last sorted) |}
  end.
Definition rate (numerator denominator : Z) : f64 :=
  if denominator =? 0 then 0.0%f64 else (f64_of_Z numerator * 100.0 / f64_of_Z denominator)%f64.
Definition elapsed_us (now started : Instant) : u64 := Z.min (elapsed now started / 1000) U64_MAX.

(** ** A worker *)

(** The clock, the policy and the report; [None] is [continue]. *)
Record LoadState := {
  ls_tick : nat;
  ls_policy : AdaptivePolicy;
  ls_report : RuntimeLoadWorkerReport }.
#[export] Instance LoadState_eta : RecordEta LoadState :=
  fields Build_LoadState <&> ls_tick <&> ls_policy <&> ls_report.
Definition LoadM (A : Type) : Type := LoadState -> outcome (LoadState * option A).
#[export] Instance load_ret : MRet LoadM := fun A a s => Done (s, Some a).
#[export] Instance load_bind : MBind LoadM := fun A B f m s =>
  match m s with
  | Done (s, Some a) => f a s
  | Done (s, None) => Done (s, None)
  | Panicked => Panicked
  end.
Definition continue_ {A} : LoadM A := fun s => Done (s, None).
Definition on_report (f : RuntimeLoadWorkerReport -> RuntimeLoadWorkerReport) : LoadM unit :=
  fun s => Done (s <[ ls_report ::= f (ls_report s) ]>, Some tt).
Definition on_policy {A} (f : AdaptivePolicy -> AdaptivePolicy * A) : LoadM A :=
  fun s => let '(policy, a) := f (ls_policy s) in Done (s <[ ls_policy ::= policy ]>, Some a).
Definition of_panic {A} (o : outcome A) : LoadM A :=
  fun s => match o with Done a => Done (s, Some a) | Panicked => Panicked end.

(** What the machine gives: the functions of its [libm], the hour, how many
    threads it runs at once, whether a worker could be moved to its core, the clock
    a worker reads, and the time all of them took. *)
Class Machine := {
  exp : f64 -> f64;
  ln_1p : f64 -> f64;
  utc_hour : u8;
  available_parallelism : option Z;
  pin_success : Z -> bool;
  worker_clk : Z -> nat -> Instant;
  wall_secs : f64 }.

(** [f64::from(x as f32)]. *)
Definition f64_via_f32 (x : f64) : f64 :=
  match x with
  | S754_finite s m e =>
      match binary_normalize 24 128 (cond_Zopp s (Z.pos m)) e s with
      | S754_finite s m e => binary_normalize 53 1024 (cond_Zopp s (Z.pos m)) e s
      | y => y
      end
  | _ => x
  end.

Section LoadTest.
Context {host : Host} {machine : Machine}.
Context (config : Config).

Section Worker.
Context (worker_id : Z) (min_large_swap_wei base_gas_price_wei : U256) (relays : list string).

Definition load_router : Address := default (wrap64 (0x7000 + worker_id)) (mev_executor (mev config)).
Definition load_token_in : Address :=
  match monitored_tokens config with token :: _ => mt_address token | [] => 0x1000 end.
Definition load_token_out (index : Z) : Address :=
  0x2000 + wrap64 (worker_id * 65537 + index) mod 4096.
Definition load_tx (scenario : RuntimeLoadScenario) (index : Z) : Transaction :=
  synthetic_runtime_tx abi_encode worker_id index load_router
    (scenario_gas_price base_gas_price_wei scenario) (chain_id config) scenario load_token_in
    (load_token_out index) (executor_address config) min_large_swap_wei.

Definition now : LoadM Instant :=
  fun s => Done (s <[ ls_tick ::= S (ls_tick s) ]>, Some (worker_clk worker_id (ls_tick s))).
Definition clock_from (s : LoadState) (i : nat) : Instant := worker_clk worker_id (ls_tick s + i)%nat.

Section Case.
Context (record : bool) (scenario : RuntimeLoadScenario) (index : Z) (total_started : Instant).

(** Everything counted or timed is so only after the warm-up. *)
Definition count (incr : RuntimeLoadCaseStats -> RuntimeLoadCaseStats) : LoadM unit :=
  if record then on_report (count_case scenario incr) else mret tt.
Definition time (put : u64 -> RuntimeLoadSamples -> RuntimeLoadSamples) (started : Instant) : LoadM unit :=
  if record then
    t ← now;
    on_report (fun r => r <[ wr_samples ::= put (elapsed_us t started) (wr_samples r) ]>)
  else mret tt.
Definition time_total : LoadM unit :=
  time (fun us x => x <[ total_hot_gate_us ::= (total_hot_gate_us x ++ [us])%list ]>) total_started.

Definition decode_case : LoadM SwapSignal :=
  started ← now;
  signal ← of_panic (decode_relevant_swap abi_decode display_f64 parse_ether (monitored_tokens config)
                       avx2 (load_tx scenario index) min_large_swap_wei (opportunity_mode (mev config)));
  time (fun us x => x <[ decode_us ::= (decode_us x ++ [us])%list ]>) started;;
  count (fun c => c <[ processed ::= processed c + 1 ]>);;
  match signal with
  | None => count (fun c => c <[ decode_reject ::= decode_reject c + 1 ]>);; time_total;; continue_
  | Some signal => count (fun c => c <[ decoded ::= decoded c + 1 ]>);; mret signal
  end.

Definition cluster_of (signal : SwapSignal) : ClusterKey :=
  {| ck_router := sw_router signal; ck_token_in := default 0 (head (sw_path signal));
     ck_token_out := default 0 (last (sw_path signal)); ck_selector := sw_selector signal |}.

Definition fast_case (signal : SwapSignal) (gas_price_wei : U256) (context : ContextSignal)
  : LoadM FastPreflightDecision :=
  started ← now;
  let fast := fast_preflight_gate signal gas_price_wei min_large_swap_wei config context in
  time (fun us x => x <[ fast_preflight_us ::= (fast_preflight_us x ++ [us])%list ]>) started;;
  if fp_should_continue fast then count (fun c => c <[ fast_pass ::= fast_pass c + 1 ]>);; mret fast
  else count (fun c => c <[ fast_rejected ::= fast_rejected c + 1 ]>);; time_total;; continue_.

Definition preflight_case (signal : SwapSignal) (gas_price_wei : U256) : LoadM unit :=
  started ← now;
  t ← now;
  preflight ← on_policy (fun policy => preflight_score exp ln_1p t policy
    {| pi_cluster := cluster_of signal; pi_notional_eth := wei_to_eth_f64 (sw_notional_wei signal);
       pi_gas_price_wei := gas_price_wei; pi_path_len := length (sw_path signal) |});
  time (fun us x => x <[ adaptive_preflight_us ::= (adaptive_preflight_us x ++ [us])%list ]>) started;;
  if should_continue preflight
  then count (fun c => c <[ adaptive_preflight_pass ::= adaptive_preflight_pass c + 1 ]>)
  else count (fun c => c <[ adaptive_preflight_reject ::= adaptive_preflight_reject c + 1 ]>);;
       time_total;; continue_.

Definition execution_cost_wei (gas_price_wei : U256) : U256 :=
  u256_smul gas_price_wei
    (Z.max (u64_sadd (estimated_exec_gas config) (estimated_bundle_overhead_gas config)) 180000).
(** The ratio of the fast gate stands where a latency is expected. *)
Definition load_quote_input (signal : SwapSignal) (gas_price_wei : U256) (context : ContextSignal)
    (fast : FastPreflightDecision) : AdaptiveQuoteInput :=
  {| qi_cluster := cluster_of signal; qi_pair := ck_token_out (cluster_of signal);
     qi_hour_utc := utc_hour; qi_context_priority_score := priority_score context;
     qi_context_toxicity_score := toxicity_score context;
     qi_expected_profit_wei := min_large_swap_wei / 200;
     qi_execution_cost_wei := execution_cost_wei gas_price_wei; qi_gas_price_wei := gas_price_wei;
     qi_lookup_latency_ms := fmax (f64_via_f32 (gas_ratio fast)) 0.0;
     qi_notional_eth := wei_to_eth_f64 (sw_notional_wei signal);
     qi_price_impact_bps := Z.min (max_price_impact_bps (mev config)) 80;
     relay_pressure_override := None |}.
(** The quote reads the clock once for each relay. *)
Definition quote_relays (input : AdaptiveQuoteInput) : LoadM AdaptiveQuote := fun s =>
  let '(policy, quote) := quote_for_relays exp ln_1p (clock_from s) (ls_policy s) input relays in
  Done (s <[ ls_policy ::= policy ]> <[ ls_tick ::= (ls_tick s + Nat.max 1 (length relays))%nat ]>, Some quote).
Definition quote_case (input : AdaptiveQuoteInput) : LoadM unit :=
  started ← now;
  quote ← quote_relays input;
  time (fun us x => x <[ adaptive_quote_us ::= (adaptive_quote_us x ++ [us])%list ]>) started;;
  time_total;;
  if should_execute quote then count (fun c => c <[ quote_pass ::= quote_pass c + 1 ]>)
  else count (fun c => c <[ quote_reject ::= quote_reject c + 1 ]>).
End Case.

Definition load_case (warmup : Z) (profile : RuntimeLoadProfile) (index : Z) : LoadM unit :=
  let record := warmup <=? index in
  let scenario := runtime_load_scenario index profile in
  let gas_price_wei := scenario_gas_price base_gas_price_wei scenario in
  total_started ← now;
  signal ← decode_case record scenario index total_started;
  context ← on_policy (fun policy => (policy, context_signal policy (sw_router signal) utc_hour));
  t ← now;
  on_policy (fun policy =>
    (observe_candidate_flow t policy (cluster_of signal) (sw_notional_wei signal) gas_price_wei, tt));;
  fast ← fast_case record scenario total_started signal gas_price_wei context;
  preflight_case record scenario total_started signal gas_price_wei;;
  quote_case record scenario total_started (load_quote_input signal gas_price_wei context fast).

(** The loop: a case that is left is followed by the next one. *)
Fixpoint load_cases (warmup : Z) (profile : RuntimeLoadProfile) (indices : list Z) (s : LoadState)
  : outcome LoadState :=
  match indices with
  | [] => Done s
  | index :: indices =>
      r <-! load_case warmup profile index s;; load_cases warmup profile indices r.1
  end.
Definition runtime_load_worker (cases warmup : Z) (profile : RuntimeLoadProfile)
  : outcome RuntimeLoadWorkerReport :=
  let total_iterations := u64_sadd cases warmup in
  s <-! load_cases warmup profile (seqZ 0 total_iterations)
          {| ls_tick := 0; ls_policy := AdaptivePolicy_new config;
             ls_report := worker_report (pin_success worker_id) |};;
  Done (ls_report s).
End Worker.

(** ** The report of the test *)

Record RuntimeLoadReport := {
  lr_network : string;
  lr_profile : string;
  lr_cases : Z;
  lr_warmup : Z;
  lr_concurrency : Z;
  wall_ms : f64;
  throughput_tps : f64;
  latency_budget_p99_us : u64;
  budget_pass : bool;
  lr_pinning_enabled : bool;
  lr_stats : RuntimeLoadCaseStats;
  rejection_rate : f64;
  malformed_rejection_rate : f64;
  small_notional_rejection_rate : f64;
  toxic_gas_rejection_rate : f64;
  long_path_rejection_rate : f64;
  cluster_burst_rejection_rate : f64;
  lr_scenarios : gmap string RuntimeLoadCaseStats;
  lr_decode : LatencyUsSummary;
  lr_fast_preflight : LatencyUsSummary;
  lr_adaptive_preflight : LatencyUsSummary;
  lr_adaptive_quote : LatencyUsSummary;
  total_hot_gate : LatencyUsSummary;
  lr_samples : RuntimeLoadSamples }.
#[export] Instance RuntimeLoadReport_eta : RecordEta RuntimeLoadReport :=
  fields Build_RuntimeLoadReport <&> lr_network <&> lr_profile <&> lr_cases <&> lr_warmup <&> lr_concurrency
    <&> wall_ms <&> throughput_tps <&> latency_budget_p99_us <&> budget_pass <&> lr_pinning_enabled
    <&> lr_stats <&> rejection_rate <&> malformed_rejection_rate <&> small_notional_rejection_rate
    <&> toxic_gas_rejection_rate <&> long_path_rejection_rate <&> cluster_burst_rejection_rate
    <&> lr_scenarios <&> lr_decode <&> lr_fast_preflight <&> lr_adaptive_preflight <&> lr_adaptive_quote
    <&> total_hot_gate <&> lr_samples.
Definition report_new (cases warmup concurrency budget : Z) (profile : RuntimeLoadProfile)
  : RuntimeLoadReport :=
  {| lr_network := network config; lr_profile := profile_as_str profile; lr_cases := cases;
     lr_warmup := warmup; lr_concurrency := concurrency; wall_ms := 0; throughput_tps := 0;
     latency_budget_p99_us := budget; budget_pass := false; lr_pinning_enabled := false;
     lr_stats := no_cases; rejection_rate := 0; malformed_rejection_rate := 0;
     small_notional_rejection_rate := 0; toxic_gas_rejection_rate := 0; long_path_rejection_rate := 0;
     cluster_burst_rejection_rate := 0; lr_scenarios := ∅; lr_decode := no_latency;
     lr_fast_preflight := no_latency; lr_adaptive_preflight := no_latency;
     lr_adaptive_quote := no_latency; total_hot_gate := no_latency; lr_samples := no_samples |}.

Definition extend_samples (x y : RuntimeLoadSamples) : RuntimeLoadSamples :=
  {| decode_us := decode_us x ++ decode_us y;
     fast_preflight_us := fast_preflight_us x ++ fast_preflight_us y;
     adaptive_preflight_us := adaptive_preflight_us x ++ adaptive_preflight_us y;
     adaptive_quote_us := adaptive_quote_us x ++ adaptive_quote_us y;
     total_hot_gate_us := total_hot_gate_us x ++ total_hot_gate_us y |}%list.
(** Scenarios of the worker go into those of the test; one that is new starts at zero. *)
Definition merge_scenarios : gmap string RuntimeLoadCaseStats -> gmap string RuntimeLoadCaseStats ->
    gmap string RuntimeLoadCaseStats :=
  merge (fun target source =>
    match source with
    | Some stats => Some (merge_case_stats (default no_cases target) stats)
    | None => target
    end).
Definition merge_report (self : RuntimeLoadReport) (worker : RuntimeLoadWorkerReport) : RuntimeLoadReport :=
  self <[ lr_stats ::= merge_case_stats (lr_stats self) (wr_stats worker) ]>
       <[ lr_pinning_enabled ::= lr_pinning_enabled self || pinning_enabled worker ]>
       <[ lr_scenarios ::= merge_scenarios (lr_scenarios self) (wr_scenarios worker) ]>
       <[ lr_samples ::= extend_samples (lr_samples self) (wr_samples worker) ]>.

Definition scenario_rejection_rate (scenarios : gmap string RuntimeLoadCaseStats) (scenario : string) : f64 :=
  match scenarios !! scenario with
  | None => 0.0%f64
  | Some stats => rate (rejects stats) (processed stats)
  end.
Definition finalize (self : RuntimeLoadReport) : RuntimeLoadReport :=
  let x := lr_samples self in
  let total := summarize_us (total_hot_gate_us x) in
  let rate_of := scenario_rejection_rate (lr_scenarios self) in
  self <[ throughput_tps ::= if (wall_ms self <=? EPSILON)%f64 then 0.0%f64
                             else (f64_of_Z (processed (lr_stats self)) / (wall_ms self / 1000.0))%f64 ]>
       <[ lr_decode ::= summarize_us (decode_us x) ]>
       <[ lr_fast_preflight ::= summarize_us (fast_preflight_us x) ]>
       <[ lr_adaptive_preflight ::= summarize_us (adaptive_preflight_us x) ]>
       <[ lr_adaptive_quote ::= summarize_us (adaptive_quote_us x) ]>
       <[ total_hot_gate ::= total ]>
       <[ budget_pass ::= us_p99 total <=? latency_budget_p99_us self ]>
       <[ rejection_rate ::= rate (rejects (lr_stats self)) (processed (lr_stats self)) ]>
       <[ malformed_rejection_rate ::= rate_of "malformed_calldata" ]>
       <[ small_notional_rejection_rate ::= rate_of "small_notional" ]>
       <[ toxic_gas_rejection_rate ::= rate_of "toxic_gas" ]>
       <[ long_path_rejection_rate ::= rate_of "long_path" ]>
       <[ cluster_burst_rejection_rate ::= rate_of "cluster_burst" ]>.

(** ** The test *)

(** [total / parts], one more for the first [total % parts]. *)
Definition share_of (total parts worker_id : Z) : Z :=
  total / parts + (if worker_id <? total mod parts then 1 else 0).
(** The first worker that panics ends the test. *)
Fixpoint merge_workers (workers : list (outcome RuntimeLoadWorkerReport)) (combined : RuntimeLoadReport)
  : string + RuntimeLoadReport :=
  match workers with
  | [] => inr combined
  | Done report :: workers => merge_workers workers (merge_report combined report)
  | Panicked :: _ => inl "runtime load test task failed"
  end.
Definition load_test_cases : Z := Z.max (env_usize env "RUNTIME_LOAD_TEST_CASES" 100000) 1.
Definition load_test_warmup : Z := env_usize env "RUNTIME_LOAD_TEST_WARMUP" 5000.
Definition load_test_concurrency (cases : Z) : Z :=
  Z.min (Z.max (env_usize env "RUNTIME_LOAD_TEST_CONCURRENCY" (default 1 available_parallelism)) 1) cases.
Definition relay_paths : list string :=
  match builder_relays config with [] => ["direct-rpc"] | relays => relays end.
Definition run_workers (cases warmup concurrency : Z) (profile : RuntimeLoadProfile) (min_large_swap_wei : U256)
  : list (outcome RuntimeLoadWorkerReport) :=
  (fun worker_id =>
     runtime_load_worker worker_id min_large_swap_wei (runtime_load_gas_price_wei env (network config))
       relay_paths (share_of cases concurrency worker_id) (share_of warmup concurrency worker_id) profile)
  <$> seqZ 0 concurrency.
(** [None]: the test was not asked for. *)
Definition maybe_run_runtime_load_test : option (string + RuntimeLoadReport) :=
  if negb (env_flag env "RUN_RUNTIME_LOAD_TEST") then None
  else
    let cases := load_test_cases in
    let warmup := load_test_warmup in
    let concurrency := load_test_concurrency cases in
    let budget_p99_us := env_u64 env "RUNTIME_LOAD_TEST_LATENCY_BUDGET_US" 250 in
    let profile := runtime_load_profile env in
    match parse_ether (display_f64 (min_large_swap_eth (mev config))) with
    | inl e => Some (inl e)
    | inr min_large_swap_wei =>
        Some (match merge_workers (run_workers cases warmup concurrency profile min_large_swap_wei)
                      (report_new cases warmup concurrency budget_p99_us profile) with
              | inl e => inl e
              | inr combined => inr (finalize (combined <[ wall_ms ::= (wall_secs * 1000.0)%f64 ]>))
              end)
    end.

(** ** What is printed *)

Definition budget_message (report : RuntimeLoadReport) (environment_hint : string) : option string :=
  if budget_pass report then None
  else Some ("runtime load test exceeded the 250us release budget: total_hot_gate p99=" +:+
             show_Z (us_p99 (total_hot_gate report)) +:+ "us max=" +:+ show_Z (us_max (total_hot_gate report)) +:+
             "us; " +:+ environment_hint).
Definition latency_us_line (label : string) (summary : LatencyUsSummary) : string :=
  "  " +:+ label +:+ ": n=" +:+ show_nat (us_count summary) +:+ " avg=" +:+ fmt_prec 2 (us_avg summary) +:+
  "us p50=" +:+ show_Z (us_p50 summary) +:+ "us p95=" +:+ show_Z (us_p95 summary) +:+ "us p99=" +:+
  show_Z (us_p99 summary) +:+ "us min=" +:+ show_Z (us_min summary) +:+ "us max=" +:+
  show_Z (us_max summary) +:+ "us".
Definition pass_rates_line (stats : RuntimeLoadCaseStats) : string :=
  "Pass rates: decoded=" +:+ fmt_prec 1 (rate (decoded stats) (processed stats)) +:+ "% fast=" +:+
  fmt_prec 1 (rate (fast_pass stats) (decoded stats)) +:+ "% adaptive_preflight=" +:+
  fmt_prec 1 (rate (adaptive_preflight_pass stats) (fast_pass stats)) +:+ "% quote=" +:+
  fmt_prec 1 (rate (quote_pass stats) (adaptive_preflight_pass stats)) +:+ "%".
Definition rejects_line (stats : RuntimeLoadCaseStats) : string :=
  "Rejects: decode=" +:+ show_Z (decode_reject stats) +:+ " fast=" +:+ show_Z (fast_rejected stats) +:+
  " adaptive_preflight=" +:+ show_Z (adaptive_preflight_reject stats) +:+ " quote=" +:+
  show_Z (quote_reject stats).
Definition scenario_line (name : string) (stats : RuntimeLoadCaseStats) : string :=
  "  " +:+ name +:+ ": n=" +:+ show_Z (processed stats) +:+ " decoded=" +:+ show_Z (decoded stats) +:+
  " final_pass=" +:+ show_Z (quote_pass stats) +:+ " rejects=" +:+ show_Z (rejects stats).
Definition adversarial_line (report : RuntimeLoadReport) : string :=
  "Adversarial rejection: malformed=" +:+ fmt_prec 1 (malformed_rejection_rate report) +:+
  "% small_notional=" +:+ fmt_prec 1 (small_notional_rejection_rate report) +:+
  "% toxic_gas=" +:+ fmt_prec 1 (toxic_gas_rejection_rate report) +:+
  "% long_path=" +:+ fmt_prec 1 (long_path_rejection_rate report) +:+
  "% cluster_burst=" +:+ fmt_prec 1 (cluster_burst_rejection_rate report) +:+ "%".
(** The scenarios of a [BTreeMap] come in the order of their names. *)
Definition by_name (a b : string * RuntimeLoadCaseStats) : comparison := String.compare a.1 b.1.
Definition print_runtime_load_report (report : RuntimeLoadReport) : list string :=
  (["=== Runtime Load Test ==="; "Network: " +:+ lr_network report; "Profile: " +:+ lr_profile report;
    "Cases: " +:+ show_Z (lr_cases report); "Warmup: " +:+ show_Z (lr_warmup report);
    "Concurrency: " +:+ show_Z (lr_concurrency report); "Wall time: " +:+ fmt_prec 1 (wall_ms report) +:+ "ms";
    "Throughput: " +:+ fmt_prec 0 (throughput_tps report) +:+ " tx/s";
    "Budget: total_hot_gate p99 <= " +:+ show_Z (latency_budget_p99_us report) +:+ "us => " +:+
      (if budget_pass report then "PASS" else "FAIL");
    ""; pass_rates_line (lr_stats report); rejects_line (lr_stats report);
    "Total rejection rate: " +:+ fmt_prec 1 (rejection_rate report) +:+ "%"] ++
   (if string_eqb (lr_profile report) (profile_as_str Adversarial) then [adversarial_line report] else []) ++
   match sort_by by_name (map_to_list (lr_scenarios report)) with
   | [] => []
   | scenarios => "Scenario breakdown:" :: ((fun '(name, stats) => scenario_line name stats) <$> scenarios)
   end ++
   [""; latency_us_line "decode" (lr_decode report); latency_us_line "fast_preflight" (lr_fast_preflight report);
    latency_us_line "adaptive_preflight" (lr_adaptive_preflight report);
    latency_us_line "adaptive_quote" (lr_adaptive_quote report);
    latency_us_line "total_hot_gate" (total_hot_gate report); ""])%list.
End LoadTest.
