(* ===== verification/LoadTestProps.v ===== *)
(** * The load test counts every case once and tests what its scenarios say

    What a case adds to the books is computed from the stages it goes through
    ([effects]); the books of the workers are then merged. *)
From S2P Require Import Prelude F64 Text TextFacts Ethers Config Opportunity Calldata Decode Gates Adaptive.
From S2P Require Import ConfigFacts Selector Routes ConfigEnv EnvVars LoadTest.
#[local] Open Scope string_scope.
#[local] Open Scope Z_scope.

(** ** Counters *)

Lemma stats_ext a b :
  processed a = processed b -> decoded a = decoded b -> decode_reject a = decode_reject b ->
  fast_pass a = fast_pass b -> fast_rejected a = fast_rejected b ->
  adaptive_preflight_pass a = adaptive_preflight_pass b ->
  adaptive_preflight_reject a = adaptive_preflight_reject b ->
  quote_pass a = quote_pass b -> quote_reject a = quote_reject b -> a = b.
Proof. destruct a, b. cbn. congruence. Qed.
(** An equation of sums, field by field. *)
Ltac stats_lia := apply stats_ext; cbn; lia.
Lemma merge_assoc a b c : merge_case_stats (merge_case_stats a b) c = merge_case_stats a (merge_case_stats b c).
Proof. stats_lia. Qed.
Lemma merge_comm a b : merge_case_stats a b = merge_case_stats b a.
Proof. stats_lia. Qed.
Lemma merge_none_l a : merge_case_stats no_cases a = a.
Proof. by destruct a. Qed.
Lemma merge_none_r a : merge_case_stats a no_cases = a.
Proof. by rewrite merge_comm, merge_none_l. Qed.

(** Every case that enters a stage leaves it by one of its two ways. *)
Definition balanced (c : RuntimeLoadCaseStats) : Prop :=
  processed c = decoded c + decode_reject c /\
  decoded c = fast_pass c + fast_rejected c /\
  fast_pass c = adaptive_preflight_pass c + adaptive_preflight_reject c /\
  adaptive_preflight_pass c = quote_pass c + quote_reject c /\
  0 <= decode_reject c /\ 0 <= fast_rejected c /\ 0 <= adaptive_preflight_reject c /\
  0 <= quote_pass c /\ 0 <= quote_reject c.
Lemma balanced_merge a b : balanced a -> balanced b -> balanced (merge_case_stats a b).
Proof. unfold balanced. destruct a, b. cbn. lia. Qed.
Lemma balanced_none : balanced no_cases.
Proof. unfold balanced. cbn. lia. Qed.

(** How often each stage is timed: once for each case that enters it. *)
Definition entered (c : RuntimeLoadCaseStats) : list Z :=
  [processed c; decoded c; fast_pass c; adaptive_preflight_pass c; processed c].
Definition lens (x : RuntimeLoadSamples) : list Z :=
  (fun l => Z.of_nat (length l)) <$>
  [decode_us x; fast_preflight_us x; adaptive_preflight_us x; adaptive_quote_us x; total_hot_gate_us x].
Definition stats_of (scenarios : gmap string RuntimeLoadCaseStats) (key : string) : RuntimeLoadCaseStats :=
  default no_cases (scenarios !! key).
#[global] Arguments stats_of : simpl never.

(** ** What a stage adds *)

(** Counters, and how many latencies of each stage. *)
Definition Effect : Type := RuntimeLoadCaseStats * list Z.
Definition nothing : Effect := (no_cases, [0; 0; 0; 0; 0]).
Definition and_then (e e' : Effect) : Effect :=
  (merge_case_stats e.1 e'.1, zip_with Z.add e.2 e'.2).
Definition each_with (l l' : list Effect) : list Effect := e ← l; and_then e <$> l'.

Definition booked (scenario : RuntimeLoadScenario) (e : Effect) (r r' : RuntimeLoadWorkerReport) : Prop :=
  wr_stats r' = merge_case_stats (wr_stats r) e.1 /\
  lens (wr_samples r') = zip_with Z.add (lens (wr_samples r)) e.2 /\
  forall key, stats_of (wr_scenarios r') key =
    merge_case_stats (stats_of (wr_scenarios r) key)
      (if String.eqb key (scenario_as_str scenario) then e.1 else no_cases).

Lemma zip_add_assoc (l1 l2 l3 : list Z) :
  zip_with Z.add (zip_with Z.add l1 l2) l3 = zip_with Z.add l1 (zip_with Z.add l2 l3).
Proof.
  revert l2 l3. induction l1 as [|x l1 IH]; intros [|y l2] [|z l3]; cbn; try done. rewrite IH. f_equal. lia.
Qed.
Lemma booked_trans scenario e e' r r' r'' :
  booked scenario e r r' -> booked scenario e' r' r'' -> booked scenario (and_then e e') r r''.
Proof.
  intros (S1 & L1 & K1) (S2 & L2 & K2). split_and!.
  - rewrite S2, S1. apply merge_assoc.
  - rewrite L2, L1. apply zip_add_assoc.
  - intros key. rewrite K2, K1, merge_assoc. destruct (String.eqb _ _); [done|]. by rewrite merge_none_l.
Qed.
Lemma booked_nothing scenario r : booked scenario nothing r r.
Proof.
  split_and!; [by rewrite merge_none_r| |].
  - unfold lens. simpl. by rewrite !Z.add_0_r.
  - intros key. by destruct (String.eqb _ _); rewrite merge_none_r.
Qed.

Definition effect_of (record : bool) (e : Effect) : Effect := if record then e else nothing.

(** When [m] goes on it has added one of [gos], when it leaves the case one of [stops]. *)
Definition effects (record : bool) (scenario : RuntimeLoadScenario) {A} (m : LoadM A)
    (gos stops : list Effect) : Prop :=
  forall s s' r, m s = Done (s', r) ->
  exists e, e ∈ (match r with Some _ => gos | None => stops end) /\
            booked scenario (effect_of record e) (ls_report s) (ls_report s').

Section Effects.
Context (record : bool) (scenario : RuntimeLoadScenario).
Abbreviation eff := (effects record scenario).

Lemma effects_bind {A B} (m : LoadM A) (k : A -> LoadM B) g1 s1 g2 s2 :
  eff m g1 s1 -> (forall a, eff (k a) g2 s2) -> eff (m ≫= k) (each_with g1 g2) (s1 ++ each_with g1 s2)%list.
Proof.
  intros M K s s'' r. unfold mbind, load_bind. destruct (m s) as [[s' [a|]]|] eqn:E; [| |done].
  2: { intros [= <- <-]. destruct (M _ _ _ E) as (e & I & Bk). exists e. split; [|done].
       apply elem_of_app. by left. }
  intros K'. destruct (M _ _ _ E) as (e & I & Bk), (K a _ _ _ K') as (e' & I' & Bk').
  exists (and_then e e'). split.
  - assert (forall l, e' ∈ l -> and_then e e' ∈ each_with g1 l) as W.
    { intros l L. unfold each_with. apply list_elem_of_bind. exists e. split; [|done].
      apply list_elem_of_fmap. eauto. }
    destruct r; [by apply W|]. apply elem_of_app. right. by apply W.
  - pose proof (booked_trans _ _ _ _ _ _ Bk Bk') as T. unfold effect_of in *. destruct record; exact T.
Qed.
Lemma effects_silent {A} (m : LoadM A) :
  (forall s, exists o, m s = o /\ match o with
     | Done (s', r) => ls_report s' = ls_report s /\ r <> None | Panicked => True end) ->
  eff m [nothing] [].
Proof.
  intros Q s s' r E. destruct (Q s) as (o & E' & C). rewrite E in E'. subst o. destruct C as [-> N].
  destruct r; [|done]. exists nothing. split; [by left|]. unfold effect_of. destruct record; apply booked_nothing.
Qed.
Lemma effects_ret {A} (a : A) : eff (mret a) [nothing] [].
Proof. apply effects_silent. intros s. by eexists. Qed.
Lemma effects_now worker_id `{Machine} : eff (now worker_id) [nothing] [].
Proof. apply effects_silent. intros s. eexists. split; [reflexivity|]. by destruct s. Qed.
Lemma effects_policy {A} (f : _ -> _ * A) : eff (on_policy f) [nothing] [].
Proof.
  apply effects_silent. intros s. eexists. split; [reflexivity|]. unfold on_policy.
  destruct (f _). by destruct s.
Qed.
Lemma effects_panic {A} (o : outcome A) : eff (of_panic o) [nothing] [].
Proof. apply effects_silent. intros s. eexists. split; [reflexivity|]. unfold of_panic. by destruct o. Qed.
Lemma effects_continue {A} : eff (continue_ (A:=A)) [] [nothing].
Proof.
  intros s s' r [= <- <-]. exists nothing. split; [by left|]. unfold effect_of. destruct record; apply booked_nothing.
Qed.

Lemma effects_if {A} (b : bool) (m m' : LoadM A) g1 s1 g2 s2 :
  eff m g1 s1 -> eff m' g2 s2 -> eff (if b then m else m') (g1 ++ g2)%list (s1 ++ s2)%list.
Proof.
  intros M M' s s' r E. destruct b; [destruct (M _ _ _ E) as (e & I & Bk)|destruct (M' _ _ _ E) as (e & I & Bk)];
    exists e; (split; [|done]); destruct r; apply elem_of_app; tauto.
Qed.
Lemma effects_option {A B} (o : option A) (m : LoadM B) (k : A -> LoadM B) g1 s1 g2 s2 :
  eff m g1 s1 -> (forall a, eff (k a) g2 s2) ->
  eff (match o with None => m | Some a => k a end) (g1 ++ g2)%list (s1 ++ s2)%list.
Proof.
  intros M K s s' r E. destruct o as [a|]; [destruct (K a _ _ _ E) as (e & I & Bk)|destruct (M _ _ _ E) as (e & I & Bk)];
    exists e; (split; [|done]); destruct r; apply elem_of_app; tauto.
Qed.
Lemma effects_relays `{Machine} worker_id relays input : eff (quote_relays worker_id relays input) [nothing] [].
Proof.
  apply effects_silent. intros s. eexists. split; [reflexivity|]. unfold quote_relays.
  destruct (quote_for_relays _ _ _ _ _ _). by destruct s.
Qed.

Lemma effects_count incr :
  (forall c, incr c = merge_case_stats c (incr no_cases)) ->
  eff (count record scenario incr) [(incr no_cases, [0; 0; 0; 0; 0])] [].
Proof.
  intros I. unfold count, effects.
  destruct record; [|intros s s' r [= <- <-]; eexists; split; [by left|apply booked_nothing]].
  intros s s' r [= <- <-]. eexists. split; [by left|]. destruct s as [n p [st pin sc x]].
  split_and!; cbn [fst snd effect_of].
  - apply I.
  - unfold lens. simpl. by rewrite !Z.add_0_r.
  - intros key. unfold stats_of. destruct (String.eqb_spec key (scenario_as_str scenario)) as [->|D].
    + cbn. rewrite lookup_insert_eq. apply I.
    + cbn. rewrite lookup_insert_ne by done. by rewrite merge_none_r.
Qed.
Lemma effects_time worker_id `{Machine} put started :
  (forall us x, lens (put us x) = zip_with Z.add (lens x) (lens (put 0 no_samples))) ->
  eff (time worker_id record put started) [(no_cases, lens (put 0 no_samples))] [].
Proof.
  intros T. unfold time, effects. destruct record; [|].
  - intros s s' r E. unfold mbind, load_bind, now, on_report in E. injection E as <- <-.
    eexists. split; [by left|]. destruct s as [n p [st pin sc x]]. split_and!; cbn [fst snd effect_of].
    + by rewrite merge_none_r.
    + apply T.
    + intros key. by destruct (String.eqb _ _); rewrite merge_none_r.
  - intros s s' r [= <- <-]. eexists. split; [by left|]. apply booked_nothing.
Qed.
End Effects.

(** A stage's effects, read off its text. *)
Ltac stage_effects :=
  lazymatch goal with
  | |- effects _ _ (mret _) _ _ => apply effects_ret
  | |- effects _ _ (now _) _ _ => apply effects_now
  | |- effects _ _ (on_policy _) _ _ => apply effects_policy
  | |- effects _ _ (of_panic _) _ _ => apply effects_panic
  | |- effects _ _ continue_ _ _ => apply effects_continue
  | |- effects _ _ (quote_relays _ _ _) _ _ => apply effects_relays
  | |- effects _ _ (count _ _ _) _ _ =>
      apply effects_count; intros ?; stats_lia
  | |- effects _ _ (time _ _ _ _) _ _ =>
      apply effects_time; intros ? []; unfold lens; simpl; rewrite ?length_app; simpl;
      rewrite ?Nat2Z.inj_add, ?Z.add_0_r; reflexivity
  | |- effects _ _ (mbind _ _) _ _ => eapply effects_bind; [stage_effects|intros ?; stage_effects]
  | |- effects _ _ (if _ then _ else _) _ _ => eapply effects_if; stage_effects
  | |- effects _ _ (match _ with None => _ | Some _ => _ end) _ _ =>
      eapply effects_option; [stage_effects|intros ?; stage_effects]
  end.

(** What a case may add: one case that left somewhere, timed where it was. *)
Definition fine (e : Effect) : Prop := balanced e.1 /\ processed e.1 = 1 /\ e.2 = entered e.1.
#[export] Instance balanced_dec c : Decision (balanced c).
Proof. unfold balanced. apply _. Defined.
#[export] Instance fine_dec e : Decision (fine e).
Proof. unfold fine. apply _. Defined.

Section Books.
Context {host : Host} {machine : Machine} (config : Config).
Context (worker_id : Z) (min_large_swap_wei base_gas_price_wei : U256) (relays : list string).

Lemma load_case_books warmup profile index s s' r :
  load_case config worker_id min_large_swap_wei base_gas_price_wei relays warmup profile index s = Done (s', r) ->
  let scenario := runtime_load_scenario index profile in
  exists e, fine e /\ booked scenario (effect_of (warmup <=? index) e) (ls_report s) (ls_report s').
Proof.
  intros E scenario. set (record := warmup <=? index).
  assert (exists gos stops, effects record scenario
    (load_case config worker_id min_large_swap_wei base_gas_price_wei relays warmup profile index) gos stops /\
    Forall fine (gos ++ stops)%list) as (gos & stops & Ef & F).
  { eexists _, _. split.
    - unfold load_case, decode_case, fast_case, preflight_case, quote_case, time_total. cbv zeta.
      fold scenario. fold record. stage_effects.
    - apply (bool_decide_eq_true_1 _). vm_compute. reflexivity. }
  destruct (Ef _ _ _ E) as (e & I & Bk). exists e. split; [|done].
  rewrite Forall_forall in F. apply F. apply elem_of_app. destruct r; tauto.
Qed.
End Books.

(** ** The books *)

Definition all_scenarios : list RuntimeLoadScenario :=
  [Valid; MalformedCalldata; UnknownSelector; SmallNotional; ToxicGas; LongPath; ClusterBurst].
Definition sum_of (scenarios : gmap string RuntimeLoadCaseStats) : RuntimeLoadCaseStats :=
  foldr merge_case_stats no_cases ((fun scenario => stats_of scenarios (scenario_as_str scenario)) <$> all_scenarios).

(** [cases] of each scenario were counted, the totals are their sum, and each
    stage was timed once for every case that entered it. *)
Definition books_ok (cases : RuntimeLoadScenario -> Z) (stats : RuntimeLoadCaseStats)
    (scenarios : gmap string RuntimeLoadCaseStats) (samples : RuntimeLoadSamples) : Prop :=
  (forall scenario, let c := stats_of scenarios (scenario_as_str scenario) in
     balanced c /\ processed c = cases scenario) /\
  stats = sum_of scenarios /\ lens samples = entered stats.

Lemma books_none : books_ok (fun _ => 0) no_cases ∅ no_samples.
Proof. split_and!; [|done|done]. intros scenario. split; [apply balanced_none|done]. Qed.
Lemma books_ext cases cases' stats scenarios samples :
  (forall scenario, cases scenario = cases' scenario) ->
  books_ok cases stats scenarios samples -> books_ok cases' stats scenarios samples.
Proof. intros C (B & S & L). split_and!; [|done|done]. intros scenario. rewrite <- C. apply B. Qed.
Lemma entered_merge a b : entered (merge_case_stats a b) = zip_with Z.add (entered a) (entered b).
Proof. done. Qed.

Lemma sum_of_one scenarios scenarios' scenario one :
  (forall key, stats_of scenarios' key = merge_case_stats (stats_of scenarios key)
     (if String.eqb key (scenario_as_str scenario) then one else no_cases)) ->
  sum_of scenarios' = merge_case_stats (sum_of scenarios) one.
Proof.
  intros K. unfold sum_of, all_scenarios. cbn [fmap list_fmap foldr]. rewrite !K.
  destruct scenario; cbn [scenario_as_str]; cbn [String.eqb Ascii.eqb Bool.eqb];
    rewrite ?merge_none_r; stats_lia.
Qed.
Lemma books_case cases scenario e r r' :
  books_ok cases (wr_stats r) (wr_scenarios r) (wr_samples r) -> fine e -> booked scenario e r r' ->
  books_ok (fun s => cases s + if decide (s = scenario) then 1 else 0)
    (wr_stats r') (wr_scenarios r') (wr_samples r').
Proof.
  intros (B & S & L) (F1 & F2 & F3) (S' & L' & K'). split_and!.
  - intros s. cbv zeta. rewrite K'. destruct (B s) as [B1 B2].
    destruct (String.eqb_spec (scenario_as_str s) (scenario_as_str scenario)) as [D|D].
    + rewrite decide_True by (by destruct s, scenario). split; [by apply balanced_merge|]. cbn. lia.
    + rewrite decide_False by (by intros ->). rewrite merge_none_r. split; [done|]. lia.
  - rewrite S', S. symmetry. by apply (sum_of_one _ _ scenario).
  - by rewrite L', S', L, F3, entered_merge.
Qed.

Lemma stats_of_merge a b key :
  stats_of (merge_scenarios a b) key = merge_case_stats (stats_of a key) (stats_of b key).
Proof.
  unfold stats_of, merge_scenarios. rewrite lookup_merge.
  destruct (a !! key) as [x|], (b !! key) as [y|]; cbn; by rewrite ?merge_none_r, ?merge_none_l.
Qed.
Lemma sum_of_merge a b : sum_of (merge_scenarios a b) = merge_case_stats (sum_of a) (sum_of b).
Proof.
  unfold sum_of, all_scenarios. cbn [fmap list_fmap foldr]. rewrite !stats_of_merge. stats_lia.
Qed.
Lemma lens_extend x y : lens (extend_samples x y) = zip_with Z.add (lens x) (lens y).
Proof. unfold lens. simpl. by rewrite !length_app, !Nat2Z.inj_add. Qed.
Lemma books_merge cases cases' self r :
  books_ok cases (lr_stats self) (lr_scenarios self) (lr_samples self) ->
  books_ok cases' (wr_stats r) (wr_scenarios r) (wr_samples r) ->
  let self' := merge_report self r in
  books_ok (fun s => cases s + cases' s) (lr_stats self') (lr_scenarios self') (lr_samples self').
Proof.
  intros (B & S & L) (B' & S' & L'). cbv zeta.
  change (lr_stats (merge_report self r)) with (merge_case_stats (lr_stats self) (wr_stats r)).
  change (lr_scenarios (merge_report self r)) with (merge_scenarios (lr_scenarios self) (wr_scenarios r)).
  change (lr_samples (merge_report self r)) with (extend_samples (lr_samples self) (wr_samples r)).
  split_and!.
  - intros s. cbv zeta. rewrite stats_of_merge. destruct (B s) as [? E], (B' s) as [? E'].
    split; [by apply balanced_merge|]. cbn. by rewrite E, E'.
  - by rewrite sum_of_merge, S, S'.
  - by rewrite lens_extend, L, L', entered_merge.
Qed.

(** ** A worker's books *)

Lemma filter_none {A} (P : A -> Prop) `{forall x, Decision (P x)} l :
  Forall (fun x => ~ P x) l -> filter P l = [].
Proof. induction 1 as [|x l X F IH]; [done|]. by rewrite filter_cons, decide_False. Qed.

Definition count_of (f : Z -> Prop) `{forall i, Decision (f i)} (indices : list Z) : Z :=
  Z.of_nat (length (filter f indices)).
Definition cases_of (profile : RuntimeLoadProfile) (indices : list Z) (scenario : RuntimeLoadScenario) : Z :=
  count_of (fun i => runtime_load_scenario i profile = scenario) indices.

Section Workers.
Context {host : Host} {machine : Machine} (config : Config).

Lemma load_cases_books worker_id mn gp relays warmup profile indices cases s s' :
  books_ok cases (wr_stats (ls_report s)) (wr_scenarios (ls_report s)) (wr_samples (ls_report s)) ->
  load_cases config worker_id mn gp relays warmup profile indices s = Done s' ->
  books_ok (fun sc => cases sc + cases_of profile (filter (fun i => warmup <= i) indices) sc)
    (wr_stats (ls_report s')) (wr_scenarios (ls_report s')) (wr_samples (ls_report s')).
Proof.
  revert cases s. induction indices as [|i indices IH]; intros cases s B; cbn [load_cases].
  { intros [= ->]. revert B. apply books_ext. intros sc. unfold cases_of, count_of. cbn. lia. }
  unfold mbind, outcome_bind. destruct (load_case _ _ _ _ _ _ _ _ _) as [[s1 r1]|] eqn:E; [|done].
  intros E'. destruct (load_case_books _ _ _ _ _ _ _ _ _ _ _ E) as (e & F & Bk). rewrite filter_cons.
  destruct (Z.leb_spec warmup i) as [W|W], (decide (warmup <= i)); try lia; cbn [effect_of] in Bk.
  - pose proof (IH _ _ (books_case _ _ _ _ _ B F Bk) E') as G. revert G. apply books_ext. intros sc.
    unfold cases_of, count_of. rewrite filter_cons. repeat case_decide; try congruence; cbn [length]; lia.
  - assert (books_ok cases (wr_stats (ls_report s1)) (wr_scenarios (ls_report s1)) (wr_samples (ls_report s1))) as B1.
    { destruct Bk as (S1 & L1 & K1), B as (B & S & L). cbn [fst snd nothing] in *.
      rewrite merge_none_r in S1. split_and!.
      - intros sc. cbv zeta. rewrite K1. destruct (String.eqb _ _); rewrite merge_none_r; apply B.
      - rewrite S1, S. symmetry. rewrite (sum_of_one _ _ _ _ K1). by rewrite merge_none_r.
      - rewrite L1, L, S1. unfold entered. simpl. by rewrite !Z.add_0_r. }
    exact (IH _ _ B1 E').
Qed.

Lemma filter_warm a b : 0 <= a -> 0 <= b -> filter (fun i => a <= i) (seqZ 0 (b + a)) = seqZ a b.
Proof.
  intros A B. rewrite Z.add_comm, seqZ_app by lia. rewrite filter_app, Z.add_0_l.
  rewrite (filter_none _ (seqZ 0 a)), (filter_all _ (seqZ a b)); [done|..];
    apply Forall_forall; intros i I%elem_of_seqZ; lia.
Qed.
Lemma worker_books worker_id mn gp relays cases warmup profile r :
  0 <= cases -> 0 <= warmup -> cases + warmup <= U64_MAX ->
  runtime_load_worker config worker_id mn gp relays cases warmup profile = Done r ->
  books_ok (cases_of profile (seqZ warmup cases)) (wr_stats r) (wr_scenarios r) (wr_samples r).
Proof.
  intros C W M. unfold runtime_load_worker. rewrite sat_add_small by done.
  unfold mbind, outcome_bind. destruct (load_cases _ _ _ _ _ _ _ _ _) as [s|] eqn:E; [|done]. intros [= <-].
  pose proof (fun B => load_cases_books _ _ _ _ _ _ _ (fun _ => 0) _ _ B E) as G. cbn beta in G.
  rewrite filter_warm in G by done. apply G, books_none.
Qed.
End Workers.

(** ** The whole test *)

Definition sumZ (l : list Z) : Z := foldr Z.add 0 l.
Lemma sumZ_app l k : sumZ (l ++ k) = sumZ l + sumZ k.
Proof. unfold sumZ. induction l; cbn; lia. Qed.
Lemma sumZ_map_add {A} (f g : A -> Z) l :
  sumZ ((fun x => f x + g x) <$> l) = sumZ (f <$> l) + sumZ (g <$> l).
Proof. unfold sumZ. induction l; cbn in *; lia. Qed.
Lemma sumZ_map_zero {A} (l : list A) : sumZ ((fun _ => 0) <$> l) = 0.
Proof. unfold sumZ. induction l; cbn in *; lia. Qed.
Lemma sumZ_swap {A B} (f : A -> B -> Z) l k :
  sumZ ((fun b => sumZ ((fun a => f a b) <$> l)) <$> k) = sumZ ((fun a => sumZ (f a <$> k)) <$> l).
Proof.
  induction l as [|a l IH]; [apply sumZ_map_zero|].
  transitivity (sumZ ((fun b => f a b + sumZ ((fun a => f a b) <$> l)) <$> k)); [done|].
  rewrite sumZ_map_add, IH. done.
Qed.

Lemma shares_sum total parts :
  0 <= total -> 1 <= parts -> sumZ (share_of total parts <$> seqZ 0 parts) = total.
Proof.
  intros T P. pose proof (Z.mod_pos_bound total parts ltac:(lia)) as R.
  pose proof (Z.div_mod total parts ltac:(lia)) as D.
  assert (forall n : nat, sumZ (share_of total parts <$> seqZ 0 (Z.of_nat n)) =
            Z.of_nat n * (total / parts) + Z.min (Z.of_nat n) (total mod parts)) as S.
  { induction n as [|n IH]; [change (sumZ _) with 0; lia|]. rewrite seqZ_S, fmap_app, sumZ_app, IH.
    cbn [fmap list_fmap sumZ foldr]. unfold share_of. rewrite Z.add_0_l.
    destruct (Z.ltb_spec (Z.of_nat n) (total mod parts)); lia. }
  specialize (S (Z.to_nat parts)). rewrite Z2Nat.id in S by lia. rewrite S. lia.
Qed.
Lemma share_nonneg total parts i : 0 <= total -> 1 <= parts -> 0 <= share_of total parts i.
Proof. intros. unfold share_of. pose proof (Z.div_pos total parts ltac:(lia) ltac:(lia)). destruct (_ <? _); lia. Qed.
Lemma share_le_total total parts i : 0 <= i -> 0 <= total -> 1 <= parts -> share_of total parts i <= total.
Proof.
  intros I T P. unfold share_of. pose proof (Z.mod_pos_bound total parts ltac:(lia)).
  pose proof (Z.div_mod total parts ltac:(lia)). pose proof (Z.div_pos total parts ltac:(lia) ltac:(lia)).
  destruct (Z.ltb_spec i (total mod parts)); nia.
Qed.

Lemma cases_of_all profile indices : sumZ (cases_of profile indices <$> all_scenarios) = Z.of_nat (length indices).
Proof.
  unfold all_scenarios, sumZ, cases_of, count_of. cbn [fmap list_fmap foldr].
  induction indices as [|i indices IH]; [done|]. rewrite !filter_cons. revert IH.
  destruct (runtime_load_scenario i profile);
    repeat ((case_decide; [congruence|]) || (case_decide; [|congruence])); cbn [length]; lia.
Qed.
Lemma books_processed cases stats scenarios samples :
  books_ok cases stats scenarios samples -> balanced stats /\ processed stats = sumZ (cases <$> all_scenarios).
Proof.
  intros (B & -> & _). unfold sum_of, sumZ, all_scenarios. cbn [fmap list_fmap foldr].
  split; [repeat (apply balanced_merge; [apply B|]); apply balanced_none|].
  cbn [processed merge_case_stats no_cases]. by rewrite !(proj2 (B _)).
Qed.

Lemma merge_workers_books ws (f : Z -> outcome RuntimeLoadWorkerReport) counts cases self final :
  books_ok cases (lr_stats self) (lr_scenarios self) (lr_samples self) ->
  (forall w r, w ∈ ws -> f w = Done r -> books_ok (counts w) (wr_stats r) (wr_scenarios r) (wr_samples r)) ->
  merge_workers (f <$> ws) self = inr final ->
  books_ok (fun sc => cases sc + sumZ ((fun w => counts w sc) <$> ws))
    (lr_stats final) (lr_scenarios final) (lr_samples final).
Proof.
  revert cases self. induction ws as [|w ws IH]; intros cases self B F; cbn [fmap list_fmap merge_workers].
  { intros [= ->]. revert B. apply books_ext. intros sc. cbn. lia. }
  destruct (f w) as [r|] eqn:E; [|done]. intros M.
  assert (w ∈ w :: ws) as I by left.
  pose proof (IH _ _ (books_merge _ _ _ _ B (F _ _ I E))
    (fun w r I => F w r (list_elem_of_further _ _ _ I)) M) as G.
  revert G. apply books_ext.
  intros sc. cbn. unfold sumZ. lia.
Qed.

Lemma summarize_count l : us_count (summarize_us l) = length l.
Proof. destruct l as [|x l]; [done|]. cbn [summarize_us us_count]. apply Permutation_length, merge_sort_Permutation. Qed.

Section Test.
Context {host : Host} {machine : Machine} (config : Config).

(** The cases of a scenario in the workers' shares. *)
Definition scheduled (scenario : RuntimeLoadScenario) : Z :=
  let cases := load_test_cases in
  let workers := load_test_concurrency cases in
  sumZ ((fun w => cases_of (runtime_load_profile env)
           (seqZ (share_of load_test_warmup workers w) (share_of cases workers w)) scenario) <$> seqZ 0 workers).

Lemma env_usize_nonneg name def : 0 <= def -> 0 <= env_usize env name def.
Proof.
  intros D. unfold env_usize, env_parsed. destruct (env name) as [v|]; cbn; [|done].
  destruct (parse_u64 (trim v)) as [n|] eqn:N; [|done]. exact (proj1 (parse_uint_range _ _ _ N)).
Qed.

(** C31: a load test that ends has counted every case it was asked for exactly once,
    after the warm-up, in the scenario it was made for: what enters a stage leaves
    it by one of its two ways, in total and for every scenario; the totals are the
    sums of the scenarios; each stage has a latency for each case that entered it. *)
Theorem load_test_accounts report :
  maybe_run_runtime_load_test config = Some (inr report) ->
  load_test_cases + load_test_warmup <= U64_MAX ->
  let stats := lr_stats report in
  processed stats = load_test_cases /\ balanced stats /\ rejects stats = processed stats - quote_pass stats /\
  stats = sum_of (lr_scenarios report) /\
  (forall scenario, let c := stats_of (lr_scenarios report) (scenario_as_str scenario) in
     balanced c /\ processed c = scheduled scenario) /\
  (fun s => Z.of_nat (us_count s)) <$> [lr_decode report; lr_fast_preflight report;
    lr_adaptive_preflight report; lr_adaptive_quote report; total_hot_gate report] = entered stats.
Proof.
  unfold maybe_run_runtime_load_test. destruct (env_flag _ _); [|done]. cbn [negb].
  destruct (parse_ether _) as [e|mn]; [done|]. cbv zeta.
  destruct (merge_workers _ _) as [e|combined] eqn:M; [done|]. intros [= <-] U.
  assert (0 <= load_test_warmup) as W by (apply env_usize_nonneg; lia).
  assert (1 <= load_test_cases) as C by (unfold load_test_cases; lia).
  assert (1 <= load_test_concurrency load_test_cases) as P by (unfold load_test_concurrency; lia).
  unfold run_workers in M. pose proof (fun B F => merge_workers_books _ _
    (fun w => cases_of (runtime_load_profile env)
       (seqZ (share_of load_test_warmup (load_test_concurrency load_test_cases) w)
             (share_of load_test_cases (load_test_concurrency load_test_cases) w))) (fun _ => 0) _ _ B F M) as G.
  destruct G as (B & S & L); [apply books_none| |].
  { intros w r I%elem_of_seqZ R. eapply worker_books; [| | |exact R]; [apply share_nonneg; lia..|].
    pose proof (share_le_total load_test_cases (load_test_concurrency load_test_cases) w).
    pose proof (share_le_total load_test_warmup (load_test_concurrency load_test_cases) w). lia. }
  destruct (books_processed _ _ _ _ (conj B (conj S L))) as [BT PT].
  cbv zeta. set (final := finalize _). change (lr_stats final) with (lr_stats combined).
  change (lr_scenarios final) with (lr_scenarios combined). split_and!; [|exact BT| |exact S|exact B|].
  - rewrite PT. etransitivity; [apply (sumZ_swap (fun w => cases_of _ (seqZ (_ w) (_ w))))|].
    etransitivity; [|apply (shares_sum load_test_cases (load_test_concurrency load_test_cases)); lia].
    f_equal. apply list_fmap_ext. intros _ w _. rewrite cases_of_all, length_seqZ.
    apply Z2Nat.id, share_nonneg; lia.
  - unfold balanced in BT. unfold rejects. lia.
  - rewrite <- L. unfold lens. cbn [fmap list_fmap]. unfold final. cbn. by rewrite !summarize_count.
Qed.
End Test.

(** ** The budget *)

Lemma sorted_rank (l : list Z) r v limit :
  StronglySorted Z.le l -> l !! (r : nat) = Some v ->
  v <= limit <-> (length (filter (fun x => (limit < x)%Z) l) <= length l - 1 - r)%nat.
Proof.
  intros S L. pose proof (lookup_lt_Some _ _ _ L) as R. pose proof (take_drop_middle _ _ _ L) as E.
  rewrite <- E in S. rewrite <- E at 1. apply StronglySorted_app in S as (H1 & _ & S2).
  apply StronglySorted_inv in S2 as [_ F]. rewrite filter_app, length_app.
  assert (length (drop (S r) l) = length l - S r)%nat as D by apply length_drop.
  assert (length (take r l) = r) as T by (rewrite length_take; lia).
  split; intros V.
  - rewrite (filter_none _ (take r l)), filter_cons, decide_False; [|lia|].
    + simpl. pose proof (length_filter (fun x => limit < x) (drop (S r) l)). lia.
    + apply Forall_forall. intros x X. specialize (H1 x v X ltac:(by left)). lia.
  - destruct (Z.le_gt_cases v limit) as [|G]; [done|].
    rewrite (filter_all _ (v :: drop (S r) l)), length_cons, D in V; [lia|].
    apply Forall_cons. split; [lia|]. eapply Forall_impl; [exact F|]. intros x. lia.
Qed.

Lemma rank_bounds n : (0 < n)%nat -> let r := rank_of n 99 in (100 * r <= 99 * (n - 1) < 100 * r + 100)%nat.
Proof.
  intros N r. unfold r, rank_of. pose proof (Nat.div_mod ((n - 1) * 99) 100 ltac:(lia)).
  pose proof (Nat.mod_upper_bound ((n - 1) * 99) 100 ltac:(lia)). lia.
Qed.
Lemma p99_bound l limit :
  0 <= limit ->
  us_p99 (summarize_us l) <= limit <->
  100 * Z.of_nat (length (filter (fun us => limit < us) l)) <= Z.of_nat (length l) + 98.
Proof.
  intros B. destruct l as [|x l]; [cbn; lia|]. cbn [summarize_us us_p99]. set (k := merge_sort Z.le (x :: l)).
  assert (k ≡ₚ x :: l) as P by apply merge_sort_Permutation. rewrite <- P.
  assert (0 < length k)%nat as N by (rewrite P; simpl; lia).
  assert (StronglySorted Z.le k) as S by (apply Sorted_StronglySorted; [apply _|apply Sorted_merge_sort, _]).
  clearbody k.
  unfold percentile_u64. destruct k as [|y k]; [simpl in N; lia|]. set (r := rank_of _ _).
  pose proof (rank_bounds _ N : (100 * r <= 99 * (length (y :: k) - 1) < 100 * r + 100)%nat) as R.
  clearbody r. unfold u64 in *.
  destruct (lookup_lt_is_Some_2 (y :: k) r ltac:(lia)) as [v V]. rewrite V. cbn [default].
  rewrite (sorted_rank _ r v limit S V). lia.
Qed.

(** C33: the budget of the test: of [n] timed cases it passes exactly when those slower
    than it are no more than [(n - 1) / 100] rounded up: none of a single case, one of
    2 to 101 cases, two only from 102 cases on. *)
Theorem budget_allows_one_percent {host : Host} {machine : Machine} config report :
  maybe_run_runtime_load_test config = Some (inr report) ->
  let times := total_hot_gate_us (lr_samples report) in
  let slow := Z.of_nat (length (filter (fun us => latency_budget_p99_us report < us) times)) in
  budget_pass report = true <-> 100 * slow <= Z.of_nat (length times) + 98.
Proof.
  unfold maybe_run_runtime_load_test. destruct (env_flag _ _); [|done]. cbn [negb].
  destruct (parse_ether _) as [e|mn]; [done|]. cbv zeta.
  destruct (merge_workers _ _) as [e|combined] eqn:M; [done|]. intros [= <-].
  assert (0 <= latency_budget_p99_us combined) as B.
  { assert (forall ws self, merge_workers ws self = inr combined ->
      latency_budget_p99_us combined = latency_budget_p99_us self) as K.
    { induction ws as [|[r|] ws IH]; intros self; cbn [merge_workers]; [by intros [= ->]| |done].
      by intros ->%IH. }
    rewrite (K _ _ M). cbn. apply env_usize_nonneg. lia. }
  cbv zeta. set (final := finalize _). change (lr_samples final) with (lr_samples combined).
  change (latency_budget_p99_us final) with (latency_budget_p99_us combined).
  change (budget_pass final) with
    (us_p99 (summarize_us (total_hot_gate_us (lr_samples combined))) <=? latency_budget_p99_us combined).
  rewrite Z.leb_le. by apply p99_bound.
Qed.

(** ** The scenarios *)

Section Scenarios.
Context {host : Host} {codec : AbiCodec abi_encode abi_decode} (config : Config).

Lemma address_vec path : token_as_address_vec (TArray (TAddress <$> path)) = Some path.
Proof. cbn. induction path as [|a path IH]; [done|]. cbn. cbn in IH. by rewrite IH. Qed.

Lemma eth_selector simd args :
  find_selector simd ([0x7f; 0xf3; 0x6a; 0xb5] ++ args)%list = Done (Some 1%nat).
Proof. destruct simd; reflexivity. Qed.

(** What a synthetic swap is decoded to. *)
Definition synthetic_signal (router value : Z) (path : list Address) : SwapSignal :=
  (Decode.signal_of [0x7f; 0xf3; 0x6a; 0xb5] router value (Some 0) path SwapV2 1.0%f64 "abi")
    <[ sw_notional_wei ::= value ]>.
Lemma decode_synthetic tx router path recipient mn mode :
  let tokens := [TUint 0; TArray (TAddress <$> path); TAddress recipient; TUint 4102444800] in
  tokens_ok [PUint 256; PArray PAddress; PAddress; PUint 256] tokens = true -> (2 <= length path)%nat ->
  tx_to tx = Some router -> tx_input tx = ([0x7f; 0xf3; 0x6a; 0xb5] ++ abi_encode tokens)%list ->
  decode_relevant_swap abi_decode display_f64 parse_ether (monitored_tokens config) avx2 tx mn mode =
  Done (if negb (bool_decide (mode = Scavenger)) && (tx_value tx <? mn) then None
        else Some (synthetic_signal router (tx_value tx) path)).
Proof.
  intros tokens T P To In. unfold decode_relevant_swap, tx_selector. rewrite In, eth_selector, To.
  cbn [mbind outcome_bind obind opt SELECTORS lookup list_lookup].
  unfold decode_swap_signal. cbn [decode_levels drop app]. unfold decode_swap_signal_body.
  change (sel_in _ [SWAP_EXACT_ETH_FOR_TOKENS; SWAP_EXACT_ETH_FOR_TOKENS_SUPPORTING_FEE]) with true. cbv iota.
  assert (decode_eth_for_tokens abi_decode [0x7f; 0xf3; 0x6a; 0xb5] router (tx_value tx) (abi_encode tokens) =
          Some (synthetic_signal router (tx_value tx) path)) as E.
  { unfold decode_eth_for_tokens. rewrite (abi_decode_encode _ tokens T). unfold tokens, at_.
    cbn [lookup list_lookup mbind option_bind]. by rewrite address_vec. }
  rewrite drop_0, E. cbn [opt obind]. unfold estimate_notional_wei, or_else.
  change (sel_in (sw_selector (synthetic_signal _ _ _)) _) with true. cbv iota. cbn [opt obind].
  change (sw_path (synthetic_signal _ _ path)) with path. destruct (Nat.ltb_spec (length path) 2); [lia|].
  change (sw_amount_in (synthetic_signal _ ?v _)) with v. by destruct (negb _ && _).
Qed.

Definition is_address (a : Z) : Prop := 0 <= a < 2 ^ 160.
Lemma address_ok a : is_address a -> token_ok PAddress (TAddress a) = true.
Proof. intros [H1 H2]. cbn [token_ok]. apply andb_true_iff. split; [by apply Z.leb_le|by apply Z.ltb_lt]. Qed.
Lemma swap_tokens_ok path recipient :
  Forall is_address path -> is_address recipient ->
  tokens_ok [PUint 256; PArray PAddress; PAddress; PUint 256]
    [TUint 0; TArray (TAddress <$> path); TAddress recipient; TUint 4102444800] = true.
Proof.
  intros P R. assert (token_ok (PArray PAddress) (TArray (TAddress <$> path)) = true) as A.
  { cbn [token_ok]. apply forallb_forall. intros t I. apply list_elem_of_In, list_elem_of_fmap in I as (a & -> & I).
    rewrite Forall_forall in P. by apply address_ok, P. }
  pose proof (address_ok recipient R) as B. unfold tokens_ok. cbn [token_ok] in *. by rewrite A, B.
Qed.
Lemma synthetic_path_ok worker_id index token_in token_out n :
  is_address token_in -> is_address token_out -> (2 <= n)%nat ->
  Forall is_address (synthetic_path worker_id index token_in token_out n) /\
  length (synthetic_path worker_id index token_in token_out n) = n.
Proof.
  intros I O N. unfold synthetic_path. split.
  - apply Forall_app. split; [by constructor|]. apply Forall_app. split; [|by constructor].
    apply Forall_fmap, Forall_forall. intros hop _. unfold hop_token, is_address. cbn.
    pose proof (Z.mod_pos_bound (wrap64 (worker_id + index + Z.of_nat hop)) 8192). lia.
  - rewrite !length_app, length_fmap, length_seq. simpl. lia.
Qed.
Lemma value_grows mn worker_id index k :
  0 < mn <= U256_MAX -> 1 <= k -> mn <= u256_smul mn (size_mult worker_id index k).
Proof.
  intros M K. unfold size_mult, sat_mul. pose proof (Z.mod_pos_bound (wrap64 (worker_id + index)) 5). nia.
Qed.
Lemma value_small mn worker_id index :
  0 < mn -> u256_smul (mn / 10) (size_mult worker_id index 1) < mn.
Proof.
  intros M. unfold size_mult, sat_mul. pose proof (Z.mod_pos_bound (wrap64 (worker_id + index)) 5).
  pose proof (Z.div_mod mn 10). pose proof (Z.mod_pos_bound mn 10). pose proof (Z.div_pos mn 10). nia.
Qed.

Section Decoded.
Context (worker_id index mn base_gas_price_wei : Z) (scenario : RuntimeLoadScenario).
Context (minimum : 0 < mn <= U256_MAX) (executor : is_address (executor_address config)).
Context (monitored : Forall (fun token => is_address (mt_address token)) (monitored_tokens config)).

Lemma token_in_ok : is_address (load_token_in config).
Proof. unfold load_token_in. destruct monitored as [|token l T F]; [split; done|exact T]. Qed.
Lemma token_out_ok : is_address (load_token_out worker_id index).
Proof.
  unfold load_token_out, is_address. pose proof (Z.mod_pos_bound (wrap64 (worker_id * 65537 + index)) 4096). lia.
Qed.

Definition decoded_tx : outcome (option SwapSignal) :=
  decode_relevant_swap abi_decode display_f64 parse_ether (monitored_tokens config) avx2
    (load_tx config worker_id mn base_gas_price_wei scenario index) mn (opportunity_mode (mev config)).

Lemma decode_load_tx base k n token_out :
  (2 <= n)%nat -> is_address token_out ->
  load_tx config worker_id mn base_gas_price_wei scenario index =
    synthetic_v2_eth_swap_tx abi_encode worker_id index (load_router config worker_id)
      (scenario_gas_price base_gas_price_wei scenario) (chain_id config)
      (load_token_in config) token_out (executor_address config) base k n ->
  let value := u256_smul base (size_mult worker_id index k) in
  decoded_tx = Done
    (if negb (bool_decide (opportunity_mode (mev config) = Scavenger)) && (value <? mn) then None
     else Some (synthetic_signal (load_router config worker_id) value
                  (synthetic_path worker_id index (load_token_in config) token_out n))).
Proof.
  intros N O E value. destruct (synthetic_path_ok worker_id index _ _ n token_in_ok O N) as [P L].
  unfold decoded_tx. rewrite (decode_synthetic _ (load_router config worker_id)
    (synthetic_path worker_id index (load_token_in config) token_out n) (executor_address config)); rewrite ?E.
  - done.
  - by apply swap_tokens_ok.
  - by rewrite L.
  - done.
  - done.
Qed.
Lemma decode_large_tx k n token_out :
  1 <= k -> (2 <= n)%nat -> is_address token_out ->
  load_tx config worker_id mn base_gas_price_wei scenario index =
    synthetic_v2_eth_swap_tx abi_encode worker_id index (load_router config worker_id)
      (scenario_gas_price base_gas_price_wei scenario) (chain_id config)
      (load_token_in config) token_out (executor_address config) mn k n ->
  exists signal, decoded_tx = Done (Some signal) /\
    sw_router signal = load_router config worker_id /\
    sw_path signal = synthetic_path worker_id index (load_token_in config) token_out n /\
    sw_notional_wei signal = u256_smul mn (size_mult worker_id index k) /\ mn <= sw_notional_wei signal.
Proof.
  intros K N O E. rewrite (decode_load_tx mn k n token_out N O E).
  pose proof (value_grows mn worker_id index k minimum K) as V.
  destruct (Z.ltb_spec (u256_smul mn (size_mult worker_id index k)) mn); [lia|]. rewrite andb_false_r.
  eexists. split; [reflexivity|]. by split_and!.
Qed.
End Decoded.

(** The path of the swap of a scenario, token by token: from the first monitored
    token, or 0x1000, to a token that varies with the case, except that a burst
    always ends at 0x2bad; only the long path has hops between, six of them. *)
Definition expected_path (worker_id : Z) (scenario : RuntimeLoadScenario) (index : Z) : list Address :=
  let token_in := match monitored_tokens config with [] => 0x1000 | token :: _ => mt_address token end in
  let token_out := 0x2000 + wrap64 (worker_id * 65537 + index) mod 4096 in
  match scenario with
  | ClusterBurst => [token_in; 0x2bad]
  | LongPath =>
      token_in :: ((fun hop => 0x3000 + wrap64 (worker_id + index + hop) mod 8192) <$> [1; 2; 3; 4; 5; 6]) ++ [token_out]
  | _ => [token_in; token_out]
  end%list.
(** How often the base of the notional is taken. *)
Definition expected_size (worker_id : Z) (scenario : RuntimeLoadScenario) (index : Z) : Z :=
  match scenario with LongPath | SmallNotional => 1 | _ => 3 end + wrap64 (worker_id + index) mod 5.

(** C32: every scenario tests what its name says: malformed calldata and an unknown
    selector are never decoded; a small notional, one to five tenths of the minimum,
    is decoded in the scavenger mode only and never passes the fast gate; the others
    are decoded to a swap of the worker's router over exactly the path of the
    scenario, one to five times the minimum for the long path of eight tokens, three
    to seven times for the others, a burst always between the same two tokens; the
    gas price is four times the base when the gas is toxic. *)
Theorem scenarios_test_what_they_say worker_id scenario index mn base_gas_price_wei :
  0 < mn <= U256_MAX -> is_address (executor_address config) ->
  Forall (fun token => is_address (mt_address token)) (monitored_tokens config) ->
  let tx := load_tx config worker_id mn base_gas_price_wei scenario index in
  let mode := opportunity_mode (mev config) in
  let result := decode_relevant_swap abi_decode display_f64 parse_ether (monitored_tokens config) avx2 tx mn mode in
  let built signal base :=
    sw_router signal = load_router config worker_id /\ sw_path signal = expected_path worker_id scenario index /\
    sw_notional_wei signal = u256_smul base (expected_size worker_id scenario index) in
  tx_gas_price tx = Some (match scenario with ToxicGas => u256_smul base_gas_price_wei 4 | _ => base_gas_price_wei end) /\
  match scenario with
  | MalformedCalldata | UnknownSelector => result = Done None
  | SmallNotional =>
      match mode with
      | Scavenger => exists signal, result = Done (Some signal) /\ built signal (mn / 10) /\
          forall gas_price context,
            fast_preflight_gate signal gas_price mn config context = fast_reject "notional_below_min"
      | _ => result = Done None
      end
  | _ => exists signal, result = Done (Some signal) /\ built signal mn /\ mn <= sw_notional_wei signal
  end.
Proof.
  intros M X F tx mode result built. change result with (decoded_tx worker_id index mn base_gas_price_wei scenario).
  split; [by destruct scenario|].
  pose proof (token_out_ok worker_id index) as TO. assert (is_address 0x2bad) as TB by (split; done).
  pose proof (fun k n token_out => decode_large_tx worker_id index mn base_gas_price_wei scenario M X F k n token_out) as G.
  destruct scenario.
  - destruct (G 3 2%nat (load_token_out worker_id index)) as (signal & D & R & P & N & L); [done..|]. by exists signal.
  - reflexivity.
  - unfold decoded_tx, mode. destruct (opportunity_mode _); destruct avx2; reflexivity.
  - rewrite (decode_load_tx worker_id index mn base_gas_price_wei SmallNotional X F (mn / 10) 1 2 _ ltac:(lia) TO eq_refl).
    pose proof (value_small mn worker_id index ltac:(lia)) as V. unfold mode.
    destruct (Z.ltb_spec (u256_smul (mn / 10) (size_mult worker_id index 1)) mn); [|lia].
    destruct (opportunity_mode _); [done|done|]. eexists. split; [reflexivity|]. split; [done|].
    intros gas_price context.
    unfold fast_preflight_gate. change (sw_notional_wei (synthetic_signal _ ?v _)) with v.
    destruct (Nat.ltb_spec (path_len (synthetic_signal (load_router config worker_id)
      (u256_smul (mn / 10) (size_mult worker_id index 1))
      (synthetic_path worker_id index (load_token_in config) (load_token_out worker_id index) 2))) 2) as [L|L].
    { change (2 < 2)%nat in L. lia. }
    destruct (Z.ltb_spec (u256_smul (mn / 10) (size_mult worker_id index 1)) mn); [done|lia].
  - destruct (G 3 2%nat (load_token_out worker_id index)) as (signal & D & R & P & N & L); [done..|]. by exists signal.
  - destruct (G 1 8%nat (load_token_out worker_id index)) as (signal & D & R & P & N & L); [done|lia|done|done|].
    by exists signal.
  - destruct (G 3 2%nat 0x2bad) as (signal & D & R & P & N & L); [done..|]. by exists signal.
Qed.
End Scenarios.

(** ** A test of 24 cases by two workers *)

Definition load_env (name : string) : option string :=
  if string_eqb name "RUN_RUNTIME_LOAD_TEST" then Some "true"
  else if string_eqb name "RUNTIME_LOAD_TEST_CASES" then Some "24"
  else if string_eqb name "RUNTIME_LOAD_TEST_WARMUP" then Some "3"
  else if string_eqb name "RUNTIME_LOAD_TEST_CONCURRENCY" then Some "2"
  else if string_eqb name "RUNTIME_LOAD_TEST_PROFILE" then Some "Adversarial"
  else None.
Definition load_host : Host :=
  {| ln := fun x => (x - 1)%f64; powf := fun x _ => x; debug_address := fun _ => "0x";
     debug_hash := fun _ => "0x"; display_f64 := fun _ => "1"; fmt_prec := fun _ _ => "1";
     debug_state := fun _ => ""; to_json := fun _ => None; from_json := fun _ => None;
     parse_ether := fun _ => inr (10 ^ 18); env := load_env; keccak256 := fun _ => replicate 32 7;
     abi_encode := tree_encode; abi_decode := tree_decode; abi_error := fun _ _ => "invalid data";
     clk := fun n => Z.of_nat n; avx2 := true |}.
Definition load_machine : Machine :=
  {| exp := fun x => (1 + x)%f64; ln_1p := fun x => x; utc_hour := 12; available_parallelism := Some 4;
     pin_success := fun worker => worker =? 0;
     worker_clk := fun worker n => Z.of_nat n * 300000 * (1 + worker); wall_secs := 0.5%f64 |}.
Definition load_config : Config := sample_config Scavenger false [].
Definition load_report : RuntimeLoadReport :=
  match maybe_run_runtime_load_test (host := load_host) (machine := load_machine) load_config with
  | Some (inr report) => report
  | _ => report_new load_config 0 0 0 0 Baseline
  end.

Lemma load_test_accounts_witness :
  (fun c => (processed c, decoded c, rejects c)) (lr_stats load_report) = (24, 20, 24) /\
  balanced (lr_stats load_report) /\
  processed (stats_of (lr_scenarios load_report) "toxic_gas") = 4.
Proof.
  destruct (load_test_accounts (host := load_host) (machine := load_machine) load_config load_report)
    as (T & B & _ & _ & S & _); [vm_compute; reflexivity|vm_compute; discriminate|].
  split; [vm_compute; reflexivity|]. split; [exact B|].
  etransitivity; [exact (proj2 (S ToxicGas))|vm_compute; reflexivity].
Defined.

Lemma budget_allows_one_percent_witness :
  budget_pass load_report = false /\
  let times := total_hot_gate_us (lr_samples load_report) in
  ~ 100 * Z.of_nat (length (filter (fun us => latency_budget_p99_us load_report < us) times)) <=
    Z.of_nat (length times) + 98.
Proof.
  destruct (budget_allows_one_percent (host := load_host) (machine := load_machine) load_config load_report)
    as [_ T]; [vm_compute; reflexivity|].
  assert (budget_pass load_report = false) as F by (vm_compute; reflexivity).
  split; [exact F|]. intros times C. rewrite (T C) in F. discriminate F.
Defined.

Lemma scenarios_test_what_they_say_witness :
  exists signal, decode_relevant_swap tree_decode (fun _ => "1") (fun _ => inr (10 ^ 18)) [] true
      (load_tx (host := load_host) load_config 1 (10 ^ 18) 25 LongPath 18) (10 ^ 18) Scavenger = Done (Some signal) /\
    sw_path signal = [0x1000; 12308; 12309; 12310; 12311; 12312; 12313; 8211] /\ 10 ^ 18 <= sw_notional_wei signal.
Proof.
  assert (0 < 10 ^ 18 <= U256_MAX) as M by (split; vm_compute; [reflexivity|discriminate]).
  assert (is_address (executor_address load_config)) as X by (split; [discriminate|reflexivity]).
  pose proof (scenarios_test_what_they_say (host := load_host) (codec := tree_codec) load_config 1 LongPath 18
              (10 ^ 18) 25 M X (Forall_nil_2 _)) as T.
  destruct T as [_ (signal & D & (_ & P & _) & N)]. exists signal. split; [exact D|]. split; [exact P|exact N].
Defined.
