(* ===== verification/Probes.v ===== *)
(** * The network benchmark ([benchmark.rs])

    The endpoints probed one call after the other, the figures of a probe, the
    scores blended from them and the ranking. The network is a parameter: how long
    the [i]-th call of a probe took and whether it failed. *)
From S2P Require Import Prelude F64 Text Config Rpc Routes ConfigEnv LoadTest.
#[local] Open Scope string_scope.
#[local] Open Scope Z_scope.

(** ** Probes *)

Definition Duration : Type := Z.
Record ProbeMetrics := {
  latencies : list Duration;
  errors : list string;
  timeout_count : nat }.
#[export] Instance ProbeMetrics_eta : RecordEta ProbeMetrics :=
  fields Build_ProbeMetrics <&> latencies <&> errors <&> timeout_count.
Definition ProbeMetrics_default : ProbeMetrics := Build_ProbeMetrics [] [] 0.
Definition single_error (message : string) : ProbeMetrics :=
  {| latencies := []; errors := [message]; timeout_count := 0 |}.

Definition is_timeout_error (error : string) : bool :=
  let lower := to_lower error in contains lower "timeout" || contains lower "timed out".
(** What one call adds: its latency, or its error. *)
Definition call_outcome (metrics : ProbeMetrics) (answer : Duration * option string) : ProbeMetrics :=
  match answer.2 with
  | None => metrics <[ latencies ::= (latencies metrics ++ [answer.1])%list ]>
  | Some err =>
      let metrics := if is_timeout_error err then metrics <[ timeout_count ::= S (timeout_count metrics) ]>
                     else metrics in
      metrics <[ errors ::= (errors metrics ++ [err])%list ]>
  end.
(** [f i] is the answer to the [i]-th call, which starts at [first]. *)
Definition measure_async (samples : nat) (f : nat -> Duration * option string) (first : nat) : ProbeMetrics :=
  foldl call_outcome ProbeMetrics_default (f <$> seq first samples).
Fixpoint measure_rounds_from (rounds samples : nat) (f : nat -> Duration * option string) (first : nat)
    (combined : ProbeMetrics) : ProbeMetrics :=
  match rounds with
  | O => combined
  | S rounds =>
      let round := measure_async samples f first in
      measure_rounds_from rounds samples f (first + samples)%nat
        {| latencies := (latencies combined ++ latencies round)%list;
           errors := (errors combined ++ errors round)%list;
           timeout_count := (timeout_count combined + timeout_count round)%nat |}
  end.
Definition measure_rounds (rounds samples : nat) (f : nat -> Duration * option string) : ProbeMetrics :=
  measure_rounds_from rounds samples f 0 ProbeMetrics_default.

(** ** Figures *)

Record ProbeSummary := {
  avg_ms : f64;
  min_ms : Z;
  max_ms : Z;
  p50_ms : Z;
  p95_ms : Z;
  jitter_ms : f64;
  success_rate : f64;
  ok_count : nat;
  err_count : nat;
  ps_timeout_count : nat }.

Definition as_millis (d : Duration) : Z := d / millis.
Definition percentile (values : list Z) (percentile : nat) : Z :=
  match values with [] => 0 | _ => default 0 (values !! rank_of (length values) percentile) end.
(** The distances between neighbours, summed from zero. *)
Fixpoint total_delta (acc : f64) (values : list Z) : f64 :=
  match values with
  | first :: ((second :: _) as rest) =>
      total_delta (acc + fabs (f64_of_Z second - f64_of_Z first))%f64 rest
  | _ => acc
  end.
Definition summary (self : ProbeMetrics) : option ProbeSummary :=
  match latencies self with
  | [] => None
  | _ =>
      let values := merge_sort Z.le (as_millis <$> latencies self) in
      let n := length values in
      let total := (n + length (errors self))%nat in
      Some {| avg_ms := (f64_of_Z (foldr Z.add 0%Z values) / f64_of_nat n)%f64;
              min_ms := default 0 (head values); max_ms := default 0 (last values);
              p50_ms := percentile values 50; p95_ms := percentile values 95;
              jitter_ms := if (n <=? 1)%nat then 0.0%f64
                           else (total_delta 0.0 values / f64_of_nat (n - 1))%f64;
              success_rate := if (total =? 0)%nat then 0.0%f64 else (f64_of_nat n / f64_of_nat total)%f64;
              ok_count := n; err_count := length (errors self); ps_timeout_count := timeout_count self |}
  end.

(** What a probe with a summary adds to the score. *)
Definition probe_score (s : ProbeSummary) : f64 :=
  let error_rate := (1.0 - success_rate s)%f64 in
  (f64_of_Z (p50_ms s) * 0.20 + f64_of_Z (p95_ms s) * 0.45 + jitter_ms s * 0.15 + error_rate * 500.0
   + f64_of_nat (ps_timeout_count s) * 25.0)%f64.
Definition blend_step (acc : f64 * nat) (metric : ProbeMetrics) : f64 * nat :=
  match summary metric with
  | Some s => ((acc.1 + probe_score s)%f64, S acc.2)
  | None => acc
  end.
Definition blended_score (metrics : list ProbeMetrics) : f64 :=
  let '(score, counted) := foldl blend_step (0.0%f64, 0%nat) metrics in
  if (counted =? 0)%nat then f64_inf else (score / f64_of_nat counted)%f64.

(** ** An endpoint *)

Record ProbeReport := {
  label : string;
  metrics : ProbeMetrics }.
Record EndpointBenchmarkReport := {
  br_id : usize;
  br_kind : string;
  br_name : string;
  br_url : string;
  read_score : f64;
  send_score : f64;
  probes : list ProbeReport }.

(** The calls of an endpoint, by the name of the probe; whether it has a recent
    transaction; the errors of the signer's key and of the relay's URL; and the URL
    parser, which gives a scheme and perhaps a host. *)
Class Probed := {
  probe_call : usize -> string -> nat -> Duration * option string;
  recent_transaction : usize -> bool;
  sponsor_wallet_error : string -> option string;
  relay_url_error : string -> option string;
  url_parse : string -> option (string * option string) }.

Section Endpoints.
Context {host : Host} {net : Probed}.
Context (config : Config).

Definition benchmark_bundle_submission (endpoint : usize) : ProbeMetrics :=
  let samples := Z.to_nat (env_u64 env "NETWORK_BENCHMARK_BUNDLE_SAMPLES" 3) in
  match sponsor_wallet_error (executor_private_key config) with
  | Some err => single_error ("failed to load sponsor wallet: " +:+ err)
  | None =>
      match relay_url_error (flashbots_relay config) with
      | Some err => single_error ("invalid relay url: " +:+ err)
      | None => measure_async samples (probe_call endpoint "send_bundle") 0
      end
  end.

Definition benchmark_endpoint (handle : RpcEndpointSnapshot) (has_wallets : bool) (samples rounds : nat)
    (bench_bundle : bool) : EndpointBenchmarkReport :=
  let measured name := measure_rounds rounds samples (probe_call (s_id handle) name) in
  let with_wallet name := if has_wallets then measured name else single_error "skipped: no wallets loaded" in
  let block_metrics := measured "get_block_number" in
  let gas_metrics := measured "get_gas_price" in
  let batch_metrics := with_wallet "get_balances_batch" in
  let nonce_metrics := with_wallet "get_transaction_count" in
  let logs_metrics := measured "get_logs" in
  let call_metrics := measured "eth_call" in
  let receipt_metrics :=
    if recent_transaction (s_id handle) then measured "get_transaction_receipt"
    else single_error "skipped: no recent transaction hash available" in
  let bundle_metrics :=
    if bench_bundle then benchmark_bundle_submission (s_id handle)
    else single_error "skipped: set NETWORK_BENCHMARK_BUNDLE=true" in
  {| br_id := s_id handle; br_kind := s_kind handle; br_name := s_name handle; br_url := s_url handle;
     read_score := blended_score [block_metrics; gas_metrics; batch_metrics; nonce_metrics; logs_metrics;
                                  call_metrics; receipt_metrics];
     send_score := if bench_bundle then blended_score [bundle_metrics]
                   else blended_score [block_metrics; nonce_metrics; call_metrics];
     probes := [ {| label := "get_block_number"; metrics := block_metrics |};
                 {| label := "get_gas_price"; metrics := gas_metrics |};
                 {| label := "get_balances_batch"; metrics := batch_metrics |};
                 {| label := "get_transaction_count"; metrics := nonce_metrics |};
                 {| label := "get_logs"; metrics := logs_metrics |};
                 {| label := "eth_call"; metrics := call_metrics |};
                 {| label := "get_transaction_receipt"; metrics := receipt_metrics |};
                 {| label := "send_bundle"; metrics := bundle_metrics |} ] |}.

(** ** The benchmark *)

Definition by_id (a b : EndpointBenchmarkReport) : comparison := Nat.compare (br_id a) (br_id b).
(** [None]: not asked for. The endpoints answer in the order [finished]. *)
Definition maybe_run_network_benchmark (handles : list RpcHandle) (snapshots : list RpcEndpointSnapshot)
    (wallets : nat) (finished : list EndpointBenchmarkReport -> list EndpointBenchmarkReport)
  : option (string + list EndpointBenchmarkReport) :=
  if negb (env_flag env "RUN_NETWORK_BENCHMARK") then None
  else
    let samples := Z.to_nat (env_u64 env "NETWORK_BENCHMARK_SAMPLES" 12) in
    let rounds := Z.to_nat (Z.max (env_usize env "NETWORK_BENCHMARK_ROUNDS" 1) 1) in
    let wallet_sample_size := Nat.min (Nat.max (Z.to_nat (env_usize env "NETWORK_BENCHMARK_WALLETS" 25)) 1)
                                (Nat.max wallets 1) in
    let sampled := Nat.min (Nat.min wallet_sample_size wallets) wallets in
    let bench_bundle := env_flag env "NETWORK_BENCHMARK_BUNDLE" && uses_bundle_relays config in
    Some (if forallb (fun s => existsb (fun h => (h_id h =? s_id s)%nat) handles) snapshots then
            inr (sort_by by_id (finished ((fun s =>
              benchmark_endpoint s (0 <? sampled)%nat samples rounds bench_bundle) <$> snapshots)))
          else inl "benchmark endpoint lookup failed").

(** ** What is printed *)

Definition by_read_score (left right : EndpointBenchmarkReport) : comparison :=
  total_cmp (read_score left) (read_score right).
Definition by_send_score (left right : EndpointBenchmarkReport) : comparison :=
  total_cmp (send_score left) (send_score right).
Definition scores_text (report : EndpointBenchmarkReport) (first second : string) (a b : f64) : string :=
  "  - " +:+ br_name report +:+ " [" +:+ br_kind report +:+ "] " +:+ first +:+ "=" +:+ fmt_prec 2 a +:+ " " +:+
  second +:+ "=" +:+ fmt_prec 2 b.
Definition print_rankings (reports : list EndpointBenchmarkReport) : list string :=
  match reports with
  | [] => []
  | _ =>
      let read_sorted := sort_by by_read_score reports in
      let send_sorted := sort_by by_send_score reports in
      ["=== Benchmark Ranking ==="] ++
      match head read_sorted with
      | Some best => ["Best read RPC: " +:+ br_name best +:+ " [" +:+ br_kind best +:+ "] score=" +:+
                      fmt_prec 2 (read_score best)]
      | None => []
      end ++
      match head send_sorted with
      | Some best => ["Best send path: " +:+ br_name best +:+ " [" +:+ br_kind best +:+ "] score=" +:+
                      fmt_prec 2 (send_score best)]
      | None => []
      end ++
      ["Read ranking:"] ++
      ((fun r => scores_text r "read" "send" (read_score r) (send_score r)) <$> take 5 read_sorted) ++
      ["Send ranking:"] ++
      ((fun r => scores_text r "send" "read" (send_score r) (read_score r)) <$> take 5 send_sorted) ++
      [""]
  end%list.

(** The part of [s] before the first [p]. *)
Fixpoint before (s p : string) : option string :=
  if starts_with s p then Some ""
  else match s with "" => None | String c t => String c <$> before t p end.
Definition redact_rpc_url (url : string) : string :=
  match before url "/v3/" with
  | Some prefix => prefix +:+ "/v3/<redacted>"
  | None =>
      match url_parse url with
      | Some (scheme, Some host) => scheme +:+ "://" +:+ host +:+ "/<redacted>"
      | _ => "<redacted-rpc-url>"
      end
  end.

Definition summary_line (label : string) (s : ProbeSummary) : string :=
  "  " +:+ label +:+ ": ok=" +:+ show_nat (ok_count s) +:+ " err=" +:+ show_nat (err_count s) +:+ " timeout=" +:+
  show_nat (ps_timeout_count s) +:+ " success=" +:+ fmt_prec 1 (success_rate s * 100.0)%f64 +:+ "% avg=" +:+
  fmt_prec 1 (avg_ms s) +:+ "ms p50=" +:+ show_Z (p50_ms s) +:+ "ms p95=" +:+ show_Z (p95_ms s) +:+ "ms min=" +:+
  show_Z (min_ms s) +:+ "ms max=" +:+ show_Z (max_ms s) +:+ "ms jitter=" +:+ fmt_prec 1 (jitter_ms s) +:+ "ms".
Definition print_metrics (label : string) (self : ProbeMetrics) : list string :=
  ([match summary self with
    | Some s => summary_line label s
    | None => "  " +:+ label +:+ ": no successful samples"
    end] ++
   ((fun error => "    error: " +:+ error) <$> take 3 (errors self)) ++
   (if (3 <? length (errors self))%nat
    then ["    error: ... and " +:+ show_nat (length (errors self) - 3) +:+ " more"] else []))%list.
Definition print_endpoint_report (report : EndpointBenchmarkReport) : list string :=
  (["[" +:+ br_kind report +:+ "] " +:+ br_name report +:+ " (" +:+ redact_rpc_url (br_url report) +:+ ")";
    "  scores: read=" +:+ fmt_prec 2 (read_score report) +:+ " send=" +:+ fmt_prec 2 (send_score report)] ++
   (probe ← probes report; print_metrics (label probe) (metrics probe)) ++ [""])%list.
End Endpoints.

(** ** What the scores do and do not see *)

(** Every call is counted once, as a latency or as an error. *)
Lemma measure_async_counts samples f first :
  let m := measure_async samples f first in
  (length (latencies m) + length (errors m))%nat = samples /\ (timeout_count m <= length (errors m))%nat.
Proof.
  cbv zeta. unfold measure_async.
  assert (forall l m, (timeout_count m <= length (errors m))%nat ->
    let m' := foldl call_outcome m l in
    (length (latencies m') + length (errors m') = length (latencies m) + length (errors m) + length l)%nat /\
    (timeout_count m' <= length (errors m'))%nat) as F.
  { induction l as [|[d [err|]] l IH]; intros m T; [cbn; lia| |];
      (match goal with |- context [foldl _ _ (?a :: l)] => destruct (IH (call_outcome m a)) as [I1 I2] end;
       [cbn; destruct (is_timeout_error _) || idtac; cbn; rewrite ?length_app; simpl; lia|];
       cbv zeta; cbn [foldl]; split; [|exact I2]; rewrite I1; cbn;
       try destruct (is_timeout_error _); cbn; rewrite !length_app; simpl; lia). }
  destruct (F (f <$> seq first samples) ProbeMetrics_default) as [F1 F2]; [done|].
  split; [|exact F2]. rewrite F1, length_fmap, length_seq. done.
Qed.
Lemma measure_rounds_counts rounds samples f :
  let m := measure_rounds rounds samples f in
  (length (latencies m) + length (errors m))%nat = (rounds * samples)%nat /\
  (timeout_count m <= length (errors m))%nat.
Proof.
  cbv zeta. unfold measure_rounds.
  assert (forall first m, (timeout_count m <= length (errors m))%nat ->
    let m' := measure_rounds_from rounds samples f first m in
    (length (latencies m') + length (errors m') = length (latencies m) + length (errors m) + rounds * samples)%nat /\
    (timeout_count m' <= length (errors m'))%nat) as F.
  { induction rounds as [|rounds IH]; intros first m T; [cbn; lia|]. cbn [measure_rounds_from].
    destruct (measure_async_counts samples f first) as [A1 A2]. cbv zeta in *.
    set (round := measure_async samples f first) in *. clearbody round.
    edestruct IH as [I1 I2]; [|split; [rewrite I1|exact I2]]; cbn; rewrite ?length_app; lia. }
  destruct (F 0%nat ProbeMetrics_default) as [F1 F2]; [done|]. split; [|exact F2]. rewrite F1. done.
Qed.

Lemma merge_sort_perm_eq (l k : list Z) : l ≡ₚ k -> merge_sort Z.le l = merge_sort Z.le k.
Proof.
  intros P. apply (StronglySorted_unique Z.le).
  1,2: apply Sorted_StronglySorted; [apply _|apply Sorted_merge_sort, _].
  by rewrite !merge_sort_Permutation.
Qed.

(** The order in which the latencies came is lost before the jitter is computed. *)
Lemma summary_ignores_order m latencies' :
  latencies m ≡ₚ latencies' -> summary (m <[ latencies ::= latencies' ]>) = summary m.
Proof.
  intros P. unfold summary. cbn.
  rewrite (merge_sort_perm_eq (as_millis <$> latencies') (as_millis <$> latencies m)) by (by rewrite P).
  destruct (latencies m) as [|x l] eqn:E, latencies' as [|y k]; try done.
  - apply Permutation_length in P. done.
  - apply Permutation_length in P. done.
Qed.

Lemma blend_silent acc m : latencies m = [] -> blend_step acc m = acc.
Proof. intros E. unfold blend_step, summary. by rewrite E. Qed.

(** A probe none of whose calls succeeds does not count in the score, whatever
    its errors and timeouts: an endpoint that always fails a call has the score
    of one that was never asked, and only one that fails all of them has the worst. *)
Theorem dead_probes_cost_nothing probes :
  blended_score probes = blended_score (filter (fun m => latencies m <> []) probes) /\
  (Forall (fun m => latencies m = []) probes -> blended_score probes = f64_inf).
Proof.
  assert (forall acc, foldl blend_step acc probes =
    foldl blend_step acc (filter (fun m => latencies m <> []) probes)) as F.
  { induction probes as [|m probes IH]; intros acc; [done|]. rewrite filter_cons. cbn [foldl].
    case_decide as D; [cbn [foldl]; by rewrite IH|]. by rewrite IH, blend_silent. }
  unfold blended_score. split; [by rewrite F|]. intros Dead.
  assert (foldl blend_step (0%f64, 0%nat) probes = (0%f64, 0%nat)) as ->; [|done]. clear F.
  induction Dead as [|m probes D Dead IH]; [done|]. cbn [foldl]. by rewrite blend_silent.
Qed.

(** Blocks in 5 ms; every gas price times out. *)
Definition slow_gas : ProbeMetrics := {| latencies := []; errors := ["timeout"; "timed out"]; timeout_count := 2 |}.
Definition quick_block : ProbeMetrics := {| latencies := [5000000; 5000000]; errors := []; timeout_count := 0 |}.
Lemma dead_probes_cost_nothing_witness :
  blended_score [quick_block; slow_gas] = blended_score [quick_block] /\ blended_score [slow_gas] = f64_inf.
Proof.
  split.
  - rewrite (proj1 (dead_probes_cost_nothing [quick_block; slow_gas])). reflexivity.
  - apply (proj2 (dead_probes_cost_nothing [slow_gas])). by constructor.
Defined.

(** The figures of a probe are those of its latencies as a collection: in
    whatever order they came, the summary and the score are the same, so the
    jitter says nothing of how one call differs from the next. *)
Theorem jitter_ignores_order m latencies' :
  latencies m ≡ₚ latencies' ->
  let m' := m <[ latencies ::= latencies' ]> in
  summary m' = summary m /\ forall rest, blended_score (m' :: rest) = blended_score (m :: rest).
Proof.
  intros P m'. assert (summary m' = summary m) as S by exact (summary_ignores_order m latencies' P).
  clearbody m'. split; [exact S|].
  assert (forall acc, blend_step acc m' = blend_step acc m) as B by (intros acc; unfold blend_step; by rewrite S).
  intros rest. unfold blended_score. cbn [foldl]. by rewrite B.
Qed.
Definition alternating : ProbeMetrics :=
  {| latencies := [1000000; 101000000; 1000000; 101000000]; errors := []; timeout_count := 0 |}.
Lemma jitter_ignores_order_witness :
  (fun s => jitter_ms s) <$> summary alternating = Some (f64_of_Z 100 / f64_of_Z 3)%f64 /\
  summary (alternating <[ latencies ::= [1000000; 1000000; 101000000; 101000000] ]>) = summary alternating.
Proof.
  split; [vm_compute; reflexivity|].
  refine (proj1 (jitter_ignores_order alternating [1000000; 1000000; 101000000; 101000000] _)).
  cbn. constructor. apply Permutation_swap.
Defined.

(** The endpoint named best is one of those probed, with the least score in the
    order of the bit patterns. *)
Theorem best_endpoint_has_least_score reports best :
  head (sort_by by_read_score reports) = Some best ->
  best ∈ reports /\ forall r, r ∈ reports -> f64_key (read_score best) <= f64_key (read_score r).
Proof.
  intros H. pose proof (sort_by_sorted (fun r => f64_key (read_score r)) reports) as S.
  pose proof (sort_by_perm by_read_score reports) as P.
  change (sort_by _ reports) with (sort_by by_read_score reports) in S.
  destruct (sort_by by_read_score reports) as [|b l]; [done|]. injection H as ->.
  apply sorted_keys_cons in S as [S _]. split; [rewrite <- P; by left|].
  intros r R. rewrite <- P in R. apply elem_of_cons in R as [->|R]; [lia|by apply S].
Qed.
