(* ===== verification/Background.v ===== *)
(** * The tasks beside the main loop ([main.rs], [mev/runtime.rs])

    The worker that stores the candidates for a replay, the refresh of the policy
    from past outcomes, the monitor of the wallets' balances and what is warned of
    at the start: computations on the handle of the dashboard, which has the
    storage and the fleet; and [LatencyTrace], what is reported there of the times
    of a candidate's stages. *)
From S2P Require Import Prelude F64 Text Ethers Config ConfigEnv Rpc Pnl Adaptive EnvVars Evaluate.
From S2P Require Import Storage Telemetry Dashboard DashboardHandle.
#[local] Open Scope string_scope.
#[local] Open Scope Z_scope.

Section Background.
Context `{Database, Chrono, Files, Panel}.

(** ** The replay queue *)

Definition replay_fork_rpc_configured : bool :=
  match variables "MEV_REPLAY_RPC_URL_POLYGON", variables "TENDERLY_FORK_URL_POLYGON" with
  | Some value, _ | None, Some value => negb (string_eqb (trim value) "")
  | None, None => false
  end.

Definition replay_candidate_record (debug_hash : H256 -> string) (candidate : ReplayCandidate)
    (status detail : string) : ReplayCandidateRecord :=
  {| cr_tx_hash := debug_hash (rc_tx_hash candidate); cr_selector := rc_selector candidate;
     cr_target := rc_target candidate; cr_pool := rc_pool candidate;
     cr_path := String.concat ">" (debug_address <$> rc_path candidate);
     cr_amount_in := show_Z (rc_amount_in candidate);
     cr_amount_out_min := match rc_amount_out_min candidate with Some v => show_Z v | None => "0" end;
     cr_gas_gwei := rc_gas_gwei candidate; cr_block_number := rc_block_number candidate;
     cr_expected_profit := rc_expected_profit candidate; cr_confidence := rc_confidence candidate;
     cr_decode_source := rc_decode_source candidate; cr_status := status; cr_detail := detail |}.

(** The queue of the worker: its capacity and the pause between two candidates. *)
Definition replay_queue_enabled : bool := env_bool variables "MEV_REPLAY_QUEUE_ENABLED" true.
Definition replay_capacity : Z := env_usize_clamped variables "MEV_REPLAY_QUEUE_CAPACITY" 512 16 8192.
Definition replay_max_per_min : Z := env_usize_clamped variables "MEV_REPLAY_MAX_PER_MIN" 10 1 600.
Definition replay_delay_ms : Z := Z.max (60000 / Z.max replay_max_per_min 1) 100.
Definition replay_worker_starts : DashM unit :=
  event "info" ("replay candidate worker enabled capacity=" +:+ show_Z replay_capacity +:+ " max_per_min=" +:+
                show_Z replay_max_per_min +:+ " fork_rpc=" +:+
                (if replay_fork_rpc_configured then "configured" else "disabled")).

(** Every candidate is stored, then deferred, and scored as neither successful nor
    reverted. *)
Definition replay_worker_turn (debug_hash : H256 -> string) (candidate : ReplayCandidate) : DashM unit :=
  let record := replay_candidate_record debug_hash candidate in
  stamped (fun now => record_replay_candidate now
             (record "replay_candidate" "queued for offline fork verification"));;
  stamped (fun now => record_replay_candidate now
             (record "deferred" (if replay_fork_rpc_configured
                                 then "fork replay rpc configured; execution adapter pending"
                                 else "fork replay rpc disabled; no hot-path rpc used")));;
  stamped (fun now => record_selector_replay_score now (rc_selector candidate) (rc_target candidate)
             (rc_pool candidate) false false (rc_expected_profit candidate) 0.0%f64
             (f64_of_Z (rc_gas_limit candidate)));;
  record_reject_reason "replay_worker" "candidate_persisted".

(** ** Past outcomes

    [None]: the lock of the policy is poisoned. *)
Definition refresh_historical_profiles (adaptive : option AdaptivePolicy) : DashM (option AdaptivePolicy) :=
  profiles ← in_storage (outcome_profiles 3 256);
  match profiles with
  | inr profiles =>
      event "info" ("historical profile refresh loaded " +:+ show_nat (length profiles) +:+
                    " pair/router/hour profiles");;
      mret ((fun model => apply_historical_profiles model profiles) <$> adaptive)
  | inl _ => mret adaptive
  end.

(** ** The wallets' balances *)

Definition executor_buffer_status (config : Config) (balance_eth : f64) : string :=
  if (balance_eth <? executor_min_buffer_eth (mev config))%f64 then "underfunded"
  else if (balance_eth >? executor_max_buffer_eth (mev config))%f64 then "overfunded"
  else if (balance_eth <? executor_target_buffer_eth (mev config))%f64 then "below_target"
  else "healthy".
(** Through the decimal text of the amount. *)
Definition main_wei_to_eth_f64 (value : U256) : f64 := (default 0 (parse_f64 (show_Z value)) / 1e18)%f64.

Record Monitor := {
  failure_streak : u32;
  next_sleep : Z }.
#[export] Instance Monitor_eta : RecordEta Monitor :=
  fields Build_Monitor <&> failure_streak <&> next_sleep.
Definition Monitor_new : Monitor := {| failure_streak := 0; next_sleep := 5 * secs |}.

(** What an endpoint answers in a turn, and how long the probes took. *)
Record Probe := {
  block_number : string + u64;
  block_elapsed : Z;
  executor_balance : option U256;
  vault_balance : option U256;
  profit_balance : option U256;
  control_balance : option U256;
  probe_elapsed : Z }.

Definition wallet_snapshot (role : string) (address : Address) (balance_eth : f64) (rpc status note : string)
  : WalletSnapshot :=
  {| wl_role := role; wl_address := debug_address address; wl_balance_eth := fmt_fixed 6 balance_eth;
     wl_rpc := rpc; wl_status := status; wl_note := note |}.
Definition of_balance (balance : option U256) (f : f64 -> WalletSnapshot) : list WalletSnapshot :=
  match balance with Some balance => [f (main_wei_to_eth_f64 balance)] | None => [] end.

Definition probe_failed (m : Monitor) (endpoint : RpcHandle) (err : string) : DashM (Monitor * Z) :=
  in_fleet (record_failure rpc_clock (h_id endpoint) (classify_failure err));;
  let streak := u32_sadd (failure_streak m) 1 in
  (if (streak <=? 3) || (streak mod 10 =? 0) then
     event "warn" ("wallet monitor rpc probe failed endpoint=" +:+ h_name endpoint +:+ ": " +:+ err)
   else skip);;
  mret (m <[ failure_streak ::= streak ]>, 4 * secs).

(** The executor's balance also decides how long the monitor sleeps. *)
Definition show_executor (config : Config) (m : Monitor) (balance : option U256) : DashM Monitor :=
  match balance with
  | None => mret m
  | Some balance =>
      let balance_eth := main_wei_to_eth_f64 balance in
      let status := executor_buffer_status config balance_eth in
      set_executor_balance balance_eth status;;
      mret (m <[ next_sleep ::= if string_eqb status "underfunded" then 30 * secs else 5 * secs ]>)
  end.
Definition snapshots_of (config : Config) (name : string) (p : Probe) : list WalletSnapshot :=
  (of_balance (executor_balance p) (fun eth =>
     wallet_snapshot "executor" (executor_address config) eth name (executor_buffer_status config eth)
       "hot execution wallet") ++
   of_balance (profit_balance p) (fun eth =>
     wallet_snapshot "profit" (profit_address config) eth name
       (if (eth >? 0.0)%f64 then "harvesting" else "idle") "realized pnl destination") ++
   of_balance (vault_balance p) (fun eth =>
     wallet_snapshot "vault" (vault_address config) eth name "reserve" "cold treasury reserve") ++
   of_balance (control_balance p) (fun eth =>
     wallet_snapshot "control" (control_address config) eth name "control" "coordination / admin path"))%list.

(** One turn of the loop: what it keeps and how long it sleeps after. *)
Definition wallet_monitor_turn (powf : f64 -> f64 -> f64) (config : Config)
    (ask : RpcHandle -> Probe) (m : Monitor) : DashM (Monitor * Z) :=
  paused ← runtime_paused;
  if (paused : bool) then mret (m, 5 * secs)
  else
    candidates ← in_fleet (read_candidates rpc_clock powf (variables "RPC_READ_ROTATE_TOP_N") 1);
    match head candidates with
    | None => mret (m, 3 * secs)
    | Some endpoint =>
        let p := ask endpoint in
        match block_number p with
        | inl err => probe_failed m endpoint err
        | inr block =>
            in_fleet (record_success rpc_clock (h_id endpoint) (block_elapsed p) (Some block));;
            m ← show_executor config m (executor_balance p);
            (match snapshots_of config (h_name endpoint) p with
             | [] => skip
             | snapshots =>
                 set_hot_wallets snapshots;;
                 record_latency "wallet_probe" (probe_elapsed p / millis) None
                   (Some ("endpoint=" +:+ h_name endpoint))
             end);;
            mret (m <[ failure_streak ::= 0 ]>, next_sleep m)
        end
    end.

(** ** What is warned of at the start *)

Definition warn_if (b : bool) (message : string) : list (string * string) := if b then [("warn", message)] else [].
Definition start_events (config : Config) (duplicate_keys invalid_keys : nat) : list (string * string) :=
  let same := Z.eqb in
  let control := control_address config in
  let vault := vault_address config in
  let profit := profit_address config in
  let executor := executor_address config in
  (warn_if (0 <? duplicate_keys)%nat
     ("ignored " +:+ show_nat duplicate_keys +:+ " duplicate keys from " +:+ Config.wallets config) ++
   warn_if (0 <? invalid_keys)%nat
     ("ignored " +:+ show_nat invalid_keys +:+ " invalid keys from " +:+ Config.wallets config) ++
   warn_if (same control executor) "control wallet matches executor wallet; hot/cold segregation is compromised" ++
   warn_if (same vault executor) "vault wallet matches executor wallet; hot/cold segregation is compromised" ++
   warn_if (same profit executor)
     "profit wallet matches executor wallet; hot-wallet profit isolation is compromised" ++
   (if same control vault && same vault profit then
      [("info",
        "initial two-wallet layout active: executor hot wallet is separated; control/vault/profit share one cold wallet")]
    else
      warn_if (same vault profit || same control vault || same control profit)
        "partial cold-wallet overlap detected; acceptable for bootstrap, split control/vault/profit before larger capital") ++
   warn_if (negb (enabled (mev config)))
     "fee extraction engine is disabled: set MEV_ENGINE_ENABLED=true")%list.
Definition warn_at_start (config : Config) (duplicate_keys invalid_keys : nat) : DashM unit :=
  for_each (fun '(level, message) => event level message) (start_events config duplicate_keys invalid_keys).
End Background.

(** ** The latency trace of a candidate *)

Module LatencyTrace.
Record CandidateLatencyTrace := {
  lookup_pending_tx_us : option u64;
  decode_swap_us : option u64;
  context_signal_us : option u64;
  fast_preflight_us : option u64;
  adaptive_preflight_us : option u64;
  payload_build_us : option u64;
  ev_gate_us : option u64;
  quality_gate_us : option u64;
  adaptive_quote_us : option u64;
  total_internal_us : option u64 }.

(** [push_stage_pair]: a stage that was not timed is left out. *)
Definition stage_pair (stage : string) (value : option u64) : list (string * u64) :=
  match value with Some us => [(stage, us)] | None => [] end.
Definition stage_pairs (self : CandidateLatencyTrace) : list (string * u64) :=
  (stage_pair "rt.lookup_pending_tx" (lookup_pending_tx_us self) ++
   stage_pair "rt.decode_swap" (decode_swap_us self) ++
   stage_pair "rt.context_signal" (context_signal_us self) ++
   stage_pair "rt.fast_preflight" (fast_preflight_us self) ++
   stage_pair "rt.adaptive_preflight" (adaptive_preflight_us self) ++
   stage_pair "rt.payload_build" (payload_build_us self) ++
   stage_pair "rt.ev_gate" (ev_gate_us self) ++
   stage_pair "rt.quality_gate" (quality_gate_us self) ++
   stage_pair "rt.adaptive_quote" (adaptive_quote_us self) ++
   stage_pair "rt.total_internal" (total_internal_us self))%list.

(** [u64::div_ceil]. *)
Definition div_ceil (n d : Z) : Z := if n mod d =? 0 then n / d else n / d + 1.

Section Emit.
Context `{Database, Chrono, Files, Panel} (debug_hash : H256 -> string).

Definition trace_message (self : CandidateLatencyTrace) (victim_tx : H256) (outcome detail : string) : string :=
  let us (stage : option u64) := show_Z (default 0 stage) in
  "latency trace victim=" +:+ debug_hash victim_tx +:+ " outcome=" +:+ outcome +:+ " detail=" +:+ detail +:+
  " total_us=" +:+ us (total_internal_us self) +:+ " lookup_us=" +:+ us (lookup_pending_tx_us self) +:+
  " decode_us=" +:+ us (decode_swap_us self) +:+ " context_us=" +:+ us (context_signal_us self) +:+
  " fast_us=" +:+ us (fast_preflight_us self) +:+ " preflight_us=" +:+ us (adaptive_preflight_us self) +:+
  " payload_us=" +:+ us (payload_build_us self) +:+ " ev_us=" +:+ us (ev_gate_us self) +:+
  " quality_us=" +:+ us (quality_gate_us self) +:+ " adaptive_us=" +:+ us (adaptive_quote_us self).

Definition emit_trace (self : CandidateLatencyTrace) (config : Config) (victim_tx : H256) (outcome detail : string) :
    DashM unit :=
  if negb (latency_trace (mev config)) then skip
  else
    for_each (fun '(stage, duration_us) =>
      record_latency stage (div_ceil duration_us 1000) None
        (Some ("victim=" +:+ debug_hash victim_tx +:+ " outcome=" +:+ outcome +:+ " " +:+ show_Z duration_us +:+ "us")))
      (stage_pairs self);;
    let total_us := default 0 (total_internal_us self) in
    let ready := string_eqb outcome "execution_ready" in
    if ready || (latency_trace_warn_us (mev config) <=? total_us) then
      event (if ready then "info" else "warn") (trace_message self victim_tx outcome detail)
    else skip.

(** ** What is reported *)

Lemma div_ceil_spec n : 0 <= n -> n <= 1000 * div_ceil n 1000 < n + 1000.
Proof.
  intros N. unfold div_ceil. pose proof (Z.div_mod n 1000). pose proof (Z.mod_pos_bound n 1000).
  destruct (Z.eqb_spec (n mod 1000) 0); lia.
Qed.

(** Every stage is reported once, under its own name. *)
Lemma stage_names_distinct self : NoDup (stage_pairs self).*1.
Proof.
  assert (forall stage v, exists l, (stage_pair stage v).*1 = l /\ l `sublist_of` [stage]) as S.
  { intros stage [us|]; eexists; (split; [reflexivity|]); cbn; [done|apply sublist_nil_l]. }
  unfold stage_pairs. rewrite !fmap_app.
  eapply sublist_NoDup; [|repeat (apply sublist_app; [match goal with |- context [stage_pair ?s ?v] =>
    destruct (S s v) as (l & -> & L); exact L end|]); match goal with |- context [stage_pair ?s ?v] =>
    destruct (S s v) as (l & -> & L); exact L end].
  apply (bool_decide_eq_true_1 _). vm_compute. reflexivity.
Qed.

(** A trace that is switched off reports nothing. *)
Lemma trace_off self config victim_tx outcome detail h :
  latency_trace (mev config) = false -> emit_trace self config victim_tx outcome detail h = Done (h, tt).
Proof. intros T. unfold emit_trace. by rewrite T. Qed.
End Emit.
End LatencyTrace.
