(* ===== verification/BackgroundProps.v ===== *)
(** * What the tasks beside the main loop do to the reports

    The scores of replays as an invariant of every task that works on the handle. *)
From S2P Require Import Prelude F64 Text Ethers Config ConfigEnv Rpc Payload Adaptive Evaluate Storage Telemetry.
From S2P Require Import Dashboard DashboardHandle DashboardFacts DashboardSample Background.
#[local] Open Scope string_scope.
#[local] Open Scope Z_scope.

(** ** Scores of replays *)

Section Scores.
Context `{Database, Chrono, Files, Panel}.

(** One turn of one of the tasks: a report, request or flush; a replay; the
    monitor; the refresh of the policy. *)
Inductive worked (h h' : DashboardHandle) : Prop :=
| worked_command c : perform c h = Done (h', tt) -> worked h h'
| worked_replay debug_hash candidate : replay_worker_turn debug_hash candidate h = Done (h', tt) -> worked h h'
| worked_monitor powf config ask m r : wallet_monitor_turn powf config ask m h = Done (h', r) -> worked h h'
| worked_refresh adaptive r : refresh_historical_profiles adaptive h = Done (h', r) -> worked h h'.

Definition scores (h : DashboardHandle) := selector_replay_scores_table (tables (dh_storage h)).
(** No row has a success or a revert. *)
Definition unscored (m : gmap (string * string * string * string) ReplayScoreRow) : Prop :=
  map_Forall (fun _ row => sc_replay_success_count row = 0 /\ sc_replay_revert_count row = 0) m.

Ltac scores_storage :=
  lazymatch goal with
  | |- DashboardFacts.frame scores _ =>
      apply frame_tables with (v := selector_replay_scores_table);
        [unfold scores; simpl; intros ? ? -> _; done|table_frame]
  end.
Ltac scores_frame := frame_with ltac:(idtac; scores_storage).

Lemma command_scores c : DashboardFacts.frame scores (perform c).
Proof. destruct c; cbn [perform]; scores_frame. Qed.
Lemma monitor_scores powf config ask m : DashboardFacts.frame scores (wallet_monitor_turn powf config ask m).
Proof. scores_frame. Qed.
Lemma refresh_scores adaptive : DashboardFacts.frame scores (refresh_historical_profiles adaptive).
Proof. scores_frame. Qed.

(** The one statement that writes the table. *)
Lemma score_unscored now selector target pool expected simulated gas s :
  unscored (selector_replay_scores_table (tables s)) ->
  unscored (selector_replay_scores_table (tables
    (record_selector_replay_score now selector target pool false false expected simulated gas s).1)).
Proof.
  intros U. unfold record_selector_replay_score, write, execute, statement. cbn.
  unfold mbind, StorageM_bind. cbv beta.
  destruct (answers (statements s)); [|exact U]. destruct (storable _ && storable _ && storable _); [|exact U].
  cbn. unfold Storage.upsert. destruct (selector_replay_scores_table (tables s) !! _) as [old|] eqn:E.
  2: { cbn. apply map_Forall_insert_2; [done|exact U]. }
  destruct (U _ _ E) as [U1 U2]. cbn.
  destruct (int_add (sc_replay_cases old) 1) as [cases|]; [|exact U].
  destruct (int_add (sc_replay_success_count old) 0) as [successes|] eqn:S; [|exact U].
  destruct (int_add (sc_replay_revert_count old) 0) as [reverts|] eqn:R; [|exact U].
  cbn. apply int_add_exact in S, R. apply map_Forall_insert_2; [|exact U]. cbn. lia.
Qed.
Lemma replay_unscored debug_hash candidate h h' :
  replay_worker_turn debug_hash candidate h = Done (h', tt) -> unscored (scores h) -> unscored (scores h').
Proof.
  unfold replay_worker_turn. cbv zeta. intros E U.
  assert (forall status detail, DashboardFacts.frame scores (stamped (fun now => record_replay_candidate now
            (replay_candidate_record debug_hash candidate status detail)))) as F by (intros; scores_frame).
  assert (DashboardFacts.frame scores (record_reject_reason "replay_worker" "candidate_persisted")) as G by scores_frame.
  unfold mbind, DashM_bind in E.
  destruct (stamped _ h) as [[h1 []]|] eqn:E1; [|done]. apply F in E1 as [V1 _].
  destruct (stamped _ h1) as [[h2 []]|] eqn:E2; [|done]. apply F in E2 as [V2 _].
  destruct (stamped _ h2) as [[h3 []]|] eqn:E3; [|done]. apply G in E as [V _].
  rewrite V. rewrite <- V1, <- V2 in U. unfold stamped, mbind, DashM_bind, utc_now, reading, in_storage in E3.
  pose proof (score_unscored (utc_clock (dh_readings h2)) (rc_selector candidate) (rc_target candidate)
    (rc_pool candidate) (rc_expected_profit candidate) 0.0%f64 (f64_of_Z (rc_gas_limit candidate))
    (dh_storage h2) U) as S. cbn in E3.
  destruct (record_selector_replay_score _ _ _ _ _ _ _ _ _ _) as [s []]. injection E3 as <-. exact S.
Qed.
Lemma worked_unscored h h' : worked h h' -> unscored (scores h) -> unscored (scores h').
Proof.
  intros [c E|debug_hash candidate E|powf config ask m r E|adaptive r E] U.
  - by destruct (command_scores c _ _ _ E) as [-> _].
  - by eapply replay_unscored.
  - by destruct (monitor_scores _ _ _ _ _ _ _ E) as [-> _].
  - by destruct (refresh_scores _ _ _ _ E) as [-> _].
Qed.

(** ** What is recommended from them *)

Lemma no_share (n : Z) : (percent 0%Z n >=? 70.0)%f64 = false /\ (percent 0%Z n >? 20.0)%f64 = false.
Proof.
  unfold percent. destruct (n =? 0); [by vm_compute|]. change (f64_of_Z 0) with (SpecFloat.S754_zero false).
  unfold fdiv, SpecFloat.SFdiv. destruct (f64_of_Z n) as [[]|[]| |[] m e]; by vm_compute.
Qed.
Lemma unscored_watch selector target pool cases expected simulated gas seen :
  rs_recommendation (build_selector_replay_score_snapshot selector target pool cases 0 0 expected simulated gas seen)
  = "watch".
Proof.
  unfold build_selector_replay_score_snapshot. destruct (no_share cases) as [-> ->].
  rewrite andb_false_r. by destruct (3 <=? cases).
Qed.

(** C38: whatever the tasks of the program do, from a table of scores without successes
    and reverts (as it is at first) every score of a replay that is read back says
    watch: the worker scores each candidate as neither successful nor reverted,
    and nothing else writes scores, so none is ever ready or rejected. *)
Theorem replay_scores_always_watch h h' limit l :
  unscored (scores h) -> rtc worked h h' ->
  (selector_replay_scores limit (dh_storage h')).2 = inr l ->
  Forall (fun score => rs_recommendation score = "watch" /\ rs_replay_success_count score = 0 /\
                       rs_replay_revert_count score = 0) l.
Proof.
  intros U R Q. assert (unscored (scores h')) as U' by (clear Q; induction R; eauto using worked_unscored).
  unfold selector_replay_scores, query, statement in Q. cbn in Q.
  destruct (answers _); [|done]. injection Q as <-. apply Forall_fmap, Forall_forall.
  intros [[[[network selector] target] pool] row] I. unfold select in I.
  apply elem_of_take in I as (i & I & _). apply list_elem_of_lookup_2 in I. rewrite sort_by_perm, listing_perm in I.
  apply elem_of_map_to_list in I. destruct (U' _ _ I) as [S T]. cbv beta iota delta [compose]. rewrite S, T. change (column_u64 0) with 0.
  split; [apply unscored_watch|done].
Qed.
End Scores.

(** ** The monitor *)

Section Monitor.
Context `{Database, Chrono, Files, Panel} (powf : f64 -> f64 -> f64) (config : Config) (ask : RpcHandle -> Probe).

Definition monitor_ok (m : Monitor) : Prop := next_sleep m = 5 * secs \/ next_sleep m = 30 * secs.
Lemma bind_done {A B} (m : DashM A) (f : A -> DashM B) h h' b :
  (m ≫= f) h = Done (h', b) -> exists h1 a, m h = Done (h1, a) /\ f a h1 = Done (h', b).
Proof. unfold mbind, DashM_bind. destruct (m h) as [[h1 a]|]; [|done]. intros E. by exists h1, a. Qed.

(** The monitor sleeps for three, four, five or thirty seconds, thirty only while the
    executor was last seen underfunded, and forgets its failures when it is answered. *)
Lemma monitor_sleeps m h h' m' sleep :
  monitor_ok m -> wallet_monitor_turn powf config ask m h = Done (h', (m', sleep)) ->
  monitor_ok m' /\ (sleep = 3 * secs \/ sleep = 4 * secs \/ sleep = 5 * secs \/ sleep = 30 * secs) /\
  (sleep = 30 * secs -> failure_streak m' = 0 /\ next_sleep m' = 30 * secs).
Proof.
  intros M. unfold wallet_monitor_turn. intros (h1 & paused & _ & E)%bind_done.
  destruct paused; [injection E as _ <- <-; split_and!; [exact M|by right; right; left|done]|].
  apply bind_done in E as (h2 & candidates & _ & E).
  destruct (head candidates) as [endpoint|]; [|injection E as _ <- <-; split_and!; [exact M|by left|done]].
  cbv zeta in E. destruct (block_number (ask endpoint)) as [err|block].
  - unfold probe_failed in E. apply bind_done in E as (h3 & [] & _ & E). cbv zeta in E.
    apply bind_done in E as (h4 & [] & _ & E). injection E as _ <- <-. split_and!; [exact M|by right; left|done].
  - apply bind_done in E as (h3 & [] & _ & E). apply bind_done in E as (h4 & m1 & S & E).
    assert (monitor_ok m1) as M1.
    { unfold show_executor in S. destruct (executor_balance (ask endpoint)) as [balance|].
      - cbv zeta in S. apply bind_done in S as (h5 & [] & _ & S). injection S as _ <-.
        unfold monitor_ok. cbn. destruct (string_eqb _ _); [by right|by left].
      - by injection S as _ <-. }
    apply bind_done in E as (h5 & [] & _ & E). injection E as _ <- <-. unfold monitor_ok. cbn.
    split; [exact M1|]. split; [destruct M1 as [->| ->]; auto|]. by intros ->.
Qed.
End Monitor.

(** A candidate replayed on a fresh dashboard, the monitor's first turn after it. *)
Definition sample_replay : ReplayCandidate :=
  {| rc_tx_hash := 5; rc_selector := "0x38ed1739"; rc_target := "0x1f"; rc_pool := "0x07"; rc_path := [1; 2];
     rc_amount_in := 10 ^ 18; rc_amount_out_min := None; rc_gas_gwei := 30.0; rc_block_number := 100;
     rc_expected_profit := 0.01; rc_confidence := 0.9; rc_decode_source := "abi"; rc_gas_limit := 240000 |}.
Definition replayed : option (DashboardHandle * DashboardHandle) :=
  match sample_new with
  | Done h =>
      match @replay_worker_turn in_memory by_number steady_clocks show_Z sample_replay h with
      | Done (h', _) => Some (h, h')
      | Panicked => None
      end
  | Panicked => None
  end.
Lemma replayed_worked h h' :
  replayed = Some (h, h') -> @worked in_memory by_number working_files steady_clocks h h'.
Proof.
  unfold replayed. destruct sample_new as [h0|]; [|done].
  destruct (replay_worker_turn _ _ h0) as [[h1 []]|] eqn:E; [|done]. intros [= <- <-]. exact (worked_replay _ _ _ _ E).
Qed.
Lemma replay_scores_always_watch_witness :
  match replayed with
  | Some (_, h') => match (@selector_replay_scores in_memory 5 (dh_storage h')).2 with
                    | inr l => rs_recommendation <$> l = ["watch"]
                    | inl _ => False
                    end
  | None => False
  end.
Proof.
  assert (match replayed with
    | Some (h, h') => map_to_list (scores h) = [] /\ match (@selector_replay_scores in_memory 5 (dh_storage h')).2 with
        | inr l => length l = 1%nat | inl _ => False end
    | None => False end) as V by (vm_compute; split; reflexivity).
  destruct replayed as [[h h']|] eqn:E; [|exact V]. destruct V as [Z V]. apply map_to_list_empty_iff in Z.
  destruct (@selector_replay_scores in_memory 5 (dh_storage h')).2 as [e|l] eqn:Q; [exact V|].
  pose proof (@replay_scores_always_watch in_memory by_number working_files steady_clocks h h' 5 l) as T.
  assert (Forall (fun score => rs_recommendation score = "watch" /\ rs_replay_success_count score = 0 /\
                               rs_replay_revert_count score = 0) l) as F.
  { apply T; [rewrite Z; apply map_Forall_empty|by apply rtc_once, replayed_worked|exact Q]. }
  destruct l as [|x [|y l]]; [discriminate V| |discriminate V].
  apply Forall_cons in F as [[W _] _]. cbn. by rewrite W.
Defined.
